(* ===== verification/_CoqProject ===== *)
-Q . S2P
Prelude.v
Endian.v
ByteArray.v
ByteArraySpec.v
ByteArrayCodec.v
ByteArrayIov.v
StdOrdered.v
Timer.v
Fiber.v
Scheduler.v
SchedulerRun.v
SchedulerProps.v
IOManager.v
IOManagerProps.v
Hook.v
HookProps.v
CString.v
Http.v
HttpProps.v
Servlet.v
Ragel.v
HttpTable.v
HttpParser.v
HttpParserSafe.v
HttpRoundtrip.v
Stream.v
Session.v
SessionProps.v
Address.v
AddressProps.v
Decimal.v
ClientTable.v
ClientParser.v
ClientParserSafe.v
ClientRoundtrip.v
UriTable.v
Uri.v
UriProps.v
Connection.v
ConnectionProps.v
Pool.v
Socket.v
SocketProps.v
TcpServer.v
TcpServerProps.v
StreamBuffer.v
LogFormat.v
LogFormatProps.v
Logger.v
LoggerProps.v
Env.v
FsUtil.v
Yaml.v
Config.v
ConfigProps.v
LogConf.v
Locks.v
Threads.v
Daemon.v
ServerConf.v
Application.v
ApplicationProps.v
Statics.v
HttpSystem.v
HookCalls.v
HexDump.v
Util.v
LogMacros.v
Lifecycle.v
