(* ===== verification/Prelude.v ===== *)
(** Verification of the skt web framework.

    * The program

    skt is a C++ network framework for Linux. At the bottom are byte order,
    byte buffers, timers, fibers (ucontext coroutines) and a scheduler that
    runs fibers on threads. IOManager joins scheduler and timers with epoll;
    the hook library makes blocking system calls yield the fiber instead. On
    top are sockets, servers, addresses, streams, HTTP messages, the parsers that
    Ragel generates for requests, responses and URIs, the server (session,
    dispatcher, handleClient) and the client (connection, connection pool).
    Beside them are the logger, the configuration that sets up loggers and
    other parts at run time, the environment of the process, and the
    application, which starts the configured servers, as a daemon if it should.

    * The files

    - [Prelude] (this file): outcomes of C++ code, the state and error monad
      [M], machine integers, lists with lengths in Z, tactics and hints.
    - [StdOrdered]: std::set and std::map with a comparator. [CString]:
      std::string and the C functions used on it (strcasecmp, strtol, ...).
      [Decimal]: printed numbers are read back.
    - [Endian]: skt/endian/endian.h.
    - [ByteArray], [ByteArrayCodec], [ByteArrayIov]: skt/bytearray, the chained
      buffer, the typed readers and writers, the scatter/gather and file
      access. [HexDump]: toHexString. The chain of nodes is a list, a Node pointer an index into it,
      uninitialised memory a cell without a value. [ByteArraySpec]: the
      abstract buffer, a byte string with a cursor, that it implements.
    - [Timer]: skt/timer; timer objects in a heap, the manager's set ordered by
      the comparator that reads the heap.
    - [Fiber]: skt/fiber; fibers of all threads in a heap, the thread-local
      pointers, swapcontext. [Scheduler]: skt/scheduler; Scheduler::run cut
      into sections where other threads may interleave. [SchedulerRun]: the
      step relation of all threads and of user code, and its invariant.
      [SchedulerProps]: its consequences.
    - [IOManager], [IOManagerProps]: skt/iomanager, with the kernel's epoll as
      the class [Epoll] and the laws [EpollLaws]. [Lifecycle]: how schedulers
      end.
    - [Hook], [HookProps]: skt/fd_manager and skt/hook, with the kernel's
      descriptors as the class [Kernel] and the laws [KernelLaws].
      [HookCalls]: fcntl and ioctl with their variable arguments, the sleeps and
      hook_init. [Statics]: the static variables of hook.cpp and http_parser.cpp
      that copy configured values.
    - [Http], [HttpProps]: skt/http/http.h, http.cpp and the callbacks of
      http_parser.cpp. [Servlet]: skt/http/servlet.cpp, with the virtual method
      of servlets as the class [Handler].
    - [Ragel]: what generated code does with a table of states and transitions,
      and the proof rules for machines. [HttpTable], [ClientTable], [UriTable]:
      the states and transitions of the three generated files, with the labels
      of the source. [HttpParser], [ClientParser], [Uri]: the actions, the code
      around the machines and the classes HttpRequestParser,
      HttpResponseParser and Uri. [HttpParserSafe], [HttpRoundtrip],
      [ClientParserSafe], [ClientRoundtrip], [UriProps]: their properties.
    - [Stream]: skt/stream and skt/streams. [Session], [SessionProps]:
      http_session.cpp and HttpServer::handleClient. [HttpSystem]: HttpServer as
      a whole, the tasks of [TcpServer] with handleClient of [Session].
    - [Address], [AddressProps]: skt/address.
    - [Connection], [ConnectionProps], [Pool]: http_connection.cpp, the client
      and the connection pool.
    - [Socket], [SocketProps]: skt/socket; an object with its descriptor among
      those of the process, the system calls as the class [Net] with the laws
      [NetLaws], among them which address a descriptor is bound to and whether it
      listens; the cancel methods need an IOManager and a descriptor. [TcpServer], [TcpServerProps]: skt/tcp_server; sockets are
      shared objects in a heap, scheduled functions are tasks that interleave.
      [StreamBuffer]: the overloads of streams for a ByteArray.
    - [LogFormat], [LogFormatProps]: levels, LogFormatter and its items.
      [Logger], [LoggerProps]: loggers, appenders, LoggerManager and the
      listener that configures them; loggers and appenders live in heaps.
      [LogConf]: the casts of their definitions and the variable "logs".
      [LogMacros]: the macros with LogEvent and LogEventWrap, and SKT_ASSERT.
    - [Yaml]: the casts of config.h over the class [Yaml]. [Config],
      [ConfigProps]: ConfigVar and Config; a variable carries its dynamic type.
    - [Env]: skt/env. [FsUtil], [Util]: skt/util, with the file system as the
      class [FileSystem].
    - [Locks]: the scoped locks and CASLock of skt/mutex. [Threads]: Semaphore
      and skt/thread; the constructor of Thread and Thread::run interleave
      statement by statement, and the object can end at any time.
    - [Daemon]: skt/daemon; what fork and waitpid answer is an argument.
      [ServerConf], [Application], [ApplicationProps]: skt/application, over
      [Env], [Config], [FsUtil], [Address], [TcpServer] and [Daemon].

    * What the theorems show

    - Refinement: every write, read and reposition of ByteArray is that of the
      abstract buffer, on every branch, and no sequence of calls leaves the
      nodes ([ByteArraySpec]). Round trips of all typed values, varint bounds,
      and exactly the cells that getWriteBuffers describes
      ([ByteArrayCodec], [ByteArrayIov]).
    - Timers: no sequence of operations fails, expired timers and no others
      are reported, in order and once, a cancelled timer stays silent, and the
      loop is notified when a new timer is the first ([Timer]).
    - Scheduler: in every interleaving of threads and user code that keeps two
      rules (a fiber is not scheduled while it is queued or taken, and one that
      is scheduled while it runs leaves by YieldToHold) no assertion fails and no
      fiber runs on two threads; a thread takes the first task it may run, and a
      scheduler that stops has nothing left ([SchedulerProps]).
    - IOManager: the table, the pending counter and epoll's interest list
      agree in every reachable state, and an operation fails an assertion in
      exactly two cases; an event that is added is triggered once;
      what a wake-up does on every answer of epoll; idle wakes in time
      ([IOManagerProps]); it ends without threads, descriptors or contexts left
      ([Lifecycle]). Hooked input and output returns what the blocking call
      would have returned, or the error of a wait, as ETIMEDOUT; its timers are
      all gone ([HookProps]). A program that opens and closes sockets and sets and
      reads status flags gets the results of a kernel without hooks, while its
      sockets stay non-blocking below the hook ([HookCalls]).
    - Parsers: neither HTTP parser leaves its buffer, for all inputs and from the
      states named in the theorems (responses: but for certain folded headers); Uri::Create ends for
      every text, with a result or one exception; requests, responses and URIs
      that the library prints are read back.
    - Composition: handleClient answers a request that arrives in any pieces
      behind its head with the response of the dispatcher ([SessionProps]); the
      server does so for every client that it accepts, in every state it can
      reach, and is left with the sockets and tasks it had ([HttpSystem]);
      DoRequest against such a peer returns the response, chunked bodies are
      decoded when each chunk comes with its own read ([ConnectionProps]); the
      pool accounts for its connections under every sequence of calls ([Pool]).
    - Sockets and servers: whatever is called, up to the first cancellation that
      is undefined, an object owns at most the descriptor in m_sock and gives it
      back ([SocketProps]); sockets alive and open descriptors are those that
      m_socks and the tasks refer to in every interleaving, bind gives sockets
      that are bound to their addresses and listen, for all addresses or none,
      stop ends the accept loops of m_socks ([TcpServerProps]).
    - Logging and configuration: the pattern parser is its grammar and reads
      printed patterns back ([LogFormatProps]); no call fails that is given
      formatters which can print, an event reaches
      exactly its appenders, and a changed configuration is applied
      ([LoggerProps]), also through the variable that holds it ([LogConf]); a
      name has one variable of one type, a document sets the variables it
      names ([ConfigProps]); containers survive their texts ([Yaml]); the
      statics that copy a variable follow it ([Statics]); a macro logs what
      Logger::log would without the test it makes first ([LogMacros]).
    - Threads and locks: a thread starts in every order of the steps of both
      sides, its object is usable when the constructor returns and may end
      then, its handle is given back once ([Threads]); a scoped lock locks and
      unlocks in turn, CASLock excludes ([Locks]).
    - Start-up: init decides by the command line, whatever its words are, the
      pid file and the work directory; the configured servers listen where they should or the process
      ends; their configuration survives its text; the daemon restarts after
      crashes and only then ([ApplicationProps], [ServerConf], [Daemon]).
    - Addresses: byte counts against a reference definition, the addresses of a
      prefix, and that operator< is a strict weak order ([AddressProps]).

    Lemmas with concrete inputs record where the code does not do what it
    means to: a response whose chunks arrive together is lost, an empty port
    makes Uri::Create throw, a malformed request is answered, the pid file of a
    running server is empty, and others.

    * Outcomes, bounds and fuel

    An outcome is a result, an exception, [Stop] (undefined behaviour or a
    failed assertion) or [NoFuel]. Loops that are not structural have a bound.
    Theorems that promise a result name a bound that is enough: the number of
    nodes plus two for the loops of ByteArray; the width plus one for
    CountBytes; the number of pieces that arrive plus two for readFixSize, for
    writeFixSize the pieces that are accepted, the calls that transfer the most
    that Linux allows in one, and two, and the sum of both numbers of pieces plus
    two for a whole request; one more than the number of chunks for a chunked body;
    20 digits for a 64-bit number; the length of a pattern plus one; two
    loggers for the chain of roots; one more than the depth of a document or
    of a directory. The parsers and the codecs recurse on
    their input. Integers are Z with explicit wrap-around ([u8] to [u64], [i32],
    [i64]) wherever the code can overflow.

    * What is not modelled

    - A connected socket is the script of a peer in [Stream] and [HttpSystem];
      connecting one is an argument of [Connection]. In [HttpSystem] the task of
      a client is one step, because it uses its own socket and peer only.
    - The diagnostics that the logger prints on the console. Signals but for the
      one that interrupts a semaphore; the memory orders of atomics. Running out
      of memory.
    - Locks: Mutex, Spinlock and RWMutex only forward to pthread, whose exclusion
      is taken for granted: an operation that the code protects by a lock is one
      step; where the code unlocks in between (Scheduler::run, IOManager) the steps are cut
      there. Calls of the connection pool are atomic steps.
    - Singleton and Noncopyable, which have no behaviour of their own.
    - getaddrinfo, getifaddrs, inet_pton, fnmatch, strftime, strptime,
      backtrace_symbols, vasprintf, dlsym, yaml-cpp, boost::lexical_cast, epoll
      and the calls on descriptors and files are arguments or classes with
      documented laws. *)

From stdpp Require Import base numbers list strings.
From Stdlib Require Import ZArith Lia.

#[global] Open Scope Z_scope.

(** ** Outcomes of C++ code

    [Ok a s]: the call returned [a] leaving the object in state [s].
    [Exc e s]: a C++ exception left the call; [s] is the state it left
    behind. [Stop u]: the execution has no defined continuation, for the
    reason [u] (undefined behaviour, or abort by a failed assertion).
    [NoFuel]: the bound put on a loop by the model was too small; the
    theorems show that it never is. *)

Inductive exn : Type :=
| out_of_range (what : string)
| invalid_argument (what : string)
| logic_error (what : string)
| length_error (what : string).

Inductive stop : Type :=
| NullDeref        (* access through a null pointer *)
| OutOfBounds      (* access outside an array *)
| Indeterminate    (* use of the value of uninitialised memory *)
| DivByZero        (* integer division by zero *)
| BadArith         (* a shift or signed operation without a defined result *)
| BadIterator      (* erasing or dereferencing end() *)
| BadContext       (* a context switch away from a context that is not running *)
| AssertFail.      (* a failed SKT_ASSERT: abort *)

Inductive result (S A : Type) : Type :=
| Ok (a : A) (s : S)
| Exc (e : exn) (s : S)
| Stop (u : stop)
| NoFuel.
Arguments Ok {S A} _ _.
Arguments Exc {S A} _ _.
Arguments Stop {S A} _.
Arguments NoFuel {S A}.

(** The monad of the methods of an object with state [S]. *)
Definition M (S A : Type) : Type := S → result S A.

#[global] Instance M_ret S : MRet (M S) := λ A a s, Ok a s.
#[global] Instance M_bind S : MBind (M S) := λ A B k c s,
  match c s with
  | Ok a s' => k a s'
  | Exc e s' => Exc e s'
  | Stop u => Stop u
  | NoFuel => NoFuel
  end.

Definition mget {S} : M S S := λ s, Ok s s.
Definition mput {S} (s' : S) : M S unit := λ _, Ok tt s'.
Definition mmodify {S} (f : S → S) : M S unit := λ s, Ok tt (f s).
Definition mthrow {S A} (e : exn) : M S A := λ s, Exc e s.
Definition mstop {S A} (u : stop) : M S A := λ _, Stop u.
Definition mnofuel {S A} : M S A := λ _, NoFuel.

(** [p] must not be null. *)
Definition mderef {S A} (u : stop) (p : option A) : M S A :=
  match p with Some a => mret a | None => mstop u end.

(** SKT_ASSERT(b) *)
Definition massert {S} (b : bool) : M S unit := if b then mret tt else mstop AssertFail.

Lemma bind_ok {S A B} (c : M S A) (k : A → M S B) s a s' :
  c s = Ok a s' → (c ≫= k) s = k a s'.
Proof. intros H. unfold mbind, M_bind. by rewrite H. Qed.

Lemma bind_exc {S A B} (c : M S A) (k : A → M S B) s e s' :
  c s = Exc e s' → (c ≫= k) s = Exc e s'.
Proof. intros H. unfold mbind, M_bind. by rewrite H. Qed.

Lemma bind_stop {S A B} (c : M S A) (k : A → M S B) s u :
  c s = Stop u → (c ≫= k) s = Stop u.
Proof. intros H. unfold mbind, M_bind. by rewrite H. Qed.

Lemma bind_modify {S B} (f : S → S) (k : unit → M S B) s :
  (mmodify f ≫= k) s = k tt (f s).
Proof. done. Qed.

Lemma bind_inv_ok {S A B} (c : M S A) (k : A → M S B) s b s2 :
  (c ≫= k) s = Ok b s2 → ∃ a s1, c s = Ok a s1 ∧ k a s1 = Ok b s2.
Proof. unfold mbind, M_bind. destruct (c s); naive_solver. Qed.

Lemma bind_assoc {S A B C} (c : M S A) (f : A → M S B) (g : B → M S C) s :
  ((c ≫= f) ≫= g) s = (c ≫= λ a, f a ≫= g) s.
Proof. unfold mbind, M_bind. by destruct (c s). Qed.

(** Two sequences agree when their continuations do. *)
Lemma bind_proper' {S A B} (c : M S A) (k k' : A → M S B) s :
  (∀ a s', k a s' = k' a s') → (c ≫= k) s = (c ≫= k') s.
Proof. intros H. unfold mbind, M_bind. destruct (c s); done || apply H. Qed.

(** [run E] steps over the first call of a sequence, whose outcome is the
    equation [E]. *)
Ltac run E := first
  [ rewrite (bind_ok _ _ _ _ _ E)
  | rewrite (bind_exc _ _ _ _ _ E)
  | rewrite (bind_stop _ _ _ _ E) ]; cbn beta.

(** [mred] unfolds the monad operations and reduces the sequence. *)
Ltac mred :=
  cbv beta iota zeta delta
    [mbind M_bind mret M_ret mget mput mmodify mderef massert mthrow mstop mnofuel].

(** Outcomes as judgements: a call of [c] in state [s] returns [a] in [s'], or
    throws [e]. *)
Declare Scope skt_scope.
Delimit Scope skt_scope with skt.
Notation "⟨ c , s ⟩ ⇓ ⟨ a , s' ⟩" := (c s = Ok a s') (at level 0, c, s, a, s' at level 69) : skt_scope.
Notation "⟨ c , s ⟩ ⇑ ⟨ e , s' ⟩" := (c s = Exc e s') (at level 0, c, s, e, s' at level 69) : skt_scope.
#[global] Open Scope skt_scope.

(** ** Machine integers *)

(** The value of a [w]-bit unsigned integer after wrap-around. *)
Definition wrapu (w x : Z) : Z := x mod 2 ^ w.
(** The value of a [w]-bit two's complement integer after wrap-around. *)
Definition wraps (w x : Z) : Z := (x + 2 ^ (w - 1)) mod 2 ^ w - 2 ^ (w - 1).

Abbreviation u8 := (wrapu 8).
Abbreviation u16 := (wrapu 16).
Abbreviation u32 := (wrapu 32).
Abbreviation u64 := (wrapu 64).
Abbreviation i8 := (wraps 8).
Abbreviation i16 := (wraps 16).
Abbreviation i32 := (wraps 32).
Abbreviation i64 := (wraps 64).

Definition in_u (w x : Z) : Prop := 0 ≤ x < 2 ^ w.
Definition in_s (w x : Z) : Prop := - 2 ^ (w - 1) ≤ x < 2 ^ (w - 1).

Lemma wrapu_range w x : 0 ≤ w → in_u w (wrapu w x).
Proof. intros Hw. apply Z.mod_pos_bound. apply Z.pow_pos_nonneg; lia. Qed.

Lemma wrapu_small w x : in_u w x → wrapu w x = x.
Proof. intros H. by apply Z.mod_small. Qed.

Lemma wraps_small w x : 0 < w → in_s w x → wraps w x = x.
Proof.
  intros Hw [H1 H2]. unfold wraps.
  assert (2 ^ w = 2 * 2 ^ (w - 1)) as E.
  { rewrite <- (Z.pow_succ_r 2) by lia. f_equal. lia. }
  rewrite Z.mod_small by lia. lia.
Qed.

Lemma wraps_wrapu w x : 0 < w → wraps w (wrapu w x) = wraps w x.
Proof.
  intros Hw. unfold wraps, wrapu. f_equal.
  rewrite Zplus_mod_idemp_l. done.
Qed.

Lemma wrapu_wraps w x : 0 < w → wrapu w (wraps w x) = wrapu w x.
Proof.
  intros Hw. unfold wraps, wrapu.
  rewrite Zminus_mod_idemp_l. f_equal. lia.
Qed.

Lemma wraps_add w x k : wraps w (wraps w x + k) = wraps w (x + k).
Proof.
  unfold wraps. f_equal.
  replace ((x + 2 ^ (w - 1)) mod 2 ^ w - 2 ^ (w - 1) + k + 2 ^ (w - 1)) with ((x + 2 ^ (w - 1)) mod 2 ^ w + k) by lia.
  rewrite Zplus_mod_idemp_l. f_equal. lia.
Qed.

(** A bitwise or of disjoint bit ranges is a sum. *)
Lemma lor_shiftl_add a b i :
  0 ≤ i → 0 ≤ a < 2 ^ i → Z.lor a (Z.shiftl b i) = a + b * 2 ^ i.
Proof.
  intros Hi Ha. rewrite <- Z.shiftl_mul_pow2 by done.
  symmetry. apply Z.add_nocarry_lor. apply Z.bits_inj'. intros n Hn.
  rewrite Z.land_spec, Z.bits_0. destruct (Z.ltb_spec n i).
  - rewrite Z.shiftl_spec_low by done. apply andb_false_r.
  - rewrite <- (Z.mod_small a (2 ^ i)) by done.
    rewrite Z.mod_pow2_bits_high by lia. done.
Qed.

(** ** Slices of byte strings, with offsets and lengths in [Z] *)

Definition zlen {A} (l : list A) : Z := Z.of_nat (length l).

Definition zslice {A} (off len : Z) (l : list A) : list A :=
  take (Z.to_nat len) (drop (Z.to_nat off) l).

Definition zsplice {A} (off : Z) (src l : list A) : list A :=
  take (Z.to_nat off) l ++ src ++ drop (Z.to_nat off + length src) l.

(** memcpy out of, and into, an array of known length: [None] when the
    access leaves the array. *)
Definition mem_read {A} (off len : Z) (m : list A) : option (list A) :=
  if (0 <=? off) && (0 <=? len) && (off + len <=? zlen m)
  then Some (zslice off len m) else None.

Definition mem_write {A} (off : Z) (src m : list A) : option (list A) :=
  if (0 <=? off) && (off + zlen src <=? zlen m)
  then Some (zsplice off src m) else None.

Lemma zlen_nonneg {A} (l : list A) : 0 ≤ zlen l.
Proof. unfold zlen. lia. Qed.

Lemma zlen_app {A} (l k : list A) : zlen (l ++ k) = zlen l + zlen k.
Proof. unfold zlen. rewrite length_app. lia. Qed.

Lemma zlen_nil {A} : zlen (@nil A) = 0.
Proof. done. Qed.

Lemma zlen_cons {A} (x : A) l : zlen (x :: l) = 1 + zlen l.
Proof. unfold zlen. simpl length. lia. Qed.

Lemma zlen_fmap {A B} (f : A → B) l : zlen (f <$> l) = zlen l.
Proof. unfold zlen. by rewrite length_fmap. Qed.

Lemma zlen_zslice {A} off len (l : list A) :
  0 ≤ off → 0 ≤ len → off + len ≤ zlen l → zlen (zslice off len l) = len.
Proof. unfold zlen, zslice. intros. rewrite length_take, length_drop. lia. Qed.

Lemma zlen_zsplice {A} off (src l : list A) :
  0 ≤ off → off + zlen src ≤ zlen l → zlen (zsplice off src l) = zlen l.
Proof.
  unfold zlen, zsplice. intros. rewrite !length_app, length_take, length_drop. lia.
Qed.

Lemma mem_read_ok {A} off len (m : list A) :
  0 ≤ off → 0 ≤ len → off + len ≤ zlen m → mem_read off len m = Some (zslice off len m).
Proof.
  intros. unfold mem_read.
  rewrite (proj2 (Z.leb_le 0 off)), (proj2 (Z.leb_le 0 len)),
    (proj2 (Z.leb_le (off + len) _)) by lia. done.
Qed.

Lemma mem_write_ok {A} off (src m : list A) :
  0 ≤ off → off + zlen src ≤ zlen m → mem_write off src m = Some (zsplice off src m).
Proof.
  intros. unfold mem_write.
  rewrite (proj2 (Z.leb_le 0 off)), (proj2 (Z.leb_le (off + _) _)) by lia. done.
Qed.

Lemma zslice_0 {A} off (l : list A) : zslice off 0 l = [].
Proof. done. Qed.

Lemma zslice_all {A} len (l : list A) : len = zlen l → zslice 0 len l = l.
Proof. intros ->. unfold zslice, zlen. rewrite Nat2Z.id. apply firstn_all. Qed.

Lemma zslice_split {A} off a b (l : list A) :
  0 ≤ off → 0 ≤ a → 0 ≤ b → zslice off (a + b) l = zslice off a l ++ zslice (off + a) b l.
Proof.
  intros. unfold zslice. rewrite !Z2Nat.inj_add by lia.
  rewrite <- drop_drop. symmetry. apply take_take_drop.
Qed.

Lemma zslice_app_l {A} off len (l k : list A) :
  0 ≤ off → 0 ≤ len → off + len ≤ zlen l → zslice off len (l ++ k) = zslice off len l.
Proof.
  unfold zlen, zslice. intros. rewrite drop_app_le by lia. apply take_app_le.
  rewrite length_drop. lia.
Qed.

Lemma zslice_app_r {A} off len (l k : list A) :
  zlen l ≤ off → zslice off len (l ++ k) = zslice (off - zlen l) len k.
Proof.
  unfold zlen, zslice. intros. rewrite drop_app_ge by lia. do 2 f_equal. lia.
Qed.

Lemma zslice_zsplice_same {A} off (src l : list A) :
  0 ≤ off → off ≤ zlen l → zslice off (zlen src) (zsplice off src l) = src.
Proof.
  unfold zlen, zslice, zsplice. intros.
  rewrite drop_app_ge by (rewrite length_take; lia). rewrite length_take.
  replace (Z.to_nat off - _)%nat with 0%nat by lia. rewrite drop_0.
  rewrite take_app_le by lia. rewrite Nat2Z.id. apply firstn_all.
Qed.

Lemma zslice_zsplice_before {A} o n off (src l : list A) :
  0 ≤ o → 0 ≤ n → o + n ≤ off → off ≤ zlen l →
  zslice o n (zsplice off src l) = zslice o n l.
Proof.
  unfold zlen, zslice, zsplice. intros.
  rewrite drop_app_le by (rewrite length_take; lia).
  rewrite take_app_le by (rewrite length_drop, length_take; lia).
  rewrite skipn_firstn_comm, take_take. f_equal. lia.
Qed.

Lemma zsplice_app' {A} off (s1 s2 l : list A) :
  0 ≤ off ≤ zlen l →
  zsplice off (s1 ++ s2) l = zsplice (off + zlen s1) s2 (zsplice off s1 l).
Proof.
  unfold zlen, zsplice. intros.
  replace (Z.to_nat (off + Z.of_nat (length s1))) with (Z.to_nat off + length s1)%nat by lia.
  rewrite length_app, (assoc_L (++) (take _ l) s1).
  rewrite take_app_le by (rewrite length_app, length_take; lia).
  rewrite (take_ge (take _ l ++ s1)) by (rewrite length_app, length_take; lia).
  rewrite (drop_app_ge (take _ l ++ s1)) by (rewrite length_app, length_take; lia).
  rewrite drop_drop, length_app, length_take, <- !(assoc_L (++)).
  do 4 f_equal. lia.
Qed.

Lemma zsplice_app {A} off (s1 s2 l : list A) :
  0 ≤ off → off + zlen s1 + zlen s2 ≤ zlen l →
  zsplice off (s1 ++ s2) l = zsplice (off + zlen s1) s2 (zsplice off s1 l).
Proof. intros. apply zsplice_app'. unfold zlen in *. lia. Qed.

Lemma zsplice_app_l {A} off (src l k : list A) :
  0 ≤ off → off + zlen src ≤ zlen l → zsplice off src (l ++ k) = zsplice off src l ++ k.
Proof.
  unfold zlen, zsplice. intros. rewrite take_app_le by lia.
  rewrite drop_app_le by lia. by rewrite <- !(assoc_L (++)).
Qed.

Lemma zsplice_app_r {A} off (src l k : list A) :
  zlen l ≤ off → zsplice off src (l ++ k) = l ++ zsplice (off - zlen l) src k.
Proof.
  unfold zlen, zsplice. intros. rewrite take_app_ge, drop_app_ge by lia.
  rewrite <- (assoc_L (++)). repeat f_equal; lia.
Qed.

(** ** Automation *)

(** [skt]: the ranges of lengths and machine integers. [zlen]: the lengths of
    composed lists. *)
Create HintDb skt.
#[export] Hint Resolve zlen_nonneg wrapu_range : skt.
Create Rewrite HintDb zlen.
#[export] Hint Rewrite @zlen_app @zlen_cons @zlen_nil @zlen_fmap : zlen.

(** Arithmetic with lengths. *)
Ltac zlen_facts :=
  repeat match goal with
  | |- context [zlen ?l] => lazymatch goal with _ : 0 ≤ zlen l |- _ => fail | _ => pose proof (zlen_nonneg l) end
  | _ : context [zlen ?l] |- _ => lazymatch goal with _ : 0 ≤ zlen l |- _ => fail | _ => pose proof (zlen_nonneg l) end
  end.
Ltac zlia := autorewrite with zlen in *; zlen_facts; lia.
