(* ===== verification/Endian.v ===== *)
(** Byte order: skt/endian/endian.h.

    The bytes of an [n]-byte integer as a little-endian host stores them,
    the byteswap templates, and the byte-order macros of the build's target
    (README: Ubuntu on x86-64, a little-endian machine). *)

From stdpp Require Import base numbers list.
From Stdlib Require Import ZArith Lia.
From S2P Require Import Prelude.

(** The object representation of the low [n] bytes of [v], least
    significant byte first. *)
Fixpoint le_bytes (n : nat) (v : Z) : list Z :=
  match n with
  | O => []
  | S n' => v mod 256 :: le_bytes n' (v / 256)
  end.

(** The unsigned value of such a representation. *)
Fixpoint le_value (bs : list Z) : Z :=
  match bs with
  | [] => 0
  | b :: bs' => b + 256 * le_value bs'
  end.

Definition is_byte (b : Z) : Prop := 0 ≤ b < 256.

(** bswap_16, bswap_32 and bswap_64 of byteswap.h, at [n] bytes. *)
Definition bswap (n : nat) (v : Z) : Z := le_value (rev (le_bytes n v)).

(** The template byteswap at an unsigned and at a signed type of [n] bytes. *)
Definition byteswap_u (n : nat) (v : Z) : Z := bswap n v.
Definition byteswap_s (n : nat) (v : Z) : Z :=
  wraps (8 * Z.of_nat n) (bswap n (wrapu (8 * Z.of_nat n) v)).

Definition SKT_LITTLE_ENDIAN : Z := 1.
Definition SKT_BIG_ENDIAN : Z := 2.
Definition SKT_BYTE_ORDER : Z := SKT_LITTLE_ENDIAN.

(** byteswapOnLittleEndian, in its little-endian variant. *)
Definition byteswapOnLittleEndian (n : nat) (t : Z) : Z := byteswap_u n t.

(** ** Facts on representations *)

Lemma pow256_S n : 2 ^ (8 * Z.of_nat (S n)) = 256 * 2 ^ (8 * Z.of_nat n).
Proof.
  replace (8 * Z.of_nat (S n)) with (8 + 8 * Z.of_nat n) by lia.
  rewrite Z.pow_add_r by lia. done.
Qed.

Lemma length_le_bytes n v : length (le_bytes n v) = n.
Proof. revert v. induction n as [|n IH]; intros v; simpl; [done|]. by rewrite IH. Qed.

Lemma le_bytes_bytes n v : Forall is_byte (le_bytes n v).
Proof.
  revert v. induction n as [|n IH]; intros v; simpl; constructor; [|done].
  unfold is_byte. apply Z.mod_pos_bound. lia.
Qed.

Lemma le_value_range bs :
  Forall is_byte bs → 0 ≤ le_value bs < 2 ^ (8 * Z.of_nat (length bs)).
Proof.
  unfold is_byte. induction 1 as [|b bs Hb _ IH]; [simpl; lia|].
  simpl length. rewrite pow256_S. simpl le_value. nia.
Qed.

Lemma le_value_bytes n v : le_value (le_bytes n v) = wrapu (8 * Z.of_nat n) v.
Proof.
  unfold wrapu. revert v. induction n as [|n IH]; intros v.
  { simpl. by rewrite Z.mod_1_r. }
  rewrite pow256_S. simpl le_value. rewrite IH.
  rewrite Z.rem_mul_r by (try apply Z.pow_nonzero; lia). done.
Qed.

Lemma le_bytes_value bs : Forall is_byte bs → le_bytes (length bs) (le_value bs) = bs.
Proof.
  unfold is_byte. induction 1 as [|b bs Hb _ IH]; [done|].
  cbn [length le_bytes le_value].
  rewrite (Z.mul_comm 256), Z_mod_plus_full, Z.div_add by lia.
  rewrite (Z.mod_small b), (Z.div_small b) by lia. by rewrite Z.add_0_l, IH.
Qed.

Lemma le_bytes_wrapu n v : le_bytes n (wrapu (8 * Z.of_nat n) v) = le_bytes n v.
Proof.
  rewrite <- le_value_bytes. rewrite <- (length_le_bytes n v) at 1.
  apply le_bytes_value, le_bytes_bytes.
Qed.

Lemma rev_bytes bs : Forall is_byte bs → Forall is_byte (rev bs).
Proof. apply Forall_rev. Qed.

(** A swapped integer is stored as the reversed bytes. *)
Lemma le_bytes_bswap n v : le_bytes n (bswap n v) = rev (le_bytes n v).
Proof.
  unfold bswap. rewrite <- (length_le_bytes n v) at 1.
  rewrite <- (length_rev (le_bytes n v)).
  apply le_bytes_value, rev_bytes, le_bytes_bytes.
Qed.

Lemma bswap_range n v : in_u (8 * Z.of_nat n) (bswap n v).
Proof.
  unfold in_u, bswap.
  pose proof (le_value_range _ (rev_bytes _ (le_bytes_bytes n v))) as H.
  by rewrite length_rev, length_le_bytes in H.
Qed.

Lemma bswap_bswap n v : bswap n (bswap n v) = wrapu (8 * Z.of_nat n) v.
Proof.
  unfold bswap at 1. rewrite le_bytes_bswap, rev_involutive. apply le_value_bytes.
Qed.

Lemma bswap_wrapu n v : bswap n (wrapu (8 * Z.of_nat n) v) = bswap n v.
Proof. unfold bswap. by rewrite le_bytes_wrapu. Qed.

Lemma byteswap_s_bytes n v :
  (0 < n)%nat → le_bytes n (byteswap_s n v) = rev (le_bytes n v).
Proof.
  intros Hn. unfold byteswap_s.
  rewrite <- le_bytes_wrapu, wrapu_wraps, le_bytes_wrapu, bswap_wrapu by lia.
  apply le_bytes_bswap.
Qed.

(** ** Bits of swapped integers *)

Lemma le_value_testbit bs i :
  Forall is_byte bs → 0 ≤ i →
  Z.testbit (le_value bs) i = Z.testbit (nth (Z.to_nat (i / 8)) bs 0) (i mod 8).
Proof.
  intros Hbs. revert i. induction Hbs as [|b bs Hb Hbs IH]; intros i Hi.
  { cbn [le_value]. destruct (Z.to_nat (i / 8)); cbn [nth]; by rewrite !Z.bits_0. }
  assert (le_value (b :: bs) = Z.lor b (Z.shiftl (le_value bs) 8)) as E.
  { cbn [le_value]. rewrite lor_shiftl_add by (unfold is_byte in Hb; lia). lia. }
  rewrite E, Z.lor_spec. destruct (Z.ltb_spec i 8) as [Hlt|Hge].
  - rewrite Z.shiftl_spec_low, orb_false_r, Z.div_small, Z.mod_small by lia. done.
  - rewrite Z.shiftl_spec_high by lia. replace (Z.testbit b i) with false.
    2:{ symmetry. unfold is_byte in Hb. rewrite <- (Z.mod_small b (2 ^ 8)) by lia. apply Z.mod_pow2_bits_high. lia. }
    cbn [orb]. rewrite IH by lia. replace (Z.to_nat (i / 8)) with (S (Z.to_nat ((i - 8) / 8))).
    2:{ replace i with (i - 8 + 1 * 8) at 2 by lia. rewrite Z.div_add by lia.
        rewrite Z2Nat.inj_add by (try apply Z.div_pos; lia). cbn. lia. }
    cbn [nth]. f_equal. replace i with (i - 8 + 1 * 8) at 2 by lia. by rewrite Z.mod_add.
Qed.

Lemma le_bytes_nth n v k :
  (k < n)%nat → nth k (le_bytes n v) 0 = Z.shiftr v (8 * Z.of_nat k) mod 256.
Proof.
  revert v k. induction n as [|n IH]; intros v k Hk; [lia|]. destruct k as [|k]; cbn [le_bytes nth].
  - by rewrite Z.shiftr_0_r.
  - rewrite IH by lia. f_equal. change 256 with (2 ^ 8). rewrite <- Z.shiftr_div_pow2, Z.shiftr_shiftr by lia. f_equal. lia.
Qed.

(** Bit [i] of the swapped integer is the same bit of the opposite byte. *)
Lemma bswap_testbit n v i :
  0 ≤ i < 8 * Z.of_nat n →
  Z.testbit (bswap n v) i = Z.testbit v (8 * (Z.of_nat n - 1 - i / 8) + i mod 8).
Proof.
  intros Hi. unfold bswap. rewrite le_value_testbit by (try apply rev_bytes, le_bytes_bytes; lia).
  pose proof (Z.mod_pos_bound i 8 ltac:(lia)) as Hm. pose proof (Z.div_mod i 8 ltac:(lia)) as Hd.
  assert (0 ≤ i / 8) by (apply Z.div_pos; lia).
  rewrite rev_nth by (rewrite length_le_bytes; lia). rewrite length_le_bytes, le_bytes_nth by lia.
  change 256 with (2 ^ 8). rewrite Z.mod_pow2_bits_low, Z.shiftr_spec by lia. f_equal. lia.
Qed.

Lemma bswap_high n v i : 8 * Z.of_nat n ≤ i → Z.testbit (bswap n v) i = false.
Proof.
  intros Hi. pose proof (bswap_range n v) as Hr. unfold in_u in Hr.
  rewrite <- (Z.mod_small (bswap n v) (2 ^ (8 * Z.of_nat n))) by lia. apply Z.mod_pow2_bits_high. lia.
Qed.

(** The bit index on the other side. *)
Lemma swapped_index n i :
  0 ≤ i < 8 * Z.of_nat n →
  let j := 8 * (Z.of_nat n - 1 - i / 8) + i mod 8 in
  0 ≤ j < 8 * Z.of_nat n.
Proof.
  intros Hi. pose proof (Z.mod_pos_bound i 8 ltac:(lia)). pose proof (Z.div_mod i 8 ltac:(lia)). cbn. lia.
Qed.

Lemma bswap_lor n a b : bswap n (Z.lor a b) = Z.lor (bswap n a) (bswap n b).
Proof.
  apply Z.bits_inj'. intros i Hi. rewrite Z.lor_spec. destruct (Z.ltb_spec i (8 * Z.of_nat n)).
  - by rewrite !bswap_testbit, Z.lor_spec by lia.
  - by rewrite !bswap_high by lia.
Qed.

Lemma bswap_land n a b : bswap n (Z.land a b) = Z.land (bswap n a) (bswap n b).
Proof.
  apply Z.bits_inj'. intros i Hi. rewrite Z.land_spec. destruct (Z.ltb_spec i (8 * Z.of_nat n)).
  - by rewrite !bswap_testbit, Z.land_spec by lia.
  - by rewrite !bswap_high by lia.
Qed.

Lemma bswap_lnot n a : bswap n (Z.lnot a) = wrapu (8 * Z.of_nat n) (Z.lnot (bswap n a)).
Proof.
  apply Z.bits_inj'. intros i Hi. unfold wrapu. destruct (Z.ltb_spec i (8 * Z.of_nat n)).
  - pose proof (swapped_index n i ltac:(lia)) as Hj. rewrite Z.mod_pow2_bits_low by lia.
    rewrite (Z.lnot_spec _ i), !bswap_testbit by lia. by rewrite (Z.lnot_spec a) by exact (proj1 Hj).
  - rewrite bswap_high, Z.mod_pow2_bits_high by lia. done.
Qed.
