(* ===== verification/ByteArray.v ===== *)
(** ByteArray: skt/bytearray/bytearray.h and bytearray.cpp, the chained
    buffer (the typed readers and writers are in ByteArrayCodec.v).

    The chain of nodes that starts at m_root is a list, and a [Node*] into
    the chain is an index of that list, or [None] for nullptr. Memory from
    [new char[s]] is uninitialised: a memory cell is [Some b] when it holds
    the byte [b] and [None] while its value is indeterminate. *)

From stdpp Require Import base numbers list strings.
From Stdlib Require Import ZArith Lia.
From S2P Require Import Prelude Endian.

(** A memory cell. *)
Definition cell : Type := option Z.

Record Node := mkNode { ptr : list cell; nsize : Z }.

(** Node::Node(size_t s) *)
Definition newNode (s : Z) : Node := mkNode (replicate (Z.to_nat s) None) s.

Record ByteArray := mkByteArray {
  m_baseSize : Z;
  m_capacity : Z;
  m_position : Z;
  m_size : Z;
  m_endian : Z;
  m_nodes : list Node;   (* the chain that starts at m_root *)
  m_cur : option nat
}.

Abbreviation BA := (M ByteArray).

(** ByteArray::ByteArray(size_t base_size) *)
Definition newByteArray (base_size : Z) : ByteArray :=
  mkByteArray base_size base_size 0 0 SKT_BIG_ENDIAN [newNode base_size] (Some 0%nat).

Definition isLittleEndian (s : ByteArray) : bool := m_endian s =? SKT_LITTLE_ENDIAN.

Definition set_endian (e : Z) (s : ByteArray) : ByteArray :=
  mkByteArray (m_baseSize s) (m_capacity s) (m_position s) (m_size s) e (m_nodes s) (m_cur s).
Definition set_position (p : Z) (s : ByteArray) : ByteArray :=
  mkByteArray (m_baseSize s) (m_capacity s) p (m_size s) (m_endian s) (m_nodes s) (m_cur s).
Definition set_size (n : Z) (s : ByteArray) : ByteArray :=
  mkByteArray (m_baseSize s) (m_capacity s) (m_position s) n (m_endian s) (m_nodes s) (m_cur s).
Definition set_cur (c : option nat) (s : ByteArray) : ByteArray :=
  mkByteArray (m_baseSize s) (m_capacity s) (m_position s) (m_size s) (m_endian s) (m_nodes s) c.
Definition set_chain (cap : Z) (l : list Node) (s : ByteArray) : ByteArray :=
  mkByteArray (m_baseSize s) cap (m_position s) (m_size s) (m_endian s) l (m_cur s).

Definition setIsLittleEndian (value : bool) : BA unit :=
  mmodify (set_endian (if value then SKT_LITTLE_ENDIAN else SKT_BIG_ENDIAN)).

Definition getReadSize (s : ByteArray) : Z := u64 (m_size s - m_position s).
Definition getCapacity (s : ByteArray) : Z := u64 (m_capacity s - m_position s).

(** [node->next] for the node at index [i] of the chain. *)
Definition next (l : list Node) (i : nat) : option nat :=
  if decide (S i < length l)%nat then Some (S i) else None.

(** The node a pointer designates. *)
Definition deref (p : option nat) : BA (nat * Node) :=
  s ← mget;
  i ← mderef NullDeref p;
  nd ← mderef NullDeref (m_nodes s !! i);
  mret (i, nd).

(** ByteArray::clear *)
Definition clear : BA unit :=
  s ← mget;
  root ← mderef NullDeref (m_nodes s !! 0%nat);
  mput (mkByteArray (m_baseSize s) (m_baseSize s) 0 0 (m_endian s) [root] (Some 0%nat)).

(** The loop of addCapacity: [count] new nodes at the tail of the chain. *)
Fixpoint append_nodes (count : nat) (base cap : Z) (l : list Node) : Z * list Node :=
  match count with
  | O => (cap, l)
  | S c => append_nodes c base (u64 (cap + base)) (l ++ [newNode base])
  end.

(** ceil(1.0 * size / base): the quotient rounded up. (The double that the
    code computes rounds to this integer for sizes below 2^53.) *)
Definition ceil_div (size base : Z) : Z := (size + base - 1) / base.

(** ByteArray::addCapacity *)
Definition addCapacity (size : Z) : BA unit :=
  if size =? 0 then mret tt else
  s ← mget;
  let old_cap := getCapacity s in
  if size <=? old_cap then mret tt else
  if m_baseSize s =? 0 then mstop DivByZero else
  let size := u64 (size - old_cap) in
  let count := Z.to_nat (ceil_div size (m_baseSize s)) in
  let first := if decide (count = 0)%nat then None else Some (length (m_nodes s)) in
  let '(cap, l) := append_nodes count (m_baseSize s) (m_capacity s) (m_nodes s) in
  let s' := set_chain cap l s in
  mput (if old_cap =? 0 then set_cur first s' else s').

(** memcpy(m_cur->ptr + npos, src, |src|) *)
Definition store (npos : Z) (src : list cell) : BA unit :=
  s ← mget;
  '(i, nd) ← deref (m_cur s);
  mem ← mderef OutOfBounds (mem_write npos src (ptr nd));
  mput (set_chain (m_capacity s) (<[i := mkNode mem (nsize nd)]> (m_nodes s)) s).

(** m_cur = m_cur->next *)
Definition advance : BA unit :=
  s ← mget;
  '(i, _) ← deref (m_cur s);
  mput (set_cur (next (m_nodes s) i) s).

(** m_position += n *)
Definition move (n : Z) : BA unit :=
  mmodify (λ s, set_position (u64 (m_position s + n)) s).

(** The while loop of ByteArray::write. *)
Fixpoint write_loop (fuel : nat) (buf : list cell) (size npos ncap bpos : Z) : BA unit :=
  match fuel with
  | O => mnofuel
  | S fuel =>
    if size <=? 0 then mret tt else
    if size <=? ncap then
      src ← mderef OutOfBounds (mem_read bpos size buf);
      store npos src;;
      s ← mget;
      '(_, nd) ← deref (m_cur s);
      (if nsize nd =? npos + size then advance else mret tt);;
      move size;;
      write_loop fuel buf 0 npos ncap (bpos + size)
    else
      src ← mderef OutOfBounds (mem_read bpos ncap buf);
      store npos src;;
      move ncap;;
      advance;;
      s ← mget;
      '(_, nd) ← deref (m_cur s);
      write_loop fuel buf (size - ncap) 0 (nsize nd) (bpos + ncap)
  end.

(** ByteArray::write *)
Definition write (buf : list cell) (size : Z) : BA unit :=
  if size =? 0 then mret tt else
  addCapacity size;;
  s ← mget;
  if m_baseSize s =? 0 then mstop DivByZero else
  let npos := m_position s mod m_baseSize s in
  '(_, nd) ← deref (m_cur s);
  let ncap := u64 (nsize nd - npos) in
  write_loop (2 + length (m_nodes s)) buf size npos ncap 0;;
  mmodify (λ s, if m_size s <? m_position s then set_size (m_position s) s else s).

(** The while loop of ByteArray::read(buf, size); [buf] is what has been
    copied to the caller's buffer so far. *)
Fixpoint read_loop (fuel : nat) (buf : list cell) (size npos ncap : Z) : BA (list cell) :=
  match fuel with
  | O => mnofuel
  | S fuel =>
    if size <=? 0 then mret buf else
    s ← mget;
    '(_, nd) ← deref (m_cur s);
    if size <=? ncap then
      src ← mderef OutOfBounds (mem_read npos size (ptr nd));
      (if nsize nd =? npos + size then advance else mret tt);;
      move size;;
      read_loop fuel (buf ++ src) 0 npos ncap
    else
      src ← mderef OutOfBounds (mem_read npos ncap (ptr nd));
      move ncap;;
      advance;;
      s ← mget;
      '(_, nd) ← deref (m_cur s);
      read_loop fuel (buf ++ src) (size - ncap) 0 (nsize nd)
  end.

(** ByteArray::read(void* buf, size_t size) *)
Definition read (size : Z) : BA (list cell) :=
  s ← mget;
  if getReadSize s <? size then mthrow (out_of_range "not enough len") else
  if m_baseSize s =? 0 then mstop DivByZero else
  let npos := m_position s mod m_baseSize s in
  '(_, nd) ← deref (m_cur s);
  let ncap := u64 (nsize nd - npos) in
  read_loop (2 + length (m_nodes s)) [] size npos ncap.

(** The while loop of ByteArray::read(buf, size, position), on its own
    cursor [cur]. *)
Fixpoint read_at_loop (fuel : nat) (buf : list cell) (cur : option nat)
    (size npos ncap : Z) : BA (list cell) :=
  match fuel with
  | O => mnofuel
  | S fuel =>
    if size <=? 0 then mret buf else
    s ← mget;
    '(i, nd) ← deref cur;
    if size <=? ncap then
      src ← mderef OutOfBounds (mem_read npos size (ptr nd));
      read_at_loop fuel (buf ++ src)
        (if nsize nd =? npos + size then next (m_nodes s) i else cur) 0 npos ncap
    else
      src ← mderef OutOfBounds (mem_read npos ncap (ptr nd));
      let cur := next (m_nodes s) i in
      '(_, nd) ← deref cur;
      read_at_loop fuel (buf ++ src) cur (size - ncap) 0 (nsize nd)
  end.

(** ByteArray::read(void* buf, size_t size, size_t position) const *)
Definition read_at (size position : Z) : BA (list cell) :=
  s ← mget;
  if u64 (m_size s - position) <? size then mthrow (out_of_range "not enough len") else
  if m_baseSize s =? 0 then mstop DivByZero else
  let npos := position mod m_baseSize s in
  '(_, nd) ← deref (m_cur s);
  let ncap := u64 (nsize nd - npos) in
  read_at_loop (2 + length (m_nodes s)) [] (m_cur s) size npos ncap.

(** The while loop of setPosition, from the node at [cur]. *)
Fixpoint seek_loop (fuel : nat) (cur : option nat) (v : Z) : BA (option nat * Z) :=
  match fuel with
  | O => mnofuel
  | S fuel =>
    '(i, nd) ← deref cur;
    if nsize nd <? v then
      s ← mget;
      seek_loop fuel (next (m_nodes s) i) (v - nsize nd)
    else mret (cur, v)
  end.

(** ByteArray::setPosition *)
Definition setPosition (v : Z) : BA unit :=
  s ← mget;
  if m_capacity s <? v then mthrow (out_of_range "set_postion out of range") else
  mput (set_position v s);;
  mmodify (λ s, if m_size s <? m_position s then set_size (m_position s) s else s);;
  '(cur, v) ← seek_loop (S (length (m_nodes s))) (Some 0%nat) v;
  '(i, nd) ← deref cur;
  mmodify (set_cur (if v =? nsize nd then next (m_nodes s) i else cur)).

(** ByteArray::toString *)
Definition toString : BA (list cell) :=
  s ← mget;
  if getReadSize s =? 0 then mret [] else read_at (getReadSize s) (m_position s).

(** ** Invariant and abstraction *)

(** The bytes of the chain, as one array of m_capacity cells. *)
Definition flat_of (l : list Node) : list cell := concat (ptr <$> l).
Definition flat (s : ByteArray) : list cell := flat_of (m_nodes s).

Definition node_ok (base : Z) (nd : Node) : Prop := nsize nd = base ∧ zlen (ptr nd) = base.

(** Where m_cur must point for the position of [s]. *)
Definition cur_at (s : ByteArray) : option nat :=
  let k := Z.to_nat (m_position s / m_baseSize s) in
  if decide (k < length (m_nodes s))%nat then Some k else None.

(** Largest capacity considered: below it, the double computed by
    addCapacity is exact and no size_t addition wraps. *)
Definition max_capacity : Z := 2 ^ 53.

Record chain_ok (s : ByteArray) : Prop := {
  co_base : 0 < m_baseSize s;
  co_nodes : Forall (node_ok (m_baseSize s)) (m_nodes s);
  co_cap : m_capacity s = m_baseSize s * zlen (m_nodes s);
  co_nonempty : 0 < zlen (m_nodes s);
  co_max : m_capacity s < max_capacity;
  co_pos : 0 ≤ m_position s ≤ m_capacity s;
  co_cur : m_cur s = cur_at s
}.

Record ba_inv (s : ByteArray) : Prop := {
  bi_chain : chain_ok s;
  bi_size : m_position s ≤ m_size s ≤ m_capacity s
}.

(** ** The chain as a flat array *)

Section Chain.
Context (base : Z) (Hbase : 0 < base).

Lemma zlen_flat_of l : Forall (node_ok base) l → zlen (flat_of l) = base * zlen l.
Proof.
  unfold flat_of. induction 1 as [|nd l [_ Hnd] _ IH]; [unfold zlen; cbn; lia|].
  rewrite fmap_cons, zlen_cons. cbn [concat]. rewrite zlen_app, IH, Hnd. lia.
Qed.

Lemma chain_split l i nd :
  Forall (node_ok base) l → l !! i = Some nd →
  ∃ l1 l2, l = l1 ++ nd :: l2 ∧ length l1 = i ∧ zlen (flat_of l1) = base * Z.of_nat i ∧
    zlen (ptr nd) = base ∧ nsize nd = base.
Proof.
  intros Hl Hi. exists (take i l), (drop (S i) l).
  pose proof (lookup_lt_Some _ _ _ Hi) as Hlt.
  pose proof (Forall_lookup_1 _ _ _ _ Hl Hi) as [? ?].
  split; [by rewrite take_drop_middle|].
  split; [rewrite length_take; lia|].
  split; [|done]. rewrite zlen_flat_of by (by apply Forall_take).
  unfold zlen. rewrite length_take. lia.
Qed.

Lemma flat_of_app l1 l2 : flat_of (l1 ++ l2) = flat_of l1 ++ flat_of l2.
Proof. unfold flat_of. by rewrite fmap_app, concat_app. Qed.

Lemma flat_of_cons nd l : flat_of (nd :: l) = ptr nd ++ flat_of l.
Proof. done. Qed.

(** A slice that stays in one node. *)
Lemma flat_of_slice l i nd o n :
  Forall (node_ok base) l → l !! i = Some nd →
  0 ≤ o → 0 ≤ n → o + n ≤ base →
  zslice (base * Z.of_nat i + o) n (flat_of l) = zslice o n (ptr nd).
Proof.
  intros Hl Hi ???. destruct (chain_split _ _ _ Hl Hi) as (l1 & l2 & -> & _ & Hl1 & Hnd & _).
  rewrite flat_of_app, flat_of_cons.
  rewrite zslice_app_r by lia. rewrite zslice_app_l by lia. f_equal. lia.
Qed.

(** An update that stays in one node. *)
Lemma flat_of_splice l i nd o src :
  Forall (node_ok base) l → l !! i = Some nd →
  0 ≤ o → o + zlen src ≤ base →
  flat_of (<[i := mkNode (zsplice o src (ptr nd)) (nsize nd)]> l)
    = zsplice (base * Z.of_nat i + o) src (flat_of l).
Proof.
  intros Hl Hi ??. destruct (chain_split _ _ _ Hl Hi) as (l1 & l2 & -> & <- & Hl1 & Hnd & _).
  rewrite insert_app_r_alt, Nat.sub_diag by lia. cbn [insert list_insert].
  rewrite !flat_of_app, !flat_of_cons. cbn [ptr].
  rewrite zsplice_app_r, zsplice_app_l by lia. do 2 f_equal. f_equal. lia.
Qed.

Lemma node_ok_insert l i nd o src :
  Forall (node_ok base) l → l !! i = Some nd → 0 ≤ o → o + zlen src ≤ base →
  Forall (node_ok base) (<[i := mkNode (zsplice o src (ptr nd)) (nsize nd)]> l).
Proof.
  intros Hl Hi ??. apply Forall_insert; [done|].
  pose proof (Forall_lookup_1 _ _ _ _ Hl Hi) as [? ?].
  split; cbn; [done|]. rewrite zlen_zsplice; lia.
Qed.

Lemma newNode_ok : node_ok base (newNode base).
Proof. split; cbn; [done|]. unfold zlen. rewrite length_replicate. lia. Qed.

Lemma append_nodes_spec count cap l :
  0 ≤ cap → cap + base * Z.of_nat count < max_capacity →
  append_nodes count base cap l
    = (cap + base * Z.of_nat count, l ++ replicate count (newNode base)).
Proof.
  unfold max_capacity. revert cap l. induction count as [|c IH]; intros cap l ? ?; cbn [append_nodes].
  { f_equal; [lia|]. cbn. by rewrite app_nil_r. }
  assert (u64 (cap + base) = cap + base) as -> by (apply wrapu_small; split; nia).
  rewrite IH by lia. f_equal; [lia|]. by rewrite <- (assoc_L (++)).
Qed.

End Chain.

(** ** The cursor *)

Lemma cur_at_lookup s :
  chain_ok s → m_position s < m_capacity s →
  ∃ nd, cur_at s = Some (Z.to_nat (m_position s / m_baseSize s)) ∧
    m_nodes s !! Z.to_nat (m_position s / m_baseSize s) = Some nd ∧ node_ok (m_baseSize s) nd.
Proof.
  intros [Hb Hn Hc _ _ Hp _] Hlt. unfold cur_at.
  assert (m_position s / m_baseSize s < zlen (m_nodes s)) as Hk.
  { apply Z.div_lt_upper_bound; lia. }
  assert (0 ≤ m_position s / m_baseSize s) by (apply Z.div_pos; lia).
  unfold zlen in Hk. rewrite decide_True by lia.
  destruct (lookup_lt_is_Some_2 (m_nodes s) (Z.to_nat (m_position s / m_baseSize s))) as [nd Hnd]; [lia|].
  exists nd. split_and!; [done..|]. by eapply Forall_lookup_1.
Qed.

Lemma cur_at_end s : chain_ok s → m_position s = m_capacity s → cur_at s = None.
Proof.
  intros [Hb Hn Hc _ _ Hp _] He. unfold cur_at. rewrite decide_False; [done|].
  rewrite He, Hc, Z.mul_comm, Z.div_mul by lia. unfold zlen. lia.
Qed.

Lemma deref_cur s nd k :
  m_nodes s !! k = Some nd → deref (Some k) s = Ok (k, nd) s.
Proof. intros H. unfold deref. mred. by rewrite H. Qed.

Lemma pos_split s : chain_ok s →
  m_position s = m_baseSize s * Z.of_nat (Z.to_nat (m_position s / m_baseSize s))
                 + m_position s mod m_baseSize s ∧
  0 ≤ m_position s mod m_baseSize s < m_baseSize s.
Proof.
  intros [Hb _ _ _ _ Hp _].
  pose proof (Z.mod_pos_bound (m_position s) (m_baseSize s) Hb).
  pose proof (Z.div_mod (m_position s) (m_baseSize s)).
  pose proof (Z.div_pos (m_position s) (m_baseSize s)).
  rewrite Z2Nat.id by lia. lia.
Qed.

(** Division of a position inside node [k], or at its end. *)
Lemma node_of_pos base k o : 0 < base → 0 ≤ o < base →
  Z.to_nat ((base * Z.of_nat k + o) / base) = k.
Proof. intros. rewrite Z.add_comm, Z.mul_comm, Z.div_add, Z.div_small by lia. lia. Qed.

(** ** Steps of the copying loops *)

(** What the loops leave alone. *)
Definition same_frame (s s' : ByteArray) : Prop :=
  m_baseSize s' = m_baseSize s ∧ m_capacity s' = m_capacity s ∧
  m_size s' = m_size s ∧ m_endian s' = m_endian s ∧
  length (m_nodes s') = length (m_nodes s).

Lemma same_frame_trans s1 s2 s3 : same_frame s1 s2 → same_frame s2 s3 → same_frame s1 s3.
Proof. unfold same_frame. intuition congruence. Qed.

Lemma store_ok s i nd o src :
  m_cur s = Some i → m_nodes s !! i = Some nd → 0 ≤ o → o + zlen src ≤ zlen (ptr nd) →
  store o src s = Ok tt (set_chain (m_capacity s)
    (<[i := mkNode (zsplice o src (ptr nd)) (nsize nd)]> (m_nodes s)) s).
Proof.
  intros Hc Hi ??. unfold store. mred. rewrite Hc, (deref_cur _ _ _ Hi).
  by rewrite mem_write_ok.
Qed.

Lemma advance_ok s i nd :
  m_cur s = Some i → m_nodes s !! i = Some nd →
  advance s = Ok tt (set_cur (next (m_nodes s) i) s).
Proof. intros Hc Hi. unfold advance. mred. by rewrite Hc, (deref_cur _ _ _ Hi). Qed.

Lemma chain_ok_set_chain s i nd o src :
  chain_ok s → m_nodes s !! i = Some nd → 0 ≤ o → o + zlen src ≤ m_baseSize s →
  chain_ok (set_chain (m_capacity s)
    (<[i := mkNode (zsplice o src (ptr nd)) (nsize nd)]> (m_nodes s)) s).
Proof.
  intros [Hb Hn Hc Hne Hm Hp Hcur] Hi ??. split; cbn; try done.
  - by apply node_ok_insert.
  - by rewrite Hc; unfold zlen; rewrite length_insert.
  - unfold zlen. by rewrite length_insert.
  - rewrite Hcur. unfold cur_at. cbn. by rewrite length_insert.
Qed.

(** Moving by [m] cells inside the current node, to the next node when the
    end of the node is reached, keeps the cursor right. *)
Lemma chain_ok_step s m :
  let k := Z.to_nat (m_position s / m_baseSize s) in
  let npos := m_position s mod m_baseSize s in
  chain_ok s → m_position s < m_capacity s → 0 < m → npos + m ≤ m_baseSize s →
  chain_ok (set_position (m_position s + m)
    (set_cur (if m_baseSize s =? npos + m then next (m_nodes s) k else Some k) s)).
Proof.
  intros k npos Hs Hlt Hm Hle. destruct (pos_split _ Hs) as [E Hnpos].
  destruct (cur_at_lookup _ Hs Hlt) as (nd & _ & Hk & _).
  fold k npos in E, Hnpos, Hk. apply lookup_lt_Some in Hk.
  destruct Hs as [Hb Hn Hc Hne Hmax Hp Hcur]. split; cbn; try done.
  - unfold zlen in Hc. nia.
  - unfold cur_at; cbn. destruct (Z.eqb_spec (m_baseSize s) (npos + m)).
    + replace (m_position s + m) with (m_baseSize s * Z.of_nat (S k) + 0) by lia.
      rewrite node_of_pos by lia. done.
    + replace (m_position s + m) with (m_baseSize s * Z.of_nat k + (npos + m)) by lia.
      rewrite node_of_pos by lia. by rewrite decide_True.
Qed.

Lemma u64_pos s m :
  chain_ok s → 0 ≤ m → m_position s + m ≤ m_capacity s →
  u64 (m_position s + m) = m_position s + m.
Proof.
  intros [] ? ?. unfold max_capacity in *. apply wrapu_small. split; lia.
Qed.

Lemma capacity_flat s : chain_ok s → zlen (flat s) = m_capacity s.
Proof. intros []. unfold flat. by erewrite zlen_flat_of. Qed.

(** The node under the cursor, when the position is inside the chain. *)
Lemma cursor_node s :
  chain_ok s → m_position s < m_capacity s →
  ∃ k nd, k = Z.to_nat (m_position s / m_baseSize s) ∧ m_cur s = Some k ∧
    m_nodes s !! k = Some nd ∧ nsize nd = m_baseSize s ∧ zlen (ptr nd) = m_baseSize s ∧
    m_position s = m_baseSize s * Z.of_nat k + m_position s mod m_baseSize s ∧
    0 ≤ m_position s mod m_baseSize s < m_baseSize s.
Proof.
  intros Hs Hlt. destruct (cur_at_lookup _ Hs Hlt) as (nd & Hcur & Hk & ? & ?).
  destruct (pos_split _ Hs). eexists _, nd. rewrite (co_cur _ Hs). done.
Qed.

(** Copying a piece into the current node. *)
Lemma store_chunk s src :
  let npos := m_position s mod m_baseSize s in
  chain_ok s → m_position s < m_capacity s → npos + zlen src ≤ m_baseSize s →
  ∃ s1 nd1, store npos src s = Ok tt s1 ∧ chain_ok s1 ∧ same_frame s s1 ∧
    m_position s1 = m_position s ∧ m_cur s1 = m_cur s ∧
    m_nodes s1 !! Z.to_nat (m_position s / m_baseSize s) = Some nd1 ∧ nsize nd1 = m_baseSize s ∧
    flat s1 = zsplice (m_position s) src (flat s).
Proof.
  intros npos Hs Hlt Hle.
  destruct (cursor_node _ Hs Hlt) as (k & nd & Ek & Hc & Hk & Hnd1 & Hnd2 & E & Hnp).
  fold npos in E, Hnp. rewrite <- Ek.
  eexists _, _. split; [apply (store_ok s k nd); [done|done|lia|lia]|].
  split; [apply chain_ok_set_chain; [done|done|lia|lia]|].
  split. { unfold same_frame. cbn. by rewrite length_insert. }
  split; [done|]. split; [done|]. cbn [m_nodes set_chain].
  split; [by apply list_lookup_insert_eq, lookup_lt_is_Some_1; eauto|].
  split; [done|]. unfold flat. cbn [m_nodes set_chain].
  rewrite (flat_of_splice (m_baseSize s)); [by rewrite <- E|apply Hs..|done|lia|lia].
Qed.

(** After a piece of [n] cells that ends in, or at the end of, the current
    node: the cursor moves, to the next node in the second case. *)
Lemma cursor_step s nd n :
  let k := Z.to_nat (m_position s / m_baseSize s) in
  let npos := m_position s mod m_baseSize s in
  chain_ok s → m_position s + n ≤ m_capacity s → 0 < n → npos + n ≤ m_baseSize s →
  m_nodes s !! k = Some nd → nsize nd = m_baseSize s →
  ∃ s', ((if nsize nd =? npos + n then advance else mret tt);; move n) s = Ok tt s' ∧
    chain_ok s' ∧ same_frame s s' ∧ m_position s' = m_position s + n ∧ m_nodes s' = m_nodes s.
Proof.
  intros k npos Hs Hcap Hn Hle Hk Hnd.
  pose proof (chain_ok_step s n Hs ltac:(lia) Hn Hle) as Hs'. fold k npos in Hs'.
  destruct (cursor_node _ Hs) as (k' & ? & -> & Hc & _); [lia|]. fold k in Hc.
  rewrite Hnd. unfold move.
  destruct (m_baseSize s =? npos + n).
  - mred. rewrite (advance_ok _ _ _ Hc Hk). cbn [m_position set_cur].
    rewrite (u64_pos s n Hs) by lia. eexists. split; [reflexivity|].
    split_and!; done.
  - mred. rewrite (u64_pos s n Hs) by lia. eexists. split; [reflexivity|].
    split; [|done]. destruct s; cbn in *; by subst.
Qed.

(** Crossing into the next node when more cells follow. *)
Lemma cursor_cross s nd n :
  let k := Z.to_nat (m_position s / m_baseSize s) in
  chain_ok s → n = m_baseSize s - m_position s mod m_baseSize s →
  m_position s + n < m_capacity s → m_nodes s !! k = Some nd → nsize nd = m_baseSize s →
  ∃ s' nd', (move n;; advance) s = Ok tt s' ∧ chain_ok s' ∧ same_frame s s' ∧
    m_position s' = m_position s + n ∧ m_nodes s' = m_nodes s ∧
    m_position s' mod m_baseSize s' = 0 ∧
    Z.to_nat (m_position s' / m_baseSize s') = S k ∧ (S k < length (m_nodes s))%nat ∧
    deref (m_cur s') s' = Ok (S k, nd') s' ∧ nsize nd' = m_baseSize s.
Proof.
  intros k Hs -> Hcap Hk Hnd. set (n := m_baseSize s - _) in *.
  destruct (cursor_node _ Hs) as (k' & ? & -> & Hc & _ & _ & _ & E & Hnp);
    [pose proof (pos_split _ Hs); lia|]. fold k in Hc, E.
  pose proof (chain_ok_step s n Hs ltac:(lia) ltac:(lia) ltac:(lia)) as Hs'. fold k in Hs'.
  rewrite (proj2 (Z.eqb_eq (m_baseSize s) _)) in Hs' by lia.
  assert (m_position s + n = m_baseSize s * Z.of_nat (S k) + 0) as Ep by lia.
  destruct (cursor_node _ Hs') as (k2 & nd2 & Ek2 & Hc2 & Hk2 & Hnd2 & _); [cbn; lia|].
  cbn in Ek2. rewrite Ep, node_of_pos in Ek2 by lia. subst k2.
  eexists _, nd2. split.
  { unfold move. mred. rewrite (u64_pos s n Hs) by lia.
    by rewrite (advance_ok (set_position _ s) k _ Hc Hk). }
  split; [exact Hs'|]. cbn. split_and!; try done.
  - by rewrite Ep, Z.add_0_r, Z.mul_comm, Z.mod_mul by lia.
  - by rewrite Ep, node_of_pos by lia.
  - by apply lookup_lt_Some in Hk2.
  - rewrite (deref_cur _ _ _ Hk2) || idtac. cbn in Hc2. rewrite Hc2. by apply deref_cur.
Qed.

(** ** The loop of write *)

Lemma write_loop_spec fuel s buf size npos ncap bpos :
  chain_ok s → 0 < size → m_position s + size ≤ m_capacity s →
  npos = m_position s mod m_baseSize s → ncap = m_baseSize s - npos →
  0 ≤ bpos → bpos + size ≤ zlen buf →
  (length (m_nodes s) - Z.to_nat (m_position s / m_baseSize s) + 2 ≤ fuel)%nat →
  ∃ s', write_loop fuel buf size npos ncap bpos s = Ok tt s' ∧ chain_ok s' ∧
    same_frame s s' ∧ m_position s' = m_position s + size ∧
    flat s' = zsplice (m_position s) (zslice bpos size buf) (flat s).
Proof.
  revert s size npos ncap bpos. induction fuel as [|fuel IH]; [lia|].
  intros s size npos ncap bpos Hs Hsz Hcap Hnpos Hncap Hbpos Hbuf Hfuel.
  destruct (pos_split _ Hs) as [E Hnp]. rewrite <- Hnpos in E, Hnp.
  pose proof (co_pos _ Hs) as Hpos. set (n := Z.min size ncap).
  assert (zlen (zslice bpos n buf) = n) as Hsrc by (apply zlen_zslice; lia).
  destruct (store_chunk s (zslice bpos n buf)) as (s1 & nd & Hst & Hs1 & Hf1 & Hp1 & Hc1 & Hk & Hnd & Hfl1);
    [done|lia|lia|]. rewrite <- Hnpos in Hst.
  pose proof Hf1 as (Hb1 & Hcap1 & _ & _ & Hlen1).
  cbn [write_loop]. rewrite (proj2 (Z.leb_gt size 0)) by lia.
  destruct (Z.leb_spec size ncap) as [Hle|Hgt].
  - (* the rest fits in this node *)
    assert (n = size) as En by lia. rewrite En in *.
    rewrite mem_read_ok by lia.
    destruct (cursor_step s1 nd size) as (s2 & Hstep & Hs2 & Hf2 & Hp2 & Hn2);
      rewrite ?Hp1, ?Hb1, ?Hcap1; [done|lia|lia|lia|done|done|].
    rewrite Hp1, Hb1, <- Hnpos in Hstep.
    destruct (cursor_node s1) as (k1 & nd1 & -> & Hcur1 & Hk1 & _); [done|lia|].
    rewrite Hp1, Hb1, Hk in Hk1. injection Hk1 as <-. rewrite <- Hp1, <- Hb1 in Hk.
    destruct fuel as [|fuel]; [lia|].
    revert Hstep. mred. rewrite Hst, Hcur1, (deref_cur _ _ _ Hk). intros Hstep.
    exists s2. split.
    { destruct (if nsize nd =? npos + size then _ else _) as [[] s'| | |]; [|done..].
      by rewrite Hstep. }
    split; [done|]. split; [by eapply same_frame_trans|]. split; [lia|].
    unfold flat at 1. by rewrite Hn2, Hp1 in *.
  - (* continue in the next node *)
    assert (n = ncap) as En by lia. rewrite En in *.
    rewrite mem_read_ok by lia.
    destruct (cursor_cross s1 nd ncap) as (s2 & nd2 & Hx & Hs2 & Hf2 & Hp2 & Hn2 & Hm2 & Hk2 & Hlt & Hd2 & Hnd2);
      rewrite ?Hp1, ?Hb1, ?Hcap1; [done|lia|lia|done|done|].
    rewrite Hp1, Hb1 in Hk2, Hlt. pose proof Hf2 as (Hb2 & Hcap2 & _ & _ & Hlen2).
    destruct (IH s2 (size - ncap) 0 (m_baseSize s) (bpos + ncap)) as (s3 & R & Hs3 & Hf3 & Hp3 & Hfl3);
      [done|lia|lia|done|lia|lia|lia|rewrite Hk2; lia|].
    exists s3. split.
    { revert Hx. mred. rewrite Hst. destruct (move ncap s1) as [[] s'| | |]; [|done..].
      intros ->. by rewrite Hd2, Hnd2, Hb1. }
    split; [done|]. split; [by do 2 (eapply same_frame_trans; [done|])|].
    split; [lia|]. rewrite Hfl3. unfold flat at 1. rewrite Hn2. fold (flat s1). rewrite Hfl1, Hp2, Hp1.
    replace size with (ncap + (size - ncap)) at 2 by lia.
    rewrite zslice_split, zsplice_app; rewrite ?Hsrc; [done|lia| |lia..].
    rewrite zlen_zslice, capacity_flat by (done || lia). lia.
Qed.

(** ** Growing the chain *)

Lemma ceil_div_spec size base :
  0 < base → 0 < size →
  0 < ceil_div size base ∧ size ≤ base * ceil_div size base < size + base.
Proof.
  intros Hb Hs. unfold ceil_div.
  pose proof (Z.div_mod (size + base - 1) base ltac:(lia)) as E.
  pose proof (Z.mod_pos_bound (size + base - 1) base Hb). nia.
Qed.

Lemma getCapacity_ok s : chain_ok s → getCapacity s = m_capacity s - m_position s.
Proof. intros []. unfold getCapacity, max_capacity in *. apply wrapu_small. split; lia. Qed.

Lemma flat_of_new n base :
  flat_of (replicate n (newNode base)) = replicate (n * Z.to_nat base) None.
Proof.
  induction n as [|n IH]; [done|]. rewrite replicate_S, flat_of_cons, IH. cbn [ptr newNode].
  by rewrite <- replicate_add.
Qed.

(** The state after [count > 0] nodes have been appended. *)
Lemma chain_ok_grow s count :
  let s' := set_chain (m_capacity s + m_baseSize s * Z.of_nat count)
              (m_nodes s ++ replicate count (newNode (m_baseSize s))) s in
  chain_ok s → (0 < count)%nat → m_capacity s + m_baseSize s * Z.of_nat count < max_capacity →
  chain_ok (if m_capacity s - m_position s =? 0
            then set_cur (Some (length (m_nodes s))) s' else s').
Proof.
  intros s' Hs Hcount Hmax. pose proof Hs as [Hb Hn Hc Hne _ Hp Hcur].
  assert (Forall (node_ok (m_baseSize s)) (m_nodes s')) as Hn'.
  { apply Forall_app_2; [done|]. apply Forall_replicate, newNode_ok. lia. }
  assert (zlen (m_nodes s ++ replicate count (newNode (m_baseSize s)))
    = zlen (m_nodes s) + Z.of_nat count) as Hlen.
  { rewrite zlen_app. unfold zlen. rewrite length_replicate. lia. }
  destruct (Z.eqb_spec (m_capacity s - m_position s) 0) as [E|E];
    (split; cbn -[Z.mul Z.of_nat newNode]; [done|done|rewrite Hlen; lia|rewrite Hlen; lia|lia|lia|]).
  - unfold cur_at. cbn. replace (m_position s) with (m_baseSize s * Z.of_nat (length (m_nodes s)) + 0)
      by (unfold zlen in Hc; lia).
    rewrite node_of_pos by lia. rewrite decide_True; [done|].
    rewrite length_app, length_replicate. lia.
  - destruct (cursor_node _ Hs) as (k & nd & -> & Hk & Hl & _); [lia|].
    rewrite Hk. unfold cur_at. cbn. apply lookup_lt_Some in Hl.
    rewrite decide_True; [done|]. rewrite length_app. lia.
Qed.

(** addCapacity(size) leaves room for [size] bytes at the position. *)
Lemma addCapacity_spec s size :
  chain_ok s → 0 ≤ size → m_position s + size + m_baseSize s ≤ max_capacity →
  ∃ s', addCapacity size s = Ok tt s' ∧ chain_ok s' ∧
    m_baseSize s' = m_baseSize s ∧ m_position s' = m_position s ∧
    m_size s' = m_size s ∧ m_endian s' = m_endian s ∧
    m_position s + size ≤ m_capacity s' ∧
    m_capacity s ≤ m_capacity s' < m_capacity s + size + m_baseSize s ∧
    flat s' = flat s ++ replicate (Z.to_nat (m_capacity s' - m_capacity s)) None.
Proof.
  intros Hs Hsz Hmax. pose proof Hs as [Hb _ _ _ Hm Hp _]. unfold addCapacity.
  assert (∀ s0 : ByteArray, flat s0 = flat s0 ++ replicate (Z.to_nat (m_capacity s0 - m_capacity s0)) None) as Hsame.
  { intros s0. by rewrite Z.sub_diag, app_nil_r. }
  destruct (Z.eqb_spec size 0); [exists s; split_and!; done || lia || apply Hsame|].
  mred. rewrite (getCapacity_ok _ Hs).
  destruct (Z.leb_spec size (m_capacity s - m_position s));
    [exists s; split_and!; done || lia || apply Hsame|].
  rewrite (proj2 (Z.eqb_neq (m_baseSize s) 0)) by lia.
  set (sz := size - (m_capacity s - m_position s)).
  assert (u64 sz = sz) as -> by (apply wrapu_small; unfold max_capacity in *; split; lia).
  destruct (ceil_div_spec sz (m_baseSize s)) as [Hc0 Hc]; [lia..|].
  set (count := Z.to_nat (ceil_div sz (m_baseSize s))).
  assert (Z.of_nat count = ceil_div sz (m_baseSize s)) as Hcount by lia.
  rewrite decide_False by lia.
  rewrite append_nodes_spec by lia.
  pose proof (chain_ok_grow s count Hs ltac:(lia) ltac:(lia)) as Hs'.
  eexists. split; [reflexivity|]. split; [exact Hs'|].
  assert (flat_of (m_nodes s ++ replicate count (newNode (m_baseSize s)))
    = flat s ++ replicate (Z.to_nat (m_baseSize s * Z.of_nat count)) None) as Hfl.
  { rewrite flat_of_app, flat_of_new. unfold flat. do 2 f_equal. lia. }
  destruct (m_capacity s - m_position s =? 0); unfold flat at 1;
    cbn -[Z.mul Z.of_nat newNode replicate flat_of]; rewrite ?Hfl; split_and!;
    done || lia || (do 2 f_equal; lia).
Qed.

(** ** write *)

Lemma write_spec s buf size :
  ba_inv s → 0 ≤ size ≤ zlen buf → m_position s + size + m_baseSize s ≤ max_capacity →
  ∃ s', write buf size s = Ok tt s' ∧ ba_inv s' ∧
    m_baseSize s' = m_baseSize s ∧ m_endian s' = m_endian s ∧
    m_position s' = m_position s + size ∧
    m_size s' = Z.max (m_size s) (m_position s + size) ∧
    m_capacity s ≤ m_capacity s' < m_capacity s + size + m_baseSize s ∧
    flat s' = zsplice (m_position s) (zslice 0 size buf)
      (flat s ++ replicate (Z.to_nat (m_capacity s' - m_capacity s)) None).
Proof.
  intros [Hs Hsize] Hsz Hmax. unfold write. pose proof (co_pos _ Hs) as Hpos0.
  pose proof (co_base _ Hs) as Hb0.
  destruct (Z.eqb_spec size 0) as [->|Hne].
  { exists s. split; [done|]. split; [done|]. split_and!; try done || lia.
    rewrite Z.sub_diag, app_nil_r, zslice_0. unfold zsplice. cbn.
    by rewrite Nat.add_0_r, take_drop. }
  destruct (addCapacity_spec s size) as (s1 & H1 & Hs1 & Hb1 & Hp1 & Hz1 & He1 & Hc1 & Hc2 & Hf1);
    [done|lia|lia|]. pose proof (co_base _ Hs1) as Hb.
  destruct (cursor_node s1 Hs1) as (k & nd & -> & Hcur & Hk & Hnd & _ & E & Hnp); [lia|].
  destruct (write_loop_spec (2 + length (m_nodes s1)) s1 buf size
     (m_position s1 mod m_baseSize s1) (m_baseSize s1 - m_position s1 mod m_baseSize s1) 0)
    as (s2 & H2 & Hs2 & (Hb2 & Hc3 & Hz2 & He2 & _) & Hp2 & Hf2); [done|lia|lia|done..|lia|lia|lia|].
  run H1. mred. rewrite (proj2 (Z.eqb_neq _ 0)), Hcur, (deref_cur _ _ _ Hk), Hnd by lia.
  assert (u64 (m_baseSize s1 - m_position s1 mod m_baseSize s1) = m_baseSize s1 - m_position s1 mod m_baseSize s1) as ->.
  { pose proof Hs1 as [_ _ ? ? ? _ _]. apply wrapu_small. unfold max_capacity in *. split; [lia|]. nia. }
  rewrite H2. eexists. split; [reflexivity|].
  pose proof (co_pos _ Hs2) as Hp3.
  assert (flat s2 = zsplice (m_position s) (zslice 0 size buf)
      (flat s ++ replicate (Z.to_nat (m_capacity s2 - m_capacity s)) None)) as Hfin.
  { by rewrite Hf2, Hf1, Hp1, Hc3. }
  destruct (Z.ltb_spec (m_size s2) (m_position s2)); cbn; split_and!; try congruence || lia || done.
  - split; [by destruct Hs2; split|]. cbn. lia.
  - split; [done|]. lia.
Qed.

(** ** read *)

Lemma getReadSize_ok s : ba_inv s → getReadSize s = m_size s - m_position s.
Proof.
  intros [[] ?]. unfold getReadSize, max_capacity in *. apply wrapu_small. split; lia.
Qed.

Lemma ncap_ok s : chain_ok s →
  u64 (m_baseSize s - m_position s mod m_baseSize s)
    = m_baseSize s - m_position s mod m_baseSize s.
Proof.
  intros Hs. pose proof (pos_split _ Hs). destruct Hs.
  apply wrapu_small. unfold max_capacity in *. split; [lia|]. nia.
Qed.

(** A piece of the current node is a piece of the flat array. *)
Lemma node_slice s nd n :
  chain_ok s → m_position s < m_capacity s →
  m_nodes s !! Z.to_nat (m_position s / m_baseSize s) = Some nd →
  0 ≤ n → m_position s mod m_baseSize s + n ≤ m_baseSize s →
  mem_read (m_position s mod m_baseSize s) n (ptr nd) = Some (zslice (m_position s) n (flat s)).
Proof.
  intros Hs Hlt Hk Hn Hle.
  destruct (cursor_node _ Hs Hlt) as (k & nd' & -> & _ & Hk' & _ & Hl & E & Hnp).
  rewrite Hk in Hk'. injection Hk' as <-.
  rewrite mem_read_ok by lia. unfold flat.
  rewrite <- (flat_of_slice (m_baseSize s) (m_nodes s) _ nd _ _ (co_nodes _ Hs) Hk) by lia.
  by rewrite <- E.
Qed.

Lemma read_loop_spec fuel s buf size npos ncap :
  chain_ok s → 0 < size → m_position s + size ≤ m_capacity s →
  npos = m_position s mod m_baseSize s → ncap = m_baseSize s - npos →
  (length (m_nodes s) - Z.to_nat (m_position s / m_baseSize s) + 2 ≤ fuel)%nat →
  ∃ s', read_loop fuel buf size npos ncap s
          = Ok (buf ++ zslice (m_position s) size (flat s)) s' ∧ chain_ok s' ∧
    same_frame s s' ∧ m_position s' = m_position s + size ∧ m_nodes s' = m_nodes s.
Proof.
  revert s buf size npos ncap. induction fuel as [|fuel IH]; [lia|].
  intros s buf size npos ncap Hs Hsz Hcap Hnpos Hncap Hfuel.
  pose proof (co_pos _ Hs) as Hpos.
  destruct (cursor_node s) as (k & nd & -> & Hcur & Hk & Hnd & _ & E & Hnp); [done|lia|].
  rewrite <- Hnpos in E, Hnp.
  cbn [read_loop]. rewrite (proj2 (Z.leb_gt size 0)) by lia.
  destruct (Z.leb_spec size ncap) as [Hle|Hgt].
  - destruct (cursor_step s nd size) as (s2 & Hstep & Hs2 & Hf2 & Hp2 & Hn2); [done|lia|lia|lia|done|done|].
    rewrite <- Hnpos in Hstep.
    pose proof (node_slice s nd size ltac:(done) ltac:(lia) Hk ltac:(lia) ltac:(lia)) as Hrd.
    rewrite <- Hnpos in Hrd. destruct fuel as [|fuel]; [lia|].
    exists s2. split; [|done].
    revert Hstep. mred. rewrite Hcur, (deref_cur _ _ _ Hk), Hrd. intros Hstep.
    destruct (if nsize nd =? npos + size then _ else _) as [[] s'| | |]; [|done..].
    by rewrite Hstep.
  - destruct (cursor_cross s nd ncap)
      as (s2 & nd2 & Hx & Hs2 & Hf2 & Hp2 & Hn2 & Hm2 & Hk2 & Hlt & Hd2 & Hnd2); [done|lia|lia|done|done|].
    pose proof Hf2 as (Hb2 & Hcap2 & _ & _ & Hlen2).
    pose proof (node_slice s nd ncap ltac:(done) ltac:(lia) Hk ltac:(lia) ltac:(lia)) as Hrd.
    rewrite <- Hnpos in Hrd.
    destruct (IH s2 (buf ++ zslice (m_position s) ncap (flat s)) (size - ncap) 0 (m_baseSize s))
      as (s3 & R & Hs3 & Hf3 & Hp3 & Hn3); [done|lia|lia|done|lia|rewrite Hk2; lia|].
    exists s3. split.
    { revert Hx. mred. rewrite Hcur, (deref_cur _ _ _ Hk), Hrd.
      destruct (move ncap s) as [[] s'| | |]; [|done..]. intros ->. rewrite Hd2, Hnd2, R.
      rewrite <- (assoc_L (++)), Hp2. unfold flat. rewrite Hn2.
      rewrite <- zslice_split by lia. do 3 f_equal. lia. }
    split; [done|]. split; [by eapply same_frame_trans|]. split; [lia|congruence].
Qed.

(** read(buf, size) when the bytes are there. *)
Lemma read_spec s size :
  ba_inv s → 0 < size → m_position s + size ≤ m_size s →
  ∃ s', read size s = Ok (zslice (m_position s) size (flat s)) s' ∧ ba_inv s' ∧
    same_frame s s' ∧ m_position s' = m_position s + size ∧ m_nodes s' = m_nodes s.
Proof.
  intros Hinv Hsz Hle. pose proof Hinv as [Hs Hsize]. pose proof (co_base _ Hs) as Hb.
  unfold read. mred. rewrite (getReadSize_ok _ Hinv), (proj2 (Z.ltb_ge _ size)) by lia.
  rewrite (proj2 (Z.eqb_neq _ 0)) by lia.
  destruct (cursor_node s) as (k & nd & -> & Hcur & Hk & Hnd & _); [done|lia|].
  rewrite Hcur, (deref_cur _ _ _ Hk), Hnd, (ncap_ok _ Hs).
  destruct (read_loop_spec (2 + length (m_nodes s)) s [] size _ _ Hs Hsz ltac:(lia) eq_refl eq_refl)
    as (s' & R & Hs' & Hf & Hp & Hn); [lia|].
  rewrite R. eexists. split; [done|]. split; [|done].
  destruct Hf as (? & ? & ? & _). split; [done|lia].
Qed.

(** read(buf, size) when they are not: an exception, and no change. *)
Lemma read_exc s size :
  ba_inv s → m_size s < m_position s + size →
  read size s = Exc (out_of_range "not enough len") s.
Proof.
  intros Hinv Hlt. unfold read. mred. rewrite (getReadSize_ok _ Hinv).
  by rewrite (proj2 (Z.ltb_lt _ size)) by lia.
Qed.

(** read(buf, 0): nothing is copied, but m_cur is dereferenced. *)
Lemma read_zero s :
  ba_inv s → read 0 s = (if m_position s <? m_capacity s then Ok [] s else Stop NullDeref).
Proof.
  intros Hinv. pose proof Hinv as [Hs Hsize]. pose proof (co_base _ Hs). pose proof (co_pos _ Hs).
  unfold read. mred. rewrite (getReadSize_ok _ Hinv), (proj2 (Z.ltb_ge _ 0)) by lia.
  rewrite (proj2 (Z.eqb_neq _ 0)) by lia.
  destruct (Z.ltb_spec (m_position s) (m_capacity s)) as [Hlt|Hge].
  - destruct (cursor_node s) as (k & nd & -> & Hcur & Hk & Hnd & _); [done|lia|].
    by rewrite Hcur, (deref_cur _ _ _ Hk).
  - rewrite (co_cur _ Hs), cur_at_end by (done || lia). done.
Qed.

(** ** read(buf, size, position) and toString *)

(** The const overload does what read does from the same node, without
    moving the object's own cursor. *)
Lemma read_at_loop_read_loop fuel buf cur size npos ncap p s :
  read_at_loop fuel buf cur size npos ncap s =
  match read_loop fuel buf size npos ncap (set_position p (set_cur cur s)) with
  | Ok r _ => Ok r s
  | Exc e _ => Exc e s
  | Stop u => Stop u
  | NoFuel => NoFuel
  end.
Proof.
  revert buf cur size npos ncap p. induction fuel as [|fuel IH]; intros; [done|].
  cbn [read_at_loop read_loop]. destruct (size <=? 0); [done|].
  unfold advance, move, deref. mred. cbn [m_cur set_position set_cur m_nodes].
  destruct cur as [i|]; [|done]. destruct (m_nodes s !! i) as [nd|] eqn:Hi; [|done].
  destruct (size <=? ncap).
  - destruct (mem_read npos size (ptr nd)); [|done].
    destruct (nsize nd =? npos + size).
    + rewrite (IH _ _ _ _ _ (u64 (p + size))). cbn [m_nodes set_position set_cur m_cur].
      rewrite Hi. done.
    + rewrite (IH _ _ _ _ _ (u64 (p + size))). done.
  - destruct (mem_read npos ncap (ptr nd)); [|done].
    cbn [m_nodes set_position set_cur m_cur]. rewrite Hi.
    cbn [m_nodes set_position set_cur m_cur].
    destruct (next (m_nodes s) i) as [j|]; [|done].
    destruct (m_nodes s !! j) as [nd2|]; [|done].
    rewrite (IH _ _ _ _ _ (u64 (p + ncap))). done.
Qed.

Lemma read_at_position s size :
  ba_inv s → 0 < size → m_position s + size ≤ m_size s →
  read_at size (m_position s) s = Ok (zslice (m_position s) size (flat s)) s.
Proof.
  intros Hinv Hsz Hle. pose proof Hinv as [Hs Hsize]. pose proof (co_base _ Hs) as Hb.
  unfold read_at. mred. fold (getReadSize s).
  rewrite (getReadSize_ok _ Hinv), (proj2 (Z.ltb_ge _ size)) by lia.
  rewrite (proj2 (Z.eqb_neq _ 0)) by lia.
  destruct (cursor_node s) as (k & nd & -> & Hcur & Hk & Hnd & _); [done|lia|].
  rewrite Hcur, (deref_cur _ _ _ Hk), Hnd, (ncap_ok _ Hs), <- Hcur.
  rewrite (read_at_loop_read_loop _ _ _ _ _ _ (m_position s)).
  replace (set_position (m_position s) (set_cur (m_cur s) s)) with s by (by destruct s).
  destruct (read_loop_spec (2 + length (m_nodes s)) s [] size _ _ Hs Hsz ltac:(lia) eq_refl eq_refl)
    as (s' & R & _); [lia|]. by rewrite R.
Qed.

Lemma toString_spec s :
  ba_inv s → toString s = Ok (zslice (m_position s) (m_size s - m_position s) (flat s)) s.
Proof.
  intros Hinv. pose proof (bi_size _ Hinv). unfold toString. mred.
  rewrite (getReadSize_ok _ Hinv).
  destruct (Z.eqb_spec (m_size s - m_position s) 0) as [->|]; [done|].
  apply read_at_position; [done|lia|lia].
Qed.

(** ** setPosition *)

Lemma seek_loop_spec fuel s i v :
  0 < m_baseSize s → Forall (node_ok (m_baseSize s)) (m_nodes s) →
  0 ≤ v → m_baseSize s * Z.of_nat i + v ≤ m_baseSize s * zlen (m_nodes s) →
  (i < length (m_nodes s))%nat → (length (m_nodes s) - i ≤ fuel)%nat →
  ∃ j w nd, seek_loop fuel (Some i) v s = Ok (Some j, w) s ∧ m_nodes s !! j = Some nd ∧
    m_baseSize s * Z.of_nat i + v = m_baseSize s * Z.of_nat j + w ∧ 0 ≤ w ≤ m_baseSize s.
Proof.
  intros Hb Hn. revert i v. induction fuel as [|fuel IH]; intros i v Hv Hle Hi Hf; [lia|].
  destruct (lookup_lt_is_Some_2 _ _ Hi) as [nd Hnd].
  pose proof (Forall_lookup_1 _ _ _ _ Hn Hnd) as [Hnd1 _].
  cbn [seek_loop]. rewrite (bind_ok _ _ _ _ _ (deref_cur _ _ _ Hnd)). cbn beta iota.
  rewrite Hnd1. destruct (Z.ltb_spec (m_baseSize s) v).
  - mred. assert (S i < length (m_nodes s))%nat by (unfold zlen in *; nia).
    unfold next. rewrite decide_True by done.
    destruct (IH (S i) (v - m_baseSize s)) as (j & w & nd' & -> & Hj & E & Hw); [lia|lia|lia|lia|].
    exists j, w, nd'. split; [done|]. split; [done|]. lia.
  - exists i, v, nd. split; [done|]. split; [done|]. lia.
Qed.

Lemma setPosition_spec s v :
  ba_inv s → 0 ≤ v ≤ m_capacity s →
  ∃ s', setPosition v s = Ok tt s' ∧ ba_inv s' ∧ m_position s' = v ∧
    m_size s' = Z.max (m_size s) v ∧ m_baseSize s' = m_baseSize s ∧
    m_capacity s' = m_capacity s ∧ m_endian s' = m_endian s ∧ m_nodes s' = m_nodes s.
Proof.
  intros [Hs Hsize] Hv. pose proof Hs as [Hb Hn Hc Hne Hm Hp _].
  unfold setPosition. mred. rewrite (proj2 (Z.ltb_ge _ v)) by lia. cbn [m_size m_position set_position].
  set (s1 := if m_size s <? v then _ else _).
  assert (m_baseSize s1 = m_baseSize s ∧ m_nodes s1 = m_nodes s ∧ m_position s1 = v ∧
    m_size s1 = Z.max (m_size s) v ∧ m_capacity s1 = m_capacity s ∧ m_endian s1 = m_endian s)
    as (Eb & En & Ep & Ez & Ec & Ee).
  { unfold s1. destruct (Z.ltb_spec (m_size s) v); cbn; split_and!; done || lia. }
  destruct (seek_loop_spec (S (length (m_nodes s))) s1 0 v) as (j & w & nd & -> & Hj & E & Hw);
    rewrite ?Eb, ?En; [done|done|lia|lia|unfold zlen in Hne; lia|lia|].
  rewrite (deref_cur _ _ _ Hj). rewrite En in Hj.
  pose proof (Forall_lookup_1 _ _ _ _ Hn Hj) as [Hnd _]. rewrite Hnd.
  eexists. split; [reflexivity|]. cbn. rewrite Ep, Ez, Eb, Ec, En, Ee. split; [|done].
  assert (j < length (m_nodes s))%nat as Hlt by (by eapply lookup_lt_Some).
  split; [|cbn; lia]. split; cbn; rewrite ?Ep, ?Ez, ?Eb, ?Ec, ?En, ?Ee; try done.
  unfold cur_at; cbn. rewrite Ep, Eb, En. destruct (Z.eqb_spec w (m_baseSize s)).
  - replace v with (m_baseSize s * Z.of_nat (S j) + 0) by lia. by rewrite node_of_pos by lia.
  - replace v with (m_baseSize s * Z.of_nat j + w) by lia.
    rewrite node_of_pos by lia. by rewrite decide_True.
Qed.

Lemma setPosition_exc s v :
  m_capacity s < v → setPosition v s = Exc (out_of_range "set_postion out of range") s.
Proof. intros H. unfold setPosition. mred. by rewrite (proj2 (Z.ltb_lt _ v)). Qed.

(** ** The constructor and clear *)

Lemma newByteArray_inv base : 0 < base < max_capacity → ba_inv (newByteArray base).
Proof.
  intros Hb. split; [split; cbn; try done; try (unfold zlen; cbn; lia)|cbn; lia].
  repeat constructor. unfold zlen. cbn. rewrite length_replicate. lia.
Qed.

Lemma clear_spec s :
  ba_inv s → ∃ s', clear s = Ok tt s' ∧ ba_inv s' ∧ m_position s' = 0 ∧ m_size s' = 0 ∧
    m_capacity s' = m_baseSize s ∧ m_baseSize s' = m_baseSize s ∧ m_endian s' = m_endian s.
Proof.
  intros [[Hb Hn Hc Hne Hm _ _] _]. unfold clear. mred.
  destruct (m_nodes s) as [|root l] eqn:E; [done|]. cbn [lookup list_lookup].
  eexists. split; [reflexivity|]. apply Forall_cons_1 in Hn as [Hr _].
  split; [|done]. rewrite zlen_cons in Hc. pose proof (zlen_nonneg l).
  split; [split; cbn; try done; try (unfold zlen; cbn; lia); try nia|cbn; lia].
  constructor; [done|constructor].
Qed.
