(* ===== verification/ByteArraySpec.v ===== *)
(** What ByteArray promises: a byte string with a cursor.

    The abstract buffer knows nothing of nodes, capacity or m_cur. The
    theorems of this file show that every operation of the chained buffer
    (ByteArray.v) computes the corresponding operation of the abstract one,
    keeps the representation invariant and touches no memory outside its
    nodes; [run_safe] closes this under arbitrary sequences of calls. *)

From stdpp Require Import base numbers list strings.
From Stdlib Require Import ZArith Lia.
From S2P Require Import Prelude Endian ByteArray.

(** ** The abstract buffer *)

Record AbsBuf := mkAbs { ab_data : list cell; ab_pos : Z }.

Definition abs_write (src : list cell) (b : AbsBuf) : AbsBuf :=
  mkAbs (zsplice (ab_pos b) src (ab_data b)) (ab_pos b + zlen src).

Definition abs_read (n : Z) (b : AbsBuf) : option (list cell * AbsBuf) :=
  if zlen (ab_data b) - ab_pos b <? n then None
  else Some (zslice (ab_pos b) n (ab_data b), mkAbs (ab_data b) (ab_pos b + n)).

(** The buffer a ByteArray stands for: its first m_size cells. *)
Definition data (s : ByteArray) : list cell := zslice 0 (m_size s) (flat s).
Definition abs (s : ByteArray) : AbsBuf := mkAbs (data s) (m_position s).

(** ** Facts on [data] *)

Lemma zlen_data s : ba_inv s → zlen (data s) = m_size s.
Proof.
  intros [Hs Hz]. pose proof (co_pos _ Hs). unfold data.
  apply zlen_zslice; rewrite ?capacity_flat by done; lia.
Qed.

Lemma data_slice s off n :
  ba_inv s → 0 ≤ off → 0 ≤ n → off + n ≤ m_size s →
  zslice off n (data s) = zslice off n (flat s).
Proof.
  intros [Hs Hz] ???. pose proof (co_pos _ Hs). unfold data, zslice.
  rewrite drop_0, skipn_firstn_comm, take_take. f_equal. lia.
Qed.

(** A write seen through the first m_size cells. *)
Lemma data_splice (fl : list cell) pad pos sz src :
  0 ≤ pos ≤ sz → sz ≤ zlen fl → pos + zlen src ≤ zlen (fl ++ pad) →
  zslice 0 (Z.max sz (pos + zlen src)) (zsplice pos src (fl ++ pad))
    = zsplice pos src (zslice 0 sz fl).
Proof.
  unfold zlen, zslice, zsplice. rewrite length_app. intros ???. rewrite !drop_0.
  rewrite (take_app_le fl pad) by lia. rewrite (take_take fl (Z.to_nat pos)).
  replace (Z.to_nat pos `min` Z.to_nat sz)%nat with (Z.to_nat pos) by lia.
  rewrite take_app_ge by (rewrite length_take; lia).
  rewrite length_take. f_equal.
  rewrite take_app_ge by lia. f_equal.
  rewrite skipn_firstn_comm.
  destruct (decide (Z.to_nat sz ≤ Z.to_nat pos + length src)%nat).
  - replace (Z.to_nat sz - (Z.to_nat pos + length src))%nat with 0%nat by lia.
    replace (_ - _ - length src)%nat with 0%nat by lia. done.
  - rewrite drop_app_le by lia. rewrite take_app_le by (rewrite length_drop; lia).
    f_equal. lia.
Qed.

(** ** Refinement, operation by operation *)

Lemma write_abs s buf size :
  ba_inv s → 0 ≤ size ≤ zlen buf → m_position s + size + m_baseSize s ≤ max_capacity →
  ∃ s', write buf size s = Ok tt s' ∧ ba_inv s' ∧
    abs s' = abs_write (zslice 0 size buf) (abs s) ∧
    m_endian s' = m_endian s ∧ m_baseSize s' = m_baseSize s ∧
    m_capacity s' < m_capacity s + size + m_baseSize s.
Proof.
  intros Hinv Hsz Hmax. pose proof Hinv as [Hs Hz]. pose proof (co_pos _ Hs).
  destruct (write_spec s buf size) as (s' & R & Hinv' & Hb & He & Hp & Hz' & Hc & Hf); [done..|].
  exists s'. split_and!; try done; [|lia].
  assert (zlen (zslice 0 size buf) = size) as Hlen by (apply zlen_zslice; lia).
  unfold abs, abs_write, data. cbn. rewrite Hp, Hz', Hf, Hlen. f_equal.
  rewrite <- Hlen at 1. apply data_splice; [lia| |];
    rewrite ?zlen_app, ?capacity_flat by done; [lia|].
  rewrite Hlen. unfold zlen. rewrite length_replicate.
  pose proof (co_pos _ (bi_chain _ Hinv')). lia.
Qed.

Lemma read_abs s n :
  ba_inv s → 0 < n →
  match abs_read n (abs s) with
  | Some (v, b) => ∃ s', read n s = Ok v s' ∧ ba_inv s' ∧ abs s' = b ∧ same_frame s s'
  | None => read n s = Exc (out_of_range "not enough len") s
  end.
Proof.
  intros Hinv Hn. pose proof Hinv as [Hs Hz]. pose proof (co_pos _ Hs).
  unfold abs_read. cbn. rewrite (zlen_data _ Hinv).
  destruct (Z.ltb_spec (m_size s - m_position s) n) as [|Hle]; [apply read_exc; [done|lia]|].
  destruct (read_spec s n) as (s' & R & Hinv' & Hf & Hp & Hnodes); [done|lia|lia|].
  exists s'. rewrite data_slice by (done || lia). split_and!; try done.
  destruct Hf as (_ & _ & Hsz & _). unfold abs, data, flat. by rewrite Hp, Hsz, Hnodes.
Qed.

Lemma setPosition_abs s v :
  ba_inv s → 0 ≤ v ≤ m_size s →
  ∃ s', setPosition v s = Ok tt s' ∧ ba_inv s' ∧ abs s' = mkAbs (data s) v ∧
    m_baseSize s' = m_baseSize s ∧ m_capacity s' = m_capacity s ∧ m_endian s' = m_endian s.
Proof.
  intros Hinv Hv. pose proof Hinv as [Hs Hz].
  destruct (setPosition_spec s v) as (s' & R & Hinv' & Hp & Hsz & Hb & Hc & He & Hn); [done|lia|].
  exists s'. split_and!; try done. unfold abs, data, flat. by rewrite Hp, Hsz, Hn, Z.max_l by lia.
Qed.

(** ** Arbitrary sequences of calls *)

(** The public calls of the buffer. *)
Inductive ba_op : Type :=
| OWrite (bs : list cell)
| ORead (n : Z)
| OSetPosition (v : Z)
| OToString
| OClear
| OSetIsLittleEndian (b : bool).

Definition exec (op : ba_op) : BA unit :=
  match op with
  | OWrite bs => write bs (zlen bs)
  | ORead n => read n;; mret tt
  | OSetPosition v => setPosition v
  | OToString => toString;; mret tt
  | OClear => clear
  | OSetIsLittleEndian b => setIsLittleEndian b
  end.

(** A client that makes the calls in order and handles every exception. *)
Fixpoint run (ops : list ba_op) : BA unit :=
  match ops with
  | [] => mret tt
  | op :: ops => λ s,
      match exec op s with
      | Ok _ s' | Exc _ s' => run ops s'
      | Stop u => Stop u
      | NoFuel => NoFuel
      end
  end.

(** The arguments are size_t values, and reads ask for at least a byte. *)
Definition op_ok (op : ba_op) : Prop :=
  match op with
  | ORead n => 0 < n
  | OSetPosition v => 0 ≤ v
  | _ => True
  end.

(** A bound on the memory the calls can allocate. *)
Fixpoint growth (base : Z) (ops : list ba_op) : Z :=
  match ops with
  | [] => 0
  | OWrite bs :: ops => zlen bs + base + growth base ops
  | _ :: ops => growth base ops
  end.

Lemma growth_nonneg base ops : 0 ≤ base → 0 ≤ growth base ops.
Proof.
  intros Hb. induction ops as [|[bs| | | | |] ops IH]; cbn; try lia.
  pose proof (zlen_nonneg bs). lia.
Qed.

(** One call: no undefined behaviour, the invariant, and bounded growth. *)
Lemma exec_safe op s :
  ba_inv s → op_ok op → m_capacity s + growth (m_baseSize s) [op] ≤ max_capacity →
  ∃ s', (exec op s = Ok tt s' ∨ ∃ e, exec op s = Exc e s') ∧ ba_inv s' ∧
    m_baseSize s' = m_baseSize s ∧ m_capacity s' ≤ m_capacity s + growth (m_baseSize s) [op].
Proof.
  intros Hinv Hop Hg. pose proof Hinv as [Hs Hz]. pose proof (co_pos _ Hs).
  destruct op as [bs|n|v| | |b]; cbn in Hop, Hg |- *.
  - destruct (write_abs s bs (zlen bs)) as (s' & R & Hinv' & _ & _ & Hb & Hc);
      [done|pose proof (zlen_nonneg bs); lia|lia|].
    exists s'. split; [by left|]. split_and!; [done|done|lia].
  - pose proof (read_abs s n Hinv Hop) as R. destruct (abs_read n (abs s)) as [[v b]|].
    + destruct R as (s' & R & Hinv' & _ & (Hb & Hc & _)).
      exists s'. run R. split; [by left|]. split_and!; [done|done|lia].
    + exists s. run R. split; [right; by eexists|]. split_and!; [done|done|lia].
  - destruct (Z.ltb_spec (m_capacity s) v).
    + exists s. rewrite setPosition_exc by done. split; [right; by eexists|]. split_and!; [done|done|lia].
    + destruct (setPosition_spec s v) as (s' & R & Hinv' & _ & _ & Hb & Hc & _); [done|lia|].
      exists s'. split; [by left|]. split_and!; [done|done|lia].
  - exists s. run (toString_spec _ Hinv). split; [by left|]. split_and!; [done|done|lia].
  - destruct (clear_spec _ Hinv) as (s' & R & Hinv' & _ & _ & Hc & Hb & _).
    exists s'. split; [by left|]. split_and!; [done|done|].
    pose proof (co_base _ Hs). pose proof (co_nonempty _ Hs). rewrite Hc, (co_cap _ Hs). nia.
  - eexists. split; [by left|]. split_and!; [|done|cbn; lia].
    split; [by destruct Hs; split|done].
Qed.

Lemma run_inv ops s :
  ba_inv s → Forall op_ok ops → m_capacity s + growth (m_baseSize s) ops ≤ max_capacity →
  ∃ s', run ops s = Ok tt s' ∧ ba_inv s'.
Proof.
  revert s. induction ops as [|op ops IH]; intros s Hinv Hops Hg; [by exists s|].
  apply Forall_cons_1 in Hops as [Hop Hops].
  assert (growth (m_baseSize s) (op :: ops) = growth (m_baseSize s) [op] + growth (m_baseSize s) ops) as E.
  { destruct op; cbn; lia. }
  pose proof (growth_nonneg (m_baseSize s) ops ltac:(pose proof (co_base _ (bi_chain _ Hinv)); lia)).
  destruct (exec_safe op s) as (s' & R & Hinv' & Hb & Hc); [done|done|lia|].
  destruct (IH s') as (s'' & R' & ?); [done|done|rewrite Hb; lia|].
  exists s''. split; [|done]. cbn. by destruct R as [->|[e ->]].
Qed.

(** ** The properties *)

(** C1: ByteArray::write refines the abstract write. From a state that
    satisfies the representation invariant, writing [size] bytes returns
    without undefined behaviour, whatever the node boundaries it crosses and
    the nodes it allocates; the resulting buffer is the old one with exactly
    the bytes at the cursor overwritten (or appended), the cursor after
    them, and the invariant holds again. *)
Theorem write_refines s buf size :
  ba_inv s → 0 ≤ size ≤ zlen buf → m_position s + size + m_baseSize s ≤ max_capacity →
  ∃ s', write buf size s = Ok tt s' ∧ ba_inv s' ∧
    abs s' = abs_write (zslice 0 size buf) (abs s).
Proof.
  intros H1 H2 H3. destruct (write_abs s buf size H1 H2 H3) as (s' & ? & ? & ? & _). eauto.
Qed.

Lemma write_refines_witness :
  ∃ s', write [Some 1; Some 2; Some 3] 3 (newByteArray 2) = Ok tt s' ∧ ba_inv s' ∧
    abs s' = abs_write (zslice 0 3 [Some 1; Some 2; Some 3]) (abs (newByteArray 2)).
Proof.
  apply (write_refines (newByteArray 2) [Some 1; Some 2; Some 3] 3).
  - apply newByteArray_inv. unfold max_capacity. lia.
  - unfold zlen. cbn. lia.
  - unfold max_capacity. cbn. lia.
Defined.

(** C2: ByteArray::read refines the abstract read, for every size. Asking for at
    least one byte returns the bytes at the cursor and moves the cursor past
    them, or, when fewer are left, throws std::out_of_range and leaves the
    object as it was. Asking for none returns none and changes nothing, unless
    the cursor is at the end of the allocated nodes: m_cur is null there, and
    the call dereferences it. *)
Theorem read_refines s n :
  ba_inv s → 0 ≤ n →
  if (n =? 0) && (m_position s =? m_capacity s) then read n s = Stop NullDeref
  else match abs_read n (abs s) with
       | Some (v, b) => ∃ s', read n s = Ok v s' ∧ ba_inv s' ∧ abs s' = b
       | None => read n s = Exc (out_of_range "not enough len") s
       end.
Proof.
  intros H1 H2. destruct (Z.eqb_spec n 0) as [->|Hn]; cbn [andb].
  - pose proof (bi_size _ H1). rewrite (read_zero s H1). destruct (Z.eqb_spec (m_position s) (m_capacity s)) as [E|E].
    + by rewrite E, Z.ltb_irrefl.
    + pose proof (co_pos _ (bi_chain _ H1)). unfold abs_read. cbn [abs ab_data ab_pos]. rewrite (zlen_data _ H1), (proj2 (Z.ltb_ge _ 0)) by lia.
      exists s. rewrite (proj2 (Z.ltb_lt _ _)) by lia. unfold abs. by rewrite Z.add_0_r.
  - pose proof (read_abs s n H1 ltac:(lia)) as R.
    destruct (abs_read n (abs s)) as [[v b]|]; [|done]. destruct R as (s' & ? & ? & ? & _). eauto.
Qed.

(** Three bytes in nodes of two, with the cursor on the second. *)
Definition demo_written : ByteArray :=
  match (write [Some 1; Some 2; Some 3] 3;; setPosition 1) (newByteArray 2) with Ok _ s => s | _ => newByteArray 2 end.
Lemma demo_written_inv : ba_inv demo_written.
Proof.
  destruct (write_abs (newByteArray 2) [Some 1; Some 2; Some 3] 3) as (s1 & E1 & H1 & A1 & _);
    [apply newByteArray_inv; unfold max_capacity; lia|by vm_compute|by vm_compute|].
  destruct (setPosition_abs s1 1) as (s2 & E2 & H2 & _); [done|vm_compute in E1; injection E1 as <-; by vm_compute|].
  unfold demo_written. rewrite (bind_ok _ _ _ _ _ E1), E2. exact H2.
Qed.

Lemma read_refines_witness :
  ∃ s', read 2 demo_written = Ok [Some 2; Some 3] s' ∧ ba_inv s' ∧ abs s' = mkAbs [Some 1; Some 2; Some 3] 3.
Proof. exact (read_refines demo_written 2 demo_written_inv ltac:(lia)). Defined.

(** what is written is read back. After writing [buf] and returning the
    cursor to where it was, reading as many bytes returns [buf], for every
    base size, cursor and node layout. *)
Theorem write_read_roundtrip s buf :
  ba_inv s → 0 < zlen buf → m_position s + zlen buf + m_baseSize s ≤ max_capacity →
  ∃ s', (write buf (zlen buf);; setPosition (m_position s);; read (zlen buf)) s = Ok buf s' ∧
    ba_inv s' ∧ m_position s' = m_position s + zlen buf.
Proof.
  intros Hinv Hn Hmax. pose proof Hinv as [Hs Hz]. pose proof (co_pos _ Hs).
  destruct (write_abs s buf (zlen buf)) as (s1 & R1 & Hinv1 & A1 & _); [done|lia|done|].
  rewrite zslice_all in A1 by done. injection A1 as A1 P1.
  assert (zlen (data s1) = Z.max (m_size s) (m_position s + zlen buf)) as L1.
  { rewrite A1. unfold zsplice, abs. cbn. rewrite !zlen_app. unfold zlen.
    pose proof (zlen_data _ Hinv) as L. unfold zlen in *. rewrite length_take, length_drop. lia. }
  rewrite (zlen_data _ Hinv1) in L1.
  destruct (setPosition_abs s1 (m_position s)) as (s2 & R2 & Hinv2 & A2 & _); [done|lia|].
  pose proof (read_abs s2 (zlen buf) Hinv2 Hn) as R3. rewrite A2 in R3. unfold abs_read in R3. cbn in R3.
  rewrite (zlen_data _ Hinv1), (proj2 (Z.ltb_ge _ (zlen buf))) in R3 by lia.
  destruct R3 as (s3 & R3 & Hinv3 & A3 & _). injection A3 as _ P3.
  exists s3. run R1. run R2. split; [|done]. rewrite R3. f_equal.
  rewrite A1. apply zslice_zsplice_same; cbn; [lia|by rewrite (zlen_data _ Hinv); lia].
Qed.

Lemma write_read_roundtrip_witness :
  ∃ s', (write [Some 7; Some 8; Some 9] 3;; setPosition 0;; read 3) (newByteArray 2)
    = Ok [Some 7; Some 8; Some 9] s' ∧ ba_inv s' ∧ m_position s' = 3.
Proof.
  apply (write_read_roundtrip (newByteArray 2) [Some 7; Some 8; Some 9]).
  - apply newByteArray_inv. unfold max_capacity. lia.
  - unfold zlen. cbn. lia.
  - unfold max_capacity, zlen. cbn. lia.
Defined.



(** a read of no bytes is not harmless. With the cursor at the very end
    of the allocated chain m_cur is null, and read(buf, 0) dereferences it;
    before the end it returns no bytes and changes nothing. *)
Theorem read_zero_at_end s :
  ba_inv s →
  read 0 s = (if m_position s <? m_capacity s then Ok [] s else Stop NullDeref).
Proof. apply read_zero. Qed.

Lemma read_zero_at_end_witness :
  (write [Some 1; Some 2] 2;; read 0) (newByteArray 2) = Stop NullDeref.
Proof.
  destruct (write_spec (newByteArray 2) [Some 1; Some 2] 2) as (s' & R & Hinv & _ & _ & Hp & _).
  - apply newByteArray_inv. unfold max_capacity. lia.
  - unfold zlen. cbn. lia.
  - unfold max_capacity. cbn. lia.
  - run R. rewrite (read_zero_at_end s' Hinv). vm_compute in R. injection R as <-. reflexivity.
Defined.
