(* ===== verification/ByteArrayCodec.v ===== *)
(** The typed readers and writers of ByteArray: skt/bytearray/bytearray.cpp.

    Fixed-width integers in the byte order of m_endian, base-128 varints,
    the zigzag mapping, floats (modelled by their object representation, the
    unsigned integer of the same size) and length-prefixed strings. *)

From stdpp Require Import base numbers list strings.
From Stdlib Require Import ZArith Lia.
From S2P Require Import Prelude Endian ByteArray ByteArraySpec.

(** ** Writers *)

(** The object representation of an [n]-byte integer variable. *)
Definition object (n : nat) (v : Z) : list cell := Some <$> le_bytes n v.

Definition writeFint8 (value : Z) : BA unit := write (object 1 value) 1.
Definition writeFuint8 (value : Z) : BA unit := write (object 1 value) 1.

(** The common body of writeFint16, writeFint32 and writeFint64. *)
Definition writeFint (n : nat) (value : Z) : BA unit :=
  s ← mget;
  let value := if m_endian s =? SKT_BYTE_ORDER then value else byteswap_s n value in
  write (object n value) (Z.of_nat n).

(** The common body of writeFuint16, writeFuint32 and writeFuint64. *)
Definition writeFuint (n : nat) (value : Z) : BA unit :=
  s ← mget;
  let value := if m_endian s =? SKT_BYTE_ORDER then value else byteswap_u n value in
  write (object n value) (Z.of_nat n).

Definition writeFint16 : Z → BA unit := writeFint 2.
Definition writeFuint16 : Z → BA unit := writeFuint 2.
Definition writeFint32 : Z → BA unit := writeFint 4.
Definition writeFuint32 : Z → BA unit := writeFuint 4.
Definition writeFint64 : Z → BA unit := writeFint 8.
Definition writeFuint64 : Z → BA unit := writeFuint 8.

(** The parameter is an unsigned reference, so [v < 0] compares an unsigned
    value with zero. *)
Definition EncodeZigzag32 (v : Z) : Z :=
  if v <? 0 then u32 (u32 (- v) * 2 - 1) else u32 (v * 2).
Definition EncodeZigzag64 (v : Z) : Z :=
  if v <? 0 then u64 (u64 (- v) * 2 - 1) else u64 (v * 2).
Definition DecodeZigzag32 (v : Z) : Z := Z.lxor (Z.shiftr v 1) (u32 (- Z.land v 1)).
Definition DecodeZigzag64 (v : Z) : Z := Z.lxor (Z.shiftr v 1) (u64 (- Z.land v 1)).

(** The loop of writeUint32 and writeUint64, on a buffer uint8_t tmp[cap]
    of which the first [i] bytes are [tmp]. *)
Fixpoint varint_loop (fuel : nat) (cap : Z) (tmp : list Z) (value : Z) : BA (list Z) :=
  match fuel with
  | O => mnofuel
  | S fuel =>
    if 0x80 <=? value then
      if zlen tmp <? cap
      then varint_loop fuel cap (tmp ++ [u8 (Z.lor (Z.land value 0x7F) 0x80)]) (Z.shiftr value 7)
      else mstop OutOfBounds
    else if zlen tmp <? cap then mret (tmp ++ [u8 value]) else mstop OutOfBounds
  end.

Definition writeUint32 (value : Z) : BA unit :=
  tmp ← varint_loop 6 5 [] value;
  write (Some <$> tmp) (zlen tmp).
Definition writeUint64 (value : Z) : BA unit :=
  tmp ← varint_loop 11 10 [] value;
  write (Some <$> tmp) (zlen tmp).
Definition writeInt32 (value : Z) : BA unit := writeUint32 (EncodeZigzag32 (u32 value)).
Definition writeInt64 (value : Z) : BA unit := writeUint64 (EncodeZigzag64 (u64 value)).

(** The memcpy into [v] is the identity on object representations. *)
Definition writeFloat (value : Z) : BA unit := writeUint32 value.
Definition writeDouble (value : Z) : BA unit := writeUint64 value.

(** write(value.c_str(), value.size()) *)
Definition writeStringWithoutLength (value : list Z) : BA unit :=
  write (Some <$> value) (zlen value).
Definition writeStringF16 (value : list Z) : BA unit :=
  writeFint16 (i16 (zlen value));; writeStringWithoutLength value.
Definition writeStringF32 (value : list Z) : BA unit :=
  writeFint32 (i32 (zlen value));; writeStringWithoutLength value.
Definition writeStringF64 (value : list Z) : BA unit :=
  writeFint64 (i64 (zlen value));; writeStringWithoutLength value.
Definition writeStringVint (value : list Z) : BA unit :=
  writeUint64 (zlen value);; writeStringWithoutLength value.

(** ** Readers *)

(** The unsigned value of an integer variable filled by read. *)
Definition load (cs : list cell) : BA Z :=
  bs ← mderef Indeterminate (mapM id cs);
  mret (le_value bs).

Definition readFuint8 : BA Z := cs ← read 1; load cs.
Definition readFint8 : BA Z := v ← readFuint8; mret (i8 v).

(** The macro XX at a signed and at an unsigned type of [n] bytes. *)
Definition readFint (n : nat) : BA Z :=
  cs ← read (Z.of_nat n);
  v ← load cs;
  s ← mget;
  let v := wraps (8 * Z.of_nat n) v in
  mret (if m_endian s =? SKT_BYTE_ORDER then v else byteswap_s n v).
Definition readFuint (n : nat) : BA Z :=
  cs ← read (Z.of_nat n);
  v ← load cs;
  s ← mget;
  mret (if m_endian s =? SKT_BYTE_ORDER then v else byteswap_u n v).

Definition readFint16 : BA Z := readFint 2.
Definition readFuint16 : BA Z := readFuint 2.
Definition readFint32 : BA Z := readFint 4.
Definition readFuint32 : BA Z := readFuint 4.
Definition readFint64 : BA Z := readFint 8.
Definition readFuint64 : BA Z := readFuint 8.

(** The loop of readUint32 ([w = 32]) and readUint64 ([w = 64]). *)
Fixpoint unvarint_loop (fuel : nat) (w i result : Z) : BA Z :=
  match fuel with
  | O => mnofuel
  | S fuel =>
    if i <? w then
      b ← readFuint8;
      if b <? 0x80 then mret (Z.lor result (wrapu w (Z.shiftl b i)))
      else unvarint_loop fuel w (i + 7)
             (Z.lor result (wrapu w (Z.shiftl (Z.land b 0x7f) i)))
    else mret result
  end.

Definition readUint32 : BA Z := unvarint_loop 6 32 0 0.
Definition readUint64 : BA Z := unvarint_loop 11 64 0 0.
Definition readInt32 : BA Z := v ← readUint32; mret (i32 (DecodeZigzag32 v)).
Definition readInt64 : BA Z := v ← readUint64; mret (i64 (DecodeZigzag64 v)).

Definition readFloat : BA Z := readFuint32.
Definition readDouble : BA Z := readFuint64.

(** std::string::max_size() of libstdc++. *)
Definition string_max_size : Z := 2 ^ 63 - 1.

(** resize to [len], then read into the string. *)
Definition readString (len : Z) : BA (list cell) :=
  if string_max_size <? len then mthrow (length_error "basic_string::_M_replace_aux")
  else read len.

Definition readStringF16 : BA (list cell) := len ← readFuint16; readString len.
Definition readStringF32 : BA (list cell) := len ← readFuint32; readString len.
Definition readStringF64 : BA (list cell) := len ← readFuint64; readString len.
Definition readStringVint : BA (list cell) := len ← readFuint64; readString len.

(** ** Encoders and decoders

    [puts c e bs]: in byte order [e], the call [c] appends or overwrites
    exactly the bytes [bs] at the cursor. [gets d e bs v]: in byte order
    [e], when the bytes at the cursor start with [bs], the call [d] consumes
    them and returns [v]. *)

Definition puts (c : BA unit) (e : Z) (bs : list Z) : Prop :=
  ∀ s, ba_inv s → m_endian s = e → m_position s + zlen bs + m_baseSize s ≤ max_capacity →
  ∃ s', c s = Ok tt s' ∧ ba_inv s' ∧ abs s' = abs_write (Some <$> bs) (abs s) ∧
    m_endian s' = e ∧ m_baseSize s' = m_baseSize s.

Definition at_cursor (s : ByteArray) (bs : list Z) : Prop :=
  m_position s + zlen bs ≤ m_size s ∧ zslice (m_position s) (zlen bs) (data s) = Some <$> bs.

Definition gets {A} (d : BA A) (e : Z) (bs : list Z) (v : A) : Prop :=
  ∀ s, ba_inv s → m_endian s = e → at_cursor s bs →
  ∃ s', d s = Ok v s' ∧ ba_inv s' ∧ abs s' = mkAbs (data s) (m_position s + zlen bs) ∧
    m_endian s' = e.

Lemma puts_write e bs : puts (write (Some <$> bs) (zlen bs)) e bs.
Proof.
  intros s Hinv He Hmax.
  destruct (write_abs s (Some <$> bs) (zlen bs)) as (s' & R & ? & A & ? & ? & _);
    [done|rewrite zlen_fmap; pose proof (zlen_nonneg bs); lia|done|].
  rewrite zslice_all in A by (by rewrite zlen_fmap). exists s'. split_and!; congruence || done.
Qed.

Lemma abs_pos_le s : ba_inv s → 0 ≤ ab_pos (abs s) ≤ zlen (ab_data (abs s)).
Proof. intros H. cbn. rewrite (zlen_data _ H). destruct H as [[] ?]. lia. Qed.

Lemma abs_write_app s1 s2 b :
  0 ≤ ab_pos b ≤ zlen (ab_data b) →
  abs_write s2 (abs_write s1 b) = abs_write (s1 ++ s2) b.
Proof.
  intros H. unfold abs_write. cbn. rewrite zlen_app, zsplice_app' by done.
  f_equal. lia.
Qed.

Lemma puts_seq c1 c2 e bs1 bs2 : puts c1 e bs1 → puts c2 e bs2 → puts (c1;; c2) e (bs1 ++ bs2).
Proof.
  intros P1 P2 s Hinv He Hmax. rewrite zlen_app in Hmax.
  pose proof (zlen_nonneg bs1). pose proof (zlen_nonneg bs2).
  destruct (P1 s) as (s1 & R1 & Hinv1 & A1 & He1 & Hb1); [done|done|lia|].
  pose proof A1 as A1'. injection A1' as _ Hp. rewrite zlen_fmap in Hp. cbn in Hp.
  destruct (P2 s1) as (s2 & R2 & Hinv2 & A2 & He2 & Hb2); [done|done|lia|].
  exists s2. run R1. split_and!; [done|done| |done|congruence].
  rewrite A2, A1, fmap_app. apply abs_write_app. by apply abs_pos_le.
Qed.

Lemma at_cursor_app s bs1 bs2 :
  ba_inv s → at_cursor s (bs1 ++ bs2) →
  at_cursor s bs1 ∧
  zslice (m_position s + zlen bs1) (zlen bs2) (data s) = Some <$> bs2.
Proof.
  intros Hinv [Hle E]. destruct Hinv as [[_ _ _ _ _ Hp _] _].
  rewrite zlen_app in *. pose proof (zlen_nonneg bs1). pose proof (zlen_nonneg bs2).
  rewrite zslice_split, fmap_app in E by lia. unfold at_cursor.
  apply app_inj_1 in E as [E1 E2]; [split; [split; [lia|done]|done]|].
  assert (zlen (zslice (m_position s) (zlen bs1) (data s)) = zlen bs1) as L; [|unfold zlen in *; rewrite length_fmap; lia].
  apply (f_equal zlen) in E. rewrite !zlen_app, !zlen_fmap in E. revert E.
  unfold zlen, zslice. rewrite !length_take, !length_drop. lia.
Qed.

Lemma gets_ret {A} e (v : A) : gets (mret v) e [] v.
Proof.
  intros s Hinv He _. exists s. split_and!; try done. unfold abs. f_equal.
  rewrite zlen_nil. lia.
Qed.

Lemma gets_bind {A B} (d : BA A) (k : A → BA B) e bs1 bs2 v w :
  gets d e bs1 v → gets (k v) e bs2 w → gets (d ≫= k) e (bs1 ++ bs2) w.
Proof.
  intros G1 G2 s Hinv He Hat. destruct (at_cursor_app _ _ _ Hinv Hat) as [Hat1 Hat2].
  destruct (G1 s Hinv He Hat1) as (s1 & R1 & Hinv1 & A1 & He1). injection A1 as D1 P1.
  pose proof (zlen_data _ Hinv) as L. rewrite <- D1, (zlen_data _ Hinv1) in L.
  destruct (G2 s1 Hinv1 He1) as (s2 & R2 & Hinv2 & A2 & He2).
  { destruct Hat as [Hle _]. rewrite zlen_app in Hle. split; [lia|]. by rewrite P1, D1. }
  exists s2. run R1. split_and!; try done.
  rewrite A2, D1, P1, zlen_app. f_equal. lia.
Qed.

Lemma gets_map {A B} (d : BA A) (f : A → B) e bs v :
  gets d e bs v → gets (x ← d; mret (f x)) e bs (f v).
Proof. intros G. rewrite <- (app_nil_r bs). eapply gets_bind; [done|apply gets_ret]. Qed.

Lemma gets_read e bs : 0 < zlen bs → gets (read (zlen bs)) e bs (Some <$> bs).
Proof.
  intros Hpos s Hinv He [Hle E].
  pose proof (read_abs s (zlen bs) Hinv Hpos) as R. unfold abs_read in R. cbn in R.
  rewrite (zlen_data _ Hinv), (proj2 (Z.ltb_ge _ (zlen bs))), E in R by lia.
  destruct R as (s' & R & Hinv' & A & (_ & _ & _ & He' & _)). exists s'. split_and!; congruence || done.
Qed.

(** The shape shared by all round trips. *)
Lemma roundtrip {A} (c : BA unit) (d : BA A) e bs v s :
  puts c e bs → gets d e bs v →
  ba_inv s → m_endian s = e → m_position s + zlen bs + m_baseSize s ≤ max_capacity →
  ∃ s', (c;; setPosition (m_position s);; d) s = Ok v s' ∧ ba_inv s' ∧
    abs s' = abs_write (Some <$> bs) (abs s) ∧ m_endian s' = e.
Proof.
  intros P G Hinv He Hmax. destruct (P s Hinv He Hmax) as (s1 & R1 & Hinv1 & A1 & He1 & _).
  pose proof (zlen_nonneg bs). pose proof (abs_pos_le _ Hinv) as Hp. cbn in Hp.
  pose proof A1 as A1'. injection A1' as D1 P1. rewrite zlen_fmap in P1. cbn in D1, P1.
  pose proof (bi_size _ Hinv1).
  destruct (setPosition_abs s1 (m_position s)) as (s2 & R2 & Hinv2 & A2 & _ & _ & He2); [done|lia|].
  injection A2 as D2 P2.
  pose proof (zlen_data _ Hinv2) as L2. rewrite D2, (zlen_data _ Hinv1) in L2.
  destruct (G s2 Hinv2) as (s3 & R3 & Hinv3 & A3 & He3); [congruence| |].
  { split; [lia|]. rewrite P2, D2, D1, <- (zlen_fmap Some bs). apply zslice_zsplice_same; lia. }
  exists s3. run R1. run R2. split_and!; try done.
  rewrite A3, D2, D1, P2. unfold abs_write. cbn. by rewrite zlen_fmap.
Qed.

(** ** Fixed-width integers *)

(** The bytes of [v] on the wire in byte order [e]. *)
Definition wire (n : nat) (e v : Z) : list Z :=
  if e =? SKT_BYTE_ORDER then le_bytes n v else rev (le_bytes n v).

Lemma length_wire n e v : length (wire n e v) = n.
Proof. unfold wire. destruct (e =? _); by rewrite ?length_rev, length_le_bytes. Qed.

Lemma zlen_wire n e v : zlen (wire n e v) = Z.of_nat n.
Proof. unfold zlen. by rewrite length_wire. Qed.

Lemma puts_object n e v bs :
  le_bytes n v = bs → puts (write (object n v) (Z.of_nat n)) e bs.
Proof.
  intros <-. unfold object. replace (Z.of_nat n) with (zlen (le_bytes n v)).
  - apply puts_write.
  - unfold zlen. by rewrite length_le_bytes.
Qed.

(** A writer that looks at m_endian first. *)
Lemma puts_endian (f : Z → BA unit) e bs :
  puts (f e) e bs → puts (s ← mget; f (m_endian s)) e bs.
Proof. intros P s Hinv He Hmax. mred. rewrite He. by apply P. Qed.

Lemma puts_writeFuint n e v : puts (writeFuint n v) e (wire n e v).
Proof.
  apply (puts_endian (λ e, write (object n (if e =? SKT_BYTE_ORDER then v else byteswap_u n v)) _)).
  apply puts_object. unfold wire. destruct (e =? _); [done|]. apply le_bytes_bswap.
Qed.

Lemma puts_writeFint n e v : (0 < n)%nat → puts (writeFint n v) e (wire n e v).
Proof.
  intros Hn.
  apply (puts_endian (λ e, write (object n (if e =? SKT_BYTE_ORDER then v else byteswap_s n v)) _)).
  apply puts_object. unfold wire. destruct (e =? _); [done|]. by apply byteswap_s_bytes.
Qed.

Lemma puts_writeFuint8 e v : puts (writeFuint8 v) e (le_bytes 1 v).
Proof. by apply (puts_object 1). Qed.

Lemma puts_writeFint8 e v : puts (writeFint8 v) e (le_bytes 1 v).
Proof. by apply (puts_object 1). Qed.

Lemma mapM_id_Some {A} (l : list A) : mapM id (Some <$> l) = Some l.
Proof. induction l as [|x l IH]; [done|]. cbn. by rewrite IH. Qed.

Lemma gets_load e bs : gets (load (Some <$> bs)) e [] (le_value bs).
Proof.
  intros s Hinv He Hat. unfold load. rewrite mapM_id_Some.
  by apply (gets_ret e (le_value bs)).
Qed.

(** A reader that looks at m_endian last. *)
Lemma gets_endian {A} (f : Z → A) e : gets (s ← mget; mret (f (m_endian s))) e [] (f e).
Proof.
  intros s Hinv He Hat. destruct (gets_ret e (f e) s Hinv He Hat) as (s' & R & H).
  exists s'. split; [|done]. rewrite <- R. mred. by rewrite He.
Qed.

Lemma gets_object {A} e n bs (f : Z → Z → A) :
  length bs = n → (0 < n)%nat →
  gets (cs ← read (Z.of_nat n); v ← load cs; s ← mget; mret (f (m_endian s) v)) e bs
    (f e (le_value bs)).
Proof.
  intros Hlen Hn. rewrite <- (app_nil_r bs) at 1.
  eapply gets_bind.
  { replace (Z.of_nat n) with (zlen bs) by (unfold zlen; lia). apply gets_read. unfold zlen. lia. }
  change ([] : list Z) with ([] ++ [] : list Z).
  eapply gets_bind; [apply gets_load|]. apply (gets_endian (λ e, f e (le_value bs))).
Qed.

Lemma gets_readFuint n e v :
  (0 < n)%nat → in_u (8 * Z.of_nat n) v → gets (readFuint n) e (wire n e v) v.
Proof.
  intros Hn Hv.
  pose proof (gets_object e n (wire n e v)
    (λ e v, if e =? SKT_BYTE_ORDER then v else byteswap_u n v) (length_wire _ _ _) Hn) as G.
  cbv beta in G. enough ((if e =? SKT_BYTE_ORDER then le_value (wire n e v)
    else byteswap_u n (le_value (wire n e v))) = v) as E by (by rewrite E in G).
  unfold wire. destruct (e =? SKT_BYTE_ORDER).
  - rewrite le_value_bytes. by apply wrapu_small.
  - fold (bswap n v). unfold byteswap_u. rewrite bswap_bswap. by apply wrapu_small.
Qed.

Lemma gets_readFint n e v :
  (0 < n)%nat → in_s (8 * Z.of_nat n) v → gets (readFint n) e (wire n e v) v.
Proof.
  intros Hn Hv. set (w := 8 * Z.of_nat n) in *. assert (0 < w) by lia.
  pose proof (gets_object e n (wire n e v)
    (λ e v, if e =? SKT_BYTE_ORDER then wraps w v else byteswap_s n (wraps w v))
    (length_wire _ _ _) Hn) as G.
  cbv beta in G. enough ((if e =? SKT_BYTE_ORDER then wraps w (le_value (wire n e v))
    else byteswap_s n (wraps w (le_value (wire n e v)))) = v) as E by (by rewrite E in G).
  unfold wire. destruct (e =? SKT_BYTE_ORDER).
  - rewrite le_value_bytes. fold w. rewrite wraps_wrapu by done. by apply wraps_small.
  - fold (bswap n v). unfold byteswap_s. fold w. rewrite wrapu_wraps by done.
    unfold w at 2. rewrite bswap_wrapu, bswap_bswap. fold w.
    rewrite wraps_wrapu by done. by apply wraps_small.
Qed.

Lemma gets_readFuint8 e b : is_byte b → gets readFuint8 e [b] b.
Proof.
  intros Hb. unfold readFuint8. change [b] with ([b] ++ []).
  eapply gets_bind; [by apply (gets_read e [b])|].
  pose proof (gets_load e [b]) as G. cbn in G. by rewrite Z.add_0_r in G.
Qed.

Lemma gets_readFint8 e v : in_s 8 v → gets readFint8 e (le_bytes 1 v) v.
Proof.
  intros Hv. unfold readFint8.
  assert (i8 (v mod 256) = v) as E.
  { change (v mod 256) with (u8 v). rewrite wraps_wrapu by lia. apply wraps_small; [lia|done]. }
  rewrite <- E at 2. apply (gets_map readFuint8 (wraps 8)). apply gets_readFuint8.
  apply Z.mod_pos_bound. lia.
Qed.

(** ** Varints *)

(** The base-128 encoding in at most [n] bytes. *)
Fixpoint varint (n : nat) (v : Z) : list Z :=
  match n with
  | O => []
  | S n => if v <? 128 then [v] else (v mod 128 + 128) :: varint n (v / 128)
  end.

Lemma varint_byte v : 0 ≤ v → u8 (Z.lor (Z.land v 0x7F) 0x80) = v mod 128 + 128.
Proof.
  intros Hv. change 0x7F with (Z.ones 7). rewrite Z.land_ones by lia.
  change (2 ^ 7) with 128. pose proof (Z.mod_pos_bound v 128 ltac:(lia)).
  pose proof (lor_shiftl_add (v mod 128) 1 7 ltac:(lia) ltac:(lia)) as E.
  change (Z.shiftl 1 7) with 128 in E. rewrite E.
  apply wrapu_small. unfold in_u. lia.
Qed.

Lemma varint_loop_ok fuel cap tmp v n s :
  0 ≤ v < 128 ^ Z.of_nat (S n) → zlen tmp + Z.of_nat (S n) ≤ cap → (S n ≤ fuel)%nat →
  varint_loop fuel cap tmp v s = Ok (tmp ++ varint (S n) v) s.
Proof.
  revert fuel tmp v. induction n as [|n IH]; intros fuel tmp v Hv Hcap Hf;
    (destruct fuel as [|fuel]; [lia|]); cbn [varint_loop varint];
    pose proof (zlen_nonneg tmp).
  - change (128 ^ Z.of_nat 1) with 128 in Hv.
    rewrite (proj2 (Z.leb_gt 0x80 v)), (proj2 (Z.ltb_lt (zlen tmp) cap)), (proj2 (Z.ltb_lt v 128)) by lia.
    rewrite wrapu_small by (unfold in_u; lia). done.
  - rewrite (proj2 (Z.ltb_lt (zlen tmp) cap)) by lia.
    destruct (Z.ltb_spec v 128).
    + rewrite (proj2 (Z.leb_gt 0x80 v)) by lia. rewrite wrapu_small by (unfold in_u; lia). done.
    + rewrite (proj2 (Z.leb_le 0x80 v)) by lia. rewrite varint_byte by lia.
      rewrite Z.shiftr_div_pow2 by lia. change (2 ^ 7) with 128.
      rewrite IH.
      * by rewrite <- (assoc_L (++)).
      * rewrite Nat2Z.inj_succ, Z.pow_succ_r in Hv by lia.
        split; [apply Z.div_pos; lia|]. apply Z.div_lt_upper_bound; lia.
      * rewrite zlen_app, zlen_cons, zlen_nil. lia.
      * lia.
Qed.

Lemma varint_length n v : (length (varint n v) ≤ n)%nat.
Proof. revert v. induction n as [|n IH]; intros v; cbn; [done|]. destruct (v <? 128); cbn; [lia|]. specialize (IH (v / 128)). lia. Qed.

(** Every byte but the last carries the continuation bit. *)
Lemma varint_shape n v :
  0 ≤ v < 128 ^ Z.of_nat (S n) →
  ∃ bs b, varint (S n) v = bs ++ [b] ∧ Forall (λ x, 128 ≤ x < 256) bs ∧ 0 ≤ b < 128.
Proof.
  revert v. induction n as [|n IH]; intros v Hv; cbn [varint]; destruct (Z.ltb_spec v 128).
  1, 3: exists [], v; split; [done|]; split; [constructor|lia].
  - change (128 ^ Z.of_nat 1) with 128 in Hv. lia.
  - rewrite Nat2Z.inj_succ, Z.pow_succ_r in Hv by lia.
    destruct (IH (v / 128)) as (bs & b & E & H1 & H2).
    { split; [apply Z.div_pos; lia|]. apply Z.div_lt_upper_bound; lia. }
    exists ((v mod 128 + 128) :: bs), b. cbn [varint] in E. rewrite E.
    split; [done|]. split; [|done]. constructor; [|done].
    pose proof (Z.mod_pos_bound v 128 ltac:(lia)). lia.
Qed.

(** A writer of a varint of at most [S n] bytes through tmp. *)
Lemma puts_varint fuel cap n e v :
  0 ≤ v < 128 ^ Z.of_nat (S n) → Z.of_nat (S n) ≤ cap → (S n ≤ fuel)%nat →
  puts (tmp ← varint_loop fuel cap [] v; write (Some <$> tmp) (zlen tmp)) e (varint (S n) v).
Proof.
  intros Hv Hcap Hf s Hinv He Hmax.
  run (varint_loop_ok fuel cap [] v n s Hv Hcap Hf). by apply puts_write.
Qed.

Lemma puts_writeUint32 e v : in_u 32 v → puts (writeUint32 v) e (varint 5 v).
Proof. intros Hv. apply puts_varint; unfold in_u in *; lia. Qed.

Lemma puts_writeUint64 e v : in_u 64 v → puts (writeUint64 v) e (varint 10 v).
Proof. intros Hv. apply puts_varint; unfold in_u in *; lia. Qed.

Lemma gets_unvarint fuel w n e i r v :
  0 ≤ i → 0 ≤ r < 2 ^ i → 0 ≤ v < 128 ^ Z.of_nat n → i < w → v * 2 ^ i < 2 ^ w →
  (0 < n)%nat → (n < fuel)%nat →
  gets (unvarint_loop fuel w i r) e (varint n v) (r + v * 2 ^ i).
Proof.
  revert fuel i r v. induction n as [|n IH]; intros fuel i r v Hi Hr Hv Hiw Hvw Hn Hf; [lia|].
  destruct fuel as [|fuel]; [lia|]. cbn [unvarint_loop varint].
  rewrite (proj2 (Z.ltb_lt i w)) by done.
  destruct (Z.ltb_spec v 128) as [Hlt|Hge].
  - change [v] with ([v] ++ []). eapply gets_bind; [apply gets_readFuint8; unfold is_byte; lia|].
    rewrite (proj2 (Z.ltb_lt v 0x80)) by done.
    rewrite wrapu_small by (unfold in_u; rewrite Z.shiftl_mul_pow2 by done; nia).
    rewrite lor_shiftl_add by done. apply gets_ret.
  - pose proof (Z.mod_pos_bound v 128 ltac:(lia)) as Hm.
    pose proof (Z.div_mod v 128 ltac:(lia)) as Hdm.
    assert (2 ^ (i + 7) = 128 * 2 ^ i) as E7 by (rewrite Z.pow_add_r by lia; lia).
    assert (0 < 2 ^ i) as Hpi by lia.
    change (?x :: ?l) with ([x] ++ l). eapply gets_bind.
    { apply gets_readFuint8. unfold is_byte. lia. }
    rewrite (proj2 (Z.ltb_ge _ 0x80)) by lia.
    assert (Z.land (v mod 128 + 128) 0x7f = v mod 128) as ->.
    { change 0x7f with (Z.ones 7). rewrite Z.land_ones by lia. change (2 ^ 7) with (1 * 128) at 1.
      change (2 ^ 7) with 128.
      rewrite <- (Z.mul_1_l 128) at 2. rewrite Z.mod_add, Z.mod_mod by lia. done. }
    rewrite wrapu_small by (unfold in_u; rewrite Z.shiftl_mul_pow2 by done; nia).
    rewrite lor_shiftl_add by done.
    replace (r + v * 2 ^ i) with ((r + v mod 128 * 2 ^ i) + v / 128 * 2 ^ (i + 7)) by (rewrite E7; lia).
    rewrite Nat2Z.inj_succ, Z.pow_succ_r in Hv by lia.
    destruct n as [|n]; [change (128 ^ Z.of_nat 0) with 1 in Hv; lia|].
    apply IH; try lia.
    + rewrite E7. nia.
    + apply (Z.pow_lt_mono_r_iff 2 (i + 7) w ltac:(lia) ltac:(lia)). rewrite E7. nia.
Qed.

Lemma gets_readUint32 e v : in_u 32 v → gets readUint32 e (varint 5 v) v.
Proof.
  intros Hv. pose proof (gets_unvarint 6 32 5 e 0 0 v) as G.
  rewrite Z.mul_1_r in G. apply G; unfold in_u in *; lia.
Qed.

Lemma gets_readUint64 e v : in_u 64 v → gets readUint64 e (varint 10 v) v.
Proof.
  intros Hv. pose proof (gets_unvarint 11 64 10 e 0 0 v) as G.
  rewrite Z.mul_1_r in G. apply G; unfold in_u in *; lia.
Qed.

(** ** Zigzag *)

(** A decode after an encode keeps the low [w - 1] bits. *)
Lemma zigzag_low w v :
  0 < w →
  let x := wrapu w (wrapu w v * 2) in
  Z.lxor (Z.shiftr x 1) (wrapu w (- Z.land x 1)) = v mod 2 ^ (w - 1).
Proof.
  intros Hw x.
  assert (x = 2 * (v mod 2 ^ (w - 1))) as ->.
  { unfold x, wrapu. assert (2 ^ w = 2 * 2 ^ (w - 1)) as E.
    { rewrite <- Z.pow_succ_r by lia. f_equal. lia. }
    rewrite Zmult_mod_idemp_l, E, (Z.mul_comm v), Zmult_mod_distr_l. done. }
  pose proof (Z.land_ones (2 * (v mod 2 ^ (w - 1))) 1 ltac:(lia)) as L.
  change (Z.ones 1) with 1 in L. rewrite L.
  change (2 ^ 1) with 2. rewrite (Z.mul_comm 2), Z_mod_mult.
  unfold wrapu. cbn [Z.opp]. rewrite Z.mod_0_l by (apply Z.pow_nonzero; lia).
  rewrite Z.lxor_0_r, Z.shiftr_div_pow2 by lia. change (2 ^ 1) with 2. apply Z.div_mul. lia.
Qed.

Lemma zigzag32 v : i32 (DecodeZigzag32 (EncodeZigzag32 (u32 v))) = v mod 2 ^ 31.
Proof.
  unfold EncodeZigzag32, DecodeZigzag32.
  pose proof (wrapu_range 32 v ltac:(lia)) as H. unfold in_u in H.
  rewrite (proj2 (Z.ltb_ge (u32 v) 0)) by lia. rewrite (zigzag_low 32) by lia.
  apply wraps_small; [lia|]. unfold in_s. pose proof (Z.mod_pos_bound v (2 ^ 31)). lia.
Qed.

Lemma zigzag64 v : i64 (DecodeZigzag64 (EncodeZigzag64 (u64 v))) = v mod 2 ^ 63.
Proof.
  unfold EncodeZigzag64, DecodeZigzag64.
  pose proof (wrapu_range 64 v ltac:(lia)) as H. unfold in_u in H.
  rewrite (proj2 (Z.ltb_ge (u64 v) 0)) by lia. rewrite (zigzag_low 64) by lia.
  apply wraps_small; [lia|]. unfold in_s. pose proof (Z.mod_pos_bound v (2 ^ 63)). lia.
Qed.

Lemma EncodeZigzag32_range v : in_u 32 (EncodeZigzag32 v).
Proof. unfold EncodeZigzag32. destruct (v <? 0); apply wrapu_range; lia. Qed.

Lemma EncodeZigzag64_range v : in_u 64 (EncodeZigzag64 v).
Proof. unfold EncodeZigzag64. destruct (v <? 0); apply wrapu_range; lia. Qed.

Lemma puts_writeInt32 e v : puts (writeInt32 v) e (varint 5 (EncodeZigzag32 (u32 v))).
Proof. apply puts_writeUint32, EncodeZigzag32_range. Qed.

Lemma puts_writeInt64 e v : puts (writeInt64 v) e (varint 10 (EncodeZigzag64 (u64 v))).
Proof. apply puts_writeUint64, EncodeZigzag64_range. Qed.

Lemma gets_readInt32 e v :
  gets readInt32 e (varint 5 (EncodeZigzag32 (u32 v))) (v mod 2 ^ 31).
Proof.
  rewrite <- zigzag32. unfold readInt32.
  apply (gets_map readUint32 (λ v, i32 (DecodeZigzag32 v))).
  apply gets_readUint32, EncodeZigzag32_range.
Qed.

Lemma gets_readInt64 e v :
  gets readInt64 e (varint 10 (EncodeZigzag64 (u64 v))) (v mod 2 ^ 63).
Proof.
  rewrite <- zigzag64. unfold readInt64.
  apply (gets_map readUint64 (λ v, i64 (DecodeZigzag64 v))).
  apply gets_readUint64, EncodeZigzag64_range.
Qed.

(** ** Strings *)

Lemma wire_wraps n e v : (0 < n)%nat → wire n e (wraps (8 * Z.of_nat n) v) = wire n e v.
Proof.
  intros Hn. unfold wire.
  assert (le_bytes n (wraps (8 * Z.of_nat n) v) = le_bytes n v) as ->; [|done].
  rewrite <- le_bytes_wrapu, wrapu_wraps, le_bytes_wrapu by lia. done.
Qed.

Lemma puts_string n e value :
  (0 < n)%nat →
  puts (writeFint n (wraps (8 * Z.of_nat n) (zlen value));; writeStringWithoutLength value) e
    (wire n e (zlen value) ++ value).
Proof.
  intros Hn. apply puts_seq; [|apply puts_write].
  rewrite <- (wire_wraps n e (zlen value)) by done. by apply puts_writeFint.
Qed.

Lemma gets_string n e value :
  (0 < n)%nat → 0 < zlen value → in_u (8 * Z.of_nat n) (zlen value) →
  zlen value ≤ string_max_size →
  gets (len ← readFuint n; readString len) e (wire n e (zlen value) ++ value) (Some <$> value).
Proof.
  intros Hn Hpos Hlen Hmax. eapply gets_bind; [by apply gets_readFuint|].
  unfold readString. rewrite (proj2 (Z.ltb_ge _ (zlen value))) by done. by apply gets_read.
Qed.

(** ** Sequences of values *)

Inductive item : Type :=
| IFint8 (v : Z) | IFuint8 (v : Z) | IFint16 (v : Z) | IFuint16 (v : Z)
| IFint32 (v : Z) | IFuint32 (v : Z) | IFint64 (v : Z) | IFuint64 (v : Z)
| IInt32 (v : Z) | IUint32 (v : Z) | IInt64 (v : Z) | IUint64 (v : Z)
| IStringF16 (bs : list Z) | IStringF32 (bs : list Z) | IStringF64 (bs : list Z).

Definition write_item (i : item) : BA unit :=
  match i with
  | IFint8 v => writeFint8 v | IFuint8 v => writeFuint8 v
  | IFint16 v => writeFint16 v | IFuint16 v => writeFuint16 v
  | IFint32 v => writeFint32 v | IFuint32 v => writeFuint32 v
  | IFint64 v => writeFint64 v | IFuint64 v => writeFuint64 v
  | IInt32 v => writeInt32 v | IUint32 v => writeUint32 v
  | IInt64 v => writeInt64 v | IUint64 v => writeUint64 v
  | IStringF16 bs => writeStringF16 bs
  | IStringF32 bs => writeStringF32 bs
  | IStringF64 bs => writeStringF64 bs
  end.

(** The characters of a string that has been read. *)
Definition chars (cs : list cell) : list Z := omap id cs.

(** The read that matches the write of [i]. *)
Definition read_item (i : item) : BA item :=
  match i with
  | IFint8 _ => v ← readFint8; mret (IFint8 v) | IFuint8 _ => v ← readFuint8; mret (IFuint8 v)
  | IFint16 _ => v ← readFint16; mret (IFint16 v) | IFuint16 _ => v ← readFuint16; mret (IFuint16 v)
  | IFint32 _ => v ← readFint32; mret (IFint32 v) | IFuint32 _ => v ← readFuint32; mret (IFuint32 v)
  | IFint64 _ => v ← readFint64; mret (IFint64 v) | IFuint64 _ => v ← readFuint64; mret (IFuint64 v)
  | IInt32 _ => v ← readInt32; mret (IInt32 v) | IUint32 _ => v ← readUint32; mret (IUint32 v)
  | IInt64 _ => v ← readInt64; mret (IInt64 v) | IUint64 _ => v ← readUint64; mret (IUint64 v)
  | IStringF16 _ => cs ← readStringF16; mret (IStringF16 (chars cs))
  | IStringF32 _ => cs ← readStringF32; mret (IStringF32 (chars cs))
  | IStringF64 _ => cs ← readStringF64; mret (IStringF64 (chars cs))
  end.

(** The values that the pair of calls transports faithfully: every value of
    a fixed-width or unsigned type, the non-negative values of the zigzag
    types, and non-empty strings whose length fits its prefix. *)
Definition item_ok (i : item) : Prop :=
  match i with
  | IFint8 v => in_s 8 v | IFuint8 v => in_u 8 v
  | IFint16 v => in_s 16 v | IFuint16 v => in_u 16 v
  | IFint32 v => in_s 32 v | IFuint32 v => in_u 32 v
  | IFint64 v => in_s 64 v | IFuint64 v => in_u 64 v
  | IInt32 v => 0 ≤ v < 2 ^ 31 | IUint32 v => in_u 32 v
  | IInt64 v => 0 ≤ v < 2 ^ 63 | IUint64 v => in_u 64 v
  | IStringF16 bs => 0 < zlen bs < 2 ^ 16
  | IStringF32 bs => 0 < zlen bs < 2 ^ 32
  | IStringF64 bs => 0 < zlen bs ≤ string_max_size
  end.

(** The bytes of a value on the wire. *)
Definition item_bytes (e : Z) (i : item) : list Z :=
  match i with
  | IFint8 v | IFuint8 v => le_bytes 1 v
  | IFint16 v | IFuint16 v => wire 2 e v
  | IFint32 v | IFuint32 v => wire 4 e v
  | IFint64 v | IFuint64 v => wire 8 e v
  | IInt32 v => varint 5 (EncodeZigzag32 (u32 v)) | IUint32 v => varint 5 v
  | IInt64 v => varint 10 (EncodeZigzag64 (u64 v)) | IUint64 v => varint 10 v
  | IStringF16 bs => wire 2 e (zlen bs) ++ bs
  | IStringF32 bs => wire 4 e (zlen bs) ++ bs
  | IStringF64 bs => wire 8 e (zlen bs) ++ bs
  end.

Definition write_items (l : list item) : BA unit :=
  foldr (λ i k, write_item i;; k) (mret tt) l.

Fixpoint read_items (l : list item) : BA (list item) :=
  match l with
  | [] => mret []
  | i :: l => x ← read_item i; xs ← read_items l; mret (x :: xs)
  end.

Lemma chars_Some bs : chars (Some <$> bs) = bs.
Proof. unfold chars. induction bs as [|b bs IH]; cbn; [done|]. by rewrite IH. Qed.

Lemma puts_item e i : item_ok i → puts (write_item i) e (item_bytes e i).
Proof.
  destruct i; cbn [write_item read_item item_bytes item_ok]; intros H.
  - apply puts_writeFint8.
  - apply puts_writeFuint8.
  - apply puts_writeFint; lia.
  - apply puts_writeFuint.
  - apply puts_writeFint; lia.
  - apply puts_writeFuint.
  - apply puts_writeFint; lia.
  - apply puts_writeFuint.
  - apply puts_writeInt32.
  - by apply puts_writeUint32.
  - apply puts_writeInt64.
  - by apply puts_writeUint64.
  - apply (puts_string 2); lia.
  - apply (puts_string 4); lia.
  - apply (puts_string 8); lia.
Qed.

Lemma gets_item_string n e bs (f : list Z → item) :
  (0 < n)%nat → 0 < zlen bs → in_u (8 * Z.of_nat n) (zlen bs) → zlen bs ≤ string_max_size →
  gets (cs ← (len ← readFuint n; readString len); mret (f (chars cs))) e
    (wire n e (zlen bs) ++ bs) (f bs).
Proof.
  intros. replace (f bs) with (f (chars (Some <$> bs))) by (by rewrite chars_Some).
  apply (gets_map _ (λ cs, f (chars cs))). by apply gets_string.
Qed.

Lemma gets_item e i : item_ok i → gets (read_item i) e (item_bytes e i) i.
Proof.
  destruct i; cbn [write_item read_item item_bytes item_ok]; intros H.
  - by apply (gets_map _ IFint8), gets_readFint8.
  - apply (gets_map _ IFuint8). cbn [le_bytes]. rewrite (Z.mod_small v 256) by done. by apply gets_readFuint8.
  - apply (gets_map _ IFint16), gets_readFint; [lia|done].
  - apply (gets_map _ IFuint16), gets_readFuint; [lia|done].
  - apply (gets_map _ IFint32), gets_readFint; [lia|done].
  - apply (gets_map _ IFuint32), gets_readFuint; [lia|done].
  - apply (gets_map _ IFint64), gets_readFint; [lia|done].
  - apply (gets_map _ IFuint64), gets_readFuint; [lia|done].
  - apply (gets_map _ IInt32). pose proof (gets_readInt32 e v) as G. by rewrite Z.mod_small in G.
  - by apply (gets_map _ IUint32), gets_readUint32.
  - apply (gets_map _ IInt64). pose proof (gets_readInt64 e v) as G. by rewrite Z.mod_small in G.
  - by apply (gets_map _ IUint64), gets_readUint64.
  - apply (gets_item_string 2 e bs IStringF16); unfold in_u, string_max_size; lia.
  - apply (gets_item_string 4 e bs IStringF32); unfold in_u, string_max_size; lia.
  - apply (gets_item_string 8 e bs IStringF64); unfold in_u, string_max_size in *; lia.
Qed.

Lemma puts_ret e : puts (mret tt) e [].
Proof.
  intros s Hinv He _. exists s. split_and!; try done. unfold abs, abs_write, zsplice. cbn.
  rewrite Nat.add_0_r, take_drop, zlen_nil. f_equal. lia.
Qed.

Lemma puts_items e l :
  Forall item_ok l → puts (write_items l) e (concat (item_bytes e <$> l)).
Proof.
  induction 1 as [|i l Hi _ IH]; [apply puts_ret|].
  cbn. apply puts_seq; [by apply puts_item|done].
Qed.

Lemma gets_items e l :
  Forall item_ok l → gets (read_items l) e (concat (item_bytes e <$> l)) l.
Proof.
  induction 1 as [|i l Hi _ IH]; [apply gets_ret|].
  cbn. eapply gets_bind; [by apply gets_item|]. by apply (gets_map _ (cons i)).
Qed.

(** ** The properties *)

Lemma new_inv base : 0 < base < 2 ^ 53 → ba_inv (newByteArray base).
Proof. apply newByteArray_inv. Qed.

(** C15: serialisation round trip. Any sequence of values (fixed-width
    integers, varints, non-negative zigzag integers, non-empty
    length-prefixed strings, in any mix) written into a ByteArray, in either
    byte order and with any base size, is read back by the matching readers
    in the same order, and the reads leave the cursor at the end of what was
    written. *)
Theorem items_roundtrip l s :
  ba_inv s → Forall item_ok l →
  m_position s + zlen (concat (item_bytes (m_endian s) <$> l)) + m_baseSize s ≤ max_capacity →
  ∃ s', (write_items l;; setPosition (m_position s);; read_items l) s = Ok l s' ∧ ba_inv s' ∧
    m_position s' = m_position s + zlen (concat (item_bytes (m_endian s) <$> l)).
Proof.
  intros Hinv Hl Hmax.
  destruct (roundtrip (write_items l) (read_items l) (m_endian s) _ l s
    (puts_items _ l Hl) (gets_items _ l Hl) Hinv eq_refl Hmax) as (s' & R & Hinv' & A & _).
  exists s'. split; [done|]. split; [done|]. injection A as _ P. cbn in P. by rewrite P, zlen_fmap.
Qed.

Lemma items_roundtrip_witness :
  let l := [IFint16 (-2); IUint32 300; IStringF16 [104; 105]; IInt32 5; IFuint64 (2 ^ 64 - 1)] in
  ∃ s', (write_items l;; setPosition 0;; read_items l) (newByteArray 3) = Ok l s' ∧ ba_inv s' ∧
    m_position s' = 0 + zlen (concat (item_bytes SKT_BIG_ENDIAN <$> l)).
Proof.
  apply (items_roundtrip _ (newByteArray 3)).
  - apply new_inv. lia.
  - repeat constructor; cbn; unfold zlen; cbn; lia.
  - vm_compute. discriminate.
Defined.

(** varints. writeUint64 never overruns its 10-byte temporary: the value
    goes out as one to ten bytes, those before the last with the
    continuation bit and the last without it, and readUint64 takes exactly
    those bytes and returns the value. *)
Theorem varint64_roundtrip s v :
  ba_inv s → in_u 64 v → m_position s + 10 + m_baseSize s ≤ max_capacity →
  ∃ bs b s', (1 ≤ length (bs ++ [b]) ≤ 10)%nat ∧ Forall (λ x, 128 ≤ x < 256) bs ∧ 0 ≤ b < 128 ∧
    (writeUint64 v;; setPosition (m_position s);; readUint64) s = Ok v s' ∧
    abs s' = abs_write (Some <$> (bs ++ [b])) (abs s).
Proof.
  intros Hinv Hv Hmax.
  destruct (varint_shape 9 v) as (bs & b & E & H1 & H2); [unfold in_u in Hv; lia|].
  pose proof (varint_length 10 v) as Hlen.
  destruct (roundtrip (writeUint64 v) readUint64 (m_endian s) (varint 10 v) v s)
    as (s' & R & _ & A & _); [by apply puts_writeUint64|by apply gets_readUint64|done|done| |].
  { unfold zlen. lia. }
  exists bs, b, s'. rewrite <- E. split; [|done]. split; [|done]. rewrite E, length_app. cbn. lia.
Qed.

Lemma varint64_roundtrip_witness :
  ∃ bs b s', (1 ≤ length (bs ++ [b]) ≤ 10)%nat ∧ Forall (λ x, 128 ≤ x < 256) bs ∧ 0 ≤ b < 128 ∧
    (writeUint64 (2 ^ 64 - 1);; setPosition 0;; readUint64) (newByteArray 4) = Ok (2 ^ 64 - 1) s' ∧
    abs s' = abs_write (Some <$> (bs ++ [b])) (abs (newByteArray 4)).
Proof.
  apply (varint64_roundtrip (newByteArray 4) (2 ^ 64 - 1)).
  - apply new_inv. lia.
  - unfold in_u. lia.
  - vm_compute. discriminate.
Defined.

(** the default wire format is network byte order. A new ByteArray
    stores a 32-bit integer written with writeFuint32 most significant byte
    first, whatever its base size. *)
Theorem writeFuint32_network_order base v :
  0 < base < 2 ^ 52 → in_u 32 v →
  ∃ s', (writeFuint32 v;; setPosition 0;; toString) (newByteArray base)
    = Ok (Some <$> [v / 2 ^ 24 mod 256; v / 2 ^ 16 mod 256; v / 2 ^ 8 mod 256; v mod 256]) s'.
Proof.
  intros Hb Hv. assert (ba_inv (newByteArray base)) as Hinv by (apply new_inv; lia).
  destruct (puts_writeFuint 4 SKT_BIG_ENDIAN v (newByteArray base)) as (s1 & R1 & Hinv1 & A1 & _);
    [done|done|rewrite zlen_wire; unfold max_capacity; cbn; lia|].
  injection A1 as D1 P1. cbn [ab_data ab_pos abs m_position newByteArray] in D1, P1.
  pose proof (bi_size _ Hinv1).
  destruct (setPosition_abs s1 0) as (s2 & R2 & Hinv2 & A2 & _); [done|pose proof (co_pos _ (bi_chain _ Hinv1)); lia|].
  injection A2 as D2 P2. exists s2. unfold writeFuint32. run R1. run R2.
  rewrite toString_spec by done. f_equal. rewrite P2, Z.sub_0_r. fold (data s2).
  rewrite D2, D1. unfold data, zsplice. cbn [m_size newByteArray].
  rewrite zslice_0, take_nil, drop_nil, app_nil_l, app_nil_r.
  unfold wire. cbn. rewrite !Z.div_div by lia. done.
Qed.

Lemma writeFuint32_network_order_witness :
  ∃ s', (writeFuint32 0x01020304;; setPosition 0;; toString) (newByteArray 3)
    = Ok (Some <$> [1; 2; 3; 4]) s'.
Proof.
  destruct (writeFuint32_network_order 3 0x01020304) as [s' H]; [lia|unfold in_u; lia|].
  exists s'. exact H.
Defined.

(** what writeInt32 and readInt32 really transport. EncodeZigzag32
    takes its argument as unsigned, so the sign is never encoded: for every
    32-bit [v] the value read back is [v] modulo 2^31; negative numbers come
    back as non-negative ones. *)
Theorem writeInt32_readInt32 s v :
  ba_inv s → in_s 32 v → m_position s + 10 + m_baseSize s ≤ max_capacity →
  ∃ s', (writeInt32 v;; setPosition (m_position s);; readInt32) s = Ok (v mod 2 ^ 31) s' ∧
    (v mod 2 ^ 31 = v ↔ 0 ≤ v).
Proof.
  intros Hinv Hv Hmax.
  destruct (roundtrip (writeInt32 v) readInt32 (m_endian s) _ _ s
    (puts_writeInt32 _ v) (gets_readInt32 _ v) Hinv eq_refl) as (s' & R & _).
  { pose proof (varint_length 5 (EncodeZigzag32 (u32 v))). unfold zlen. lia. }
  exists s'. split; [done|]. unfold in_s in Hv. pose proof (Z.mod_pos_bound v (2 ^ 31)).
  split; [lia|]. intros. apply Z.mod_small. lia.
Qed.

Lemma writeInt32_readInt32_witness :
  ∃ s', (writeInt32 (-1);; setPosition 0;; readInt32) (newByteArray 4096) = Ok (2 ^ 31 - 1) s' ∧
    ((-1) mod 2 ^ 31 = -1 ↔ 0 ≤ -1).
Proof.
  apply (writeInt32_readInt32 (newByteArray 4096) (-1)).
  - apply new_inv. lia.
  - unfold in_s. lia.
  - vm_compute. discriminate.
Defined.

(** Reading more than a fresh buffer holds. *)
Lemma read_past_fresh {A} base c bs n (k : list cell → BA A) :
  0 < base < 2 ^ 52 → puts c SKT_BIG_ENDIAN bs → zlen bs < n → zlen bs < 2 ^ 51 →
  ∃ s', (c;; setPosition 0;; (cs ← read n; k cs)) (newByteArray base)
    = Exc (out_of_range "not enough len") s'.
Proof.
  intros Hb P Hn Hbs. assert (ba_inv (newByteArray base)) as Hinv by (apply new_inv; lia).
  pose proof (zlen_nonneg bs).
  destruct (P (newByteArray base)) as (s1 & R1 & Hinv1 & A1 & _);
    [done|done|unfold max_capacity; cbn; lia|].
  injection A1 as D1 P1. cbn [ab_data ab_pos abs m_position newByteArray] in D1, P1.
  pose proof (zlen_data _ Hinv1) as L1. rewrite D1 in L1. unfold zsplice, data in L1.
  cbn [m_size newByteArray] in L1. rewrite zslice_0, take_nil, drop_nil, app_nil_l, app_nil_r, zlen_fmap in L1.
  destruct (setPosition_abs s1 0) as (s2 & R2 & Hinv2 & A2 & _); [done|lia|]. injection A2 as D2 P2.
  pose proof (zlen_data _ Hinv2) as L2. rewrite D2, (zlen_data _ Hinv1) in L2.
  exists s2. run R1. run R2. apply bind_exc. apply read_exc; [done|]. lia.
Qed.

(** writeFloat and readFloat do not match. writeFloat stores the bits
    of the float as a varint of one to five bytes, readFloat reads four
    fixed bytes: a float with a small bit pattern (0.0f among them) written
    to a fresh buffer cannot be read back, the read throws. *)
Theorem float_roundtrip_throws base bits :
  0 < base < 2 ^ 52 → 0 ≤ bits < 2 ^ 21 →
  ∃ s', (writeFloat bits;; setPosition 0;; readFloat) (newByteArray base)
    = Exc (out_of_range "not enough len") s'.
Proof.
  intros Hb Hbits. unfold readFloat, readFuint32, readFuint.
  assert (puts (writeFloat bits) SKT_BIG_ENDIAN (varint 3 bits)) as P by (apply (puts_varint 6 5 2); lia).
  pose proof (varint_length 3 bits).
  apply (read_past_fresh base _ _ _ _ Hb P); unfold zlen; lia.
Qed.

Lemma float_roundtrip_throws_witness :
  ∃ s', (writeFloat 0;; setPosition 0;; readFloat) (newByteArray 4096)
    = Exc (out_of_range "not enough len") s'.
Proof. apply (float_roundtrip_throws 4096 0); lia. Defined.

(** writeStringVint and readStringVint do not match. The writer stores
    the length as a varint, the reader expects eight fixed bytes: a string
    of fewer than seven bytes written to a fresh buffer cannot be read
    back. *)
Theorem stringVint_roundtrip_throws base value :
  0 < base < 2 ^ 52 → zlen value < 7 →
  ∃ s', (writeStringVint value;; setPosition 0;; readStringVint) (newByteArray base)
    = Exc (out_of_range "not enough len") s'.
Proof.
  intros Hb Hv. pose proof (zlen_nonneg value).
  assert (puts (writeStringVint value) SKT_BIG_ENDIAN (varint 1 (zlen value) ++ value)) as P.
  { apply puts_seq; [apply (puts_varint 11 10 0); lia|apply puts_write]. }
  pose proof (varint_length 1 (zlen value)).
  destruct (read_past_fresh base _ _ 8 (λ cs, v ← load cs; s ← mget;
      len ← mret (if m_endian s =? SKT_BYTE_ORDER then v else byteswap_u 8 v); readString len) Hb P)
    as [s' R]; [rewrite zlen_app; unfold zlen in *; lia..|].
  exists s'. rewrite <- R. apply bind_proper'. intros _ s1. apply bind_proper'. intros _ s2.
  unfold readStringVint, readFuint64, readFuint, mbind, M_bind. cbn [Z.of_nat].
  destruct (read _ s2) as [cs s3| | |]; [|done..]. by destruct (load cs s3).
Qed.

Lemma stringVint_roundtrip_throws_witness :
  ∃ s', (writeStringVint [97; 98];; setPosition 0;; readStringVint) (newByteArray 4096)
    = Exc (out_of_range "not enough len") s'.
Proof. apply (stringVint_roundtrip_throws 4096 [97; 98]); [lia|unfold zlen; cbn; lia]. Defined.
