(* ===== verification/ByteArrayIov.v ===== *)
(** Scatter/gather and file access of ByteArray: getReadBuffers,
    getWriteBuffers, writeToFile and readFromFile of
    skt/bytearray/bytearray.cpp.

    An iovec points into a node: [iov_node] is the node, [iov_off] the offset
    of iov_base in its memory. A file is the list of its bytes. *)

From stdpp Require Import base numbers list strings.
From Stdlib Require Import ZArith Lia.
From S2P Require Import Prelude Endian ByteArray ByteArraySpec ByteArrayCodec.

Record iovec := mkIov { iov_node : nat; iov_off : Z; iov_len : Z }.

(** The loop of getReadBuffers(buffs, len): the guard compares the room in
    the node with [size], the length of the whole request. *)
Fixpoint read_iov_loop (fuel : nat) (buffs : list iovec) (cur : option nat)
    (size len npos ncap : Z) : BA (list iovec) :=
  match fuel with
  | O => mnofuel
  | S fuel =>
    if len <=? 0 then mret buffs else
    '(i, _) ← deref cur;
    if size <=? ncap then
      read_iov_loop fuel (buffs ++ [mkIov i npos len]) cur size 0 npos ncap
    else
      let len := u64 (len - ncap) in
      s ← mget;
      let cur := next (m_nodes s) i in
      '(_, nd) ← deref cur;
      read_iov_loop fuel (buffs ++ [mkIov i npos ncap]) cur size len 0 (nsize nd)
  end.

(** ByteArray::getReadBuffers(buffs, len) const *)
Definition getReadBuffers (len : Z) : BA (Z * list iovec) :=
  s ← mget;
  let len := if getReadSize s <? len then getReadSize s else len in
  if len =? 0 then mret (0, []) else
  if m_baseSize s =? 0 then mstop DivByZero else
  let npos := m_position s mod m_baseSize s in
  '(_, nd) ← deref (m_cur s);
  let ncap := u64 (nsize nd - npos) in
  buffs ← read_iov_loop (2 + length (m_nodes s)) [] (m_cur s) len len npos ncap;
  mret (len, buffs).

(** [count] steps of cur = cur->next from the root. *)
Fixpoint walk (count : nat) (cur : option nat) : BA (option nat) :=
  match count with
  | O => mret cur
  | S count =>
    '(i, _) ← deref cur;
    s ← mget;
    walk count (next (m_nodes s) i)
  end.

(** ByteArray::getReadBuffers(buffs, len, position) const *)
Definition getReadBuffers_at (len position : Z) : BA (Z * list iovec) :=
  s ← mget;
  let len := if getReadSize s <? len then getReadSize s else len in
  if len =? 0 then mret (0, []) else
  if m_baseSize s =? 0 then mstop DivByZero else
  let npos := position mod m_baseSize s in
  cur ← walk (Z.to_nat (position / m_baseSize s)) (Some 0%nat);
  '(_, nd) ← deref (m_cur s);
  let ncap := u64 (nsize nd - npos) in
  buffs ← read_iov_loop (2 + length (m_nodes s)) [] cur len len npos ncap;
  mret (len, buffs).

(** The loop of getWriteBuffers: the guard compares with what is left. *)
Fixpoint write_iov_loop (fuel : nat) (buffs : list iovec) (cur : option nat)
    (len npos ncap : Z) : BA (list iovec) :=
  match fuel with
  | O => mnofuel
  | S fuel =>
    if len <=? 0 then mret buffs else
    '(i, _) ← deref cur;
    if len <=? ncap then
      write_iov_loop fuel (buffs ++ [mkIov i npos len]) cur 0 npos ncap
    else
      let len := u64 (len - ncap) in
      s ← mget;
      let cur := next (m_nodes s) i in
      '(_, nd) ← deref cur;
      write_iov_loop fuel (buffs ++ [mkIov i npos ncap]) cur len 0 (nsize nd)
  end.

(** ByteArray::getWriteBuffers *)
Definition getWriteBuffers (len : Z) : BA (Z * list iovec) :=
  if len =? 0 then mret (0, []) else
  addCapacity len;;
  s ← mget;
  if m_baseSize s =? 0 then mstop DivByZero else
  let npos := m_position s mod m_baseSize s in
  '(_, nd) ← deref (m_cur s);
  let ncap := u64 (nsize nd - npos) in
  buffs ← write_iov_loop (2 + length (m_nodes s)) [] (m_cur s) len npos ncap;
  mret (len, buffs).

(** An output stream: the bytes written so far, and whether it is still
    good (a failed write sets badbit, later writes do nothing). *)
Record ofstream := mkOfs { ofs_good : bool; ofs_bytes : list cell }.

(** ofs.write(p, len) where the memory at [p] is [mem] from [off] on. *)
Definition ofs_write (off len : Z) (mem : list cell) (o : ofstream) : option ofstream :=
  if ofs_good o then
    if len <? 0 then Some (mkOfs false (ofs_bytes o))
    else bs ← mem_read off len mem; Some (mkOfs true (ofs_bytes o ++ bs))
  else Some o.

(** The loop of writeToFile. *)
Fixpoint to_file_loop (fuel : nat) (o : ofstream) (cur : option nat)
    (read_size pos : Z) : BA ofstream :=
  match fuel with
  | O => mnofuel
  | S fuel =>
    if read_size <=? 0 then mret o else
    s ← mget;
    let diff := i32 (pos mod m_baseSize s) in
    let len := (if m_baseSize s <? read_size then m_baseSize s else read_size) - diff in
    '(i, nd) ← deref cur;
    o ← mderef OutOfBounds (ofs_write diff len (ptr nd) o);
    to_file_loop fuel o (next (m_nodes s) i) (read_size - len) (pos + len)
  end.

(** ByteArray::writeToFile; [openable]: whether the file could be opened.
    The contents of the file at the end is the second component. *)
Definition writeToFile (openable : bool) : BA (bool * list cell) :=
  if openable then
    s ← mget;
    if m_baseSize s =? 0 then mstop DivByZero else
    o ← to_file_loop (2 + length (m_nodes s)) (mkOfs true []) (m_cur s)
          (getReadSize s) (m_position s);
    mret (true, ofs_bytes o)
  else mret (false, []).

(** The loop of readFromFile: up to m_baseSize bytes per turn, until a turn
    runs into the end of the file. *)
Fixpoint from_file_loop (fuel : nat) (base : Z) (rest : list Z) : BA unit :=
  match fuel with
  | O => mnofuel
  | S fuel =>
    let chunk := zslice 0 base rest in
    write (Some <$> chunk) (zlen chunk);;
    if zlen chunk <? base then mret tt
    else from_file_loop fuel base (drop (Z.to_nat base) rest)
  end.

(** ByteArray::readFromFile; [contents] is [None] when the file cannot be
    opened. *)
Definition readFromFile (contents : option (list Z)) : BA bool :=
  match contents with
  | None => mret false
  | Some bs =>
    s ← mget;
    from_file_loop (2 + length bs) (m_baseSize s) bs;;
    mret true
  end.

(** ** What a list of iovecs designates *)

Definition iov_bytes (s : ByteArray) (v : iovec) : list cell :=
  match m_nodes s !! iov_node v with
  | Some nd => zslice (iov_off v) (iov_len v) (ptr nd)
  | None => []
  end.

(** Each iovec stays inside its node. *)
Definition iov_ok (s : ByteArray) (v : iovec) : Prop :=
  ∃ nd, m_nodes s !! iov_node v = Some nd ∧ 0 ≤ iov_off v ∧ 0 < iov_len v ∧
    iov_off v + iov_len v ≤ zlen (ptr nd).

Definition iovs_bytes (s : ByteArray) (l : list iovec) : list cell := concat (iov_bytes s <$> l).

Section Walk.
Context (s : ByteArray) (Hs : chain_ok s).

(** A position as a node and an offset in it. *)
Lemma node_at p : 0 ≤ p < m_capacity s →
  ∃ k nd, k = Z.to_nat (p / m_baseSize s) ∧ m_nodes s !! k = Some nd ∧
    nsize nd = m_baseSize s ∧ zlen (ptr nd) = m_baseSize s ∧
    p = m_baseSize s * Z.of_nat k + p mod m_baseSize s ∧ 0 ≤ p mod m_baseSize s < m_baseSize s ∧
    (∀ n, 0 ≤ n → p mod m_baseSize s + n ≤ m_baseSize s →
      zslice (p mod m_baseSize s) n (ptr nd) = zslice p n (flat s)).
Proof.
  intros Hp. pose proof Hs as [Hb Hn Hc _ _ _ _].
  pose proof (Z.div_mod p (m_baseSize s) ltac:(lia)) as E.
  pose proof (Z.mod_pos_bound p (m_baseSize s) Hb).
  pose proof (Z.div_pos p (m_baseSize s) ltac:(lia) Hb).
  assert (p / m_baseSize s < zlen (m_nodes s)) by (apply Z.div_lt_upper_bound; lia).
  destruct (lookup_lt_is_Some_2 (m_nodes s) (Z.to_nat (p / m_baseSize s))) as [nd Hnd];
    [unfold zlen in *; lia|].
  pose proof (Forall_lookup_1 _ _ _ _ Hn Hnd) as [? ?].
  eexists _, nd. split_and!; try done; [rewrite Z2Nat.id; lia|lia|lia|].
  intros n Hn0 Hle. unfold flat.
  rewrite <- (flat_of_slice (m_baseSize s) (m_nodes s) _ nd _ _ Hn Hnd) by lia.
  f_equal. rewrite Z2Nat.id; lia.
Qed.

Lemma deref_node k nd : m_nodes s !! k = Some nd → deref (Some k) s = Ok (k, nd) s.
Proof. apply deref_cur. Qed.

(** From the end of node [k], the next node, when cells remain. *)
Lemma next_node k p :
  p = m_baseSize s * Z.of_nat k → (0 < k)%nat → p < m_capacity s →
  next (m_nodes s) (pred k) = Some k ∧ Z.to_nat (p / m_baseSize s) = k ∧ p mod m_baseSize s = 0.
Proof.
  intros -> Hk Hlt. pose proof Hs as [Hb _ Hc _ _ _ _]. unfold zlen in Hc.
  assert (k < length (m_nodes s))%nat by nia.
  unfold next. rewrite decide_True by lia.
  split; [f_equal; lia|]. rewrite Z.mul_comm, Z.div_mul, Z.mod_mul by lia. lia.
Qed.

Lemma u64_len n : 0 ≤ n ≤ m_capacity s → u64 n = n.
Proof. intros. pose proof (co_max _ Hs). apply wrapu_small. unfold max_capacity in *. split; lia. Qed.

(** ** getWriteBuffers *)

Lemma write_iov_loop_spec fuel buffs p len :
  0 ≤ p → 0 < len → p + len ≤ m_capacity s →
  (length (m_nodes s) - Z.to_nat (p / m_baseSize s) + 2 ≤ fuel)%nat →
  ∃ l, write_iov_loop fuel buffs (Some (Z.to_nat (p / m_baseSize s))) len
         (p mod m_baseSize s) (m_baseSize s - p mod m_baseSize s) s = Ok (buffs ++ l) s ∧
    Forall (iov_ok s) l ∧ iovs_bytes s l = zslice p len (flat s).
Proof.
  revert buffs p len. induction fuel as [|fuel IH]; intros buffs p len Hp Hlen Hcap Hf; [lia|].
  destruct (node_at p) as (k & nd & Ek & Hk & Hnd & Hnl & E & Hm & Hsl); [lia|].
  rewrite <- Ek in *. cbn [write_iov_loop]. rewrite (proj2 (Z.leb_gt len 0)) by lia.
  mred. rewrite (deref_node _ _ Hk). set (o := p mod m_baseSize s) in *.
  destruct (Z.leb_spec len (m_baseSize s - o)) as [Hle|Hgt].
  - destruct fuel as [|fuel]; [lia|]. exists [mkIov k o len]. split; [done|]. split.
    + repeat constructor. exists nd. cbn. split_and!; done || lia.
    + unfold iovs_bytes, iov_bytes. cbn. rewrite Hk, app_nil_r. apply Hsl; lia.
  - destruct (next_node (S k) (p + (m_baseSize s - o))) as (Hnx & Ek2 & Em2); [lia|lia|lia|].
    cbn [pred] in Hnx. rewrite Hnx.
    destruct (node_at (p + (m_baseSize s - o))) as (k2 & nd2 & Ek3 & Hk2 & Hnd2 & _); [lia|].
    rewrite Ek2 in Ek3. subst k2. rewrite (deref_node _ _ Hk2), Hnd2.
    rewrite u64_len by lia.
    destruct (IH (buffs ++ [mkIov k o (m_baseSize s - o)]) (p + (m_baseSize s - o)) (len - (m_baseSize s - o)))
      as (l & R & Hok & Hbytes); [lia|lia|lia|rewrite Ek2; apply lookup_lt_Some in Hk; lia|].
    rewrite Ek2, Em2, Z.sub_0_r in R.
    exists (mkIov k o (m_baseSize s - o) :: l). split; [by rewrite R, <- (assoc_L (++))|]. split.
    + constructor; [|done]. exists nd. cbn. split_and!; done || lia.
    + unfold iovs_bytes in *. cbn. rewrite Hbytes. unfold iov_bytes. cbn. rewrite Hk, Hsl by lia.
      rewrite <- zslice_split by lia. f_equal. lia.
Qed.

(** ** getReadBuffers *)

(** A request of at most m_baseSize bytes spans at most two nodes. *)
Lemma read_iov_loop_small fuel p size :
  0 ≤ p → 0 < size ≤ m_baseSize s → p + size ≤ m_capacity s → (3 ≤ fuel)%nat →
  ∃ l, read_iov_loop fuel [] (Some (Z.to_nat (p / m_baseSize s))) size size
         (p mod m_baseSize s) (m_baseSize s - p mod m_baseSize s) s = Ok l s ∧
    Forall (iov_ok s) l ∧ iovs_bytes s l = zslice p size (flat s).
Proof.
  intros Hp Hsz Hcap Hf. destruct fuel as [|[|[|fuel]]]; [lia..|].
  destruct (node_at p) as (k & nd & Ek & Hk & Hnd & Hnl & E & Hm & Hsl); [lia|].
  rewrite <- Ek. set (o := p mod m_baseSize s) in *.
  cbn [read_iov_loop]. rewrite (proj2 (Z.leb_gt size 0)) by lia. mred.
  rewrite (deref_node _ _ Hk).
  destruct (Z.leb_spec size (m_baseSize s - o)) as [Hle|Hgt].
  - exists [mkIov k o size]. split; [done|]. split.
    + repeat constructor. exists nd. cbn. split_and!; done || lia.
    + unfold iovs_bytes, iov_bytes. cbn. rewrite Hk, app_nil_r. apply Hsl; lia.
  - destruct (next_node (S k) (p + (m_baseSize s - o))) as (Hnx & Ek2 & Em2); [lia|lia|lia|].
    cbn [pred] in Hnx. rewrite Hnx.
    destruct (node_at (p + (m_baseSize s - o))) as (k2 & nd2 & Ek3 & Hk2 & Hnd2 & Hnl2 & _ & _ & Hsl2); [lia|].
    rewrite Ek2 in Ek3. subst k2. rewrite (deref_node _ _ Hk2), Hnd2.
    rewrite u64_len by lia. rewrite (proj2 (Z.leb_gt (size - _) 0)) by lia.
    rewrite (deref_node _ _ Hk2). rewrite (proj2 (Z.leb_le size (m_baseSize s))) by lia.
    eexists. split; [reflexivity|]. split.
    + repeat constructor; [exists nd|exists nd2]; cbn; split_and!; done || lia.
    + unfold iovs_bytes, iov_bytes. cbn. rewrite Hk, Hk2, app_nil_r, Hsl by lia.
      rewrite Em2 in Hsl2. rewrite Hsl2 by lia. rewrite <- zslice_split by lia. f_equal. lia.
Qed.

(** A request of more than m_baseSize bytes never takes the branch that
    ends the loop: from the start of any node it runs on to the end of the
    chain. *)
Lemma read_iov_loop_overrun fuel buffs k size len npos ncap :
  m_baseSize s < size → 0 < len → ncap ≤ m_baseSize s → 0 < ncap →
  (k < length (m_nodes s))%nat →
  m_baseSize s * (zlen (m_nodes s) - Z.of_nat k - 2) + ncap < len < 2 ^ 63 →
  (length (m_nodes s) - k < fuel)%nat →
  read_iov_loop fuel buffs (Some k) size len npos ncap s = Stop NullDeref.
Proof.
  revert buffs k len npos ncap. induction fuel as [|fuel IH]; intros buffs k len npos ncap Hsz Hlen Hnc Hnc0 Hk Hrem Hf; [lia|].
  pose proof Hs as [Hb Hn Hc _ _ _ _].
  destruct (lookup_lt_is_Some_2 _ _ Hk) as [nd Hnd].
  cbn [read_iov_loop]. rewrite (proj2 (Z.leb_gt len 0)) by lia. mred.
  rewrite (deref_node _ _ Hnd), (proj2 (Z.leb_gt size ncap)) by lia. unfold next.
  destruct (decide (S k < length (m_nodes s))%nat) as [Hlt|]; [|done].
  destruct (lookup_lt_is_Some_2 _ _ Hlt) as [nd2 Hnd2].
  pose proof (Forall_lookup_1 _ _ _ _ Hn Hnd2) as [Hsz2 _].
  rewrite (deref_node _ _ Hnd2), Hsz2.
  assert (ncap < len) by (unfold zlen in Hrem; nia).
  rewrite wrapu_small by (unfold in_u; lia).
  apply IH; try lia; unfold zlen in *; nia.
Qed.

End Walk.

(** ** Files *)

Lemma to_file_loop_aligned fuel s cur bytes p r :
  chain_ok s → m_baseSize s ≤ 2 ^ 31 → 0 ≤ p → p mod m_baseSize s = 0 → 0 ≤ r →
  p + r ≤ m_capacity s → (0 < r → cur = Some (Z.to_nat (p / m_baseSize s))) →
  (length (m_nodes s) - Z.to_nat (p / m_baseSize s) < fuel)%nat →
  to_file_loop fuel (mkOfs true bytes) cur r p s = Ok (mkOfs true (bytes ++ zslice p r (flat s))) s.
Proof.
  intros Hs Hb31. revert cur bytes p r.
  induction fuel as [|fuel IH]; intros cur bytes p r Hp Hal Hr Hcap Hcur Hf; [lia|].
  cbn [to_file_loop]. destruct (Z.leb_spec r 0) as [Hr0|Hr0].
  { assert (r = 0) as -> by lia. rewrite zslice_0, app_nil_r. done. }
  pose proof (co_base _ Hs) as Hb. rewrite Hcur by done.
  destruct (node_at s Hs p) as (k & nd & Ek & Hk & Hnd & Hnl & E & _ & Hsl); [lia|].
  rewrite Hal in E, Hsl. rewrite <- Ek in *.
  mred. rewrite Hal, (deref_cur _ _ _ Hk), (wraps_small 32 0) by (unfold in_s; lia).
  set (len := (if m_baseSize s <? r then m_baseSize s else r) - 0).
  assert (len = Z.min (m_baseSize s) r) as El by (unfold len; destruct (Z.ltb_spec (m_baseSize s) r); lia).
  unfold ofs_write. cbn [ofs_good ofs_bytes]. rewrite (proj2 (Z.ltb_ge len 0)) by lia.
  rewrite mem_read_ok by lia. cbn [mbind option_bind]. rewrite Hsl by lia.
  destruct (Z.leb_spec r (m_baseSize s)).
  - replace len with r by lia. rewrite Z.sub_diag. destruct fuel as [|fuel].
    { apply lookup_lt_Some in Hk. lia. }
    done.
  - replace len with (m_baseSize s) by lia.
    destruct (next_node s Hs (S k) (p + m_baseSize s)) as (Hnx & Ek2 & Em2); [lia|lia|lia|].
    cbn [pred] in Hnx. rewrite Hnx.
    rewrite IH; [|lia|done|lia|lia|by rewrite Ek2|rewrite Ek2; apply lookup_lt_Some in Hk; lia].
    rewrite <- (assoc_L (++)), <- zslice_split by lia. do 3 f_equal. f_equal. lia.
Qed.

Lemma from_file_loop_puts fuel base e bs :
  0 < base → (length bs < fuel)%nat → puts (from_file_loop fuel base bs) e bs.
Proof.
  intros Hb. revert bs. induction fuel as [|fuel IH]; intros bs Hf; [lia|].
  cbn [from_file_loop].
  destruct (Z.ltb_spec (zlen (zslice 0 base bs)) base) as [Hlt|Hge].
  - assert (zslice 0 base bs = bs) as ->.
    { revert Hlt. unfold zlen, zslice. rewrite drop_0, length_take. intros. apply take_ge. lia. }
    rewrite <- (app_nil_r bs) at 3. apply puts_seq; [apply puts_write|apply puts_ret].
  - assert (zslice 0 base bs ++ drop (Z.to_nat base) bs = bs) as E.
    { unfold zslice. rewrite drop_0. apply take_drop. }
    assert (length (drop (Z.to_nat base) bs) < fuel)%nat as Hlen.
    { revert Hge. unfold zlen, zslice. rewrite drop_0, length_take, length_drop. lia. }
    pose proof (puts_seq _ _ e _ _ (puts_write e (zslice 0 base bs)) (IH _ Hlen)) as P.
    by rewrite E in P.
Qed.

(** ** The properties *)

(** the buffers handed out for a scatter read. getWriteBuffers(len)
    grows the chain so that [len] bytes fit, leaves the contents and the
    cursor alone, and returns iovecs that stay inside their nodes and that
    together are exactly the [len] cells after the cursor, in order. *)
Theorem getWriteBuffers_cells s len :
  ba_inv s → 0 < len → m_position s + len + m_baseSize s ≤ max_capacity →
  ∃ s' l, getWriteBuffers len s = Ok (len, l) s' ∧ ba_inv s' ∧ abs s' = abs s ∧
    m_position s + len ≤ m_capacity s' ∧ Forall (iov_ok s') l ∧
    iovs_bytes s' l = zslice (m_position s) len (flat s').
Proof.
  intros Hinv Hlen Hmax. pose proof Hinv as [Hs Hz]. pose proof (co_pos _ Hs).
  destruct (addCapacity_spec s len) as (s1 & H1 & Hs1 & Hb1 & Hp1 & Hz1 & He1 & Hc1 & Hc2 & Hf1);
    [done|lia|lia|].
  destruct (cursor_node s1 Hs1) as (k & nd & Ek & Hcur & Hk & Hnd & _); [lia|].
  destruct (write_iov_loop_spec s1 Hs1 (2 + length (m_nodes s1)) [] (m_position s1) len)
    as (l & R & Hok & Hby); [lia|lia|lia|lia|].
  exists s1, l. unfold getWriteBuffers. rewrite (proj2 (Z.eqb_neq len 0)) by lia. run H1. mred.
  pose proof (co_base _ Hs1). rewrite (proj2 (Z.eqb_neq _ 0)) by lia.
  rewrite Hcur, (deref_cur _ _ _ Hk), Hnd, (ncap_ok _ Hs1), Ek, R. rewrite <- Hp1.
  split_and!; try done; [split; [done|lia]| |lia].
  unfold abs, data. rewrite Hp1, Hz1, Hf1. f_equal.
  apply zslice_app_l; rewrite ?capacity_flat by done; lia.
Qed.

Lemma getWriteBuffers_cells_witness :
  ∃ s' l, getWriteBuffers 5 (newByteArray 2) = Ok (5, l) s' ∧ ba_inv s' ∧
    abs s' = abs (newByteArray 2) ∧ 0 + 5 ≤ m_capacity s' ∧ Forall (iov_ok s') l ∧
    iovs_bytes s' l = zslice 0 5 (flat s').
Proof.
  apply (getWriteBuffers_cells (newByteArray 2) 5).
  - apply new_inv. lia.
  - lia.
  - vm_compute. discriminate.
Defined.

(** getReadBuffers on a state with bytes to read. *)
Lemma getReadBuffers_loop s len n :
  ba_inv s → n = Z.min len (m_size s - m_position s) → 0 < n →
  getReadBuffers len s =
  (buffs ← read_iov_loop (2 + length (m_nodes s)) [] (Some (Z.to_nat (m_position s / m_baseSize s)))
     n n (m_position s mod m_baseSize s) (m_baseSize s - m_position s mod m_baseSize s);
   mret (n, buffs)) s.
Proof.
  intros Hinv Hn Hpos. pose proof Hinv as [Hs Hz]. pose proof (co_base _ Hs).
  unfold getReadBuffers. mred. rewrite (getReadSize_ok _ Hinv).
  replace (if m_size s - m_position s <? len then _ else _) with n
    by (destruct (Z.ltb_spec (m_size s - m_position s) len); lia).
  rewrite (proj2 (Z.eqb_neq n 0)), (proj2 (Z.eqb_neq _ 0)) by lia.
  destruct (cursor_node s Hs) as (k & nd & -> & Hcur & Hk & Hnd & _); [lia|].
  by rewrite Hcur, (deref_cur _ _ _ Hk), Hnd, (ncap_ok _ Hs).
Qed.

(** the buffers handed out for a gather write, for requests of at most
    one node's size. getReadBuffers(len) returns iovecs inside their nodes
    whose bytes are the next [min len readable] bytes, and changes
    nothing. *)
Theorem getReadBuffers_small s len n :
  ba_inv s → n = Z.min len (m_size s - m_position s) → 0 < n ≤ m_baseSize s →
  ∃ l, getReadBuffers len s = Ok (n, l) s ∧ Forall (iov_ok s) l ∧
    iovs_bytes s l = zslice (m_position s) n (data s).
Proof.
  intros Hinv Hn Hpos. pose proof Hinv as [Hs Hz]. pose proof (co_pos _ Hs).
  destruct (read_iov_loop_small s Hs (2 + length (m_nodes s)) (m_position s) n) as (l & R & Hok & Hby);
    [lia|lia|lia|pose proof (co_nonempty _ Hs); unfold zlen in *; lia|].
  exists l. rewrite (getReadBuffers_loop s len n) by (done || lia). run R.
  split; [done|]. split; [done|]. rewrite data_slice by (done || lia). done.
Qed.

Lemma getReadBuffers_small_witness :
  ∃ s l, (write (Some <$> [1; 2; 3; 4; 5; 6]) 6;; setPosition 3;; getReadBuffers 4) (newByteArray 4)
    = Ok (3, l) s ∧ iovs_bytes s l = Some <$> [4; 5; 6].
Proof.
  destruct (run_inv [OWrite (Some <$> [1; 2; 3; 4; 5; 6]); OSetPosition 3] (newByteArray 4))
    as (s & R & Hinv); [apply new_inv; lia|repeat constructor; cbn; lia|vm_compute; discriminate|].
  vm_compute in R. injection R as <-.
  destruct (getReadBuffers_small _ 4 3 Hinv) as (l & R & _ & Hby); [reflexivity|cbn; lia|].
  eexists _, l. split; [|exact Hby]. exact R.
Defined.

(** getReadBuffers is wrong for larger requests. The loop compares the
    room in a node with the size of the whole request instead of what is
    left of it, so for a request of more than m_baseSize bytes that ends in
    the last node it runs off the end of the chain and dereferences a null
    pointer. *)
Theorem getReadBuffers_overrun s len n :
  ba_inv s → n = Z.min len (m_size s - m_position s) → m_baseSize s < n →
  m_capacity s - m_baseSize s < m_position s + n →
  getReadBuffers len s = Stop NullDeref.
Proof.
  intros Hinv Hn Hb Hend. pose proof Hinv as [Hs Hz]. pose proof (co_pos _ Hs).
  pose proof (co_base _ Hs) as Hb0. pose proof (co_max _ Hs) as Hm. unfold max_capacity in Hm.
  rewrite (getReadBuffers_loop s len n) by (done || lia). apply bind_stop.
  destruct (cursor_node s Hs) as (k & nd & Ek & _ & Hk & _ & _ & E & Hnp); [lia|]. rewrite <- Ek.
  apply lookup_lt_Some in Hk. rewrite (co_cap _ Hs) in Hend.
  apply (read_iov_loop_overrun s Hs); lia.
Qed.

Lemma getReadBuffers_overrun_witness :
  (write (Some <$> [1; 2; 3; 4; 5; 6]) 6;; setPosition 0;; getReadBuffers 6) (newByteArray 4)
    = Stop NullDeref.
Proof.
  destruct (run_inv [OWrite (Some <$> [1; 2; 3; 4; 5; 6]); OSetPosition 0] (newByteArray 4))
    as (s & R & Hinv); [apply new_inv; lia|repeat constructor; cbn; lia|vm_compute; discriminate|].
  vm_compute in R. injection R as <-.
  exact (getReadBuffers_overrun _ 6 6 Hinv eq_refl eq_refl eq_refl).
Defined.

(** writeToFile and readFromFile transport the readable bytes. When the
    cursor is at a node boundary (as after setPosition(0)) the file receives
    exactly the readable bytes; reading the file into another ByteArray, of any base
    size, writes exactly those bytes at its cursor. *)
Theorem file_roundtrip s t bs :
  ba_inv s → m_position s mod m_baseSize s = 0 → m_baseSize s ≤ 2 ^ 31 →
  zslice (m_position s) (m_size s - m_position s) (data s) = Some <$> bs →
  ba_inv t → m_position t + zlen bs + m_baseSize t ≤ max_capacity →
  writeToFile true s = Ok (true, Some <$> bs) s ∧
  ∃ t', readFromFile (Some bs) t = Ok true t' ∧ ba_inv t' ∧
    abs t' = abs_write (Some <$> bs) (abs t).
Proof.
  intros Hinv Hal Hb Hbs Hinvt Hmax. pose proof Hinv as [Hs Hz]. pose proof (co_pos _ Hs).
  pose proof (co_base _ Hs). split.
  - unfold writeToFile. mred. rewrite (proj2 (Z.eqb_neq _ 0)) by lia.
    rewrite (getReadSize_ok _ Hinv).
    rewrite to_file_loop_aligned; [|done|done|lia|done|lia|lia| |lia].
    { cbn [ofs_bytes]. by rewrite app_nil_l, <- data_slice, Hbs by (done || lia). }
    intros. destruct (cursor_node s Hs) as (k & nd & -> & -> & _); [lia|done].
  - destruct (from_file_loop_puts (2 + length bs) (m_baseSize t) (m_endian t) bs
      (co_base _ (bi_chain _ Hinvt)) ltac:(lia) t Hinvt eq_refl Hmax) as (t' & R & Hinv' & A & _).
    exists t'. split; [|done]. unfold readFromFile. mred. by rewrite R.
Qed.

Lemma file_roundtrip_witness :
  ∃ s t', (write (Some <$> [1; 2; 3; 4; 5; 6]) 6;; setPosition 0;; writeToFile true) (newByteArray 4)
      = Ok (true, Some <$> [1; 2; 3; 4; 5; 6]) s ∧
    readFromFile (Some [1; 2; 3; 4; 5; 6]) (newByteArray 3) = Ok true t' ∧
    abs t' = abs_write (Some <$> [1; 2; 3; 4; 5; 6]) (abs (newByteArray 3)).
Proof.
  destruct (run_inv [OWrite (Some <$> [1; 2; 3; 4; 5; 6]); OSetPosition 0] (newByteArray 4))
    as (s & R & Hinv); [apply new_inv; lia|repeat constructor; cbn; lia|vm_compute; discriminate|].
  vm_compute in R. injection R as <-.
  destruct (file_roundtrip _ (newByteArray 3) [1; 2; 3; 4; 5; 6] Hinv) as (W & t' & R & _ & A);
    [reflexivity|vm_compute; discriminate|reflexivity|apply new_inv; lia|vm_compute; discriminate|].
  eexists _, t'. split; [exact W|]. split; [exact R|exact A].
Defined.

(** writeToFile away from a node boundary is wrong. With nodes of four
    bytes, six bytes in the buffer and the cursor at 3, the length of the
    first piece is computed as 3 - 3 = 0, the loop moves on a node per turn
    without writing and dereferences the null end of the chain. *)
Theorem writeToFile_unaligned :
  (write (Some <$> [1; 2; 3; 4; 5; 6]) 6;; setPosition 3;; writeToFile true) (newByteArray 4)
    = Stop NullDeref.
Proof. vm_compute. reflexivity. Qed.
