(* ===== verification/StdOrdered.v ===== *)
(** std::set and std::map with a comparator.

    The elements of an ordered container in iteration order form a list. A
    comparator is a boolean strict weak order [lt]; two keys that are not
    ordered either way are equivalent for the container. The operations are
    those the C++ standard describes for ordered containers: lower_bound is
    the partition point of the sequence, find and insert look there. *)

From stdpp Require Import base list sorting sets.
From Stdlib Require Import Lia.
From S2P Require Import Prelude.

(** What a comparator must satisfy (the Compare requirements of the
    standard). *)
Class StrictWeak {K : Type} (lt : K → K → bool) : Prop := {
  sw_irrefl x : lt x x = false;
  sw_trans x y z : lt x y = true → lt y z = true → lt x z = true;
  sw_incomp x y z : lt x y = false → lt y x = false →
    lt y z = false → lt z y = false → lt x z = false ∧ lt z x = false
}.

(** Neither is less: the same key for the container. *)
Definition equivb {K} (lt : K → K → bool) (x y : K) : bool := negb (lt x y) && negb (lt y x).

Section Ordered.
Context {K : Type} (lt : K → K → bool).

(** The container split at lower_bound(k). *)
Fixpoint lower_split {E} (key : E → K) (k : K) (l : list E) : list E * list E :=
  match l with
  | [] => ([], [])
  | x :: l' =>
    if lt (key x) k then let '(p, r) := lower_split key k l' in (x :: p, r) else ([], l)
  end.

(** std::set: find(k) != end(). *)
Definition set_find (k : K) (l : list K) : bool :=
  match (lower_split id k l).2 with
  | x :: _ => negb (lt k x)
  | [] => false
  end.

(** std::set::insert: the container and the position of the element. *)
Definition set_insert (k : K) (l : list K) : list K * nat :=
  let '(p, r) := lower_split id k l in
  match r with
  | x :: _ => if lt k x then (p ++ k :: r, length p) else (l, length p)
  | [] => (p ++ [k], length p)
  end.

(** std::set: erase(find(k)), [None] when find returns end(). *)
Definition set_erase (k : K) (l : list K) : option (list K) :=
  let '(p, r) := lower_split id k l in
  match r with
  | x :: r' => if lt k x then None else Some (p ++ r')
  | [] => None
  end.

(** std::map: find(k). *)
Definition map_find {V} (k : K) (m : list (K * V)) : option V :=
  match (lower_split fst k m).2 with
  | (k', v) :: _ => if lt k k' then None else Some v
  | [] => None
  end.

(** std::map: m[k] = v. An equivalent key already present is kept. *)
Definition map_assign {V} (k : K) (v : V) (m : list (K * V)) : list (K * V) :=
  let '(p, r) := lower_split fst k m in
  match r with
  | (k', v') :: r' => if lt k k' then p ++ (k, v) :: r else p ++ (k', v) :: r'
  | [] => p ++ [(k, v)]
  end.

(** std::map::erase(k) *)
Definition map_erase {V} (k : K) (m : list (K * V)) : list (K * V) :=
  let '(p, r) := lower_split fst k m in
  match r with
  | (k', _) :: r' => if lt k k' then m else p ++ r'
  | [] => m
  end.

(** ** Facts *)

(** The container is sorted by the comparator, without equivalent keys. *)
Definition ordered {E} (key : E → K) (l : list E) : Prop :=
  StronglySorted (λ x y, lt (key x) (key y) = true) l.

Lemma ordered_app {E} (key : E → K) l1 l2 :
  ordered key (l1 ++ l2) ↔
  ordered key l1 ∧ ordered key l2 ∧ ∀ x y, x ∈ l1 → y ∈ l2 → lt (key x) (key y) = true.
Proof.
  unfold ordered. induction l1 as [|z l1 IH]; cbn.
  - split; [intros H; split_and!; [constructor|done|intros ??; set_solver]|naive_solver].
  - rewrite !StronglySorted_cons, IH, !Forall_app, !Forall_forall.
    setoid_rewrite elem_of_cons. naive_solver.
Qed.

Context `{HSW : !StrictWeak lt}.

Lemma lt_asym x y : lt x y = true → lt y x = false.
Proof.
  intros H. destruct (lt y x) eqn:E; [|done].
  pose proof (sw_trans _ _ _ H E). by rewrite sw_irrefl in *.
Qed.

(** An order fact moves across an equivalent key. *)
Lemma lt_equiv_l x y z : equivb lt x y = true → lt x z = lt y z.
Proof.
  unfold equivb. intros [Hxy Hyx]%andb_true_iff. apply negb_true_iff in Hxy, Hyx.
  destruct (lt x z) eqn:H1, (lt y z) eqn:H2; try done.
  - destruct (lt z y) eqn:H3.
    + pose proof (sw_trans _ _ _ H1 H3). congruence.
    + destruct (sw_incomp x y z Hxy Hyx H2 H3). congruence.
  - destruct (lt z x) eqn:H3.
    + pose proof (sw_trans _ _ _ H2 H3). congruence.
    + destruct (sw_incomp y x z Hyx Hxy H1 H3). congruence.
Qed.

Lemma lt_equiv_r x y z : equivb lt x y = true → lt z x = lt z y.
Proof.
  unfold equivb. intros [Hxy Hyx]%andb_true_iff. apply negb_true_iff in Hxy, Hyx.
  destruct (lt z x) eqn:H1, (lt z y) eqn:H2; try done.
  - destruct (lt y z) eqn:H3.
    + pose proof (sw_trans _ _ _ H3 H1). congruence.
    + destruct (sw_incomp x y z Hxy Hyx H3 H2). congruence.
  - destruct (lt x z) eqn:H3.
    + pose proof (sw_trans _ _ _ H3 H2). congruence.
    + destruct (sw_incomp y x z Hyx Hxy H3 H1). congruence.
Qed.

Lemma lower_split_app {E} (key : E → K) k l :
  (lower_split key k l).1 ++ (lower_split key k l).2 = l.
Proof.
  induction l as [|x l IH]; [done|]. cbn. destruct (lt (key x) k); [|done].
  destruct (lower_split key k l) as [p r]. cbn in *. by rewrite IH.
Qed.

Lemma lower_split_spec {E} (key : E → K) k l p r :
  ordered key l → lower_split key k l = (p, r) →
  l = p ++ r ∧ Forall (λ x, lt (key x) k = true) p ∧ Forall (λ x, lt (key x) k = false) r.
Proof.
  intros Hl. revert p r. induction Hl as [|x l Hl IH Hx]; intros p r; cbn.
  { intros [= <- <-]. done. }
  destruct (lt (key x) k) eqn:Hxk.
  - destruct (lower_split key k l) as [p' r'] eqn:Hsp. intros [= <- <-].
    destruct (IH p' r' eq_refl) as (-> & Hp & Hr). split; [done|]. split; [by constructor|done].
  - intros [= <- <-]. split; [done|]. split; [constructor|]. constructor; [done|].
    eapply Forall_impl; [exact Hx|]. intros y Hxy. cbn in *.
    destruct (lt (key y) k) eqn:Hyk; [|done].
    pose proof (sw_trans _ _ _ Hxy Hyk). congruence.
Qed.

(** The part from lower_bound(k) on: nothing there is less than [k], and all
    but possibly its first element are greater. *)
Lemma lower_rest_gt {E} (key : E → K) k x r :
  ordered key (x :: r) → lt (key x) k = false → lt k (key x) = false →
  Forall (λ y, lt k (key y) = true) r.
Proof.
  intros [_ Hx]%StronglySorted_inv H1 H2. eapply Forall_impl; [exact Hx|]. cbn. intros y Hy.
  rewrite <- (lt_equiv_l (key x) k); [done|]. unfold equivb. by rewrite H1, H2.
Qed.

Lemma rest_gt {E} (key : E → K) k x r :
  ordered key (x :: r) → lt k (key x) = true → Forall (λ y, lt k (key y) = true) (x :: r).
Proof.
  intros [_ Hx]%StronglySorted_inv H. constructor; [done|].
  eapply Forall_impl; [exact Hx|]. cbn. intros y Hy. by eapply sw_trans.
Qed.

(** Inserting between the two parts. *)
Lemma ordered_middle {E} (key : E → K) p e r :
  ordered key p → ordered key r → Forall (λ x, lt (key x) (key e) = true) p →
  Forall (λ y, lt (key e) (key y) = true) r → ordered key (p ++ e :: r).
Proof.
  intros Hp Hr H1 H2. apply ordered_app. split; [done|]. split; [by constructor|].
  intros x y Hx Hy. rewrite Forall_forall in H1, H2. apply elem_of_cons in Hy as [->|Hy]; [by apply H1|].
  eapply sw_trans; [by apply H1|by apply H2].
Qed.

End Ordered.

(** ** std::set over a total order *)

Section TotalSet.
Context {K : Type} (lt : K → K → bool) `{HSW : !StrictWeak lt}.
Context (lt_total : ∀ x y, lt x y = false → lt y x = false → x = y).

Lemma set_insert_spec k l l' n :
  ordered lt id l → k ∉ l → set_insert lt k l = (l', n) →
  ordered lt id l' ∧ (∀ x, x ∈ l' ↔ x = k ∨ x ∈ l) ∧
  ∃ p r, l = p ++ r ∧ l' = p ++ k :: r ∧ n = length p ∧
    Forall (λ x, lt x k = true) p ∧ Forall (λ x, lt k x = true) r.
Proof.
  intros Hl Hk. unfold set_insert. destruct (lower_split lt id k l) as [p r] eqn:Hs.
  destruct (lower_split_spec lt _ _ _ _ _ Hl Hs) as (-> & Hp & Hr).
  apply ordered_app in Hl as (Hop & Hor & _).
  assert (Forall (λ x, lt k x = true) r) as Hgt.
  { destruct r as [|x r]; [constructor|]. apply (rest_gt lt id k x r); [done|].
    apply Forall_cons_1 in Hr as [Hx _]. destruct (lt k x) eqn:E; [done|].
    exfalso. apply Hk. rewrite (lt_total x k) by done. set_solver. }
  intros H. assert (l' = p ++ k :: r ∧ n = length p) as [-> ->].
  { destruct r as [|x r]; [by injection H as <- <-|]. apply Forall_cons_1 in Hgt as [Hgt _].
    cbn in H. rewrite Hgt in H. by injection H as <- <-. }
  split; [by apply (ordered_middle lt id)|]. split; [set_solver|].
  by exists p, r.
Qed.

Lemma set_find_spec k l : ordered lt id l → set_find lt k l = true ↔ k ∈ l.
Proof.
  intros Hl. unfold set_find. destruct (lower_split lt id k l) as [p r] eqn:Hs. cbn.
  destruct (lower_split_spec lt _ _ _ _ _ Hl Hs) as (-> & Hp & Hr).
  apply ordered_app in Hl as (_ & Hor & _).
  assert (k ∉ p) as Hkp. { rewrite Forall_forall in Hp. intros H. apply Hp in H. cbn in H. by rewrite sw_irrefl in H. }
  destruct r as [|x r]; [set_solver|]. apply Forall_cons_1 in Hr as [Hx Hr].
  destruct (lt k x) eqn:Hkx; cbn.
  - split; [done|]. intros H. exfalso.
    assert (k ∈ x :: r) as H' by set_solver.
    pose proof (rest_gt lt id k x r Hor Hkx) as Hg. rewrite Forall_forall in Hg.
    apply Hg in H'. cbn in H'. by rewrite sw_irrefl in H'.
  - split; [|done]. intros _. rewrite (lt_total x k) by done. set_solver.
Qed.

Lemma set_erase_spec k l :
  ordered lt id l →
  match set_erase lt k l with
  | Some l' => k ∈ l ∧ ordered lt id l' ∧ (∀ x, x ∈ l' ↔ x ∈ l ∧ x ≠ k) ∧ Permutation l (k :: l')
  | None => k ∉ l
  end.
Proof.
  intros Hl. unfold set_erase. destruct (lower_split lt id k l) as [p r] eqn:Hs.
  destruct (lower_split_spec lt _ _ _ _ _ Hl Hs) as (-> & Hp & Hr).
  pose proof (proj1 (ordered_app _ _ _ _) Hl) as (Hop & Hor & Hpr).
  assert (k ∉ p) as Hkp. { rewrite Forall_forall in Hp. intros H. apply Hp in H. cbn in H. by rewrite sw_irrefl in H. }
  destruct r as [|x r]; [set_solver|]. apply Forall_cons_1 in Hr as [Hx Hr].
  destruct (lt k x) eqn:Hkx.
  - pose proof (rest_gt lt id k x r Hor Hkx) as Hg. rewrite Forall_forall in Hg.
    intros H. assert (k ∈ x :: r) as H' by set_solver.
    apply Hg in H'. cbn in H'. by rewrite sw_irrefl in H'.
  - assert (x = k) as -> by (by apply lt_total).
    pose proof (lower_rest_gt lt id k k r Hor Hx Hkx) as Hg. rewrite Forall_forall in Hg.
    apply StronglySorted_inv in Hor as [Hor _].
    split; [set_solver|]. split.
    { apply ordered_app. split; [done|]. split; [done|]. intros y z Hy Hz. apply Hpr; set_solver. }
    split; [|by rewrite Permutation_middle].
    intros y. split; [|set_solver]. intros Hy. split; [set_solver|]. intros ->.
    apply elem_of_app in Hy as [Hy|Hy]; [done|]. apply Hg in Hy. cbn in Hy. by rewrite sw_irrefl in Hy.
Qed.

Lemma ordered_NoDup l : ordered lt id l → NoDup l.
Proof.
  induction 1 as [|x l Hl IH Hx]; constructor; [|done].
  intros H. rewrite Forall_forall in Hx. apply Hx in H. cbn in H. by rewrite sw_irrefl in H.
Qed.

End TotalSet.

(** The order of the listed keys is all that matters. *)
Lemma ordered_ext {K E} (lt lt' : K → K → bool) (key : E → K) l :
  (∀ x y, x ∈ l → y ∈ l → lt (key x) (key y) = lt' (key x) (key y)) →
  ordered lt key l → ordered lt' key l.
Proof.
  unfold ordered. intros H Hl. induction Hl as [|x l Hl IH Hx]; [constructor|].
  constructor; [apply IH; intros; apply H; set_solver|].
  rewrite Forall_forall in *. intros y Hy. rewrite <- H by set_solver. by apply Hx.
Qed.

(** ** std::map over a strict weak order *)

Section Map.
Context {K V : Type} (lt : K → K → bool) `{HSW : !StrictWeak lt}.
Implicit Types m : list (K * V).

(** Equivalence of keys. *)
Definition keq (x y : K) : Prop := equivb lt x y = true.

#[global] Instance keq_equiv : Equivalence keq.
Proof.
  split; unfold keq.
  - intros x. unfold equivb. by rewrite (sw_irrefl (lt := lt) x).
  - intros x y. unfold equivb. by rewrite andb_comm.
  - intros x y z H1 H2. unfold equivb in H2 |- *.
    by rewrite (lt_equiv_l lt x y z H1), (lt_equiv_r lt x y z H1).
Qed.

Lemma keq_lt_false x y : keq x y → lt x y = false ∧ lt y x = false.
Proof. unfold keq, equivb. rewrite andb_true_iff, !negb_true_iff. done. Qed.

Lemma lt_not_keq x y : lt x y = true → ¬ keq x y.
Proof. intros H [H1 _]%keq_lt_false. congruence. Qed.

(** Equivalent keys are the same key for every operation. *)
#[global] Instance lower_split_proper : Proper (keq ==> eq ==> eq) (lower_split (E := K * V) lt fst).
Proof.
  intros k k' Hk m ? <-. induction m as [|x m IH]; [done|]. cbn.
  rewrite (lt_equiv_r lt k k' (x.1) Hk). destruct (lt x.1 k'); [|done]. by rewrite IH.
Qed.

#[global] Instance map_find_proper : Proper (keq ==> eq ==> eq) (map_find (V := V) lt).
Proof.
  intros k k' Hk m ? <-. unfold map_find. rewrite (lower_split_proper k k' Hk m m eq_refl).
  destruct (lower_split lt fst k' m).2 as [|[j v] ?]; [done|]. by rewrite (lt_equiv_l lt k k' j Hk).
Qed.

Lemma map_find_in k v m :
  ordered lt fst m → map_find lt k m = Some v ↔ ∃ k', (k', v) ∈ m ∧ keq k' k.
Proof.
  intros Hm. unfold map_find. destruct (lower_split lt fst k m) as [p r] eqn:Hs. cbn.
  destruct (lower_split_spec lt _ _ _ _ _ Hm Hs) as (-> & Hp & Hr).
  apply ordered_app in Hm as (_ & Hor & _). rewrite Forall_forall in Hp, Hr. split.
  - destruct r as [|[k' v'] r]; [done|]. destruct (lt k k') eqn:Hk; [done|]. intros [= ->].
    exists k'. split; [set_solver|]. pose proof (Hr (k', v) ltac:(set_solver)) as Hk'. cbn in Hk'.
    unfold keq, equivb. by rewrite Hk, Hk'.
  - intros (k' & [Hin|Hin]%elem_of_app & Hkk).
    { apply Hp in Hin. cbn in Hin. by destruct (lt_not_keq _ _ Hin). }
    destruct r as [|[j w] r]; [set_solver|]. apply elem_of_cons in Hin as [[= -> ->]|Hin].
    { by rewrite (proj2 (keq_lt_false _ _ Hkk)). }
    apply StronglySorted_inv in Hor as [_ Hj]. rewrite Forall_forall in Hj. specialize (Hj _ Hin). cbn in Hj.
    rewrite (lt_equiv_r lt k' k j Hkk) in Hj. specialize (Hr (j, w) ltac:(set_solver)). cbn in Hr. congruence.
Qed.

Lemma map_assign_ordered k v m : ordered lt fst m → ordered lt fst (map_assign lt k v m).
Proof.
  intros Hm. unfold map_assign. destruct (lower_split lt fst k m) as [p r] eqn:Hs.
  destruct (lower_split_spec lt _ _ _ _ _ Hm Hs) as (-> & Hp & Hr).
  pose proof (proj1 (ordered_app _ _ _ _) Hm) as (Hop & Hor & Hpr).
  destruct r as [|[j w] r]; [by apply (ordered_middle lt fst p (k, v) [])|].
  destruct (lt k j) eqn:Hkj.
  - apply (ordered_middle lt fst p (k, v)); try done. by apply (rest_gt lt fst k (j, w) r).
  - apply (ordered_middle lt fst p (j, v)).
    + done.
    + by apply StronglySorted_inv in Hor as [? _].
    + rewrite Forall_forall. intros x Hx. apply (Hpr x (j, w)); set_solver.
    + by apply StronglySorted_inv in Hor as [_ ?].
Qed.

Lemma map_assign_in k v m j w :
  ordered lt fst m →
  (j, w) ∈ map_assign lt k v m →
  keq j k ∧ w = v ∨ (¬ keq j k) ∧ (j, w) ∈ m.
Proof.
  intros Hm. unfold map_assign. destruct (lower_split lt fst k m) as [p r] eqn:Hs.
  destruct (lower_split_spec lt _ _ _ _ _ Hm Hs) as (-> & Hp & Hr).
  apply ordered_app in Hm as (_ & Hor & _). rewrite Forall_forall in Hp.
  assert (∀ x, x ∈ p → ¬ keq x.1 k) as Hpk by (intros x Hx; by apply lt_not_keq, Hp).
  assert (∀ r' : list (K * V), Forall (λ y, lt k (fst y) = true) r' → ∀ x, x ∈ r' → ¬ keq x.1 k) as Hrk.
  { intros r' Hf x Hx Hk. rewrite Forall_forall in Hf. apply Hf in Hx. symmetry in Hk.
    by destruct (lt_not_keq _ _ Hx). }
  assert (keq k k) as Hkk by reflexivity.
  destruct r as [|[j0 w0] r].
  - intros [Hin|Hin]%elem_of_app; [right; split; [by apply (Hpk (j, w))|set_solver]|].
    apply list_elem_of_singleton in Hin as [= -> ->]. by left.
  - destruct (lt k j0) eqn:Hkj.
    + pose proof (rest_gt lt fst k (j0, w0) r Hor Hkj) as Hg.
      intros [Hin|[[= -> ->]|Hin]%elem_of_cons]%elem_of_app; [right|by left|right].
      * split; [by apply (Hpk (j, w))|set_solver].
      * split; [by apply (Hrk _ Hg (j, w))|set_solver].
    + apply Forall_cons_1 in Hr as [Hj0 _]. cbn in Hj0.
      pose proof (lower_rest_gt lt fst k (j0, w0) r Hor Hj0 Hkj) as Hg.
      intros [Hin|[[= -> ->]|Hin]%elem_of_cons]%elem_of_app; [right| |right].
      * split; [by apply (Hpk (j, w))|set_solver].
      * left. split; [|done]. unfold keq, equivb. by rewrite Hj0, Hkj.
      * split; [by apply (Hrk _ Hg (j, w))|set_solver].
Qed.

Lemma map_assign_has k v m :
  ordered lt fst m → ∃ j, (j, v) ∈ map_assign lt k v m ∧ keq j k.
Proof.
  intros Hm. unfold map_assign. destruct (lower_split lt fst k m) as [p r] eqn:Hs.
  destruct (lower_split_spec lt _ _ _ _ _ Hm Hs) as (-> & Hp & Hr).
  assert (keq k k) as Hkk by reflexivity.
  destruct r as [|[j0 w0] r]; [exists k; split; [set_solver|done]|]. destruct (lt k j0) eqn:Hkj.
  - exists k. split; [set_solver|done].
  - apply Forall_cons_1 in Hr as [Hj0 _]. cbn in Hj0. exists j0. split; [set_solver|].
    unfold keq, equivb. by rewrite Hj0, Hkj.
Qed.

Lemma map_assign_keeps k v m j w :
  ordered lt fst m → (¬ keq j k) → (j, w) ∈ m → (j, w) ∈ map_assign lt k v m.
Proof.
  intros Hm Hne Hin. unfold map_assign. destruct (lower_split lt fst k m) as [p r] eqn:Hs.
  destruct (lower_split_spec lt _ _ _ _ _ Hm Hs) as (-> & Hp & Hr).
  destruct r as [|[j0 w0] r]; [set_solver|]. destruct (lt k j0) eqn:Hkj; [set_solver|].
  apply Forall_cons_1 in Hr as [Hj0 _]. cbn in Hj0.
  assert (keq j0 k) by (unfold keq, equivb; by rewrite Hj0, Hkj).
  apply elem_of_app in Hin as [Hin|[[= -> ->]|Hin]%elem_of_cons]; [set_solver|done|set_solver].
Qed.

#[global] Instance keq_dec x y : Decision (keq x y).
Proof. unfold keq. apply _. Defined.

(** m[k] = v, read back: [v] for the keys equivalent to [k], the old value for
    all others. *)
Lemma map_find_assign j k v m :
  ordered lt fst m →
  map_find lt j (map_assign lt k v m) = (if decide (keq j k) then Some v else map_find lt j m).
Proof.
  intros Hm. pose proof (map_assign_ordered k v m Hm) as Hm'. case_decide as Hjk.
  - apply (map_find_in j v); [done|]. destruct (map_assign_has k v m Hm) as (i & Hi & Hik).
    exists i. split; [done|]. by rewrite Hik, Hjk.
  - apply option_eq. intros w. rewrite !map_find_in by done. split.
    + intros (i & Hi & Hij). destruct (map_assign_in k v m i w Hm Hi) as [[Hik _]|[_ Hin]].
      * destruct Hjk. by rewrite <- Hij.
      * by exists i.
    + intros (i & Hi & Hij). exists i. split; [|done]. apply map_assign_keeps; try done.
      intros Hik. destruct Hjk. by rewrite <- Hij.
Qed.

Lemma map_erase_in k m j w :
  ordered lt fst m → (j, w) ∈ map_erase lt k m ↔ (j, w) ∈ m ∧ ¬ keq j k.
Proof.
  intros Hm. unfold map_erase. destruct (lower_split lt fst k m) as [p r] eqn:Hs.
  destruct (lower_split_spec lt _ _ _ _ _ Hm Hs) as (Em & Hp & Hr). rewrite Em in Hm |- *.
  apply ordered_app in Hm as (_ & Hor & _). rewrite Forall_forall in Hp.
  assert (∀ x, x ∈ p → ¬ keq x.1 k) as Hpk by (intros x Hx; by apply lt_not_keq, Hp).
  assert (∀ r' : list (K * V), Forall (λ y, lt k (fst y) = true) r' → ∀ x, x ∈ r' → ¬ keq x.1 k) as Hrk.
  { intros r' Hf x Hx Hk. rewrite Forall_forall in Hf. apply Hf in Hx. symmetry in Hk.
    by destruct (lt_not_keq _ _ Hx). }
  destruct r as [|[j0 w0] r].
  - split; [|by intros [? _]]. intros Hin. split; [done|].
    apply elem_of_app in Hin as [Hin|?]; [by apply (Hpk (j, w))|set_solver].
  - destruct (lt k j0) eqn:Hkj.
    + pose proof (rest_gt lt fst k (j0, w0) r Hor Hkj) as Hg. split; [|by intros [? _]].
      intros Hin. split; [done|].
      apply elem_of_app in Hin as [Hin|Hin]; [by apply (Hpk (j, w))|by apply (Hrk _ Hg (j, w))].
    + apply Forall_cons_1 in Hr as [Hj0 _]. cbn in Hj0.
      pose proof (lower_rest_gt lt fst k (j0, w0) r Hor Hj0 Hkj) as Hg.
      assert (keq j0 k) as Hk0 by (unfold keq, equivb; by rewrite Hj0, Hkj).
      rewrite !elem_of_app, elem_of_cons. split.
      * intros [Hin|Hin]; [split; [by left|by apply (Hpk (j, w))]|].
        split; [by right; right|by apply (Hrk _ Hg (j, w))].
      * intros [[Hin|[[= -> ->]|Hin]] Hn]; [by left|done|by right].
Qed.

Lemma map_erase_ordered k m : ordered lt fst m → ordered lt fst (map_erase lt k m).
Proof.
  intros Hm. unfold map_erase. destruct (lower_split lt fst k m) as [p r] eqn:Hs.
  destruct (lower_split_spec lt _ _ _ _ _ Hm Hs) as (Em & Hp & Hr).
  destruct r as [|[j0 w0] r]; [done|]. destruct (lt k j0); [done|].
  rewrite Em in Hm. apply ordered_app in Hm as (Hop & Hor & Hpr).
  apply ordered_app. split; [done|]. split; [by apply StronglySorted_inv in Hor as [? _]|].
  intros x y Hx Hy. apply Hpr; set_solver.
Qed.

Lemma map_find_erase j k m :
  ordered lt fst m →
  map_find lt j (map_erase lt k m) = (if decide (keq j k) then None else map_find lt j m).
Proof.
  intros Hm. pose proof (map_erase_ordered k m Hm) as Hm'. apply option_eq. intros w.
  rewrite map_find_in by done. setoid_rewrite map_erase_in; [|done]. case_decide as Hjk.
  - split; [|done]. intros (i & [_ Hn] & Hij). destruct Hn. by rewrite Hij.
  - rewrite map_find_in by done. split.
    + intros (i & [Hi _] & Hij). by exists i.
    + intros (i & Hi & Hij). exists i. split; [|done]. split; [done|]. intros Hik. destruct Hjk. by rewrite <- Hij.
Qed.

End Map.
