(* ===== verification/Timer.v ===== *)
(** Timer and TimerManager (skt/timer/timer.h, skt/timer/timer.cpp).

    Timer objects live in a heap, a finite map from addresses to objects:
    user code keeps a shared_ptr to a timer the manager also holds, and both
    see every update. The manager's std::set holds the addresses, ordered by
    the comparator, which reads the heap; the set is a list in iteration
    order (StdOrdered). What skt::GetCurrentMs() returns and the address
    [new] returns are arguments of the operations. The virtual method
    onTimerInsertedAtFront is the interface [TimerHost] that the class
    deriving from TimerManager implements. *)

From stdpp Require Import base list gmap sorting sets.
From Stdlib Require Import Lia.
From S2P Require Import Prelude StdOrdered.

(** ** Data *)

(** A std::function<void()>: a function of the user, or OnTimer bound to a
    weak_ptr and a function. *)
Inductive callback : Type :=
| UserCb (id : Z)
| BindOnTimer (weak_cond : Z) (cb : callback).

(** Calling it: the user functions that run, given which objects are still
    alive. *)
Fixpoint OnTimer (alive : Z → bool) (cb : callback) : list Z :=
  match cb with
  | UserCb id => [id]
  | BindOnTimer weak_cond cb => if alive weak_cond then OnTimer alive cb else []
  end.

Record Timer : Type := mkTimer {
  m_recurring : bool;
  m_ms : Z;
  m_next : Z;
  m_cb : option callback
}.

#[global] Instance callback_eq_dec : EqDecision callback.
Proof. solve_decision. Defined.
#[global] Instance Timer_eq_dec : EqDecision Timer.
Proof. solve_decision. Defined.

Definition set_next (n : Z) (t : Timer) : Timer :=
  mkTimer (m_recurring t) (m_ms t) n (m_cb t).
Definition set_ms (n : Z) (t : Timer) : Timer :=
  mkTimer (m_recurring t) n (m_next t) (m_cb t).
Definition clear_cb (t : Timer) : Timer :=
  mkTimer (m_recurring t) (m_ms t) (m_next t) None.

(** The two constructors of Timer. *)
Definition Timer_new (now ms : Z) (cb : option callback) (recurring : bool) : Timer :=
  mkTimer recurring ms (u64 (now + ms)) cb.
Definition Timer_at (next : Z) : Timer := mkTimer false 0 next None.

Abbreviation heap := (gmap Z Timer).

(** m_next of the object at an address. *)
Definition next_of (h : heap) (a : Z) : Z :=
  match h !! a with Some t => m_next t | None => 0 end.

(** Timer::Comparator on two shared_ptrs. *)
Definition Comparator (h : heap) (lhs rhs : option Z) : bool :=
  match lhs, rhs with
  | None, None => false
  | None, Some _ => true
  | Some _, None => false
  | Some l, Some r =>
    if next_of h l <? next_of h r then true
    else if next_of h r <? next_of h l then false
    else l <? r
  end.

Definition timer_lt (h : heap) (l r : Z) : bool := Comparator h (Some l) (Some r).

(** What a class deriving from TimerManager does when a new timer became the
    earliest. *)
Class TimerHost (H : Type) : Type := onTimerInsertedAtFront : H → H.

Record TimerManager (H : Type) : Type := mkTM {
  timers_heap : heap;          (* every Timer object alive *)
  m_timers : list Z;
  m_tickled : bool;
  m_previouseTime : Z;
  host : H                     (* the members of the derived class *)
}.
Arguments mkTM {H} _ _ _ _ _.
Arguments timers_heap {H} _.
Arguments m_timers {H} _.
Arguments m_tickled {H} _.
Arguments m_previouseTime {H} _.
Arguments host {H} _.

(** ** Operations *)

Section Operations.
Context {H : Type} `{TH : TimerHost H}.

Definition upd_heap (f : heap → heap) (m : TimerManager H) : TimerManager H :=
  mkTM (f (timers_heap m)) (m_timers m) (m_tickled m) (m_previouseTime m) (host m).
Definition with_timers (l : list Z) (m : TimerManager H) : TimerManager H :=
  mkTM (timers_heap m) l (m_tickled m) (m_previouseTime m) (host m).
Definition with_tickled (b : bool) (m : TimerManager H) : TimerManager H :=
  mkTM (timers_heap m) (m_timers m) b (m_previouseTime m) (host m).
Definition with_prev (p : Z) (m : TimerManager H) : TimerManager H :=
  mkTM (timers_heap m) (m_timers m) (m_tickled m) p (host m).
Definition with_host (x : H) (m : TimerManager H) : TimerManager H :=
  mkTM (timers_heap m) (m_timers m) (m_tickled m) (m_previouseTime m) x.

(** The object [this] points to. *)
Definition self (a : Z) : M (TimerManager H) Timer :=
  m ← mget; mderef NullDeref (timers_heap m !! a).
Definition store (a : Z) (t : Timer) : M (TimerManager H) unit :=
  mmodify (upd_heap (<[a := t]>)).

(** m_timers.find(a) != m_timers.end() *)
Definition timers_find (a : Z) : M (TimerManager H) bool :=
  m ← mget; mret (set_find (timer_lt (timers_heap m)) a (m_timers m)).
(** m_timers.erase(m_timers.find(a)) *)
Definition timers_erase (a : Z) : M (TimerManager H) unit :=
  m ← mget;
  l ← mderef BadIterator (set_erase (timer_lt (timers_heap m)) a (m_timers m));
  mput (with_timers l m).
(** m_timers.insert(a).first, as a position *)
Definition timers_insert (a : Z) : M (TimerManager H) nat :=
  m ← mget;
  let '(l, n) := set_insert (timer_lt (timers_heap m)) a (m_timers m) in
  mput (with_timers l m);; mret n.

Definition TimerManager_new (now : Z) (x : H) : TimerManager H := mkTM ∅ [] false now x.

(** TimerManager::addTimer(Timer::ptr, lock) *)
Definition addTimer_lock (val : Z) : M (TimerManager H) unit :=
  it ← timers_insert val;
  m ← mget;
  let at_front := (it =? 0)%nat && negb (m_tickled m) in
  (if at_front then mput (with_tickled true m) else mret tt);;
  if at_front
  then mmodify (λ m, with_host (onTimerInsertedAtFront (host m)) m)
  else mret tt.

Definition addTimer (now addr ms : Z) (cb : option callback) (recurring : bool)
  : M (TimerManager H) Z :=
  store addr (Timer_new now ms cb recurring);;
  addTimer_lock addr;;
  mret addr.

(** std::bind of an empty function is not empty: OnTimer is what is bound;
    calling it calls the empty function only when the condition is alive. The
    model takes non-empty functions here. *)
Definition addConditionTimer (now addr ms : Z) (cb : callback) (weak_cond : Z) (recurring : bool)
  : M (TimerManager H) Z :=
  addTimer now addr ms (Some (BindOnTimer weak_cond cb)) recurring.

Definition cancel (a : Z) : M (TimerManager H) bool :=
  t ← self a;
  match m_cb t with
  | Some _ => store a (clear_cb t);; timers_erase a;; mret true
  | None => mret false
  end.

Definition refresh (now a : Z) : M (TimerManager H) bool :=
  t ← self a;
  match m_cb t with
  | None => mret false
  | Some _ =>
    found ← timers_find a;
    if negb found then mret false
    else
      timers_erase a;;
      store a (set_next (u64 (now + m_ms t)) t);;
      timers_insert a;;
      mret true
  end.

Definition reset (now a ms : Z) (from_now : bool) : M (TimerManager H) bool :=
  t ← self a;
  if (ms =? m_ms t) && negb from_now then mret true
  else
    match m_cb t with
    | None => mret false
    | Some _ =>
      found ← timers_find a;
      if negb found then mret false
      else
        timers_erase a;;
        let start := if from_now then now else u64 (m_next t - m_ms t) in
        store a (set_next (u64 (start + ms)) (set_ms ms t));;
        addTimer_lock a;;
        mret true
    end.

Definition getNextTimer (now_ms : Z) : M (TimerManager H) Z :=
  mmodify (with_tickled false);;
  m ← mget;
  match m_timers m with
  | [] => mret (2 ^ 64 - 1)
  | next :: _ =>
    t ← self next;
    if m_next t <? now_ms then mret 0 else mret (u64 (m_next t - now_ms))
  end.

Definition detectClockRollover (now_ms : Z) : M (TimerManager H) bool :=
  m ← mget;
  let rollover := (now_ms <? m_previouseTime m)
    && (now_ms <? u64 (m_previouseTime m - 60 * 60 * 1000)) in
  mput (with_prev now_ms m);;
  mret rollover.

(** [while(it != end() && ( *it)->m_next == now_ms) ++it]: what it passes and
    what it leaves. *)
Fixpoint skip_due (h : heap) (now_ms : Z) (l : list Z) : list Z * list Z :=
  match l with
  | a :: l' =>
    if next_of h a =? now_ms then let '(p, r) := skip_due h now_ms l' in (a :: p, r) else ([], l)
  | [] => ([], [])
  end.

(** The loop over the expired timers. *)
Fixpoint expire_loop (now_ms : Z) (expired : list Z) (cbs : list (option callback))
  : M (TimerManager H) (list (option callback)) :=
  match expired with
  | [] => mret cbs
  | a :: expired' =>
    t ← self a;
    (if m_recurring t
     then store a (set_next (u64 (now_ms + m_ms t)) t);; timers_insert a;; mret tt
     else store a (clear_cb t));;
    expire_loop now_ms expired' (cbs ++ [m_cb t])
  end.

(** TimerManager::listExpiredCb; [tmp] is the address of now_timer, freed on
    return. *)
Definition listExpiredCb (now_ms tmp : Z) (cbs : list (option callback))
  : M (TimerManager H) (list (option callback)) :=
  m ← mget;
  match m_timers m with
  | [] => mret cbs
  | first :: _ =>
    rollover ← detectClockRollover now_ms;
    t ← self first;
    if negb rollover && (now_ms <? m_next t) then mret cbs
    else
      let h := <[tmp := Timer_at now_ms]> (timers_heap m) in
      let '(before, from) :=
        if rollover then (m_timers m, []) else lower_split (timer_lt h) id tmp (m_timers m) in
      let '(due, rest) := skip_due (timers_heap m) now_ms from in
      mmodify (with_timers rest);;
      expire_loop now_ms (before ++ due) cbs
  end.

Definition hasTimer : M (TimerManager H) bool :=
  m ← mget; mret (negb (bool_decide (m_timers m = []))).

(** The last shared_ptr outside the manager goes away: the object is freed
    unless the set still holds it. *)
Definition release (a : Z) : M (TimerManager H) unit :=
  mmodify (λ m, if bool_decide (a ∈ m_timers m) then m else upd_heap (delete a) m).

End Operations.

(** ** The order *)

#[global] Instance timer_lt_strict h : StrictWeak (timer_lt h).
Proof.
  split; unfold timer_lt, Comparator; intros; repeat case_match; lia.
Qed.

Lemma timer_lt_total h x y : timer_lt h x y = false → timer_lt h y x = false → x = y.
Proof. unfold timer_lt, Comparator. repeat case_match; lia. Qed.

Lemma next_of_insert_ne h a b t : a ≠ b → next_of (<[a := t]> h) b = next_of h b.
Proof. intros Hab. unfold next_of. by rewrite lookup_insert_ne. Qed.

Lemma next_of_insert h a t : next_of (<[a := t]> h) a = m_next t.
Proof. unfold next_of. by rewrite lookup_insert_eq. Qed.

(** The order of timers that are not touched does not change. *)
Lemma ordered_update h a t l :
  a ∉ l → ordered (timer_lt h) id l → ordered (timer_lt (<[a := t]> h)) id l.
Proof.
  intros Ha. apply ordered_ext. intros x y Hx Hy. cbn. unfold timer_lt, Comparator.
  by rewrite !next_of_insert_ne by set_solver.
Qed.

Lemma ordered_next h h' l :
  (∀ a, a ∈ l → next_of h a = next_of h' a) →
  ordered (timer_lt h) id l → ordered (timer_lt h') id l.
Proof.
  intros E. apply ordered_ext. intros x y Hx Hy. cbn. unfold timer_lt, Comparator.
  by rewrite !E.
Qed.

(** The earliest timer comes first. *)
Lemma ordered_first h a l b :
  ordered (timer_lt h) id (a :: l) → b ∈ a :: l → next_of h a ≤ next_of h b.
Proof.
  intros [_ Ha]%StronglySorted_inv [->|Hb]%elem_of_cons; [lia|].
  rewrite Forall_forall in Ha. specialize (Ha b Hb). revert Ha.
  cbn. unfold timer_lt, Comparator. repeat case_match; lia.
Qed.

(** ** The invariant *)

Section Invariant.
Context {H : Type} `{TH : TimerHost H}.
Implicit Types m : TimerManager H.

(** The set is sorted by deadline, holds only live timers, and holds every
    timer that has a callback, but for those in [P], which an operation has
    taken out and not dealt with yet. *)
Record tm_inv_but (P : list Z) m : Prop := {
  inv_sorted : ordered (timer_lt (timers_heap m)) id (m_timers m);
  inv_alloc a : a ∈ m_timers m → is_Some (timers_heap m !! a);
  inv_armed a t : timers_heap m !! a = Some t → is_Some (m_cb t) → a ∈ m_timers m ∨ a ∈ P
}.

Definition tm_inv m : Prop := tm_inv_but [] m.

Lemma armed_in a t m :
  tm_inv m → timers_heap m !! a = Some t → is_Some (m_cb t) → a ∈ m_timers m.
Proof. intros HI Ha Hcb. destruct (inv_armed _ _ HI a t Ha Hcb); [done|set_solver]. Qed.

Lemma self_spec a m t : timers_heap m !! a = Some t → self a m = Ok t m.
Proof. intros E. unfold self. mred. by rewrite E. Qed.

Lemma self_alloc P a m :
  tm_inv_but P m → a ∈ m_timers m → ∃ t, timers_heap m !! a = Some t ∧ self a m = Ok t m.
Proof. intros HI Ha. destruct (inv_alloc _ _ HI a Ha) as [t Ht]. exists t. by rewrite (self_spec a m t). Qed.

Lemma timers_find_spec P a m :
  tm_inv_but P m → timers_find a m = Ok (bool_decide (a ∈ m_timers m)) m.
Proof.
  intros HI. unfold timers_find. mred. f_equal.
  pose proof (set_find_spec _ (timer_lt_total (timers_heap m)) a _ (inv_sorted _ _ HI)) as E.
  case_bool_decide; destruct (set_find _ _ _); naive_solver.
Qed.

Lemma timers_erase_spec P a m :
  tm_inv_but P m → a ∈ m_timers m →
  ∃ l, timers_erase a m = Ok tt (with_timers l m) ∧ tm_inv_but (a :: P) (with_timers l m) ∧
    (∀ x, x ∈ l ↔ x ∈ m_timers m ∧ x ≠ a).
Proof.
  intros HI Ha. unfold timers_erase. mred.
  pose proof (set_erase_spec _ (timer_lt_total (timers_heap m)) a _ (inv_sorted _ _ HI)) as E.
  destruct (set_erase _ _ _) as [l|]; [|done]. destruct E as (_ & Ho & Hl & _).
  exists l. split; [done|]. split; [|done]. split; cbn; [done|..].
  - intros b Hb. apply (inv_alloc _ _ HI). by apply Hl.
  - intros b t Hb Hcb. destruct (decide (b = a)) as [->|]; [set_solver|].
    destruct (inv_armed _ _ HI b t Hb Hcb); set_solver.
Qed.

Lemma timers_insert_spec P a m :
  tm_inv_but (a :: P) m → is_Some (timers_heap m !! a) → a ∉ m_timers m →
  ∃ l n, timers_insert a m = Ok n (with_timers l m) ∧ tm_inv_but P (with_timers l m) ∧
    (∀ x, x ∈ l ↔ x = a ∨ x ∈ m_timers m) ∧ (n = 0%nat ↔ head l = Some a) ∧
    (n ≠ 0%nat → head l = head (m_timers m)).
Proof.
  intros HI Hal Ha. unfold timers_insert. mred.
  destruct (set_insert (timer_lt (timers_heap m)) a (m_timers m)) as [l n] eqn:E.
  destruct (set_insert_spec _ (timer_lt_total (timers_heap m)) a _ l n (inv_sorted _ _ HI) Ha E)
    as (Ho & Hl & p & r & Hpr & -> & -> & _).
  exists (p ++ a :: r), (length p). split; [done|]. split.
  { split; cbn; [done|..].
    - intros b [->|Hb]%Hl; [done|]. by apply (inv_alloc _ _ HI).
    - intros b t Hb Hcb. destruct (inv_armed _ _ HI b t Hb Hcb); set_solver. }
  split; [done|]. rewrite Hpr in Ha |- *. destruct p as [|b p]; cbn.
  - split; done.
  - split; [|done]. split; [done|]. intros [= ->]. set_solver.
Qed.

(** Writing a timer that is not in the set. *)
Lemma inv_store P a t m :
  tm_inv_but P m → a ∉ m_timers m → tm_inv_but (a :: P) (upd_heap (<[a := t]>) m).
Proof.
  intros HI Ha. split; cbn.
  - apply ordered_update; [done|]. apply HI.
  - intros b Hb. rewrite lookup_insert_ne by set_solver. by apply (inv_alloc _ _ HI).
  - intros b u. destruct (decide (b = a)) as [->|]; [set_solver|].
    rewrite lookup_insert_ne by done. intros Hb Hcb.
    destruct (inv_armed _ _ HI b u Hb Hcb); set_solver.
Qed.

(** An address may leave the exceptions when its timer has no callback or is
    in the set. *)
Lemma inv_settle P a m :
  tm_inv_but (a :: P) m →
  (∀ t, timers_heap m !! a = Some t → is_Some (m_cb t) → a ∈ m_timers m) → tm_inv_but P m.
Proof.
  intros HI Ha. split; [apply HI|by apply (inv_alloc _ _ HI)|].
  intros b t Hb Hcb. destruct (inv_armed _ _ HI b t Hb Hcb) as [|[->|]%elem_of_cons]; [by left| |by right].
  left. by eapply Ha.
Qed.

Lemma inv_weaken P P' m : tm_inv_but P m → P ⊆ P' → tm_inv_but P' m.
Proof.
  intros HI HP. split; [apply HI|by apply (inv_alloc _ _ HI)|].
  intros b t Hb Hcb. destruct (inv_armed _ _ HI b t Hb Hcb); set_solver.
Qed.

Lemma inv_frame P m m' :
  timers_heap m' = timers_heap m → m_timers m' = m_timers m → tm_inv_but P m → tm_inv_but P m'.
Proof. intros E1 E2 HI. split; rewrite ?E1, ?E2; apply HI. Qed.

End Invariant.



(** ** What each operation does *)

Section Specs.
Context {H : Type} `{TH : TimerHost H}.
Implicit Types m : TimerManager H.

(** The manager after a timer has been put into the set: the host is told
    exactly when the timer is the new earliest one and no earlier
    notification is pending. *)
Definition after_insert (h : heap) (l : list Z) (a : Z) m : TimerManager H :=
  let at_front := bool_decide (head l = Some a) && negb (m_tickled m) in
  mkTM h l (m_tickled m || at_front) (m_previouseTime m)
    (if at_front then onTimerInsertedAtFront (host m) else host m).

Lemma addTimer_lock_spec a m :
  tm_inv_but [a] m → is_Some (timers_heap m !! a) → a ∉ m_timers m →
  ∃ l, addTimer_lock a m = Ok tt (after_insert (timers_heap m) l a m) ∧
    tm_inv (after_insert (timers_heap m) l a m) ∧
    (∀ x, x ∈ l ↔ x = a ∨ x ∈ m_timers m) ∧
    (head l = Some a ∨ head l = head (m_timers m)).
Proof.
  intros HI Hal Ha.
  destruct (timers_insert_spec [] a m HI Hal Ha) as (l & n & E & HI' & Hl & Hn & Hn').
  exists l. split; [|split; [by eapply inv_frame, HI'|split; [done|]]].
  - unfold addTimer_lock. run E. mred. unfold after_insert.
    destruct (Nat.eqb_spec n 0) as [Hz|Hz]; cbn.
    + rewrite bool_decide_true by (by apply Hn). destruct m; cbn. by destruct m_tickled0.
    + rewrite bool_decide_false by naive_solver. destruct m; cbn. by rewrite orb_false_r.
  - destruct n; [left; by apply Hn|right; by apply Hn'].
Qed.

Lemma addTimer_spec now a ms cb rec m :
  tm_inv m → timers_heap m !! a = None →
  ∃ l, let m' := after_insert (<[a := Timer_new now ms cb rec]> (timers_heap m)) l a m in
    addTimer now a ms cb rec m = Ok a m' ∧ tm_inv m' ∧
    (∀ x, x ∈ l ↔ x = a ∨ x ∈ m_timers m) ∧
    (head l = Some a ∨ head l = head (m_timers m)).
Proof.
  intros HI Ha.
  assert (a ∉ m_timers m) as Hn.
  { intros Hin. destruct (inv_alloc _ _ HI a Hin) as [t Ht]. congruence. }
  destruct (addTimer_lock_spec a (upd_heap (<[a := Timer_new now ms cb rec]>) m)) as (l & E & HI' & Hl).
  - by apply inv_store.
  - cbn. rewrite lookup_insert_eq. by eexists.
  - done.
  - exists l. split; [|by split].
    unfold addTimer, store. rewrite bind_modify.
    rewrite (bind_ok _ _ _ _ _ E). done.
Qed.

Lemma cancel_spec a m t :
  tm_inv m → timers_heap m !! a = Some t →
  match m_cb t with
  | None => cancel a m = Ok false m
  | Some _ => ∃ l, let m' := with_timers l (upd_heap (<[a := clear_cb t]>) m) in
      cancel a m = Ok true m' ∧ tm_inv m' ∧ (∀ x, x ∈ l ↔ x ∈ m_timers m ∧ x ≠ a)
  end.
Proof.
  intros HI Ha. unfold cancel. rewrite (bind_ok _ _ _ _ _ (self_spec a m t Ha)).
  destruct (m_cb t) as [cb|] eqn:Hcb; [|done].
  assert (a ∈ m_timers m) as Hin.
  { apply (armed_in a t); [done..|]. by rewrite Hcb. }
  assert (tm_inv (upd_heap (<[a := clear_cb t]>) m)) as HI1.
  { split; cbn.
    - eapply ordered_next; [|apply HI]. intros b Hb. unfold next_of.
      destruct (decide (b = a)) as [->|]; [by rewrite lookup_insert_eq, Ha|by rewrite lookup_insert_ne].
    - intros b Hb. destruct (decide (b = a)) as [->|]; [rewrite lookup_insert_eq; by eexists|].
      rewrite lookup_insert_ne by done. by apply (inv_alloc _ _ HI).
    - intros b u Hb Hu. destruct (decide (b = a)) as [->|]; [by left|].
      rewrite lookup_insert_ne in Hb by done. by apply (inv_armed _ _ HI b u). }
  destruct (timers_erase_spec [] a _ HI1 Hin) as (l & E & HI2 & Hl).
  exists l. unfold store. rewrite bind_modify.
  rewrite (bind_ok _ _ _ _ _ E). split; [done|]. split; [|done].
  apply (inv_settle [] a); [done|]. intros u. cbn. rewrite lookup_insert_eq. intros [= <-] [? [=]].
Qed.

(** Taking a timer out of the set and giving it new times. *)
Lemma retime_spec a m t t' :
  tm_inv m → timers_heap m !! a = Some t → is_Some (m_cb t) → 
  ∃ l, timers_find a m = Ok true m ∧ timers_erase a m = Ok tt (with_timers l m) ∧
    let m1 := upd_heap (<[a := t']>) (with_timers l m) in
    tm_inv_but [a] m1 ∧ is_Some (timers_heap m1 !! a) ∧ (a ∉ m_timers m1) ∧
    (∀ x, x ∈ l ↔ x ∈ m_timers m ∧ x ≠ a).
Proof.
  intros HI Ha Hcb.
  assert (a ∈ m_timers m) as Hin.
  { by apply (armed_in a t). }
  destruct (timers_erase_spec [] a m HI Hin) as (l & E & HI1 & Hl).
  exists l. rewrite (timers_find_spec [] a m HI), bool_decide_true by done.
  split; [done|]. split; [done|]. split_and!; [|cbn; rewrite lookup_insert_eq; by eexists|set_solver|done].
  eapply inv_weaken; [apply inv_store; [exact HI1|set_solver]|set_solver].
Qed.

Lemma refresh_spec now a m t :
  tm_inv m → timers_heap m !! a = Some t →
  match m_cb t with
  | None => refresh now a m = Ok false m
  | Some _ => ∃ l,
      let m' := with_timers l (upd_heap (<[a := set_next (u64 (now + m_ms t)) t]>) m) in
      refresh now a m = Ok true m' ∧ tm_inv m' ∧ (∀ x, x ∈ l ↔ x ∈ m_timers m)
  end.
Proof.
  intros HI Ha. unfold refresh. rewrite (bind_ok _ _ _ _ _ (self_spec a m t Ha)).
  destruct (m_cb t) as [cb|] eqn:Hcb; [|done].
  destruct (retime_spec a m t (set_next (u64 (now + m_ms t)) t) HI Ha) as (l & E1 & E2 & HI1 & Hal & Hn & Hl);
    [by rewrite Hcb|].
  destruct (timers_insert_spec [] a _ HI1 Hal Hn) as (l' & n & E3 & HI2 & Hl' & _).
  rewrite (bind_ok _ _ _ _ _ E1). cbn [negb]. rewrite (bind_ok _ _ _ _ _ E2).
  unfold store. rewrite bind_modify.
  rewrite (bind_ok _ _ _ _ _ E3). exists l'. split; [done|]. split; [done|].
  intros x. rewrite Hl'. cbn. rewrite Hl. pose proof (armed_in a t m HI Ha) as Hin.
  rewrite Hcb in Hin. destruct (decide (x = a)) as [->|]; naive_solver.
Qed.

Lemma reset_spec now a ms from_now m t :
  tm_inv m → timers_heap m !! a = Some t →
  if (ms =? m_ms t) && negb from_now then reset now a ms from_now m = Ok true m
  else match m_cb t with
  | None => reset now a ms from_now m = Ok false m
  | Some _ => ∃ l,
      let start := if from_now then now else u64 (m_next t - m_ms t) in
      let t' := set_next (u64 (start + ms)) (set_ms ms t) in
      let m' := after_insert (<[a := t']> (timers_heap m)) l a m in
      reset now a ms from_now m = Ok true m' ∧ tm_inv m' ∧ (∀ x, x ∈ l ↔ x ∈ m_timers m)
  end.
Proof.
  intros HI Ha. unfold reset. rewrite (bind_ok _ _ _ _ _ (self_spec a m t Ha)).
  destruct ((ms =? m_ms t) && negb from_now); [done|].
  destruct (m_cb t) as [cb|] eqn:Hcb; [|done]. cbv zeta.
  set (t' := set_next _ _).
  destruct (retime_spec a m t t' HI Ha) as (l & E1 & E2 & HI1 & Hal & Hn & Hl);
    [by rewrite Hcb|].
  destruct (addTimer_lock_spec a _ HI1 Hal Hn) as (l' & E3 & HI2 & Hl' & _).
  rewrite (bind_ok _ _ _ _ _ E1). cbn [negb]. rewrite (bind_ok _ _ _ _ _ E2).
  unfold store. rewrite bind_modify.
  rewrite (bind_ok _ _ _ _ _ E3). exists l'. split; [done|]. split; [done|].
  intros x. rewrite Hl'. cbn. rewrite Hl. pose proof (armed_in a t m HI Ha) as Hin.
  rewrite Hcb in Hin. destruct (decide (x = a)) as [->|]; naive_solver.
Qed.

End Specs.

(** ** Expiry *)

Lemma skip_due_spec h now l d rest :
  ordered (timer_lt h) id l → Forall (λ a, now ≤ next_of h a) l → skip_due h now l = (d, rest) →
  d ++ rest = l ∧ Forall (λ a, next_of h a ≤ now) d ∧ Forall (λ a, ¬ next_of h a ≤ now) rest.
Proof.
  intros Hl. revert d rest. induction l as [|a l IH]; cbn; intros d rest Hge.
  { intros [= <- <-]. done. }
  apply Forall_cons_1 in Hge as [Ha Hge]. destruct (Z.eqb_spec (next_of h a) now) as [E|E].
  - destruct (skip_due h now l) as [d' r'] eqn:Hs. intros [= <- <-].
    apply StronglySorted_inv in Hl as [Hl _].
    destruct (IH Hl d' r' Hge eq_refl) as (<- & Hd & Hr).
    split; [done|]. split; [constructor; [lia|done]|done].
  - intros [= <- <-]. split; [done|]. split; [done|]. rewrite Forall_forall. intros b Hb.
    pose proof (ordered_first h a l b Hl Hb). lia.
Qed.

(** Where the two searches of listExpiredCb end: after the timers due, for
    every address the temporary may have. *)
Lemma expired_split h now tmp l p r d rest :
  ordered (timer_lt h) id l → tmp ∉ l →
  lower_split (timer_lt (<[tmp := Timer_at now]> h)) id tmp l = (p, r) →
  skip_due h now r = (d, rest) →
  (p ++ d) ++ rest = l ∧ Forall (λ a, next_of h a ≤ now) (p ++ d) ∧
  Forall (λ a, ¬ next_of h a ≤ now) rest.
Proof.
  intros Hl Htmp Hs Hd.
  destruct (lower_split_spec _ _ _ _ _ _ (ordered_update h tmp (Timer_at now) l Htmp Hl) Hs)
    as (-> & Hp & Hr).
  apply ordered_app in Hl as (_ & Hor & _).
  assert (∀ x, x ∈ p ++ r → next_of (<[tmp := Timer_at now]> h) x = next_of h x) as Hnx.
  { intros x Hx. apply next_of_insert_ne. set_solver. }
  assert (next_of (<[tmp := Timer_at now]> h) tmp = now) as Hnow by apply next_of_insert.
  assert (Forall (λ a, next_of h a ≤ now) p) as Hple.
  { rewrite Forall_forall in Hp |- *. intros x Hx. specialize (Hp x Hx). revert Hp. cbn.
    unfold timer_lt, Comparator. rewrite Hnow, Hnx by set_solver. repeat case_match; lia. }
  assert (Forall (λ a, now ≤ next_of h a) r) as Hrge.
  { rewrite Forall_forall in Hr |- *. intros x Hx. specialize (Hr x Hx). revert Hr. cbn.
    unfold timer_lt, Comparator. rewrite Hnow, Hnx by set_solver. repeat case_match; lia. }
  destruct (skip_due_spec h now r d rest Hor Hrge Hd) as (<- & Hd1 & Hd2).
  split; [by rewrite (assoc_L (++))|]. split; [by apply Forall_app|done].
Qed.

Lemma filter_split {A} (P : A → Prop) `{∀ x, Decision (P x)} l1 l2 :
  Forall P l1 → Forall (λ x, ¬ P x) l2 → filter P (l1 ++ l2) = l1.
Proof.
  intros H1 H2. rewrite filter_app.
  assert (filter P l1 = l1) as ->.
  { induction H1; [done|]. rewrite filter_cons_True by done. by f_equal. }
  assert (filter P l2 = []) as ->.
  { induction H2; [done|]. by rewrite filter_cons_False. }
  apply app_nil_r.
Qed.

(** The specification of expiry: the timers due at [now], a timer after it
    fired, and its callback before. *)
Definition due (h : heap) (now : Z) (l : list Z) : list Z :=
  filter (λ a, next_of h a ≤ now) l.
Definition rearm (now : Z) (t : Timer) : Timer :=
  if m_recurring t then set_next (u64 (now + m_ms t)) t else clear_cb t.
Definition cb_of (h : heap) (a : Z) : option callback :=
  match h !! a with Some t => m_cb t | None => None end.
Definition recurring_of (h : heap) (a : Z) : bool :=
  match h !! a with Some t => m_recurring t | None => false end.

Section Expiry.
Context {H : Type} `{TH : TimerHost H}.
Implicit Types m : TimerManager H.

(** What firing the timers [ex] leaves behind. *)
Definition fired (now : Z) (ex : list Z) (h : heap) (l : list Z) m' : Prop :=
  (∀ x, x ∈ m_timers m' ↔ x ∈ l ∨ x ∈ ex ∧ recurring_of h x = true) ∧
  (∀ a, timers_heap m' !! a = if bool_decide (a ∈ ex) then rearm now <$> h !! a else h !! a).

Lemma expire_one now a P m t :
  tm_inv_but (a :: P) m → timers_heap m !! a = Some t → a ∉ m_timers m →
  ∃ l, let m' := with_timers l (upd_heap (<[a := rearm now t]>) m) in
  (if m_recurring t
   then store a (set_next (u64 (now + m_ms t)) t);; timers_insert a;; mret tt
   else store a (clear_cb t)) m = Ok tt m' ∧ tm_inv_but P m' ∧
  (∀ x, x ∈ l ↔ x ∈ m_timers m ∨ x = a ∧ m_recurring t = true).
Proof.
  intros HI Ha Hn. unfold rearm.
  assert (∀ t', tm_inv_but (a :: P) (upd_heap (<[a := t']>) m)) as Hst.
  { intros t'. eapply inv_weaken; [by apply inv_store|set_solver]. }
  destruct (m_recurring t) eqn:Hr.
  - set (t' := set_next _ _).
    destruct (timers_insert_spec P a (upd_heap (<[a := t']>) m)) as (l & n & E & HI' & Hl & _);
      [apply Hst|cbn; rewrite lookup_insert_eq; by eexists|done|].
    exists l. unfold store. rewrite bind_modify, (bind_ok _ _ _ _ _ E).
    split; [done|]. split; [done|]. intros x. rewrite Hl. cbn. naive_solver.
  - exists (m_timers m). split; [by destruct m|]. split.
    + apply (inv_settle P a).
      * eapply inv_frame; [| |apply (Hst (clear_cb t))]; done.
      * intros u. cbn. rewrite lookup_insert_eq. intros [= <-] [? [=]].
    + naive_solver.
Qed.

Lemma expire_loop_spec now ex cbs m :
  tm_inv_but ex m → NoDup ex → (∀ a, a ∈ ex → (a ∉ m_timers m) ∧ is_Some (timers_heap m !! a)) →
  ∃ m', expire_loop now ex cbs m = Ok (cbs ++ (cb_of (timers_heap m) <$> ex)) m' ∧ tm_inv m' ∧
    fired now ex (timers_heap m) (m_timers m) m' ∧
    m_tickled m' = m_tickled m ∧ m_previouseTime m' = m_previouseTime m ∧ host m' = host m.
Proof.
  revert cbs m. induction ex as [|a ex IH]; intros cbs m HI Hnd Hex; cbn [expire_loop].
  { exists m. cbn. rewrite app_nil_r. split; [done|]. split; [done|]. split; [|done].
    split; [set_solver|]. intros a. rewrite bool_decide_false by set_solver. done. }
  apply NoDup_cons in Hnd as [Hna Hnd].
  destruct (Hex a) as [Hn [t Ha]]; [set_solver|].
  destruct (expire_one now a ex m t HI Ha Hn) as (l & E & HI1 & Hl).
  rewrite (bind_ok _ _ _ _ _ (self_spec a m t Ha)), (bind_ok _ _ _ _ _ E).
  destruct (IH (cbs ++ [m_cb t]) _ HI1 Hnd) as (m' & E' & HI' & [Hm Hh] & Hrest).
  { intros b Hb. cbn. assert (b ≠ a) by set_solver. rewrite Hl, lookup_insert_ne by done.
    destruct (Hex b); [set_solver|]. naive_solver. }
  assert (∀ b, b ≠ a → (<[a := rearm now t]> (timers_heap m)) !! b = timers_heap m !! b) as Hne.
  { intros b Hb. by apply lookup_insert_ne. }
  exists m'. rewrite E'. split; [|split; [done|split; [|done]]].
  - f_equal. rewrite <- (assoc_L (++)). f_equal. cbn. unfold cb_of at 2. rewrite Ha. f_equal.
    apply list_fmap_ext. intros i b Hb%list_elem_of_lookup_2. unfold cb_of. cbn.
    rewrite lookup_insert_ne by set_solver. done.
  - split; cbn in Hm, Hh.
    + intros x. rewrite Hm, Hl, elem_of_cons. unfold recurring_of. destruct (decide (x = a)) as [->|].
      * rewrite Ha, lookup_insert_eq. naive_solver.
      * rewrite Hne by done. naive_solver.
    + intros b. rewrite Hh. destruct (decide (b = a)) as [->|].
      * rewrite bool_decide_false, bool_decide_true by set_solver. by rewrite lookup_insert_eq, Ha.
      * rewrite Hne by done. rewrite (bool_decide_ext (b ∈ a :: ex) (b ∈ ex)) by set_solver. done.
Qed.

Lemma detectClockRollover_eq now m :
  detectClockRollover now m =
  Ok ((now <? m_previouseTime m) && (now <? u64 (m_previouseTime m - 3600000))) (with_prev now m).
Proof. done. Qed.

(** The timers listExpiredCb fires. *)
Definition rolled_over (now : Z) m : bool :=
  (now <? m_previouseTime m) && (now <? u64 (m_previouseTime m - 3600000)).
Definition expired_now (now : Z) m : list Z :=
  if rolled_over now m then m_timers m else due (timers_heap m) now (m_timers m).

(** The split at which listExpiredCb cuts the set. *)
Definition cut (now tmp : Z) m : list Z * list Z :=
  let h := <[tmp := Timer_at now]> (timers_heap m) in
  let '(before, from) :=
    if rolled_over now m then (m_timers m, []) else lower_split (timer_lt h) id tmp (m_timers m) in
  let '(d, rest) := skip_due (timers_heap m) now from in (before ++ d, rest).

Lemma cut_spec now tmp m :
  tm_inv m → timers_heap m !! tmp = None →
  ∃ rest, cut now tmp m = (expired_now now m, rest) ∧ m_timers m = expired_now now m ++ rest.
Proof.
  intros HI Htmp. unfold cut, expired_now. destruct (rolled_over now m).
  { exists []. cbn. rewrite !app_nil_r. done. }
  destruct (lower_split _ id tmp (m_timers m)) as [p r] eqn:Hs.
  destruct (skip_due (timers_heap m) now r) as [d rest] eqn:Hd.
  assert (tmp ∉ m_timers m) as Hn.
  { intros Hin. destruct (inv_alloc _ _ HI tmp Hin) as [t Ht]. congruence. }
  destruct (expired_split _ _ _ _ _ _ _ _ (inv_sorted _ _ HI) Hn Hs Hd) as (E & H1 & H2).
  exists rest. unfold due. rewrite <- E, filter_split by done. done.
Qed.

(** Nothing is due when the first timer is not. *)
Lemma expired_now_none now m a l :
  tm_inv m → m_timers m = a :: l → rolled_over now m = false → now < next_of (timers_heap m) a →
  expired_now now m = [].
Proof.
  intros HI E Hr Ha. unfold expired_now, due. rewrite Hr.
  change ([] : list Z) with (@nil Z). rewrite <- (app_nil_l (m_timers m)).
  apply filter_split; [constructor|]. rewrite Forall_forall. intros b Hb.
  pose proof (inv_sorted _ _ HI) as Ho. rewrite E in Ho, Hb.
  pose proof (ordered_first _ a l b Ho Hb). lia.
Qed.

Lemma listExpiredCb_fires now tmp cbs m :
  tm_inv m → timers_heap m !! tmp = None →
  ∃ m' rest, listExpiredCb now tmp cbs m
      = Ok (cbs ++ (cb_of (timers_heap m) <$> expired_now now m)) m' ∧
    tm_inv m' ∧ m_timers m = expired_now now m ++ rest ∧
    fired now (expired_now now m) (timers_heap m) rest m' ∧
    m_tickled m' = m_tickled m ∧ host m' = host m.
Proof.
  intros HI Htmp. unfold listExpiredCb. rewrite (bind_ok _ _ _ _ _ (eq_refl : mget m = Ok m m)).
  assert (∀ m', timers_heap m' = timers_heap m → fired now [] (timers_heap m) (m_timers m') m') as Hnone.
  { intros m' E. split; [set_solver|]. intros a. by rewrite E. }
  destruct (m_timers m) as [|a l] eqn:El.
  { exists m, []. assert (expired_now now m = []) as ->
      by (unfold expired_now, due; rewrite El; by destruct (rolled_over now m)).
    cbn. rewrite app_nil_r. split_and!; try done. pose proof (Hnone m eq_refl) as Hf. by rewrite El in Hf. }
  rewrite (bind_ok _ _ _ _ _ (detectClockRollover_eq now m)). fold (rolled_over now m).
  destruct (self_alloc [] a (with_prev now m)) as (t & Ht & Et);
    [by eapply inv_frame, HI|cbn; rewrite El; set_solver|].
  rewrite (bind_ok _ _ _ _ _ Et). cbn in Ht.
  assert (next_of (timers_heap m) a = m_next t) as Hnx by (unfold next_of; by rewrite Ht).
  destruct (negb (rolled_over now m) && (now <? m_next t)) eqn:Hg.
  - apply andb_true_iff in Hg as [Hr%negb_true_iff Hlt%Z.ltb_lt].
    rewrite (expired_now_none now m a l) by (done || lia). cbn. rewrite app_nil_r.
    exists (with_prev now m), (a :: l). split; [done|]. split; [by eapply inv_frame, HI|].
    split; [done|]. split; [|done]. rewrite <- El. by apply (Hnone (with_prev now m)).
  - destruct (cut_spec now tmp m HI Htmp) as (rest & Hcut & Hsplit). revert Hcut. unfold cut.
    rewrite El. cbv zeta. destruct (if rolled_over now m then _ else _) as [before from].
    destruct (skip_due _ now from) as [d r]. intros [= -> ->]. rewrite bind_modify.
    pose proof (inv_sorted _ _ HI) as Ho. rewrite Hsplit in Ho.
    pose proof (ordered_NoDup _ _ Ho) as Hnd. apply NoDup_app in Hnd as (Hnd & Hdisj & _).
    apply ordered_app in Ho as (_ & Ho & _).
    destruct (expire_loop_spec now (expired_now now m) cbs (with_timers rest (with_prev now m)))
      as (m' & E & HI' & Hf & Hx & _ & Hh).
    + split; cbn; [done|..].
      * intros b Hb. apply (inv_alloc _ _ HI). rewrite Hsplit. set_solver.
      * intros b u Hb Hu. pose proof (armed_in b u m HI Hb Hu) as Hin. rewrite Hsplit in Hin. set_solver.
    + done.
    + intros b Hb. split; [by apply Hdisj|]. cbn. apply (inv_alloc _ _ HI). rewrite Hsplit. set_solver.
    + exists m', rest. rewrite <- El. split_and!; done.
Qed.

End Expiry.

(** ** Sequences of operations *)

Section Runs.
Context {H : Type} `{TH : TimerHost H}.
Implicit Types m : TimerManager H.

(** A call on the manager or on one of its timers. *)
Inductive top : Type :=
| TAdd (now a ms : Z) (cb : option callback) (recurring : bool)
| TAddCond (now a ms : Z) (cb : callback) (weak_cond : Z) (recurring : bool)
| TCancel (a : Z)
| TRefresh (now a : Z)
| TReset (now a ms : Z) (from_now : bool)
| TNext (now : Z)
| TExpired (now tmp : Z)
| TRelease (a : Z).

Definition texec (o : top) : M (TimerManager H) unit :=
  match o with
  | TAdd now a ms cb rec => addTimer now a ms cb rec;; mret tt
  | TAddCond now a ms cb w rec => addConditionTimer now a ms cb w rec;; mret tt
  | TCancel a => cancel a;; mret tt
  | TRefresh now a => refresh now a;; mret tt
  | TReset now a ms f => reset now a ms f;; mret tt
  | TNext now => getNextTimer now;; mret tt
  | TExpired now tmp => listExpiredCb now tmp [];; mret tt
  | TRelease a => release a
  end.

(** [new] returns an address not in use; a method is called on a live timer. *)
Definition enabled (o : top) m : Prop :=
  match o with
  | TAdd _ a _ _ _ | TAddCond _ a _ _ _ _ | TExpired _ a => timers_heap m !! a = None
  | TCancel a | TRefresh _ a | TReset _ a _ _ => is_Some (timers_heap m !! a)
  | TNext _ | TRelease _ => True
  end.

Inductive steps m : list top → TimerManager H → Prop :=
| steps_nil : steps m [] m
| steps_snoc os m1 o m2 :
    steps m os m1 → enabled o m1 → texec o m1 = Ok tt m2 → steps m (os ++ [o]) m2.

Lemma getNextTimer_spec now m :
  tm_inv m →
  getNextTimer now m =
  Ok (match m_timers m with
      | [] => 2 ^ 64 - 1
      | a :: _ =>
        if next_of (timers_heap m) a <? now then 0 else u64 (next_of (timers_heap m) a - now)
      end) (with_tickled false m).
Proof.
  intros HI. unfold getNextTimer. rewrite bind_modify.
  rewrite (bind_ok _ _ _ _ _ (eq_refl : mget (with_tickled false m) = Ok _ _)). cbn.
  destruct (m_timers m) as [|a l] eqn:El; [done|].
  destruct (self_alloc [] a (with_tickled false m)) as (t & Ht & Et);
    [by eapply inv_frame, HI|cbn; rewrite El; set_solver|].
  rewrite (bind_ok _ _ _ _ _ Et). cbn in Ht. unfold next_of. rewrite Ht. by case_match.
Qed.

Lemma release_inv a m : tm_inv m → ∃ m', release a m = Ok tt m' ∧ tm_inv m'.
Proof.
  intros HI. unfold release, mmodify. case_bool_decide as Hin; eexists; (split; [done|]); [done|].
  split; cbn.
  - eapply ordered_next; [|apply HI]. intros b Hb. unfold next_of.
    by rewrite lookup_delete_ne by set_solver.
  - intros b Hb. rewrite lookup_delete_ne by set_solver. by apply (inv_alloc _ _ HI).
  - intros b t [_ Hb]%lookup_delete_Some. apply (inv_armed _ _ HI b t Hb).
Qed.

Lemma bind_unit {S A} (c : M S A) s a s' : c s = Ok a s' → (c;; mret tt) s = Ok tt s'.
Proof. intros E. by rewrite (bind_ok _ _ _ _ _ E). Qed.

Lemma texec_safe o m : tm_inv m → enabled o m → ∃ m', texec o m = Ok tt m' ∧ tm_inv m'.
Proof.
  intros HI Hen. destruct o; cbn [texec enabled] in *.
  - destruct (addTimer_spec now a ms cb recurring m HI Hen) as (l & E & HI' & _).
    eexists. split; [by eapply bind_unit|done].
  - destruct (addTimer_spec now a ms (Some (BindOnTimer weak_cond cb)) recurring m HI Hen)
      as (l & E & HI' & _). eexists. split; [by eapply bind_unit|done].
  - destruct Hen as [t Ht]. pose proof (cancel_spec a m t HI Ht) as E.
    destruct (m_cb t); [destruct E as (l & E & HI' & _)|]; eexists; (split; [by eapply bind_unit|done]).
  - destruct Hen as [t Ht]. pose proof (refresh_spec now a m t HI Ht) as E.
    destruct (m_cb t); [destruct E as (l & E & HI' & _)|]; eexists; (split; [by eapply bind_unit|done]).
  - destruct Hen as [t Ht]. pose proof (reset_spec now a ms from_now m t HI Ht) as E.
    destruct ((ms =? m_ms t) && negb from_now); [|destruct (m_cb t); [destruct E as (l & E & HI' & _)|]];
      eexists; (split; [by eapply bind_unit|done]).
  - eexists. split; [by eapply bind_unit, getNextTimer_spec|]. by eapply inv_frame, HI.
  - destruct (listExpiredCb_fires now tmp [] m HI Hen) as (m' & rest & E & HI' & _).
    exists m'. split; [by eapply bind_unit|done].
  - by apply release_inv.
Qed.

Lemma TimerManager_new_inv now (x : H) : tm_inv (TimerManager_new now x).
Proof. split; cbn; [constructor|set_solver|intros a t E; by rewrite lookup_empty in E]. Qed.

Lemma steps_inv m os m' : tm_inv m → steps m os m' → tm_inv m'.
Proof.
  intros HI. induction 1 as [|os m1 o m2 _ IH Hen E]; [done|].
  destruct (texec_safe o m1 IH Hen) as (m3 & E' & HI'). congruence.
Qed.

(** A timer that is out of the set and has no callback. *)
Definition dead (a : Z) m : Prop :=
  (a ∉ m_timers m) ∧ ∃ t, timers_heap m !! a = Some t ∧ m_cb t = None.

Lemma dead_frame a m m' :
  (∀ x, x ∈ m_timers m' → x ∈ m_timers m ∨ timers_heap m !! x = None) →
  timers_heap m' !! a = timers_heap m !! a → dead a m → dead a m'.
Proof.
  intros Hl Eh (Hn & t & Ht & Hcb). split; [|exists t; by rewrite Eh].
  intros [|E]%Hl; [done|congruence].
Qed.

(** An operation on another timer, or one that is refused, leaves it so. *)
Lemma texec_dead a o m m' :
  tm_inv m → dead a m → enabled o m → o ≠ TRelease a → texec o m = Ok tt m' → dead a m'.
Proof.
  intros HI Hd Hen Hrel. pose proof Hd as (Hn & t & Ht & Hcb).
  destruct o as [now b ms cb rec|now b ms cb w rec|b|now b|now b ms f|now|now tmp|b];
    cbn [texec enabled] in *.
  - destruct (addTimer_spec now b ms cb rec m HI Hen) as (l & E & HI' & Hl & _).
    rewrite (bind_unit _ _ _ _ E). intros [= <-]. eapply dead_frame, Hd.
    + intros x [->|]%Hl; auto.
    + cbn. apply lookup_insert_ne. congruence.
  - destruct (addTimer_spec now b ms (Some (BindOnTimer w cb)) rec m HI Hen) as (l & E & HI' & Hl & _).
    unfold addConditionTimer. rewrite (bind_unit _ _ _ _ E). intros [= <-]. eapply dead_frame, Hd.
    + intros x [->|]%Hl; auto.
    + cbn. apply lookup_insert_ne. congruence.
  - destruct Hen as [u Hu]. pose proof (cancel_spec b m u HI Hu) as E.
    destruct (m_cb u) eqn:Hcu; [destruct E as (l & E & HI' & Hl)|];
      rewrite (bind_unit _ _ _ _ E); intros [= <-]; [|done].
    eapply dead_frame, Hd; [set_solver|]. cbn. apply lookup_insert_ne. congruence.
  - destruct Hen as [u Hu]. pose proof (refresh_spec now b m u HI Hu) as E.
    destruct (m_cb u) eqn:Hcu; [destruct E as (l & E & HI' & Hl)|];
      rewrite (bind_unit _ _ _ _ E); intros [= <-]; [|done].
    eapply dead_frame, Hd; [set_solver|]. cbn. apply lookup_insert_ne. congruence.
  - destruct Hen as [u Hu]. pose proof (reset_spec now b ms f m u HI Hu) as E.
    destruct ((ms =? m_ms u) && negb f); [by rewrite (bind_unit _ _ _ _ E); intros [= <-]|].
    destruct (m_cb u) eqn:Hcu; [destruct E as (l & E & HI' & Hl)|];
      rewrite (bind_unit _ _ _ _ E); intros [= <-]; [|done].
    eapply dead_frame, Hd; [set_solver|]. cbn. apply lookup_insert_ne. congruence.
  - rewrite (bind_unit _ _ _ _ (getNextTimer_spec now m HI)). intros [= <-]. done.
  - destruct (listExpiredCb_fires now tmp [] m HI Hen) as (m2 & rest & E & HI' & Hs & [Hl Hh] & _).
    rewrite (bind_unit _ _ _ _ E). intros [= <-]. rewrite Hs in Hn. eapply dead_frame, Hd.
    + intros x. rewrite Hl, Hs. set_solver.
    + rewrite Hh, bool_decide_false by set_solver. done.
  - unfold release, mmodify. intros [= <-]. case_bool_decide; [done|]. eapply dead_frame, Hd; [auto|].
    cbn. apply lookup_delete_ne. congruence.
Qed.

End Runs.

(** ** Properties *)

(** A host that counts its notifications, for the concrete runs below. *)
Definition counting_host : TimerHost nat := S.

Section Properties.
Context {H : Type} `{TH : TimerHost H}.
Implicit Types m : TimerManager H.

(** C37: From a new manager, any sequence of calls on the manager and on live
    timers keeps the set sorted by deadline, without dangling entries and with
    every timer that still has a callback; so every further call returns: in
    particular cancel, which erases what find returns without a test, never
    erases end(). *)
Theorem timers_safe now (x : H) os m :
  steps (TimerManager_new now x) os m →
  tm_inv m ∧ ∀ o, enabled o m → ∃ m', texec o m = Ok tt m'.
Proof.
  intros Hs. pose proof (steps_inv _ _ _ (TimerManager_new_inv now x) Hs) as HI.
  split; [done|]. intros o Ho. destruct (texec_safe o m HI Ho) as (m' & E & _). by exists m'.
Qed.

(** C4: listExpiredCb appends the callbacks of exactly the timers whose
    deadline has come (all timers when the clock went back by more than an
    hour), earliest first, whatever the address of its temporary; afterwards a
    recurring one is armed again for [now] plus its period, another one has
    lost its callback and left the set, and no other timer has changed. *)
Theorem listExpiredCb_exact now tmp cbs m :
  tm_inv m → timers_heap m !! tmp = None →
  let ex := if rolled_over now m then m_timers m else due (timers_heap m) now (m_timers m) in
  ∃ m', listExpiredCb now tmp cbs m = Ok (cbs ++ (cb_of (timers_heap m) <$> ex)) m' ∧
    (∀ a, timers_heap m' !! a
          = if bool_decide (a ∈ ex) then rearm now <$> timers_heap m !! a else timers_heap m !! a) ∧
    (∀ a, a ∈ m_timers m' ↔ a ∈ m_timers m ∧ (a ∉ ex ∨ recurring_of (timers_heap m) a = true)) ∧
    tm_inv m'.
Proof.
  intros HI Htmp ex.
  destruct (listExpiredCb_fires now tmp cbs m HI Htmp) as (m' & rest & E & HI' & Hs & [Hl Hh] & _).
  change (expired_now now m) with ex in *. exists m'. split; [done|]. split; [done|]. split; [|done].
  pose proof (inv_sorted _ _ HI) as Ho. rewrite Hs in Ho.
  apply ordered_NoDup in Ho; [|apply _]. apply NoDup_app in Ho as (_ & Hd & _).
  intros a. rewrite Hl, Hs, elem_of_app. destruct (decide (a ∈ ex)); naive_solver.
Qed.

(** getNextTimer returns the time until the earliest deadline: no timer
    is due before it has passed and some timer is due then, or the largest
    value when there is no timer. *)
Theorem getNextTimer_earliest now m :
  tm_inv m → 0 ≤ now → (∀ a, a ∈ m_timers m → in_u 64 (next_of (timers_heap m) a)) →
  ∃ w m', getNextTimer now m = Ok w m' ∧
    (m_timers m = [] → w = 2 ^ 64 - 1) ∧
    (∀ a, a ∈ m_timers m → w ≤ Z.max 0 (next_of (timers_heap m) a - now)) ∧
    (m_timers m ≠ [] → ∃ a, a ∈ m_timers m ∧ w = Z.max 0 (next_of (timers_heap m) a - now)).
Proof.
  intros HI Hnow Hu. rewrite (getNextTimer_spec now m HI). eexists _, _. split; [done|].
  pose proof (inv_sorted _ _ HI) as Ho. destruct (m_timers m) as [|a l].
  { split; [done|]. split; [set_solver|done]. }
  set (w := if _ <? _ then _ else _).
  assert (w = Z.max 0 (next_of (timers_heap m) a - now)) as ->.
  { unfold w. pose proof (Hu a ltac:(set_solver)) as [? ?]. case_match; [lia|].
    rewrite wrapu_small by (unfold in_u; lia). lia. }
  split; [done|]. split; [|intros _; exists a; split; [set_solver|done]].
  intros b Hb. pose proof (ordered_first _ a l b Ho Hb). lia.
Qed.

(** A timer whose cancel returned true never fires: after any further
    calls (while somebody holds it) it is not in the set, its callback is
    gone, and refresh and a second cancel report failure. *)
Theorem cancel_is_final a m m1 os m2 now :
  tm_inv m → cancel a m = Ok true m1 → steps m1 os m2 → TRelease a ∉ os →
  (a ∉ m_timers m2) ∧ cb_of (timers_heap m2) a = None ∧
  cancel a m2 = Ok false m2 ∧ refresh now a m2 = Ok false m2.
Proof.
  intros HI Hc Hs Hrel.
  destruct (timers_heap m !! a) as [t|] eqn:Ht;
    [|revert Hc; unfold cancel, self; mred; by rewrite Ht].
  pose proof (cancel_spec a m t HI Ht) as E. destruct (m_cb t) eqn:Hcb; [|congruence].
  destruct E as (l & E & HI1 & Hl). rewrite E in Hc. injection Hc as <-.
  assert (dead a m2 ∧ tm_inv m2) as [(Hn & u & Hu & Hcu) HI2].
  { induction Hs as [|os m3 o m4 Hs IH Hen Ex].
    - split; [|done]. split; [set_solver|]. exists (clear_cb t). cbn. by rewrite lookup_insert_eq.
    - destruct IH as [Hd HI3]; [set_solver|]. split; [eapply texec_dead; [..|exact Ex]; set_solver|].
      destruct (texec_safe o m3 HI3 Hen) as (m5 & E5 & ?). congruence. }
  split; [done|]. split; [unfold cb_of; by rewrite Hu|].
  pose proof (cancel_spec a m2 u HI2 Hu) as Ec. pose proof (refresh_spec now a m2 u HI2 Hu) as Er.
  by rewrite Hcu in Ec, Er.
Qed.

(** With no notification pending, addTimer calls onTimerInsertedAtFront
    exactly when the new timer is the earliest one; otherwise the earliest
    timer, and so the wait getNextTimer computed, is unchanged. *)
Theorem addTimer_notifies now a ms cb rec m :
  tm_inv m → timers_heap m !! a = None → m_tickled m = false →
  ∃ m', addTimer now a ms cb rec m = Ok a m' ∧
    (head (m_timers m') = Some a ∧ m_tickled m' = true ∧ host m' = onTimerInsertedAtFront (host m) ∨
     head (m_timers m') = head (m_timers m) ∧ head (m_timers m') ≠ Some a ∧
       m_tickled m' = false ∧ host m' = host m) ∧
    (∀ b, b ∈ m_timers m → u64 (now + ms) < next_of (timers_heap m) b →
          head (m_timers m') ≠ Some b).
Proof.
  intros HI Ha Ht. destruct (addTimer_spec now a ms cb rec m HI Ha) as (l & E & HI' & Hl & Hh).
  eexists. split; [exact E|]. unfold after_insert in *. cbn. rewrite Ht. cbn. split.
  - case_bool_decide; [by left|right]. destruct Hh; [done|]. done.
  - intros b Hb Hlt Hhd. destruct l as [|c l]; [done|]. injection Hhd as ->.
    pose proof (inv_sorted _ _ HI') as Ho. cbn in Ho.
    pose proof (ordered_first _ b l a Ho) as Hle. rewrite next_of_insert in Hle. cbn in Hle.
    assert (a ≠ b). { intros ->. destruct (inv_alloc _ _ HI b Hb) as [t Htb]. congruence. }
    rewrite next_of_insert_ne in Hle by done. specialize (Hle (proj2 (Hl a) (or_introl eq_refl))). lia.
Qed.

(** reset on a timer that is armed reports success and moves its deadline
    to the new period counted from now, or from when the running period began;
    the timers in the set stay the same and no other timer changes. *)
Theorem reset_moves_deadline now a ms from_now m t :
  tm_inv m → timers_heap m !! a = Some t → is_Some (m_cb t) → in_u 64 (m_next t) →
  ∃ m', reset now a ms from_now m = Ok true m' ∧ tm_inv m' ∧
    next_of (timers_heap m') a = u64 ((if from_now then now else m_next t - m_ms t) + ms) ∧
    (∀ x, x ∈ m_timers m' ↔ x ∈ m_timers m) ∧
    (∀ b, b ≠ a → timers_heap m' !! b = timers_heap m !! b).
Proof.
  intros HI Ha Hcb Hu. pose proof (reset_spec now a ms from_now m t HI Ha) as E.
  destruct ((ms =? m_ms t) && negb from_now) eqn:Hsame.
  - apply andb_true_iff in Hsame as [->%Z.eqb_eq Hf%negb_true_iff]. rewrite Hf in *.
    exists m. split; [done|]. split; [done|]. unfold next_of. rewrite Ha.
    replace (m_next t - m_ms t + m_ms t) with (m_next t) by lia. by rewrite wrapu_small.
  - destruct (m_cb t) as [cb|]; [|by destruct Hcb]. destruct E as (l & E & HI' & Hl).
    eexists. split; [exact E|]. split; [done|]. cbn. rewrite next_of_insert. cbn. split.
    { destruct from_now; [done|]. unfold wrapu. by rewrite Zplus_mod_idemp_l. }
    split; [done|]. intros b Hb. by apply lookup_insert_ne.
Qed.

End Properties.

(** ** Concrete runs *)

#[local] Existing Instance counting_host.

(** Two timers, a recurring one due at 1100 and a one-shot due at 1050. *)
Definition demo : TimerManager nat :=
  mkTM (<[20 := mkTimer false 50 1050 (Some (UserCb 2))]>
       (<[10 := mkTimer true 100 1100 (Some (UserCb 1))]> ∅)) [20; 10] true 1000 2%nat.

Lemma demo_steps :
  steps (TimerManager_new 1000 0%nat)
    [TAdd 1000 10 100 (Some (UserCb 1)) true; TNext 1000; TAdd 1000 20 50 (Some (UserCb 2)) false] demo.
Proof.
  eapply (steps_snoc _ [_; _]); [eapply (steps_snoc _ [_]); [eapply (steps_snoc _ []); [constructor|..]|..]|..];
    try done; vm_compute; reflexivity.
Qed.

Lemma demo_inv : tm_inv demo.
Proof. exact (steps_inv _ _ _ (TimerManager_new_inv 1000 0%nat) demo_steps). Qed.

Lemma timers_safe_witness : tm_inv demo ∧ ∃ m', texec (TCancel 10) demo = Ok tt m'.
Proof.
  destruct (timers_safe 1000 0%nat _ demo demo_steps) as [HI Hs]. split; [exact HI|].
  apply Hs. vm_compute. by eexists.
Defined.

Lemma listExpiredCb_exact_witness :
  ∃ m', listExpiredCb 1060 30 [] demo = Ok [Some (UserCb 2)] m' ∧ (20 ∉ m_timers m') ∧ 10 ∈ m_timers m'.
Proof.
  destruct (listExpiredCb_exact 1060 30 [] demo demo_inv eq_refl) as (m' & E & _ & Hl & _).
  exists m'. split; [rewrite E; vm_compute; reflexivity|]. split; rewrite Hl; vm_compute.
  - intros [_ [Hn|?]]; [apply Hn; constructor|done].
  - split; [repeat constructor|]. left. by apply (bool_decide_unpack (10 ∉ [20])).
Defined.

Lemma getNextTimer_earliest_witness :
  ∃ w m', getNextTimer 1010 demo = Ok w m' ∧ w = 40.
Proof.
  destruct (getNextTimer_earliest 1010 demo demo_inv) as (w & m' & E & _); [lia| |].
  - intros a Ha. vm_compute in Ha. repeat (apply elem_of_cons in Ha as [->|Ha]; [vm_compute; split; congruence|]).
    by apply elem_of_nil in Ha.
  - exists w, m'. split; [exact E|]. revert E. vm_compute. congruence.
Defined.

Lemma cancel_is_final_witness :
  ∃ m1, cancel 10 demo = Ok true m1 ∧ cb_of (timers_heap m1) 10 = None.
Proof.
  eexists. split; [vm_compute; reflexivity|].
  eapply (cancel_is_final 10 demo _ [] _ 2000 demo_inv); [vm_compute; reflexivity|constructor|set_solver].
Defined.

Lemma addTimer_notifies_witness :
  ∃ m', addTimer 1000 30 5 None false (with_tickled false demo) = Ok 30 m' ∧ head (m_timers m') ≠ Some 20.
Proof.
  destruct (addTimer_notifies 1000 30 5 None false (with_tickled false demo)) as (m' & E & _ & Hh);
    [by eapply inv_frame, demo_inv|done|done|].
  exists m'. split; [exact E|]. apply Hh; [cbn; set_solver|vm_compute; reflexivity].
Defined.

Lemma reset_moves_deadline_witness :
  ∃ m', reset 1010 10 20 true demo = Ok true m' ∧ next_of (timers_heap m') 10 = 1030.
Proof.
  destruct (reset_moves_deadline 1010 10 20 true demo (mkTimer true 100 1100 (Some (UserCb 1))) demo_inv)
    as (m' & E & _ & Hn & _); [done|by eexists|done|].
  exists m'. split; [exact E|]. rewrite Hn. reflexivity.
Defined.

(** reset with the period the timer already has reports success for a
    cancelled timer too. *)
Lemma reset_cancelled_reports_success :
  ∃ m1, cancel 10 demo = Ok true m1 ∧ reset 1010 10 100 false m1 = Ok true m1 ∧ m_timers m1 = [20].
Proof. eexists. split; [vm_compute; reflexivity|]. split; reflexivity. Qed.
