(* ===== verification/Fiber.v ===== *)
(** Fiber (skt/fiber/fiber.h, skt/fiber/fiber.cpp).

    Fibers are objects in a heap that all threads share. A thread has its
    thread_local pointers, and the fiber whose context it executes: that is
    what swapcontext changes. swapcontext(from, to) saves the running context
    into [from] and continues in [to]; the model stops when [from] is not the
    fiber that runs, because its context would then be overwritten by
    another's. A fiber's body is code of the user: what it does between two
    context switches is not part of this file, only how it enters and leaves
    (MainFunc, YieldToHold, YieldToReady). *)

From stdpp Require Import base list gmap.
From Stdlib Require Import Lia.
From S2P Require Import Prelude.

(** Fiber::State *)
Inductive State : Type := INIT | HOLD | EXEC | TERM | READY | EXCEPT.

#[global] Instance State_eq_dec : EqDecision State.
Proof. solve_decision. Defined.

(** Functions are named by numbers; [None] is an empty std::function. *)
Record Fiber : Type := mkFiber {
  m_id : Z;
  m_stacksize : Z;
  m_state : State;
  m_stack : bool;           (* m_stack is not null *)
  m_cb : option Z;
  entry_caller : bool       (* the context starts at CallerMainFunc, not MainFunc *)
}.

#[global] Instance Fiber_eq_dec : EqDecision Fiber.
Proof. solve_decision. Defined.

(** The thread_local variables of fiber.cpp and scheduler.cpp, and the fiber
    whose context the thread executes. *)
Record Local : Type := mkLocal {
  t_fiber : option Z;
  t_threadFiber : option Z;
  t_sheduler_fiber : option Z;
  running : option Z
}.

Record FS : Type := mkFS {
  fibers : gmap Z Fiber;
  loc : Local;
  s_fiber_id : Z;
  s_fiber_count : Z
}.

Definition with_state (st : State) (f : Fiber) : Fiber :=
  mkFiber (m_id f) (m_stacksize f) st (m_stack f) (m_cb f) (entry_caller f).
Definition with_cb (cb : option Z) (f : Fiber) : Fiber :=
  mkFiber (m_id f) (m_stacksize f) (m_state f) (m_stack f) cb (entry_caller f).
Definition with_entry (caller : bool) (f : Fiber) : Fiber :=
  mkFiber (m_id f) (m_stacksize f) (m_state f) (m_stack f) (m_cb f) caller.

Definition set_fibers (h : gmap Z Fiber) (s : FS) : FS :=
  mkFS h (loc s) (s_fiber_id s) (s_fiber_count s).
Definition set_loc (l : Local) (s : FS) : FS :=
  mkFS (fibers s) l (s_fiber_id s) (s_fiber_count s).
Definition set_count (n : Z) (s : FS) : FS :=
  mkFS (fibers s) (loc s) (s_fiber_id s) n.
Definition set_id (n : Z) (s : FS) : FS :=
  mkFS (fibers s) (loc s) n (s_fiber_count s).

Definition loc_fiber (f : option Z) (l : Local) : Local :=
  mkLocal f (t_threadFiber l) (t_sheduler_fiber l) (running l).
Definition loc_thread (f : option Z) (l : Local) : Local :=
  mkLocal (t_fiber l) f (t_sheduler_fiber l) (running l).
Definition loc_sched (f : option Z) (l : Local) : Local :=
  mkLocal (t_fiber l) (t_threadFiber l) f (running l).
Definition loc_running (f : option Z) (l : Local) : Local :=
  mkLocal (t_fiber l) (t_threadFiber l) (t_sheduler_fiber l) f.

Definition fget (a : Z) : M FS Fiber := s ← mget; mderef NullDeref (fibers s !! a).
Definition fset (a : Z) (f : Fiber) : M FS unit := mmodify (λ s, set_fibers (<[a := f]> (fibers s)) s).
Definition fstate (a : Z) (st : State) : M FS unit := f ← fget a; fset a (with_state st f).

(** Fiber::SetThis, Scheduler::GetMainFiber *)
Definition SetThis (f : option Z) : M FS unit := mmodify (λ s, set_loc (loc_fiber f (loc s)) s).
Definition GetMainFiber : M FS (option Z) := s ← mget; mret (t_sheduler_fiber (loc s)).

(** swapcontext(&from->m_ctx, &to->m_ctx), which succeeds. *)
Definition swapcontext (from to : Z) : M FS unit :=
  s ← mget;
  if bool_decide (running (loc s) = Some from)
  then mput (set_loc (loc_running (Some to) (loc s)) s)
  else mstop BadContext.

(** Fiber::GetFiberId *)
Definition GetFiberId : M FS Z :=
  s ← mget;
  match t_fiber (loc s) with
  | Some a => f ← fget a; mret (m_id f)
  | None => mret 0
  end.

(** Fiber::Fiber(), the fiber that stands for what the thread executes
    already. *)
Definition Fiber_main (a : Z) : M FS unit :=
  fset a (mkFiber 0 0 EXEC false None false);;
  SetThis (Some a);;
  mmodify (λ s, set_loc (loc_running (Some a) (loc s)) s);;
  mmodify (λ s, set_count (u64 (s_fiber_count s + 1)) s).

(** Fiber::Fiber(cb, stacksize, use_caller); [g_fiber_stack_size] is the
    configured size. *)
Definition Fiber_new (g_fiber_stack_size a : Z) (cb : option Z) (stacksize : Z) (use_caller : bool)
  : M FS unit :=
  mmodify (λ s, set_id (u64 (s_fiber_id s + 1)) s);;
  s ← mget;
  mput (set_count (u64 (s_fiber_count s + 1)) s);;
  fset a (mkFiber (s_fiber_id s) (if stacksize =? 0 then g_fiber_stack_size else u32 stacksize)
            INIT true cb use_caller).

(** Fiber::~Fiber *)
Definition Fiber_destroy (a : Z) : M FS unit :=
  mmodify (λ s, set_count (u64 (s_fiber_count s - 1)) s);;
  f ← fget a;
  (if m_stack f
   then massert (bool_decide (m_state f = TERM) || bool_decide (m_state f = INIT)
                 || bool_decide (m_state f = EXCEPT))
   else
     massert (bool_decide (m_cb f = None));;
     massert (bool_decide (m_state f = EXEC));;
     s ← mget;
     if bool_decide (t_fiber (loc s) = Some a) then SetThis None else mret tt);;
  mmodify (λ s, set_fibers (delete a (fibers s)) s).

(** Fiber::GetThis; [fresh] is the address of the main fiber it may create. *)
Definition GetThis (fresh : Z) : M FS Z :=
  s ← mget;
  match t_fiber (loc s) with
  | Some a => mret a
  | None =>
    Fiber_main fresh;;
    s ← mget;
    massert (bool_decide (t_fiber (loc s) = Some fresh));;
    mmodify (λ s, set_loc (loc_thread (Some fresh) (loc s)) s);;
    mderef NullDeref (t_fiber (loc s))
  end.

(** Fiber::swapOut *)
Definition swapOut (a : Z) : M FS unit :=
  main ← GetMainFiber;
  SetThis main;;
  s ← mget;
  massert (bool_decide (t_fiber (loc s) ≠ None));;
  to ← mderef NullDeref main;
  swapcontext a to.

(** Fiber::swapIn *)
Definition swapIn (a : Z) : M FS unit :=
  SetThis (Some a);;
  f ← fget a;
  massert (bool_decide (m_state f ≠ EXEC));;
  fset a (with_state EXEC f);;
  main ← GetMainFiber;
  from ← mderef NullDeref main;
  swapcontext from a.

(** Fiber::call *)
Definition call (a : Z) : M FS unit :=
  SetThis (Some a);;
  fstate a EXEC;;
  s ← mget;
  from ← mderef NullDeref (t_threadFiber (loc s));
  swapcontext from a.

(** Fiber::back *)
Definition back (a : Z) : M FS unit :=
  s ← mget;
  SetThis (t_threadFiber (loc s));;
  to ← mderef NullDeref (t_threadFiber (loc s));
  swapcontext a to.

(** Fiber::YieldToReady *)
Definition YieldToReady (fresh : Z) : M FS unit :=
  cur ← GetThis fresh;
  f ← fget cur;
  massert (bool_decide (m_state f = EXEC));;
  fset cur (with_state READY f);;
  swapOut cur.

(** Fiber::YieldToHold *)
Definition YieldToHold (fresh : Z) : M FS unit :=
  cur ← GetThis fresh;
  f ← fget cur;
  massert (bool_decide (m_state f = EXEC));;
  swapOut cur.

(** Fiber::TotalFibers *)
Definition TotalFibers : M FS Z := s ← mget; mret (s_fiber_count s).

(** Fiber::reset *)
Definition reset (a : Z) (cb : option Z) : M FS unit :=
  f ← fget a;
  massert (m_stack f);;
  massert (bool_decide (m_state f = TERM) || bool_decide (m_state f = INIT)
           || bool_decide (m_state f = EXCEPT));;
  fset a (with_state INIT (with_entry false (with_cb cb f))).

(** The end of a fiber's body: [cur->m_cb()] returned, or threw. *)
Definition body_done (cur : Z) (threw : bool) : M FS unit :=
  f ← fget cur;
  if threw then fset cur (with_state EXCEPT f)
  else fset cur (with_state TERM (with_cb None f)).

(** Fiber::MainFunc and Fiber::CallerMainFunc from the call of m_cb on. *)
Definition MainFunc (fresh : Z) (threw : bool) : M FS unit :=
  cur ← GetThis fresh; body_done cur threw;; swapOut cur.
Definition CallerMainFunc (fresh : Z) (threw : bool) : M FS unit :=
  cur ← GetThis fresh; body_done cur threw;; back cur.

(** ** How a turn of a fiber goes *)

(** The ways a fiber's body gives up the thread. *)
Inductive leave : Type := LHold | LReady | LReturn | LThrow.

Definition leaving (how : leave) (fresh : Z) : M FS unit :=
  match how with
  | LHold => YieldToHold fresh
  | LReady => YieldToReady fresh
  | LReturn => MainFunc fresh false
  | LThrow => MainFunc fresh true
  end.

(** The fiber afterwards. *)
Definition left_as (how : leave) (f : Fiber) : Fiber :=
  match how with
  | LHold => f
  | LReady => with_state READY f
  | LReturn => with_state TERM (with_cb None f)
  | LThrow => with_state EXCEPT f
  end.

(** The thread executes fiber [a], and t_fiber says so. *)
Definition executes (a : Z) (l : Local) : Prop := t_fiber l = Some a ∧ running l = Some a.

Definition at_fiber (a : Z) (l : Local) : Local :=
  mkLocal (Some a) (t_threadFiber l) (t_sheduler_fiber l) (Some a).

Lemma at_fiber_executes a l : executes a (at_fiber a l).
Proof. done. Qed.

Lemma swapIn_spec a main f s :
  fibers s !! a = Some f → m_state f ≠ EXEC →
  t_sheduler_fiber (loc s) = Some main → running (loc s) = Some main →
  swapIn a s = Ok tt (set_loc (at_fiber a (loc s)) (set_fibers (<[a := with_state EXEC f]> (fibers s)) s)).
Proof.
  intros Ha Hst Hm Hr. unfold swapIn, SetThis, fget, fset, GetMainFiber, swapcontext. mred. cbn.
  rewrite Ha. cbn. rewrite bool_decide_true by done. cbn. rewrite Hm. cbn.
  rewrite bool_decide_true by done. by destruct s as [? [] ? ?].
Qed.

Lemma swapOut_spec a main s :
  t_sheduler_fiber (loc s) = Some main → running (loc s) = Some a →
  swapOut a s = Ok tt (set_loc (at_fiber main (loc s)) s).
Proof.
  intros Hm Hr. unfold swapOut, SetThis, GetMainFiber, swapcontext. mred. cbn. rewrite Hm. cbn.
  rewrite bool_decide_true by done. by destruct s as [? [] ? ?].
Qed.

Lemma GetThis_spec a fresh s : t_fiber (loc s) = Some a → GetThis fresh s = Ok a s.
Proof. intros E. unfold GetThis. mred. by rewrite E. Qed.

Lemma set_fibers_id s a f : fibers s !! a = Some f → set_fibers (<[a := f]> (fibers s)) s = s.
Proof. intros E. destruct s. cbn in *. unfold set_fibers. cbn. by rewrite insert_id. Qed.

Lemma leaving_spec how fresh a main f s :
  fibers s !! a = Some f → m_state f = EXEC →
  executes a (loc s) → t_sheduler_fiber (loc s) = Some main →
  leaving how fresh s =
    Ok tt (set_loc (at_fiber main (loc s)) (set_fibers (<[a := left_as how f]> (fibers s)) s)).
Proof.
  intros Ha Hst [Ht Hr] Hm.
  assert (∀ g, swapOut a (set_fibers (<[a := g]> (fibers s)) s) =
     Ok tt (set_loc (at_fiber main (loc s)) (set_fibers (<[a := g]> (fibers s)) s))) as Hout.
  { intros g. by rewrite (swapOut_spec a main). }
  destruct how; cbn [leaving left_as];
    unfold YieldToHold, YieldToReady, MainFunc, body_done, fget, fset;
    rewrite (bind_ok _ _ _ _ _ (GetThis_spec a fresh s Ht)); mred; rewrite Ha; cbn.
  - rewrite bool_decide_true by done. rewrite set_fibers_id by done. by apply swapOut_spec.
  - rewrite bool_decide_true by done. apply Hout.
  - apply Hout.
  - apply Hout.
Qed.

Lemma Fiber_reset_spec a cb f s :
  fibers s !! a = Some f → m_stack f = true →
  m_state f = TERM ∨ m_state f = INIT ∨ m_state f = EXCEPT →
  reset a cb s = Ok tt (set_fibers (<[a := with_state INIT (with_entry false (with_cb cb f))]> (fibers s)) s).
Proof.
  intros Ha Hk Hst. unfold reset, fget, fset. mred. rewrite Ha. cbn. rewrite Hk.
  destruct Hst as [->|[->| ->]]; done.
Qed.

(** One turn of a fiber, from swapIn by the scheduler fiber to whatever
    way its body gives up the thread: no assertion fails, the thread is back
    in the scheduler fiber with t_fiber naming it, and the fiber is READY after
    YieldToReady, TERM without its function after returning, EXCEPT after an
    exception, and still EXEC after YieldToHold (the scheduler marks it
    afterwards). *)
Theorem fiber_turn how fresh a main f s :
  fibers s !! a = Some f → m_state f ≠ EXEC →
  t_sheduler_fiber (loc s) = Some main → executes main (loc s) →
  ∃ s', (swapIn a;; leaving how fresh) s = Ok tt s' ∧ executes main (loc s') ∧
    fibers s' = <[a := match how with
                       | LHold => with_state EXEC f
                       | LReady => with_state READY f
                       | LReturn => with_state TERM (with_cb None f)
                       | LThrow => with_state EXCEPT f
                       end]> (fibers s).
Proof.
  intros Ha Hst Hm [Ht Hr]. rewrite (bind_ok _ _ _ _ _ (swapIn_spec a main f s Ha Hst Hm Hr)).
  rewrite (leaving_spec how fresh a main (with_state EXEC f)); cbn;
    [|by rewrite lookup_insert_eq|done|done|done].
  eexists. split; [done|]. split; [done|]. cbn. rewrite insert_insert_eq. by destruct how.
Qed.

(** A scheduler fiber 1 and a new fiber 2. *)
Definition demo_fs : FS :=
  mkFS (<[2 := mkFiber 1 4096 INIT true (Some 7) false]> (<[1 := mkFiber 0 0 EXEC false None false]> ∅))
    (mkLocal (Some 1) (Some 1) (Some 1) (Some 1)) 1 2.

Lemma fiber_turn_witness :
  ∃ s', (swapIn 2;; leaving LReturn 9) demo_fs = Ok tt s' ∧
    fibers s' !! 2 = Some (mkFiber 1 4096 TERM true None false).
Proof.
  destruct (fiber_turn LReturn 9 2 1 (mkFiber 1 4096 INIT true (Some 7) false) demo_fs)
    as (s' & E & _ & Hf); [done|done|done|done|].
  exists s'. split; [exact E|]. rewrite Hf. reflexivity.
Defined.

(** A fiber that was put on hold and is dropped fails the destructor's
    assertion; one that ended is freed. *)
Lemma destroy_states a f s :
  fibers s !! a = Some f → m_stack f = true →
  Fiber_destroy a s =
    if decide (m_state f = TERM ∨ m_state f = INIT ∨ m_state f = EXCEPT)
    then Ok tt (mkFS (delete a (fibers s)) (loc s) (s_fiber_id s) (u64 (s_fiber_count s - 1)))
    else Stop AssertFail.
Proof.
  intros Ha Hk. unfold Fiber_destroy, fget. mred. cbn. rewrite Ha. cbn. rewrite Hk.
  destruct (m_state f); cbn; case_decide; naive_solver.
Qed.
