(* ===== verification/Scheduler.v ===== *)
(** Scheduler (skt/scheduler/scheduler.h, skt/scheduler/scheduler.cpp).

    Several threads execute Scheduler::run over one task queue. The loop of
    run is cut where another thread may interleave or where control goes to
    a fiber: [pc] is the place of a thread, and [section] is what it executes
    from one place to the next: the search of the queue under the lock, the
    dispatch of what it found up to the context switch, what the fiber does to
    give the thread back (an argument, [leave]), the decrement of the counter,
    and the test of the fiber's state with what follows from it. [step] is one
    section of one thread, or an action of user code: scheduling a fiber or a
    function, making a fiber, starting a thread, stopping. The virtual method
    tickle is counted. *)

From stdpp Require Import base list gmap.
From Stdlib Require Import Lia.
From S2P Require Import Prelude Fiber.

(** ** Data *)

(** Scheduler::FiberAndThread *)
Record FiberAndThread : Type := mkFT {
  ft_fiber : option Z;
  ft_cb : option Z;
  ft_thread : Z
}.
#[global] Instance FiberAndThread_eq_dec : EqDecision FiberAndThread.
Proof. solve_decision. Defined.

Definition FT_fiber (f : option Z) (thr : Z) : FiberAndThread := mkFT f None thr.
Definition FT_cb (c : option Z) (thr : Z) : FiberAndThread := mkFT None c thr.
Definition FT_empty : FiberAndThread := mkFT None None (-1).

(** The members of Scheduler, and the calls of tickle. *)
Record Sched : Type := mkSched {
  m_fibers : list FiberAndThread;
  m_rootFiber : option Z;
  m_threads : nat;                 (* the threads started and not joined *)
  m_threadIds : list Z;
  m_threadCount : Z;
  m_activeThreadCount : Z;
  m_idleThreadCount : Z;
  m_stopping : bool;
  m_autoStop : bool;
  m_rootThread : Z;
  tickles : nat
}.

Definition set_queue (q : list FiberAndThread) (s : Sched) : Sched :=
  mkSched q (m_rootFiber s) (m_threads s) (m_threadIds s) (m_threadCount s)
    (m_activeThreadCount s) (m_idleThreadCount s) (m_stopping s) (m_autoStop s) (m_rootThread s)
    (tickles s).
Definition set_active (n : Z) (s : Sched) : Sched :=
  mkSched (m_fibers s) (m_rootFiber s) (m_threads s) (m_threadIds s) (m_threadCount s)
    n (m_idleThreadCount s) (m_stopping s) (m_autoStop s) (m_rootThread s) (tickles s).
Definition set_idle (n : Z) (s : Sched) : Sched :=
  mkSched (m_fibers s) (m_rootFiber s) (m_threads s) (m_threadIds s) (m_threadCount s)
    (m_activeThreadCount s) n (m_stopping s) (m_autoStop s) (m_rootThread s) (tickles s).
Definition set_stop (stopping autoStop : bool) (s : Sched) : Sched :=
  mkSched (m_fibers s) (m_rootFiber s) (m_threads s) (m_threadIds s) (m_threadCount s)
    (m_activeThreadCount s) (m_idleThreadCount s) stopping autoStop (m_rootThread s) (tickles s).
Definition set_threads (n : nat) (ids : list Z) (s : Sched) : Sched :=
  mkSched (m_fibers s) (m_rootFiber s) n ids (m_threadCount s)
    (m_activeThreadCount s) (m_idleThreadCount s) (m_stopping s) (m_autoStop s) (m_rootThread s)
    (tickles s).

(** Scheduler::tickle *)
Definition tickle (s : Sched) : Sched :=
  mkSched (m_fibers s) (m_rootFiber s) (m_threads s) (m_threadIds s) (m_threadCount s)
    (m_activeThreadCount s) (m_idleThreadCount s) (m_stopping s) (m_autoStop s) (m_rootThread s)
    (S (tickles s)).

(** Scheduler::Scheduler; [caller] is the thread that calls it and [root] the
    address of the fiber made for it. *)
Definition Scheduler_new (threads : Z) (use_caller : bool) (caller root : Z) : option Sched :=
  if negb (0 <? threads) then None
  else if use_caller
  then Some (mkSched [] (Some root) 0 [caller] (threads - 1) 0 0 true false caller 0)
  else Some (mkSched [] None 0 [] threads 0 0 true false (-1) 0).

Definition hasIdleThreads (s : Sched) : bool := 0 <? m_idleThreadCount s.

(** Scheduler::stopping *)
Definition stopping (s : Sched) : bool :=
  m_autoStop s && m_stopping s && bool_decide (m_fibers s = []) && (m_activeThreadCount s =? 0).

Definition ft_some (ft : FiberAndThread) : bool :=
  bool_decide (ft_fiber ft ≠ None) || bool_decide (ft_cb ft ≠ None).

(** Scheduler::scheduleNoLock *)
Definition scheduleNoLock (ft : FiberAndThread) (s : Sched) : bool * Sched :=
  let need_tickle := bool_decide (m_fibers s = []) in
  (need_tickle, if ft_some ft then set_queue (m_fibers s ++ [ft]) s else s).

(** Scheduler::schedule of one task. *)
Definition schedule (ft : FiberAndThread) (s : Sched) : Sched :=
  let '(need_tickle, s') := scheduleNoLock ft s in
  if need_tickle then tickle s' else s'.

(** Scheduler::schedule of a range. *)
Fixpoint schedule_loop (fts : list FiberAndThread) (need_tickle : bool) (s : Sched) : bool * Sched :=
  match fts with
  | [] => (need_tickle, s)
  | ft :: fts' =>
    let '(need, s') := scheduleNoLock ft s in schedule_loop fts' (need || need_tickle) s'
  end.
Definition schedule_range (fts : list FiberAndThread) (s : Sched) : Sched :=
  let '(need_tickle, s') := schedule_loop fts false s in
  if need_tickle then tickle s' else s'.

(** Scheduler::start; [ids] are the ids of the threads it creates. *)
Definition start (ids : list Z) : M Sched unit :=
  s ← mget;
  if negb (m_stopping s) then mret tt
  else
    mput (set_stop false (m_autoStop s) s);;
    massert (m_threads s =? 0)%nat;;
    mmodify (λ s, set_threads (length ids) (m_threadIds s ++ ids) s).

(** Scheduler::stop up to the join of the threads: whether it runs the root
    fiber ([call]) and whether it goes on to join. [this_sched] says whether
    the calling thread's t_scheduler is this scheduler. *)
Definition stop_request (root_state : State) (this_sched : bool) : M Sched (bool * bool) :=
  mmodify (λ s, set_stop (m_stopping s) true s);;
  s ← mget;
  let root := bool_decide (m_rootFiber s ≠ None) in
  let root_idle := root && (m_threadCount s =? 0)
    && (bool_decide (root_state = TERM) || bool_decide (root_state = INIT)) in
  (if root_idle then mput (set_stop true (m_autoStop s) s) else mret tt);;
  s ← mget;
  if root_idle && stopping s then mret (false, false)
  else
    (if negb (m_rootThread s =? -1) then massert this_sched else massert (negb this_sched));;
    mput (set_stop true (m_autoStop s) s);;
    mmodify (Nat.iter (Z.to_nat (m_threadCount s)) tickle);;
    (if root then mmodify tickle else mret tt);;
    s ← mget;
    mret (root && negb (stopping s), true).

(** ** run *)

(** The search of run over the queue: whether it passed a task of another
    thread, the task it takes, the queue without it, and whether the iterator
    ends before the end. *)
Fixpoint pick (h : gmap Z Fiber) (tid : Z) (q : list FiberAndThread)
  : stop + (bool * option FiberAndThread * list FiberAndThread * bool) :=
  match q with
  | [] => inr (false, None, [], false)
  | it :: q' =>
    let next (passed : bool) :=
      match pick h tid q' with
      | inl u => inl u
      | inr (skipped, found, rest, more) => inr (passed || skipped, found, it :: rest, more)
      end in
    if negb (ft_thread it =? -1) && negb (ft_thread it =? tid) then next true
    else if negb (ft_some it) then inl AssertFail
    else
      match ft_fiber it with
      | Some a =>
        match h !! a with
        | None => inl NullDeref
        | Some f =>
          if bool_decide (m_state f = EXEC) then next false
          else inr (false, Some it, q', bool_decide (q' ≠ []))
        end
      | None => inr (false, Some it, q', bool_decide (q' ≠ []))
      end
  end.

(** Where a thread is in run. [cb] tells the fiber made for a function from a
    fiber that was scheduled. *)
Inductive pc : Type :=
| PStart
| PTop
| PPicked (ft : FiberAndThread) (is_active : bool)
| PRun (cb : bool) (a : Z)        (* the fiber runs *)
| PBack (cb : bool) (a : Z)       (* swapIn has returned *)
| PAfter (cb : bool) (a : Z)      (* after --m_activeThreadCount *)
| PIdle
| PIdleBack
| PDone.

(** A thread's local variables of run, its thread_locals, the shared state. *)
Record SS : Type := mkSS {
  fs : FS;
  sch : Sched;
  cb_fiber : option Z;
  idle_fiber : option Z
}.
Definition onF {A} (c : M FS A) : M SS A := λ s,
  match c (fs s) with
  | Ok a f => Ok a (mkSS f (sch s) (cb_fiber s) (idle_fiber s))
  | Exc e f => Exc e (mkSS f (sch s) (cb_fiber s) (idle_fiber s))
  | Stop u => Stop u
  | NoFuel => NoFuel
  end.
Definition onS (g : Sched → Sched) : M SS unit :=
  mmodify (λ s, mkSS (fs s) (g (sch s)) (cb_fiber s) (idle_fiber s)).
Definition set_cb_fiber (c : option Z) : M SS unit :=
  mmodify (λ s, mkSS (fs s) (sch s) c (idle_fiber s)).
Definition set_idle_fiber (c : option Z) : M SS unit :=
  mmodify (λ s, mkSS (fs s) (sch s) (cb_fiber s) c).

Definition inc_active : M SS unit := onS (λ s, set_active (u64 (m_activeThreadCount s + 1)) s).
Definition dec_active : M SS unit := onS (λ s, set_active (u64 (m_activeThreadCount s - 1)) s).
Definition inc_idle : M SS unit := onS (λ s, set_idle (u64 (m_idleThreadCount s + 1)) s).
Definition dec_idle : M SS unit := onS (λ s, set_idle (u64 (m_idleThreadCount s - 1)) s).

(** What the section depends on besides the state: the addresses [new]
    returns and how a fiber's body gives the thread back. *)
Record choice : Type := mkChoice { new1 : Z; new2 : Z; how : leave }.

Section Run.
Context (g_fiber_stack_size : Z).

(** The start of run. The idle fiber's function is number 0. *)
Definition run_enter (tid : Z) (ch : choice) : M SS pc :=
  s ← mget;
  (if negb (tid =? m_rootThread (sch s))
   then
     main ← onF (GetThis (new1 ch));
     onF (mmodify (λ f, set_loc (loc_sched (Some main) (loc f)) f))
   else mret tt);;
  onF (Fiber_new g_fiber_stack_size (new2 ch) (Some 0) 0 false);;
  set_idle_fiber (Some (new2 ch));;
  mret PTop.

(** The part of the loop under the lock, and tickle. *)
Definition run_pick (tid : Z) : M SS pc :=
  s ← mget;
  match pick (fibers (fs s)) tid (m_fibers (sch s)) with
  | inl u => mstop u
  | inr (skipped, found, rest, more) =>
    onS (set_queue rest);;
    (match found with Some _ => inc_active | None => mret tt end);;
    (if skipped || more then onS tickle else mret tt);;
    mret (match found with
          | Some ft => PPicked ft true
          | None => PPicked FT_empty false
          end)
  end.

(** The branch for ft.cb. *)
Definition run_cb (ch : choice) (cb : option Z) : M SS pc :=
  s ← mget;
  c ← (match cb_fiber s with
       | Some c => onF (reset c cb);; mret c
       | None =>
         onF (Fiber_new g_fiber_stack_size (new1 ch) cb 0 false);;
         set_cb_fiber (Some (new1 ch));;
         mret (new1 ch)
       end);
  onF (swapIn c);;
  mret (PRun true c).

(** The branch without a task. *)
Definition run_idle (is_active : bool) : M SS pc :=
  if is_active then dec_active;; mret PTop
  else
    s ← mget;
    i ← mderef NullDeref (idle_fiber s);
    f ← onF (fget i);
    if bool_decide (m_state f = TERM) then mret PDone
    else
      inc_idle;;
      onF (swapIn i);;
      mret PIdle.

(** From the queue to the context switch. *)
Definition run_dispatch (ch : choice) (ft : FiberAndThread) (is_active : bool) : M SS pc :=
  alive ← (match ft_fiber ft with
           | Some a => f ← onF (fget a);
               mret (bool_decide (m_state f ≠ TERM) && bool_decide (m_state f ≠ EXCEPT))
           | None => mret false
           end);
  match ft_fiber ft with
  | Some a =>
    if (alive : bool) then onF (swapIn a);; mret (PRun false a)
    else if bool_decide (ft_cb ft ≠ None) then run_cb ch (ft_cb ft) else run_idle is_active
  | None => if bool_decide (ft_cb ft ≠ None) then run_cb ch (ft_cb ft) else run_idle is_active
  end.

(** After a scheduled fiber gave the thread back. *)
Definition run_after_fiber (a : Z) : M SS pc :=
  f ← onF (fget a);
  (match m_state f with
   | READY => onS (schedule (FT_fiber (Some a) (-1)))
   | TERM | EXCEPT => mret tt
   | _ => onF (fstate a HOLD)
   end);;
  mret PTop.

(** After the fiber of a function gave the thread back. *)
Definition run_after_cb (a : Z) : M SS pc :=
  f ← onF (fget a);
  (match m_state f with
   | READY => onS (schedule (FT_fiber (Some a) (-1)));; set_cb_fiber None
   | TERM | EXCEPT => onF (reset a None)
   | _ => onF (fstate a HOLD);; set_cb_fiber None
   end);;
  mret PTop.

(** Scheduler::idle up to its next context switch. *)
Definition idle (ch : choice) : M SS pc :=
  s ← mget;
  (if stopping (sch s) then onF (MainFunc (new1 ch) false) else onF (YieldToHold (new1 ch)));;
  mret PIdleBack.

(** After the idle fiber gave the thread back. *)
Definition run_after_idle : M SS pc :=
  dec_idle;;
  s ← mget;
  i ← mderef NullDeref (idle_fiber s);
  f ← onF (fget i);
  (if bool_decide (m_state f ≠ TERM) && bool_decide (m_state f ≠ EXCEPT)
   then onF (fstate i HOLD) else mret tt);;
  mret PTop.

Definition section (tid : Z) (ch : choice) (p : pc) : M SS pc :=
  match p with
  | PStart => run_enter tid ch
  | PTop => run_pick tid
  | PPicked ft is_active => run_dispatch ch ft is_active
  | PRun cb a => onF (leaving (how ch) (new1 ch));; mret (PBack cb a)
  | PBack cb a => dec_active;; mret (PAfter cb a)
  | PAfter cb a => if cb then run_after_cb a else run_after_fiber a
  | PIdle => idle ch
  | PIdleBack => run_after_idle
  | PDone => mret PDone
  end.

End Run.
