(* ===== verification/SchedulerRun.v ===== *)
(** The threads of a Scheduler together: interleavings of the sections of run
    and of user code, and the invariant that makes them safe. *)

From stdpp Require Import base list gmap sets.
From Stdlib Require Import Lia.
From S2P Require Import Prelude Fiber Scheduler.

(** ** The world *)

Record Thread : Type := mkThread {
  th_pc : pc;
  th_loc : Local;
  th_cb : option Z;      (* cb_fiber *)
  th_idle : option Z     (* idle_fiber *)
}.

Record World : Type := mkWorld {
  w_fibers : gmap Z Fiber;
  w_ids : Z;             (* s_fiber_id *)
  w_count : Z;           (* s_fiber_count *)
  w_sched : Sched;
  w_threads : gmap Z Thread
}.

Definition load (w : World) (th : Thread) : SS :=
  mkSS (mkFS (w_fibers w) (th_loc th) (w_ids w) (w_count w)) (w_sched w) (th_cb th) (th_idle th).
Definition save (w : World) (tid : Z) (p : pc) (s : SS) : World :=
  mkWorld (fibers (fs s)) (s_fiber_id (fs s)) (s_fiber_count (fs s)) (sch s)
    (<[tid := mkThread p (loc (fs s)) (cb_fiber s) (idle_fiber s)]> (w_threads w)).

(** The fiber a thread has taken from the queue or made for a function. *)
Definition holds (p : pc) : option Z :=
  match p with
  | PPicked ft _ => ft_fiber ft
  | PRun _ a | PBack _ a | PAfter _ a => Some a
  | _ => None
  end.

(** The fibers that are a thread's own. *)
Definition owns (th : Thread) (x : Z) : Prop :=
  t_sheduler_fiber (th_loc th) = Some x ∨ th_idle th = Some x ∨ th_cb th = Some x ∨
  holds (th_pc th) = Some x.

(** The fibers in the queue. *)
Definition queued (q : list FiberAndThread) : list Z := omap ft_fiber q.

Definition fresh_in (w : World) (a : Z) : Prop := w_fibers w !! a = None.

(** The rule for user code, which Scheduler::schedule does not check: a fiber is
    scheduled by its only waker. It is not in the queue; no thread owns it,
    unless it is still running there on its way to YieldToHold. Without it a
    fiber can be taken by two threads (SchedulerProps.scheduled_twice_fails). *)
Definition may_schedule (w : World) (x : Z) : Prop :=
  (x ∉ queued (m_fibers (w_sched w))) ∧
  ∃ f, w_fibers w !! x = Some f ∧ m_stack f = true ∧
  ∀ tid th, w_threads w !! tid = Some th → owns th x → holds (th_pc th) = Some x ∧ m_state f = EXEC.

(** What a section needs: new addresses are new, and, as the second rule for user
    code, a fiber that somebody has already scheduled again only gives up the
    thread by YieldToHold. *)
Definition section_ok (w : World) (th : Thread) (ch : choice) : Prop :=
  fresh_in w (new1 ch) ∧ fresh_in w (new2 ch) ∧ new1 ch ≠ new2 ch ∧ th_pc th ≠ PDone ∧
  ∀ cb a, th_pc th = PRun cb a → a ∈ queued (m_fibers (w_sched w)) → how ch = LHold.

Definition no_local : Local := mkLocal None None None None.

Section Steps.
Context (g_fiber_stack_size : Z).

Inductive step (w : World) : World → Prop :=
| step_section tid th ch p s :
    w_threads w !! tid = Some th → section_ok w th ch →
    section g_fiber_stack_size tid ch (th_pc th) (load w th) = Ok p s →
    step w (save w tid p s)
| step_schedule_fiber x thr :
    may_schedule w x →
    step w (mkWorld (w_fibers w) (w_ids w) (w_count w)
              (schedule (FT_fiber (Some x) thr) (w_sched w)) (w_threads w))
| step_schedule_cb c thr :
    step w (mkWorld (w_fibers w) (w_ids w) (w_count w)
              (schedule (FT_cb (Some c) thr) (w_sched w)) (w_threads w))
| step_new_fiber a cb size s :
    fresh_in w a →
    Fiber_new g_fiber_stack_size a cb size false (mkFS (w_fibers w) no_local (w_ids w) (w_count w))
      = Ok tt s →
    step w (mkWorld (fibers s) (s_fiber_id s) (s_fiber_count s) (w_sched w) (w_threads w))
| step_spawn tid :
    w_threads w !! tid = None → tid ≠ m_rootThread (w_sched w) →
    step w (mkWorld (w_fibers w) (w_ids w) (w_count w) (w_sched w)
              (<[tid := mkThread PStart no_local None None]> (w_threads w)))
| step_root r tf :
    w_threads w !! m_rootThread (w_sched w) = None →
    may_schedule w r → (∀ tid th, w_threads w !! tid = Some th → ¬ owns th r) →
    step w (mkWorld (w_fibers w) (w_ids w) (w_count w) (w_sched w)
              (<[m_rootThread (w_sched w) :=
                 mkThread PStart (mkLocal (Some r) tf (Some r) (Some r)) None None]> (w_threads w)))
| step_stop stopping' autoStop' :
    step w (mkWorld (w_fibers w) (w_ids w) (w_count w)
              (set_stop stopping' autoStop' (w_sched w)) (w_threads w)).

Definition boot (s : Sched) : World := mkWorld ∅ 0 0 s ∅.

Inductive reachable (s0 : Sched) : World → Prop :=
| reach_boot : reachable s0 (boot s0)
| reach_step w w' : reachable s0 w → step w w' → reachable s0 w'.

End Steps.

(** ** The invariant *)

Definition idle_at_rest (h : gmap Z Fiber) (i : Z) : Prop :=
  ∃ f, h !! i = Some f ∧ m_state f ≠ EXEC.
Definition in_state (h : gmap Z Fiber) (a : Z) (P : State → Prop) : Prop :=
  ∃ f, h !! a = Some f ∧ m_stack f = true ∧ P (m_state f).

(** What is true of a thread at each place of run. *)
Definition at_pc (h : gmap Z Fiber) (th : Thread) (main i : Z) : Prop :=
  match th_pc th with
  | PStart => False
  | PTop => executes main (th_loc th) ∧ idle_at_rest h i
  | PPicked ft act => executes main (th_loc th) ∧ idle_at_rest h i ∧
      (ft_some ft = true → act = true) ∧
      ∀ a, ft_fiber ft = Some a → in_state h a (λ st, st ≠ EXEC) ∧ th_cb th ≠ Some a
  | PRun cb a => executes a (th_loc th) ∧ idle_at_rest h i ∧
      in_state h a (λ st, st = EXEC) ∧ (th_cb th = Some a ↔ cb = true)
  | PBack cb a | PAfter cb a => executes main (th_loc th) ∧ idle_at_rest h i ∧
      in_state h a (λ _, True) ∧ (th_cb th = Some a ↔ cb = true)
  | PIdle => executes i (th_loc th) ∧ in_state h i (λ st, st = EXEC)
  | PIdleBack | PDone => executes main (th_loc th)
  end.

(** A spare cb_fiber is ready to be reset. *)
Definition spare_ok (h : gmap Z Fiber) (th : Thread) : Prop :=
  ∀ c, th_cb th = Some c → holds (th_pc th) ≠ Some c → in_state h c (λ st, st = INIT).

Definition started (h : gmap Z Fiber) (th : Thread) : Prop :=
  ∃ main i, t_sheduler_fiber (th_loc th) = Some main ∧ th_idle th = Some i ∧
    is_Some (h !! main) ∧ in_state h i (λ _, True) ∧ main ≠ i ∧
    (∀ x, th_cb th = Some x ∨ holds (th_pc th) = Some x → x ≠ main ∧ x ≠ i) ∧
    spare_ok h th ∧ at_pc h th main i.

Definition not_started (h : gmap Z Fiber) (root tid : Z) (th : Thread) : Prop :=
  th_pc th = PStart ∧ th_cb th = None ∧ th_idle th = None ∧
  ((tid ≠ root ∧ th_loc th = no_local) ∨
   (tid = root ∧ ∃ r, t_sheduler_fiber (th_loc th) = Some r ∧ executes r (th_loc th) ∧ is_Some (h !! r))).

Definition thread_ok (h : gmap Z Fiber) (root tid : Z) (th : Thread) : Prop :=
  not_started h root tid th ∨ started h th.

(** The counters count the threads in these places. *)
Definition is_active_pc (p : pc) : bool :=
  match p with PPicked _ act => act | PRun _ _ | PBack _ _ => true | _ => false end.
Definition is_idle_pc (p : pc) : bool :=
  match p with PIdle | PIdleBack => true | _ => false end.
Definition count_pc (P : pc → bool) (ths : gmap Z Thread) : nat :=
  size (filter (λ '(_, th), P (th_pc th) = true) ths).

Record world_inv (w : World) : Prop := {
  wi_threads tid th : w_threads w !! tid = Some th →
    thread_ok (w_fibers w) (m_rootThread (w_sched w)) tid th;
  wi_excl t1 t2 th1 th2 x : w_threads w !! t1 = Some th1 → w_threads w !! t2 = Some th2 →
    owns th1 x → owns th2 x → t1 = t2;
  wi_nodup : NoDup (queued (m_fibers (w_sched w)));
  wi_tasks ft : ft ∈ m_fibers (w_sched w) → ft_some ft = true;
  wi_queued x : x ∈ queued (m_fibers (w_sched w)) →
    ∃ f, w_fibers w !! x = Some f ∧ m_stack f = true ∧
    ∀ tid th, w_threads w !! tid = Some th → owns th x → holds (th_pc th) = Some x ∧ m_state f = EXEC;
  wi_active : m_activeThreadCount (w_sched w) = u64 (Z.of_nat (count_pc is_active_pc (w_threads w)));
  wi_idle : m_idleThreadCount (w_sched w) = u64 (Z.of_nat (count_pc is_idle_pc (w_threads w)))
}.

(** ** Counting *)

Definition b2n (b : bool) : nat := if b then 1%nat else 0%nat.

Lemma count_insert_new P ths tid th :
  ths !! tid = None → count_pc P (<[tid := th]> ths) = (b2n (P (th_pc th)) + count_pc P ths)%nat.
Proof.
  intros Hn. unfold count_pc. destruct (P (th_pc th)) eqn:E.
  - rewrite map_filter_insert_True by done. rewrite map_size_insert_None; [done|].
    apply map_lookup_filter_None. by left.
  - rewrite map_filter_insert_False by (by rewrite E). by rewrite delete_id by done.
Qed.

Lemma count_update P ths tid th th' :
  ths !! tid = Some th →
  (b2n (P (th_pc th)) + count_pc P (<[tid := th']> ths))%nat
  = (b2n (P (th_pc th')) + count_pc P ths)%nat.
Proof.
  intros Ht. rewrite <- (insert_delete_id ths tid th Ht) at 2.
  rewrite <- insert_delete_eq.
  rewrite !count_insert_new by apply lookup_delete_eq. lia.
Qed.

(** The counter after a section that adds [d] to it. *)
Lemma counter_update P ths tid th th' n d :
  ths !! tid = Some th → n = u64 (Z.of_nat (count_pc P ths)) →
  Z.of_nat (b2n (P (th_pc th'))) = Z.of_nat (b2n (P (th_pc th))) + d →
  u64 (n + d) = u64 (Z.of_nat (count_pc P (<[tid := th']> ths))).
Proof.
  intros Ht -> Hd. pose proof (count_update P ths tid th th' Ht) as E.
  unfold wrapu. rewrite Zplus_mod_idemp_l. f_equal. lia.
Qed.

Lemma counter_same P ths tid th th' n :
  ths !! tid = Some th → n = u64 (Z.of_nat (count_pc P ths)) →
  P (th_pc th') = P (th_pc th) → n = u64 (Z.of_nat (count_pc P (<[tid := th']> ths))).
Proof.
  intros Ht -> Hd. pose proof (count_update P ths tid th th' Ht) as E. rewrite Hd in E.
  do 2 f_equal. lia.
Qed.

(** ** Framing *)

Lemma in_state_frame h h' a P : h' !! a = h !! a → in_state h a P → in_state h' a P.
Proof. unfold in_state. by intros ->. Qed.

Lemma in_state_weaken h a (P Q : State → Prop) :
  (∀ st, P st → Q st) → in_state h a P → in_state h a Q.
Proof. intros H (f & ? & ? & ?). exists f. auto. Qed.

Lemma owns_alloc h root tid th x :
  thread_ok h root tid th → owns th x → is_Some (h !! x).
Proof.
  intros [(Hp & Hc & Hi & Hl)|(main & i & Hm & Hi & Hal & Hist & Hne & Hx & Hsp & Hpc)] Ho.
  - destruct Ho as [Ho|[Ho|[Ho|Ho]]]; [|congruence|congruence|by rewrite Hp in Ho].
    destruct Hl as [[_ Hl]|(_ & r & Hr & _ & ?)]; [by rewrite Hl in Ho|congruence].
  - assert (holds (th_pc th) = Some x → is_Some (h !! x)) as Hh.
    { unfold at_pc in Hpc. intros Hho.
      destruct (th_pc th); cbn in Hho; try done; try (injection Hho as ->).
      - destruct Hpc as (_ & _ & _ & Hpc). destruct (Hpc x Hho) as [(f & -> & _) _]. by eexists.
      - destruct Hpc as (_ & _ & (f & -> & _) & _). by eexists.
      - destruct Hpc as (_ & _ & (f & -> & _) & _). by eexists.
      - destruct Hpc as (_ & _ & (f & -> & _) & _). by eexists. }
    destruct Ho as [Ho|[Ho|[Ho|Ho]]]; [congruence| | |by apply Hh].
    + destruct Hist as (f & Hf & _). rewrite Ho in Hi. injection Hi as ->. by exists f.
    + destruct (decide (holds (th_pc th) = Some x)) as [|Hn]; [by apply Hh|].
      destruct (Hsp x Ho Hn) as (f & Hf & _). by exists f.
Qed.

Lemma thread_ok_frame h h' root tid th :
  (∀ x, owns th x → h' !! x = h !! x) → thread_ok h root tid th → thread_ok h' root tid th.
Proof.
  intros Hfr [(Hp & Hc & Hi & Hl)|(main & i & Hm & Hi & Hal & Hist & Hne & Hx & Hsp & Hpc)];
    [left|right].
  - split_and!; try done. destruct Hl as [Hl|(Ht & r & Hr & He & Hal)]; [by left|right].
    split; [done|]. exists r. split_and!; try done; try apply He. rewrite Hfr; [done|]. by left.
  - assert (h' !! main = h !! main) as Em by (apply Hfr; by left).
    assert (h' !! i = h !! i) as Ei by (apply Hfr; right; by left).
    assert (∀ x, holds (th_pc th) = Some x → h' !! x = h !! x) as Eh
      by (intros x Hh; apply Hfr; by do 3 right).
    exists main, i. split_and!; try done; [by rewrite Em|by eapply in_state_frame| |].
    + intros c Hc Hn. eapply in_state_frame, Hsp; [|done|done]. apply Hfr. right; right; by left.
    + unfold at_pc, idle_at_rest in *.
      destruct (th_pc th); try done; cbn in Eh; rewrite ?Ei; try done.
      * destruct Hpc as (He & Hr & Hact & Hpc). split_and!; try done; try apply He.
        intros a Ha. destruct (Hpc a Ha) as [Hst Hcb]. split; [|done].
        eapply in_state_frame, Hst. by apply Eh.
      * destruct Hpc as (He & Hr & Hst & Hcb). split_and!; try done; try apply He; try apply Hcb.
        eapply in_state_frame, Hst. by apply Eh.
      * destruct Hpc as (He & Hr & Hst & Hcb). split_and!; try done; try apply He; try apply Hcb.
        eapply in_state_frame, Hst. by apply Eh.
      * destruct Hpc as (He & Hr & Hst & Hcb). split_and!; try done; try apply He; try apply Hcb.
        eapply in_state_frame, Hst. by apply Eh.
      * destruct Hpc as (He & Hst). split; [done|]. by eapply in_state_frame.
Qed.

(** Nobody but [tid] owns [x]. *)
Definition unowned_but (w : World) (tid x : Z) : Prop :=
  ∀ t2 th2, t2 ≠ tid → w_threads w !! t2 = Some th2 → ¬ owns th2 x.

Lemma own_unowned w tid th x :
  world_inv w → w_threads w !! tid = Some th → owns th x → unowned_but w tid x.
Proof. intros HI Ht Ho t2 th2 Hne H2 Ho2. apply Hne. by eapply (wi_excl w HI). Qed.

Lemma fresh_unowned w tid x : world_inv w → fresh_in w x → unowned_but w tid x.
Proof.
  intros HI Hf t2 th2 _ H2 Ho. destruct (owns_alloc _ _ _ _ _ (wi_threads w HI _ _ H2) Ho) as [f E].
  unfold fresh_in in Hf. congruence.
Qed.

(** What a section of thread [tid] has to establish: about its own thread,
    and about the queue when it changes it. *)
Record section_inv (w : World) (tid : Z) (th : Thread) (w' : World) (th' : Thread) : Prop := {
  si_threads : w_threads w' = <[tid := th']> (w_threads w);
  si_root : m_rootThread (w_sched w') = m_rootThread (w_sched w);
  si_ok : thread_ok (w_fibers w') (m_rootThread (w_sched w)) tid th';
  si_owns x : owns th' x → unowned_but w tid x;
  si_heap x : w_fibers w' !! x ≠ w_fibers w !! x → unowned_but w tid x;
  si_nodup : NoDup (queued (m_fibers (w_sched w')));
  si_tasks ft : ft ∈ m_fibers (w_sched w') → ft_some ft = true;
  si_queued x : x ∈ queued (m_fibers (w_sched w')) →
    (x ∈ queued (m_fibers (w_sched w)) ∨ unowned_but w tid x) ∧
    in_state (w_fibers w') x (λ st, owns th' x → holds (th_pc th') = Some x ∧ st = EXEC);
  si_active : m_activeThreadCount (w_sched w')
    = u64 (m_activeThreadCount (w_sched w) + Z.of_nat (b2n (is_active_pc (th_pc th')))
           - Z.of_nat (b2n (is_active_pc (th_pc th))));
  si_idle : m_idleThreadCount (w_sched w')
    = u64 (m_idleThreadCount (w_sched w) + Z.of_nat (b2n (is_idle_pc (th_pc th')))
           - Z.of_nat (b2n (is_idle_pc (th_pc th))))
}.

Lemma section_keeps w tid th w' th' :
  world_inv w → w_threads w !! tid = Some th → section_inv w tid th w' th' → world_inv w'.
Proof.
  intros HI Ht HS.
  assert (∀ t2 th2 x, t2 ≠ tid → w_threads w !! t2 = Some th2 → owns th2 x →
            w_fibers w' !! x = w_fibers w !! x) as Hframe.
  { intros t2 th2 x Hne H2 Ho. destruct (decide (w_fibers w' !! x = w_fibers w !! x)); [done|].
    exfalso. by eapply (si_heap _ _ _ _ _ HS). }
  split.
  - intros t2 th2. rewrite (si_threads _ _ _ _ _ HS), (si_root _ _ _ _ _ HS).
    intros [[<- <-]|[Hne H2]]%lookup_insert_Some; [apply HS|].
    eapply thread_ok_frame; [|by apply (wi_threads w HI)]. intros x Ho. by eapply Hframe.
  - intros t1 t2 th1 th2 x. rewrite (si_threads _ _ _ _ _ HS).
    intros [[<- <-]|[Hn1 H1]]%lookup_insert_Some [[<- <-]|[Hn2 H2]]%lookup_insert_Some Ho1 Ho2;
      [done| | |by eapply (wi_excl w HI)].
    + exfalso. by eapply (si_owns _ _ _ _ _ HS x Ho1 t2).
    + exfalso. by eapply (si_owns _ _ _ _ _ HS x Ho2 t1).
  - apply HS.
  - apply HS.
  - intros x Hx. destruct (si_queued _ _ _ _ _ HS x Hx) as [Hold (f & Hf & Hk & Hst)].
    exists f. split; [done|]. split; [done|]. intros t2 th2. rewrite (si_threads _ _ _ _ _ HS).
    intros [[<- <-]|[Hne H2]]%lookup_insert_Some Ho; [by apply Hst|].
    destruct Hold as [Hold|Hun]; [|by exfalso; eapply Hun].
    destruct (wi_queued w HI x Hold) as (g & Hg & _ & Hg2). rewrite (Hframe t2 th2 x) in Hf by done.
    assert (g = f) as -> by congruence. by eapply Hg2.
  - rewrite (si_active _ _ _ _ _ HS), (si_threads _ _ _ _ _ HS), <- Z.add_sub_assoc.
    eapply counter_update; [done|apply HI|]. lia.
  - rewrite (si_idle _ _ _ _ _ HS), (si_threads _ _ _ _ _ HS), <- Z.add_sub_assoc.
    eapply counter_update; [done|apply HI|]. lia.
Qed.

Lemma counters_range w :
  world_inv w →
  m_activeThreadCount (w_sched w) = u64 (m_activeThreadCount (w_sched w) + 0 - 0) ∧
  m_idleThreadCount (w_sched w) = u64 (m_idleThreadCount (w_sched w) + 0 - 0).
Proof.
  intros HI. rewrite !Z.add_0_r, !Z.sub_0_r, (wi_active w HI), (wi_idle w HI).
  split; symmetry; apply wrapu_small, wrapu_range; lia.
Qed.

#[global] Instance owns_dec th x : Decision (owns th x).
Proof. unfold owns. apply _. Defined.

Lemma fresh_not_queued w x : world_inv w → fresh_in w x → x ∉ queued (m_fibers (w_sched w)).
Proof.
  intros HI Hf Hx. destruct (wi_queued w HI x Hx) as (f & Hf' & _). unfold fresh_in in Hf. congruence.
Qed.

(** The queued fibers when the queue stays as it is: only the fiber the
    thread holds needs an argument. *)
Lemma queued_same w tid th th' h' x :
  world_inv w → w_threads w !! tid = Some th → x ∈ queued (m_fibers (w_sched w)) →
  (owns th' x → owns th x ∨ fresh_in w x) → (¬ owns th x → h' !! x = w_fibers w !! x) →
  (holds (th_pc th) = Some x → in_state (w_fibers w) x (λ st, st = EXEC) →
   in_state h' x (λ st, owns th' x → holds (th_pc th') = Some x ∧ st = EXEC)) →
  in_state h' x (λ st, owns th' x → holds (th_pc th') = Some x ∧ st = EXEC).
Proof.
  intros HI Ht Hx Ho Hh Hheld. destruct (wi_queued w HI x Hx) as (f & Hf & Hk & Hq).
  destruct (decide (owns th x)) as [Hown|Hown].
  - destruct (Hq tid th Ht Hown) as [Hhold Hst]. apply Hheld; [done|]. by exists f.
  - exists f. rewrite Hh by done. split; [done|]. split; [done|].
    intros [|Hfr]%Ho; [done|]. by destruct (fresh_not_queued w x HI Hfr).
Qed.

(** A section that leaves the queue alone. *)
Lemma section_counts w tid th p s :
  world_inv w → w_threads w !! tid = Some th →
  let th' := mkThread p (loc (fs s)) (cb_fiber s) (idle_fiber s) in
  (∃ a i, sch s = set_active (u64 (m_activeThreadCount (w_sched w) + a))
                   (set_idle (u64 (m_idleThreadCount (w_sched w) + i)) (w_sched w)) ∧
     a = Z.of_nat (b2n (is_active_pc p)) - Z.of_nat (b2n (is_active_pc (th_pc th))) ∧
     i = Z.of_nat (b2n (is_idle_pc p)) - Z.of_nat (b2n (is_idle_pc (th_pc th)))) →
  thread_ok (fibers (fs s)) (m_rootThread (w_sched w)) tid th' →
  (∀ x, owns th' x → owns th x ∨ fresh_in w x) →
  (∀ x, fibers (fs s) !! x ≠ w_fibers w !! x → owns th x ∨ fresh_in w x) →
  (∀ x, x ∈ queued (m_fibers (w_sched w)) → holds (th_pc th) = Some x →
     in_state (w_fibers w) x (λ st, st = EXEC) →
     in_state (fibers (fs s)) x (λ st, owns th' x → holds p = Some x ∧ st = EXEC)) →
  section_inv w tid th (save w tid p s) th'.
Proof.
  intros HI Ht th' (a & i & Hs & Ha & Hi) Hok Hown Hheap Hq.
  assert (∀ x, owns th x ∨ fresh_in w x → unowned_but w tid x) as Hun.
  { intros x [Ho|Hf]; [by eapply own_unowned|by apply fresh_unowned]. }
  split; cbn [save w_threads w_fibers w_sched th_pc th']; try done; rewrite ?Hs; try done.
  - intros x Ho. by apply Hun, Hown.
  - intros x Hx. by apply Hun, Hheap.
  - apply HI.
  - apply HI.
  - intros x Hx. split; [by left|]. eapply (queued_same w tid th th'); try done; [by apply Hown| |by apply Hq].
    intros Hno. destruct (decide (fibers (fs s) !! x = w_fibers w !! x)) as [|Hne]; [done|].
    destruct (Hheap x Hne) as [|Hf]; [done|]. by destruct (fresh_not_queued w x HI Hf).
  - cbn. f_equal. lia.
  - cbn. f_equal. lia.
Qed.

(** One that leaves the counters alone too. *)
Lemma section_local w tid th p s :
  world_inv w → w_threads w !! tid = Some th →
  let th' := mkThread p (loc (fs s)) (cb_fiber s) (idle_fiber s) in
  sch s = w_sched w →
  is_active_pc p = is_active_pc (th_pc th) → is_idle_pc p = is_idle_pc (th_pc th) →
  thread_ok (fibers (fs s)) (m_rootThread (w_sched w)) tid th' →
  (∀ x, owns th' x → owns th x ∨ fresh_in w x) →
  (∀ x, fibers (fs s) !! x ≠ w_fibers w !! x → owns th x ∨ fresh_in w x) →
  (∀ x, x ∈ queued (m_fibers (w_sched w)) → holds (th_pc th) = Some x →
     in_state (w_fibers w) x (λ st, st = EXEC) →
     in_state (fibers (fs s)) x (λ st, owns th' x → holds p = Some x ∧ st = EXEC)) →
  section_inv w tid th (save w tid p s) th'.
Proof.
  intros HI Ht th' Hs Ha Hi Hok Hown Hheap Hq. apply section_counts; try done.
  exists 0, 0. rewrite Hs, !Z.add_0_r, (wi_active w HI), (wi_idle w HI), Ha, Hi.
  rewrite !(wrapu_small 64 (u64 _)) by (apply wrapu_range; lia).
  rewrite <- (wi_active w HI), <- (wi_idle w HI). split; [by destruct (w_sched w)|]. lia.
Qed.

(** ** The search of the queue *)

(** A thread may take a task that is for it or for any thread, unless it is a
    fiber that still runs. *)
Definition for_thread (tid : Z) (ft : FiberAndThread) : bool :=
  (ft_thread ft =? -1) || (ft_thread ft =? tid).
Definition is_running (h : gmap Z Fiber) (ft : FiberAndThread) : bool :=
  match ft_fiber ft with
  | Some a => match h !! a with Some f => bool_decide (m_state f = EXEC) | None => false end
  | None => false
  end.
Definition eligible (h : gmap Z Fiber) (tid : Z) (ft : FiberAndThread) : bool :=
  for_thread tid ft && negb (is_running h ft).

Lemma pick_cons_skip h tid it q skipped found rest more :
  eligible h tid it = false → ft_some it = true → (∀ a, ft_fiber it = Some a → is_Some (h !! a)) →
  pick h tid q = inr (skipped, found, rest, more) →
  pick h tid (it :: q) = inr (negb (for_thread tid it) || skipped, found, it :: rest, more).
Proof.
  unfold eligible, for_thread, is_running. intros He Hs Ha E. cbn. rewrite E, Hs.
  destruct (ft_thread it =? -1), (ft_thread it =? tid); cbn in *; try done;
    (destruct (ft_fiber it) as [a|]; [|done]; destruct (Ha a eq_refl) as [f Hf]; rewrite Hf in *;
     by destruct (bool_decide (m_state f = EXEC))).
Qed.

Lemma pick_cons_take h tid it q :
  eligible h tid it = true → ft_some it = true → (∀ a, ft_fiber it = Some a → is_Some (h !! a)) →
  pick h tid (it :: q) = inr (false, Some it, q, bool_decide (q ≠ [])).
Proof.
  unfold eligible, for_thread, is_running. intros He Hs Ha. cbn. rewrite Hs.
  destruct (ft_thread it =? -1), (ft_thread it =? tid); cbn in *; try done;
    (destruct (ft_fiber it) as [a|]; [|done]; destruct (Ha a eq_refl) as [f Hf]; rewrite Hf in *;
     by destruct (bool_decide (m_state f = EXEC))).
Qed.

Lemma pick_first h tid q :
  (∀ ft, ft ∈ q → ft_some ft = true) → (∀ x, x ∈ queued q → is_Some (h !! x)) →
  ∃ found rest skipped more, pick h tid q = inr (skipped, found, rest, more) ∧
  match found with
  | None => rest = q ∧ Forall (λ ft, eligible h tid ft = false) q ∧ more = false ∧
      skipped = existsb (λ ft, negb (for_thread tid ft)) q
  | Some ft => ∃ l r, q = l ++ ft :: r ∧ rest = l ++ r ∧ eligible h tid ft = true ∧
      Forall (λ ft, eligible h tid ft = false) l ∧ more = bool_decide (r ≠ []) ∧
      skipped = existsb (λ ft, negb (for_thread tid ft)) l
  end.
Proof.
  induction q as [|it q IH]; intros Hs Ha.
  { exists None, [], false, false. split; [done|]. split_and!; done. }
  assert (∀ a, ft_fiber it = Some a → is_Some (h !! a)) as Hit.
  { intros a E. apply Ha. unfold queued. cbn. rewrite E. set_solver. }
  assert (ft_some it = true) as Hsit by (apply Hs; set_solver).
  destruct (eligible h tid it) eqn:He.
  { exists (Some it), q, false, (bool_decide (q ≠ [])). split; [by apply pick_cons_take|].
    exists [], q. split_and!; done. }
  destruct IH as (found & rest & skipped & more & E & Hm).
  { intros ft Hft. apply Hs. set_solver. }
  { intros x Hx. apply Ha. unfold queued in *. cbn. destruct (ft_fiber it); set_solver. }
  exists found, (it :: rest), (negb (for_thread tid it) || skipped), more.
  split; [by apply pick_cons_skip|]. destruct found as [ft|].
  - destruct Hm as (l & r & -> & -> & H1 & H2 & H3 & ->). exists (it :: l), r. split_and!; try done. by constructor.
  - destruct Hm as (-> & H1 & H2 & ->). split_and!; try done. by constructor.
Qed.

Lemma queued_app q1 q2 : queued (q1 ++ q2) = queued q1 ++ queued q2.
Proof. unfold queued. apply omap_app. Qed.

Lemma queued_cons ft q : queued (ft :: q) = option_list (ft_fiber ft) ++ queued q.
Proof. unfold queued. cbn. by destruct (ft_fiber ft). Qed.

Lemma schedule_fields ft s :
  ft_some ft = true →
  m_fibers (schedule ft s) = m_fibers s ++ [ft] ∧ m_rootThread (schedule ft s) = m_rootThread s ∧
  m_activeThreadCount (schedule ft s) = m_activeThreadCount s ∧
  m_idleThreadCount (schedule ft s) = m_idleThreadCount s.
Proof. intros Hf. unfold schedule, scheduleNoLock. rewrite Hf. by case_bool_decide. Qed.

(** ** Each section is safe *)

(** Reduces a section's obligation to what [lem] asks for. *)
Ltac by_section lem :=
  match goal with
  | |- section_inv ?w ?tid ?th (save _ _ ?p ?s) _ => apply (lem w tid th p s)
  end.

Lemma onF_ok {A} (c : M FS A) s a f :
  c (fs s) = Ok a f → onF c s = Ok a (mkSS f (sch s) (cb_fiber s) (idle_fiber s)).
Proof. intros E. unfold onF. by rewrite E. Qed.

Section Sections.
Context (stk : Z) (w : World) (tid : Z) (th : Thread) (ch : choice).
Context (HI : world_inv w) (Ht : w_threads w !! tid = Some th) (Hok : section_ok w th ch).

(** The section returns, and the world after it satisfies the invariant. *)
Definition safe_section : Prop :=
  ∃ p s, section stk tid ch (th_pc th) (load w th) = Ok p s ∧
    section_inv w tid th (save w tid p s) (mkThread p (loc (fs s)) (cb_fiber s) (idle_fiber s)).

Lemma is_started : th_pc th ≠ PStart → started (w_fibers w) th.
Proof. intros Hp. destruct (wi_threads w HI tid th Ht) as [(E & _)|?]; done. Qed.

Lemma enter_safe : th_pc th = PStart → safe_section.
Proof.
  intros Hp. unfold safe_section. rewrite Hp. cbn [section].
  destruct Hok as (Hf1 & Hf2 & Hne & _ & _). unfold fresh_in in Hf1, Hf2.
  destruct (wi_threads w HI tid th Ht) as [(_ & Hc & Hi & Hl)|(main & i & _ & _ & _ & _ & _ & _ & _ & Hpc)];
    [|unfold at_pc in Hpc; by rewrite Hp in Hpc].
  unfold run_enter, load, GetThis, Fiber_main, Fiber_new, fset, SetThis, onF, set_idle_fiber. mred. cbn.
  destruct Hl as [[Hr Hl]|(Hr & r & Hr1 & [Hr2 Hr3] & [fr Hr4])].
  - rewrite Hl. rewrite (proj2 (Z.eqb_neq _ _)) by done. cbn.
    rewrite bool_decide_true by done. cbn.
    eexists _, _. split; [reflexivity|]. apply section_local; cbn; try done; rewrite ?Hp, ?Hc; try done.
    + right. exists (new1 ch), (new2 ch). split_and!; try done.
      * cbn. rewrite lookup_insert_ne, lookup_insert_eq by done. by eexists.
      * eexists. rewrite lookup_insert_eq. split_and!; done.
      * cbn. naive_solver.
      * cbn. split; [done|]. eexists. rewrite lookup_insert_eq. by split.
    + intros x [E|[E|[E|E]]]; cbn in E; try done; injection E as <-; by right.
    + intros x Hx. right. unfold fresh_in. destruct (decide (x = new2 ch)) as [->|]; [done|].
      destruct (decide (x = new1 ch)) as [->|]; [done|]. by rewrite !lookup_insert_ne in Hx by done.
  - rewrite (proj2 (Z.eqb_eq _ _) Hr). cbn.
    eexists _, _. split; [reflexivity|]. apply section_local; cbn; try done; rewrite ?Hp, ?Hc; try done.
    + right. exists r, (new2 ch). assert (r ≠ new2 ch) by congruence. split_and!; try done.
      * cbn. rewrite lookup_insert_ne by done. by eexists.
      * eexists. rewrite lookup_insert_eq. split_and!; done.
      * cbn. naive_solver.
      * cbn. split; [done|]. eexists. rewrite lookup_insert_eq. by split.
    + intros x [E|[E|[E|E]]]; cbn in E; try done.
      * left. by left.
      * injection E as <-. by right.
    + intros x Hx. right. unfold fresh_in. destruct (decide (x = new2 ch)) as [->|]; [done|].
      by rewrite !lookup_insert_ne in Hx by done.
Qed.

(** The scheduler after the search. *)
Definition picked (found : option FiberAndThread) (rest : list FiberAndThread) (t : bool) (s : Sched) : Sched :=
  let s1 := set_queue rest s in
  let s2 := if found is Some _ then set_active (u64 (m_activeThreadCount s1 + 1)) s1 else s1 in
  if t then tickle s2 else s2.

Lemma picked_fields found rest t s :
  m_fibers (picked found rest t s) = rest ∧ m_rootThread (picked found rest t s) = m_rootThread s ∧
  m_activeThreadCount (picked found rest t s)
    = (if found is Some _ then u64 (m_activeThreadCount s + 1) else m_activeThreadCount s) ∧
  m_idleThreadCount (picked found rest t s) = m_idleThreadCount s.
Proof. by destruct found, t. Qed.

Lemma run_pick_eq s skipped found rest more :
  pick (fibers (fs s)) tid (m_fibers (sch s)) = inr (skipped, found, rest, more) →
  run_pick tid s =
  Ok (match found with Some ft => PPicked ft true | None => PPicked FT_empty false end)
     (mkSS (fs s) (picked found rest (skipped || more) (sch s)) (cb_fiber s) (idle_fiber s)).
Proof.
  intros E. unfold run_pick, onS, inc_active. mred. rewrite E. by destruct found, (skipped || more).
Qed.

(** A task that the search takes becomes the thread's own. *)
Lemma taken ft l r x :
  m_fibers (w_sched w) = l ++ ft :: r → eligible (w_fibers w) tid ft = true → ft_fiber ft = Some x →
  in_state (w_fibers w) x (λ st, st ≠ EXEC) ∧ (¬ owns th x) ∧ unowned_but w tid x ∧ x ∉ queued (l ++ r).
Proof.
  intros Hq Hel Hxf. assert (x ∈ queued (m_fibers (w_sched w))) as Hxq.
  { rewrite Hq, queued_app, queued_cons, Hxf. set_solver. }
  destruct (wi_queued w HI x Hxq) as (f & Hf & Hk & Hown).
  assert (m_state f ≠ EXEC) as Hst.
  { unfold eligible, is_running in Hel. rewrite Hxf, Hf in Hel.
    apply andb_true_iff in Hel as [_ Hel%negb_true_iff]. by apply bool_decide_eq_false in Hel. }
  split; [by exists f|]. split; [intros Ho; by destruct (Hown _ _ Ht Ho)|].
  split; [intros t2 th2 _ H2 Ho; by destruct (Hown _ _ H2 Ho)|].
  pose proof (wi_nodup w HI) as Hnd. rewrite Hq, queued_app, queued_cons, Hxf in Hnd. cbn in Hnd.
  rewrite <- Permutation_middle in Hnd. apply NoDup_cons in Hnd as [Hnd _]. by rewrite queued_app.
Qed.

Lemma pick_safe : th_pc th = PTop → safe_section.
Proof.
  intros Hp. destruct (is_started ltac:(by rewrite Hp)) as (main & i & Hm & Hi & Hal & Hist & Hne & Hx & Hsp & Hpc).
  unfold safe_section. rewrite Hp. cbn [section]. unfold at_pc in Hpc. rewrite Hp in *. destruct Hpc as [He Hr].
  destruct (pick_first (w_fibers w) tid (m_fibers (w_sched w))) as (found & rest & skipped & more & E & Hf).
  { apply HI. }
  { intros x Hxq. destruct (wi_queued w HI x Hxq) as (f & Hf & _). by exists f. }
  rewrite (run_pick_eq (load w th) _ _ _ _ E). eexists _, _. split; [reflexivity|]. cbn [load fs sch cb_fiber idle_fiber loc].
  destruct (picked_fields found rest (skipped || more) (w_sched w)) as (Eq & Er & Ea & Ei).
  assert (∀ x, x ∈ queued (m_fibers (w_sched w)) → ¬ owns th x) as Hnown.
  { intros x Hxq Ho. destruct (wi_queued w HI x Hxq) as (f & _ & _ & Hq).
    destruct (Hq tid th Ht Ho) as [Hh _]. by rewrite Hp in Hh. }
  set (th' := mkThread _ _ _ _). destruct found as [ft|].
  - destruct Hf as (l & r & Hq & -> & Hel & Hnel & _).
    assert (∀ x, owns th' x → owns th x ∨ ft_fiber ft = Some x) as Hown'.
    { intros x [?|[?|[?|Hh]]]; [by left; left|left; right; by left|left; right; right; by left|by right]. }
    split; cbn [save w_threads w_sched w_fibers sch fs fibers]; rewrite ?Eq, ?Er, ?Ea, ?Ei; try done.
    + right. exists main, i. split_and!; try done.
      * intros x [Hc|Hc]; [apply Hx; by left|]. destruct (taken ft l r x Hq Hel Hc) as (_ & Hno & _).
        split; intros ->; apply Hno; [by left|right; by left].
      * intros c Hc _. apply (Hsp c Hc). by rewrite Hp.
      * cbn. split_and!; try done; try apply He. intros a Ha.
        destruct (taken ft l r a Hq Hel Ha) as (Hin & Hno & _). split; [done|].
        intros Hcb. apply Hno. right; right; by left.
    + intros x [Ho|Hf]%Hown'; [by eapply own_unowned|]. by destruct (taken ft l r x Hq Hel Hf) as (_ & _ & ? & _).
    + pose proof (wi_nodup w HI) as Hnd. rewrite Hq, queued_app, queued_cons in Hnd. rewrite queued_app.
      apply NoDup_app in Hnd as (H1 & H2 & [_ [_ H3]]%NoDup_app). apply NoDup_app. set_solver.
    + intros ft' Hft. apply (wi_tasks w HI). rewrite Hq. set_solver.
    + intros x Hxq. assert (x ∈ queued (m_fibers (w_sched w))) as Hxo.
      { rewrite Hq, queued_app, queued_cons. rewrite queued_app in Hxq. set_solver. }
      split; [by left|]. destruct (wi_queued w HI x Hxo) as (f & Hf & Hk & _).
      exists f. split; [done|]. split; [done|]. intros [Ho|Hft]%Hown'; [by destruct (Hnown x Hxo)|].
      by destruct (taken ft l r x Hq Hel Hft) as (_ & _ & _ & ?).
    + cbn. rewrite Hp. cbn. f_equal. lia.
    + cbn. rewrite Hp. apply (counters_range w HI).
  - destruct Hf as (-> & _). 
    split; cbn [save w_threads w_sched w_fibers sch fs fibers]; rewrite ?Eq, ?Er, ?Ea, ?Ei; try done; try exact (wi_nodup w HI); try exact (wi_tasks w HI).
    + right. exists main, i. split_and!; try done.
      * intros c Hc _. apply (Hsp c Hc). by rewrite Hp.
    + intros x [Ho|[Ho|[Ho|Ho]]]; [..|done]; eapply own_unowned; try done; [by left|right; by left|right; right; by left].
    + intros x Hxq. split; [by left|]. destruct (wi_queued w HI x Hxq) as (f & Hf & Hk & _).
      exists f. split; [done|]. split; [done|]. intros Ho. destruct (Hnown x Hxq).
      destruct Ho as [Ho|[Ho|[Ho|Ho]]]; [by left|right; by left|right; right; by left|done].
    + cbn. rewrite Hp. apply (counters_range w HI).
    + cbn. rewrite Hp. apply (counters_range w HI).
Qed.

(** The outcome of a section is good. *)
Definition good (r : result SS pc) : Prop :=
  ∃ p s, r = Ok p s ∧
    section_inv w tid th (save w tid p s) (mkThread p (loc (fs s)) (cb_fiber s) (idle_fiber s)).

(** Switching to a fiber [a] of the thread from the scheduler fiber. *)
Lemma swapIn_load a f main s :
  fibers (fs s) !! a = Some f → m_state f ≠ EXEC → t_sheduler_fiber (loc (fs s)) = Some main →
  executes main (loc (fs s)) →
  onF (swapIn a) s =
  Ok tt (mkSS (set_loc (at_fiber a (loc (fs s))) (set_fibers (<[a := with_state EXEC f]> (fibers (fs s))) (fs s)))
     (sch s) (cb_fiber s) (idle_fiber s)).
Proof. intros Hf Hst Hm [_ He]. apply onF_ok. by apply (swapIn_spec a main). Qed.

Lemma rest_frame h a f i : a ≠ i → idle_at_rest h i → idle_at_rest (<[a := f]> h) i.
Proof. intros Hne (g & Hg & Hst). exists g. by rewrite lookup_insert_ne. Qed.

Lemma state_frame h a f x P : a ≠ x → in_state h x P → in_state (<[a := f]> h) x P.
Proof. intros Hne. apply in_state_frame. by rewrite lookup_insert_ne. Qed.

Lemma heap_one (h : gmap Z Fiber) a f x : <[a := f]> h !! x ≠ h !! x → x = a.
Proof. intros Hx. destruct (decide (x = a)); [done|]. by rewrite lookup_insert_ne in Hx. Qed.

Section Picked.
Context (ft : FiberAndThread) (act : bool) (Hp : th_pc th = PPicked ft act).
Context (main i : Z) (Hm : t_sheduler_fiber (th_loc th) = Some main) (Hi : th_idle th = Some i).
Context (Hal : is_Some (w_fibers w !! main)) (Hist : in_state (w_fibers w) i (λ _, True)) (Hne : main ≠ i).
Context (Hx : ∀ x, th_cb th = Some x ∨ holds (th_pc th) = Some x → x ≠ main ∧ x ≠ i).
Context (Hsp : spare_ok (w_fibers w) th).
Context (He : executes main (th_loc th)) (Hr : idle_at_rest (w_fibers w) i).
Context (Hact : ft_some ft = true → act = true).
Context (Hft : ∀ a, ft_fiber ft = Some a → in_state (w_fibers w) a (λ st, st ≠ EXEC) ∧ th_cb th ≠ Some a).

(** The fiber picked is not in the queue any more. *)
Lemma picked_not_exec x :
  holds (th_pc th) = Some x → in_state (w_fibers w) x (λ st, st = EXEC) → False.
Proof.
  rewrite Hp. cbn. intros Hh (f & Hf & _ & Hst). destruct (Hft x Hh) as [(g & Hg & _ & Hg') _]. congruence.
Qed.

(** A spare or new fiber [c] starts to run. *)
Lemma start_fiber cb c f ids cnt cbf :
  (owns th c ∧ w_fibers w !! c ≠ None ∨ fresh_in w c) → c ≠ main → c ≠ i → act = true →
  m_stack f = true → (∀ y, cbf = Some y → th_cb th = Some y ∨ y = c) → 
  (cbf = Some c ↔ cb = true) → (∀ y, cbf = Some y → y ≠ c → th_cb th = Some y ∧ holds (th_pc th) ≠ Some y) →
  section_inv w tid th
    (save w tid (PRun cb c)
       (mkSS (mkFS (<[c := with_state EXEC f]> (w_fibers w)) (at_fiber c (th_loc th)) ids cnt)
          (w_sched w) cbf (th_idle th)))
    (mkThread (PRun cb c) (at_fiber c (th_loc th)) cbf (th_idle th)).
Proof.
  intros Hc Hcm Hci Ha Hk Hcbf Hiff Hspare.
  by_section section_local; cbn; try done; rewrite ?Hp; cbn; try done.
  - right. exists main, i. split_and!; try done.
    + cbn. rewrite lookup_insert_ne by done. done.
    + apply state_frame; done.
    + cbn. intros x [Hxc|[= <-]]; [|done]. destruct (Hcbf x Hxc) as [| ->]; [apply Hx; by left|done].
    + intros y Hy Hn. cbn in *. assert (c ≠ y) by congruence.
      destruct (Hspare y Hy) as [H1 H2]; [done|]. apply state_frame; [done|]. by apply Hsp.
    + cbn. split; [done|]. split; [by apply rest_frame|]. split; [|done].
      eexists. rewrite lookup_insert_eq. by split_and!.
  - intros x [Ho|[Ho|[Ho|[= <-]]]]; cbn in *; [left; by left|left; right; by left| |].
    + destruct (Hcbf x Ho) as [| ->]; [left; right; right; by left|]. destruct Hc as [[? _]|?]; auto.
    + destruct Hc as [[? _]|?]; auto.
  - intros x ->%heap_one. destruct Hc as [[? _]|?]; auto.
  - intros x _ Hh Hst. exfalso. eapply picked_not_exec, Hst. by rewrite Hp.
Qed.

Lemma run_cb_good cb : act = true → good (run_cb stk ch cb (load w th)).
Proof.
  intros Ha. unfold good, run_cb. rewrite (bind_ok _ _ _ _ _ (eq_refl : mget (load w th) = Ok _ _)).
  destruct Hok as (Hf1 & _). cbn [cb_fiber load].
  assert (∃ o, th_cb th = o) as [o Hc] by eauto. rewrite Hc. destruct o as [c|].
  - assert (c ≠ main ∧ c ≠ i) as [Hcm Hci] by (apply Hx; by left).
    assert (holds (th_pc th) ≠ Some c) as Hnh by (rewrite Hp; cbn; intros E; by destruct (Hft c E)).
    destruct (Hsp c Hc Hnh) as (f & Hf & Hk & Hst).
    pose proof (onF_ok _ (load w th) _ _ (Fiber_reset_spec c cb f (fs (load w th)) Hf Hk (or_intror (or_introl Hst)))) as E1.
    rewrite (bind_ok _ _ _ c _ (bind_ok _ _ _ _ _ E1)). cbn [load fs].
    erewrite bind_ok; [|eapply (swapIn_load c _ main); [cbn; by rewrite lookup_insert_eq|done|exact Hm|exact He]].
    eexists _, _. split; [reflexivity|]. cbn. rewrite insert_insert_eq.
    apply start_fiber; try done; try (rewrite Hc; naive_solver).
    left. split; [right; right; by left|]. by rewrite Hf.
  - assert ((onF (Fiber_new stk (new1 ch) cb 0 false);; set_cb_fiber (Some (new1 ch));; mret (new1 ch)) (load w th)
      = Ok (new1 ch) (mkSS (mkFS (<[new1 ch := mkFiber (u64 (w_ids w + 1)) stk INIT true cb false]> (w_fibers w))
          (th_loc th) (u64 (w_ids w + 1)) (u64 (w_count w + 1))) (w_sched w) (Some (new1 ch)) (th_idle th))) as E1
      by reflexivity.
    rewrite (bind_ok _ _ _ _ _ E1).
    assert (new1 ch ≠ main ∧ new1 ch ≠ i) as [Hcm Hci].
    { unfold fresh_in in Hf1. destruct Hal as [fm Hfm], Hist as (fi & Hfi & _). split; congruence. }
    erewrite bind_ok; [|eapply (swapIn_load _ _ main); [cbn; by rewrite lookup_insert_eq|done|exact Hm|exact He]].
    eexists _, _. split; [reflexivity|]. cbn. rewrite insert_insert_eq.
    apply start_fiber; try done; try naive_solver.
Qed.

Lemma keep_idle : set_idle (u64 (m_idleThreadCount (w_sched w) + 0)) (w_sched w) = w_sched w.
Proof.
  destruct (counters_range w HI) as [_ E]. rewrite Z.sub_0_r in E. rewrite <- E. by destruct (w_sched w).
Qed.

Lemma run_dropped_good : act = true → good (run_idle true (load w th)).
Proof.
  intros Ha. unfold good, run_idle. eexists _, _. split; [reflexivity|]. cbn.
  by_section section_counts; cbn; try done; rewrite ?Hp; cbn.
  - exists (-1), 0. rewrite keep_idle, Ha. done.
  - right. exists main, i. split_and!; try done; [intros x [Hc|Hc]; [apply Hx; by left|done]|].
    intros y Hy _. cbn in Hy. apply (Hsp y Hy). rewrite Hp. cbn. intros E. by destruct (Hft y E).
  - intros x [Ho|[Ho|[Ho|Ho]]]; [..|done]; left; [by left|right; by left|right; right; by left].
  - intros x _ Hh Hst. exfalso. eapply picked_not_exec, Hst. by rewrite Hp.
Qed.

Lemma run_idle_good : act = false → good (run_idle false (load w th)).
Proof.
  intros Ha. assert (ft_fiber ft = None) as Hnf.
  { destruct (ft_fiber ft) as [a|] eqn:E; [|done]. rewrite Hact in Ha; [done|]. unfold ft_some. by rewrite E. }
  unfold good, run_idle. rewrite (bind_ok _ _ _ _ _ (eq_refl : mget (load w th) = Ok _ _)).
  rewrite (bind_ok _ _ _ i (load w th)) by (cbn; by rewrite Hi).
  destruct Hr as (f & Hf & Hst). assert (m_stack f = true) as Hk by (destruct Hist as (g & Hg & ? & _); congruence).
  rewrite (bind_ok _ _ _ f (load w th)) by (unfold onF, fget; mred; cbn; by rewrite Hf).
  assert (spare_ok (w_fibers w) (mkThread PTop (th_loc th) (th_cb th) (th_idle th))) as Hsp'.
  { intros y Hy _. apply (Hsp y Hy). rewrite Hp. cbn. by rewrite Hnf. }
  case_bool_decide as Hterm.
  - eexists _, _. split; [reflexivity|]. by_section section_local; cbn; try done; rewrite ?Hp; cbn; try done.
    + right. exists main, i. split_and!; try done. intros x [Hc|Hc]; [apply Hx; by left|done].
    + intros x [Ho|[Ho|[Ho|Ho]]]; [..|done]; left; [by left|right; by left|right; right; by left].
    + intros x _ Hh. by rewrite Hnf in Hh.
  - unfold inc_idle, onS. rewrite bind_modify.
    erewrite bind_ok; [|eapply (swapIn_load i _ main); [exact Hf|exact Hst|exact Hm|exact He]].
    eexists _, _. split; [reflexivity|]. by_section section_counts; cbn; try done; rewrite ?Hp; cbn; try done.
    + exists 0, 1. rewrite Ha. split; [|done]. destruct (counters_range w HI) as [E _].
      rewrite Z.sub_0_r in E. rewrite <- E. by destruct (w_sched w).
    + right. exists main, i. split_and!; try done.
      * rewrite lookup_insert_ne by done. done.
      * eexists. rewrite lookup_insert_eq. by split_and!.
      * intros x [Hc|Hc]; [apply Hx; by left|done].
      * intros y Hy Hn. cbn in *. destruct (Hx y (or_introl Hy)) as [_ Hyi].
        apply state_frame; [done|]. by apply Hsp'.
      * cbn. split; [done|]. eexists. rewrite lookup_insert_eq. by split_and!.
    + intros x [Ho|[Ho|[Ho|Ho]]]; [..|done]; left; [by left|right; by left|right; right; by left].
    + intros x ->%heap_one. left. right. by left.
    + intros x _ Hh. by rewrite Hnf in Hh.
Qed.

Lemma run_rest_good :
  good ((if bool_decide (ft_cb ft ≠ None) then run_cb stk ch (ft_cb ft) else run_idle act) (load w th)).
Proof.
  case_bool_decide as Hcb.
  - apply run_cb_good. apply Hact. unfold ft_some. rewrite (bool_decide_true (ft_cb ft ≠ None)) by done.
    apply orb_true_r.
  - assert (act = true ∨ act = false) as [Ha|Ha] by (by destruct act; auto); rewrite Ha.
    + by apply run_dropped_good.
    + by apply run_idle_good.
Qed.

Lemma run_dispatch_good : good (run_dispatch stk ch ft act (load w th)).
Proof.
  unfold run_dispatch. assert (∃ o, ft_fiber ft = o) as [o Ho] by eauto. rewrite Ho. destruct o as [a|].
  - destruct (Hft a Ho) as [(f & Hf & Hk & Hst) Hcb].
    assert (onF (fget a) (load w th) = Ok f (load w th)) as E by (unfold onF, fget; mred; cbn; by rewrite Hf).
    erewrite bind_ok; [|rewrite (bind_ok _ _ _ _ _ E); reflexivity].
    destruct (bool_decide (m_state f ≠ TERM) && bool_decide (m_state f ≠ EXCEPT)); [|apply run_rest_good].
    erewrite bind_ok; [|eapply (swapIn_load a _ main); [exact Hf|exact Hst|exact Hm|exact He]].
    destruct (Hx a) as [Ham Hai]; [right; by rewrite Hp|].
    eexists _, _. split; [reflexivity|]. cbn.
    apply (start_fiber false a f (w_ids w) (w_count w) (th_cb th)); try done.
    + left. split; [|by rewrite Hf]. right; right; right. by rewrite Hp.
    + apply Hact. unfold ft_some. by rewrite Ho.
    + by auto.
    + intros y Hy Hya. split; [done|]. rewrite Hp. cbn. congruence.
  - erewrite bind_ok; [|reflexivity]. apply run_rest_good.
Qed.

End Picked.

Lemma dispatch_safe ft act : th_pc th = PPicked ft act → safe_section.
Proof.
  intros Hp. destruct (is_started ltac:(by rewrite Hp)) as (main & i & Hm & Hi & Hal & Hist & Hne & Hx & Hsp & Hpc).
  unfold safe_section. rewrite Hp. cbn [section]. unfold at_pc in Hpc. rewrite Hp in Hpc.
  destruct Hpc as (He & Hr & Hact & Hft). by eapply run_dispatch_good.
Qed.

Lemma body_safe cb a : th_pc th = PRun cb a → safe_section.
Proof.
  intros Hp. destruct (is_started ltac:(by rewrite Hp)) as (main & i & Hm & Hi & Hal & Hist & Hne & Hx & Hsp & Hpc).
  unfold safe_section. rewrite Hp. cbn [section]. unfold at_pc in Hpc. rewrite Hp in Hpc.
  destruct Hpc as (He & Hr & (f & Hf & Hk & Hst) & Hcb).
  destruct (Hx a) as [Ham Hai]; [right; by rewrite Hp|].
  destruct Hok as (_ & _ & _ & _ & Hhow).
  erewrite bind_ok; [|apply onF_ok; eapply (leaving_spec _ _ a main f); [exact Hf|exact Hst|exact He|exact Hm]].
  eexists _, _. split; [reflexivity|]. by_section section_local; cbn; try done; rewrite ?Hp; cbn; try done.
  - right. exists main, i. split_and!; try done.
    + cbn. rewrite lookup_insert_ne by done. done.
    + apply state_frame; done.
    + cbn. intros x Hxx. apply Hx. by rewrite Hp.
    + intros y Hy Hn. cbn in *. apply state_frame; [congruence|]. apply (Hsp y Hy). by rewrite Hp.
    + cbn. split; [done|]. split; [by apply rest_frame|]. split; [|done].
      eexists. rewrite lookup_insert_eq. split; [done|]. split; [|done]. by destruct (how ch).
  - intros x [Ho|[Ho|[Ho|Ho]]]; left; [left; done|right; by left|right; right; by left|].
    right; right; right. by rewrite Hp.
  - intros x ->%heap_one. left. right; right; right. by rewrite Hp.
  - intros x Hxq [= <-] _. rewrite (Hhow cb a Hp Hxq). cbn. exists f. rewrite lookup_insert_eq.
    split_and!; done.
Qed.

Lemma back_safe cb a : th_pc th = PBack cb a → safe_section.
Proof.
  intros Hp. destruct (is_started ltac:(by rewrite Hp)) as (main & i & Hm & Hi & Hal & Hist & Hne & Hx & Hsp & Hpc).
  unfold safe_section. rewrite Hp. cbn [section]. unfold at_pc in Hpc. rewrite Hp in Hpc.
  eexists _, _. split; [reflexivity|]. by_section section_counts; cbn; try done; rewrite ?Hp; cbn; try done.
  - exists (-1), 0. by rewrite keep_idle.
  - right. exists main, i. split_and!; try done.
    + cbn. intros x Hxx. apply Hx. by rewrite Hp.
    + intros y Hy Hn. cbn in *. apply (Hsp y Hy). by rewrite Hp.
  - intros x [Ho|[Ho|[Ho|Ho]]]; left; [left; done|right; by left|right; right; by left|].
    right; right; right. by rewrite Hp.
  - intros x _ [= <-] (f & Hf & Hk & Hst). by exists f.
Qed.

(** The thread lets go of the fiber [a] it held: it is on hold or ended. *)
Lemma release_good cb a f f' cbf sc :
  th_pc th = PAfter cb a → w_fibers w !! a = Some f → m_stack f' = true → 
  (cbf = th_cb th ∧ cb = false ∨ cbf = None) → m_state f' ≠ EXEC →
  (sc = w_sched w ∨ m_state f = READY ∧ sc = schedule (FT_fiber (Some a) (-1)) (w_sched w)) →
  good (Ok PTop (mkSS (mkFS (<[a := f']> (w_fibers w)) (th_loc th) (w_ids w) (w_count w)) sc cbf (th_idle th))).
Proof.
  intros Hp Hf Hk' Hcbf Hst' Hsc.
  destruct (is_started ltac:(by rewrite Hp)) as (main & i & Hm & Hi & Hal & Hist & Hne & Hx & Hsp & Hpc).
  unfold at_pc in Hpc. rewrite Hp in Hpc. destruct Hpc as (He & Hr & (g & Hg & Hk & _) & Hcb).
  destruct (Hx a) as [Ham Hai]; [right; by rewrite Hp|].
  assert (g = f) as -> by congruence.
  assert (∀ y, cbf = Some y → th_cb th = Some y ∧ y ≠ a) as Hcbf'.
  { intros y Hy. destruct Hcbf as [[-> Hb]| ->]; [|done]. split; [done|]. intros ->. naive_solver. }
  assert (thread_ok (<[a := f']> (w_fibers w)) (m_rootThread (w_sched w)) tid
            (mkThread PTop (th_loc th) cbf (th_idle th))) as Hth.
  { right. exists main, i. split_and!; try done.
    - cbn. rewrite lookup_insert_ne by done. done.
    - apply state_frame; done.
    - cbn. intros x [Hc|Hc]; [|done]. apply Hx. left. by apply Hcbf'.
    - intros y Hy _. destruct (Hcbf' y Hy) as [H1 H2]. apply state_frame; [done|]. apply (Hsp y H1). rewrite Hp. cbn. congruence.
    - cbn. split; [done|]. by apply rest_frame. }
  assert (∀ x, owns (mkThread PTop (th_loc th) cbf (th_idle th)) x → owns th x ∧ x ≠ a) as Hown.
  { intros x [Ho|[Ho|[Ho|Ho]]]; cbn in *; [..|done].
    - split; [by left|congruence].
    - split; [right; by left|congruence].
    - destruct (Hcbf' x Ho). split; [right; right; by left|done]. }
  assert (owns th a) as Howna by (right; right; right; by rewrite Hp).
  eexists _, _. split; [reflexivity|]. destruct Hsc as [->|[Hrdy ->]].
  - by_section section_local; cbn; try done; rewrite ?Hp; cbn; try done.
    + intros x Ho. left. by apply Hown.
    + intros x ->%heap_one. by left.
    + intros x _ [= <-] _. exists f'. rewrite lookup_insert_eq. split_and!; try done. intros Ho. by destruct (Hown a Ho).
  - destruct (schedule_fields (FT_fiber (Some a) (-1)) (w_sched w) eq_refl) as (Eq & Er & Ea & Ei).
    assert (a ∉ queued (m_fibers (w_sched w))) as Hna.
    { intros Hq. destruct (wi_queued w HI a Hq) as (f2 & Hf2 & _ & H2).
      destruct (H2 tid th Ht Howna) as [_ Hst]. congruence. }
    split; cbn [save w_threads w_sched w_fibers sch fs fibers]; rewrite ?Eq, ?Er, ?Ea, ?Ei; try done.
    + intros x Ho. eapply own_unowned; try done. by apply Hown.
    + intros x ->%heap_one. by eapply own_unowned.
    + rewrite queued_app. apply NoDup_app. split; [apply HI|]. split; [cbn; set_solver|apply NoDup_singleton].
    + intros ft [Hft|Hft]%elem_of_app; [by apply (wi_tasks w HI)|]. apply list_elem_of_singleton in Hft as ->. done.
    + intros x Hxq. rewrite queued_app in Hxq. apply elem_of_app in Hxq as [Hxq|Hxq].
      * split; [by left|]. assert (x ≠ a) by congruence.
        destruct (wi_queued w HI x Hxq) as (f2 & Hf2 & Hk2 & H2). exists f2. rewrite lookup_insert_ne by done.
        split_and!; try done. intros [Ho _]%Hown. destruct (H2 tid th Ht Ho) as [Hh _]. rewrite Hp in Hh. cbn in Hh. congruence.
      * apply list_elem_of_singleton in Hxq as ->. split; [right; by eapply own_unowned|].
        exists f'. rewrite lookup_insert_eq. split_and!; try done. intros Ho. by destruct (Hown a Ho).
    + cbn. rewrite Hp. apply (counters_range w HI).
    + cbn. rewrite Hp. apply (counters_range w HI).
Qed.

(** The thread keeps its cb_fiber for the next function. *)
Lemma recycle_good a f :
  th_pc th = PAfter true a → w_fibers w !! a = Some f → m_state f ≠ EXEC →
  good (Ok PTop (mkSS (mkFS (<[a := with_state INIT (with_entry false (with_cb None f))]> (w_fibers w))
    (th_loc th) (w_ids w) (w_count w)) (w_sched w) (th_cb th) (th_idle th))).
Proof.
  intros Hp Hf Hst.
  destruct (is_started ltac:(by rewrite Hp)) as (main & i & Hm & Hi & Hal & Hist & Hne & Hx & Hsp & Hpc).
  unfold at_pc in Hpc. rewrite Hp in Hpc. destruct Hpc as (He & Hr & (g & Hg & Hk & _) & Hcb).
  destruct (Hx a) as [Ham Hai]; [right; by rewrite Hp|].
  assert (g = f) as -> by congruence. pose proof (proj2 Hcb eq_refl) as Hca.
  eexists _, _. split; [reflexivity|]. by_section section_local; cbn; try done; rewrite ?Hp; cbn; try done.
  - right. exists main, i. split_and!; try done.
    + cbn. rewrite lookup_insert_ne by done. done.
    + apply state_frame; done.
    + cbn. intros x [Hc|Hc]; [|done]. apply Hx. by left.
    + intros y Hy _. cbn in Hy. assert (y = a) as -> by congruence. eexists. rewrite lookup_insert_eq. done.
    + cbn. split; [done|]. by apply rest_frame.
  - intros x [Ho|[Ho|[Ho|Ho]]]; [..|done]; left; [by left|right; by left|right; right; by left].
  - intros x ->%heap_one. left. right; right; by left.
  - intros x _ [= <-] (g & Hg' & _ & Hg2). congruence.
Qed.

(** The two ends of a turn, by the fiber's state. *)
Lemma run_after_fiber_eq a f :
  w_fibers w !! a = Some f →
  run_after_fiber a (load w th) =
  Ok PTop (mkSS (mkFS (<[a := match m_state f with READY | TERM | EXCEPT => f | _ => with_state HOLD f end]>
                          (w_fibers w)) (th_loc th) (w_ids w) (w_count w))
             (match m_state f with READY => schedule (FT_fiber (Some a) (-1)) (w_sched w) | _ => w_sched w end)
             (th_cb th) (th_idle th)).
Proof.
  intros Hf. unfold run_after_fiber, onF, onS, fstate, fget, fset, set_fibers. mred. cbn. rewrite Hf. cbn.
  destruct (m_state f) eqn:Hst; cbn; rewrite ?Hf; cbn; first [reflexivity|by rewrite insert_id].
Qed.

Lemma run_after_cb_eq a f :
  w_fibers w !! a = Some f → m_stack f = true →
  run_after_cb a (load w th) =
  Ok PTop (mkSS (mkFS (<[a := match m_state f with
                              | READY => f
                              | TERM | EXCEPT => with_state INIT (with_entry false (with_cb None f))
                              | _ => with_state HOLD f
                              end]> (w_fibers w)) (th_loc th) (w_ids w) (w_count w))
             (match m_state f with READY => schedule (FT_fiber (Some a) (-1)) (w_sched w) | _ => w_sched w end)
             (match m_state f with TERM | EXCEPT => th_cb th | _ => None end) (th_idle th)).
Proof.
  intros Hf Hk. unfold run_after_cb, onF, onS, fstate, set_cb_fiber, reset, fget, fset, set_fibers. mred. cbn.
  rewrite Hf. cbn.
  destruct (m_state f) eqn:Hst; cbn; rewrite ?Hf; cbn; rewrite ?Hk, ?Hst; cbn; first [reflexivity|by rewrite insert_id].
Qed.

Lemma after_safe cb a : th_pc th = PAfter cb a → safe_section.
Proof.
  intros Hp. destruct (is_started ltac:(by rewrite Hp)) as (main & i & _ & _ & _ & _ & _ & _ & _ & Hpc).
  unfold safe_section. rewrite Hp. cbn [section]. unfold at_pc in Hpc. rewrite Hp in Hpc.
  destruct Hpc as (_ & _ & (f & Hf & Hk & _) & Hcb). destruct cb.
  - rewrite (run_after_cb_eq a f Hf Hk).
    destruct (m_state f) eqn:Hst; first [by (apply recycle_good; rewrite ?Hst)|
      apply (release_good true a f); try done; rewrite ?Hst; auto].
  - rewrite (run_after_fiber_eq a f Hf).
    destruct (m_state f) eqn:Hst; apply (release_good false a f); try done; rewrite ?Hst; auto.
Qed.

Lemma idle_safe : th_pc th = PIdle → safe_section.
Proof.
  intros Hp. destruct (is_started ltac:(by rewrite Hp)) as (main & i & Hm & Hi & Hal & Hist & Hne & Hx & Hsp & Hpc).
  unfold safe_section. rewrite Hp. cbn [section]. unfold at_pc in Hpc. rewrite Hp in *.
  destruct Hpc as (He & f & Hf & Hk & Hst).
  assert (∃ h, section stk tid ch PIdle (load w th) = (onF (leaving h (new1 ch));; mret PIdleBack) (load w th)) as [h E].
  { cbn [section]. unfold idle. rewrite (bind_ok _ _ _ _ _ (eq_refl : mget (load w th) = Ok _ _)).
    destruct (stopping (sch (load w th))); [by exists LReturn|by exists LHold]. }
  cbn [section] in E. rewrite E.
  erewrite bind_ok; [|apply onF_ok; eapply (leaving_spec _ _ i main f); [exact Hf|exact Hst|exact He|exact Hm]].
  eexists _, _. split; [reflexivity|]. by_section section_local; cbn; try done; rewrite ?Hp; cbn; try done.
  - right. exists main, i. split_and!; try done.
    + cbn. rewrite lookup_insert_ne by done. done.
    + eexists. rewrite lookup_insert_eq. split; [done|]. split; [|done]. by destruct h.
    + intros y Hy Hn. cbn in *. destruct (Hx y (or_introl Hy)). apply state_frame; [done|]. apply (Hsp y Hy). by rewrite Hp.
  - intros x [Ho|[Ho|[Ho|Ho]]]; [..|done]; left; [left; done|right; by left|right; right; by left].
  - intros x ->%heap_one. left. right. by left.
Qed.

Lemma idle_back_safe : th_pc th = PIdleBack → safe_section.
Proof.
  intros Hp. destruct (is_started ltac:(by rewrite Hp)) as (main & i & Hm & Hi & Hal & (f & Hf & Hk & _) & Hne & Hx & Hsp & He).
  unfold safe_section. rewrite Hp. cbn [section]. unfold at_pc in He. rewrite Hp in *.
  set (f' := if bool_decide (m_state f ≠ TERM) && bool_decide (m_state f ≠ EXCEPT) then with_state HOLD f else f).
  assert (run_after_idle (load w th) = Ok PTop (mkSS (mkFS (<[i := f']> (w_fibers w)) (th_loc th) (w_ids w) (w_count w))
     (set_idle (u64 (m_idleThreadCount (w_sched w) - 1)) (w_sched w)) (th_cb th) (th_idle th))) as E.
  { unfold run_after_idle, dec_idle, onF, onS, fstate, fget, fset, set_fibers. mred. cbn. rewrite Hi. cbn.
    rewrite Hf. cbn. unfold f'. destruct (_ && _); cbn; [by rewrite Hf|by rewrite insert_id]. }
  rewrite E. eexists _, _. split; [reflexivity|].
  assert (m_state f' ≠ EXEC ∧ m_stack f' = true) as [Hst' Hk'].
  { unfold f'. destruct f as [? ? [] ? ? ?]; cbn in *; by split. }
  by_section section_counts; cbn; try done; rewrite ?Hp; cbn; try done.
  - exists 0, (-1). split; [|done]. destruct (counters_range w HI) as [Er _].
    rewrite Z.sub_0_r in Er. rewrite <- Er. by destruct (w_sched w).
  - right. exists main, i. split_and!; try done.
    + cbn. rewrite lookup_insert_ne by done. done.
    + eexists. rewrite lookup_insert_eq. done.
    + intros y Hy Hn. cbn in *. destruct (Hx y (or_introl Hy)). apply state_frame; [done|]. apply (Hsp y Hy). by rewrite Hp.
    + cbn. split; [done|]. eexists. by rewrite lookup_insert_eq.
  - intros x [Ho|[Ho|[Ho|Ho]]]; [..|done]; left; [left; done|right; by left|right; right; by left].
  - intros x ->%heap_one. left. right. by left.
Qed.

Lemma section_safe : safe_section.
Proof.
  destruct (th_pc th) as [| |ft act|cb a|cb a|cb a| | |] eqn:Hp.
  - by apply enter_safe.
  - by apply pick_safe.
  - by eapply dispatch_safe.
  - by eapply body_safe.
  - by eapply back_safe.
  - by eapply after_safe.
  - by apply idle_safe.
  - by apply idle_back_safe.
  - destruct Hok as (_ & _ & _ & Hd & _). done.
Qed.

End Sections.
