(* ===== verification/SchedulerProps.v ===== *)
(** Properties of Scheduler::run in every interleaving. *)

From stdpp Require Import base list gmap sets.
From Stdlib Require Import Lia.
From S2P Require Import Prelude Fiber Scheduler SchedulerRun.

(** ** Actions of user code keep the invariant *)

(** What is the same in [w'] for every thread: the threads, the fibers there
    were, and the counters. *)
Record env_frame (w w' : World) : Prop := {
  ef_threads : w_threads w' = w_threads w;
  ef_heap x : w_fibers w' !! x ≠ w_fibers w !! x → fresh_in w x;
  ef_root : m_rootThread (w_sched w') = m_rootThread (w_sched w);
  ef_active : m_activeThreadCount (w_sched w') = m_activeThreadCount (w_sched w);
  ef_idle : m_idleThreadCount (w_sched w') = m_idleThreadCount (w_sched w)
}.

(** The queue grows at most by one task that may be scheduled. *)
Definition queue_grows (w w' : World) : Prop :=
  m_fibers (w_sched w') = m_fibers (w_sched w) ∨
  ∃ ft, m_fibers (w_sched w') = m_fibers (w_sched w) ++ [ft] ∧ ft_some ft = true ∧
    ∀ x, ft_fiber ft = Some x → may_schedule w x.

Lemma env_keeps w w' : world_inv w → env_frame w w' → queue_grows w w' → world_inv w'.
Proof.
  intros HI HE HQ.
  assert (∀ x, is_Some (w_fibers w !! x) → w_fibers w' !! x = w_fibers w !! x) as Hsame.
  { intros x [f Hf]. destruct (decide (w_fibers w' !! x = w_fibers w !! x)) as [|Hne]; [done|].
    apply (ef_heap _ _ HE) in Hne. unfold fresh_in in Hne. congruence. }
  split; rewrite ?(ef_threads _ _ HE), ?(ef_root _ _ HE), ?(ef_active _ _ HE), ?(ef_idle _ _ HE);
    try apply HI.
  - intros tid th Ht. pose proof (wi_threads w HI tid th Ht) as Hok.
    eapply thread_ok_frame, Hok. intros x Ho. apply Hsame. by eapply owns_alloc.
  - destruct HQ as [->|(ft & -> & _ & Hm)]; [apply HI|]. rewrite queued_app, queued_cons.
    apply NoDup_app. split; [apply HI|]. destruct (ft_fiber ft) as [x|]; cbn; [|split; [set_solver|constructor]].
    destruct (Hm x eq_refl) as [Hn _]. split; [set_solver|apply NoDup_singleton].
  - intros ft Hft. destruct HQ as [Eq|(ft' & Eq & Hs & _)]; rewrite Eq in Hft; [by apply (wi_tasks w HI)|].
    apply elem_of_app in Hft as [Hft|Hft]; [by apply (wi_tasks w HI)|].
    by apply list_elem_of_singleton in Hft as ->.
  - intros x Hx. assert (∃ f, w_fibers w !! x = Some f ∧ m_stack f = true ∧ ∀ tid th,
      w_threads w !! tid = Some th → owns th x → holds (th_pc th) = Some x ∧ m_state f = EXEC) as (f & Hf & Hr).
    { destruct HQ as [Eq|(ft & Eq & _ & Hm)]; rewrite Eq in Hx; [by apply (wi_queued w HI)|].
      rewrite queued_app, queued_cons in Hx. apply elem_of_app in Hx as [Hx|Hx]; [by apply (wi_queued w HI)|].
      destruct (ft_fiber ft) as [y|]; cbn in Hx; [|set_solver].
      apply list_elem_of_singleton in Hx as ->. by apply (Hm y eq_refl). }
    exists f. rewrite Hsame by (by eexists). done.
Qed.

(** A thread that starts. *)
Lemma spawn_keeps w tid loc :
  world_inv w → w_threads w !! tid = None →
  thread_ok (w_fibers w) (m_rootThread (w_sched w)) tid (mkThread PStart loc None None) →
  (∀ x, t_sheduler_fiber loc = Some x → unowned_but w tid x ∧ x ∉ queued (m_fibers (w_sched w))) →
  world_inv (mkWorld (w_fibers w) (w_ids w) (w_count w) (w_sched w)
               (<[tid := mkThread PStart loc None None]> (w_threads w))).
Proof.
  intros HI Hn Hok Hx. split; cbn [w_threads w_fibers w_sched]; try apply HI.
  - intros t2 th2 [[<- <-]|[_ H2]]%lookup_insert_Some; [done|]. by apply (wi_threads w HI).
  - assert (∀ t x, t ≠ tid → owns (mkThread PStart loc None None) x →
      ∀ th, w_threads w !! t = Some th → ¬ owns th x) as Hd.
    { intros t x Hne [Ho|[Ho|[Ho|Ho]]] th H2; try done. by apply (proj1 (Hx x Ho) t). }
    intros t1 t2 th1 th2 x [[<- <-]|[Hn1 H1]]%lookup_insert_Some [[<- <-]|[Hn2 H2]]%lookup_insert_Some Ho1 Ho2;
      [done|..|by eapply (wi_excl w HI)]; exfalso; by eapply Hd.
  - intros x Hq. destruct (wi_queued w HI x Hq) as (f & Hf & Hk & H2). exists f. split_and!; try done.
    intros t2 th2 [[<- <-]|[_ Ht2]]%lookup_insert_Some Ho; [|by eapply H2].
    destruct Ho as [Ho|[Ho|[Ho|Ho]]]; try done. by destruct (Hx x Ho).
  - rewrite count_insert_new by done. apply HI.
  - rewrite count_insert_new by done. apply HI.
Qed.

Section Reach.
Context (stk : Z).

Lemma step_inv w w' : world_inv w → step stk w w' → world_inv w'.
Proof.
  intros HI Hs. destruct Hs as [tid th ch p s Ht Hok E|x thr Hm|c thr|a cb size s Hf E|tid Ht Hr|r tf Ht Hm Hno|st au].
  - destruct (section_safe stk w tid th ch HI Ht Hok) as (p' & s' & E' & HS).
    rewrite E in E'. injection E' as -> ->. by eapply section_keeps.
  - destruct (schedule_fields (FT_fiber (Some x) thr) (w_sched w) eq_refl) as (Eq & Er & Ea & Ei).
    apply (env_keeps w); [done|by split|]. right. exists (FT_fiber (Some x) thr). split_and!; try done.
    by intros y [= <-].
  - destruct (schedule_fields (FT_cb (Some c) thr) (w_sched w) eq_refl) as (Eq & Er & Ea & Ei).
    apply (env_keeps w); [done|by split|]. right. exists (FT_cb (Some c) thr). by split_and!.
  - revert E. unfold Fiber_new, fset. mred. cbn. intros [= <-]. apply (env_keeps w); [done| |by left].
    split; cbn; try done. intros x ->%heap_one. done.
  - apply spawn_keeps; try done. left. split_and!; try done. by left.
  - destruct Hm as (Hnq & f & Hf & _). apply spawn_keeps; try done.
    + left. split_and!; try done. right. split; [done|]. exists r. split_and!; try done.
    + intros x [= <-]. split; [|done]. intros t2 th2 _ H2. by eapply Hno.
  - apply (env_keeps w); [done|by split|by left].
Qed.

Definition quiet (s0 : Sched) : Prop :=
  m_fibers s0 = [] ∧ m_activeThreadCount s0 = 0 ∧ m_idleThreadCount s0 = 0.

Lemma reachable_inv s0 w : quiet s0 → reachable stk s0 w → world_inv w.
Proof.
  intros (Hq & Ha & Hi) Hr. induction Hr as [|w w' _ IH Hs]; [|by eapply step_inv].
  split; cbn; rewrite ?Hq, ?Ha, ?Hi; try done; try set_solver. constructor.
Qed.

(** The fiber a thread executes is its own. *)
Lemma running_owned w tid th a :
  world_inv w → w_threads w !! tid = Some th → running (th_loc th) = Some a → owns th a.
Proof.
  intros HI Ht Ha. destruct (wi_threads w HI tid th Ht)
    as [(Hp & _ & _ & [[_ Hl]|(_ & r & Hr & [_ He] & _)])|(main & i & Hm & Hi & _ & _ & _ & _ & _ & Hpc)].
  - by rewrite Hl in Ha.
  - left. congruence.
  - unfold at_pc in Hpc. unfold owns.
    destruct (th_pc th); cbn; unfold executes in Hpc; try done; first
      [ left; destruct Hpc as [? ?]; naive_solver
      | destruct Hpc as [[_ Hrun] _]; rewrite Ha in Hrun; injection Hrun as ->; by auto ].
Qed.

End Reach.

(** ** Properties *)

Section Properties.
Context (stk : Z).



(** C38: m_activeThreadCount and m_idleThreadCount count the threads that
    hold a task and those that are idle; so when stopping() holds, the queue is
    empty and no thread holds a task it has not yet taken off the counter. *)
Theorem stopping_means_drained s0 w :
  quiet s0 → reachable stk s0 w → Z.of_nat (size (w_threads w)) < 2 ^ 64 →
  m_activeThreadCount (w_sched w) = Z.of_nat (count_pc is_active_pc (w_threads w)) ∧
  m_idleThreadCount (w_sched w) = Z.of_nat (count_pc is_idle_pc (w_threads w)) ∧
  (stopping (w_sched w) = true →
   m_fibers (w_sched w) = [] ∧
   ∀ tid th, w_threads w !! tid = Some th → is_active_pc (th_pc th) = false).
Proof.
  intros Hq Hr Hsz. pose proof (reachable_inv stk s0 w Hq Hr) as HI.
  assert (∀ P, in_u 64 (Z.of_nat (count_pc P (w_threads w)))) as Hu.
  { intros P. unfold in_u, count_pc. split; [lia|]. eapply Z.le_lt_trans, Hsz.
    apply inj_le, map_subseteq_size, map_filter_subseteq. }
  assert (m_activeThreadCount (w_sched w) = Z.of_nat (count_pc is_active_pc (w_threads w))) as Ea.
  { rewrite (wi_active w HI). by apply wrapu_small. }
  split; [done|]. split; [rewrite (wi_idle w HI); by apply wrapu_small|].
  unfold stopping. rewrite !andb_true_iff, bool_decide_eq_true, Z.eqb_eq, Ea.
  intros [[_ Hf] Hz]. split; [done|]. intros tid th Ht. apply not_true_is_false. intros Hp.
  assert (count_pc is_active_pc (w_threads w) = 0%nat) as E0 by lia. unfold count_pc in E0.
  apply map_size_empty_inv in E0.
  assert (filter (λ '(_, th), is_active_pc (th_pc th) = true) (w_threads w) !! tid = Some th) as El
    by (by apply map_lookup_filter_Some).
  by rewrite E0, lookup_empty in El.
Qed.

(** C6: A thread takes the first task of the queue that is for it or for any
    thread and is not a fiber still running somewhere; it leaves all other
    tasks in their order, counts itself active, and calls tickle exactly when
    it passed a task for another thread or left tasks behind it. *)
Theorem run_takes_first_eligible s0 w tid th :
  quiet s0 → reachable stk s0 w → w_threads w !! tid = Some th → th_pc th = PTop →
  ∃ p s, section stk tid (mkChoice 0 0 LHold) PTop (load w th) = Ok p s ∧
  ((∃ l ft r, m_fibers (w_sched w) = l ++ ft :: r ∧ m_fibers (sch s) = l ++ r ∧ p = PPicked ft true ∧
      eligible (w_fibers w) tid ft = true ∧ Forall (λ ft, eligible (w_fibers w) tid ft = false) l ∧
      tickles (sch s) = (tickles (w_sched w) +
        b2n (existsb (λ ft, negb (for_thread tid ft)) l || bool_decide (r ≠ [])))%nat) ∨
   (p = PPicked FT_empty false ∧ m_fibers (sch s) = m_fibers (w_sched w) ∧
      Forall (λ ft, eligible (w_fibers w) tid ft = false) (m_fibers (w_sched w)) ∧
      tickles (sch s) = (tickles (w_sched w) +
        b2n (existsb (λ ft, negb (for_thread tid ft)) (m_fibers (w_sched w))))%nat)).
Proof.
  intros Hq Hr Ht Hp. pose proof (reachable_inv stk s0 w Hq Hr) as HI. cbn [section].
  destruct (pick_first (w_fibers w) tid (m_fibers (w_sched w))) as (found & rest & skipped & more & E & Hf).
  { apply HI. }
  { intros x Hxq. destruct (wi_queued w HI x Hxq) as (f & Hf & _). by exists f. }
  rewrite (run_pick_eq tid (load w th) _ _ _ _ E). eexists _, _. split; [done|]. cbn [sch load].
  destruct found as [ft|].
  - destruct Hf as (l & r & Hq' & -> & Hel & Hnel & -> & ->). left. exists l, ft, r.
    split_and!; try done; [by destruct (_ || _)|]. cbn. destruct (_ || _); cbn; lia.
  - destruct Hf as (-> & Hnel & -> & ->). right. rewrite orb_false_r.
    split_and!; try done; [by destruct (existsb _ _)|]. cbn. destruct (existsb _ _); cbn; lia.
Qed.

End Properties.

(** ** A run *)

Definition demo_sched : Sched := mkSched [] None 0 [] 1 0 0 true false (-1) 0.

Lemma demo_new : Scheduler_new 1 false 5 9 = Some demo_sched.
Proof. reflexivity. Qed.

(** One thread enters run and a function is scheduled. *)
Definition demo_w1 : World :=
  mkWorld ∅ 0 0 demo_sched (<[5 := mkThread PStart no_local None None]> ∅).
Definition demo_heap : gmap Z Fiber :=
  <[11 := mkFiber 1 4096 INIT true (Some 0) false]> (<[10 := mkFiber 0 0 EXEC false None false]> ∅).
Definition demo_th : Thread := mkThread PTop (mkLocal (Some 10) (Some 10) (Some 10) (Some 10)) None (Some 11).
Definition demo_w2 : World := mkWorld demo_heap 1 2 demo_sched (<[5 := demo_th]> ∅).
Definition demo_w3 : World :=
  mkWorld demo_heap 1 2 (schedule (FT_cb (Some 7) (-1)) demo_sched) (<[5 := demo_th]> ∅).

Lemma demo_reach : reachable 4096 demo_sched demo_w3.
Proof.
  apply (reach_step _ _ demo_w2); [apply (reach_step _ _ demo_w1); [apply (reach_step _ _ (boot demo_sched)); [constructor|]|]|].
  - by apply (step_spawn _ (boot demo_sched) 5).
  - apply (step_section 4096 demo_w1 5 (mkThread PStart no_local None None) (mkChoice 10 11 LHold) PTop
      (mkSS (mkFS demo_heap (mkLocal (Some 10) (Some 10) (Some 10) (Some 10)) 1 2) demo_sched None (Some 11)));
      [done| |vm_compute; reflexivity].
    split_and!; done.
  - apply (step_schedule_cb 4096 demo_w2 7 (-1)).
Qed.

Lemma demo_quiet : quiet demo_sched.
Proof. by split_and!. Qed.


Lemma stopping_means_drained_witness :
  m_activeThreadCount (w_sched demo_w3) = Z.of_nat (count_pc is_active_pc (w_threads demo_w3)).
Proof.
  apply (stopping_means_drained 4096 demo_sched demo_w3 demo_quiet demo_reach). vm_compute. reflexivity.
Defined.

Lemma run_takes_first_eligible_witness :
  ∃ p s, section 4096 5 (mkChoice 0 0 LHold) PTop (load demo_w3 demo_th) = Ok p s ∧ m_fibers (sch s) = [].
Proof.
  destruct (run_takes_first_eligible 4096 demo_sched demo_w3 5 demo_th demo_quiet demo_reach) as (p & s & E & _);
    [reflexivity..|].
  exists p, s. split; [exact E|]. revert E. vm_compute. intros [= _ <-]. reflexivity.
Defined.

(** One section of thread [tid], executed. *)
Definition next_world (stk tid : Z) (ch : choice) (w : World) : option World :=
  match w_threads w !! tid with
  | Some th =>
    match section stk tid ch (th_pc th) (load w th) with
    | Ok p s => Some (save w tid p s)
    | _ => None
    end
  | None => None
  end.

Lemma next_world_step stk tid ch w w' th :
  w_threads w !! tid = Some th → section_ok w th ch → next_world stk tid ch w = Some w' → step stk w w'.
Proof.
  intros Ht Hok. unfold next_world. rewrite Ht.
  destruct (section stk tid ch (th_pc th) (load w th)) as [p s| | |] eqn:E; try done.
  intros [= <-]. by eapply step_section.
Qed.

(** Between the decrement of m_activeThreadCount and the call of schedule for
    a fiber that yielded to READY, stopping() can hold although that fiber has
    more to do. *)
Lemma stopping_while_ready :
  ∃ w th a f, reachable 4096 demo_sched w ∧ stopping (w_sched w) = true ∧
    w_threads w !! 5 = Some th ∧ th_pc th = PAfter true a ∧
    w_fibers w !! a = Some f ∧ m_state f = READY.
Proof.
  eexists _, _, 20, _. split.
  - eapply reach_step.
    + eapply reach_step; [eapply reach_step; [eapply reach_step; [eapply reach_step; [exact demo_reach|]|]|]|];
        [ eapply (next_world_step 4096 5 (mkChoice 20 21 LHold)); [reflexivity|split_and!; done|vm_compute; reflexivity]
        | eapply (next_world_step 4096 5 (mkChoice 20 21 LHold)); [reflexivity|split_and!; done|vm_compute; reflexivity]
        | eapply (next_world_step 4096 5 (mkChoice 30 31 LReady)); [reflexivity|split_and!; try done; intros ?? _ Hin; by apply elem_of_nil in Hin|vm_compute; reflexivity]
        | eapply (next_world_step 4096 5 (mkChoice 30 31 LReady)); [reflexivity|split_and!; done|vm_compute; reflexivity] ].
    + apply (step_stop 4096 _ true true).
  - split_and!; reflexivity.
Qed.

(** ** Two threads *)

(** Sections, one after the other, with their choices. *)
Fixpoint next_worlds (stk : Z) (l : list (Z * choice)) (w : World) : option World :=
  match l with [] => Some w | (tid, ch) :: l' => w' ← next_world stk tid ch w; next_worlds stk l' w' end.
Definition spawned (tid : Z) (w : World) : World :=
  mkWorld (w_fibers w) (w_ids w) (w_count w) (w_sched w) (<[tid := mkThread PStart no_local None None]> (w_threads w)).
Definition scheduled (x thr : Z) (w : World) : World :=
  mkWorld (w_fibers w) (w_ids w) (w_count w) (schedule (FT_fiber (Some x) thr) (w_sched w)) (w_threads w).

(** A second thread enters run; the first takes the function, makes fiber 20 for
    it and runs it. *)
Definition demo_enter : choice := mkChoice 12 13 LHold.
Definition demo_two : World := default demo_w3 (next_world 4096 6 demo_enter (spawned 6 demo_w3)).
Definition demo_picked : World := default demo_w3 (next_world 4096 5 (mkChoice 20 21 LHold) demo_two).
Definition demo_running : World := default demo_w3 (next_world 4096 5 (mkChoice 20 21 LHold) demo_picked).
(** It is scheduled for the second thread, which looks at the queue. *)
Definition demo_wanted : World := default demo_w3 (next_world 4096 6 (mkChoice 30 31 LHold) (scheduled 20 6 demo_running)).

Lemma demo_wanted_reachable : reachable 4096 demo_sched demo_wanted.
Proof.
  assert (reachable 4096 demo_sched demo_running) as Hr.
  { eapply reach_step; [eapply reach_step; [eapply reach_step; [eapply reach_step; [exact demo_reach|]|]|]|].
    - by apply (step_spawn 4096 demo_w3 6).
    - eapply (next_world_step 4096 6 demo_enter); [reflexivity|split_and!; done|vm_compute; reflexivity].
    - eapply (next_world_step 4096 5 (mkChoice 20 21 LHold)); [vm_compute; reflexivity|split_and!; vm_compute; done|vm_compute; reflexivity].
    - eapply (next_world_step 4096 5 (mkChoice 20 21 LHold)); [vm_compute; reflexivity|split_and!; vm_compute; done|vm_compute; reflexivity]. }
  eapply reach_step; [eapply reach_step; [exact Hr|]|].
  - apply (step_schedule_fiber 4096 demo_running 20 6).
    assert (w_threads demo_running = <[6 := mkThread PTop (mkLocal (Some 12) (Some 12) (Some 12) (Some 12)) None (Some 13)]>
      (<[5 := mkThread (PRun true 20) (mkLocal (Some 20) (Some 10) (Some 10) (Some 20)) (Some 20) (Some 11)]> ∅)) as Ht by (vm_compute; reflexivity).
    split; [vm_compute; set_solver|]. eexists. split; [vm_compute; reflexivity|]. split; [reflexivity|].
    intros tid th. rewrite Ht, !lookup_insert_Some, lookup_empty. intros [[<- <-]|[_ [[<- <-]|[_ [=]]]]]; [|done].
    unfold owns. cbn. intros [?|[?|[?|?]]]; congruence.
  - eapply (next_world_step 4096 6 (mkChoice 30 31 LHold)); [vm_compute; reflexivity|split_and!; vm_compute; done|vm_compute; reflexivity].
Qed.


(** Fiber 40, that waits, is scheduled twice: both threads take it, and the second
    finds it running when it switches to it. *)
Definition demo_waiting_fiber : World :=
  mkWorld (<[40 := mkFiber 9 4096 HOLD true (Some 1) false]> (w_fibers demo_two)) (w_ids demo_two) (w_count demo_two)
    (set_queue [] (w_sched demo_two)) (w_threads demo_two).
Lemma scheduled_twice_fails :
  ∃ w th, next_worlds 4096 [(5, mkChoice 50 51 LHold); (6, mkChoice 50 51 LHold); (5, mkChoice 50 51 LHold)]
            (scheduled 40 (-1) (scheduled 40 (-1) demo_waiting_fiber)) = Some w ∧
    w_threads w !! 6 = Some th ∧ section 4096 6 (mkChoice 50 51 LHold) (th_pc th) (load w th) = Stop AssertFail.
Proof. eexists _, _. split; [vm_compute; reflexivity|]. split; [vm_compute; reflexivity|]. vm_compute. reflexivity. Qed.
