(* ===== verification/IOManager.v ===== *)
(** IOManager (skt/iomanager/iomanager.h, skt/iomanager/iomanager.cpp).

    An IOManager is a Scheduler and a TimerManager with a table of file
    descriptors and the events tasks wait for. [IOHost] holds the Scheduler
    part and IOManager's own members; an IOManager is a TimerManager around
    it, whose onTimerInsertedAtFront is IOManager::tickle. epoll is the
    kernel's: class [Epoll], with what epoll_ctl(2) documents as
    [EpollLaws]. *)

From stdpp Require Import base list gmap.
From Stdlib Require Import Lia.
From S2P Require Import Prelude Timer Fiber Scheduler.

(** ** epoll *)

Inductive epoll_op : Type := EPOLL_CTL_ADD | EPOLL_CTL_MOD | EPOLL_CTL_DEL.

Definition EPOLLIN : Z := 1.
Definition EPOLLOUT : Z := 4.
Definition EPOLLERR : Z := 8.
Definition EPOLLHUP : Z := 16.
Definition EPOLLET : Z := 2 ^ 31.

Class Epoll (K : Type) : Type := {
  epoll_ctl : epoll_op → Z → Z → K → Z * K;     (* the return value is 0 or -1 *)
  interest : K → Z → option Z                   (* the events registered for a descriptor *)
}.

Class EpollLaws (K : Type) `{Epoll K} : Prop := {
  epoll_ctl_set op fd ev k k' :
    op ≠ EPOLL_CTL_DEL → epoll_ctl op fd ev k = (0, k') → interest k' fd = Some ev;
  epoll_ctl_del fd ev k k' :
    epoll_ctl EPOLL_CTL_DEL fd ev k = (0, k') → interest k' fd = None;
  epoll_ctl_other op fd ev k rt k' fd' :
    epoll_ctl op fd ev k = (rt, k') → fd' ≠ fd → interest k' fd' = interest k fd';
  epoll_ctl_fails op fd ev k rt k' :
    epoll_ctl op fd ev k = (rt, k') → rt ≠ 0 → interest k' fd = interest k fd
}.

(** ** Data *)

(** IOManager::Event *)
Definition NONE : Z := 0.
Definition READ : Z := 1.
Definition WRITE : Z := 4.

(** FdContext::EventContext; [ec_scheduler] says that the pointer is set. *)
Record EventContext : Type := mkEC {
  ec_scheduler : bool;
  ec_fiber : option Z;
  ec_cb : option Z
}.
Definition EC_empty : EventContext := mkEC false None None.

Record FdContext : Type := mkFd {
  fd : Z;
  fd_read : EventContext;
  fd_write : EventContext;
  events : Z
}.

Record IOHost (K : Type) : Type := mkHost {
  io_sched : Sched;
  io_epoll : K;
  m_pendingEventCount : Z;
  m_fdContexts : list FdContext;
  m_pipe : nat                      (* bytes written to m_tickleFds[1] *)
}.
Arguments mkHost {K} _ _ _ _ _.
Arguments io_sched {K} _.
Arguments io_epoll {K} _.
Arguments m_pendingEventCount {K} _.
Arguments m_fdContexts {K} _.
Arguments m_pipe {K} _.

Section Ops.
Context {K : Type} `{EP : Epoll K}.
Abbreviation io := (M (IOHost K)).

Definition set_sched (s : Sched) (h : IOHost K) : IOHost K :=
  mkHost s (io_epoll h) (m_pendingEventCount h) (m_fdContexts h) (m_pipe h).
Definition set_epoll (k : K) (h : IOHost K) : IOHost K :=
  mkHost (io_sched h) k (m_pendingEventCount h) (m_fdContexts h) (m_pipe h).
Definition set_pending (n : Z) (h : IOHost K) : IOHost K :=
  mkHost (io_sched h) (io_epoll h) n (m_fdContexts h) (m_pipe h).
Definition set_contexts (l : list FdContext) (h : IOHost K) : IOHost K :=
  mkHost (io_sched h) (io_epoll h) (m_pendingEventCount h) l (m_pipe h).
Definition set_pipe (n : nat) (h : IOHost K) : IOHost K :=
  mkHost (io_sched h) (io_epoll h) (m_pendingEventCount h) (m_fdContexts h) n.

(** IOManager::tickle *)
Definition io_tickle (h : IOHost K) : IOHost K :=
  if hasIdleThreads (io_sched h) then set_pipe (S (m_pipe h)) h else h.

(** IOManager::onTimerInsertedAtFront *)
#[global] Instance IOHost_timer : TimerHost (IOHost K) := io_tickle.

(** Scheduler::schedule, with IOManager's tickle. *)
Definition io_schedule (ft : FiberAndThread) (h : IOHost K) : IOHost K :=
  let '(need_tickle, s) := scheduleNoLock ft (io_sched h) in
  if need_tickle then io_tickle (set_sched s h) else set_sched s h.
Definition io_schedule_range (fts : list FiberAndThread) (h : IOHost K) : IOHost K :=
  let '(need_tickle, s) := schedule_loop fts false (io_sched h) in
  if need_tickle then io_tickle (set_sched s h) else set_sched s h.

(** m_fdContexts[i], and a write to it. *)
Definition ctx_get (i : Z) : io FdContext :=
  h ← mget;
  if i <? 0 then mstop OutOfBounds else mderef OutOfBounds (m_fdContexts h !! Z.to_nat i).
Definition ctx_set (i : Z) (c : FdContext) : io unit :=
  mmodify (λ h, set_contexts (<[Z.to_nat i := c]> (m_fdContexts h)) h).

(** epoll_ctl(m_epfd, op, fd, &event) *)
Definition ctl (op : epoll_op) (i ev : Z) : io Z :=
  h ← mget;
  let '(rt, k) := epoll_ctl op i ev (io_epoll h) in
  mput (set_epoll k h);; mret rt.

(** FdContext::getContext *)
Definition getContext (event : Z) (c : FdContext) : io EventContext :=
  if event =? READ then mret (fd_read c)
  else if event =? WRITE then mret (fd_write c)
  else mstop AssertFail.
Definition putContext (event : Z) (e : EventContext) (c : FdContext) : FdContext :=
  if event =? READ then mkFd (fd c) e (fd_write c) (events c)
  else if event =? WRITE then mkFd (fd c) (fd_read c) e (events c)
  else c.
Definition with_events (ev : Z) (c : FdContext) : FdContext :=
  mkFd (fd c) (fd_read c) (fd_write c) ev.

(** FdContext::resetContext *)
Definition resetContext (event : Z) (c : FdContext) : FdContext := putContext event EC_empty c.

(** FdContext::triggerEvent. schedule takes the function or fiber out of the
    context. *)
Definition triggerEvent (i event : Z) : io unit :=
  c ← ctx_get i;
  massert (negb (Z.land (events c) event =? 0));;
  let c1 := with_events (Z.land (events c) (Z.lnot event)) c in
  e ← getContext event c1;
  (if ec_scheduler e then mret tt else mstop NullDeref);;
  (match ec_cb e with
   | Some cb => mmodify (io_schedule (FT_cb (Some cb) (-1)))
   | None => mmodify (io_schedule (FT_fiber (ec_fiber e) (-1)))
   end);;
  let e' := match ec_cb e with
            | Some _ => mkEC false (ec_fiber e) None
            | None => mkEC false None None
            end in
  ctx_set i (putContext event e' c1).

Definition inc_pending : io unit :=
  mmodify (λ h, set_pending (u64 (m_pendingEventCount h + 1)) h).
Definition dec_pending : io unit :=
  mmodify (λ h, set_pending (u64 (m_pendingEventCount h - 1)) h).

(** IOManager::contextResize *)
Definition new_contexts (from to : nat) : list FdContext :=
  (λ i, mkFd (Z.of_nat i) EC_empty EC_empty NONE) <$> seq from (to - from).
Definition contextResize (size : Z) : io unit :=
  mmodify (λ h,
    let old := take (Z.to_nat size) (m_fdContexts h) in
    set_contexts (old ++ new_contexts (length old) (Z.to_nat size)) h).

(** IOManager::IOManager once the pipe exists, before start(): the pipe's read
    end [tick] is watched and the table gets 32 entries. *)
Definition IOManager_new (tick : Z) : io unit :=
  rt ← ctl EPOLL_CTL_ADD tick (Z.lor EPOLLIN EPOLLET);
  massert (rt =? 0);;
  contextResize 32.

(** IOManager::addEvent: the look at the table under the read lock, *)
Definition addEvent_fits (i : Z) : io bool :=
  h ← mget; mret (i <? i32 (zlen (m_fdContexts h))).
(** growing it under the write lock ([fd * 1.5] is truncated), *)
Definition addEvent_grow (i : Z) : io unit := contextResize (3 * i / 2).
(** and the registration. [sched] says whether the calling thread has a
    scheduler; [cur] is its fiber and [exec] whether that is in state EXEC. *)
Definition addEvent_register (i event : Z) (cb : option Z) (sched : bool) (cur : Z) (exec : bool) : io Z :=
  c ← ctx_get i;
  massert (Z.land (events c) event =? 0);;
  let op := if events c =? 0 then EPOLL_CTL_ADD else EPOLL_CTL_MOD in
  rt ← ctl op i (Z.lor (Z.lor EPOLLET (events c)) event);
  if negb (rt =? 0) then mret (-1)
  else
    inc_pending;;
    let c1 := with_events (Z.lor (events c) event) c in
    e ← getContext event c1;
    massert (negb (ec_scheduler e) && bool_decide (ec_fiber e = None) && bool_decide (ec_cb e = None));;
    e' ← (match cb with
          | Some _ => mret (mkEC sched None cb)
          | None => massert exec;; mret (mkEC sched (Some cur) None)
          end);
    ctx_set i (putContext event e' c1);;
    mret 0.

Definition addEvent (i event : Z) (cb : option Z) (sched : bool) (cur : Z) (exec : bool) : io Z :=
  fits ← addEvent_fits i;
  (if (fits : bool) then mret tt else addEvent_grow i);;
  addEvent_register i event cb sched cur exec.

(** IOManager::delEvent *)
Definition delEvent (i event : Z) : io bool :=
  h ← mget;
  if i32 (zlen (m_fdContexts h)) <=? i then mret false
  else
    c ← ctx_get i;
    if Z.land (events c) event =? 0 then mret false
    else
      let new_events := Z.land (events c) (Z.lnot event) in
      let op := if new_events =? 0 then EPOLL_CTL_DEL else EPOLL_CTL_MOD in
      rt ← ctl op i (Z.lor EPOLLET new_events);
      if negb (rt =? 0) then mret false
      else
        dec_pending;;
        getContext event c;;
        ctx_set i (resetContext event (with_events new_events c));;
        mret true.

(** IOManager::cancelEvent *)
Definition cancelEvent (i event : Z) : io bool :=
  h ← mget;
  if i32 (zlen (m_fdContexts h)) <=? i then mret false
  else
    c ← ctx_get i;
    if Z.land (events c) event =? 0 then mret false
    else
      let new_events := Z.land (events c) (Z.lnot event) in
      let op := if new_events =? 0 then EPOLL_CTL_DEL else EPOLL_CTL_MOD in
      rt ← ctl op i (Z.lor EPOLLET new_events);
      if negb (rt =? 0) then mret false
      else triggerEvent i event;; dec_pending;; mret true.

(** [if(fd_ctx->events & event){ triggerEvent(event); --m_pendingEventCount; }] *)
Definition trigger_if (b : bool) (i event : Z) : io unit :=
  if b then triggerEvent i event;; dec_pending else mret tt.

(** IOManager::cancelAll *)
Definition cancelAll (i : Z) : io bool :=
  h ← mget;
  if i32 (zlen (m_fdContexts h)) <=? i then mret false
  else
    c ← ctx_get i;
    if events c =? 0 then mret false
    else
      rt ← ctl EPOLL_CTL_DEL i 0;
      if negb (rt =? 0) then mret false
      else
        trigger_if (negb (Z.land (events c) READ =? 0)) i READ;;
        c ← ctx_get i;
        trigger_if (negb (Z.land (events c) WRITE =? 0)) i WRITE;;
        c ← ctx_get i;
        massert (events c =? 0);;
        mret true.

(** The events that idle acts on. *)
Definition real_events (ev : Z) : Z :=
  let ev := if negb (Z.land ev (Z.lor EPOLLERR EPOLLHUP) =? 0)
            then Z.lor ev (Z.lor EPOLLIN EPOLLOUT) else ev in
  let r := if negb (Z.land ev EPOLLIN =? 0) then READ else NONE in
  if negb (Z.land ev EPOLLOUT =? 0) then Z.lor r WRITE else r.

(** What epoll_wait reports: the pipe, or events of a descriptor's context. *)
Inductive epoll_event : Type :=
| EvTickle
| EvFd (i ev : Z).

(** The body of idle's loop over the events reported. *)
Definition handle_event (e : epoll_event) : io unit :=
  match e with
  | EvTickle => mmodify (set_pipe 0)
  | EvFd i ev =>
    let real := real_events ev in
    c ← ctx_get i;
    if Z.land (events c) real =? NONE then mret tt
    else
      let left_events := Z.land (events c) (Z.lnot real) in
      let op := if left_events =? 0 then EPOLL_CTL_DEL else EPOLL_CTL_MOD in
      rt2 ← ctl op (fd c) (Z.lor EPOLLET left_events);
      if negb (rt2 =? 0) then mret tt
      else
        trigger_if (negb (Z.land real READ =? 0)) i READ;;
        trigger_if (negb (Z.land real WRITE =? 0)) i WRITE
  end.

Fixpoint handle_events (es : list epoll_event) : io unit :=
  match es with
  | [] => mret tt
  | e :: es' => handle_event e;; handle_events es'
  end.

(** The timeout idle passes to epoll_wait. *)
Definition wait_timeout (next_timeout : Z) : Z :=
  let MAX_TIMEOUT := 3000 in
  i32 (if negb (next_timeout =? 2 ^ 64 - 1)
       then if MAX_TIMEOUT <? i32 next_timeout then MAX_TIMEOUT else next_timeout
       else MAX_TIMEOUT).

End Ops.

(** ** The whole object *)

Section Whole.
Context {K : Type} `{EP : Epoll K}.
Abbreviation IOM := (TimerManager (IOHost K)).

(** A method of the IOHost part. *)
Definition onHost {A} (c : M (IOHost K) A) : M IOM A := λ m,
  match c (host m) with
  | Ok a h => Ok a (with_host h m)
  | Exc e h => Exc e (with_host h m)
  | Stop u => Stop u
  | NoFuel => NoFuel
  end.

(** IOManager::stopping(uint64_t&) *)
Definition io_stopping (now : Z) : M IOM (Z * bool) :=
  timeout ← getNextTimer now;
  m ← mget;
  mret (timeout, (timeout =? 2 ^ 64 - 1) && (m_pendingEventCount (host m) =? 0)
                 && stopping (io_sched (host m))).

(** The function of a timer as a task: its number. *)
Definition task_of (cb : option callback) : FiberAndThread :=
  FT_cb (match cb with Some (UserCb id) => Some id | Some (BindOnTimer w _) => Some w | None => None end) (-1).

(** One round of IOManager::idle, from the test of stopping to the yield:
    [None] when it ends, else the timeout of the wait. [now] and [now'] are the
    times before and after the wait, [es] what epoll_wait returned. *)
Definition idle_round (now now' tmp : Z) (es : list epoll_event) : M IOM (option Z) :=
  st ← io_stopping now;
  let '(timeout, stop) := (st : Z * bool) in
  if (stop : bool) then mret None
  else
    cbs ← listExpiredCb now' tmp [];
    (if bool_decide (cbs = []) then mret tt
     else onHost (mmodify (io_schedule_range (task_of <$> cbs))));;
    onHost (handle_events es);;
    mret (Some (wait_timeout timeout)).

End Whole.
