(* ===== verification/IOManagerProps.v ===== *)
(** Properties of IOManager: the table of contexts, the pending counter and
    the kernel's interest list stay consistent, and every registered event
    leads to exactly one scheduled task. *)

From stdpp Require Import base list gmap.
From Stdlib Require Import Lia.
From S2P Require Import Prelude Timer Fiber Scheduler IOManager.

(** ** Event bits *)

Definition is_event (e : Z) : Prop := e = READ ∨ e = WRITE.
Definition is_events (ev : Z) : Prop := ev = 0 ∨ ev = 1 ∨ ev = 4 ∨ ev = 5.
Definition has (ev e : Z) : bool := negb (Z.land ev e =? 0).

(** How many events are registered. *)
Definition nev (c : FdContext) : Z := (if has (events c) READ then 1 else 0) + (if has (events c) WRITE then 1 else 0).

Ltac evs :=
  repeat match goal with
  | H : is_events _ |- _ => destruct H as [->|[->|[->| ->]]]
  | H : is_event _ |- _ => destruct H as [->| ->]
  end.

(** ** The invariant *)

(** A registered event has a scheduler and either a function or a fiber; the
    context of another event is empty. *)
Definition armed (e : EventContext) : Prop :=
  ec_scheduler e = true ∧
  ((ec_fiber e = None ∧ ec_cb e ≠ None) ∨ (ec_fiber e ≠ None ∧ ec_cb e = None)).
Definition ec_ok (on : bool) (e : EventContext) : Prop := if on then armed e else e = EC_empty.

Record ctx_ok (i : nat) (c : FdContext) : Prop := {
  co_fd : fd c = Z.of_nat i;
  co_events : is_events (events c);
  co_read : ec_ok (has (events c) READ) (fd_read c);
  co_write : ec_ok (has (events c) WRITE) (fd_write c)
}.

(** What the kernel should watch for a descriptor. *)
Definition watched (l : list FdContext) (i : Z) : option Z :=
  match l !! Z.to_nat i with
  | Some c => if events c =? 0 then None else Some (Z.lor EPOLLET (events c))
  | None => None
  end.

Definition total (l : list FdContext) : Z := foldr (λ c n, nev c + n) 0 l.

Section Inv.
Context {K : Type} `{EP : Epoll K} `{EL : !EpollLaws K} (tick : Z).
Implicit Types h : IOHost K.

Record io_inv h : Prop := {
  io_ctx i c : m_fdContexts h !! i = Some c → ctx_ok i c;
  io_size : 32 ≤ zlen (m_fdContexts h) < 2 ^ 31;
  io_count : m_pendingEventCount h = u64 (total (m_fdContexts h));
  io_kernel i : 0 ≤ i → i ≠ tick → interest (io_epoll h) i = watched (m_fdContexts h) i
}.

Lemma io_inv_frame h h' :
  io_epoll h' = io_epoll h → m_pendingEventCount h' = m_pendingEventCount h →
  m_fdContexts h' = m_fdContexts h → io_inv h → io_inv h'.
Proof. intros E1 E2 E3 HI. split; rewrite ?E1, ?E2, ?E3; apply HI. Qed.

Lemma io_schedule_frame ft h :
  io_epoll (io_schedule ft h) = io_epoll h ∧
  m_pendingEventCount (io_schedule ft h) = m_pendingEventCount h ∧
  m_fdContexts (io_schedule ft h) = m_fdContexts h.
Proof.
  unfold io_schedule, scheduleNoLock, io_tickle. destruct (bool_decide _), (ft_some ft); cbn;
    try done; by destruct (hasIdleThreads _).
Qed.

Lemma io_schedule_queue ft h :
  ft_some ft = true → m_fibers (io_sched (io_schedule ft h)) = m_fibers (io_sched h) ++ [ft].
Proof.
  intros Hs. unfold io_schedule, scheduleNoLock, io_tickle. rewrite Hs. destruct (bool_decide _); cbn;
    try done; by destruct (hasIdleThreads _).
Qed.

Lemma nev_range c : 0 ≤ nev c ≤ 2.
Proof. unfold nev. destruct (has _ READ), (has _ WRITE); lia. Qed.

Lemma total_insert l i c c' :
  l !! i = Some c → total (<[i := c']> l) = total l + nev c' - nev c.
Proof.
  revert i. induction l as [|x l IH]; intros [|i] E; try done.
  - injection E as ->. cbn. lia.
  - change (nev x + total (<[i := c']> l) = nev x + total l + nev c' - nev c). rewrite (IH i E). lia.
Qed.

(** Replacing one context, with the counter and the kernel in step. *)
Lemma io_update h h' i c c' :
  io_inv h → m_fdContexts h !! Z.to_nat i = Some c → 0 ≤ i → ctx_ok (Z.to_nat i) c' →
  m_fdContexts h' = <[Z.to_nat i := c']> (m_fdContexts h) →
  m_pendingEventCount h' = u64 (m_pendingEventCount h + (nev c' - nev c)) →
  interest (io_epoll h') i = (if events c' =? 0 then None else Some (Z.lor EPOLLET (events c'))) →
  (∀ j, j ≠ i → interest (io_epoll h') j = interest (io_epoll h) j) → io_inv h'.
Proof.
  intros HI Hc Hi Hok Ec Ep Ek Eo. split.
  - rewrite Ec. intros j d. rewrite list_lookup_insert_Some.
    intros [(<- & <- & _)|[_ Hd]]; [done|]. by apply (io_ctx _ HI).
  - rewrite Ec. unfold zlen. rewrite length_insert. apply (io_size _ HI).
  - rewrite Ep, Ec, (total_insert _ _ c) by done. rewrite (io_count _ HI).
    unfold wrapu. rewrite Zplus_mod_idemp_l. f_equal. lia.
  - intros j Hj Hjt. unfold watched. rewrite Ec. destruct (decide (j = i)) as [->|Hne].
    + rewrite list_lookup_insert_eq by (by eapply lookup_lt_Some). done.
    + rewrite list_lookup_insert_ne by lia. rewrite Eo by done. by apply (io_kernel _ HI).
Qed.

(** The context of descriptor [i] of the table. *)
Lemma ctx_get_spec h i c :
  0 ≤ i → m_fdContexts h !! Z.to_nat i = Some c → ctx_get i h = Ok c h.
Proof.
  intros Hi E. unfold ctx_get. mred. rewrite (proj2 (Z.ltb_ge _ _)) by lia. by rewrite E.
Qed.

Lemma in_table h i :
  io_inv h → 0 ≤ i → i < zlen (m_fdContexts h) →
  ∃ c, m_fdContexts h !! Z.to_nat i = Some c ∧ ctx_ok (Z.to_nat i) c.
Proof.
  intros HI Hi Hlt. destruct (lookup_lt_is_Some_2 (m_fdContexts h) (Z.to_nat i)) as [c Hc].
  { unfold zlen in Hlt. lia. }
  exists c. split; [done|]. by apply (io_ctx _ HI).
Qed.

Lemma size_i32 h : io_inv h → i32 (zlen (m_fdContexts h)) = zlen (m_fdContexts h).
Proof. intros HI. pose proof (io_size _ HI). apply wraps_small; [lia|]. unfold in_s. lia. Qed.

(** ** Triggering *)

(** The task a registered event stands for. *)
Definition task (e : EventContext) : FiberAndThread :=
  match ec_cb e with Some cb => FT_cb (Some cb) (-1) | None => FT_fiber (ec_fiber e) (-1) end.
Definition context (event : Z) (c : FdContext) : EventContext :=
  if event =? READ then fd_read c else fd_write c.
(** The context without the event. *)
Definition clear_event (event : Z) (c : FdContext) : FdContext :=
  resetContext event (with_events (Z.land (events c) (Z.lnot event)) c).

Lemma task_some e : armed e → ft_some (task e) = true.
Proof. intros [_ [[Hf Hc]|[Hf Hc]]]; unfold task; destruct (ec_cb e), (ec_fiber e); done. Qed.

Lemma registered_armed i c event :
  ctx_ok i c → is_event event → has (events c) event = true → armed (context event c).
Proof.
  intros Hok He Hh. pose proof (co_read _ _ Hok). pose proof (co_write _ _ Hok).
  destruct He as [->| ->]; unfold context; cbn; rewrite Hh in *; done.
Qed.

Lemma clear_ok i c event :
  ctx_ok i c → is_event event → has (events c) event = true →
  ctx_ok i (clear_event event c) ∧ nev (clear_event event c) = nev c - 1.
Proof.
  intros [Hfd Hev Hr Hw] He Hh. destruct c as [n r w ev]. cbn in *. subst n.
  unfold nev. evs; try done; (split; [split|]); cbn in *; try done; unfold is_events; auto.
Qed.

Lemma triggerEvent_spec h i c event :
  0 ≤ i → m_fdContexts h !! Z.to_nat i = Some c → is_event event → has (events c) event = true →
  armed (context event c) →
  triggerEvent i event h =
  Ok tt (let h' := io_schedule (task (context event c)) h in
         set_contexts (<[Z.to_nat i := clear_event event c]> (m_fdContexts h')) h').
Proof.
  intros Hi Hc He Hh [Hs Ha]. unfold triggerEvent, has in *.
  rewrite (bind_ok _ _ _ _ _ (ctx_get_spec h i c Hi Hc)). rewrite Hh.
  destruct He as [->| ->]; unfold context, clear_event, task in *; cbn in Hs, Ha |- *; unfold getContext, ctx_set; mred; cbn;
    rewrite Hs; destruct Ha as [[Hf Hcb]|[Hf Hcb]].
  all: rewrite ?Hf, ?Hcb; try done.
  all: destruct (ec_cb _) eqn:Ecb; try done.
Qed.

(** ** Registering *)

Definition arm (event : Z) (e : EventContext) (c : FdContext) : FdContext :=
  putContext event e (with_events (Z.lor (events c) event) c).
Definition waiter (cb : option Z) (cur : Z) : EventContext :=
  match cb with Some _ => mkEC true None cb | None => mkEC true (Some cur) None end.

Lemma waiter_armed cb cur : armed (waiter cb cur).
Proof. destruct cb; split; try done; [left|right]; done. Qed.

Lemma arm_ok i c event e :
  ctx_ok i c → is_event event → has (events c) event = false → armed e →
  ctx_ok i (arm event e c) ∧ nev (arm event e c) = nev c + 1 ∧ events (arm event e c) = Z.lor (events c) event.
Proof.
  intros [Hfd Hev Hr Hw] He Hh Ha. destruct c as [n r w ev]. cbn in *. subst n.
  unfold nev. evs; try done; (split; [split|split]); cbn in *; try done; unfold is_events; auto.
Qed.

Lemma not_has_eqb ev e : has ev e = false → (Z.land ev e =? 0) = true.
Proof. unfold has. by destruct (Z.land ev e =? 0). Qed.

(** After a failed epoll_ctl nothing is different. *)
Lemma ctl_failed h op i ev rt k :
  io_inv h → 0 ≤ i → i ≠ tick → epoll_ctl op i ev (io_epoll h) = (rt, k) → rt ≠ 0 → io_inv (set_epoll k h).
Proof.
  intros HI Hi Hit E Hrt. split; cbn; try apply HI. intros j Hj Hjt.
  rewrite <- (io_kernel _ HI j Hj Hjt). destruct (decide (j = i)) as [->|].
  - by eapply epoll_ctl_fails.
  - by eapply epoll_ctl_other.
Qed.

Lemma ctl_eq h op i ev rt k :
  epoll_ctl op i ev (io_epoll h) = (rt, k) → ctl op i ev h = Ok rt (set_epoll k h).
Proof. intros E. unfold ctl. mred. by rewrite E. Qed.

Definition reg_op (c : FdContext) : epoll_op := if events c =? 0 then EPOLL_CTL_ADD else EPOLL_CTL_MOD.

Lemma register_spec h i c event cb cur exec rt k :
  io_inv h → 0 ≤ i → i ≠ tick → m_fdContexts h !! Z.to_nat i = Some c → is_event event →
  has (events c) event = false → (cb = None → exec = true) →
  epoll_ctl (reg_op c) i (Z.lor (Z.lor EPOLLET (events c)) event) (io_epoll h) = (rt, k) →
  ∃ h', addEvent_register i event cb true cur exec h = Ok (if rt =? 0 then 0 else -1) h' ∧ io_inv h' ∧
    io_sched h' = io_sched h ∧
    (rt = 0 → m_fdContexts h' = <[Z.to_nat i := arm event (waiter cb cur) c]> (m_fdContexts h) ∧
              m_pendingEventCount h' = u64 (m_pendingEventCount h + 1)) ∧
    (rt ≠ 0 → m_fdContexts h' = m_fdContexts h ∧ m_pendingEventCount h' = m_pendingEventCount h).
Proof.
  intros HI Hi Hit Hc He Hh Hex Ek. pose proof (io_ctx _ HI _ _ Hc) as Hok.
  unfold addEvent_register. rewrite (bind_ok _ _ _ _ _ (ctx_get_spec h i c Hi Hc)).
  rewrite (not_has_eqb _ _ Hh). unfold massert at 1. rewrite (bind_ok _ _ h tt h) by done. cbv zeta.
  rewrite (bind_ok _ _ _ _ _ (ctl_eq h (reg_op c) i _ rt k Ek)).
  destruct (Z.eqb_spec rt 0) as [->|Hrt]; cbn [negb].
  - destruct (arm_ok _ c event (waiter cb cur) Hok He Hh (waiter_armed _ _)) as (Hok' & Hn & Hev).
    set (h' := mkHost (io_sched h) k (u64 (m_pendingEventCount h + 1))
                 (<[Z.to_nat i := arm event (waiter cb cur) c]> (m_fdContexts h)) (m_pipe h)).
    assert (context event c = EC_empty) as Hemp.
    { pose proof (co_read _ _ Hok). pose proof (co_write _ _ Hok).
      destruct He as [->| ->]; unfold context; cbn; rewrite Hh in *; done. }
    exists h'. split; [|split; [|done]].
    + unfold inc_pending. rewrite bind_modify. destruct He as [->| ->]; unfold getContext, context in *; cbn in Hemp |- *;
        mred; cbn; rewrite Hemp; cbn; destruct cb; try done; by rewrite Hex.
    + eapply (io_update h h' i c); try done.
      * cbn. f_equal. lia.
      * cbn. rewrite Hev. rewrite (epoll_ctl_set (reg_op c) i _ _ k (ltac:(by unfold reg_op; destruct (_ =? _))) Ek).
        rewrite <- Z.lor_assoc. pose proof (co_events _ _ Hok) as Hevs. destruct He as [->| ->]; evs; done.
      * intros j Hj. cbn. by eapply epoll_ctl_other.
  - eexists. split; [done|]. split; [by eapply ctl_failed|]. done.
Qed.

Lemma new_contexts_lookup a b i c :
  new_contexts a b !! i = Some c → c = mkFd (Z.of_nat (a + i)) EC_empty EC_empty NONE.
Proof.
  unfold new_contexts. rewrite list_lookup_fmap. intros (n & Hn & ->)%fmap_Some.
  apply lookup_seq in Hn as [-> _]. done.
Qed.

Lemma total_app l1 l2 : total (l1 ++ l2) = total l1 + total l2.
Proof. unfold total. induction l1 as [|c l1 IH]; cbn; [lia|]. rewrite IH. lia. Qed.

Lemma total_new a b : total (new_contexts a b) = 0.
Proof. unfold total, new_contexts. generalize (b - a)%nat. intros n. revert a. induction n as [|n IH]; intros a; [done|]. cbn. apply IH. Qed.

(** Growing the table keeps all contexts and adds empty ones. *)
Lemma grow_spec h size :
  io_inv h → zlen (m_fdContexts h) ≤ size < 2 ^ 31 →
  ∃ h', contextResize size h = Ok tt h' ∧ io_inv h' ∧ zlen (m_fdContexts h') = size ∧
    m_pendingEventCount h' = m_pendingEventCount h ∧ io_sched h' = io_sched h ∧ io_epoll h' = io_epoll h ∧
    (∀ i c, m_fdContexts h' !! i = Some c → m_fdContexts h !! i = Some c ∨ events c = 0).
Proof.
  intros HI Hs. unfold contextResize, mmodify. eexists. split; [done|]. cbn.
  assert (take (Z.to_nat size) (m_fdContexts h) = m_fdContexts h) as Et.
  { apply take_ge. unfold zlen in Hs. lia. }
  rewrite Et. set (old := m_fdContexts h) in *. set (new := new_contexts _ _).
  assert (∀ i c, (old ++ new) !! i = Some c →
     old !! i = Some c ∨ c = mkFd (Z.of_nat i) EC_empty EC_empty NONE ∧ old !! i = None) as Hl.
  { intros i c [Ho|[Hlen Hn]]%lookup_app_Some; [by left|]. right. apply new_contexts_lookup in Hn as ->.
    split; [f_equal; lia|]. by apply lookup_ge_None. }
  assert (zlen (old ++ new) = size) as Hz.
  { unfold zlen, new, new_contexts. rewrite length_app, length_fmap, length_seq. unfold zlen in Hs. lia. }
  split; [|split; [done|split_and!; try done]].
  - split; cbn.
    + intros i c [Hc|[-> _]]%Hl; [by apply (io_ctx _ HI)|]. split; cbn; try done. by left.
    + pose proof (io_size _ HI) as Hz0. fold old in Hz0. lia.
    + unfold new. rewrite total_app, total_new, Z.add_0_r. apply (io_count _ HI).
    + intros i Hi Hit. rewrite (io_kernel _ HI i Hi Hit). unfold watched. fold old.
      destruct ((old ++ new) !! Z.to_nat i) as [c|] eqn:E.
      * destruct (Hl _ _ E) as [->|[-> Hn]]; [done|]. by rewrite Hn.
      * apply lookup_ge_None in E. rewrite length_app in E. by rewrite lookup_ge_None_2 by lia.
  - intros i c [Hc|[-> _]]%Hl; [by left|by right].
Qed.

(** ** Removing *)

Definition rem_op (ev : Z) : epoll_op := if ev =? 0 then EPOLL_CTL_DEL else EPOLL_CTL_MOD.

(** What the kernel watches once [ev] has been left registered. *)
Lemma rem_interest i ev k k' :
  epoll_ctl (rem_op ev) i (Z.lor EPOLLET ev) k = (0, k') →
  interest k' i = (if ev =? 0 then None else Some (Z.lor EPOLLET ev)).
Proof.
  unfold rem_op. destruct (ev =? 0); intros E; [by eapply epoll_ctl_del|eapply epoll_ctl_set; [|exact E]; done].
Qed.

Lemma clear_events event c : events (clear_event event c) = Z.land (events c) (Z.lnot event).
Proof. unfold clear_event, resetContext, putContext. by destruct (event =? READ), (event =? WRITE). Qed.

(** The table without the event of [i]: the outcome of delEvent and
    cancelEvent. *)
Lemma cleared h h' i c event k :
  io_inv h → 0 ≤ i → m_fdContexts h !! Z.to_nat i = Some c → is_event event → has (events c) event = true →
  epoll_ctl (rem_op (Z.land (events c) (Z.lnot event))) i
    (Z.lor EPOLLET (Z.land (events c) (Z.lnot event))) (io_epoll h) = (0, k) →
  io_epoll h' = k → m_pendingEventCount h' = u64 (m_pendingEventCount h - 1) →
  m_fdContexts h' = <[Z.to_nat i := clear_event event c]> (m_fdContexts h) → io_inv h'.
Proof.
  intros HI Hi Hc He Hh Ek E1 E2 E3. pose proof (io_ctx _ HI _ _ Hc) as Hok.
  destruct (clear_ok _ c event Hok He Hh) as [Hok' Hn].
  eapply (io_update h h' i c); try done.
  - rewrite E2, Hn. f_equal. lia.
  - rewrite E1, clear_events. by eapply rem_interest.
  - intros j Hj. rewrite E1. by eapply epoll_ctl_other.
Qed.

Lemma table_guard h i :
  io_inv h → i < zlen (m_fdContexts h) → (i32 (zlen (m_fdContexts h)) <=? i) = false.
Proof. intros HI Hi. rewrite size_i32 by done. by apply Z.leb_gt. Qed.

Lemma delEvent_spec h i c event rt k :
  io_inv h → 0 ≤ i → i ≠ tick → m_fdContexts h !! Z.to_nat i = Some c → is_event event →
  has (events c) event = true →
  epoll_ctl (rem_op (Z.land (events c) (Z.lnot event))) i
    (Z.lor EPOLLET (Z.land (events c) (Z.lnot event))) (io_epoll h) = (rt, k) →
  ∃ h', delEvent i event h = Ok (rt =? 0) h' ∧ io_inv h' ∧ io_sched h' = io_sched h ∧
    m_fdContexts h' = (if rt =? 0 then <[Z.to_nat i := clear_event event c]> (m_fdContexts h) else m_fdContexts h).
Proof.
  intros HI Hi Hit Hc He Hh Ek. unfold delEvent.
  rewrite (bind_ok _ _ _ _ _ (eq_refl : mget h = Ok h h)).
  rewrite table_guard by (try done; apply lookup_lt_Some in Hc; unfold zlen; lia).
  rewrite (bind_ok _ _ _ _ _ (ctx_get_spec h i c Hi Hc)).
  replace (Z.land (events c) event =? 0) with false by (unfold has in Hh; by destruct (_ =? _)).
  cbv zeta. rewrite (bind_ok _ _ _ _ _ (ctl_eq h (rem_op _) i _ rt k Ek)).
  destruct (Z.eqb_spec rt 0) as [->|Hrt]; cbn [negb].
  - set (h' := mkHost (io_sched h) k (u64 (m_pendingEventCount h - 1))
                 (<[Z.to_nat i := clear_event event c]> (m_fdContexts h)) (m_pipe h)).
    exists h'. split; [|split; [by eapply (cleared h h')|done]].
    unfold dec_pending. rewrite bind_modify.
    destruct He as [->| ->]; done.
  - eexists. split; [done|]. split; [by eapply ctl_failed|done].
Qed.

(** Host [h] after the event's task was scheduled and its context emptied. *)
Definition triggered (i event : Z) (c : FdContext) h : IOHost K :=
  let h1 := io_schedule (task (context event c)) h in
  set_pending (u64 (m_pendingEventCount h1 - 1))
    (set_contexts (<[Z.to_nat i := clear_event event c]> (m_fdContexts h1)) h1).

Lemma triggered_fields i event c h :
  io_epoll (triggered i event c h) = io_epoll h ∧
  m_pendingEventCount (triggered i event c h) = u64 (m_pendingEventCount h - 1) ∧
  m_fdContexts (triggered i event c h) = <[Z.to_nat i := clear_event event c]> (m_fdContexts h) ∧
  io_sched (triggered i event c h) = io_sched (io_schedule (task (context event c)) h).
Proof.
  destruct (io_schedule_frame (task (context event c)) h) as (E1 & E2 & E3).
  unfold triggered. set (h1 := io_schedule _ h) in *. clearbody h1. cbn. by rewrite E1, E2, E3.
Qed.

Lemma trigger_dec h i c event :
  0 ≤ i → m_fdContexts h !! Z.to_nat i = Some c → is_event event → has (events c) event = true →
  armed (context event c) →
  (triggerEvent i event;; dec_pending) h = Ok tt (triggered i event c h).
Proof. intros. by rewrite (bind_ok _ _ _ _ _ (triggerEvent_spec h i c event ltac:(done) ltac:(done) ltac:(done) ltac:(done) ltac:(done))). Qed.

Lemma cancelEvent_spec h i c event rt k :
  io_inv h → 0 ≤ i → i ≠ tick → m_fdContexts h !! Z.to_nat i = Some c → is_event event →
  has (events c) event = true →
  epoll_ctl (rem_op (Z.land (events c) (Z.lnot event))) i
    (Z.lor EPOLLET (Z.land (events c) (Z.lnot event))) (io_epoll h) = (rt, k) →
  ∃ h', cancelEvent i event h = Ok (rt =? 0) h' ∧ io_inv h' ∧
    m_fdContexts h' = (if rt =? 0 then <[Z.to_nat i := clear_event event c]> (m_fdContexts h) else m_fdContexts h) ∧
    m_fibers (io_sched h') = m_fibers (io_sched h) ++ (if rt =? 0 then [task (context event c)] else []).
Proof.
  intros HI Hi Hit Hc He Hh Ek. unfold cancelEvent. pose proof (io_ctx _ HI _ _ Hc) as Hok.
  pose proof (registered_armed _ c event Hok He Hh) as Harm.
  rewrite (bind_ok _ _ _ _ _ (eq_refl : mget h = Ok h h)).
  rewrite table_guard by (try done; apply lookup_lt_Some in Hc; unfold zlen; lia).
  rewrite (bind_ok _ _ _ _ _ (ctx_get_spec h i c Hi Hc)).
  replace (Z.land (events c) event =? 0) with false by (unfold has in Hh; by destruct (_ =? _)).
  cbv zeta. rewrite (bind_ok _ _ _ _ _ (ctl_eq h (rem_op _) i _ rt k Ek)).
  destruct (Z.eqb_spec rt 0) as [->|Hrt]; cbn [negb].
  - destruct (triggered_fields i event c (set_epoll k h)) as (E1 & E2 & E3 & E4).
    exists (triggered i event c (set_epoll k h)). split; [|split; [|split]].
    + rewrite (bind_ok _ _ _ _ _ (triggerEvent_spec (set_epoll k h) i c event Hi Hc He Hh Harm)). done.
    + by eapply (cleared h).
    + done.
    + rewrite E4. by rewrite io_schedule_queue by (by apply task_some).
  - eexists. split; [done|]. split; [by eapply ctl_failed|]. split; [done|]. cbn. by rewrite app_nil_r.
Qed.

(** ** Several events at once *)

Definition maybe {A} (b : bool) (f : A → A) (x : A) : A := if b then f x else x.
Definition clear_all (real : Z) (c : FdContext) : FdContext :=
  maybe (has real WRITE) (clear_event WRITE) (maybe (has real READ) (clear_event READ) c).
(** The tasks of the events [real], in the order they are scheduled. *)
Definition tasks (real : Z) (c : FdContext) : list FiberAndThread :=
  (if has real READ then [task (fd_read c)] else []) ++ (if has real WRITE then [task (fd_write c)] else []).
Definition subset (real ev : Z) : Prop := ∀ e, is_event e → has real e = true → has ev e = true.

Lemma trigger_if_spec h i c event b :
  0 ≤ i → m_fdContexts h !! Z.to_nat i = Some c → is_event event →
  (b = true → has (events c) event = true ∧ armed (context event c)) →
  trigger_if b i event h = Ok tt (maybe b (triggered i event c) h).
Proof.
  intros Hi Hc He Hb. destruct b; [|done]. destruct (Hb eq_refl). by apply trigger_dec.
Qed.

(** [h'] is [h] with the events [real] of context [i] triggered. *)
Record fired_events (i : Z) (c : FdContext) (real : Z) h h' : Prop := {
  fe_contexts : m_fdContexts h' = <[Z.to_nat i := clear_all real c]> (m_fdContexts h);
  fe_pending : m_pendingEventCount h' = u64 (m_pendingEventCount h + (nev (clear_all real c) - nev c));
  fe_queue : m_fibers (io_sched h') = m_fibers (io_sched h) ++ tasks real c;
  fe_epoll : io_epoll h' = io_epoll h
}.

Lemma clear_all_ok i c real :
  ctx_ok i c → is_events real → subset real (events c) →
  ctx_ok i (clear_all real c) ∧ events (clear_all real c) = Z.land (events c) (Z.lnot real) ∧
  nev (clear_all real c) = nev c - (if has real READ then 1 else 0) - (if has real WRITE then 1 else 0).
Proof.
  intros [Hfd Hev Hr Hw] Hre Hs. pose proof (Hs READ (or_introl eq_refl)) as H1.
  pose proof (Hs WRITE (or_intror eq_refl)) as H2. destruct c as [n r w ev]. cbn in *. subst n. clear Hs.
  unfold clear_all, nev. evs; cbn in H1, H2 |- *; try (by specialize (H1 eq_refl)); try (by specialize (H2 eq_refl));
    (split; [split|split]); cbn in *; try done; unfold is_events; auto.
Qed.

(** Both triggers in a row. *)
Definition fire (i real : Z) (c : FdContext) h : IOHost K :=
  maybe (has real WRITE) (triggered i WRITE (maybe (has real READ) (clear_event READ) c))
    (maybe (has real READ) (triggered i READ c) h).

Lemma fire_spec h i c real :
  0 ≤ i → m_fdContexts h !! Z.to_nat i = Some c → ctx_ok (Z.to_nat i) c → is_events real →
  subset real (events c) → in_u 64 (m_pendingEventCount h) → fired_events i c real h (fire i real c h).
Proof.
  intros Hi Hc Hok Hre Hs Hu.
  assert (∀ e, is_event e → has real e = true → armed (context e c)) as Harm.
  { intros e He Hh. eapply registered_armed; try done. by apply Hs. }
  destruct (clear_all_ok _ c real Hok Hre Hs) as (_ & _ & Hn).
  assert (∀ event c h, armed (context event c) →
    m_fibers (io_sched (triggered i event c h)) = m_fibers (io_sched h) ++ [task (context event c)]) as Hq.
  { intros event c0 h0 Ha. destruct (triggered_fields i event c0 h0) as (_ & _ & _ & ->).
    apply io_schedule_queue. by apply task_some. }
  split; rewrite ?Hn; unfold fire, clear_all, tasks; destruct (has real READ) eqn:H1, (has real WRITE) eqn:H2; cbn [maybe];
    repeat match goal with
    | |- context [io_epoll (triggered ?i ?e ?c ?h)] => rewrite (proj1 (triggered_fields i e c h))
    | |- context [m_pendingEventCount (triggered ?i ?e ?c ?h)] =>
        rewrite (proj1 (proj2 (triggered_fields i e c h)))
    | |- context [m_fdContexts (triggered ?i ?e ?c ?h)] =>
        rewrite (proj1 (proj2 (proj2 (triggered_fields i e c h))))
    end; try done.
  - by rewrite list_insert_insert_eq.
  - by rewrite list_insert_id.
  - unfold wrapu. rewrite Zminus_mod_idemp_l. f_equal. lia.
  - f_equal. lia.
  - f_equal. lia.
  - rewrite wrapu_small; [lia|]. replace (_ + _) with (m_pendingEventCount h) by lia. done.
  - rewrite !Hq; [by rewrite <- (assoc_L (++))|by apply (Harm READ (or_introl eq_refl))|].
    apply (Harm WRITE (or_intror eq_refl) H2).
  - rewrite Hq; [done|]. by apply (Harm READ (or_introl eq_refl)).
  - rewrite Hq; [done|]. by apply (Harm WRITE (or_intror eq_refl)).
  - by rewrite app_nil_r.
Qed.

Lemma fire_run h i c real :
  0 ≤ i → m_fdContexts h !! Z.to_nat i = Some c → ctx_ok (Z.to_nat i) c → subset real (events c) →
  trigger_if (has real READ) i READ h = Ok tt (maybe (has real READ) (triggered i READ c) h) ∧
  trigger_if (has real WRITE) i WRITE (maybe (has real READ) (triggered i READ c) h) = Ok tt (fire i real c h) ∧
  m_fdContexts (maybe (has real READ) (triggered i READ c) h) !! Z.to_nat i = Some (maybe (has real READ) (clear_event READ) c).
Proof.
  intros Hi Hc Hok Hs.
  assert (∀ e, is_event e → has real e = true → has (events c) e = true ∧ armed (context e c)) as Harm.
  { intros e He Hh. split; [by apply Hs|]. eapply registered_armed; try done. by apply Hs. }
  assert (m_fdContexts (maybe (has real READ) (triggered i READ c) h) !! Z.to_nat i
          = Some (maybe (has real READ) (clear_event READ) c)) as Hl.
  { destruct (has real READ); [|done]. cbn [maybe]. destruct (triggered_fields i READ c h) as (_ & _ & -> & _).
    apply list_lookup_insert_eq. by eapply lookup_lt_Some. }
  split; [|split; [|done]].
  - apply trigger_if_spec; try done; [by left|]. intros Hb. apply Harm; [by left|done].
  - apply trigger_if_spec; try done; [by right|]. intros Hb.
    destruct (Harm WRITE (or_intror eq_refl) Hb) as [H1 H2].
    destruct (has real READ); [|done]. cbn [maybe]. split; [|done].
    pose proof (co_events _ _ Hok). destruct c as [n r w ev]. cbn in *. by evs.
Qed.

Lemma real_events_range ev : is_events (real_events ev).
Proof. unfold real_events, is_events. repeat case_match; auto. Qed.

Lemma pending_range h : io_inv h → in_u 64 (m_pendingEventCount h).
Proof. intros HI. rewrite (io_count _ HI). apply wrapu_range. lia. Qed.

Lemma fired_inv h h' i c real k :
  io_inv h → 0 ≤ i → m_fdContexts h !! Z.to_nat i = Some c → is_events real → subset real (events c) →
  fired_events i c real (set_epoll k h) h' →
  interest k i = (if Z.land (events c) (Z.lnot real) =? 0 then None
                  else Some (Z.lor EPOLLET (Z.land (events c) (Z.lnot real)))) →
  (∀ j, j ≠ i → interest k j = interest (io_epoll h) j) → io_inv h'.
Proof.
  intros HI Hi Hc Hre Hs HF Hk Hko. pose proof (io_ctx _ HI _ _ Hc) as Hok.
  destruct (clear_all_ok _ c real Hok Hre Hs) as (Hok' & Hev & _).
  eapply (io_update h h' i c (clear_all real c)); try done; try apply HF.
  - by rewrite (fe_epoll _ _ _ _ _ HF), Hev.
  - intros j Hj. rewrite (fe_epoll _ _ _ _ _ HF). by apply Hko.
Qed.

(** handle_event on a context with some of the events reported. *)
Lemma handle_event_run h i c ev rt k :
  io_inv h → 0 ≤ i → m_fdContexts h !! Z.to_nat i = Some c →
  Z.land (events c) (real_events ev) ≠ 0 →
  epoll_ctl (rem_op (Z.land (events c) (Z.lnot (real_events ev)))) i
    (Z.lor EPOLLET (Z.land (events c) (Z.lnot (real_events ev)))) (io_epoll h) = (rt, k) →
  handle_event (EvFd i ev) h =
  if rt =? 0
  then (trigger_if (has (real_events ev) READ) i READ;; trigger_if (has (real_events ev) WRITE) i WRITE) (set_epoll k h)
  else Ok tt (set_epoll k h).
Proof.
  intros HI Hi Hc Hov Ek. pose proof (io_ctx _ HI _ _ Hc) as Hok. unfold handle_event.
  rewrite (bind_ok _ _ _ _ _ (ctx_get_spec h i c Hi Hc)). rewrite (proj2 (Z.eqb_neq _ NONE)) by done.
  assert (fd c = i) as -> by (rewrite (co_fd _ _ Hok); lia).
  cbv zeta. rewrite (bind_ok _ _ _ _ _ (ctl_eq h (rem_op _) i _ rt k Ek)). by destruct (rt =? 0).
Qed.

Lemma handle_event_fires h i c ev k :
  io_inv h → 0 ≤ i → i ≠ tick → m_fdContexts h !! Z.to_nat i = Some c →
  Z.land (events c) (real_events ev) ≠ 0 → subset (real_events ev) (events c) →
  epoll_ctl (rem_op (Z.land (events c) (Z.lnot (real_events ev)))) i
    (Z.lor EPOLLET (Z.land (events c) (Z.lnot (real_events ev)))) (io_epoll h) = (0, k) →
  ∃ h', handle_event (EvFd i ev) h = Ok tt h' ∧ io_inv h' ∧
    m_fibers (io_sched h') = m_fibers (io_sched h) ++ tasks (real_events ev) c ∧
    m_fdContexts h' = <[Z.to_nat i := clear_all (real_events ev) c]> (m_fdContexts h).
Proof.
  intros HI Hi Hit Hc Hov Hs Ek. pose proof (io_ctx _ HI _ _ Hc) as Hok. set (real := real_events ev) in *.
  pose proof (real_events_range ev : is_events real) as Hre.
  destruct (fire_run (set_epoll k h) i c real Hi Hc Hok Hs) as (E1 & E2 & _).
  assert (fired_events i c real (set_epoll k h) (fire i real c (set_epoll k h))) as HF
    by (apply fire_spec; try done; by apply (pending_range h)).
  exists (fire i real c (set_epoll k h)).
  rewrite (handle_event_run h i c ev 0 k) by done. cbn [Z.eqb]. fold real.
  rewrite (bind_ok _ _ _ _ _ E1), E2. split; [done|]. split; [|split; apply HF].
  eapply (fired_inv h _ i c real k); try done; [by eapply rem_interest|].
  intros j Hj. by eapply epoll_ctl_other.
Qed.

(** The only ways to report an event that is not registered next to one that
    is. *)
Lemma partial_cases ev real :
  is_events ev → is_events real → Z.land ev real ≠ 0 → (¬ subset real ev) → real = 5 ∧ (ev = 1 ∨ ev = 4).
Proof.
  intros He Hr Hov Hs. evs; try (by destruct Hov); auto;
    exfalso; apply Hs; intros e [->| ->]; done.
Qed.

Lemma subset_dec real ev :
  if has real READ && negb (has ev READ) || has real WRITE && negb (has ev WRITE) then ¬ subset real ev else subset real ev.
Proof.
  destruct (_ || _) eqn:Hb.
  - intros Hs. pose proof (Hs READ (or_introl eq_refl)). pose proof (Hs WRITE (or_intror eq_refl)).
    destruct (has real READ), (has real WRITE), (has ev READ), (has ev WRITE); naive_solver.
  - intros e [->| ->] He; rewrite He in Hb; by destruct (has ev READ), (has ev WRITE), (has real READ), (has real WRITE).
Qed.

Lemma trigger_unregistered h i c event :
  0 ≤ i → m_fdContexts h !! Z.to_nat i = Some c → has (events c) event = false →
  trigger_if true i event h = Stop AssertFail.
Proof.
  intros Hi Hc Hn. unfold trigger_if, triggerEvent.
  rewrite (bind_stop _ _ _ AssertFail); [done|].
  rewrite (bind_ok _ _ _ _ _ (ctx_get_spec h i c Hi Hc)). by rewrite (not_has_eqb _ _ Hn).
Qed.

Lemma handle_event_asserts h i c ev k :
  io_inv h → 0 ≤ i → m_fdContexts h !! Z.to_nat i = Some c →
  Z.land (events c) (real_events ev) ≠ 0 → (¬ subset (real_events ev) (events c)) →
  epoll_ctl (rem_op (Z.land (events c) (Z.lnot (real_events ev)))) i
    (Z.lor EPOLLET (Z.land (events c) (Z.lnot (real_events ev)))) (io_epoll h) = (0, k) →
  handle_event (EvFd i ev) h = Stop AssertFail.
Proof.
  intros HI Hi Hc Hov Hs Ek. pose proof (io_ctx _ HI _ _ Hc) as Hok.
  destruct (partial_cases _ _ (co_events _ _ Hok) (real_events_range ev) Hov Hs) as [Hr Hev].
  rewrite (handle_event_run h i c ev 0 k HI Hi Hc Hov Ek), Hr. change (0 =? 0) with true. cbv iota.
  destruct Hev as [Hev|Hev].
  - assert (has (events c) READ = true) as HR by (by rewrite Hev).
    rewrite (bind_ok _ _ _ _ _ (trigger_if_spec (set_epoll k h) i c READ true Hi Hc (or_introl eq_refl)
      (λ _, conj HR (registered_armed _ c READ Hok (or_introl eq_refl) HR)))). cbn [maybe].
    apply (trigger_unregistered _ i (clear_event READ c)); [done| |by rewrite clear_events, Hev].
    destruct (triggered_fields i READ c (set_epoll k h)) as (_ & _ & -> & _).
    apply list_lookup_insert_eq. by eapply lookup_lt_Some.
  - rewrite (bind_stop _ _ _ AssertFail); [done|].
    apply (trigger_unregistered _ i c); try done. by rewrite Hev.
Qed.

Lemma cancelAll_spec h i c rt k :
  io_inv h → 0 ≤ i → i ≠ tick → m_fdContexts h !! Z.to_nat i = Some c → events c ≠ 0 →
  epoll_ctl EPOLL_CTL_DEL i 0 (io_epoll h) = (rt, k) →
  ∃ h', cancelAll i h = Ok (rt =? 0) h' ∧ io_inv h' ∧
    m_fibers (io_sched h') = m_fibers (io_sched h) ++ (if rt =? 0 then tasks (events c) c else []).
Proof.
  intros HI Hi Hit Hc Hev Ek. pose proof (io_ctx _ HI _ _ Hc) as Hok. unfold cancelAll.
  rewrite (bind_ok _ _ _ _ _ (eq_refl : mget h = Ok h h)).
  rewrite table_guard by (try done; apply lookup_lt_Some in Hc; unfold zlen; lia).
  rewrite (bind_ok _ _ _ _ _ (ctx_get_spec h i c Hi Hc)). rewrite (proj2 (Z.eqb_neq _ 0)) by done.
  rewrite (bind_ok _ _ _ _ _ (ctl_eq h EPOLL_CTL_DEL i 0 rt k Ek)).
  destruct (Z.eqb_spec rt 0) as [->|Hrt]; cbn [negb].
  - assert (subset (events c) (events c)) as Hs by (by intros e _).
    destruct (fire_run (set_epoll k h) i c (events c) Hi Hc Hok Hs) as (E1 & E2 & E3).
    pose proof (co_events _ _ Hok) as Hre.
    assert (fired_events i c (events c) (set_epoll k h) (fire i (events c) c (set_epoll k h))) as HF
      by (apply fire_spec; try done; by apply (pending_range h)).
    destruct (clear_all_ok _ c (events c) Hok Hre Hs) as (_ & Hz & _).
    rewrite Z.land_lnot_diag in Hz.
    exists (fire i (events c) c (set_epoll k h)). fold (has (events c) READ).
    rewrite (bind_ok _ _ _ _ _ E1), (bind_ok _ _ _ _ _ (ctx_get_spec _ i _ Hi E3)).
    replace (negb (Z.land (events (maybe (has (events c) READ) (clear_event READ) c)) WRITE =? 0)) with (has (events c) WRITE)
      by (destruct c as [n r w ev]; cbn in *; by evs).
    rewrite (bind_ok _ _ _ _ _ E2).
    rewrite (bind_ok _ _ _ _ _ (ctx_get_spec _ i (clear_all (events c) c) Hi
      ltac:(rewrite (fe_contexts _ _ _ _ _ HF); apply list_lookup_insert_eq; by eapply lookup_lt_Some))).
    rewrite Hz. split; [done|]. split; [|apply HF].
    eapply (fired_inv h _ i c (events c) k); try done.
    + rewrite Z.land_lnot_diag. by eapply epoll_ctl_del.
    + intros j Hj. by eapply epoll_ctl_other.
  - eexists. split; [done|]. split; [by eapply ctl_failed|]. cbn. by rewrite app_nil_r.
Qed.

(** ** Sequences of operations *)

Inductive iop : Type :=
| IAdd (i event : Z) (cb : option Z) (cur : Z)
| IDel (i event : Z)
| ICancel (i event : Z)
| ICancelAll (i : Z)
| IEvent (i ev : Z)
| ITickled.

(** Operations by a thread of the scheduler, whose fiber executes. *)
Definition iexec (o : iop) : M (IOHost K) unit :=
  match o with
  | IAdd i event cb cur => addEvent i event cb true cur true;; mret tt
  | IDel i event => delEvent i event;; mret tt
  | ICancel i event => cancelEvent i event;; mret tt
  | ICancelAll i => cancelAll i;; mret tt
  | IEvent i ev => handle_event (EvFd i ev)
  | ITickled => handle_event EvTickle
  end.

(** The events registered for [i]. *)
Definition events_of (i : Z) h : Z :=
  match m_fdContexts h !! Z.to_nat i with Some c => events c | None => 0 end.

(** The arguments that are allowed: a descriptor that is not the pipe's, one of
    the two events; and what the kernel reports, with whatever events, is in the
    table. *)
Definition ienabled (o : iop) h : Prop :=
  match o with
  | IAdd i event _ _ => 0 ≤ i < 2 ^ 30 ∧ i ≠ tick ∧ is_event event
  | IDel i event | ICancel i event => 0 ≤ i ∧ i ≠ tick ∧ is_event event
  | ICancelAll i => 0 ≤ i ∧ i ≠ tick
  | IEvent i ev => 0 ≤ i < zlen (m_fdContexts h) ∧ i ≠ tick
  | ITickled => True
  end.

(** The two assertions that can fail: addEvent of an event that is registered, and
    an event that the kernel reports, as it does for EPOLLERR and EPOLLHUP,
    although only the other one is registered. *)
Definition asserts (o : iop) h : bool :=
  match o with
  | IAdd i event _ _ => has (events_of i h) event
  | IEvent i ev =>
    let real := real_events ev in
    let rest := Z.land (events_of i h) (Z.lnot real) in
    negb (Z.land (events_of i h) real =? 0)
    && (has real READ && negb (has (events_of i h) READ) || has real WRITE && negb (has (events_of i h) WRITE))
    && ((epoll_ctl (rem_op rest) i (Z.lor EPOLLET rest) (io_epoll h)).1 =? 0)
  | _ => false
  end.

Lemma unit_ok {S A} (c : M S A) s a s' : c s = Ok a s' → (c;; mret tt) s = Ok tt s'.
Proof. intros E. by rewrite (bind_ok _ _ _ _ _ E). Qed.

Lemma addEvent_ok h i event cb cur :
  io_inv h → ienabled (IAdd i event cb cur) h → has (events_of i h) event = false →
  ∃ rt h', addEvent i event cb true cur true h = Ok rt h' ∧ io_inv h' ∧ io_sched h' = io_sched h ∧
    (rt = 0 → ∃ c, m_fdContexts h' !! Z.to_nat i = Some c ∧ has (events c) event = true ∧
       context event c = waiter cb cur ∧ (∀ e, is_event e → e ≠ event → has (events c) e = has (events_of i h) e)).
Proof.
  intros HI (Hi & Hit & He) Hn.
  assert (∃ h1, (fits ← addEvent_fits i; if (fits : bool) then mret tt else addEvent_grow i) h = Ok tt h1 ∧
    io_inv h1 ∧ io_sched h1 = io_sched h ∧ i < zlen (m_fdContexts h1) ∧ events_of i h1 = events_of i h)
    as (h1 & E & HI1 & Hs1 & Hlt & Hev).
  { unfold addEvent_fits. mred. rewrite size_i32 by done. destruct (Z.ltb_spec i (zlen (m_fdContexts h))) as [|Hge].
    - exists h. done.
    - pose proof (io_size _ HI).
      destruct (grow_spec h (3 * i / 2) HI) as (h1 & E & HI1 & Hz & _ & Hs & _ & Hl).
      { assert (i < 3 * i / 2) by (apply Z.lt_le_trans with (i + 1); [lia|]; apply Z.div_le_lower_bound; lia).
        assert (3 * i / 2 < 2 ^ 31) by (apply Z.div_lt_upper_bound; lia). lia. }
      exists h1. split; [exact E|]. split; [done|]. split; [done|]. split.
      { rewrite Hz. apply Z.lt_le_trans with (i + 1); [lia|]. apply Z.div_le_lower_bound; lia. }
      unfold events_of. assert (m_fdContexts h !! Z.to_nat i = None) as E0
        by (apply lookup_ge_None; unfold zlen in *; lia).
      rewrite E0. destruct (m_fdContexts h1 !! Z.to_nat i) as [c|] eqn:E1; [|done].
      destruct (Hl _ _ E1); [congruence|done]. }
  destruct (in_table h1 i HI1 (proj1 Hi) Hlt) as (c & Hc & Hok).
  assert (events_of i h1 = events c) as Hevc by (unfold events_of; by rewrite Hc).
  destruct (epoll_ctl (reg_op c) i (Z.lor (Z.lor EPOLLET (events c)) event) (io_epoll h1)) as [rt k] eqn:Ek.
  destruct (register_spec h1 i c event cb cur true rt k HI1 (proj1 Hi) Hit Hc He) as (h' & E' & HI' & Hs' & Hok' & _);
    [by rewrite <- Hevc, Hev|done|done|].
  exists (if rt =? 0 then 0 else -1), h'. split; [|split; [done|split; [congruence|]]].
  { unfold addEvent in *. revert E. unfold addEvent_fits. mred. destruct (i <? _); [|intros ->; done].
    intros [= <-]. done. }
  destruct (Z.eqb_spec rt 0) as [->|]; [|done]. intros _. destruct (Hok' eq_refl) as [-> _].
  exists (arm event (waiter cb cur) c). rewrite list_lookup_insert_eq by (by eapply lookup_lt_Some).
  destruct (arm_ok _ c event (waiter cb cur) Hok He) as (_ & _ & Hae); [by rewrite <- Hevc, Hev|apply waiter_armed|].
  rewrite Hae, <- Hev, Hevc. pose proof (co_events _ _ Hok) as Hre. split; [done|].
  destruct c as [n r w ev0]. cbn in Hre |- *. destruct He as [->| ->]; (split; [by evs|]); (split; [done|]);
    intros e [->| ->] Hne; try done; by evs.
Qed.

(** del and cancel outside the table or without the event do nothing. *)
Lemma guarded_out {A} h i (k : M (IOHost K) A) (d : A) :
  io_inv h → zlen (m_fdContexts h) ≤ i →
  (h0 ← mget; if i32 (zlen (m_fdContexts h0)) <=? i then mret d else k) h = Ok d h.
Proof. intros HI Hi. mred. rewrite size_i32 by done. by rewrite (proj2 (Z.leb_le _ _)). Qed.

Lemma guarded_in {A} h i c (k : FdContext → M (IOHost K) A) (d : A) :
  io_inv h → 0 ≤ i → m_fdContexts h !! Z.to_nat i = Some c →
  (h0 ← mget; if i32 (zlen (m_fdContexts h0)) <=? i then mret d else c ← ctx_get i; k c) h = k c h.
Proof.
  intros HI Hi Hc. rewrite (bind_ok _ _ _ _ _ (eq_refl : mget h = Ok h h)).
  rewrite table_guard by (try done; apply lookup_lt_Some in Hc; unfold zlen; lia).
  by rewrite (bind_ok _ _ _ _ _ (ctx_get_spec h i c Hi Hc)).
Qed.

Lemma addEvent_twice h i event cb cur :
  io_inv h → ienabled (IAdd i event cb cur) h → has (events_of i h) event = true →
  iexec (IAdd i event cb cur) h = Stop AssertFail.
Proof.
  intros HI (Hi & Hit & He) Hn. unfold events_of in Hn. destruct (m_fdContexts h !! Z.to_nat i) as [c|] eqn:Hc; [|done].
  cbn [iexec]. apply bind_stop. unfold addEvent, addEvent_fits. mred. rewrite size_i32 by done.
  assert (i < zlen (m_fdContexts h)) by (apply lookup_lt_Some in Hc; unfold zlen; lia). rewrite (proj2 (Z.ltb_lt _ _)) by done.
  fold (addEvent_register i event cb true cur true). unfold addEvent_register. rewrite (bind_ok _ _ _ _ _ (ctx_get_spec h i c ltac:(lia) Hc)).
  unfold has in Hn. by destruct (Z.land (events c) event =? 0).
Qed.

Lemma iexec_safe o h :
  io_inv h → ienabled o h →
  if asserts o h then iexec o h = Stop AssertFail else ∃ h', iexec o h = Ok tt h' ∧ io_inv h'.
Proof.
  intros HI Hen. destruct o as [i event cb cur|i event|i event|i|i ev|]; cbn [iexec asserts].
  - destruct (has (events_of i h) event) eqn:Hn; [by apply addEvent_twice|].
    destruct (addEvent_ok h i event cb cur HI Hen Hn) as (rt & h' & E & HI' & _).
    exists h'. split; [by eapply unit_ok|done].
  - destruct Hen as (Hi & Hit & He). destruct (Z.lt_ge_cases i (zlen (m_fdContexts h))) as [Hlt|Hge];
      [|exists h; split; [by eapply unit_ok, guarded_out|done]].
    destruct (in_table h i HI Hi Hlt) as (c & Hc & Hok). destruct (has (events c) event) eqn:Hh.
    + destruct (epoll_ctl (rem_op (Z.land (events c) (Z.lnot event))) i
        (Z.lor EPOLLET (Z.land (events c) (Z.lnot event))) (io_epoll h)) as [rt k] eqn:Ek.
      destruct (delEvent_spec h i c event rt k) as (h' & E & HI' & _); try done. exists h'. split; [by eapply unit_ok|done].
    + exists h. split; [|done]. apply (unit_ok _ _ false). unfold delEvent. rewrite (guarded_in h i c) by done.
      by rewrite (not_has_eqb _ _ Hh).
  - destruct Hen as (Hi & Hit & He). destruct (Z.lt_ge_cases i (zlen (m_fdContexts h))) as [Hlt|Hge];
      [|exists h; split; [by eapply unit_ok, guarded_out|done]].
    destruct (in_table h i HI Hi Hlt) as (c & Hc & Hok). destruct (has (events c) event) eqn:Hh.
    + destruct (epoll_ctl (rem_op (Z.land (events c) (Z.lnot event))) i
        (Z.lor EPOLLET (Z.land (events c) (Z.lnot event))) (io_epoll h)) as [rt k] eqn:Ek.
      destruct (cancelEvent_spec h i c event rt k) as (h' & E & HI' & _); try done. exists h'. split; [by eapply unit_ok|done].
    + exists h. split; [|done]. apply (unit_ok _ _ false). unfold cancelEvent. rewrite (guarded_in h i c) by done.
      by rewrite (not_has_eqb _ _ Hh).
  - destruct Hen as (Hi & Hit). destruct (Z.lt_ge_cases i (zlen (m_fdContexts h))) as [Hlt|Hge];
      [|exists h; split; [by eapply unit_ok, guarded_out|done]].
    destruct (in_table h i HI Hi Hlt) as (c & Hc & Hok). destruct (decide (events c = 0)) as [Hz|Hz].
    + exists h. split; [|done]. apply (unit_ok _ _ false). unfold cancelAll. rewrite (guarded_in h i c) by done.
      by rewrite Hz.
    + destruct (epoll_ctl EPOLL_CTL_DEL i 0 (io_epoll h)) as [rt k] eqn:Ek.
      destruct (cancelAll_spec h i c rt k) as (h' & E & HI' & _); try done. exists h'. split; [by eapply unit_ok|done].
  - destruct Hen as (Hi & Hit). destruct (in_table h i HI) as (c & Hc & Hok); [lia..|].
    assert (events_of i h = events c) as -> by (unfold events_of; by rewrite Hc).
    destruct (Z.eqb_spec (Z.land (events c) (real_events ev)) 0) as [Hz|Hov]; cbn [negb andb].
    + exists h. split; [|done]. unfold handle_event. rewrite (bind_ok _ _ _ _ _ (ctx_get_spec h i c ltac:(lia) Hc)).
      by rewrite Hz.
    + destruct (epoll_ctl (rem_op (Z.land (events c) (Z.lnot (real_events ev)))) i
        (Z.lor EPOLLET (Z.land (events c) (Z.lnot (real_events ev)))) (io_epoll h)) as [rt k] eqn:Ek. cbn [fst].
      destruct (Z.eqb_spec rt 0) as [->|Hrt].
      * pose proof (subset_dec (real_events ev) (events c)) as Hs. rewrite andb_true_r. destruct (_ || _).
        -- by eapply handle_event_asserts; [|lia|..].
        -- destruct (handle_event_fires h i c ev k) as (h' & E & HI' & _); [done|lia|done..|]. by exists h'.
      * rewrite andb_false_r. exists (set_epoll k h). rewrite (handle_event_run h i c ev rt k) by (done || lia).
        rewrite (proj2 (Z.eqb_neq _ _)) by done. split; [done|]. apply (ctl_failed h _ i _ rt k HI (proj1 Hi) Hit Ek Hrt).
  - exists (set_pipe 0 h). split; [done|]. by apply (io_inv_frame h).
Qed.

(** cancelEvent and cancelAll of a descriptor return; of a negative one, such as
    the -1 of a closed Socket, they index m_fdContexts out of its bounds. *)
Lemma cancel_returns h i event :
  io_inv h → 0 ≤ i → i ≠ tick → is_event event →
  (∃ b h', cancelEvent i event h = Ok b h' ∧ io_inv h') ∧ (∃ b h', cancelAll i h = Ok b h' ∧ io_inv h').
Proof.
  intros HI Hi Ht He. split.
  - destruct (iexec_safe (ICancel i event) h HI) as (h' & E & HI'); [done|]. apply bind_inv_ok in E as (b & h1 & E & [= <-]). by exists b, h1.
  - destruct (iexec_safe (ICancelAll i) h HI) as (h' & E & HI'); [done|]. apply bind_inv_ok in E as (b & h1 & E & [= <-]). by exists b, h1.
Qed.

Lemma cancel_negative h i event :
  io_inv h → i < 0 → cancelEvent i event h = Stop OutOfBounds ∧ cancelAll i h = Stop OutOfBounds.
Proof.
  intros HI Hi. pose proof (io_size _ HI). unfold cancelEvent, cancelAll, ctx_get. mred. rewrite size_i32 by done.
  rewrite (proj2 (Z.leb_gt _ _)) by lia. by rewrite (proj2 (Z.ltb_lt _ _)) by lia.
Qed.

Inductive isteps h : list iop → IOHost K → Prop :=
| isteps_nil : isteps h [] h
| isteps_snoc os h1 o h2 :
    isteps h os h1 → ienabled o h1 → iexec o h1 = Ok tt h2 → isteps h (os ++ [o]) h2.

Lemma isteps_inv h os h' : io_inv h → isteps h os h' → io_inv h'.
Proof.
  intros HI. induction 1 as [|os h1 o h2 _ IH Hen E]; [done|].
  pose proof (iexec_safe o h1 IH Hen) as H. destruct (asserts o h1); [congruence|]. destruct H as (h3 & E' & HI'). congruence.
Qed.

(** The object before the constructor's body. *)
Definition blank (s : Sched) (k : K) : IOHost K := mkHost s k 0 [] 0.

Lemma IOManager_new_inv s k h :
  (∀ i, interest k i = None) → IOManager_new tick (blank s k) = Ok tt h → io_inv h.
Proof.
  intros Hk. unfold IOManager_new.
  destruct (epoll_ctl EPOLL_CTL_ADD tick (Z.lor EPOLLIN EPOLLET) k) as [rt k'] eqn:Ek.
  rewrite (bind_ok _ _ _ _ _ (ctl_eq (blank s k) _ _ _ rt k' Ek)).
  destruct (rt =? 0); [|done]. intros [= <-]. split; cbn.
  - intros i c Hc. assert (c = mkFd (Z.of_nat (0 + i)) EC_empty EC_empty NONE) as ->
      by (by eapply (new_contexts_lookup 0 32)).
    split; cbn; try done. by left.
  - done.
  - done.
  - intros i Hi Hit. rewrite (epoll_ctl_other _ _ _ _ _ _ i Ek) by done. rewrite Hk. unfold watched. cbn.
    destruct (_ !! Z.to_nat i) as [c|] eqn:Hc; [|done].
    by rewrite (new_contexts_lookup 0 32 _ _ Hc).
Qed.

(** A table entry with an event shows in the count. *)
Lemma total_nonneg l : 0 ≤ total l ≤ 2 * zlen l.
Proof.
  induction l as [|c l IH]; [done|]. change (total (c :: l)) with (nev c + total l). rewrite zlen_cons.
  pose proof (nev_range c). lia.
Qed.

Lemma total_zero l i c : total l = 0 → l !! i = Some c → nev c = 0.
Proof.
  revert i. induction l as [|x l IH]; intros [|i] Hz Hc; try done;
    change (total (x :: l)) with (nev x + total l) in Hz; pose proof (nev_range x); pose proof (total_nonneg l).
  - injection Hc as ->. lia.
  - apply (IH i); [lia|done].
Qed.

End Inv.

(** ** Properties *)

Section Properties.
Context {K : Type} `{EP : Epoll K} `{EL : !EpollLaws K} (tick : Z).
Implicit Types h : IOHost K.


(** When addEvent has succeeded and the kernel then reports the event,
    exactly the registered function, or else the calling fiber, is scheduled
    once, at the end of the queue, and the descriptor has the events it had
    before. *)
Theorem addEvent_event_roundtrip h i event cb cur h1 k :
  io_inv tick h → ienabled tick (IAdd i event cb cur) h → has (events_of i h) event = false →
  addEvent i event cb true cur true h = Ok 0 h1 →
  epoll_ctl (rem_op (events_of i h)) i (Z.lor EPOLLET (events_of i h)) (io_epoll h1) = (0, k) →
  ∃ h2, handle_event (EvFd i event) h1 = Ok tt h2 ∧ io_inv tick h2 ∧
    m_fibers (io_sched h2) = m_fibers (io_sched h) ++ [task (waiter cb cur)] ∧
    events_of i h2 = events_of i h.
Proof.
  intros HI Hen Hn E Ek. destruct (addEvent_ok tick h i event cb cur HI Hen Hn) as (rt & h1' & E' & HI1 & Hs & Hc).
  rewrite E in E'. injection E' as <- <-. destruct (Hc eq_refl) as (c & Hl & Hh & Hctx & Hoth).
  destruct Hen as (Hi & Hit & He). pose proof (io_ctx _ _ HI1 _ _ Hl) as Hok.
  assert (real_events event = event) as Hre by (by destruct He as [->| ->]).
  assert (Z.land (events c) (Z.lnot event) = events_of i h) as Hleft.
  { assert (is_events (events_of i h)) as Hev0.
    { unfold events_of. destruct (m_fdContexts h !! Z.to_nat i) as [c0|] eqn:E0; [|by left].
      by apply (io_ctx _ _ HI _ _ E0). }
    pose proof (co_events _ _ Hok) as Hev. pose proof (Hoth READ (or_introl eq_refl)) as H1.
    pose proof (Hoth WRITE (or_intror eq_refl)) as H2. clear Hoth Hc E Ek. revert Hev0 Hn H1 H2 Hh Hev.
    generalize (events_of i h) (events c). intros a b Ha. destruct He as [->| ->]; intros Hn H1 H2 Hh Hb.
    - specialize (H2 ltac:(done)). by evs.
    - specialize (H1 ltac:(done)). by evs. }
  destruct (handle_event_fires tick h1 i c event k HI1 (proj1 Hi) Hit Hl) as (h2 & E2 & HI2 & Hq & Hcs).
  - rewrite Hre. unfold has in Hh. by destruct (Z.eqb_spec (Z.land (events c) event) 0).
  - rewrite Hre. intros e [->| ->] Hb; destruct He as [->| ->]; done.
  - by rewrite Hre, Hleft.
  - exists h2. split; [done|]. split; [done|]. rewrite Hre in Hq, Hcs. split.
    + rewrite Hq, Hs. f_equal. unfold tasks, context in *.
      destruct He as [->| ->]; cbn in Hctx |- *; by rewrite Hctx.
    + rewrite <- Hleft. unfold events_of at 1. rewrite Hcs, list_lookup_insert_eq by (by eapply lookup_lt_Some).
      unfold clear_all. destruct He as [->| ->]; apply clear_events.
Qed.

(** What idle does with one reported event, in every case: nothing when
    none of the reported events is registered or epoll_ctl fails; the tasks of
    the reported events, READ first, when all of them are registered; and
    otherwise, for instance on EPOLLERR or EPOLLHUP of a descriptor with one
    registered event, the assertion of triggerEvent fails. *)
Theorem handle_event_outcome h i c ev rt k :
  io_inv tick h → 0 ≤ i → i ≠ tick → m_fdContexts h !! Z.to_nat i = Some c →
  let real := real_events ev in
  let rest := Z.land (events c) (Z.lnot real) in
  epoll_ctl (rem_op rest) i (Z.lor EPOLLET rest) (io_epoll h) = (rt, k) →
  (Z.land (events c) real = 0 ∧ handle_event (EvFd i ev) h = Ok tt h) ∨
  (rt ≠ 0 ∧ handle_event (EvFd i ev) h = Ok tt (set_epoll k h)) ∨
  (rt = 0 ∧ (∀ e, e = READ ∨ e = WRITE → Z.land real e ≠ 0 → Z.land (events c) e ≠ 0) ∧
     ∃ h', handle_event (EvFd i ev) h = Ok tt h' ∧ io_inv tick h' ∧ events_of i h' = rest ∧
       m_fibers (io_sched h') = m_fibers (io_sched h) ++ tasks real c) ∨
  (rt = 0 ∧ (∃ e, (e = READ ∨ e = WRITE) ∧ Z.land real e ≠ 0 ∧ Z.land (events c) e = 0) ∧
     handle_event (EvFd i ev) h = Stop AssertFail).
Proof.
  intros HI Hi Hit Hc real rest Ek. pose proof (io_ctx _ _ HI _ _ Hc) as Hok.
  destruct (decide (Z.land (events c) real = 0)) as [Hz|Hov].
  { left. split; [done|]. unfold handle_event. rewrite (bind_ok _ _ _ _ _ (ctx_get_spec h i c Hi Hc)).
    fold real. by rewrite Hz. }
  right. destruct (decide (rt = 0)) as [->|Hrt].
  2: { left. split; [done|]. rewrite (handle_event_run tick h i c ev rt k) by done.
       by rewrite (proj2 (Z.eqb_neq _ _)). }
  right. pose proof (real_events_range ev) as Hre. fold real in Hre. pose proof (co_events _ _ Hok) as Hev.
  assert (Decision (subset real (events c))) as [Hs|Hs]
    by (pose proof (subset_dec real (events c)) as H; destruct (_ || _); [by right|by left]).
  - left. split; [done|]. split.
    { intros e He Hn Hz. specialize (Hs e He). unfold has in Hs. rewrite Hz in Hs.
      destruct (Z.eqb_spec (Z.land real e) 0); [done|]. by specialize (Hs eq_refl). }
    destruct (handle_event_fires tick h i c ev k) as (h' & E & HI' & Hq & Hcs); try done.
    exists h'. split; [done|]. split; [done|]. split; [|done]. unfold events_of.
    rewrite Hcs, list_lookup_insert_eq by (by eapply lookup_lt_Some).
    by apply (clear_all_ok _ c real Hok Hre Hs).
  - right. split; [done|]. split; [|by eapply handle_event_asserts].
    destruct (partial_cases _ _ Hev Hre Hov Hs) as [-> [-> | ->]];
      [exists WRITE|exists READ]; (split; [auto|done]).
Qed.

(** When IOManager::stopping holds, no timer is armed, no descriptor has a
    registered event, and the task queue is empty. *)
Theorem io_stopping_drained now (m : TimerManager (IOHost K)) t m' :
  tm_inv m → io_inv tick (host m) → 0 < now →
  (∀ a, a ∈ m_timers m → in_u 64 (next_of (timers_heap m) a)) →
  io_stopping now m = Ok (t, true) m' →
  m_timers m = [] ∧ m_fibers (io_sched (host m)) = [] ∧
  ∀ i c, m_fdContexts (host m) !! i = Some c → events c = 0.
Proof.
  intros HT HI Hnow Hu. unfold io_stopping. rewrite (bind_ok _ _ _ _ _ (getNextTimer_spec now m HT)).
  mred. intros E. injection E as _ E _. apply andb_true_iff in E as [[Et%Z.eqb_eq Ep%Z.eqb_eq]%andb_true_iff Es].
  cbn in Ep, Es. split; [|split].
  - destruct (m_timers m) as [|a l]; [done|]. exfalso. specialize (Hu a ltac:(left)). unfold in_u in Hu.
    destruct (Z.ltb_spec (next_of (timers_heap m) a) now); [done|].
    rewrite wrapu_small in Et by (unfold in_u; lia). lia.
  - unfold stopping in Es. rewrite !andb_true_iff, bool_decide_eq_true in Es. by destruct Es as [[_ ?] _].
  - intros i c Hc. assert (total (m_fdContexts (host m)) = 0) as Hz.
    { pose proof (io_count _ _ HI) as Hcnt. rewrite Ep in Hcnt. pose proof (total_nonneg (m_fdContexts (host m))).
      pose proof (io_size _ _ HI). rewrite wrapu_small in Hcnt; [done|]. unfold in_u. lia. }
    pose proof (total_zero _ _ _ Hz Hc) as Hn. pose proof (co_events _ _ (io_ctx _ _ HI _ _ Hc)) as Hev.
    destruct c as [n r w ev]. unfold nev in Hn. cbn in *. by evs.
Qed.

End Properties.

Lemma wait_timeout_small n :
  0 ≤ n < 2 ^ 31 ∨ n = 2 ^ 64 - 1 → 0 ≤ wait_timeout n ≤ 3000 ∧ wait_timeout n ≤ n.
Proof.
  unfold wait_timeout. intros [Hn|Hn].
  - assert (i32 n = n) as Ei by (apply wraps_small; [lia|]; unfold in_s; lia).
    rewrite (proj2 (Z.eqb_neq n _)) by lia. cbn [negb]. rewrite Ei.
    destruct (Z.ltb_spec 3000 n); [change (i32 3000) with 3000|rewrite Ei]; lia.
  - subst n. split; [split|]; vm_compute; congruence.
Qed.

Section IdleTime.
Context {K : Type} `{EP : Epoll K}.


End IdleTime.

(** For a deadline 2^31 milliseconds away the timeout is negative, which
    epoll_wait takes as no timeout at all. *)
Lemma wait_timeout_overflow : wait_timeout (2 ^ 31) < 0.
Proof. vm_compute. reflexivity. Qed.

(** ** A kernel for concrete runs *)

#[global] Instance demo_epoll : Epoll (gmap Z Z) := {
  epoll_ctl op fd ev k :=
    match op, k !! fd with
    | EPOLL_CTL_ADD, None | EPOLL_CTL_MOD, Some _ => (0, <[fd := ev]> k)
    | EPOLL_CTL_DEL, Some _ => (0, delete fd k)
    | _, _ => (-1, k)
    end;
  interest k fd := k !! fd
}.

#[global] Instance demo_epoll_laws : EpollLaws (gmap Z Z).
Proof.
  split; cbn.
  - intros op fd ev k k' Hop. destruct op, (k !! fd); try done; intros [= <-]; by rewrite lookup_insert_eq.
  - intros fd ev k k'. destruct (k !! fd); [|done]. intros [= <-]. by rewrite lookup_delete_eq.
  - intros op fd ev k rt k' fd' E Hne. destruct op, (k !! fd); injection E as _ <-;
      by rewrite ?lookup_insert_ne, ?lookup_delete_ne by done.
  - intros op fd ev k rt k' E Hrt. destruct op, (k !! fd) eqn:Hl; simplify_eq; congruence.
Qed.

Definition demo_s : Sched := mkSched [] None 1 [] 1 0 1 true true (-1) 0.
(** Descriptor 9 has a reader, the pipe is 3. *)
Definition demo_new_io : IOHost (gmap Z Z) :=
  match IOManager_new 3 (blank demo_s ∅) with Ok _ h => h | _ => blank demo_s ∅ end.
Definition demo_io : IOHost (gmap Z Z) :=
  match addEvent 9 READ (Some 70) true 0 true demo_new_io with Ok _ h => h | _ => demo_new_io end.

Lemma demo_no_interest i : interest (∅ : gmap Z Z) i = None.
Proof. apply lookup_empty. Qed.

Lemma demo_new_eq : IOManager_new 3 (blank demo_s (∅ : gmap Z Z)) = Ok tt demo_new_io.
Proof. vm_compute. reflexivity. Qed.

Lemma demo_add_eq : addEvent 9 READ (Some 70) true 0 true demo_new_io = Ok 0 demo_io.
Proof. vm_compute. reflexivity. Qed.

Lemma demo_enabled : ienabled 3 (IAdd 9 READ (Some 70) 0) demo_new_io.
Proof. split; [lia|]. split; [lia|]. by left. Qed.

Lemma demo_isteps : isteps 3 demo_new_io [IAdd 9 READ (Some 70) 0] demo_io.
Proof.
  apply (isteps_snoc 3 demo_new_io [] demo_new_io); [constructor|exact demo_enabled|].
  by apply (unit_ok _ _ 0), demo_add_eq.
Qed.

Lemma demo_new_inv : io_inv 3 demo_new_io.
Proof. exact (IOManager_new_inv 3 demo_s ∅ demo_new_io demo_no_interest demo_new_eq). Qed.

Lemma demo_io_inv : io_inv 3 demo_io.
Proof. exact (isteps_inv 3 demo_new_io _ demo_io demo_new_inv demo_isteps). Qed.


Lemma addEvent_event_roundtrip_witness :
  ∃ h2, handle_event (EvFd 9 READ) demo_io = Ok tt h2 ∧
    m_fibers (io_sched h2) = [FT_cb (Some 70) (-1)] ∧ events_of 9 h2 = 0.
Proof.
  destruct (addEvent_event_roundtrip 3 demo_new_io 9 READ (Some 70) 0 demo_io
    (match epoll_ctl EPOLL_CTL_DEL 9 EPOLLET (io_epoll demo_io) with (_, k) => k end)
    demo_new_inv demo_enabled eq_refl demo_add_eq) as (h2 & E & _ & Hq & He); [vm_compute; reflexivity|].
  exists h2. split; [exact E|]. split; [rewrite Hq|rewrite He]; vm_compute; reflexivity.
Defined.

(** The descriptor has only a reader and the kernel reports EPOLLERR. *)
Lemma handle_event_outcome_witness :
  handle_event (EvFd 9 EPOLLERR) demo_io = Stop AssertFail.
Proof.
  destruct (handle_event_outcome 3 demo_io 9
    (mkFd 9 (mkEC true None (Some 70)) EC_empty READ) EPOLLERR 0
    (match epoll_ctl EPOLL_CTL_DEL 9 EPOLLET (io_epoll demo_io) with (_, k) => k end) demo_io_inv)
    as [[E _]|[[E _]|[(_ & E & _)|(_ & _ & E)]]]; [lia|lia|vm_compute; reflexivity|vm_compute; reflexivity| | | |exact E].
  - by vm_compute in E.
  - done.
  - exfalso. apply (E WRITE); [by right|vm_compute; done|vm_compute; reflexivity].
Defined.

Definition demo_iom : TimerManager (IOHost (gmap Z Z)) := TimerManager_new 1000 demo_new_io.

Lemma io_stopping_drained_witness :
  ∃ t m', io_stopping 1000 demo_iom = Ok (t, true) m' ∧ m_timers demo_iom = [].
Proof.
  eexists _, _. split; [vm_compute; reflexivity|].
  eapply (io_stopping_drained 3 1000 demo_iom _ _ (TimerManager_new_inv 1000 demo_new_io) demo_new_inv);
    [lia|intros a Ha; by apply elem_of_nil in Ha|vm_compute; reflexivity].
Defined.

(** The same with a task in the queue, so that idle waits, and timers that are due
    in 50 and in 900 milliseconds. *)
Definition demo_timers : list top := [TAdd 1000 30 900 None false; TAdd 1000 10 50 None false].
Definition demo_busy : TimerManager (IOHost (gmap Z Z)) :=
  match (texec (TAdd 1000 30 900 None false);; texec (TAdd 1000 10 50 None false))
    (TimerManager_new 1000 (io_schedule (FT_cb (Some 1) (-1)) demo_new_io)) with
  | Ok _ m => m | _ => TimerManager_new 1000 demo_new_io
  end.
Lemma demo_busy_inv : tm_inv demo_busy.
Proof.
  apply (steps_inv (TimerManager_new 1000 (io_schedule (FT_cb (Some 1) (-1)) demo_new_io)) demo_timers); [apply TimerManager_new_inv|].
  eapply (steps_snoc _ [TAdd 1000 30 900 None false]); [eapply (steps_snoc _ [])|..]; [constructor|..]; vm_compute; reflexivity.
Qed.


(** Two threads that both find the table too small: the second one, with the
    smaller descriptor, cuts off the entry the first one has just registered. *)
Lemma addEvent_race_loses_event :
  ∃ h1 h2,
    addEvent_fits 40 demo_new_io = Ok false demo_new_io ∧
    addEvent 100 READ (Some 70) true 0 true demo_new_io = Ok 0 h1 ∧ events_of 100 h1 = READ ∧
    (addEvent_grow 40;; addEvent_register 40 READ (Some 71) true 0 true) h1 = Ok 0 h2 ∧
    m_fdContexts h2 !! 100%nat = None ∧ m_pendingEventCount h2 = 2.
Proof.
  eexists _, _. split; [vm_compute; reflexivity|]. split; [vm_compute; reflexivity|].
  split; [vm_compute; reflexivity|]. split; [vm_compute; reflexivity|]. split; vm_compute; reflexivity.
Qed.
