(* ===== verification/Hook.v ===== *)
(** FdManager and the hooked system calls (skt/fd_manager/fd_manager.h,
    skt/fd_manager/fd_manager.cpp, skt/hook/hook.cpp).

    The kernel's view of descriptors is the interface [Kernel]: what fstat
    says, the status flags, and the calls that change them, with what the
    manual pages document as [KernelLaws]. The hooked input and output calls
    are modelled against what the environment answers: the results of the
    original call in turn, and how each wait ends. *)

From stdpp Require Import base list.
From Stdlib Require Import Lia.
From S2P Require Import Prelude IOManager.

(** ** The kernel *)

(** O_NONBLOCK is bit 11 of the status flags. *)
Definition NB : Z := 11.
Definition O_NONBLOCK : Z := 2 ^ NB.

Class Kernel (K : Type) : Type := {
  fstat_socket : K → Z → option bool;      (* None: fstat fails *)
  getfl : K → Z → Z;                       (* fcntl_f(fd, F_GETFL) *)
  setfl : K → Z → Z → Z * K;               (* fcntl_f(fd, F_SETFL, flags) *)
  fionbio : K → Z → bool → Z * K;          (* ioctl_f(fd, FIONBIO, &on) *)
  open_socket : K → Z * K;                 (* socket_f *)
  close_fd : K → Z → Z * K                 (* close_f *)
}.

Class KernelLaws (K : Type) `{Kernel K} : Prop := {
  setfl_sets k fd f k' : setfl k fd f = (0, k') → Z.testbit (getfl k' fd) NB = Z.testbit f NB;
  setfl_socket k fd f : fstat_socket k fd = Some true → (setfl k fd f).1 = 0;
  setfl_fails k fd f rt k' : setfl k fd f = (rt, k') → rt ≠ 0 → getfl k' fd = getfl k fd;
  setfl_other k fd f rt k' fd' : setfl k fd f = (rt, k') → fd' ≠ fd → getfl k' fd' = getfl k fd';
  open_other k fd k' fd' : open_socket k = (fd, k') → fd' ≠ fd → getfl k' fd' = getfl k fd';
  close_other k fd rt k' fd' : close_fd k fd = (rt, k') → fd' ≠ fd → getfl k' fd' = getfl k fd'
}.

(** ** FdCtx and FdManager *)

Record FdCtx : Type := mkCtx {
  m_isInit : bool;
  m_isSocket : bool;
  m_sysNonblock : bool;
  m_userNonblock : bool;
  m_isClosed : bool;
  m_fd : Z;
  m_recvTimeout : Z;
  m_sendTimeout : Z
}.

Definition with_user (b : bool) (c : FdCtx) : FdCtx :=
  mkCtx (m_isInit c) (m_isSocket c) (m_sysNonblock c) b (m_isClosed c) (m_fd c)
    (m_recvTimeout c) (m_sendTimeout c).

Definition SO_RCVTIMEO : Z := 20.
Definition SO_SNDTIMEO : Z := 21.

(** FdCtx::setTimeout, FdCtx::getTimeout *)
Definition setTimeout (type v : Z) (c : FdCtx) : FdCtx :=
  if type =? SO_RCVTIMEO
  then mkCtx (m_isInit c) (m_isSocket c) (m_sysNonblock c) (m_userNonblock c) (m_isClosed c) (m_fd c) v (m_sendTimeout c)
  else mkCtx (m_isInit c) (m_isSocket c) (m_sysNonblock c) (m_userNonblock c) (m_isClosed c) (m_fd c) (m_recvTimeout c) v.
Definition getTimeout (type : Z) (c : FdCtx) : Z :=
  if type =? SO_RCVTIMEO then m_recvTimeout c else m_sendTimeout c.

Definition minus1 : Z := 2 ^ 64 - 1.     (* (uint64_t)-1 *)

Record Sys (K : Type) : Type := mkSys {
  kern : K;
  m_datas : list (option FdCtx);
  t_hook_enable : bool
}.
Arguments mkSys {K} _ _ _.
Arguments kern {K} _.
Arguments m_datas {K} _.
Arguments t_hook_enable {K} _.

Section Ops.
Context {K : Type} `{KN : Kernel K}.
Abbreviation sys := (M (Sys K)).

Definition set_kern (k : K) (s : Sys K) : Sys K := mkSys k (m_datas s) (t_hook_enable s).
Definition set_datas (d : list (option FdCtx)) (s : Sys K) : Sys K := mkSys (kern s) d (t_hook_enable s).
Definition set_hook_enable (flag : bool) : sys unit := mmodify (λ s, mkSys (kern s) (m_datas s) flag).

(** The original calls. *)
Definition fcntl_getfl (fd : Z) : sys Z := s ← mget; mret (getfl (kern s) fd).
Definition fcntl_setfl (fd flags : Z) : sys Z :=
  s ← mget; let '(rt, k) := setfl (kern s) fd flags in mput (set_kern k s);; mret rt.

(** FdCtx::FdCtx and FdCtx::init *)
Definition FdCtx_new (fd : Z) : sys FdCtx :=
  s ← mget;
  let '(is_init, is_socket) :=
    match fstat_socket (kern s) fd with None => (false, false) | Some b => (true, b) end in
  (if (is_socket : bool)
   then
     flags ← fcntl_getfl fd;
     if Z.land flags O_NONBLOCK =? 0 then fcntl_setfl fd (Z.lor flags O_NONBLOCK);; mret tt else mret tt
   else mret tt);;
  mret (mkCtx is_init is_socket is_socket false false fd minus1 minus1).

(** FdManager::FdManager *)
Definition FdManager_new (k : K) (hook : bool) : Sys K := mkSys k (replicate 64 None) hook.

(** m_datas.resize(n) *)
Definition resize (n : Z) (l : list (option FdCtx)) : list (option FdCtx) :=
  take (Z.to_nat n) l ++ replicate (Z.to_nat n - length l) None.

Definition datas_at (fd : Z) : sys (option FdCtx) :=
  s ← mget;
  if fd <? 0 then mstop OutOfBounds else mderef OutOfBounds (m_datas s !! Z.to_nat fd).
Definition datas_put (fd : Z) (c : option FdCtx) : sys unit :=
  s ← mget;
  if (0 <=? fd) && (fd <? zlen (m_datas s))
  then mput (set_datas (<[Z.to_nat fd := c]> (m_datas s)) s) else mstop OutOfBounds.

(** FdManager::get *)
Definition get (fd : Z) (auto_create : bool) : sys (option FdCtx) :=
  if fd =? -1 then mret None
  else
    s ← mget;
    let create : sys (option FdCtx) :=
      ctx ← FdCtx_new fd;
      s ← mget;
      (if i32 (zlen (m_datas s)) <=? fd
       then mput (set_datas (resize (3 * fd / 2) (m_datas s)) s) else mret tt);;
      datas_put fd (Some ctx);;
      mret (Some ctx) in
    if i32 (zlen (m_datas s)) <=? fd
    then if auto_create then create else mret None
    else
      d ← datas_at fd;
      match d with
      | Some c => mret (Some c)
      | None => if auto_create then create else mret None
      end.

(** FdManager::del *)
Definition del (fd : Z) : sys unit :=
  s ← mget;
  if i32 (zlen (m_datas s)) <=? fd then mret tt else datas_put fd None.

(** ** Descriptor calls *)

Definition usable (c : option FdCtx) : option FdCtx :=
  match c with
  | Some c => if m_isClosed c || negb (m_isSocket c) then None else Some c
  | None => None
  end.

(** fcntl(fd, F_SETFL, arg) *)
Definition fcntl_F_SETFL (fd arg : Z) : sys Z :=
  ctx ← get fd false;
  match usable ctx with
  | None => fcntl_setfl fd arg
  | Some c =>
    datas_put fd (Some (with_user (negb (Z.land arg O_NONBLOCK =? 0)) c));;
    fcntl_setfl fd (if m_sysNonblock c then Z.lor arg O_NONBLOCK else Z.land arg (Z.lnot O_NONBLOCK))
  end.

(** fcntl(fd, F_GETFL) *)
Definition fcntl_F_GETFL (fd : Z) : sys Z :=
  arg ← fcntl_getfl fd;
  ctx ← get fd false;
  match usable ctx with
  | None => mret arg
  | Some c =>
    mret (if m_userNonblock c then Z.lor arg O_NONBLOCK else Z.land arg (Z.lnot O_NONBLOCK))
  end.

(** ioctl(fd, FIONBIO, &on) *)
Definition ioctl_FIONBIO (fd : Z) (on : bool) : sys Z :=
  ctx ← get fd false;
  (match usable ctx with
   | None => mret tt
   | Some c => datas_put fd (Some (with_user on c))
   end);;
  s ← mget;
  let '(rt, k) := fionbio (kern s) fd on in
  mput (set_kern k s);; mret rt.

(** setsockopt(fd, SOL_SOCKET, optname, {tv_sec, tv_usec}), before the
    original call. *)
Definition setsockopt_timeout (fd optname tv_sec tv_usec : Z) : sys unit :=
  s ← mget;
  if negb (t_hook_enable s) then mret tt
  else if (optname =? SO_RCVTIMEO) || (optname =? SO_SNDTIMEO)
  then
    ctx ← get fd false;
    match ctx with
    | Some c => datas_put fd (Some (setTimeout optname (u64 (tv_sec * 1000 + Z.quot tv_usec 1000)) c))
    | None => mret tt
    end
  else mret tt.

(** socket(): the descriptor gets a context. *)
Definition socket : sys Z :=
  s ← mget;
  let '(fd, k) := open_socket (kern s) in
  mput (set_kern k s);;
  if negb (t_hook_enable s) then mret fd
  else if fd =? -1 then mret fd
  else get fd true;; mret fd.

(** close(); the calls on the IOManager are IOManager.cancelAll. *)
Definition close (fd : Z) : sys Z :=
  s ← mget;
  (if negb (t_hook_enable s) then mret tt
   else
     ctx ← get fd false;
     match ctx with Some _ => del fd | None => mret tt end);;
  s ← mget;
  let '(rt, k) := close_fd (kern s) fd in
  mput (set_kern k s);; mret rt.

End Ops.

(** ** do_io *)

Definition EINTR : Z := 4.
Definition EBADF : Z := 9.
Definition EAGAIN : Z := 11.
Definition ETIMEDOUT : Z := 110.
Definition EINPROGRESS : Z := 115.

(** What the original call returns: a count, or -1 with errno. *)
Inductive io_result : Type := IoRet (n : Z) | IoErr (errno : Z).

(** How a wait ends: addEvent fails (with the errno it leaves), or the fiber is resumed, with the value
    of tinfo->cancelled. *)
Inductive wait_result : Type := AddFailed (errno : Z) | Resumed (cancelled : Z).

(** What do_io does on the way. *)
Inductive io_act : Type :=
| ACall                     (* the original call *)
| ATimer (ms : Z)           (* addConditionTimer *)
| AEvent (event : Z)        (* addEvent *)
| AYield                    (* YieldToHold *)
| ACancel.                  (* timer->cancel() *)

(** The return value with errno, and what was done; [Waits] when the
    environment's answers end before the call does. *)
Inductive io_out : Type :=
| Returns (r : io_result) (acts : list io_act)
| Waits (acts : list io_act).

Definition add_acts (a : list io_act) (o : io_out) : io_out :=
  match o with
  | Returns r acts => Returns r (a ++ acts)
  | Waits acts => Waits (a ++ acts)
  end.

(** The part of do_io from [retry] on. *)
Fixpoint do_io_loop (event to : Z) (calls : list io_result) (waits : list wait_result) : io_out :=
  match calls with
  | [] => Waits []
  | c :: calls' =>
    add_acts [ACall]
      (match c with
       | IoErr e =>
         if e =? EINTR then do_io_loop event to calls' waits
         else if e =? EAGAIN
         then
           let timer := negb (to =? minus1) in
           let cancel := if timer then [ACancel] else [] in
           add_acts ((if timer then [ATimer to] else []) ++ [AEvent event])
             (match waits with
              | [] => Waits []
              | AddFailed err :: _ => Returns (IoErr err) cancel
              | Resumed cancelled :: waits' =>
                add_acts (AYield :: cancel)
                  (if negb (cancelled =? 0) then Returns (IoErr cancelled) []
                   else do_io_loop event to calls' waits')
              end)
         else Returns c []
       | IoRet n => Returns c []
       end)
  end.

(** do_io. [ctx] is what FdManager::get returns for the descriptor. *)
Definition do_io (hook : bool) (ctx : option FdCtx) (event timeout_so : Z)
  (calls : list io_result) (waits : list wait_result) : io_out :=
  let direct := match calls with [] => Waits [] | c :: _ => Returns c [ACall] end in
  if negb hook then direct
  else match ctx with
  | None => direct
  | Some c =>
    if m_isClosed c then Returns (IoErr EBADF) []
    else if negb (m_isSocket c) || m_userNonblock c then direct
    else do_io_loop event (getTimeout timeout_so c) calls waits
  end.

(** read, readv, recv, recvfrom, recvmsg; accept before it registers the new
    descriptor. *)
Definition do_read (hook : bool) (ctx : option FdCtx) := do_io hook ctx READ SO_RCVTIMEO.
(** write, writev, send, sendto, sendmsg *)
Definition do_write (hook : bool) (ctx : option FdCtx) := do_io hook ctx WRITE SO_SNDTIMEO.

(** connect_with_timeout; [so_error] is the error getsockopt(SO_ERROR) reports,
    or on the left its errno when it fails. *)
Definition connect_with_timeout (hook : bool) (ctx : option FdCtx) (timeout_ms : Z)
  (call : io_result) (wait : wait_result) (so_error : Z + Z) : io_out :=
  if negb hook then Returns call [ACall]
  else match ctx with
  | None => Returns (IoErr EBADF) []
  | Some c =>
    if m_isClosed c then Returns (IoErr EBADF) []
    else if negb (m_isSocket c) then Returns call [ACall]
    else if m_userNonblock c then Returns call [ACall]
    else
      add_acts [ACall]
        (match call with
         | IoRet n => Returns call []
         | IoErr e =>
           if negb (e =? EINPROGRESS) then Returns call []
           else
             let timer := negb (timeout_ms =? minus1) in
             let cancel := if timer then [ACancel] else [] in
             let finish := match so_error with
                           | inl err => Returns (IoErr err) []
                           | inr 0 => Returns (IoRet 0) []
                           | inr err => Returns (IoErr err) []
                           end in
             add_acts ((if timer then [ATimer timeout_ms] else []) ++ [AEvent WRITE])
               (match wait with
                | Resumed cancelled =>
                  add_acts (AYield :: cancel)
                    (if negb (cancelled =? 0) then Returns (IoErr cancelled) [] else finish)
                | AddFailed _ => add_acts cancel finish
                end)
         end)
  end.

(** The timer periods of the hooked sleeps. *)
Definition sleep_ms (seconds : Z) : Z := u32 (seconds * 1000).
Definition usleep_ms (usec : Z) : Z := usec / 1000.
Definition nanosleep_ms (tv_sec tv_nsec : Z) : Z := u64 (i32 (tv_sec * 1000 + Z.quot tv_nsec 1000)).

(** ** Facts about the table *)

Section Table.
Context {K : Type} `{KN : Kernel K} `{KL : !KernelLaws K}.
Implicit Types s : Sys K.

(** The kernel's O_NONBLOCK bit of a descriptor. *)
Definition nonblocking (k : K) (fd : Z) : Prop := Z.testbit (getfl k fd) NB = true.

(** Every context is at its descriptor's place, open, and that of a socket
    says and the kernel has that the socket does not block. *)
Record fd_inv s : Prop := {
  fi_size : 64 ≤ zlen (m_datas s) < 2 ^ 31;
  fi_ctx i c : m_datas s !! i = Some (Some c) →
    m_fd c = Z.of_nat i ∧ m_isClosed c = false ∧
    (m_isSocket c = true → m_sysNonblock c = true ∧ nonblocking (kern s) (Z.of_nat i))
}.

Definition ctx_of (fd : Z) s : option FdCtx := mjoin (m_datas s !! Z.to_nat fd).

Lemma get_in_table fd s : 64 ≤ zlen (m_datas s) < 2 ^ 31 → 0 ≤ fd → get fd false s = Ok (ctx_of fd s) s.
Proof.
  intros Hz Hfd. unfold get, ctx_of. rewrite (proj2 (Z.eqb_neq _ _)) by lia. mred.
  assert (i32 (zlen (m_datas s)) = zlen (m_datas s)) as -> by (apply wraps_small; [lia|]; unfold in_s; lia).
  destruct (Z.leb_spec (zlen (m_datas s)) fd) as [Hge|Hlt].
  - rewrite lookup_ge_None_2 by (unfold zlen in *; lia). done.
  - unfold datas_at. mred. rewrite (proj2 (Z.ltb_ge _ _)) by lia.
    destruct (lookup_lt_is_Some_2 (m_datas s) (Z.to_nat fd)) as [d Hd]; [unfold zlen in *; lia|].
    rewrite Hd. by destruct d.
Qed.

Lemma datas_i32 s : fd_inv s → i32 (zlen (m_datas s)) = zlen (m_datas s).
Proof. intros HI. pose proof (fi_size _ HI). apply wraps_small; [lia|]. unfold in_s. lia. Qed.

Lemma get_lookup fd s : fd_inv s → 0 ≤ fd → get fd false s = Ok (ctx_of fd s) s.
Proof. intros HI. apply get_in_table, HI. Qed.

Lemma datas_put_spec fd c s :
  0 ≤ fd < zlen (m_datas s) → datas_put fd c s = Ok tt (set_datas (<[Z.to_nat fd := c]> (m_datas s)) s).
Proof.
  intros Hfd. unfold datas_put. mred. rewrite (proj2 (Z.leb_le _ _)), (proj2 (Z.ltb_lt _ _)) by lia. done.
Qed.

Lemma ctx_of_size fd s c : ctx_of fd s = Some c → 0 ≤ fd → 0 ≤ fd < zlen (m_datas s) ∧ m_datas s !! Z.to_nat fd = Some (Some c).
Proof.
  unfold ctx_of. destruct (m_datas s !! Z.to_nat fd) as [d|] eqn:E; [|done]. cbn. intros -> Hfd.
  apply lookup_lt_Some in E as Hl. unfold zlen. split; [lia|done].
Qed.

Lemma testbit_nb x : Z.testbit (Z.lor x O_NONBLOCK) NB = true.
Proof. rewrite Z.lor_spec. apply orb_true_r. Qed.

Lemma testbit_not_nb x : Z.testbit (Z.land x (Z.lnot O_NONBLOCK)) NB = false.
Proof. rewrite Z.land_spec. apply andb_false_r. Qed.

Lemma land_nb x : negb (Z.land x O_NONBLOCK =? 0) = Z.testbit x NB.
Proof.
  destruct (Z.testbit x NB) eqn:E.
  - rewrite (proj2 (Z.eqb_neq _ _)); [done|]. intros H0.
    assert (Z.testbit (Z.land x O_NONBLOCK) NB = true) as Hb by (rewrite Z.land_spec, E; done).
    by rewrite H0, Z.bits_0 in Hb.
  - apply negb_false_iff, Z.eqb_eq, Z.bits_inj'. intros n Hn. rewrite Z.bits_0, Z.land_spec.
    destruct (decide (n = NB)) as [->|Hne]; [by rewrite E|].
    unfold O_NONBLOCK. rewrite Z.pow2_bits_false by done. apply andb_false_r.
Qed.

(** The flag of one descriptor changes: the invariant needs it only there. *)
Lemma fd_inv_kern s k fd :
  fd_inv s → 0 ≤ fd → (∀ fd', fd' ≠ fd → getfl k fd' = getfl (kern s) fd') →
  (∀ c, ctx_of fd s = Some c → m_isSocket c = true → nonblocking k fd) → fd_inv (set_kern k s).
Proof.
  intros HI Hfd Ho Hc. split; [apply HI|]. intros i c Hi. destruct (fi_ctx _ HI i c Hi) as (H1 & H2 & H3).
  split; [done|]. split; [done|]. intros Hs. split; [by apply H3|]. cbn.
  destruct (decide (Z.of_nat i = fd)) as [<-|Hne].
  - apply (Hc c); [|done]. unfold ctx_of. rewrite Nat2Z.id. cbn in Hi. by rewrite Hi.
  - unfold nonblocking. rewrite Ho by done. by apply H3.
Qed.

(** Replacing the context of one descriptor. *)
Lemma fd_inv_put s fd c :
  fd_inv s → 0 ≤ fd < zlen (m_datas s) →
  (∀ c', c = Some c' → m_fd c' = fd ∧ m_isClosed c' = false ∧
     (m_isSocket c' = true → m_sysNonblock c' = true ∧ nonblocking (kern s) fd)) →
  fd_inv (set_datas (<[Z.to_nat fd := c]> (m_datas s)) s).
Proof.
  intros HI Hfd Hc. split; cbn.
  - unfold zlen. rewrite length_insert. apply HI.
  - intros i c'. rewrite list_lookup_insert_Some. intros [(<- & -> & _)|[_ Hi]]; [|by apply (fi_ctx _ HI)].
    rewrite Z2Nat.id by lia. by apply Hc.
Qed.

(** A new context: for a socket the kernel's flag is set. *)
Lemma FdCtx_new_spec fd s :
  fd_inv s → 0 ≤ fd →
  ∃ c k, FdCtx_new fd s = Ok c (set_kern k s) ∧ fd_inv (set_kern k s) ∧
    m_fd c = fd ∧ m_isClosed c = false ∧ m_isSocket c = default false (fstat_socket (kern s) fd) ∧
    (m_isSocket c = true → m_sysNonblock c = true ∧ nonblocking k fd) ∧
    (k = kern s ∨ ∃ f, k = (setfl (kern s) fd f).2).
Proof.
  intros HI Hfd. unfold FdCtx_new, fcntl_getfl, fcntl_setfl. mred.
  assert (set_kern (kern s) s = s) as Hid by (by destruct s).
  destruct (fstat_socket (kern s) fd) as [[]|] eqn:Hst.
  2: { eexists _, (kern s). rewrite Hid. cbn. split_and!; try done; by (left + apply HI). }
  2: { eexists _, (kern s). rewrite Hid. cbn. split_and!; try done; by (left + apply HI). }
  pose proof (land_nb (getfl (kern s) fd)) as Hnb.
  destruct (Z.eqb_spec (Z.land (getfl (kern s) fd) O_NONBLOCK) 0); cbn in Hnb.
  - destruct (setfl (kern s) fd _) as [rt k] eqn:Ek. cbn.
    assert (rt = 0) as -> by (pose proof (setfl_socket (kern s) fd (Z.lor (getfl (kern s) fd) O_NONBLOCK) Hst) as E; by rewrite Ek in E).
    assert (nonblocking k fd) as Hk by (unfold nonblocking; rewrite (setfl_sets _ _ _ _ Ek); apply testbit_nb).
    eexists _, k. split; [done|]. split.
    { apply (fd_inv_kern s k fd); try done. intros fd' Hne. by eapply setfl_other. }
    split_and!; try done. right. eexists. by rewrite Ek.
  - eexists _, (kern s). rewrite Hid. cbn. split_and!; try done; by (left + apply HI).
Qed.

Lemma resize_lookup n l i :
  zlen l ≤ n → resize n l !! i = (if decide (i < Z.to_nat n)%nat then Some (mjoin (l !! i)) else None).
Proof.
  intros Hn. unfold resize, zlen in *. rewrite take_ge by lia. case_decide as Hi.
  - destruct (decide (i < length l)%nat) as [Hl|Hl].
    + rewrite lookup_app_l by done. destruct (lookup_lt_is_Some_2 l i Hl) as [x ->]. done.
    + rewrite lookup_app_r by lia. rewrite lookup_replicate_2 by lia.
      by rewrite (lookup_ge_None_2 l) by lia.
  - apply lookup_ge_None_2. rewrite length_app, length_replicate. lia.
Qed.

(** get makes the table large enough and puts the new context there. *)
Lemma get_puts fd s c k :
  64 ≤ zlen (m_datas s) < 2 ^ 31 → 0 ≤ fd < 2 ^ 30 → ctx_of fd s = None → FdCtx_new fd s = Ok c (set_kern k s) →
  ∃ d, get fd true s = Ok (Some c) (mkSys k (<[Z.to_nat fd := Some c]> d) (t_hook_enable s)) ∧ 64 ≤ zlen d < 2 ^ 31 ∧ fd < zlen d ∧
    ∀ i, mjoin (d !! i) = mjoin (m_datas s !! i).
Proof.
  intros Hz Hfd Hn E. unfold get. rewrite (proj2 (Z.eqb_neq _ _)) by lia.
  assert (i32 (zlen (m_datas s)) = zlen (m_datas s)) as Hi32 by (apply wraps_small; [lia|]; unfold in_s; lia).
  rewrite (bind_ok _ _ _ _ _ (eq_refl : mget s = Ok s s)). rewrite Hi32.
  set (create := FdCtx_new fd ≫= _).
  set (d := if zlen (m_datas s) <=? fd then resize (3 * fd / 2) (m_datas s) else m_datas s).
  assert (64 ≤ zlen d < 2 ^ 31 ∧ fd < zlen d ∧ ∀ i, mjoin (d !! i) = mjoin (m_datas s !! i)) as (Hsz & Hlt & Hd).
  { unfold d. destruct (Z.leb_spec (zlen (m_datas s)) fd) as [Hge|]; [|done].
    assert (fd + 1 ≤ 3 * fd / 2) by (apply Z.div_le_lower_bound; lia).
    assert (3 * fd / 2 < 2 ^ 31) by (apply Z.div_lt_upper_bound; lia).
    assert (zlen (resize (3 * fd / 2) (m_datas s)) = 3 * fd / 2) as ->.
    { unfold resize, zlen in *. rewrite length_app, length_take, length_replicate. lia. }
    split; [lia|]. split; [lia|]. intros i. rewrite resize_lookup by lia. case_decide; [by destruct (m_datas s !! i) as [[]|]|].
    rewrite (lookup_ge_None_2 (m_datas s)) by (unfold zlen in *; lia). done. }
  set (s' := mkSys k (<[Z.to_nat fd := Some c]> d) (t_hook_enable s)).
  assert (create s = Ok (Some c) s') as Ec.
  { unfold create. rewrite (bind_ok _ _ _ _ _ E). rewrite (bind_ok _ _ _ _ _ (eq_refl : mget (set_kern k s) = Ok _ _)).
    cbn [m_datas set_kern]. rewrite Hi32. unfold s', d in *.
    destruct (zlen (m_datas s) <=? fd); mred; (rewrite datas_put_spec; [done|]); cbn; lia. }
  exists d. split; [|done]. destruct (zlen (m_datas s) <=? fd) eqn:Hle; [done|]. apply Z.leb_gt in Hle.
  assert (datas_at fd s = Ok None s) as Ea.
  { unfold datas_at. mred. rewrite (proj2 (Z.ltb_ge _ _)) by lia. unfold ctx_of in Hn.
    destruct (lookup_lt_is_Some_2 (m_datas s) (Z.to_nat fd)) as [x Hx]; [unfold zlen in *; lia|].
    rewrite Hx in *. cbn in Hn. by rewrite Hn. }
  by rewrite (bind_ok _ _ _ _ _ Ea).
Qed.

Lemma get_create fd s :
  fd_inv s → 0 ≤ fd < 2 ^ 30 → ctx_of fd s = None →
  ∃ c s', get fd true s = Ok (Some c) s' ∧ fd_inv s' ∧ ctx_of fd s' = Some c ∧
    m_isSocket c = default false (fstat_socket (kern s) fd) ∧
    t_hook_enable s' = t_hook_enable s ∧
    (kern s' = kern s ∨ ∃ f, kern s' = (setfl (kern s) fd f).2) ∧
    ∀ fd', 0 ≤ fd' → fd' ≠ fd → ctx_of fd' s' = ctx_of fd' s.
Proof.
  intros HI Hfd Hn. destruct (FdCtx_new_spec fd s HI) as (c & k & E & HIk & Hcf & Hcl & Hsk & Hcs & Hk); [lia|].
  destruct (get_puts fd s c k (fi_size _ HI) Hfd Hn E) as (d & Eg & Hsz & Hlt & Hd).
  set (s' := mkSys k (<[Z.to_nat fd := Some c]> d) (t_hook_enable s)) in *.
  assert (fd_inv (mkSys k d (t_hook_enable s))) as HId.
  { split; cbn; [done|]. intros i c' Hi. apply (fi_ctx _ HIk). cbn. specialize (Hd i). rewrite Hi in Hd. cbn in Hd.
    destruct (m_datas s !! i) as [[]|]; cbn in Hd; congruence. }
  exists c, s'. split; [done|]. split; [|split; [|split; [done|split; [done|split; [done|]]]]].
  - apply (fd_inv_put (mkSys k d (t_hook_enable s)) fd (Some c) HId); [cbn; lia|]. intros c' [= <-]. by split_and!.
  - unfold ctx_of, s'. cbn. rewrite list_lookup_insert_eq by (unfold zlen in *; lia). done.
  - intros fd' H1 H2. unfold ctx_of, s'. cbn. rewrite list_lookup_insert_ne by lia. apply Hd.
Qed.

End Table.
