(* ===== verification/HookProps.v ===== *)
(** Properties of the hooked system calls. *)

From stdpp Require Import base list.
From Stdlib Require Import Lia.
From S2P Require Import Prelude IOManager Hook.

Section Descriptors.
Context {K : Type} `{KN : Kernel K} `{KL : !KernelLaws K}.
Implicit Types s : Sys K.

(** Changing the flags of a descriptor with O_NONBLOCK kept on. *)
Lemma setfl_keeps s fd f rt k :
  fd_inv s → 0 ≤ fd → setfl (kern s) fd f = (rt, k) →
  (∀ c, ctx_of fd s = Some c → m_isSocket c = true → Z.testbit f NB = true) → fd_inv (set_kern k s).
Proof.
  intros HI Hfd Ek Hf. apply (fd_inv_kern s k fd); try done.
  - intros fd' Hne. by eapply setfl_other.
  - intros c Hc Hs. unfold nonblocking. destruct (decide (rt = 0)) as [->|Hrt].
    + rewrite (setfl_sets _ _ _ _ Ek). by eapply Hf.
    + rewrite (setfl_fails _ _ _ _ _ Ek Hrt). destruct (ctx_of_size _ _ _ Hc Hfd) as [_ Hl].
      destruct (fi_ctx _ HI _ _ Hl) as (_ & _ & H3). specialize (H3 Hs) as [_ H3].
      by rewrite Z2Nat.id in H3 by done.
Qed.

Lemma usable_socket s fd c :
  fd_inv s → 0 ≤ fd → ctx_of fd s = Some c → usable (Some c) = (if m_isSocket c then Some c else None).
Proof.
  intros HI Hfd Hc. destruct (ctx_of_size _ _ _ Hc Hfd) as [_ Hl].
  destruct (fi_ctx _ HI _ _ Hl) as (_ & Hcl & _). unfold usable. rewrite Hcl. by destruct (m_isSocket c).
Qed.

Lemma F_SETFL_spec s fd arg c :
  fd_inv s → 0 ≤ fd → ctx_of fd s = Some c → m_isSocket c = true →
  ∃ rt k, setfl (kern s) fd (Z.lor arg O_NONBLOCK) = (rt, k) ∧
    fcntl_F_SETFL fd arg s =
      Ok rt (mkSys k (<[Z.to_nat fd := Some (with_user (Z.testbit arg NB) c)]> (m_datas s)) (t_hook_enable s)) ∧
    fd_inv (mkSys k (<[Z.to_nat fd := Some (with_user (Z.testbit arg NB) c)]> (m_datas s)) (t_hook_enable s)).
Proof.
  intros HI Hfd Hc Hs. destruct (ctx_of_size _ _ _ Hc Hfd) as [Hsz Hl].
  destruct (fi_ctx _ HI _ _ Hl) as (Hf & Hcl & H3). destruct (H3 Hs) as [Hsys Hnb].
  rewrite Z2Nat.id in Hf, Hnb by done.
  destruct (setfl (kern s) fd (Z.lor arg O_NONBLOCK)) as [rt k] eqn:Ek. exists rt, k. split; [done|].
  set (d := <[Z.to_nat fd := Some (with_user (Z.testbit arg NB) c)]> (m_datas s)).
  assert (fd_inv (set_datas d s)) as HId.
  { apply fd_inv_put; try done. intros c' [= <-]. cbn. by split_and!. }
  split.
  - unfold fcntl_F_SETFL. rewrite (bind_ok _ _ _ _ _ (get_lookup fd s HI Hfd)), Hc, (usable_socket s fd c), Hs by done.
    rewrite land_nb. rewrite (bind_ok _ _ _ _ _ (datas_put_spec fd _ s Hsz)). rewrite Hsys.
    unfold fcntl_setfl. mred. cbn. by rewrite Ek.
  - apply (setfl_keeps (set_datas d s) fd (Z.lor arg O_NONBLOCK) rt k HId Hfd Ek). intros _ _ _. apply testbit_nb.
Qed.

Lemma F_GETFL_spec s fd c :
  fd_inv s → 0 ≤ fd → ctx_of fd s = Some c → m_isSocket c = true →
  ∃ r, fcntl_F_GETFL fd s = Ok r s ∧ Z.testbit r NB = m_userNonblock c.
Proof.
  intros HI Hfd Hc Hs. unfold fcntl_F_GETFL, fcntl_getfl.
  rewrite (bind_ok _ _ s (getfl (kern s) fd) s) by done.
  rewrite (bind_ok _ _ _ _ _ (get_lookup fd s HI Hfd)), Hc, (usable_socket s fd c), Hs by done.
  eexists. split; [done|]. destruct (m_userNonblock c); [apply testbit_nb|apply testbit_not_nb].
Qed.

(** ** Sequences of calls *)

Inductive fop : Type :=
| FSocket
| FSetfl (fd arg : Z)
| FGetfl (fd : Z)
| FTimeout (fd optname tv_sec tv_usec : Z)
| FClose (fd : Z).

Definition fexec (o : fop) : M (Sys K) unit :=
  match o with
  | FSocket => socket;; mret tt
  | FSetfl fd arg => fcntl_F_SETFL fd arg;; mret tt
  | FGetfl fd => fcntl_F_GETFL fd;; mret tt
  | FTimeout fd o a b => setsockopt_timeout fd o a b
  | FClose fd => close fd;; mret tt
  end.

(** A new descriptor has no context left from an earlier one: descriptors are
    closed by the hooked close. *)
Definition fenabled (o : fop) s : Prop :=
  match o with
  | FSocket => let fd := (open_socket (kern s)).1 in fd = -1 ∨ 0 ≤ fd < 2 ^ 30 ∧ ctx_of fd s = None
  | FSetfl fd _ | FGetfl fd | FTimeout fd _ _ _ | FClose fd => 0 ≤ fd
  end.

Lemma timeout_fields o v c :
  m_fd (setTimeout o v c) = m_fd c ∧ m_isClosed (setTimeout o v c) = m_isClosed c ∧
  m_isSocket (setTimeout o v c) = m_isSocket c ∧ m_sysNonblock (setTimeout o v c) = m_sysNonblock c.
Proof. unfold setTimeout. by destruct (o =? SO_RCVTIMEO). Qed.

Lemma close_inv s fd :
  fd_inv s → 0 ≤ fd → t_hook_enable s = true →
  ∃ rt s', close fd s = Ok rt s' ∧ fd_inv s' ∧ ctx_of fd s' = None ∧ t_hook_enable s' = true.
Proof.
  intros HI Hfd Hh. unfold close. rewrite (bind_ok _ _ _ _ _ (eq_refl : mget s = Ok s s)). rewrite Hh. cbn [negb].
  assert (∃ d, (ctx ← get fd false; match ctx with Some _ => del fd | None => mret tt end) s = Ok tt (set_datas d s) ∧
    fd_inv (set_datas d s) ∧ ctx_of fd (set_datas d s) = None) as (d & E & HId & Hn).
  { rewrite (bind_ok _ _ _ _ _ (get_lookup fd s HI Hfd)). destruct (ctx_of fd s) as [c|] eqn:Hc.
    - destruct (ctx_of_size _ _ _ Hc Hfd) as [Hsz _]. exists (<[Z.to_nat fd := None]> (m_datas s)).
      unfold del. mred. rewrite datas_i32 by done. rewrite (proj2 (Z.leb_gt _ _)) by lia.
      rewrite datas_put_spec by done. split; [done|]. split; [by apply fd_inv_put|].
      unfold ctx_of. cbn. rewrite list_lookup_insert_eq by (unfold zlen in *; lia). done.
    - exists (m_datas s). destruct s. done. }
  rewrite (bind_ok _ _ _ _ _ E). mred. cbn. destruct (close_fd (kern s) fd) as [rt k] eqn:Ek.
  eexists _, _. split; [done|]. split; [|split; [done|done]].
  apply (fd_inv_kern (set_datas d s) k fd HId Hfd).
  - intros fd' Hne. by eapply (close_other (kern s)).
  - rewrite Hn. done.
Qed.

Lemma socket_inv s :
  fd_inv s → fenabled FSocket s → t_hook_enable s = true →
  ∃ fd s', socket s = Ok fd s' ∧ fd_inv s' ∧ t_hook_enable s' = true ∧
    (fd ≠ -1 → ∃ c, ctx_of fd s' = Some c).
Proof.
  intros HI Hen Hh. unfold socket. cbn in Hen. mred. destruct (open_socket (kern s)) as [fd k] eqn:Ek. cbn in Hen.
  rewrite Hh. cbn [negb]. destruct Hen as [->|[Hfd Hn]].
  - eexists _, _. split; [done|]. split; [|done]. split; [apply HI|]. cbn. intros i c Hi.
    destruct (fi_ctx _ HI i c Hi) as (H1 & H2 & H3). split_and!; try done. intros Hs. destruct (H3 Hs) as [H4 H5].
    split; [done|]. unfold nonblocking. rewrite (open_other _ _ _ _ Ek); [done|]. lia.
  - assert (fd_inv (set_kern k s)) as HIk.
    { apply (fd_inv_kern s k fd); try done; [lia| |].
      - intros fd' Hne. by eapply open_other.
      - intros c. by rewrite Hn. }
    rewrite (proj2 (Z.eqb_neq _ _)) by lia.
    destruct (get_create fd (set_kern k s) HIk Hfd Hn) as (c & s' & E & HI' & Hc & _ & Hh' & _ & _).
    rewrite E. eexists _, _. split; [done|]. split; [done|]. split; [by rewrite Hh'|]. intros _. by exists c.
Qed.

Lemma fexec_safe o s :
  fd_inv s → fenabled o s → t_hook_enable s = true →
  ∃ s', fexec o s = Ok tt s' ∧ fd_inv s' ∧ t_hook_enable s' = true.
Proof.
  intros HI Hen Hh. destruct o as [|fd arg|fd|fd o a b|fd]; cbn [fexec].
  - destruct (socket_inv s HI Hen Hh) as (fd & s' & E & HI' & Hh' & _). exists s'. by rewrite (bind_ok _ _ _ _ _ E).
  - cbn in Hen. destruct (ctx_of fd s) as [c|] eqn:Hc; [destruct (m_isSocket c) eqn:Hs|].
    + destruct (F_SETFL_spec s fd arg c HI Hen Hc Hs) as (rt & k & _ & E & HI').
      eexists. rewrite (bind_ok _ _ _ _ _ E). done.
    + destruct (setfl (kern s) fd arg) as [rt k] eqn:Ek. exists (set_kern k s).
      unfold fcntl_F_SETFL, fcntl_setfl. rewrite (bind_ok _ _ s rt (set_kern k s)).
      * split; [done|]. split; [|done]. eapply setfl_keeps; try done. intros c'. rewrite Hc. intros [= <-]. congruence.
      * rewrite (bind_ok _ _ _ _ _ (get_lookup fd s HI Hen)), Hc, (usable_socket s fd c), Hs by done. mred. by rewrite Ek.
    + destruct (setfl (kern s) fd arg) as [rt k] eqn:Ek. exists (set_kern k s).
      unfold fcntl_F_SETFL, fcntl_setfl. rewrite (bind_ok _ _ s rt (set_kern k s)).
      * split; [done|]. split; [|done]. eapply setfl_keeps; try done. intros c'. by rewrite Hc.
      * rewrite (bind_ok _ _ _ _ _ (get_lookup fd s HI Hen)), Hc. cbn. mred. by rewrite Ek.
  - cbn in Hen. exists s. split; [|done]. unfold fcntl_F_GETFL, fcntl_getfl.
    assert (∃ r, (arg ← (s ← mget; mret (getfl (kern s) fd)); ctx ← get fd false;
      match usable ctx with None => mret arg | Some c =>
        mret (if m_userNonblock c then Z.lor arg O_NONBLOCK else Z.land arg (Z.lnot O_NONBLOCK)) end) s = Ok r s) as [r E].
    { rewrite (bind_ok _ _ s (getfl (kern s) fd) s) by done. rewrite (bind_ok _ _ _ _ _ (get_lookup fd s HI Hen)).
      destruct (usable _); by eexists. }
    by rewrite (bind_ok _ _ _ _ _ E).
  - cbn in Hen. unfold setsockopt_timeout. rewrite (bind_ok _ _ _ _ _ (eq_refl : mget s = Ok s s)). rewrite Hh. cbn [negb].
    destruct (_ || _); [|by exists s]. rewrite (bind_ok _ _ _ _ _ (get_lookup fd s HI Hen)).
    destruct (ctx_of fd s) as [c|] eqn:Hc; [|by exists s]. destruct (ctx_of_size _ _ _ Hc Hen) as [Hsz Hl].
    rewrite datas_put_spec by done. eexists. split; [done|]. split; [|done]. apply fd_inv_put; try done.
    intros c' [= <-]. destruct (fi_ctx _ HI _ _ Hl) as (H1 & H2 & H3).
    destruct (timeout_fields o (u64 (a * 1000 + Z.quot b 1000)) c) as (-> & -> & -> & ->).
    rewrite Z2Nat.id in H1, H3 by done. done.
  - destruct (close_inv s fd HI Hen Hh) as (rt & s' & E & HI' & _ & Hh'). exists s'. by rewrite (bind_ok _ _ _ _ _ E).
Qed.

Inductive fsteps s : list fop → Sys K → Prop :=
| fsteps_nil : fsteps s [] s
| fsteps_snoc os s1 o s2 : fsteps s os s1 → fenabled o s1 → fexec o s1 = Ok tt s2 → fsteps s (os ++ [o]) s2.

Lemma fsteps_inv s os s' :
  fd_inv s → t_hook_enable s = true → fsteps s os s' → fd_inv s' ∧ t_hook_enable s' = true.
Proof.
  intros HI Hh. induction 1 as [|os s1 o s2 _ [IH IHh] Hen E]; [done|].
  destruct (fexec_safe o s1 IH Hen IHh) as (s3 & E' & ?). congruence.
Qed.

Lemma FdManager_new_inv k : fd_inv (FdManager_new k true).
Proof.
  split; cbn; [done|]. intros i c Hi.
  apply (lookup_replicate_1 64 (None : option FdCtx)) in Hi as [Hi _]. done.
Qed.

(** With hooks on, after any sequence of socket, fcntl, setsockopt and
    close calls every socket with a context is non-blocking in the kernel,
    whatever the user asked for, and every further call returns. *)
Theorem sockets_stay_nonblocking k os s :
  fsteps (FdManager_new k true) os s →
  (∀ fd c, 0 ≤ fd → ctx_of fd s = Some c → m_isSocket c = true →
     Z.testbit (getfl (kern s) fd) NB = true) ∧
  ∀ o, fenabled o s → ∃ s', fexec o s = Ok tt s'.
Proof.
  intros Hs. destruct (fsteps_inv _ _ _ (FdManager_new_inv k) eq_refl Hs) as [HI Hh]. split.
  - intros fd c Hfd Hc Hsk. destruct (ctx_of_size _ _ _ Hc Hfd) as [_ Hl].
    destruct (fi_ctx _ HI _ _ Hl) as (_ & _ & H3). specialize (H3 Hsk) as [_ H3]. by rewrite Z2Nat.id in H3.
  - intros o Ho. destruct (fexec_safe o s HI Ho Hh) as (s' & E & _). by exists s'.
Qed.

(** The user sees the blocking mode the user set: after
    fcntl(F_SETFL, arg) on a socket, fcntl(F_GETFL) has O_NONBLOCK exactly when
    [arg] had it, while the kernel keeps the socket non-blocking. *)
Theorem fcntl_user_view s fd arg c rt s1 :
  fd_inv s → 0 ≤ fd → ctx_of fd s = Some c → m_isSocket c = true →
  fcntl_F_SETFL fd arg s = Ok rt s1 →
  ∃ r, fcntl_F_GETFL fd s1 = Ok r s1 ∧ Z.testbit r NB = Z.testbit arg NB ∧
    Z.testbit (getfl (kern s1) fd) NB = true.
Proof.
  intros HI Hfd Hc Hs E. destruct (F_SETFL_spec s fd arg c HI Hfd Hc Hs) as (rt' & k & _ & E' & HI').
  rewrite E in E'. injection E' as -> ->. destruct (ctx_of_size _ _ _ Hc Hfd) as [Hsz _].
  set (s1 := mkSys _ _ _) in *.
  assert (ctx_of fd s1 = Some (with_user (Z.testbit arg NB) c)) as Hc1.
  { unfold ctx_of, s1. cbn. rewrite list_lookup_insert_eq by (unfold zlen in *; lia). done. }
  destruct (F_GETFL_spec s1 fd _ HI' Hfd Hc1 Hs) as (r & Er & Hr). exists r. split; [done|]. split; [done|].
  destruct (ctx_of_size _ _ _ Hc1 Hfd) as [_ Hl]. destruct (fi_ctx _ HI' _ _ Hl) as (_ & _ & H3).
  specialize (H3 Hs) as [_ H3]. by rewrite Z2Nat.id in H3.
Qed.

End Descriptors.

(** ** do_io *)

Definition acts_of (o : io_out) : list io_act := match o with Returns _ a => a | Waits a => a end.
Definition is_timer (a : io_act) : bool := match a with ATimer _ => true | _ => false end.
Definition is_cancel (a : io_act) : bool := match a with ACancel => true | _ => false end.
Definition is_call (a : io_act) : bool := match a with ACall => true | _ => false end.
Definition count (p : io_act → bool) (l : list io_act) : nat := length (List.filter p l).

Lemma count_app p l1 l2 : count p (l1 ++ l2) = (count p l1 + count p l2)%nat.
Proof. unfold count. by rewrite List.filter_app, length_app. Qed.

(** A result on which the call is tried again. *)
Definition retryable (r : io_result) : bool :=
  match r with IoErr e => (e =? EINTR) || (e =? EAGAIN) | IoRet _ => false end.
Definition needs_wait (r : io_result) : bool :=
  match r with IoErr e => e =? EAGAIN | IoRet _ => false end.

(** A socket whose user wants blocking calls. *)
Definition blocking_socket (c : FdCtx) : Prop :=
  m_isSocket c = true ∧ m_isClosed c = false ∧ m_userNonblock c = false.

Lemma do_io_socket c event so calls waits :
  blocking_socket c → do_io true (Some c) event so calls waits = do_io_loop event (getTimeout so c) calls waits.
Proof. intros (H1 & H2 & H3). unfold do_io. by rewrite H1, H2, H3. Qed.

Lemma do_io_loop_balanced event to calls waits r acts :
  do_io_loop event to calls waits = Returns r acts → count is_timer acts = count is_cancel acts.
Proof.
  revert waits r acts. induction calls as [|c calls IH]; intros waits r acts; [done|]. cbn.
  destruct c as [n|e]; [intros [= <- <-]; done|].
  destruct (e =? EINTR).
  { destruct (do_io_loop event to calls waits) as [r' acts'|] eqn:E; [|done]. intros [= <- <-].
    unfold count. cbn. by apply (IH waits r'). }
  destruct (e =? EAGAIN); [|intros [= <- <-]; done].
  destruct waits as [|[err|cancelled] waits]; cbn; [done|destruct (negb (to =? minus1)); intros [= <- <-]; done|].
  destruct (negb (cancelled =? 0)); cbn; [destruct (negb (to =? minus1)); intros [= <- <-]; done|].
  destruct (do_io_loop event to calls waits) as [r' acts'|] eqn:E; [|done]. pose proof (IH waits r' acts' E) as Hb.
  unfold count in *. destruct (negb (to =? minus1)); intros [= <- <-]; cbn; by rewrite Hb.
Qed.

(** The error that ends a wait: addEvent's, or that of the timer or of whoever
    cancelled the event. *)
Definition wait_error (w : wait_result) : option Z :=
  match w with AddFailed e => Some e | Resumed cancelled => if cancelled =? 0 then None else Some cancelled end.
Fixpoint first_error (ws : list wait_result) : option Z :=
  match ws with [] => None | w :: ws' => match wait_error w with Some e => Some e | None => first_error ws' end end.

(** What a call that blocks returns: [busy] are the results it does not return,
    [r] the first other one. *)
Definition blocking_result (busy : list io_result) (r : io_result) (waits : list wait_result) : option io_result :=
  let n := length (List.filter needs_wait busy) in
  match first_error (take n waits) with
  | Some e => Some (IoErr e)
  | None => if (length waits <? n)%nat then None else Some r
  end.

Lemma do_io_loop_blocks event to busy r rest waits :
  Forall (λ b, retryable b = true) busy → retryable r = false →
  match do_io_loop event to (busy ++ r :: rest) waits with
  | Returns r' acts => blocking_result busy r waits = Some r' ∧ Forall (λ a, is_timer a = true → a = ATimer to ∧ to ≠ minus1) acts ∧
      (first_error (take (length (List.filter needs_wait busy)) waits) = None → count is_call acts = S (length busy))
  | Waits acts => blocking_result busy r waits = None
  end.
Proof.
  intros Hb Hr. revert waits. induction Hb as [|b busy Hb0 Hb IH]; intros waits.
  - cbn. destruct r as [n|e]; [by repeat constructor|]. cbn in Hr. apply orb_false_iff in Hr as [H1 H2]. rewrite H1, H2. by repeat constructor.
  - destruct b as [|e]; [done|]. cbn [app do_io_loop]. cbn in Hb0. unfold blocking_result. cbn [List.filter needs_wait].
    destruct (e =? EINTR) eqn:He.
    + apply Z.eqb_eq in He as ->. cbn [Z.eqb]. change (EINTR =? EAGAIN) with false. cbv iota. specialize (IH waits).
      destruct (do_io_loop event to (busy ++ r :: rest) waits) as [r' acts|acts]; cbn; [|exact IH].
      destruct IH as (H1 & H2 & H3). split; [exact H1|]. split; [by constructor|]. intros E. unfold count in *. cbn. by rewrite H3.
    + cbn in Hb0. rewrite Hb0. cbn [length]. assert (Forall (λ a, is_timer a = true → a = ATimer to ∧ to ≠ minus1) (if negb (to =? minus1) then [ATimer to] else [])) as Ht.
      { destruct (Z.eqb_spec to minus1); repeat constructor; done. }
      destruct waits as [|w waits]; [by cbn|]. cbn [take first_error length]. unfold wait_error at 1.
      change (S (length waits) <? S (length (List.filter needs_wait busy)))%nat with (length waits <? length (List.filter needs_wait busy))%nat.
      destruct w as [err|cancelled].
      { cbn. split; [done|]. split; [|done]. revert Ht; destruct (negb (to =? minus1)); intros Ht; cbn; repeat constructor; try done; by apply Forall_inv in Ht as []. }
      destruct (cancelled =? 0) eqn:Hc; cbn [negb].
      2: { cbn. rewrite Hc. split; [done|]. split; [|done]. revert Ht; destruct (negb (to =? minus1)); intros Ht; cbn; repeat constructor; try done; by apply Forall_inv in Ht as []. }
      specialize (IH waits). unfold blocking_result in IH. destruct (do_io_loop event to (busy ++ r :: rest) waits) as [r' acts|acts]; cbn; rewrite Hc; [|exact IH].
      destruct IH as (H1 & H2 & H3). split; [exact H1|]. split; [| intros E; specialize (H3 E); destruct (negb (to =? minus1)); unfold count in *; cbn; by rewrite H3].
      revert Ht; destruct (negb (to =? minus1)); intros Ht; cbn; repeat constructor; try done; by apply Forall_inv in Ht as [].
Qed.


(** Whatever the environment answers, a hooked call that returns has
    cancelled every timer it armed; and when a wait is ended by the timeout,
    the call fails with the timer's error at once. *)
Theorem do_io_timers hook ctx event so calls waits r acts :
  do_io hook ctx event so calls waits = Returns r acts →
  count is_timer acts = count is_cancel acts ∧
  (∀ c busy e w ws tl, hook = true → ctx = Some c → blocking_socket c →
     calls = busy ++ IoErr EAGAIN :: tl → Forall (λ b, b = IoErr EINTR) busy →
     waits = Resumed w :: ws → w = e → e ≠ 0 → r = IoErr e).
Proof.
  intros E. split.
  - unfold do_io in E. destruct hook; cbn in E; [|destruct calls; [done|by injection E as <- <-]].
    destruct ctx as [c|]; [|destruct calls; [done|by injection E as <- <-]].
    destruct (m_isClosed c); [by injection E as <- <-|].
    destruct (_ || _); [destruct calls; [done|by injection E as <- <-]|by eapply do_io_loop_balanced].
  - intros c busy e w ws tl -> -> Hc -> Hb -> -> Hne. rewrite do_io_socket in E by done.
    revert acts E. induction Hb as [|b busy -> Hb IH]; intros acts E.
    + cbn in E. rewrite (proj2 (Z.eqb_neq e 0)) in E by done. cbn in E. by injection E.
    + cbn in E. destruct (do_io_loop _ _ _ _) as [r' acts'|] eqn:E'; [|done]. injection E as -> _. by eapply IH.
Qed.

(** The hooked nanosleep counts microseconds as milliseconds: for one
    millisecond it arms a timer of one second. *)
Lemma nanosleep_unit : nanosleep_ms 0 1000000 = 1000.
Proof. reflexivity. Qed.

(** The period of sleep is computed in 32 bits. *)
Lemma sleep_wraps : sleep_ms 4294968 = 704.
Proof. reflexivity. Qed.

(** ** A kernel for concrete runs *)

(** Flags of descriptors from 0 on; all are sockets. *)
Abbreviation dkern := (list Z).
Definition dflags (k : dkern) (fd : Z) : Z := default 0 (k !! Z.to_nat fd).
Definition dset (k : dkern) (fd f : Z) : Z * dkern :=
  if (0 <=? fd) && (fd <? zlen k) then (0, <[Z.to_nat fd := f]> k) else (-1, k).

#[global] Instance demo_kernel : Kernel dkern := {
  fstat_socket k fd := if (0 <=? fd) && (fd <? zlen k) then Some true else None;
  getfl k fd := if fd <? 0 then 0 else dflags k fd;
  setfl := dset;
  fionbio k fd on := dset k fd (if on then Z.lor (dflags k fd) O_NONBLOCK else Z.land (dflags k fd) (Z.lnot O_NONBLOCK));
  open_socket k := if zlen k <? 2 ^ 30 then (zlen k, k ++ [2]) else (-1, k);
  close_fd k fd := dset k fd 0
}.

Lemma dset_other k fd f rt k' fd' : dset k fd f = (rt, k') → fd' ≠ fd →
  (if fd' <? 0 then 0 else dflags k' fd') = (if fd' <? 0 then 0 else dflags k fd').
Proof.
  unfold dset, dflags. intros E Hne. destruct (Z.ltb_spec fd' 0); [done|].
  destruct (_ && _) eqn:Hb; injection E as <- <-; [|done].
  apply andb_true_iff in Hb as [H1%Z.leb_le _]. by rewrite list_lookup_insert_ne by lia.
Qed.

#[global] Instance demo_kernel_laws : KernelLaws dkern.
Proof.
  split; cbn -[dset].
  - intros k fd f k'. unfold dset. destruct (_ && _) eqn:Hb; intros [= <-].
    apply andb_true_iff in Hb as [H1%Z.leb_le H2%Z.ltb_lt]. rewrite (proj2 (Z.ltb_ge _ _)) by done.
    unfold dflags. rewrite list_lookup_insert_eq by (unfold zlen in *; lia). done.
  - intros k fd f. unfold dset. by destruct (_ && _).
  - intros k fd f rt k'. unfold dset. destruct (_ && _); intros [= <- <-]; done.
  - apply dset_other.
  - intros k fd k' fd'. destruct (zlen k <? 2 ^ 30); intros [= <- <-] Hne; [|done]. unfold dflags. destruct (Z.ltb_spec fd' 0); [done|].
    destruct (decide (fd' < zlen k)).
    + rewrite lookup_app_l by (unfold zlen in *; lia). done.
    + rewrite !lookup_ge_None_2; [done|unfold zlen in *; lia|rewrite length_app; cbn; unfold zlen in *; lia].
  - intros k fd rt k' fd'. apply dset_other.
Qed.

(** After one socket(), descriptor 3. *)
Definition demo_sys : Sys dkern :=
  match fexec FSocket (FdManager_new [0; 0; 0] true) with Ok _ s => s | _ => FdManager_new [] true end.

Lemma demo_fsteps : fsteps (FdManager_new [0; 0; 0] true) [FSocket] demo_sys.
Proof.
  apply (fsteps_snoc _ [] (FdManager_new [0; 0; 0] true)); [constructor| |vm_compute; reflexivity].
  right. split; [vm_compute; split; congruence|vm_compute; reflexivity].
Qed.

Definition demo_ctx : FdCtx := mkCtx true true true false false 3 minus1 minus1.

Lemma sockets_stay_nonblocking_witness :
  ctx_of 3 demo_sys = Some demo_ctx ∧ Z.testbit (getfl (kern demo_sys) 3) NB = true.
Proof.
  split; [vm_compute; reflexivity|].
  destruct (sockets_stay_nonblocking [0; 0; 0] [FSocket] demo_sys demo_fsteps) as [H _].
  apply (H 3 demo_ctx); [lia|vm_compute; reflexivity..].
Defined.

Definition demo_sys1 : Sys dkern :=
  match fcntl_F_SETFL 3 2 demo_sys with Ok _ s => s | _ => demo_sys end.

Lemma fcntl_user_view_witness : ∃ r, fcntl_F_GETFL 3 demo_sys1 = Ok r demo_sys1 ∧ Z.testbit r NB = false.
Proof.
  destruct (fsteps_inv _ _ _ (FdManager_new_inv [0; 0; 0]) eq_refl demo_fsteps) as [HI _].
  destruct (fcntl_user_view demo_sys 3 2 demo_ctx 0 demo_sys1 HI) as (r & E & Hr & _);
    [lia|vm_compute; reflexivity|reflexivity|vm_compute; reflexivity|].
  exists r. split; [exact E|exact Hr].
Defined.


Lemma do_io_timers_witness :
  ∃ acts, do_io true (Some (setTimeout SO_RCVTIMEO 100 demo_ctx)) READ SO_RCVTIMEO [IoErr EAGAIN] [Resumed ETIMEDOUT]
    = Returns (IoErr ETIMEDOUT) acts ∧ count is_timer acts = count is_cancel acts.
Proof.
  eexists. split; [vm_compute; reflexivity|].
  eapply (do_io_timers true (Some (setTimeout SO_RCVTIMEO 100 demo_ctx)) READ SO_RCVTIMEO [IoErr EAGAIN] [Resumed ETIMEDOUT]).
  vm_compute. reflexivity.
Defined.

(** ioctl(FIONBIO) with 0 reaches the kernel: the socket of a context that
    says m_sysNonblock then blocks the whole thread. *)
Lemma ioctl_makes_socket_block :
  ∃ s1, ioctl_FIONBIO 3 false demo_sys = Ok 0 s1 ∧ ctx_of 3 s1 = Some demo_ctx ∧
    Z.testbit (getfl (kern s1) 3) NB = false.
Proof. eexists. split; [vm_compute; reflexivity|]. split; vm_compute; reflexivity. Qed.
