(* ===== verification/CString.v ===== *)
(** std::string and the C string functions the code uses on it.

    A std::string is a list of characters. c_str() ends at the first NUL.
    strcasecmp compares the lower-case bytes as unsigned numbers (the C
    locale). *)

From stdpp Require Import base list strings sets.
From Stdlib Require Import Ascii Lia.
From S2P Require Import Prelude StdOrdered.

Abbreviation str := (list ascii).

(** A literal. *)
Definition L (s : string) : str := String.list_ascii_of_string s.

Definition NUL : ascii := ascii_of_nat 0.
Definition CR : ascii := ascii_of_nat 13.
Definition LF : ascii := ascii_of_nat 10.
Definition CRLF : str := [CR; LF].

(** s.c_str() as a C string. *)
Fixpoint c_str (s : str) : str :=
  match s with
  | [] => []
  | c :: s' => if bool_decide (c = NUL) then [] else c :: c_str s'
  end.

(** strcmp(a, b) == 0 for C strings. *)
Definition streq (a b : str) : bool := bool_decide (a = b).

(** strncmp(a, m, strlen(a)) == 0: [m] begins with [a]. *)
Fixpoint starts_with (a m : str) : bool :=
  match a, m with
  | [], _ => true
  | _ :: _, [] => false
  | x :: a', y :: m' => bool_decide (x = y) && starts_with a' m'
  end.

Definition tolower (c : ascii) : N :=
  let n := N_of_ascii c in
  if (N.leb 65 n && N.leb n 90)%bool then (n + 32)%N else n.

(** The order of byte strings. *)
Fixpoint lex_lt (a b : list N) : bool :=
  match a, b with
  | _, [] => false
  | [], _ :: _ => true
  | x :: a', y :: b' => N.ltb x y || (N.eqb x y && lex_lt a' b')
  end.

(** What strcasecmp looks at. *)
Definition casefold (s : str) : list N := tolower <$> c_str s.

(** strcasecmp(a.c_str(), b.c_str()) < 0, and == 0 *)
Definition strcasecmp_lt (a b : str) : bool := lex_lt (casefold a) (casefold b).
Definition strcasecmp_eq (a b : str) : bool := bool_decide (casefold a = casefold b).

(** std::string's operator< *)
Definition string_lt (a b : str) : bool := lex_lt (N_of_ascii <$> a) (N_of_ascii <$> b).

(** Decimal notation, as operator<< writes an unsigned number. *)
Definition digit (n : Z) : ascii := ascii_of_nat (48 + Z.to_nat n).
Fixpoint dec_loop (fuel : nat) (n : Z) (acc : str) : str :=
  match fuel with
  | O => acc
  | S fuel' =>
    let acc' := digit (n mod 10) :: acc in
    if n / 10 =? 0 then acc' else dec_loop fuel' (n / 10) acc'
  end.
(** 20 digits are enough for 64 bits. *)
Definition dec (n : Z) : str := dec_loop 20 n [].

(** std::to_string of an int *)
Definition to_string (n : Z) : str := if n <? 0 then "-"%char :: dec (- n) else dec n.

(** strtol(s, NULL, base) on the C string at [s], for base 10 and 16: spaces, a
    sign, digits; the result saturates at the ends of a long. A 0x prefix is
    skipped in base 16. *)
Definition isspace (c : ascii) : bool :=
  let n := N_of_ascii c in (N.leb 9 n && N.leb n 13 || N.eqb n 32)%bool.
Definition digit_val (base : Z) (c : ascii) : option Z :=
  let n := Z.of_N (N_of_ascii c) in
  let d := if (48 <=? n) && (n <=? 57) then n - 48
           else if (65 <=? n) && (n <=? 90) then n - 55
           else if (97 <=? n) && (n <=? 122) then n - 87
           else base in
  if d <? base then Some d else None.
Fixpoint skip_spaces (s : str) : str :=
  match s with c :: s' => if isspace c then skip_spaces s' else s | [] => [] end.
Fixpoint digits_loop (base acc : Z) (s : str) : Z :=
  match s with
  | [] => acc
  | c :: s' => match digit_val base c with Some d => digits_loop base (acc * base + d) s' | None => acc end
  end.
Definition skip_0x (base : Z) (s : str) : str :=
  match s with
  | z :: x :: c :: s' =>
    if (base =? 16) && bool_decide (z = "0"%char) && bool_decide (x = "x"%char ∨ x = "X"%char)
       && bool_decide (is_Some (digit_val 16 c)) then c :: s' else s
  | _ => s
  end.
Definition strtol (base : Z) (s : str) : Z :=
  let '(neg, s1) := match skip_spaces s with
                    | c :: s' => if bool_decide (c = "-"%char) then (true, s')
                                 else if bool_decide (c = "+"%char) then (false, s') else (false, c :: s')
                    | [] => (false, [])
                    end in
  let n := digits_loop base 0 (skip_0x base s1) in
  if (neg : bool) then Z.max (- 2 ^ 63) (- n) else Z.min (2 ^ 63 - 1) n.
(** atoi of glibc *)
Definition atoi (s : str) : Z := i32 (strtol 10 s).

(** ** Facts *)

Lemma lex_lt_irrefl a : lex_lt a a = false.
Proof. induction a as [|x a IH]; [done|]. cbn. rewrite N.ltb_irrefl, N.eqb_refl. done. Qed.

Lemma lex_lt_trans a b c : lex_lt a b = true → lex_lt b c = true → lex_lt a c = true.
Proof.
  revert b c. induction a as [|x a IH]; intros [|y b] [|z c]; cbn; try done.
  rewrite !orb_true_iff, !andb_true_iff, !N.ltb_lt, !N.eqb_eq.
  intros [H1|[H1 H2]] [H3|[H3 H4]]; [left; lia|left; lia|left; lia|].
  right. split; [lia|]. by eapply IH.
Qed.

Lemma lex_lt_total a b : lex_lt a b = false → lex_lt b a = false → a = b.
Proof.
  revert b. induction a as [|x a IH]; intros [|y b]; cbn; try done.
  rewrite !orb_false_iff, !andb_false_iff, !N.ltb_ge, !N.eqb_neq.
  intros [H1 H2] [H3 H4]. assert (x = y) as -> by lia. f_equal. apply IH; [by destruct H2|by destruct H4].
Qed.

#[global] Instance strcasecmp_strict : StrictWeak strcasecmp_lt.
Proof.
  split; unfold strcasecmp_lt.
  - intros x. apply lex_lt_irrefl.
  - intros x y z. apply lex_lt_trans.
  - intros x y z H1 H2 H3 H4. assert (casefold x = casefold z) as ->; [|by rewrite lex_lt_irrefl].
    transitivity (casefold y); by apply lex_lt_total.
Qed.

Lemma N_of_ascii_inj a b : N_of_ascii a = N_of_ascii b → a = b.
Proof. intros H. by rewrite <- (ascii_N_embedding a), <- (ascii_N_embedding b), H. Qed.

#[global] Instance N_of_ascii_inj_inst : Inj (=) (=) N_of_ascii := N_of_ascii_inj.

Lemma string_lt_total a b : string_lt a b = false → string_lt b a = false → a = b.
Proof. intros H1 H2. by apply (inj (fmap N_of_ascii)), lex_lt_total. Qed.

#[global] Instance string_strict : StrictWeak string_lt.
Proof.
  split; unfold string_lt.
  - intros x. apply lex_lt_irrefl.
  - intros x y z. apply lex_lt_trans.
  - intros x y z H1 H2 H3 H4. assert (x = z) as ->; [|by rewrite lex_lt_irrefl]. transitivity y; by apply string_lt_total.
Qed.

(** Strings as keys are equivalent when they are equal. *)
Lemma string_keq a b : keq string_lt a b ↔ a = b.
Proof.
  unfold keq, equivb. rewrite andb_true_iff, !negb_true_iff. split; [intros []; by apply string_lt_total|].
  intros ->. unfold string_lt. by rewrite lex_lt_irrefl.
Qed.

Lemma string_find_in {V} k (v : V) m : ordered string_lt fst m → map_find string_lt k m = Some v ↔ (k, v) ∈ m.
Proof.
  intros Hm. rewrite (map_find_in string_lt _ _ _ Hm). split.
  - by intros (k' & Hin & ->%string_keq).
  - intros Hin. exists k. split; [done|]. by apply string_keq.
Qed.

Lemma string_find_assign {V} j k (v : V) m :
  ordered string_lt fst m → map_find string_lt j (map_assign string_lt k v m) = if decide (j = k) then Some v else map_find string_lt j m.
Proof. intros Hm. rewrite (map_find_assign string_lt _ _ _ _ Hm). repeat case_decide; rewrite string_keq in *; done. Qed.

Lemma string_find_erase {V} j k (m : list (str * V)) :
  ordered string_lt fst m → map_find string_lt j (map_erase string_lt k m) = if decide (j = k) then None else map_find string_lt j m.
Proof. intros Hm. rewrite (map_find_erase string_lt _ _ _ Hm). repeat case_decide; rewrite string_keq in *; done. Qed.

(** Keys that differ in case only are the same key. *)
Lemma strcasecmp_equiv a b : equivb strcasecmp_lt a b = true ↔ casefold a = casefold b.
Proof.
  unfold equivb, strcasecmp_lt. rewrite andb_true_iff, !negb_true_iff. split.
  - intros [H1 H2]. by apply lex_lt_total.
  - intros ->. by rewrite lex_lt_irrefl.
Qed.

Lemma starts_with_spec a m : starts_with a m = true ↔ ∃ r, m = a ++ r.
Proof.
  revert m. induction a as [|x a IH]; intros m; cbn; [split; [by exists m|done]|].
  destruct m as [|y m]; [split; [done|by intros [r [=]]]|].
  rewrite andb_true_iff, bool_decide_eq_true, IH. split.
  - intros [-> [r ->]]. by exists r.
  - intros [r [= -> ->]]. split; [done|]. by exists r.
Qed.

(** A digit is not CR. *)
Lemma digit_not_CR n : 0 ≤ n < 10 → digit n ≠ CR.
Proof.
  intros Hn. assert (n = 0 ∨ n = 1 ∨ n = 2 ∨ n = 3 ∨ n = 4 ∨ n = 5 ∨ n = 6 ∨ n = 7 ∨ n = 8 ∨ n = 9) as H by lia.
  repeat destruct H as [->|H]; try (vm_compute; congruence). subst n. vm_compute. congruence.
Qed.

Lemma dec_loop_no_CR fuel n acc : CR ∉ acc → CR ∉ dec_loop fuel n acc.
Proof.
  revert n acc. induction fuel as [|fuel IH]; intros n acc Ha; [done|]. cbn.
  assert (CR ∉ digit (n mod 10) :: acc) as Ha'.
  { intros [E|Hin]%elem_of_cons; [|done]. symmetry in E. revert E. apply digit_not_CR, Z.mod_pos_bound. lia. }
  destruct (n / 10 =? 0); [done|]. by apply IH.
Qed.

Lemma dec_no_CR n : CR ∉ dec n.
Proof. apply dec_loop_no_CR. set_solver. Qed.
