(* ===== verification/Http.v ===== *)
(** HTTP messages (skt/http/http.h, skt/http/http.cpp) and the callbacks that
    fill them (skt/http/http_parser.cpp).

    The maps of headers, parameters and cookies are std::map with
    CaseInsensitiveLess (StdOrdered). The generated state machines
    that call the callbacks are in HttpTable and ClientTable. *)

From stdpp Require Import base list strings sets.
From Stdlib Require Import Ascii Lia.
From S2P Require Import Prelude StdOrdered CString.

(** ** Methods and status codes *)

Inductive HttpMethod : Type :=
| DELETE
| GET
| HEAD
| POST
| PUT
| CONNECT
| OPTIONS
| TRACE
| COPY
| LOCK
| MKCOL
| MOVE
| PROPFIND
| PROPPATCH
| SEARCH
| UNLOCK
| BIND
| REBIND
| UNBIND
| ACL
| REPORT
| MKACTIVITY
| CHECKOUT
| MERGE
| MSEARCH
| NOTIFY
| SUBSCRIBE
| UNSUBSCRIBE
| PATCH
| PURGE
| MKCALENDAR
| LINK
| UNLINK
| SOURCE
| INVALID_METHOD.

#[global] Instance HttpMethod_eq_dec : EqDecision HttpMethod.
Proof. solve_decision. Defined.

Definition HTTP_METHOD_MAP : list (HttpMethod * string) :=
  [ (DELETE, "DELETE");
    (GET, "GET");
    (HEAD, "HEAD");
    (POST, "POST");
    (PUT, "PUT");
    (CONNECT, "CONNECT");
    (OPTIONS, "OPTIONS");
    (TRACE, "TRACE");
    (COPY, "COPY");
    (LOCK, "LOCK");
    (MKCOL, "MKCOL");
    (MOVE, "MOVE");
    (PROPFIND, "PROPFIND");
    (PROPPATCH, "PROPPATCH");
    (SEARCH, "SEARCH");
    (UNLOCK, "UNLOCK");
    (BIND, "BIND");
    (REBIND, "REBIND");
    (UNBIND, "UNBIND");
    (ACL, "ACL");
    (REPORT, "REPORT");
    (MKACTIVITY, "MKACTIVITY");
    (CHECKOUT, "CHECKOUT");
    (MERGE, "MERGE");
    (MSEARCH, "M-SEARCH");
    (NOTIFY, "NOTIFY");
    (SUBSCRIBE, "SUBSCRIBE");
    (UNSUBSCRIBE, "UNSUBSCRIBE");
    (PATCH, "PATCH");
    (PURGE, "PURGE");
    (MKCALENDAR, "MKCALENDAR");
    (LINK, "LINK");
    (UNLINK, "UNLINK");
    (SOURCE, "SOURCE") ].

(** The status codes with their texts. An HttpStatus is its number: the
    response parser casts any number to it. *)
Definition HTTP_STATUS_MAP : list (Z * string) :=
  [ (100, "Continue");
    (101, "Switching Protocols");
    (102, "Processing");
    (200, "OK");
    (201, "Created");
    (202, "Accepted");
    (203, "Non-Authoritative Information");
    (204, "No Content");
    (205, "Reset Content");
    (206, "Partial Content");
    (207, "Multi-Status");
    (208, "Already Reported");
    (226, "IM Used");
    (300, "Multiple Choices");
    (301, "Moved Permanently");
    (302, "Found");
    (303, "See Other");
    (304, "Not Modified");
    (305, "Use Proxy");
    (307, "Temporary Redirect");
    (308, "Permanent Redirect");
    (400, "Bad Request");
    (401, "Unauthorized");
    (402, "Payment Required");
    (403, "Forbidden");
    (404, "Not Found");
    (405, "Method Not Allowed");
    (406, "Not Acceptable");
    (407, "Proxy Authentication Required");
    (408, "Request Timeout");
    (409, "Conflict");
    (410, "Gone");
    (411, "Length Required");
    (412, "Precondition Failed");
    (413, "Payload Too Large");
    (414, "URI Too Long");
    (415, "Unsupported Media Type");
    (416, "Range Not Satisfiable");
    (417, "Expectation Failed");
    (421, "Misdirected Request");
    (422, "Unprocessable Entity");
    (423, "Locked");
    (424, "Failed Dependency");
    (426, "Upgrade Required");
    (428, "Precondition Required");
    (429, "Too Many Requests");
    (431, "Request Header Fields Too Large");
    (451, "Unavailable For Legal Reasons");
    (500, "Internal Server Error");
    (501, "Not Implemented");
    (502, "Bad Gateway");
    (503, "Service Unavailable");
    (504, "Gateway Timeout");
    (505, "HTTP Version Not Supported");
    (506, "Variant Also Negotiates");
    (507, "Insufficient Storage");
    (508, "Loop Detected");
    (510, "Not Extended");
    (511, "Network Authentication Required") ].

(** The first entry of the table whose text passes the test. *)
Fixpoint first_method (p : str → bool) (t : list (HttpMethod * string)) : HttpMethod :=
  match t with
  | [] => INVALID_METHOD
  | (m, s) :: t' => if p (L s) then m else first_method p t'
  end.

Definition StringToHttpMethod (m : str) : HttpMethod :=
  first_method (λ s, streq s (c_str m)) HTTP_METHOD_MAP.

(** [m] is the C string at the pointer. *)
Definition CharsToHttpMethod (m : str) : HttpMethod :=
  first_method (λ s, starts_with s m) HTTP_METHOD_MAP.

(** The number of an enumerator: its place in the table. *)
Fixpoint method_index (m : HttpMethod) (t : list (HttpMethod * string)) : nat :=
  match t with
  | [] => 0
  | (m', _) :: t' => if bool_decide (m = m') then 0 else S (method_index m t')
  end.

Definition s_method_string : list string := snd <$> HTTP_METHOD_MAP.

Definition HttpMethodToString (m : HttpMethod) : string :=
  match s_method_string !! method_index m HTTP_METHOD_MAP with
  | Some s => s
  | None => "<UNKONW>"
  end.

Fixpoint status_text (s : Z) (t : list (Z * string)) : string :=
  match t with
  | [] => "<unkonw>"
  | (code, desc) :: t' => if s =? code then desc else status_text s t'
  end.
Definition HttpStatusToString (s : Z) : string := status_text s HTTP_STATUS_MAP.

(** ** Maps *)

(** CaseInsensitiveLess *)
Definition CaseInsensitiveLess (lhs rhs : str) : bool := strcasecmp_lt lhs rhs.

#[global] Instance CaseInsensitiveLess_strict : StrictWeak CaseInsensitiveLess := strcasecmp_strict.

Abbreviation MapType := (list (str * str)).

Definition map_get (m : MapType) (key def : str) : str :=
  match map_find CaseInsensitiveLess key m with Some v => v | None => def end.
Definition map_set (m : MapType) (key v : str) : MapType := map_assign CaseInsensitiveLess key v m.
Definition map_del (m : MapType) (key : str) : MapType := map_erase CaseInsensitiveLess key m.
(** The pair (found, value of *val afterwards). *)
Definition map_has (m : MapType) (key val : str) : bool * str :=
  match map_find CaseInsensitiveLess key m with Some v => (true, v) | None => (false, val) end.

(** checkGetAs and getAs; [lexical_cast] is None when it throws. *)
Definition checkGetAs {T} (lexical_cast : str → option T) (m : MapType) (key : str) (def : T) : bool * T :=
  match map_find CaseInsensitiveLess key m with
  | None => (false, def)
  | Some s => match lexical_cast s with Some v => (true, v) | None => (false, def) end
  end.
Definition getAs {T} (lexical_cast : str → option T) (m : MapType) (key : str) (def : T) : T :=
  match map_find CaseInsensitiveLess key m with
  | None => def
  | Some s => match lexical_cast s with Some v => v | None => def end
  end.

(** ** Requests

    m_status, which no constructor sets and dump does not print, is left out. *)

Record HttpRequest : Type := mkReq {
  q_method : HttpMethod;
  q_version : Z;
  q_close : bool;
  q_path : str;
  q_query : str;
  q_fragment : str;
  q_body : str;
  q_headers : MapType;
  q_params : MapType;
  q_cookies : MapType
}.

Definition HttpRequest_new (version : Z) (close : bool) : HttpRequest :=
  mkReq GET version close (L "/") [] [] [] [] [] [].

Definition q_setMethod (v : HttpMethod) (r : HttpRequest) : HttpRequest :=
  mkReq v (q_version r) (q_close r) (q_path r) (q_query r) (q_fragment r) (q_body r) (q_headers r) (q_params r) (q_cookies r).
Definition q_setVersion (v : Z) (r : HttpRequest) : HttpRequest :=
  mkReq (q_method r) v (q_close r) (q_path r) (q_query r) (q_fragment r) (q_body r) (q_headers r) (q_params r) (q_cookies r).
Definition q_setClose (v : bool) (r : HttpRequest) : HttpRequest :=
  mkReq (q_method r) (q_version r) v (q_path r) (q_query r) (q_fragment r) (q_body r) (q_headers r) (q_params r) (q_cookies r).
Definition q_setPath (v : str) (r : HttpRequest) : HttpRequest :=
  mkReq (q_method r) (q_version r) (q_close r) v (q_query r) (q_fragment r) (q_body r) (q_headers r) (q_params r) (q_cookies r).
Definition q_setQuery (v : str) (r : HttpRequest) : HttpRequest :=
  mkReq (q_method r) (q_version r) (q_close r) (q_path r) v (q_fragment r) (q_body r) (q_headers r) (q_params r) (q_cookies r).
Definition q_setFragment (v : str) (r : HttpRequest) : HttpRequest :=
  mkReq (q_method r) (q_version r) (q_close r) (q_path r) (q_query r) v (q_body r) (q_headers r) (q_params r) (q_cookies r).
Definition q_setBody (v : str) (r : HttpRequest) : HttpRequest :=
  mkReq (q_method r) (q_version r) (q_close r) (q_path r) (q_query r) (q_fragment r) v (q_headers r) (q_params r) (q_cookies r).
Definition q_setHeaders (v : MapType) (r : HttpRequest) : HttpRequest :=
  mkReq (q_method r) (q_version r) (q_close r) (q_path r) (q_query r) (q_fragment r) (q_body r) v (q_params r) (q_cookies r).
Definition q_setParams (v : MapType) (r : HttpRequest) : HttpRequest :=
  mkReq (q_method r) (q_version r) (q_close r) (q_path r) (q_query r) (q_fragment r) (q_body r) (q_headers r) v (q_cookies r).
Definition q_setCookies (v : MapType) (r : HttpRequest) : HttpRequest :=
  mkReq (q_method r) (q_version r) (q_close r) (q_path r) (q_query r) (q_fragment r) (q_body r) (q_headers r) (q_params r) v.

Definition q_getHeader (r : HttpRequest) (key def : str) : str := map_get (q_headers r) key def.
Definition q_getParam (r : HttpRequest) (key def : str) : str := map_get (q_params r) key def.
Definition q_getCookie (r : HttpRequest) (key def : str) : str := map_get (q_cookies r) key def.
Definition q_setHeader (key v : str) (r : HttpRequest) : HttpRequest := q_setHeaders (map_set (q_headers r) key v) r.
Definition q_setParam (key v : str) (r : HttpRequest) : HttpRequest := q_setParams (map_set (q_params r) key v) r.
Definition q_setCookie (key v : str) (r : HttpRequest) : HttpRequest := q_setCookies (map_set (q_cookies r) key v) r.
Definition q_delHeader (key : str) (r : HttpRequest) : HttpRequest := q_setHeaders (map_del (q_headers r) key) r.
Definition q_delParam (key : str) (r : HttpRequest) : HttpRequest := q_setParams (map_del (q_params r) key) r.
Definition q_delCookie (key : str) (r : HttpRequest) : HttpRequest := q_setCookies (map_del (q_cookies r) key) r.
Definition q_hasHeader (r : HttpRequest) (key val : str) : bool * str := map_has (q_headers r) key val.
Definition q_hasParam (r : HttpRequest) (key val : str) : bool * str := map_has (q_params r) key val.
Definition q_hasCookie (r : HttpRequest) (key val : str) : bool * str := map_has (q_cookies r) key val.

(** "HTTP/" and the two nibbles of the version. *)
Definition version_str (v : Z) : str :=
  L "HTTP/" ++ dec (Z.shiftr v 4) ++ L "." ++ dec (Z.land v 15).

Definition is_connection (key : str) : bool := strcasecmp_eq key (L "connection").

(** The header lines, without connection; [sep] is between name and value. *)
Fixpoint dump_headers (sep : str) (m : MapType) : str :=
  match m with
  | [] => []
  | (k, v) :: m' =>
    if is_connection k then dump_headers sep m'
    else k ++ sep ++ v ++ CRLF ++ dump_headers sep m'
  end.

Definition dump_body (body : str) : str :=
  match body with
  | [] => CRLF
  | _ => L "content-length: " ++ dec (zlen body) ++ CRLF ++ CRLF ++ body
  end.

(** HttpRequest::dump and toString *)
Definition q_dump (r : HttpRequest) : str :=
  L (HttpMethodToString (q_method r)) ++ L " " ++ q_path r
  ++ (match q_query r with [] => [] | _ => L "?" end) ++ q_query r
  ++ (match q_fragment r with [] => [] | _ => L "#" end) ++ q_fragment r
  ++ L " " ++ version_str (q_version r) ++ CRLF
  ++ L "connection: " ++ (if q_close r then L "close" else L "keep=alive") ++ CRLF
  ++ dump_headers (L ":") (q_headers r)
  ++ dump_body (q_body r).

(** ** Responses *)

Record HttpResponse : Type := mkRsp {
  p_status : Z;
  p_version : Z;
  p_close : bool;
  p_body : str;
  p_reason : str;
  p_headers : MapType
}.

Definition HttpResponse_new (version : Z) (close : bool) : HttpResponse := mkRsp 200 version close [] [] [].

Definition p_setStatus (v : Z) (r : HttpResponse) : HttpResponse :=
  mkRsp v (p_version r) (p_close r) (p_body r) (p_reason r) (p_headers r).
Definition p_setVersion (v : Z) (r : HttpResponse) : HttpResponse :=
  mkRsp (p_status r) v (p_close r) (p_body r) (p_reason r) (p_headers r).
Definition p_setBody (v : str) (r : HttpResponse) : HttpResponse :=
  mkRsp (p_status r) (p_version r) (p_close r) v (p_reason r) (p_headers r).
Definition p_setReason (v : str) (r : HttpResponse) : HttpResponse :=
  mkRsp (p_status r) (p_version r) (p_close r) (p_body r) v (p_headers r).
Definition p_setHeaders (v : MapType) (r : HttpResponse) : HttpResponse :=
  mkRsp (p_status r) (p_version r) (p_close r) (p_body r) (p_reason r) v.
Definition p_setClose (v : bool) (r : HttpResponse) : HttpResponse :=
  mkRsp (p_status r) (p_version r) v (p_body r) (p_reason r) (p_headers r).
Definition p_getHeader (r : HttpResponse) (key def : str) : str := map_get (p_headers r) key def.
Definition p_setHeader (key v : str) (r : HttpResponse) : HttpResponse := p_setHeaders (map_set (p_headers r) key v) r.
Definition p_delHeader (key : str) (r : HttpResponse) : HttpResponse := p_setHeaders (map_del (p_headers r) key) r.

(** HttpResponse::dump and toString *)
Definition p_dump (r : HttpResponse) : str :=
  version_str (p_version r) ++ L " " ++ dec (u32 (p_status r)) ++ L " "
  ++ (match p_reason r with [] => L (HttpStatusToString (p_status r)) | reason => reason end) ++ CRLF
  ++ dump_headers (L ": ") (p_headers r)
  ++ L "connection: " ++ (if p_close r then L "close" else L "keep-alive") ++ CRLF
  ++ dump_body (p_body r).

(** ** Parser callbacks *)

(** HttpRequestParser without its state machine m_parser (HttpParser.v). *)
Record HttpRequestParser : Type := mkQP { qp_data : HttpRequest; qp_error : Z }.

Definition HttpRequestParser_new : HttpRequestParser := mkQP (HttpRequest_new 17 true) 0.
Definition qp_upd (f : HttpRequest → HttpRequest) (p : HttpRequestParser) : HttpRequestParser :=
  mkQP (f (qp_data p)) (qp_error p).
Definition qp_setError (e : Z) (p : HttpRequestParser) : HttpRequestParser :=
  mkQP (qp_data p) e.

(** A callback gets a pointer into the buffer, [at_] is the text from there to
    the end of the buffer, and a length. *)
Definition on_request_method (at_ : str) (length : nat) (p : HttpRequestParser) : HttpRequestParser :=
  let m := CharsToHttpMethod at_ in
  if bool_decide (m = INVALID_METHOD) then qp_setError 1000 p else qp_upd (q_setMethod m) p.
Definition on_request_uri (at_ : str) (length : nat) (p : HttpRequestParser) : HttpRequestParser := p.
Definition on_request_fragment (at_ : str) (length : nat) (p : HttpRequestParser) : HttpRequestParser :=
  qp_upd (q_setFragment (take length at_)) p.
Definition on_request_path (at_ : str) (length : nat) (p : HttpRequestParser) : HttpRequestParser :=
  qp_upd (q_setPath (take length at_)) p.
Definition on_request_query (at_ : str) (length : nat) (p : HttpRequestParser) : HttpRequestParser :=
  qp_upd (q_setQuery (take length at_)) p.

(** strncmp(at, s, length) == 0 for a literal [s] *)
Definition strncmp_eq (at_ s : str) (length : nat) : bool :=
  bool_decide (take length (c_str at_) = take length s).
Definition version_of (at_ : str) (length : nat) : option Z :=
  if strncmp_eq at_ (L "HTTP/1.1") length then Some 17
  else if strncmp_eq at_ (L "HTTP/1.0") length then Some 16
  else None.

Definition on_request_version (at_ : str) (length : nat) (p : HttpRequestParser) : HttpRequestParser :=
  match version_of at_ length with
  | Some v => qp_upd (q_setVersion v) p
  | None => qp_setError 1001 p
  end.
Definition on_request_header_done (at_ : str) (length : nat) (p : HttpRequestParser) : HttpRequestParser := p.
Definition on_request_http_filed (field : str) (flen : nat) (value : str) (vlen : nat) (p : HttpRequestParser)
  : HttpRequestParser :=
  match flen with
  | O => p
  | _ => qp_upd (q_setHeader (take flen field) (take vlen value)) p
  end.

(** HttpRequestParser::hasError; [fsm_error] is http_parser_has_error. *)
Definition qp_hasError (fsm_error : bool) (p : HttpRequestParser) : bool := negb (qp_error p =? 0) && fsm_error.

(** HttpRequestParser::getContentLength *)
Definition qp_getContentLength (lexical_cast : str → option Z) (p : HttpRequestParser) : Z :=
  getAs lexical_cast (q_headers (qp_data p)) (L "content-length") 0.

Record HttpResponseParser : Type := mkPP { pp_data : HttpResponse; pp_error : Z }.

Definition HttpResponseParser_new : HttpResponseParser := mkPP (HttpResponse_new 17 true) 0.
Definition pp_upd (f : HttpResponse → HttpResponse) (p : HttpResponseParser) : HttpResponseParser :=
  mkPP (f (pp_data p)) (pp_error p).
Definition pp_setError (e : Z) (p : HttpResponseParser) : HttpResponseParser :=
  mkPP (pp_data p) e.

Definition on_response_reason (at_ : str) (length : nat) (p : HttpResponseParser) : HttpResponseParser :=
  pp_upd (p_setReason (take length at_)) p.
Definition on_response_status (at_ : str) (length : nat) (p : HttpResponseParser) : HttpResponseParser :=
  pp_upd (p_setStatus (atoi at_)) p.
Definition on_response_chunk (at_ : str) (length : nat) (p : HttpResponseParser) : HttpResponseParser := p.
Definition on_response_version (at_ : str) (length : nat) (p : HttpResponseParser) : HttpResponseParser :=
  match version_of at_ length with
  | Some v => pp_upd (p_setVersion v) p
  | None => pp_setError 1001 p
  end.
Definition on_response_header_done (at_ : str) (length : nat) (p : HttpResponseParser) : HttpResponseParser := p.
Definition on_response_last_chunk (at_ : str) (length : nat) (p : HttpResponseParser) : HttpResponseParser := p.
Definition on_response_http_filed (field : str) (flen : nat) (value : str) (vlen : nat) (p : HttpResponseParser)
  : HttpResponseParser :=
  match flen with
  | O => p
  | _ => pp_upd (p_setHeader (take flen field) (take vlen value)) p
  end.
Definition pp_hasError (fsm_error : bool) (p : HttpResponseParser) : bool := fsm_error || negb (pp_error p =? 0).
Definition pp_getContentLength (lexical_cast : str → option Z) (p : HttpResponseParser) : Z :=
  getAs lexical_cast (p_headers (pp_data p)) (L "content-length") 0.
