(* ===== verification/HttpProps.v ===== *)
(** Properties of HTTP messages. *)

From stdpp Require Import base list strings sets.
From Stdlib Require Import Ascii Lia.
From S2P Require Import Prelude StdOrdered CString Http.

(** ** Header maps *)

Definition map_ok (m : MapType) : Prop := ordered CaseInsensitiveLess fst m.

Lemma key_equiv k k' : keq CaseInsensitiveLess k k' ↔ casefold k = casefold k'.
Proof. apply strcasecmp_equiv. Qed.

Lemma map_get_set m k v k' def :
  map_ok m →
  map_get (map_set m k v) k' def = (if bool_decide (casefold k' = casefold k) then v else map_get m k' def).
Proof.
  intros Hm. unfold map_get, map_set. rewrite (map_find_assign CaseInsensitiveLess k' k v m Hm).
  case_decide as Hk; rewrite key_equiv in Hk; [by rewrite bool_decide_true|by rewrite bool_decide_false].
Qed.

Lemma map_get_del m k k' def :
  map_ok m →
  map_get (map_del m k) k' def = (if bool_decide (casefold k' = casefold k) then def else map_get m k' def).
Proof.
  intros Hm. unfold map_get, map_del. rewrite (map_find_erase CaseInsensitiveLess k' k m Hm).
  case_decide as Hk; rewrite key_equiv in Hk; [by rewrite bool_decide_true|by rewrite bool_decide_false].
Qed.

(** The header map of a request behaves as a map whose keys are compared
    without regard to case: setHeader is seen by getHeader under every spelling
    of the key and under no other key, delHeader removes exactly that key, and
    both keep the map's order, on which every later lookup depends. *)
Theorem headers_ignore_case r k v k' def :
  map_ok (q_headers r) →
  q_getHeader (q_setHeader k v r) k' def
    = (if bool_decide (casefold k' = casefold k) then v else q_getHeader r k' def) ∧
  q_getHeader (q_delHeader k r) k' def
    = (if bool_decide (casefold k' = casefold k) then def else q_getHeader r k' def) ∧
  map_ok (q_headers (q_setHeader k v r)) ∧ map_ok (q_headers (q_delHeader k r)).
Proof.
  intros Hm. split; [by apply map_get_set|]. split; [by apply map_get_del|].
  split; [by apply (map_assign_ordered CaseInsensitiveLess)|by apply (map_erase_ordered CaseInsensitiveLess)].
Qed.

(** ** Methods *)

(** Every method is recovered from its text: StringToHttpMethod from the
    text alone, CharsToHttpMethod from the text followed by anything (no method
    text is a prefix of another); and StringToHttpMethod accepts no other
    text. *)
Theorem method_text_roundtrip m rest s :
  (m ≠ INVALID_METHOD →
   StringToHttpMethod (L (HttpMethodToString m)) = m ∧
   CharsToHttpMethod (L (HttpMethodToString m) ++ rest) = m) ∧
  (StringToHttpMethod s ≠ INVALID_METHOD → L (HttpMethodToString (StringToHttpMethod s)) = c_str s).
Proof.
  split; [intros Hm; destruct m; try done; split; reflexivity|].
  assert (∀ t, Forall (λ e, HttpMethodToString (fst e) = snd e) t →
    first_method (λ x, streq x (c_str s)) t ≠ INVALID_METHOD →
    L (HttpMethodToString (first_method (λ x, streq x (c_str s)) t)) = c_str s) as Ht.
  { intros t. induction 1 as [|[m' x] t Hx _ IH]; [done|]. cbn. unfold streq at 1 3.
    case_bool_decide as E; [|exact IH]. intros _. cbn in Hx. by rewrite Hx. }
  apply Ht. by repeat constructor.
Qed.

(** ** The shape of a dump *)

(** What a reader of the stream takes for the head: everything up to the first
    empty line. *)
Fixpoint head_end (s : str) : option (str * str) :=
  match s with
  | [] => None
  | c :: s' =>
    match s with
    | c1 :: c2 :: c3 :: c4 :: rest =>
      if bool_decide (c1 = CR) && bool_decide (c2 = LF) && bool_decide (c3 = CR) && bool_decide (c4 = LF)
      then Some ([], rest)
      else match head_end s' with Some (h, b) => Some (c :: h, b) | None => None end
    | _ => match head_end s' with Some (h, b) => Some (c :: h, b) | None => None end
    end
  end.

(** A line of the head. *)
Definition line_ok (l : str) : Prop := l ≠ [] ∧ (CR ∉ l).

Lemma head_end_found b : head_end (CRLF ++ CRLF ++ b) = Some ([], b).
Proof. reflexivity. Qed.

Lemma head_end_skip c s h b :
  (c ≠ CR ∨ ∃ x y, s = LF :: x :: y ∧ x ≠ CR) → head_end s = Some (h, b) → head_end (c :: s) = Some (c :: h, b).
Proof.
  intros Hc E. cbn [head_end]. rewrite E. destruct s as [|c2 [|c3 [|c4 rest]]]; try done.
  destruct Hc as [Hc|(x & y & [= -> <- <-] & Hx)].
  - by rewrite (bool_decide_false (c = CR)).
  - rewrite (bool_decide_false (c3 = CR)) by done. by rewrite andb_false_r.
Qed.

Lemma head_end_line l s h b : CR ∉ l → head_end s = Some (h, b) → head_end (l ++ s) = Some (l ++ h, b).
Proof.
  induction l as [|c l IH]; intros Hl E; [done|]. cbn [app]. apply head_end_skip; [left; set_solver|].
  apply IH; [set_solver|done].
Qed.

(** Lines, each ended by CRLF, then an empty line. *)
Fixpoint lines (ls : list str) : str := match ls with [] => [] | l :: ls' => l ++ CRLF ++ lines ls' end.

(** The head of a message: its lines with CRLF between them. *)
Fixpoint join_lines (l : str) (ls : list str) : str :=
  match ls with [] => l | l' :: ls' => l ++ CRLF ++ join_lines l' ls' end.

Lemma head_end_lines l ls b :
  Forall line_ok (l :: ls) → head_end (lines (l :: ls) ++ CRLF ++ b) = Some (join_lines l ls, b).
Proof.
  revert l. induction ls as [|l' ls IH]; intros l Hls; apply Forall_cons_1 in Hls as [[_ Hl] Hls].
  - cbn [lines]. rewrite app_nil_r, <- !(assoc_L (++)). cbn [join_lines]. rewrite <- (app_nil_r l) at 2.
    by apply head_end_line.
  - cbn [lines join_lines]. rewrite <- !(assoc_L (++)). apply head_end_line; [done|].
    pose proof (IH l' Hls) as E. apply Forall_cons_1 in Hls as [[Hne Hl'] _].
    cbn [lines] in E. rewrite <- !(assoc_L (++)) in E. destruct l' as [|c l']; [done|].
    unfold CRLF at 1 3. cbn [app]. apply head_end_skip.
    { right. eexists c, _. split; [reflexivity|]. set_solver. }
    apply head_end_skip; [left; by vm_compute|]. exact E.
Qed.

(** The lines dump writes for the header map. *)
Definition header_lines (sep : str) (m : MapType) : list str :=
  (λ kv, kv.1 ++ sep ++ kv.2) <$> filter (λ kv, is_connection kv.1 = false) m.

Lemma dump_headers_lines sep m : dump_headers sep m = lines (header_lines sep m).
Proof.
  induction m as [|[k v] m IH]; [done|]. unfold header_lines in *. cbn [dump_headers].
  destruct (is_connection k) eqn:Hk.
  - rewrite filter_cons_False by (cbn; congruence). done.
  - rewrite filter_cons_True by done. cbn. by rewrite IH, <- !(assoc_L (++)).
Qed.

Lemma lines_app l1 l2 : lines (l1 ++ l2) = lines l1 ++ lines l2.
Proof. induction l1 as [|l l1 IH]; [done|]. cbn. by rewrite IH, <- !(assoc_L (++)). Qed.

(** The line for the body's length. *)
Definition length_line (body : str) : list str :=
  match body with [] => [] | _ => [L "content-length: " ++ dec (zlen body)] end.

Lemma dump_body_lines body : dump_body body = lines (length_line body) ++ CRLF ++ body.
Proof. unfold dump_body, length_line. destruct body; [done|]. cbn. by rewrite <- !(assoc_L (++)). Qed.

Definition status_line (r : HttpResponse) : str :=
  version_str (p_version r) ++ L " " ++ dec (u32 (p_status r)) ++ L " "
  ++ (match p_reason r with [] => L (HttpStatusToString (p_status r)) | reason => reason end).
Definition connection_line (close : bool) (alive : string) : str :=
  L "connection: " ++ (if close then L "close" else L alive).
Definition request_line (r : HttpRequest) : str :=
  L (HttpMethodToString (q_method r)) ++ L " " ++ q_path r
  ++ (match q_query r with [] => [] | _ => L "?" end) ++ q_query r
  ++ (match q_fragment r with [] => [] | _ => L "#" end) ++ q_fragment r
  ++ L " " ++ version_str (q_version r).

(** No text of the message contains CR. *)
Definition clean_map (m : MapType) : Prop := Forall (λ kv, (CR ∉ kv.1) ∧ (CR ∉ kv.2)) m.
Definition clean_rsp (r : HttpResponse) : Prop := (CR ∉ p_reason r) ∧ clean_map (p_headers r).
Definition clean_req (r : HttpRequest) : Prop :=
  (CR ∉ q_path r) ∧ (CR ∉ q_query r) ∧ (CR ∉ q_fragment r) ∧ clean_map (q_headers r).

Lemma CR_app (a b : str) : CR ∉ a → CR ∉ b → CR ∉ a ++ b.
Proof. set_solver. Qed.

Lemma L_no_CR s : forallb (λ c, negb (bool_decide (c = CR))) (L s) = true → CR ∉ L s.
Proof.
  rewrite forallb_forall. intros H Hin. apply list_elem_of_In in Hin. specialize (H _ Hin).
  by rewrite bool_decide_true in H.
Qed.

#[local] Ltac no_CR := repeat apply CR_app; try (by apply L_no_CR); try apply dec_no_CR; try done.

Lemma status_text_no_CR s : CR ∉ L (HttpStatusToString s).
Proof.
  apply L_no_CR. unfold HttpStatusToString.
  assert (∀ t, Forall (λ e : Z * string, forallb (λ c, negb (bool_decide (c = CR))) (L (snd e)) = true) t →
    forallb (λ c, negb (bool_decide (c = CR))) (L (status_text s t)) = true) as Ht.
  { intros t. induction 1 as [|[code d] t Hd _ IH]; [done|]. cbn. by destruct (s =? code). }
  apply Ht. by repeat constructor.
Qed.

Lemma method_text_no_CR m : CR ∉ L (HttpMethodToString m).
Proof. apply L_no_CR. by destruct m. Qed.

Lemma header_lines_ok sep m :
  clean_map m → sep ≠ [] → CR ∉ sep → Forall line_ok (header_lines sep m).
Proof.
  intros Hm Hs1 Hs2. unfold header_lines. apply Forall_fmap, Forall_forall.
  intros [k v] [_ Hin]%list_elem_of_filter. unfold clean_map in Hm. rewrite Forall_forall in Hm.
  destruct (Hm _ Hin) as [H1 H2]. cbn in *. split.
  - intros E. apply app_eq_nil in E as [_ E]. apply app_eq_nil in E as [E _]. done.
  - by apply CR_app; [|apply CR_app].
Qed.

Lemma length_line_ok body : Forall line_ok (length_line body).
Proof. unfold length_line. destruct body; constructor; [|constructor]. split; [done|]. no_CR. Qed.

Lemma connection_line_ok close alive :
  forallb (λ c, negb (bool_decide (c = CR))) (L alive) = true → line_ok (connection_line close alive).
Proof. intros Ha. split; [done|]. unfold connection_line. destruct close; no_CR. Qed.

(** The dumps, line by line. *)
Definition rsp_lines (r : HttpResponse) : list str :=
  header_lines (L ": ") (p_headers r) ++ connection_line (p_close r) "keep-alive" :: length_line (p_body r).
Definition req_lines (q : HttpRequest) : list str :=
  connection_line (q_close q) "keep=alive" :: header_lines (L ":") (q_headers q) ++ length_line (q_body q).

Lemma p_dump_lines r : p_dump r = lines (status_line r :: rsp_lines r) ++ CRLF ++ p_body r.
Proof.
  unfold p_dump, rsp_lines. rewrite dump_headers_lines, dump_body_lines. cbn [lines]. rewrite lines_app.
  cbn [lines]. unfold status_line, connection_line. by rewrite <- !(assoc_L (++)).
Qed.

Lemma q_dump_lines q : q_dump q = lines (request_line q :: req_lines q) ++ CRLF ++ q_body q.
Proof.
  unfold q_dump, req_lines. rewrite dump_headers_lines, dump_body_lines. cbn [lines]. rewrite lines_app.
  unfold request_line, connection_line. by rewrite <- !(assoc_L (++)).
Qed.

(** A reader that splits the text of a response or request at its first
    empty line gets exactly the body, and before it the status or request
    line, each header once except connection, one connection line, and the
    length of a body that is not empty; as long as no header, path or reason
    contains a CR. *)
Theorem dump_splits_at_body r q :
  clean_rsp r → clean_req q →
  head_end (p_dump r) = Some (join_lines (status_line r) (rsp_lines r), p_body r) ∧
  head_end (q_dump q) = Some (join_lines (request_line q) (req_lines q), q_body q).
Proof.
  intros [Hre Hh] (Hp & Hq & Hf & Hqh). split.
  - rewrite p_dump_lines. apply head_end_lines. constructor.
    { split; [done|]. unfold status_line. no_CR. destruct (p_reason r) eqn:E; [apply status_text_no_CR|done]. }
    apply Forall_app. split; [by apply header_lines_ok; [|done|apply L_no_CR]|].
    constructor; [by apply connection_line_ok|apply length_line_ok].
  - rewrite q_dump_lines. apply head_end_lines. constructor.
    { split; [intros E; apply app_eq_nil in E as [_ [=]]|]. unfold request_line.
      no_CR; [apply method_text_no_CR|by destruct (q_query q); [set_solver|apply L_no_CR]|by destruct (q_fragment q); [set_solver|apply L_no_CR]]. }
    constructor; [by apply connection_line_ok|].
    apply Forall_app. split; [by apply header_lines_ok; [|done|apply L_no_CR]|apply length_line_ok].
Qed.

(** ** Concrete messages *)

Definition demo_req : HttpRequest := q_setHeader (L "Host") (L "a") (HttpRequest_new 17 true).
Definition demo_rsp : HttpResponse := p_setBody (L "hello") (p_setHeader (L "Server") (L "skt") (HttpResponse_new 17 true)).

Lemma demo_req_ok : map_ok (q_headers demo_req).
Proof. repeat constructor. Qed.

Lemma headers_ignore_case_witness :
  q_getHeader (q_setHeader (L "HOST") (L "b") demo_req) (L "host") [] = L "b".
Proof.
  destruct (headers_ignore_case demo_req (L "HOST") (L "b") (L "host") [] demo_req_ok) as [E _].
  rewrite E. vm_compute. reflexivity.
Defined.

Lemma method_text_roundtrip_witness : CharsToHttpMethod (L "PUT /x HTTP/1.1") = PUT.
Proof. apply (method_text_roundtrip PUT (L " /x HTTP/1.1") []). discriminate. Defined.

Lemma dump_splits_at_body_witness :
  ∃ h, head_end (p_dump demo_rsp) = Some (h, L "hello").
Proof.
  destruct (dump_splits_at_body demo_rsp demo_req) as [E _].
  - split; [set_solver|]. repeat constructor; by apply L_no_CR.
  - split; [by apply L_no_CR|]. split; [set_solver|]. split; [set_solver|]. repeat constructor; by apply L_no_CR.
  - eexists. exact E.
Defined.

(** An unknown method leaves the default GET, and hasError does not report it:
    it needs an error of the state machine as well. *)
Lemma invalid_method_accepted :
  let p := on_request_method (L "FOO / HTTP/1.1") 3 HttpRequestParser_new in
  qp_error p = 1000 ∧ qp_hasError false p = false ∧ q_method (qp_data p) = GET.
Proof. split; [|split]; reflexivity. Qed.

(** The same error is reported for responses. *)
Lemma response_error_reported b e p : e ≠ 0 → pp_hasError b (pp_setError e p) = true.
Proof. intros He. unfold pp_hasError. cbn. rewrite (proj2 (Z.eqb_neq e 0)) by done. apply orb_true_r. Qed.

(** A method text with something appended is taken for the method. *)
Lemma method_prefix_accepted : CharsToHttpMethod (L "GETX / HTTP/1.1") = GET.
Proof. reflexivity. Qed.
