(* ===== verification/Servlet.v ===== *)
(** Servlets (skt/http/servlet.h, skt/http/servlet.cpp).

    A servlet is an object with the virtual method handle, the class
    [Handler]. ServletDispatch keeps an unordered_map from paths to servlets, a
    vector of patterns, and a default. fnmatch(3) is an argument. *)

From stdpp Require Import base list gmap strings sets.
From Stdlib Require Import Ascii Lia.
From S2P Require Import Prelude StdOrdered CString Http.

(** Servlet::handle, on the request and the response. *)
Class Handler (S : Type) : Type := handle : S → HttpRequest → HttpResponse → Z * HttpResponse.

(** NotFoundServlet *)
Record NotFoundServlet : Type := mkNF { nf_name : str; nf_content : str }.
Definition NotFoundServlet_new (name : str) : NotFoundServlet :=
  mkNF name (L "<html><head><title>404 Not Found"
    ++ L "</title></head><body><center><h1>404 Not Found</h1></center>"
    ++ L "<hr><center>" ++ name ++ L "</center></body></html>").

#[global] Instance NotFoundServlet_handle : Handler NotFoundServlet := λ s _ rsp,
  (0, p_setBody (nf_content s)
        (p_setHeader (L "Content-Type") (L "text/html")
           (p_setHeader (L "Server") (L "skt/1.0.0") (p_setStatus 404 rsp)))).

Section Dispatch.
(** [S]: the servlets users register. *)
Context {S : Type} `{HS : Handler S} (fnmatch : str → str → bool).

(** A Servlet::ptr: a user's servlet (FunctionServlet among them), the 404
    servlet, or null. *)
Inductive servlet : Type :=
| User (s : S)
| NotFound (n : NotFoundServlet)
| Null.

Record ServletDispatch : Type := mkSD {
  m_datas : gmap str servlet;
  m_globs : list (str * servlet);
  m_default : servlet
}.

Definition ServletDispatch_new : ServletDispatch :=
  mkSD ∅ [] (NotFound (NotFoundServlet_new (L "skt/1.0.0"))).

Definition addServlet (uri : str) (slt : servlet) (d : ServletDispatch) : ServletDispatch :=
  mkSD (<[uri := slt]> (m_datas d)) (m_globs d) (m_default d).

(** Erases the first pattern equal to [uri]. *)
Fixpoint erase_glob (uri : str) (g : list (str * servlet)) : list (str * servlet) :=
  match g with
  | [] => []
  | (u, s) :: g' => if bool_decide (u = uri) then g' else (u, s) :: erase_glob uri g'
  end.

Definition addGlobServlet (uri : str) (slt : servlet) (d : ServletDispatch) : ServletDispatch :=
  mkSD (m_datas d) (erase_glob uri (m_globs d) ++ [(uri, slt)]) (m_default d).
Definition delServlet (uri : str) (d : ServletDispatch) : ServletDispatch :=
  mkSD (delete uri (m_datas d)) (m_globs d) (m_default d).
Definition delGlobServlet (uri : str) (d : ServletDispatch) : ServletDispatch :=
  mkSD (m_datas d) (erase_glob uri (m_globs d)) (m_default d).
Definition setDefault (v : servlet) (d : ServletDispatch) : ServletDispatch :=
  mkSD (m_datas d) (m_globs d) v.

Definition getServlet (uri : str) (d : ServletDispatch) : servlet := default Null (m_datas d !! uri).

Fixpoint find_glob (p : str → bool) (g : list (str * servlet)) : option servlet :=
  match g with
  | [] => None
  | (u, s) :: g' => if p u then Some s else find_glob p g'
  end.
Definition getGlobServlet (uri : str) (d : ServletDispatch) : servlet :=
  default Null (find_glob (λ u, bool_decide (u = uri)) (m_globs d)).

Definition getMatchedServlet (uri : str) (d : ServletDispatch) : servlet :=
  match m_datas d !! uri with
  | Some s => s
  | None =>
    match find_glob (λ u, fnmatch (c_str u) (c_str uri)) (m_globs d) with
    | Some s => s
    | None => m_default d
    end
  end.

(** ServletDispatch::handle *)
Definition dispatch (d : ServletDispatch) (req : HttpRequest) (rsp : HttpResponse) : Z * HttpResponse :=
  match getMatchedServlet (q_path req) d with
  | User s => (0, (handle s req rsp).2)
  | NotFound n => (0, (handle n req rsp).2)
  | Null => (0, rsp)
  end.

#[global] Instance ServletDispatch_handle : Handler ServletDispatch := dispatch.

(** ** Facts *)

Lemma find_glob_app p g1 g2 :
  find_glob p (g1 ++ g2) = match find_glob p g1 with Some s => Some s | None => find_glob p g2 end.
Proof. induction g1 as [|[u s] g1 IH]; [done|]. cbn. by destruct (p u). Qed.

(** No pattern twice. *)
Definition globs_ok (d : ServletDispatch) : Prop := NoDup (fst <$> m_globs d).

Lemma erase_glob_elem uri g u s : (u, s) ∈ erase_glob uri g → (u, s) ∈ g.
Proof.
  induction g as [|[u' s'] g IH]; [done|]. cbn. case_bool_decide; [set_solver|].
  intros [E|Hin]%elem_of_cons; [set_solver|]. right. by apply IH.
Qed.

Lemma erase_glob_keys uri g : fst <$> erase_glob uri g ⊆ fst <$> g.
Proof. intros u ([u' s] & -> & Hin)%list_elem_of_fmap. apply list_elem_of_fmap. exists (u', s). split; [done|]. by eapply erase_glob_elem. Qed.

Lemma erase_glob_nodup uri g :
  NoDup (fst <$> g) → NoDup (fst <$> erase_glob uri g) ∧ uri ∉ fst <$> erase_glob uri g.
Proof.
  induction g as [|[u s] g IH]; cbn; [split; [constructor|set_solver]|].
  intros [Hn Hnd]%NoDup_cons. case_bool_decide as Hu; [by subst|]. destruct (IH Hnd) as [H1 H2]. cbn. split.
  - apply NoDup_cons. split; [|done]. intros Hin. by apply Hn, (erase_glob_keys uri).
  - set_solver.
Qed.

Lemma find_glob_erase p uri g :
  p uri = false → find_glob p (erase_glob uri g) = find_glob p g.
Proof.
  intros Hp. induction g as [|[u s] g IH]; [done|]. cbn. case_bool_decide as Hu.
  - by rewrite Hu, Hp.
  - cbn. by rewrite IH.
Qed.

Lemma find_glob_none p g : (∀ u, u ∈ fst <$> g → p u = false) → find_glob p g = None.
Proof.
  induction g as [|[u s] g IH]; [done|]. cbn. intros H. rewrite H by set_solver. apply IH. set_solver.
Qed.

(** How a path is dispatched: the servlet registered for exactly this
    path comes first, then the earliest registered matching pattern, then the
    default. Adding a pattern again replaces it and puts it last, patterns
    stay distinct, and operations on one path or pattern do not change how
    others are dispatched. *)
Theorem servlet_matching uri uri' slt d :
  globs_ok d →
  getMatchedServlet uri (addServlet uri slt d) = slt ∧
  (uri' ≠ uri → getMatchedServlet uri' (addServlet uri slt d) = getMatchedServlet uri' d ∧
                getMatchedServlet uri' (delServlet uri d) = getMatchedServlet uri' d) ∧
  (m_datas d !! uri' = None →
   getMatchedServlet uri' (addGlobServlet uri slt d) =
     match find_glob (λ u, fnmatch (c_str u) (c_str uri')) (erase_glob uri (m_globs d)) with
     | Some s => s
     | None => if fnmatch (c_str uri) (c_str uri') then slt else m_default d
     end) ∧
  (fnmatch (c_str uri) (c_str uri') = false →
   getMatchedServlet uri' (addGlobServlet uri slt d) = getMatchedServlet uri' d ∧
   getMatchedServlet uri' (delGlobServlet uri d) = getMatchedServlet uri' d) ∧
  getGlobServlet uri (addGlobServlet uri slt d) = slt ∧
  getGlobServlet uri (delGlobServlet uri d) = Null ∧
  globs_ok (addGlobServlet uri slt d) ∧ globs_ok (delGlobServlet uri d).
Proof.
  intros Hok. destruct (erase_glob_nodup uri (m_globs d) Hok) as [Hnd Hnin].
  assert (find_glob (λ u, bool_decide (u = uri)) (erase_glob uri (m_globs d)) = None) as Hnone.
  { apply find_glob_none. intros u Hu. apply bool_decide_eq_false. by intros ->. }
  unfold getMatchedServlet, getGlobServlet, globs_ok. cbn. rewrite lookup_insert_eq.
  split; [done|]. split; [intros Hne; by rewrite lookup_insert_ne, lookup_delete_ne|].
  split; [clear Hnone; intros ->; rewrite find_glob_app; cbn;
    destruct (find_glob _ _); [done|]; by destruct (fnmatch _ _)|].
  split.
  { clear Hnone. intros Hf. rewrite find_glob_app, find_glob_erase by done. cbn. rewrite Hf.
    by destruct (find_glob _ _). }
  rewrite find_glob_app, Hnone. cbn. rewrite bool_decide_true by done.
  split; [done|]. split; [done|]. split; [|done]. rewrite fmap_app. apply NoDup_app.
  split; [done|]. split; [|apply NoDup_singleton]. intros u Hu ->%list_elem_of_singleton. done.
Qed.

End Dispatch.

Arguments servlet : clear implicits.
Arguments ServletDispatch : clear implicits.

(** ** A dispatcher whose servlets set the status *)

#[global] Instance status_handler : Handler Z := λ s _ rsp, (0, p_setStatus s rsp).

Definition demo_dispatch : ServletDispatch Z :=
  addGlobServlet (L "/a*") (User 202) (addServlet (L "/a/b") (User 201) ServletDispatch_new).

Lemma servlet_matching_witness :
  getMatchedServlet (λ p s, starts_with (L "/a") s) (L "/a/c") (addServlet (L "/a/c") (User 203) demo_dispatch) = User 203.
Proof.
  apply (servlet_matching (λ p s, starts_with (L "/a") s) (L "/a/c") (L "/x") (User 203) demo_dispatch).
  unfold globs_ok. cbn. repeat constructor. set_solver.
Defined.
