(* ===== verification/Ragel.v ===== *)
(** Execution of the state machines Ragel generates (the .rl.cpp files).

    Generated code is a switch over states: each state tests the character and
    jumps to another state [St] or to a transition [Tr], which runs the actions
    of the grammar and then jumps to a state. A state is a list of edges in the
    order of the character codes. Characters are signed, as char is. Every
    other character goes to st0, the error state. *)

From stdpp Require Import base list strings.
From Stdlib Require Import Ascii Lia.
From S2P Require Import Prelude CString.

Inductive jump : Type :=
| St (n : Z)
| Tr (n : Z).

(** [On lo hi j]: characters from [lo] to [hi]. [Ch c j]: one character.
    [If c j]: one character under the condition of the grammar (_widec). *)
Inductive edge : Type :=
| On (lo hi : Z) (j : jump)
| Ch (c : Z) (j : jump)
| If (c : Z) (j : jump).

Abbreviation table := (list (Z * list edge)).

(** A char as a number. *)
Definition char_val (c : ascii) : Z := i8 (Z.of_N (N_of_ascii c)).

Definition edge_on (cond : bool) (x : Z) (e : edge) : option jump :=
  match e with
  | On lo hi j => if (lo <=? x) && (x <=? hi) then Some j else None
  | Ch c j => if x =? c then Some j else None
  | If c j => if cond && (x =? c) then Some j else None
  end.

Fixpoint find_edge (cond : bool) (x : Z) (es : list edge) : option jump :=
  match es with
  | [] => None
  | e :: es' => match edge_on cond x e with Some j => Some j | None => find_edge cond x es' end
  end.

Fixpoint state_edges (cs : Z) (t : table) : option (list edge) :=
  match t with
  | [] => None
  | (n, es) :: t' => if n =? cs then Some es else state_edges cs t'
  end.

Section Run.
(** [A]: the grammar's actions; [tr]: the actions and the target of each
    transition; [act a p]: the effect of an action at position [p]; [breaks]:
    the actions that end with fbreak; [fall]: the state set by the code after
    the switch, reached for a state that has no case. *)
Context {S A : Type} (t : table) (tr : Z → list A * Z) (cond : bool)
  (act : A → Z → M S unit) (breaks : A → bool) (fall : Z).

Definition resolve (j : jump) : list A * Z := match j with St n => ([], n) | Tr n => tr n end.

(** True when the last action was an fbreak. *)
Fixpoint run_acts (acts : list A) (p : Z) : M S bool :=
  match acts with
  | [] => mret false
  | a :: acts' => act a p ≫= λ _, if breaks a then mret true else run_acts acts' p
  end.

(** From state [cs] at position [p], with [rest] unread: the state and the
    position where the machine stops. *)
Fixpoint exec (cs p : Z) (rest : str) : M S (Z * Z) :=
  match rest with
  | [] => mret (cs, p)
  | c :: rest' =>
    match state_edges cs t with
    | None => mret (fall, p)
    | Some es =>
      match find_edge cond (char_val c) es with
      | None => mret (0, p)
      | Some j =>
        run_acts (resolve j).1 p ≫= λ b,
        if (b : bool) then mret ((resolve j).2, p + 1) else exec (resolve j).2 (p + 1) rest'
      end
    end
  end.

(** ** Facts *)

(** The edge the machine takes. *)
Definition next (cs : Z) (c : ascii) : option jump :=
  match state_edges cs t with None => None | Some es => find_edge cond (char_val c) es end.

Lemma exec_step cs p c rest j :
  next cs c = Some j →
  exec cs p (c :: rest) =
    (run_acts (resolve j).1 p ≫= λ b,
     if (b : bool) then mret ((resolve j).2, p + 1) else exec (resolve j).2 (p + 1) rest).
Proof. unfold next. cbn. destruct (state_edges cs t); [|done]. by intros ->. Qed.

(** The state after a word along which no transition runs an action. *)
Fixpoint walk (cs : Z) (w : str) : option Z :=
  match w with
  | [] => Some cs
  | c :: w' => match next cs c with Some (St n) => walk n w' | _ => None end
  end.

Lemma walk_app cs w1 w2 :
  walk cs (w1 ++ w2) = match walk cs w1 with Some cs' => walk cs' w2 | None => None end.
Proof.
  revert cs. induction w1 as [|c w1 IH]; intros cs; [done|]. cbn. by destruct (next cs c) as [[]|].
Qed.

Lemma exec_walk cs w cs' p rest s :
  walk cs w = Some cs' → exec cs p (w ++ rest) s = exec cs' (p + zlen w) rest s.
Proof.
  revert cs p. induction w as [|c w IH]; intros cs p; cbn [walk app].
  { intros [= ->]. by rewrite zlen_nil, Z.add_0_r. }
  destruct (next cs c) as [[n|n]|] eqn:E; try done. intros Hw.
  rewrite (exec_step _ _ _ _ _ E), zlen_cons, Z.add_assoc. cbn. by apply IH.
Qed.

(** A transition: the actions run at [p], then the machine goes on. *)
Lemma exec_tr cs p c rest j s s' :
  next cs c = Some j → run_acts (resolve j).1 p s = Ok false s' →
  exec cs p (c :: rest) s = exec (resolve j).2 (p + 1) rest s'.
Proof. intros H1 H2. rewrite (exec_step _ _ _ _ _ H1). by run H2. Qed.

Lemma exec_break cs p c rest j s s' :
  next cs c = Some j → run_acts (resolve j).1 p s = Ok true s' →
  exec cs p (c :: rest) s = Ok ((resolve j).2, p + 1) s'.
Proof. intros H1 H2. rewrite (exec_step _ _ _ _ _ H1). by run H2. Qed.

(** A word of characters on which the machine stays in its state. *)
Lemma walk_class (P : ascii → bool) cs :
  (∀ c, P c = true → next cs c = Some (St cs)) → ∀ w, forallb P w = true → walk cs w = Some cs.
Proof.
  intros H w. induction w as [|c w IH]; [done|]. cbn. intros [Hc Hw]%andb_true_iff. by rewrite (H c Hc), IH.
Qed.

(** Invariant rule. [I] holds while the machine reads [text] and implies that
    its state has a case; every edge keeps [I], or ends with an fbreak in [F].
    Then no action fails, and the machine stops at the end of the text with [I],
    after an fbreak with [F], or in the error state. *)
Lemma exec_inv_at (I F : Z → Z → S → Prop) (text : str) cs p rest s :
  (∀ cs c j p s, I cs p s → 0 ≤ p < zlen text → text !! Z.to_nat p = Some c → next cs c = Some j →
     ∃ (b : bool) s', run_acts (resolve j).1 p s = Ok b s' ∧
       (if b then F else I) (resolve j).2 (p + 1) s') →
  (∀ cs p s, I cs p s → state_edges cs t ≠ None) →
  0 ≤ p ≤ zlen text → rest = drop (Z.to_nat p) text → I cs p s →
  ∃ cs' p' s', exec cs p rest s = Ok (cs', p') s' ∧ p ≤ p' ≤ zlen text ∧
    ((I cs' p' s' ∧ p' = zlen text) ∨ F cs' p' s' ∨ (cs' = 0 ∧ p' < zlen text ∧ ∃ cs0, I cs0 p' s')).
Proof.
  intros Hstep Hknown. revert cs p s. induction rest as [|c rest IH]; intros cs p s Hp Hrest HI.
  { apply (f_equal zlen) in Hrest. unfold zlen in Hrest. rewrite length_drop in Hrest. cbn in Hrest. unfold zlen in *.
    exists cs, p, s. split; [done|]. split; [lia|]. left. split; [done|lia]. }
  assert (text !! Z.to_nat p = Some c) as Hc.
  { rewrite <- (Nat.add_0_r (Z.to_nat p)), <- lookup_drop, <- Hrest. done. }
  assert (p < zlen text) as Hlt.
  { apply lookup_lt_Some in Hc. unfold zlen. lia. }
  destruct (next cs c) as [j|] eqn:E.
  - destruct (Hstep cs c j p s HI) as (b & s1 & E1 & HI1); [lia|done|done|].
    rewrite (exec_step _ _ _ _ _ E). run E1. destruct b.
    + eexists _, _, _. split; [reflexivity|]. split; [lia|]. by right; left.
    + destruct (IH (resolve j).2 (p + 1) s1) as (cs' & p' & s' & E2 & Hp2 & HI2); [lia| |done|].
      { replace (Z.to_nat (p + 1)) with (Z.to_nat p + 1)%nat by lia.
        by rewrite <- drop_drop, <- Hrest. }
      exists cs', p', s'. split; [done|]. split; [lia|done].
  - unfold next in E. cbn [exec]. destruct (state_edges cs t) eqn:Ecs; [|by destruct (Hknown _ _ _ HI)].
    rewrite E. exists 0, p, s. split; [done|]. split; [lia|]. right. right. split; [done|]. split; [lia|by exists cs].
Qed.

(** The state after [text], without the actions. *)
Definition after (cs : Z) (text : str) : Z :=
  foldl (λ cs c, match next cs c with Some j => (resolve j).2 | None => 0 end) cs text.

Lemma after_snoc cs text c j :
  next (after cs text) c = Some j → after cs (text ++ [c]) = (resolve j).2.
Proof. intros H. unfold after in *. rewrite foldl_app. cbn. by rewrite H. Qed.

End Run.

(** ** Checking the edges of a machine by evaluation *)

Definition all_chars : list ascii := ascii_of_nat <$> seq 0 256.

Lemma all_chars_complete c : c ∈ all_chars.
Proof.
  apply list_elem_of_fmap. exists (nat_of_ascii c). split; [symmetry; apply ascii_nat_embedding|].
  apply elem_of_seq. pose proof (nat_ascii_bounded c). lia.
Qed.

#[global] Instance jump_eq_dec : EqDecision jump.
Proof. solve_decision. Defined.

(** In state [cs] the machine takes [j] on every character of the class [P]. *)
Definition goes_in (t : table) (b : bool) (cs : Z) (P : ascii → bool) (j : jump) : bool :=
  match state_edges cs t with
  | None => false
  | Some es => forallb (λ c, implb (P c) (bool_decide (find_edge b (char_val c) es = Some j))) all_chars
  end.

Lemma goes_in_next t b cs P j c : goes_in t b cs P j = true → P c = true → next t b cs c = Some j.
Proof.
  unfold goes_in, next. destruct (state_edges cs t) as [es|]; [|done]. rewrite forallb_forall.
  intros H Hc. specialize (H c (proj1 (list_elem_of_In _ _) (all_chars_complete c))). rewrite Hc in H.
  by apply bool_decide_eq_true in H.
Qed.

Definition between (lo hi : Z) (c : ascii) : bool := (lo <=? char_val c) && (char_val c <=? hi).
Definition eqc (x : Z) (c : ascii) : bool := char_val c =? x.

Definition jump_of (e : edge) : jump := match e with On _ _ j | Ch _ j | If _ j => j end.

Lemma state_edges_elem cs t es : state_edges cs t = Some es → (cs, es) ∈ t.
Proof.
  induction t as [|[n es'] t IH]; [done|]. cbn. destruct (Z.eqb_spec n cs) as [->|Hn]; [intros [= ->]; left|].
  intros H. right. by apply IH.
Qed.

Lemma find_edge_elem b x es j : find_edge b x es = Some j → ∃ e, e ∈ es ∧ jump_of e = j.
Proof.
  induction es as [|e es IH]; [done|]. cbn. destruct (edge_on b x e) as [j'|] eqn:E.
  - intros [= ->]. exists e. split; [left|]. destruct e; cbn in E; by case_match; simplify_eq.
  - intros (e' & He & <-)%IH. exists e'. split; [by right|done].
Qed.

(** A check of every edge of the table holds of every step. *)
Lemma next_all (chk : Z → edge → bool) t b cs c j :
  forallb (λ '(cs, es), forallb (chk cs) es) t = true →
  next t b cs c = Some j → ∃ e, jump_of e = j ∧ chk cs e = true.
Proof.
  intros Ht. unfold next. destruct (state_edges cs t) as [es|] eqn:Ecs; [|done].
  intros (e & He & <-)%find_edge_elem. exists e. split; [done|].
  pose proof (proj1 (forallb_forall _ _) Ht (cs, es)) as H. cbv beta in H.
  assert (forallb (chk cs) es = true) as H'.
  { apply H. by apply list_elem_of_In, state_edges_elem. }
  rewrite forallb_forall in H'. by apply H', list_elem_of_In.
Qed.

(** In every state of [Ps] and on every character of [C] the machine takes an
    edge that passes the test. *)
Definition steps_in (t : table) (b : bool) (Ps : list Z) (C : ascii → bool) (ok : Z → ascii → jump → bool) : bool :=
  forallb (λ cs, forallb (λ c, implb (C c)
    match next t b cs c with Some j => ok cs c j | None => false end) all_chars) Ps.

Lemma steps_in_next t b Ps C ok cs c :
  steps_in t b Ps C ok = true → cs ∈ Ps → C c = true → ∃ j, next t b cs c = Some j ∧ ok cs c j = true.
Proof.
  unfold steps_in. rewrite forallb_forall. intros H Hcs Hc.
  specialize (H cs (proj1 (list_elem_of_In _ _) Hcs)). cbv beta in H. rewrite forallb_forall in H.
  specialize (H c (proj1 (list_elem_of_In _ _) (all_chars_complete c))). cbv beta in H. rewrite Hc in H.
  destruct (next t b cs c) as [j|]; [by exists j|done].
Qed.

(** A jump without actions into [Qs], and one with actions. *)
Definition silent (Qs : list Z) (j : jump) : bool := match j with St n => bool_decide (n ∈ Qs) | Tr _ => false end.
Definition acting_in {A} `{EqDecision A} (tr : Z → list A * Z) (as_ : list (list A)) (Qs : list Z) (j : jump) : bool :=
  bool_decide ((resolve tr j).1 ∈ as_) && bool_decide ((resolve tr j).2 ∈ Qs).

Lemma walk_set t b Ps C w cs :
  steps_in t b Ps C (λ _ _, silent Ps) = true → cs ∈ Ps → forallb C w = true →
  ∃ cs', walk t b cs w = Some cs' ∧ cs' ∈ Ps.
Proof.
  intros H. revert cs. induction w as [|c w IH]; intros cs Hcs Hw; [by exists cs|].
  cbn [forallb] in Hw. apply andb_true_iff in Hw as [Hc Hw].
  destruct (steps_in_next _ _ _ _ _ _ _ H Hcs Hc) as ([n|n] & E & Hn); [|done].
  cbn [walk]. rewrite E. apply IH; [|done]. by apply bool_decide_eq_true in Hn.
Qed.

(** ** Characters of a URI *)

(** Letters, digits, marks and everything beyond ASCII, with the slash; without
    the percent sign. *)
Definition uri_char (c : ascii) : bool :=
  (char_val c <? 0) || eqc 33 c || eqc 36 c || between 38 59 c || eqc 61 c || between 64 90 c || eqc 95 c
  || between 97 122 c || eqc 126 c.
Definition query_char (c : ascii) : bool := uri_char c || eqc 63 c.
Definition hex_char (c : ascii) : bool := between 48 57 c || between 65 70 c || between 97 102 c.
(** Text over a class with percent escapes. *)
Fixpoint escaped (P : ascii → bool) (w : str) : bool :=
  match w with
  | [] => true
  | c :: w' =>
    if eqc 37 c then match w' with c1 :: c2 :: w'' => hex_char c1 && hex_char c2 && escaped P w'' | _ => false end
    else P c && escaped P w'
  end.

Lemma walk_escaped t b P cs h1 h2 :
  goes_in t b cs P (St cs) = true → goes_in t b cs (eqc 37) (St h1) = true →
  goes_in t b h1 hex_char (St h2) = true → goes_in t b h2 hex_char (St cs) = true →
  ∀ w, escaped P w = true → walk t b cs w = Some cs.
Proof.
  intros H0 H1 H2 H3. induction w as [w IH] using (induction_ltof1 _ length). unfold ltof in IH.
  destruct w as [|c w]; [done|]. cbn [escaped]. destruct (eqc 37 c) eqn:Hc.
  - destruct w as [|c1 [|c2 w]]; [done..|]. intros [[Hc1 Hc2]%andb_true_iff Hw]%andb_true_iff. cbn [walk].
    rewrite (goes_in_next _ _ _ _ _ _ H1 Hc), (goes_in_next _ _ _ _ _ _ H2 Hc1), (goes_in_next _ _ _ _ _ _ H3 Hc2).
    apply IH; [cbn; lia|done].
  - intros [HP Hw]%andb_true_iff. cbn [walk]. rewrite (goes_in_next _ _ _ _ _ _ H0 HP). apply IH; [cbn; lia|done].
Qed.
