(* ===== verification/HttpTable.v ===== *)
(** The states and transitions of the request parser (generated code,
    skt/http/http11_parser.rl.cpp), with the labels of the source; the actions
    are those of skt/http/http11_parser.rl. *)

From stdpp Require Import base list.
From S2P Require Import Prelude Ragel.

Inductive http_action : Type :=
| a_mark
| a_start_field
| a_write_field
| a_start_value
| a_write_value
| a_request_method
| a_request_uri
| a_fragment
| a_start_query
| a_query_string
| a_http_version
| a_request_path
| a_done
| a_xml
| a_json.

Definition http_tr (n : Z) : list http_action * Z :=
  match n with
  | 0 => ([a_mark], 2)
  | 2 => ([a_mark], 194)
  | 3 => ([a_mark], 198)
  | 4 => ([a_request_method], 3)
  | 6 => ([a_mark; a_request_path; a_request_uri], 4)
  | 7 => ([a_mark], 19)
  | 8 => ([a_mark; a_request_path; a_request_uri], 20)
  | 9 => ([a_mark], 24)
  | 10 => ([a_mark], 33)
  | 11 => ([a_mark; a_request_path], 29)
  | 12 => ([a_mark], 173)
  | 13 => ([a_mark], 5)
  | 21 => ([a_http_version], 13)
  | 22 => ([a_http_version], 17)
  | 23 => ([a_start_field], 14)
  | 24 => ([a_start_field; a_done], 348)
  | 25 => ([a_start_field], 18)
  | 27 => ([a_write_field], 15)
  | 28 => ([a_start_value], 16)
  | 29 => ([a_start_value], 15)
  | 30 => ([a_start_value; a_write_value], 13)
  | 31 => ([a_start_value; a_write_value], 17)
  | 33 => ([a_write_value], 13)
  | 34 => ([a_write_value], 17)
  | 36 => ([a_done], 348)
  | 37 => ([a_request_path; a_request_uri], 4)
  | 39 => ([a_request_path; a_request_uri], 20)
  | 42 => ([a_request_path], 29)
  | 43 => ([a_mark], 21)
  | 44 => ([a_mark; a_fragment], 4)
  | 45 => ([a_mark], 22)
  | 47 => ([a_fragment], 4)
  | 53 => ([a_start_query], 30)
  | 54 => ([a_start_query; a_query_string; a_request_uri], 4)
  | 55 => ([a_start_query; a_query_string; a_request_uri], 20)
  | 56 => ([a_start_query], 31)
  | 58 => ([a_query_string; a_request_uri], 4)
  | 59 => ([a_query_string; a_request_uri], 20)
  | 203 => ([a_mark], 26)
  | 204 => ([a_mark], 27)
  | 224 => ([a_request_path], 196)
  | 227 => ([a_xml; a_done], 349)
  | 228 => ([a_request_path], 199)
  | 232 => ([a_mark], 200)
  | 235 => ([a_json; a_done], 349)
  | _ => ([], 0)
  end.

Definition http_states_1 : table :=
  [
    (1, [On 48 57 (Tr 0); Ch 60 (Tr 2); Ch 64 (Tr 3); On 65 90 (Tr 0)]);
    (2, [Ch 32 (Tr 4); On 48 57 (St 175); On 65 90 (St 175)]);
    (3, [Ch 32 (Tr 6); Ch 33 (Tr 7); Ch 35 (Tr 8); Ch 36 (Tr 7); Ch 37 (Tr 9); On 38 46 (Tr 7);
      Ch 47 (Tr 10); On 48 57 (Tr 7); Ch 59 (Tr 7); Ch 61 (Tr 7); Ch 63 (Tr 11); Ch 64 (Tr 7);
      On 65 90 (Tr 12); If 94 (Tr 7); Ch 95 (Tr 7); On 97 122 (Tr 12); If 123 (Tr 7); If 125 (Tr 7);
      Ch 126 (Tr 7)]) ].

Definition http_states_2 : table :=
  [
    (4, [Ch 72 (Tr 13)]);
    (5, [Ch 84 (St 6)]);
    (6, [Ch 84 (St 7)]);
    (7, [Ch 80 (St 8)]);
    (8, [Ch 47 (St 9)]);
    (9, [Ch 49 (St 10)]);
    (10, [Ch 46 (St 11)]);
    (11, [On 48 49 (St 12)]);
    (12, [Ch 10 (Tr 21); Ch 13 (Tr 22)]) ].

Definition http_states_3 : table :=
  [
    (13, [On 1 8 (Tr 23); Ch 10 (Tr 24); On 11 12 (Tr 23); Ch 13 (Tr 25); On 14 31 (Tr 23); Ch 33 (Tr 23);
      On 35 39 (Tr 23); On 42 43 (Tr 23); On 45 46 (Tr 23); On 48 57 (Tr 23); On 65 90 (Tr 23);
      On 94 122 (Tr 23); Ch 124 (Tr 23); Ch 126 (Tr 23)]);
    (14, [On 1 8 (St 14); On 10 31 (St 14); Ch 33 (St 14); On 35 39 (St 14); On 42 43 (St 14);
      On 45 46 (St 14); On 48 57 (St 14); Ch 58 (Tr 27); On 65 90 (St 14); On 94 122 (St 14);
      Ch 124 (St 14); Ch 126 (St 14)]);
    (15, [On (-128) (-1) (Tr 28); On 1 8 (Tr 28); Ch 9 (Tr 29); Ch 10 (Tr 30); On 11 12 (Tr 28);
      Ch 13 (Tr 31); On 14 31 (Tr 28); Ch 32 (Tr 29); On 33 126 (Tr 28)]);
    (16, [On (-128) (-1) (St 16); On 1 9 (St 16); Ch 10 (Tr 33); On 11 12 (St 16); Ch 13 (Tr 34);
      On 14 126 (St 16)]) ].

Definition http_states_4 : table :=
  [
    (17, [Ch 10 (St 13)]);
    (348, [On 1 8 (St 14); On 10 31 (St 14); Ch 33 (St 14); On 35 39 (St 14); On 42 43 (St 14);
      On 45 46 (St 14); On 48 57 (St 14); Ch 58 (Tr 27); On 65 90 (St 14); On 94 122 (St 14);
      Ch 124 (St 14); Ch 126 (St 14)]);
    (18, [On 1 8 (St 14); Ch 10 (Tr 36); On 11 31 (St 14); Ch 33 (St 14); On 35 39 (St 14);
      On 42 43 (St 14); On 45 46 (St 14); On 48 57 (St 14); Ch 58 (Tr 27); On 65 90 (St 14);
      On 94 122 (St 14); Ch 124 (St 14); Ch 126 (St 14)]) ].

Definition http_states_5 : table :=
  [
    (19, [Ch 32 (Tr 37); Ch 33 (St 19); Ch 35 (Tr 39); Ch 36 (St 19); Ch 37 (St 24); On 38 46 (St 19);
      Ch 47 (St 26); On 48 57 (St 19); Ch 59 (St 19); Ch 61 (St 19); Ch 63 (Tr 42); On 64 90 (St 19);
      If 94 (St 19); Ch 95 (St 19); On 97 122 (St 19); If 123 (St 19); If 125 (St 19); Ch 126 (St 19)]) ].

Definition http_states_6 : table :=
  [
    (20, [On (-128) (-1) (Tr 43); Ch 32 (Tr 44); Ch 33 (Tr 43); Ch 36 (Tr 43); Ch 37 (Tr 45);
      On 38 59 (Tr 43); Ch 61 (Tr 43); On 63 90 (Tr 43); If 94 (Tr 43); Ch 95 (Tr 43); On 97 122 (Tr 43);
      If 123 (Tr 43); If 125 (Tr 43); Ch 126 (Tr 43)]) ].

Definition http_states_7 : table :=
  [
    (21, [On (-128) (-1) (St 21); Ch 32 (Tr 47); Ch 33 (St 21); Ch 36 (St 21); Ch 37 (St 22);
      On 38 59 (St 21); Ch 61 (St 21); On 63 90 (St 21); If 94 (St 21); Ch 95 (St 21); On 97 122 (St 21);
      If 123 (St 21); If 125 (St 21); Ch 126 (St 21)]);
    (22, [On 48 57 (St 23); On 65 70 (St 23); On 97 102 (St 23)]);
    (23, [On 48 57 (St 21); On 65 70 (St 21); On 97 102 (St 21)]);
    (24, [On 48 57 (St 25); On 65 70 (St 25); On 97 102 (St 25)]);
    (25, [On 48 57 (St 19); On 65 70 (St 19); On 97 102 (St 19)]) ].

Definition http_states_8 : table :=
  [
    (26, [On (-128) (-1) (St 26); Ch 32 (Tr 37); Ch 33 (St 26); Ch 35 (Tr 39); Ch 36 (St 26);
      Ch 37 (St 27); On 38 59 (St 26); Ch 61 (St 26); Ch 63 (Tr 42); On 64 90 (St 26); If 94 (St 26);
      Ch 95 (St 26); On 97 122 (St 26); If 123 (St 26); If 125 (St 26); Ch 126 (St 26)]);
    (27, [On 48 57 (St 28); On 65 70 (St 28); On 97 102 (St 28)]);
    (28, [On 48 57 (St 26); On 65 70 (St 26); On 97 102 (St 26)]) ].

Definition http_states_9 : table :=
  [
    (29, [On (-128) (-1) (Tr 53); Ch 32 (Tr 54); Ch 33 (Tr 53); Ch 35 (Tr 55); Ch 36 (Tr 53);
      Ch 37 (Tr 56); On 38 59 (Tr 53); Ch 61 (Tr 53); On 63 90 (Tr 53); If 94 (Tr 53); Ch 95 (Tr 53);
      On 97 122 (Tr 53); If 123 (Tr 53); If 125 (Tr 53); Ch 126 (Tr 53)]);
    (30, [On (-128) (-1) (St 30); Ch 32 (Tr 58); Ch 33 (St 30); Ch 35 (Tr 59); Ch 36 (St 30);
      Ch 37 (St 31); On 38 59 (St 30); Ch 61 (St 30); On 63 90 (St 30); If 94 (St 30); Ch 95 (St 30);
      On 97 122 (St 30); If 123 (St 30); If 125 (St 30); Ch 126 (St 30)]);
    (31, [On 48 57 (St 32); On 65 70 (St 32); On 97 102 (St 32)]) ].

Definition http_states_10 : table :=
  [
    (32, [On 48 57 (St 30); On 65 70 (St 30); On 97 102 (St 30)]);
    (33, [On (-128) (-1) (St 26); Ch 32 (Tr 37); Ch 33 (St 26); Ch 35 (Tr 39); Ch 36 (St 26);
      Ch 37 (St 27); On 38 46 (St 26); Ch 47 (St 34); On 48 59 (St 26); Ch 61 (St 26); Ch 63 (Tr 42);
      On 64 90 (St 26); If 94 (St 26); Ch 95 (St 26); On 97 122 (St 26); If 123 (St 26); If 125 (St 26);
      Ch 126 (St 26)]);
    (34, [Ch 32 (Tr 37); Ch 33 (St 35); Ch 35 (Tr 39); Ch 36 (St 35); Ch 37 (St 36); On 38 46 (St 35);
      Ch 47 (St 26); On 48 57 (St 35); Ch 58 (St 38); Ch 59 (St 35); Ch 61 (St 35); Ch 63 (Tr 42);
      Ch 64 (St 42); On 65 90 (St 35); Ch 91 (St 47); If 94 (St 35); Ch 95 (St 35); On 97 122 (St 35);
      If 123 (St 35); If 125 (St 35); Ch 126 (St 35)]) ].

Definition http_states_11 : table :=
  [
    (35, [Ch 32 (Tr 37); Ch 33 (St 35); Ch 35 (Tr 39); Ch 36 (St 35); Ch 37 (St 36); On 38 46 (St 35);
      Ch 47 (St 26); On 48 57 (St 35); Ch 58 (St 38); Ch 59 (St 35); Ch 61 (St 35); Ch 63 (Tr 42);
      Ch 64 (St 42); On 65 90 (St 35); If 94 (St 35); Ch 95 (St 35); On 97 122 (St 35); If 123 (St 35);
      If 125 (St 35); Ch 126 (St 35)]);
    (36, [On 48 57 (St 37); On 65 70 (St 37); On 97 102 (St 37)]);
    (37, [On 48 57 (St 35); On 65 70 (St 35); On 97 102 (St 35)]);
    (38, [Ch 32 (Tr 37); Ch 33 (St 39); Ch 35 (Tr 39); Ch 36 (St 39); Ch 37 (St 40); On 38 46 (St 39);
      Ch 47 (St 26); On 48 57 (St 38); On 58 59 (St 39); Ch 61 (St 39); Ch 63 (Tr 42); Ch 64 (St 42);
      On 65 90 (St 39); If 94 (St 39); Ch 95 (St 39); On 97 122 (St 39); If 123 (St 39); If 125 (St 39);
      Ch 126 (St 39)]) ].

Definition http_states_12 : table :=
  [
    (39, [Ch 33 (St 39); Ch 36 (St 39); Ch 37 (St 40); On 38 46 (St 39); On 48 59 (St 39); Ch 61 (St 39);
      Ch 64 (St 42); On 65 90 (St 39); If 94 (St 39); Ch 95 (St 39); On 97 122 (St 39); If 123 (St 39);
      If 125 (St 39); Ch 126 (St 39)]);
    (40, [On 48 57 (St 41); On 65 70 (St 41); On 97 102 (St 41)]);
    (41, [On 48 57 (St 39); On 65 70 (St 39); On 97 102 (St 39)]);
    (42, [Ch 32 (Tr 37); Ch 33 (St 43); Ch 35 (Tr 39); Ch 36 (St 43); Ch 37 (St 44); On 38 46 (St 43);
      Ch 47 (St 26); On 48 57 (St 43); Ch 58 (St 46); Ch 59 (St 43); Ch 61 (St 43); Ch 63 (Tr 42);
      On 65 90 (St 43); Ch 91 (St 47); If 94 (St 43); Ch 95 (St 43); On 97 122 (St 43); If 123 (St 43);
      If 125 (St 43); Ch 126 (St 43)]) ].

Definition http_states_13 : table :=
  [
    (43, [Ch 32 (Tr 37); Ch 33 (St 43); Ch 35 (Tr 39); Ch 36 (St 43); Ch 37 (St 44); On 38 46 (St 43);
      Ch 47 (St 26); On 48 57 (St 43); Ch 58 (St 46); Ch 59 (St 43); Ch 61 (St 43); Ch 63 (Tr 42);
      On 65 90 (St 43); If 94 (St 43); Ch 95 (St 43); On 97 122 (St 43); If 123 (St 43); If 125 (St 43);
      Ch 126 (St 43)]);
    (44, [On 48 57 (St 45); On 65 70 (St 45); On 97 102 (St 45)]);
    (45, [On 48 57 (St 43); On 65 70 (St 43); On 97 102 (St 43)]);
    (46, [Ch 32 (Tr 37); Ch 35 (Tr 39); Ch 47 (St 26); On 48 57 (St 46); Ch 63 (Tr 42)]);
    (47, [Ch 6 (St 48); On 48 57 (St 91); Ch 58 (St 167); On 65 70 (St 91); On 97 102 (St 91);
      Ch 118 (St 169)]);
    (48, [On 48 57 (St 49); On 65 70 (St 49); On 97 102 (St 49)]);
    (49, [On 48 57 (St 50); Ch 58 (St 53); On 65 70 (St 50); On 97 102 (St 50)]);
    (50, [On 48 57 (St 51); Ch 58 (St 53); On 65 70 (St 51); On 97 102 (St 51)]) ].

Definition http_states_14 : table :=
  [
    (51, [On 48 57 (St 52); Ch 58 (St 53); On 65 70 (St 52); On 97 102 (St 52)]);
    (52, [Ch 58 (St 53)]);
    (53, [Ch 48 (St 54); Ch 49 (St 84); Ch 50 (St 87); On 51 57 (St 54); On 65 70 (St 90); On 97 102 (St 90)]);
    (54, [Ch 46 (St 55); On 48 57 (St 77); Ch 58 (St 80); On 65 70 (St 77); On 97 102 (St 77)]);
    (55, [Ch 48 (St 56); Ch 49 (St 72); Ch 50 (St 74); On 51 57 (St 56)]);
    (56, [Ch 46 (St 57)]);
    (57, [Ch 48 (St 58); Ch 49 (St 67); Ch 50 (St 69); On 51 57 (St 58)]);
    (58, [Ch 46 (St 59)]);
    (59, [Ch 48 (St 60); Ch 49 (St 62); Ch 50 (St 64); On 51 57 (St 60)]);
    (60, [Ch 93 (St 61)]);
    (61, [Ch 32 (Tr 37); Ch 35 (Tr 39); Ch 47 (St 26); Ch 58 (St 46); Ch 63 (Tr 42)]);
    (62, [On 48 57 (St 63); Ch 93 (St 61)]);
    (63, [On 48 57 (St 60); Ch 93 (St 61)]);
    (64, [Ch 48 (St 65); Ch 53 (St 66); Ch 93 (St 61)]) ].

Definition http_states_15 : table :=
  [
    (65, [On 48 57 (St 60)]);
    (66, [Ch 48 (St 60)]);
    (67, [Ch 46 (St 59); On 48 57 (St 68)]);
    (68, [Ch 46 (St 59); On 48 57 (St 58)]);
    (69, [Ch 46 (St 59); Ch 48 (St 70); Ch 53 (St 71)]);
    (70, [On 48 57 (St 58)]);
    (71, [Ch 48 (St 58)]);
    (72, [Ch 46 (St 57); On 48 57 (St 73)]);
    (73, [Ch 46 (St 57); On 48 57 (St 56)]);
    (74, [Ch 46 (St 57); Ch 48 (St 75); Ch 53 (St 76)]);
    (75, [On 48 57 (St 56)]);
    (76, [Ch 48 (St 56)]);
    (77, [On 48 57 (St 78); Ch 58 (St 80); On 65 70 (St 78); On 97 102 (St 78)]);
    (78, [On 48 57 (St 79); Ch 58 (St 80); On 65 70 (St 79); On 97 102 (St 79)]);
    (79, [Ch 58 (St 80)]);
    (80, [On 48 57 (St 81); On 65 70 (St 81); On 97 102 (St 81)]) ].

Definition http_states_16 : table :=
  [
    (81, [On 48 57 (St 82); On 65 70 (St 82); Ch 93 (St 61); On 97 102 (St 82)]);
    (82, [On 48 57 (St 83); On 65 70 (St 83); Ch 93 (St 61); On 97 102 (St 83)]);
    (83, [On 48 57 (St 60); On 65 70 (St 60); Ch 93 (St 61); On 97 102 (St 60)]);
    (84, [Ch 46 (St 55); On 48 57 (St 85); Ch 58 (St 80); On 65 70 (St 77); On 97 102 (St 77)]);
    (85, [Ch 46 (St 55); On 48 57 (St 86); Ch 58 (St 80); On 65 70 (St 78); On 97 102 (St 78)]);
    (86, [Ch 46 (St 55); On 48 57 (St 79); Ch 58 (St 80); On 65 70 (St 79); On 97 102 (St 79)]);
    (87, [Ch 46 (St 55); Ch 48 (St 88); On 49 52 (St 77); Ch 53 (St 89); On 54 57 (St 77); Ch 58 (St 80);
      On 65 70 (St 77); On 97 102 (St 77)]);
    (88, [On 48 57 (St 86); Ch 58 (St 80); On 65 70 (St 78); On 97 102 (St 78)]);
    (89, [Ch 48 (St 86); On 49 57 (St 78); Ch 58 (St 80); On 65 70 (St 78); On 97 102 (St 78)]) ].

Definition http_states_17 : table :=
  [
    (90, [On 48 57 (St 77); Ch 58 (St 80); On 65 70 (St 77); On 97 102 (St 77)]);
    (91, [On 48 57 (St 92); Ch 58 (St 95); On 65 70 (St 92); On 97 102 (St 92)]);
    (92, [On 48 57 (St 93); Ch 58 (St 95); On 65 70 (St 93); On 97 102 (St 93)]);
    (93, [On 48 57 (St 94); Ch 58 (St 95); On 65 70 (St 94); On 97 102 (St 94)]);
    (94, [Ch 58 (St 95)]);
    (95, [On 48 57 (St 96); Ch 58 (St 166); On 65 70 (St 96); On 97 102 (St 96)]);
    (96, [On 48 57 (St 97); Ch 58 (St 100); On 65 70 (St 97); On 97 102 (St 97)]);
    (97, [On 48 57 (St 98); Ch 58 (St 100); On 65 70 (St 98); On 97 102 (St 98)]);
    (98, [On 48 57 (St 99); Ch 58 (St 100); On 65 70 (St 99); On 97 102 (St 99)]);
    (99, [Ch 58 (St 100)]);
    (100, [On 48 57 (St 101); Ch 58 (St 165); On 65 70 (St 101); On 97 102 (St 101)]) ].

Definition http_states_18 : table :=
  [
    (101, [On 48 57 (St 102); Ch 58 (St 105); On 65 70 (St 102); On 97 102 (St 102)]);
    (102, [On 48 57 (St 103); Ch 58 (St 105); On 65 70 (St 103); On 97 102 (St 103)]);
    (103, [On 48 57 (St 104); Ch 58 (St 105); On 65 70 (St 104); On 97 102 (St 104)]);
    (104, [Ch 58 (St 105)]);
    (105, [On 48 57 (St 106); Ch 58 (St 164); On 65 70 (St 106); On 97 102 (St 106)]);
    (106, [On 48 57 (St 107); Ch 58 (St 110); On 65 70 (St 107); On 97 102 (St 107)]);
    (107, [On 48 57 (St 108); Ch 58 (St 110); On 65 70 (St 108); On 97 102 (St 108)]);
    (108, [On 48 57 (St 109); Ch 58 (St 110); On 65 70 (St 109); On 97 102 (St 109)]);
    (109, [Ch 58 (St 110)]);
    (110, [On 48 57 (St 111); Ch 58 (St 163); On 65 70 (St 111); On 97 102 (St 111)]);
    (111, [On 48 57 (St 112); Ch 58 (St 115); On 65 70 (St 112); On 97 102 (St 112)]) ].

Definition http_states_19 : table :=
  [
    (112, [On 48 57 (St 113); Ch 58 (St 115); On 65 70 (St 113); On 97 102 (St 113)]);
    (113, [On 48 57 (St 114); Ch 58 (St 115); On 65 70 (St 114); On 97 102 (St 114)]);
    (114, [Ch 58 (St 115)]);
    (115, [On 48 57 (St 116); Ch 58 (St 151); On 65 70 (St 116); On 97 102 (St 116)]);
    (116, [On 48 57 (St 117); Ch 58 (St 120); On 65 70 (St 117); On 97 102 (St 117)]);
    (117, [On 48 57 (St 118); Ch 58 (St 120); On 65 70 (St 118); On 97 102 (St 118)]);
    (118, [On 48 57 (St 119); Ch 58 (St 120); On 65 70 (St 119); On 97 102 (St 119)]);
    (119, [Ch 58 (St 120)]);
    (120, [On 48 57 (St 121); Ch 58 (St 150); On 65 70 (St 121); On 97 102 (St 121)]);
    (121, [On 48 57 (St 122); Ch 58 (St 125); On 65 70 (St 122); On 97 102 (St 122)]);
    (122, [On 48 57 (St 123); Ch 58 (St 125); On 65 70 (St 123); On 97 102 (St 123)]) ].

Definition http_states_20 : table :=
  [
    (123, [On 48 57 (St 124); Ch 58 (St 125); On 65 70 (St 124); On 97 102 (St 124)]);
    (124, [Ch 58 (St 125)]);
    (125, [On 48 57 (St 121); Ch 58 (St 126); On 65 70 (St 121); On 97 102 (St 121)]);
    (126, [On 2 3 (St 48); Ch 48 (St 127); Ch 49 (St 143); Ch 50 (St 146); On 51 57 (St 127);
      On 65 70 (St 149); Ch 93 (St 61); On 97 102 (St 149)]);
    (127, [Ch 46 (St 55); On 48 57 (St 128); Ch 58 (St 131); On 65 70 (St 128); Ch 93 (St 61);
      On 97 102 (St 128)]);
    (128, [On 48 57 (St 129); Ch 58 (St 131); On 65 70 (St 129); Ch 93 (St 61); On 97 102 (St 129)]);
    (129, [On 48 57 (St 130); Ch 58 (St 131); On 65 70 (St 130); Ch 93 (St 61); On 97 102 (St 130)]);
    (130, [Ch 58 (St 131); Ch 93 (St 61)]);
    (131, [Ch 48 (St 132); Ch 49 (St 136); Ch 50 (St 139); On 51 57 (St 132); On 65 70 (St 142);
      On 97 102 (St 142)]) ].

Definition http_states_21 : table :=
  [
    (132, [Ch 46 (St 55); On 48 57 (St 133); Ch 58 (St 80); On 65 70 (St 133); Ch 93 (St 61);
      On 97 102 (St 133)]);
    (133, [On 48 57 (St 134); Ch 58 (St 80); On 65 70 (St 134); Ch 93 (St 61); On 97 102 (St 134)]);
    (134, [On 48 57 (St 135); Ch 58 (St 80); On 65 70 (St 135); Ch 93 (St 61); On 97 102 (St 135)]);
    (135, [Ch 58 (St 80); Ch 93 (St 61)]);
    (136, [Ch 46 (St 55); On 48 57 (St 137); Ch 58 (St 80); On 65 70 (St 133); Ch 93 (St 61);
      On 97 102 (St 133)]);
    (137, [Ch 46 (St 55); On 48 57 (St 138); Ch 58 (St 80); On 65 70 (St 134); Ch 93 (St 61);
      On 97 102 (St 134)]);
    (138, [Ch 46 (St 55); On 48 57 (St 135); Ch 58 (St 80); On 65 70 (St 135); Ch 93 (St 61);
      On 97 102 (St 135)]);
    (139, [Ch 46 (St 55); Ch 48 (St 140); On 49 52 (St 133); Ch 53 (St 141); On 54 57 (St 133);
      Ch 58 (St 80); On 65 70 (St 133); Ch 93 (St 61); On 97 102 (St 133)]) ].

Definition http_states_22 : table :=
  [
    (140, [On 48 57 (St 138); Ch 58 (St 80); On 65 70 (St 134); Ch 93 (St 61); On 97 102 (St 134)]);
    (141, [Ch 48 (St 138); On 49 57 (St 134); Ch 58 (St 80); On 65 70 (St 134); Ch 93 (St 61);
      On 97 102 (St 134)]);
    (142, [On 48 57 (St 133); Ch 58 (St 80); On 65 70 (St 133); Ch 93 (St 61); On 97 102 (St 133)]);
    (143, [Ch 46 (St 55); On 48 57 (St 144); Ch 58 (St 131); On 65 70 (St 128); Ch 93 (St 61);
      On 97 102 (St 128)]);
    (144, [Ch 46 (St 55); On 48 57 (St 145); Ch 58 (St 131); On 65 70 (St 129); Ch 93 (St 61);
      On 97 102 (St 129)]);
    (145, [Ch 46 (St 55); On 48 57 (St 130); Ch 58 (St 131); On 65 70 (St 130); Ch 93 (St 61);
      On 97 102 (St 130)]);
    (146, [Ch 46 (St 55); Ch 48 (St 147); On 49 52 (St 128); Ch 53 (St 148); On 54 57 (St 128);
      Ch 58 (St 131); On 65 70 (St 128); Ch 93 (St 61); On 97 102 (St 128)]);
    (147, [On 48 57 (St 145); Ch 58 (St 131); On 65 70 (St 129); Ch 93 (St 61); On 97 102 (St 129)]) ].

Definition http_states_23 : table :=
  [
    (148, [Ch 48 (St 145); On 49 57 (St 129); Ch 58 (St 131); On 65 70 (St 129); Ch 93 (St 61);
      On 97 102 (St 129)]);
    (149, [On 48 57 (St 128); Ch 58 (St 131); On 65 70 (St 128); Ch 93 (St 61); On 97 102 (St 128)]);
    (150, [On 2 3 (St 48); Ch 48 (St 127); Ch 49 (St 143); Ch 50 (St 146); On 51 57 (St 127);
      On 65 70 (St 149); On 97 102 (St 149)]);
    (151, [On 2 3 (St 48); Ch 48 (St 152); Ch 49 (St 156); Ch 50 (St 159); On 51 57 (St 152);
      On 65 70 (St 162); On 97 102 (St 162)]);
    (152, [Ch 46 (St 55); On 48 57 (St 153); Ch 58 (St 131); On 65 70 (St 153); On 97 102 (St 153)]);
    (153, [On 48 57 (St 154); Ch 58 (St 131); On 65 70 (St 154); On 97 102 (St 154)]);
    (154, [On 48 57 (St 155); Ch 58 (St 131); On 65 70 (St 155); On 97 102 (St 155)]);
    (155, [Ch 58 (St 131)]);
    (156, [Ch 46 (St 55); On 48 57 (St 157); Ch 58 (St 131); On 65 70 (St 153); On 97 102 (St 153)]) ].

Definition http_states_24 : table :=
  [
    (157, [Ch 46 (St 55); On 48 57 (St 158); Ch 58 (St 131); On 65 70 (St 154); On 97 102 (St 154)]);
    (158, [Ch 46 (St 55); On 48 57 (St 155); Ch 58 (St 131); On 65 70 (St 155); On 97 102 (St 155)]);
    (159, [Ch 46 (St 55); Ch 48 (St 160); On 49 52 (St 153); Ch 53 (St 161); On 54 57 (St 153);
      Ch 58 (St 131); On 65 70 (St 153); On 97 102 (St 153)]);
    (160, [On 48 57 (St 158); Ch 58 (St 131); On 65 70 (St 154); On 97 102 (St 154)]);
    (161, [Ch 48 (St 158); On 49 57 (St 154); Ch 58 (St 131); On 65 70 (St 154); On 97 102 (St 154)]);
    (162, [On 48 57 (St 153); Ch 58 (St 131); On 65 70 (St 153); On 97 102 (St 153)]);
    (163, [On 2 3 (St 48); On 48 57 (St 49); On 65 70 (St 49); On 97 102 (St 49)]);
    (164, [On 2 3 (St 48)]);
    (165, [Ch 3 (St 48)]);
    (166, [Ch 4 (St 48)]);
    (167, [Ch 58 (St 168)]) ].

Definition http_states_25 : table :=
  [
    (168, [On 2 5 (St 48); Ch 48 (St 127); Ch 49 (St 143); Ch 50 (St 146); On 51 57 (St 127);
      On 65 70 (St 149); Ch 93 (St 61); On 97 102 (St 149)]);
    (169, [On 48 57 (St 170); On 65 70 (St 170); On 97 102 (St 170)]);
    (170, [Ch 46 (St 171); On 48 57 (St 170); On 65 70 (St 170); On 97 102 (St 170)]);
    (171, [Ch 33 (St 172); Ch 36 (St 172); On 38 46 (St 172); On 48 59 (St 172); Ch 61 (St 172);
      On 65 90 (St 172); If 94 (St 172); Ch 95 (St 172); On 97 122 (St 172); If 123 (St 172);
      If 125 (St 172); Ch 126 (St 172)]);
    (172, [Ch 33 (St 172); Ch 36 (St 172); On 38 46 (St 172); On 48 59 (St 172); Ch 61 (St 172);
      On 65 90 (St 172); Ch 93 (St 61); If 94 (St 172); Ch 95 (St 172); On 97 122 (St 172);
      If 123 (St 172); If 125 (St 172); Ch 126 (St 172)]) ].

Definition http_states_26 : table :=
  [
    (173, [Ch 32 (Tr 37); Ch 33 (St 19); Ch 35 (Tr 39); Ch 36 (St 19); Ch 37 (St 24); On 38 42 (St 19);
      Ch 43 (St 173); Ch 44 (St 19); On 45 46 (St 173); Ch 47 (St 26); On 48 57 (St 173); Ch 58 (St 174);
      Ch 59 (St 19); Ch 61 (St 19); Ch 63 (Tr 42); Ch 64 (St 19); On 65 90 (St 173); If 94 (St 19);
      Ch 95 (St 19); On 97 122 (St 173); If 123 (St 19); If 125 (St 19); Ch 126 (St 19)]);
    (174, [On (-128) (-1) (Tr 203); Ch 32 (Tr 6); Ch 33 (Tr 203); Ch 35 (Tr 8); Ch 36 (Tr 203);
      Ch 37 (Tr 204); On 38 46 (Tr 203); Ch 47 (Tr 10); On 48 59 (Tr 203); Ch 61 (Tr 203); Ch 63 (Tr 11);
      On 64 90 (Tr 203); If 94 (Tr 203); Ch 95 (Tr 203); On 97 122 (Tr 203); If 123 (Tr 203);
      If 125 (Tr 203); Ch 126 (Tr 203)]);
    (175, [Ch 32 (Tr 4); On 48 57 (St 176); On 65 90 (St 176)]);
    (176, [Ch 32 (Tr 4); On 48 57 (St 177); On 65 90 (St 177)]);
    (177, [Ch 32 (Tr 4); On 48 57 (St 178); On 65 90 (St 178)]) ].

Definition http_states_27 : table :=
  [
    (178, [Ch 32 (Tr 4); On 48 57 (St 179); On 65 90 (St 179)]);
    (179, [Ch 32 (Tr 4); On 48 57 (St 180); On 65 90 (St 180)]);
    (180, [Ch 32 (Tr 4); On 48 57 (St 181); On 65 90 (St 181)]);
    (181, [Ch 32 (Tr 4); On 48 57 (St 182); On 65 90 (St 182)]);
    (182, [Ch 32 (Tr 4); On 48 57 (St 183); On 65 90 (St 183)]);
    (183, [Ch 32 (Tr 4); On 48 57 (St 184); On 65 90 (St 184)]);
    (184, [Ch 32 (Tr 4); On 48 57 (St 185); On 65 90 (St 185)]);
    (185, [Ch 32 (Tr 4); On 48 57 (St 186); On 65 90 (St 186)]);
    (186, [Ch 32 (Tr 4); On 48 57 (St 187); On 65 90 (St 187)]);
    (187, [Ch 32 (Tr 4); On 48 57 (St 188); On 65 90 (St 188)]);
    (188, [Ch 32 (Tr 4); On 48 57 (St 189); On 65 90 (St 189)]);
    (189, [Ch 32 (Tr 4); On 48 57 (St 190); On 65 90 (St 190)]) ].

Definition http_states_28 : table :=
  [
    (190, [Ch 32 (Tr 4); On 48 57 (St 191); On 65 90 (St 191)]);
    (191, [Ch 32 (Tr 4); On 48 57 (St 192); On 65 90 (St 192)]);
    (192, [Ch 32 (Tr 4); On 48 57 (St 193); On 65 90 (St 193)]);
    (193, [Ch 32 (Tr 4)]);
    (194, [On 45 46 (St 195); On 48 57 (St 195); On 65 90 (St 195); On 97 122 (St 195)]);
    (195, [On 9 13 (Tr 224); Ch 32 (Tr 224); On 45 46 (St 195); Ch 47 (Tr 224); On 48 57 (St 195);
      Ch 62 (Tr 224); On 65 90 (St 195); On 97 122 (St 195)]);
    (196, [On (-128) 61 (St 196); Ch 62 (St 197); On 63 127 (St 196)]);
    (197, [On (-128) (-1) (St 196); Ch 0 (Tr 227); On 1 61 (St 196); Ch 62 (St 197); On 63 127 (St 196)]) ].

Definition http_states_29 : table :=
  [
    (349, []);
    (198, [Ch 32 (Tr 228); Ch 33 (St 202); Ch 36 (St 202); Ch 37 (St 203); On 38 46 (St 202);
      Ch 47 (St 208); On 48 57 (St 202); Ch 59 (St 202); Ch 61 (St 202); On 64 90 (St 202); If 94 (St 202);
      Ch 95 (St 202); On 97 122 (St 202); If 123 (St 202); If 125 (St 202); Ch 126 (St 202)]);
    (199, [Ch 123 (Tr 232)]);
    (200, [On (-128) 124 (St 200); Ch 125 (St 201); On 126 127 (St 200)]);
    (201, [On (-128) (-1) (St 200); Ch 0 (Tr 235); On 1 124 (St 200); Ch 125 (St 201); On 126 127 (St 200)]) ].

Definition http_states_30 : table :=
  [
    (202, [Ch 32 (Tr 228); Ch 33 (St 202); Ch 36 (St 202); Ch 37 (St 203); On 38 46 (St 202);
      Ch 47 (St 205); On 48 57 (St 202); Ch 59 (St 202); Ch 61 (St 202); On 64 90 (St 202); If 94 (St 202);
      Ch 95 (St 202); On 97 122 (St 202); If 123 (St 202); If 125 (St 202); Ch 126 (St 202)]);
    (203, [On 48 57 (St 204); On 65 70 (St 204); On 97 102 (St 204)]);
    (204, [On 48 57 (St 202); On 65 70 (St 202); On 97 102 (St 202)]);
    (205, [On (-128) (-1) (St 205); Ch 32 (Tr 228); Ch 33 (St 205); Ch 36 (St 205); Ch 37 (St 206);
      On 38 59 (St 205); Ch 61 (St 205); On 64 90 (St 205); If 94 (St 205); Ch 95 (St 205);
      On 97 122 (St 205); If 123 (St 205); If 125 (St 205); Ch 126 (St 205)]);
    (206, [On 48 57 (St 207); On 65 70 (St 207); On 97 102 (St 207)]);
    (207, [On 48 57 (St 205); On 65 70 (St 205); On 97 102 (St 205)]) ].

Definition http_states_31 : table :=
  [
    (208, [On (-128) (-1) (St 205); Ch 32 (Tr 228); Ch 33 (St 205); Ch 36 (St 205); Ch 37 (St 206);
      On 38 46 (St 205); Ch 47 (St 209); On 48 59 (St 205); Ch 61 (St 205); On 64 90 (St 205);
      If 94 (St 205); Ch 95 (St 205); On 97 122 (St 205); If 123 (St 205); If 125 (St 205); Ch 126 (St 205)]);
    (209, [Ch 32 (Tr 228); Ch 33 (St 210); Ch 36 (St 210); Ch 37 (St 211); On 38 46 (St 210);
      Ch 47 (St 205); On 48 57 (St 210); Ch 58 (St 213); Ch 59 (St 210); Ch 61 (St 210); Ch 64 (St 217);
      On 65 90 (St 210); Ch 91 (St 222); If 94 (St 210); Ch 95 (St 210); On 97 122 (St 210);
      If 123 (St 210); If 125 (St 210); Ch 126 (St 210)]);
    (210, [Ch 32 (Tr 228); Ch 33 (St 210); Ch 36 (St 210); Ch 37 (St 211); On 38 46 (St 210);
      Ch 47 (St 205); On 48 57 (St 210); Ch 58 (St 213); Ch 59 (St 210); Ch 61 (St 210); Ch 64 (St 217);
      On 65 90 (St 210); If 94 (St 210); Ch 95 (St 210); On 97 122 (St 210); If 123 (St 210);
      If 125 (St 210); Ch 126 (St 210)]) ].

Definition http_states_32 : table :=
  [
    (211, [On 48 57 (St 212); On 65 70 (St 212); On 97 102 (St 212)]);
    (212, [On 48 57 (St 210); On 65 70 (St 210); On 97 102 (St 210)]);
    (213, [Ch 32 (Tr 228); Ch 33 (St 214); Ch 36 (St 214); Ch 37 (St 215); On 38 46 (St 214);
      Ch 47 (St 205); On 48 57 (St 213); On 58 59 (St 214); Ch 61 (St 214); Ch 64 (St 217);
      On 65 90 (St 214); If 94 (St 214); Ch 95 (St 214); On 97 122 (St 214); If 123 (St 214);
      If 125 (St 214); Ch 126 (St 214)]);
    (214, [Ch 33 (St 214); Ch 36 (St 214); Ch 37 (St 215); On 38 46 (St 214); On 48 59 (St 214);
      Ch 61 (St 214); Ch 64 (St 217); On 65 90 (St 214); If 94 (St 214); Ch 95 (St 214);
      On 97 122 (St 214); If 123 (St 214); If 125 (St 214); Ch 126 (St 214)]);
    (215, [On 48 57 (St 216); On 65 70 (St 216); On 97 102 (St 216)]) ].

Definition http_states_33 : table :=
  [
    (216, [On 48 57 (St 214); On 65 70 (St 214); On 97 102 (St 214)]);
    (217, [Ch 32 (Tr 228); Ch 33 (St 218); Ch 36 (St 218); Ch 37 (St 219); On 38 46 (St 218);
      Ch 47 (St 205); On 48 57 (St 218); Ch 58 (St 221); Ch 59 (St 218); Ch 61 (St 218); On 65 90 (St 218);
      Ch 91 (St 222); If 94 (St 218); Ch 95 (St 218); On 97 122 (St 218); If 123 (St 218); If 125 (St 218);
      Ch 126 (St 218)]);
    (218, [Ch 32 (Tr 228); Ch 33 (St 218); Ch 36 (St 218); Ch 37 (St 219); On 38 46 (St 218);
      Ch 47 (St 205); On 48 57 (St 218); Ch 58 (St 221); Ch 59 (St 218); Ch 61 (St 218); On 65 90 (St 218);
      If 94 (St 218); Ch 95 (St 218); On 97 122 (St 218); If 123 (St 218); If 125 (St 218); Ch 126 (St 218)]);
    (219, [On 48 57 (St 220); On 65 70 (St 220); On 97 102 (St 220)]);
    (220, [On 48 57 (St 218); On 65 70 (St 218); On 97 102 (St 218)]);
    (221, [Ch 32 (Tr 228); Ch 47 (St 205); On 48 57 (St 221)]) ].

Definition http_states_34 : table :=
  [
    (222, [Ch 6 (St 223); On 48 57 (St 266); Ch 58 (St 342); On 65 70 (St 266); On 97 102 (St 266);
      Ch 118 (St 344)]);
    (223, [On 48 57 (St 224); On 65 70 (St 224); On 97 102 (St 224)]);
    (224, [On 48 57 (St 225); Ch 58 (St 228); On 65 70 (St 225); On 97 102 (St 225)]);
    (225, [On 48 57 (St 226); Ch 58 (St 228); On 65 70 (St 226); On 97 102 (St 226)]);
    (226, [On 48 57 (St 227); Ch 58 (St 228); On 65 70 (St 227); On 97 102 (St 227)]);
    (227, [Ch 58 (St 228)]);
    (228, [Ch 48 (St 229); Ch 49 (St 259); Ch 50 (St 262); On 51 57 (St 229); On 65 70 (St 265);
      On 97 102 (St 265)]);
    (229, [Ch 46 (St 230); On 48 57 (St 252); Ch 58 (St 255); On 65 70 (St 252); On 97 102 (St 252)]);
    (230, [Ch 48 (St 231); Ch 49 (St 247); Ch 50 (St 249); On 51 57 (St 231)]);
    (231, [Ch 46 (St 232)]);
    (232, [Ch 48 (St 233); Ch 49 (St 242); Ch 50 (St 244); On 51 57 (St 233)]) ].

Definition http_states_35 : table :=
  [
    (233, [Ch 46 (St 234)]);
    (234, [Ch 48 (St 235); Ch 49 (St 237); Ch 50 (St 239); On 51 57 (St 235)]);
    (235, [Ch 93 (St 236)]);
    (236, [Ch 32 (Tr 228); Ch 47 (St 205); Ch 58 (St 221)]);
    (237, [On 48 57 (St 238); Ch 93 (St 236)]);
    (238, [On 48 57 (St 235); Ch 93 (St 236)]);
    (239, [Ch 48 (St 240); Ch 53 (St 241); Ch 93 (St 236)]);
    (240, [On 48 57 (St 235)]);
    (241, [Ch 48 (St 235)]);
    (242, [Ch 46 (St 234); On 48 57 (St 243)]);
    (243, [Ch 46 (St 234); On 48 57 (St 233)]);
    (244, [Ch 46 (St 234); Ch 48 (St 245); Ch 53 (St 246)]);
    (245, [On 48 57 (St 233)]);
    (246, [Ch 48 (St 233)]);
    (247, [Ch 46 (St 232); On 48 57 (St 248)]);
    (248, [Ch 46 (St 232); On 48 57 (St 231)]);
    (249, [Ch 46 (St 232); Ch 48 (St 250); Ch 53 (St 251)]) ].

Definition http_states_36 : table :=
  [
    (250, [On 48 57 (St 231)]);
    (251, [Ch 48 (St 231)]);
    (252, [On 48 57 (St 253); Ch 58 (St 255); On 65 70 (St 253); On 97 102 (St 253)]);
    (253, [On 48 57 (St 254); Ch 58 (St 255); On 65 70 (St 254); On 97 102 (St 254)]);
    (254, [Ch 58 (St 255)]);
    (255, [On 48 57 (St 256); On 65 70 (St 256); On 97 102 (St 256)]);
    (256, [On 48 57 (St 257); On 65 70 (St 257); Ch 93 (St 236); On 97 102 (St 257)]);
    (257, [On 48 57 (St 258); On 65 70 (St 258); Ch 93 (St 236); On 97 102 (St 258)]);
    (258, [On 48 57 (St 235); On 65 70 (St 235); Ch 93 (St 236); On 97 102 (St 235)]);
    (259, [Ch 46 (St 230); On 48 57 (St 260); Ch 58 (St 255); On 65 70 (St 252); On 97 102 (St 252)]);
    (260, [Ch 46 (St 230); On 48 57 (St 261); Ch 58 (St 255); On 65 70 (St 253); On 97 102 (St 253)]) ].

Definition http_states_37 : table :=
  [
    (261, [Ch 46 (St 230); On 48 57 (St 254); Ch 58 (St 255); On 65 70 (St 254); On 97 102 (St 254)]);
    (262, [Ch 46 (St 230); Ch 48 (St 263); On 49 52 (St 252); Ch 53 (St 264); On 54 57 (St 252);
      Ch 58 (St 255); On 65 70 (St 252); On 97 102 (St 252)]);
    (263, [On 48 57 (St 261); Ch 58 (St 255); On 65 70 (St 253); On 97 102 (St 253)]);
    (264, [Ch 48 (St 261); On 49 57 (St 253); Ch 58 (St 255); On 65 70 (St 253); On 97 102 (St 253)]);
    (265, [On 48 57 (St 252); Ch 58 (St 255); On 65 70 (St 252); On 97 102 (St 252)]);
    (266, [On 48 57 (St 267); Ch 58 (St 270); On 65 70 (St 267); On 97 102 (St 267)]);
    (267, [On 48 57 (St 268); Ch 58 (St 270); On 65 70 (St 268); On 97 102 (St 268)]);
    (268, [On 48 57 (St 269); Ch 58 (St 270); On 65 70 (St 269); On 97 102 (St 269)]);
    (269, [Ch 58 (St 270)]);
    (270, [On 48 57 (St 271); Ch 58 (St 341); On 65 70 (St 271); On 97 102 (St 271)]) ].

Definition http_states_38 : table :=
  [
    (271, [On 48 57 (St 272); Ch 58 (St 275); On 65 70 (St 272); On 97 102 (St 272)]);
    (272, [On 48 57 (St 273); Ch 58 (St 275); On 65 70 (St 273); On 97 102 (St 273)]);
    (273, [On 48 57 (St 274); Ch 58 (St 275); On 65 70 (St 274); On 97 102 (St 274)]);
    (274, [Ch 58 (St 275)]);
    (275, [On 48 57 (St 276); Ch 58 (St 340); On 65 70 (St 276); On 97 102 (St 276)]);
    (276, [On 48 57 (St 277); Ch 58 (St 280); On 65 70 (St 277); On 97 102 (St 277)]);
    (277, [On 48 57 (St 278); Ch 58 (St 280); On 65 70 (St 278); On 97 102 (St 278)]);
    (278, [On 48 57 (St 279); Ch 58 (St 280); On 65 70 (St 279); On 97 102 (St 279)]);
    (279, [Ch 58 (St 280)]);
    (280, [On 48 57 (St 281); Ch 58 (St 339); On 65 70 (St 281); On 97 102 (St 281)]);
    (281, [On 48 57 (St 282); Ch 58 (St 285); On 65 70 (St 282); On 97 102 (St 282)]) ].

Definition http_states_39 : table :=
  [
    (282, [On 48 57 (St 283); Ch 58 (St 285); On 65 70 (St 283); On 97 102 (St 283)]);
    (283, [On 48 57 (St 284); Ch 58 (St 285); On 65 70 (St 284); On 97 102 (St 284)]);
    (284, [Ch 58 (St 285)]);
    (285, [On 48 57 (St 286); Ch 58 (St 338); On 65 70 (St 286); On 97 102 (St 286)]);
    (286, [On 48 57 (St 287); Ch 58 (St 290); On 65 70 (St 287); On 97 102 (St 287)]);
    (287, [On 48 57 (St 288); Ch 58 (St 290); On 65 70 (St 288); On 97 102 (St 288)]);
    (288, [On 48 57 (St 289); Ch 58 (St 290); On 65 70 (St 289); On 97 102 (St 289)]);
    (289, [Ch 58 (St 290)]);
    (290, [On 48 57 (St 291); Ch 58 (St 326); On 65 70 (St 291); On 97 102 (St 291)]);
    (291, [On 48 57 (St 292); Ch 58 (St 295); On 65 70 (St 292); On 97 102 (St 292)]);
    (292, [On 48 57 (St 293); Ch 58 (St 295); On 65 70 (St 293); On 97 102 (St 293)]) ].

Definition http_states_40 : table :=
  [
    (293, [On 48 57 (St 294); Ch 58 (St 295); On 65 70 (St 294); On 97 102 (St 294)]);
    (294, [Ch 58 (St 295)]);
    (295, [On 48 57 (St 296); Ch 58 (St 325); On 65 70 (St 296); On 97 102 (St 296)]);
    (296, [On 48 57 (St 297); Ch 58 (St 300); On 65 70 (St 297); On 97 102 (St 297)]);
    (297, [On 48 57 (St 298); Ch 58 (St 300); On 65 70 (St 298); On 97 102 (St 298)]);
    (298, [On 48 57 (St 299); Ch 58 (St 300); On 65 70 (St 299); On 97 102 (St 299)]);
    (299, [Ch 58 (St 300)]);
    (300, [On 48 57 (St 296); Ch 58 (St 301); On 65 70 (St 296); On 97 102 (St 296)]);
    (301, [On 2 3 (St 223); Ch 48 (St 302); Ch 49 (St 318); Ch 50 (St 321); On 51 57 (St 302);
      On 65 70 (St 324); Ch 93 (St 236); On 97 102 (St 324)]);
    (302, [Ch 46 (St 230); On 48 57 (St 303); Ch 58 (St 306); On 65 70 (St 303); Ch 93 (St 236);
      On 97 102 (St 303)]) ].

Definition http_states_41 : table :=
  [
    (303, [On 48 57 (St 304); Ch 58 (St 306); On 65 70 (St 304); Ch 93 (St 236); On 97 102 (St 304)]);
    (304, [On 48 57 (St 305); Ch 58 (St 306); On 65 70 (St 305); Ch 93 (St 236); On 97 102 (St 305)]);
    (305, [Ch 58 (St 306); Ch 93 (St 236)]);
    (306, [Ch 48 (St 307); Ch 49 (St 311); Ch 50 (St 314); On 51 57 (St 307); On 65 70 (St 317);
      On 97 102 (St 317)]);
    (307, [Ch 46 (St 230); On 48 57 (St 308); Ch 58 (St 255); On 65 70 (St 308); Ch 93 (St 236);
      On 97 102 (St 308)]);
    (308, [On 48 57 (St 309); Ch 58 (St 255); On 65 70 (St 309); Ch 93 (St 236); On 97 102 (St 309)]);
    (309, [On 48 57 (St 310); Ch 58 (St 255); On 65 70 (St 310); Ch 93 (St 236); On 97 102 (St 310)]);
    (310, [Ch 58 (St 255); Ch 93 (St 236)]);
    (311, [Ch 46 (St 230); On 48 57 (St 312); Ch 58 (St 255); On 65 70 (St 308); Ch 93 (St 236);
      On 97 102 (St 308)]) ].

Definition http_states_42 : table :=
  [
    (312, [Ch 46 (St 230); On 48 57 (St 313); Ch 58 (St 255); On 65 70 (St 309); Ch 93 (St 236);
      On 97 102 (St 309)]);
    (313, [Ch 46 (St 230); On 48 57 (St 310); Ch 58 (St 255); On 65 70 (St 310); Ch 93 (St 236);
      On 97 102 (St 310)]);
    (314, [Ch 46 (St 230); Ch 48 (St 315); On 49 52 (St 308); Ch 53 (St 316); On 54 57 (St 308);
      Ch 58 (St 255); On 65 70 (St 308); Ch 93 (St 236); On 97 102 (St 308)]);
    (315, [On 48 57 (St 313); Ch 58 (St 255); On 65 70 (St 309); Ch 93 (St 236); On 97 102 (St 309)]);
    (316, [Ch 48 (St 313); On 49 57 (St 309); Ch 58 (St 255); On 65 70 (St 309); Ch 93 (St 236);
      On 97 102 (St 309)]);
    (317, [On 48 57 (St 308); Ch 58 (St 255); On 65 70 (St 308); Ch 93 (St 236); On 97 102 (St 308)]);
    (318, [Ch 46 (St 230); On 48 57 (St 319); Ch 58 (St 306); On 65 70 (St 303); Ch 93 (St 236);
      On 97 102 (St 303)]);
    (319, [Ch 46 (St 230); On 48 57 (St 320); Ch 58 (St 306); On 65 70 (St 304); Ch 93 (St 236);
      On 97 102 (St 304)]) ].

Definition http_states_43 : table :=
  [
    (320, [Ch 46 (St 230); On 48 57 (St 305); Ch 58 (St 306); On 65 70 (St 305); Ch 93 (St 236);
      On 97 102 (St 305)]);
    (321, [Ch 46 (St 230); Ch 48 (St 322); On 49 52 (St 303); Ch 53 (St 323); On 54 57 (St 303);
      Ch 58 (St 306); On 65 70 (St 303); Ch 93 (St 236); On 97 102 (St 303)]);
    (322, [On 48 57 (St 320); Ch 58 (St 306); On 65 70 (St 304); Ch 93 (St 236); On 97 102 (St 304)]);
    (323, [Ch 48 (St 320); On 49 57 (St 304); Ch 58 (St 306); On 65 70 (St 304); Ch 93 (St 236);
      On 97 102 (St 304)]);
    (324, [On 48 57 (St 303); Ch 58 (St 306); On 65 70 (St 303); Ch 93 (St 236); On 97 102 (St 303)]);
    (325, [On 2 3 (St 223); Ch 48 (St 302); Ch 49 (St 318); Ch 50 (St 321); On 51 57 (St 302);
      On 65 70 (St 324); On 97 102 (St 324)]);
    (326, [On 2 3 (St 223); Ch 48 (St 327); Ch 49 (St 331); Ch 50 (St 334); On 51 57 (St 327);
      On 65 70 (St 337); On 97 102 (St 337)]);
    (327, [Ch 46 (St 230); On 48 57 (St 328); Ch 58 (St 306); On 65 70 (St 328); On 97 102 (St 328)]) ].

Definition http_states_44 : table :=
  [
    (328, [On 48 57 (St 329); Ch 58 (St 306); On 65 70 (St 329); On 97 102 (St 329)]);
    (329, [On 48 57 (St 330); Ch 58 (St 306); On 65 70 (St 330); On 97 102 (St 330)]);
    (330, [Ch 58 (St 306)]);
    (331, [Ch 46 (St 230); On 48 57 (St 332); Ch 58 (St 306); On 65 70 (St 328); On 97 102 (St 328)]);
    (332, [Ch 46 (St 230); On 48 57 (St 333); Ch 58 (St 306); On 65 70 (St 329); On 97 102 (St 329)]);
    (333, [Ch 46 (St 230); On 48 57 (St 330); Ch 58 (St 306); On 65 70 (St 330); On 97 102 (St 330)]);
    (334, [Ch 46 (St 230); Ch 48 (St 335); On 49 52 (St 328); Ch 53 (St 336); On 54 57 (St 328);
      Ch 58 (St 306); On 65 70 (St 328); On 97 102 (St 328)]);
    (335, [On 48 57 (St 333); Ch 58 (St 306); On 65 70 (St 329); On 97 102 (St 329)]);
    (336, [Ch 48 (St 333); On 49 57 (St 329); Ch 58 (St 306); On 65 70 (St 329); On 97 102 (St 329)]) ].

Definition http_states_45 : table :=
  [
    (337, [On 48 57 (St 328); Ch 58 (St 306); On 65 70 (St 328); On 97 102 (St 328)]);
    (338, [On 2 3 (St 223); On 48 57 (St 224); On 65 70 (St 224); On 97 102 (St 224)]);
    (339, [On 2 3 (St 223)]);
    (340, [Ch 3 (St 223)]);
    (341, [Ch 4 (St 223)]);
    (342, [Ch 58 (St 343)]);
    (343, [On 2 5 (St 223); Ch 48 (St 302); Ch 49 (St 318); Ch 50 (St 321); On 51 57 (St 302);
      On 65 70 (St 324); Ch 93 (St 236); On 97 102 (St 324)]);
    (344, [On 48 57 (St 345); On 65 70 (St 345); On 97 102 (St 345)]);
    (345, [Ch 46 (St 346); On 48 57 (St 345); On 65 70 (St 345); On 97 102 (St 345)]) ].

Definition http_states_46 : table :=
  [
    (346, [Ch 33 (St 347); Ch 36 (St 347); On 38 46 (St 347); On 48 59 (St 347); Ch 61 (St 347);
      On 65 90 (St 347); If 94 (St 347); Ch 95 (St 347); On 97 122 (St 347); If 123 (St 347);
      If 125 (St 347); Ch 126 (St 347)]);
    (347, [Ch 33 (St 347); Ch 36 (St 347); On 38 46 (St 347); On 48 59 (St 347); Ch 61 (St 347);
      On 65 90 (St 347); Ch 93 (St 236); If 94 (St 347); Ch 95 (St 347); On 97 122 (St 347);
      If 123 (St 347); If 125 (St 347); Ch 126 (St 347)]) ].

Definition http_table : table :=
  http_states_1
  ++ http_states_2
  ++ http_states_3
  ++ http_states_4
  ++ http_states_5
  ++ http_states_6
  ++ http_states_7
  ++ http_states_8
  ++ http_states_9
  ++ http_states_10
  ++ http_states_11
  ++ http_states_12
  ++ http_states_13
  ++ http_states_14
  ++ http_states_15
  ++ http_states_16
  ++ http_states_17
  ++ http_states_18
  ++ http_states_19
  ++ http_states_20
  ++ http_states_21
  ++ http_states_22
  ++ http_states_23
  ++ http_states_24
  ++ http_states_25
  ++ http_states_26
  ++ http_states_27
  ++ http_states_28
  ++ http_states_29
  ++ http_states_30
  ++ http_states_31
  ++ http_states_32
  ++ http_states_33
  ++ http_states_34
  ++ http_states_35
  ++ http_states_36
  ++ http_states_37
  ++ http_states_38
  ++ http_states_39
  ++ http_states_40
  ++ http_states_41
  ++ http_states_42
  ++ http_states_43
  ++ http_states_44
  ++ http_states_45
  ++ http_states_46.
