(* ===== verification/HttpParser.v ===== *)
(** The request parser (skt/http/http11_parser.rl, and the class
    HttpRequestParser of skt/http/http_parser.cpp around it).

    The generated machine is in HttpTable; here are the parser's struct, the
    actions of the grammar, the code around the machine, and the facts about
    the machine that the properties use. A buffer is its text. *)

From stdpp Require Import base list strings.
From Stdlib Require Import Ascii Lia.
From S2P Require Import Prelude StdOrdered CString Http Ragel HttpTable.

(** struct http_parser; the callbacks are those of the class. *)
Record http_parser : Type := mkHP {
  hp_cs : Z;
  hp_body_start : Z;
  hp_content_len : Z;
  hp_nread : Z;
  hp_mark : Z;
  hp_field_start : Z;
  hp_field_len : Z;
  hp_query_start : Z;
  hp_xml_sent : bool;
  hp_json_sent : bool;
  hp_uri_relaxed : bool
}.

Definition http_parser_start : Z := 1.
Definition http_parser_first_final : Z := 348.
Definition http_parser_error : Z := 0.

(** The initialised fields; query_start and uri_relaxed keep what the memory
    held, [h]. *)
Definition http_parser_init (h : http_parser) : http_parser :=
  mkHP http_parser_start 0 0 0 0 0 0 (hp_query_start h) false false (hp_uri_relaxed h).

Definition http_parser_has_error (h : http_parser) : bool := hp_cs h =? http_parser_error.
Definition http_parser_is_finished (h : http_parser) : bool := http_parser_first_final <=? hp_cs h.
Definition http_parser_finish (h : http_parser) : Z :=
  if http_parser_has_error h then -1 else if http_parser_is_finished h then 1 else 0.

(** The class HttpRequestParser with its machine. *)
Record RequestParser : Type := mkRP { m_parser : http_parser; m_cb : HttpRequestParser }.

Definition RequestParser_new (h : http_parser) : RequestParser :=
  mkRP (http_parser_init h) HttpRequestParser_new.

Definition set_cs v (h : http_parser) : http_parser :=
  mkHP v (hp_body_start h) (hp_content_len h) (hp_nread h) (hp_mark h) (hp_field_start h) (hp_field_len h)
    (hp_query_start h) (hp_xml_sent h) (hp_json_sent h) (hp_uri_relaxed h).
Definition set_body v c (h : http_parser) : http_parser :=
  mkHP (hp_cs h) v c (hp_nread h) (hp_mark h) (hp_field_start h) (hp_field_len h)
    (hp_query_start h) (hp_xml_sent h) (hp_json_sent h) (hp_uri_relaxed h).
Definition set_nread v (h : http_parser) : http_parser :=
  mkHP (hp_cs h) (hp_body_start h) (hp_content_len h) v (hp_mark h) (hp_field_start h) (hp_field_len h)
    (hp_query_start h) (hp_xml_sent h) (hp_json_sent h) (hp_uri_relaxed h).
Definition set_mark v (h : http_parser) : http_parser :=
  mkHP (hp_cs h) (hp_body_start h) (hp_content_len h) (hp_nread h) v (hp_field_start h) (hp_field_len h)
    (hp_query_start h) (hp_xml_sent h) (hp_json_sent h) (hp_uri_relaxed h).
Definition set_field_start v (h : http_parser) : http_parser :=
  mkHP (hp_cs h) (hp_body_start h) (hp_content_len h) (hp_nread h) (hp_mark h) v (hp_field_len h)
    (hp_query_start h) (hp_xml_sent h) (hp_json_sent h) (hp_uri_relaxed h).
Definition set_field_len v (h : http_parser) : http_parser :=
  mkHP (hp_cs h) (hp_body_start h) (hp_content_len h) (hp_nread h) (hp_mark h) (hp_field_start h) v
    (hp_query_start h) (hp_xml_sent h) (hp_json_sent h) (hp_uri_relaxed h).
Definition set_query_start v (h : http_parser) : http_parser :=
  mkHP (hp_cs h) (hp_body_start h) (hp_content_len h) (hp_nread h) (hp_mark h) (hp_field_start h) (hp_field_len h)
    v (hp_xml_sent h) (hp_json_sent h) (hp_uri_relaxed h).
Definition set_sent x j (h : http_parser) : http_parser :=
  mkHP (hp_cs h) (hp_body_start h) (hp_content_len h) (hp_nread h) (hp_mark h) (hp_field_start h) (hp_field_len h)
    (hp_query_start h) x j (hp_uri_relaxed h).

Definition hp_upd (f : http_parser → http_parser) (s : RequestParser) : RequestParser :=
  mkRP (f (m_parser s)) (m_cb s).
Definition cb_upd (f : HttpRequestParser → HttpRequestParser) (s : RequestParser) : RequestParser :=
  mkRP (m_parser s) (f (m_cb s)).

Section Buffer.
(** The len bytes at buffer. *)
Context (buffer : str).

(** LEN(AT, FPC), a size_t *)
Definition LEN (at_ p : Z) : Z := u64 (p - at_).
(** PTR_TO(F) *)
Definition PTR_TO (at_ : Z) : str := drop (Z.to_nat at_) buffer.

(** A callback makes a std::string of [len] bytes at offset [at_]: for a length
    that has wrapped around, which exceeds max_size, the constructor throws. *)
Definition in_buffer {S} (at_ len : Z) : M S unit :=
  if at_ + len <=? zlen buffer then mret tt
  else if 2 ^ 63 - 1 <? len then mthrow (length_error "basic_string::_M_create") else mstop OutOfBounds.
Definition element (cb : str → nat → HttpRequestParser → HttpRequestParser) (at_ len : Z) : M RequestParser unit :=
  in_buffer at_ len ≫= λ _, mmodify (cb_upd (cb (PTR_TO at_) (Z.to_nat len))).

Definition http_act (a : http_action) (p : Z) : M RequestParser unit :=
  s ← mget;
  let h := m_parser s in
  match a with
  | a_mark | a_start_value => mmodify (hp_upd (set_mark p))
  | a_start_field => mmodify (hp_upd (set_field_start p))
  | a_write_field => mmodify (hp_upd (set_field_len (LEN (hp_field_start h) p)))
  | a_write_value =>
    in_buffer (hp_field_start h) (hp_field_len h) ≫= λ _,
    in_buffer (hp_mark h) (LEN (hp_mark h) p) ≫= λ _,
    mmodify (cb_upd (on_request_http_filed (PTR_TO (hp_field_start h)) (Z.to_nat (hp_field_len h))
      (PTR_TO (hp_mark h)) (Z.to_nat (LEN (hp_mark h) p))))
  | a_request_method => element on_request_method (hp_mark h) (LEN (hp_mark h) p)
  | a_request_uri => element on_request_uri (hp_mark h) (LEN (hp_mark h) p)
  | a_fragment => element on_request_fragment (hp_mark h) (LEN (hp_mark h) p)
  | a_start_query => mmodify (hp_upd (set_query_start p))
  | a_query_string => element on_request_query (hp_query_start h) (LEN (hp_query_start h) p)
  | a_http_version => element on_request_version (hp_mark h) (LEN (hp_mark h) p)
  | a_request_path => element on_request_path (hp_mark h) (LEN (hp_mark h) p)
  | a_done =>
    if hp_xml_sent h || hp_json_sent h
    then mmodify (hp_upd (set_body (hp_mark h) (i32 (p - hp_mark h + 1))))
    else mmodify (hp_upd (set_body (p + 1) (hp_content_len h))) ≫= λ _,
         mmodify (cb_upd (on_request_header_done (PTR_TO (p + 1)) (Z.to_nat (zlen buffer - p - 1))))
  | a_xml => mmodify (hp_upd (set_sent true (hp_json_sent h)))
  | a_json => mmodify (hp_upd (set_sent (hp_xml_sent h) true))
  end.

(** done ends with fbreak. *)
Definition http_breaks (a : http_action) : bool := match a with a_done => true | _ => false end.

(** The code after the switch sets cs = 2 first. *)
Definition http_exec (relaxed : bool) : Z → Z → str → M RequestParser (Z * Z) :=
  exec http_table http_tr relaxed http_act http_breaks 2.

Definition http_parser_execute (off : Z) : M RequestParser Z :=
  if zlen buffer =? 0 then mret 0
  else
    mmodify (hp_upd (λ h, set_field_start 0 (set_field_len 0 (set_mark 0 (set_nread 0 h))))) ≫= λ _,
    s ← mget;
    massert (off <=? zlen buffer) ≫= λ _,
    massert (zlen buffer - off =? i32 (zlen buffer) - i32 off) ≫= λ _,
    '(cs, p) ← http_exec (hp_uri_relaxed (m_parser s)) (hp_cs (m_parser s)) off (PTR_TO off);
    massert (p <=? zlen buffer) ≫= λ _,
    mmodify (hp_upd (λ h, if http_parser_has_error h then h else set_cs cs h)) ≫= λ _,
    mmodify (hp_upd (λ h, set_nread (hp_nread h + (p - off)) h)) ≫= λ _,
    s' ← mget;
    let h := m_parser s' in
    massert (hp_nread h <=? zlen buffer) ≫= λ _,
    massert (hp_body_start h <=? zlen buffer) ≫= λ _,
    massert (hp_mark h <? zlen buffer) ≫= λ _,
    massert (hp_field_len h <=? zlen buffer) ≫= λ _,
    massert (hp_field_start h <? zlen buffer) ≫= λ _,
    mret (hp_nread h).

(** HttpRequestParser::excute: the number of bytes read, and the bytes moved to
    the front of the buffer. *)
Definition excute : M RequestParser (Z * str) :=
  offset ← http_parser_execute 0;
  mret (offset, drop (Z.to_nat offset) buffer).

End Buffer.

Definition isFinished (s : RequestParser) : Z := http_parser_finish (m_parser s).
Definition hasError (s : RequestParser) : bool := qp_hasError (http_parser_has_error (m_parser s)) (m_cb s).

(** ** Concrete runs *)

(** Whatever was in memory before the constructor. *)
Definition blank : http_parser := mkHP 7 7 7 7 7 7 7 7 true true false.

Definition run_chunks (chunks : list str) : M RequestParser (list Z) :=
  foldr (λ b k, '(n, _) ← excute b; ns ← k; mret (n :: ns)) (mret []) chunks.

Definition fields (r : result RequestParser (list Z)) : option (list Z * Z * HttpRequest) :=
  match r with Ok ns s => Some (ns, isFinished s, qp_data (m_cb s)) | _ => None end.
