(* ===== verification/HttpParserSafe.v ===== *)
(** The request parser never leaves its buffer.

    What an action may rely on is checked once for every edge of the machine
    ([http_table_checked]); the invariant of a run follows from the check. *)

From stdpp Require Import base list strings.
From Stdlib Require Import Ascii Lia.
From S2P Require Import Prelude StdOrdered CString Http Ragel HttpTable HttpParser.

(** The states inside a query, and inside a header value. *)
Definition in_query (cs : Z) : bool := (30 <=? cs) && (cs <=? 32).
Definition in_value (cs : Z) : bool := (15 <=? cs) && (cs <=? 16).

(** [f.1]: query_start is set; [f.2]: field_start and field_len are set. None:
    the action would use what is not set. *)
Definition act_flags (a : http_action) (f : bool * bool) : option (bool * bool) :=
  match a with
  | a_start_query => Some (true, f.2)
  | a_query_string => if f.1 then Some f else None
  | a_start_field => Some (f.1, false)
  | a_write_field => Some (f.1, true)
  | a_write_value => if f.2 then Some f else None
  | _ => Some f
  end.
Fixpoint acts_flags (acts : list http_action) (f : bool * bool) : option (bool * bool) :=
  match acts with
  | [] => Some f
  | a :: acts' => match act_flags a f with Some f' => acts_flags acts' f' | None => None end
  end.

(** done is the last action of its transition. *)
Fixpoint breaks_last (acts : list http_action) : bool :=
  match acts with
  | [] => true
  | [_] => true
  | a :: acts' => negb (http_breaks a) && breaks_last acts'
  end.

Definition edge_checked (cs : Z) (e : edge) : bool :=
  let '(acts, tgt) := resolve http_tr (jump_of e) in
  breaks_last acts &&
  match acts_flags acts (in_query cs, in_value cs) with
  | None => false
  | Some (q, v) =>
    if existsb http_breaks acts then http_parser_first_final <=? tgt
    else implb (in_query tgt) q && implb (in_value tgt) v && (1 <=? tgt) && (tgt <? http_parser_first_final)
  end.

Lemma http_table_checked : forallb (λ '(cs, es), forallb (edge_checked cs) es) http_table = true.
Proof. vm_compute. reflexivity. Qed.

Lemma http_states_known : forallb (λ n, bool_decide (is_Some (state_edges (Z.of_nat n) http_table))) (seq 1 347) = true.
Proof. vm_compute. reflexivity. Qed.

Lemma state_known cs : 1 ≤ cs < http_parser_first_final → state_edges cs http_table ≠ None.
Proof.
  intros Hcs. unfold http_parser_first_final in Hcs.
  pose proof (proj1 (forallb_forall _ _) http_states_known (Z.to_nat cs)) as H. cbv beta in H.
  rewrite Z2Nat.id in H by lia. rewrite bool_decide_eq_true in H.
  destruct H as [es E]; [apply in_seq; lia|congruence].
Qed.

Lemma next_checked b cs c j :
  next http_table b cs c = Some j → ∃ e, jump_of e = j ∧ edge_checked cs e = true.
Proof. apply next_all, http_table_checked. Qed.

Section Run.
Context (buffer : str) (Hlen : 0 < zlen buffer < 2 ^ 31).

(** The offsets at position [p], when the flags [f] hold. *)
Definition offsets_ok (f : bool * bool) (p : Z) (h : http_parser) : Prop :=
  hp_nread h = 0 ∧
  (0 ≤ hp_mark h ≤ p ∧ hp_mark h < zlen buffer) ∧
  (0 ≤ hp_field_start h ≤ p ∧ hp_field_start h < zlen buffer) ∧
  0 ≤ hp_field_len h ≤ p ∧
  (f.1 = true → 0 ≤ hp_query_start h ≤ p) ∧
  (f.2 = true → hp_field_start h + hp_field_len h ≤ p).

Lemma LEN_small a p : 0 ≤ a ≤ p → p < zlen buffer → LEN a p = p - a.
Proof. intros Ha Hp. apply wrapu_small. split; lia. Qed.

Lemma in_buffer_ok {S} at_ len (s : S) : at_ + len ≤ zlen buffer → in_buffer buffer at_ len s = Ok tt s.
Proof. intros H. unfold in_buffer. by rewrite (proj2 (Z.leb_le _ _)). Qed.

Lemma element_ok cb a p s :
  0 ≤ a ≤ p → p < zlen buffer →
  element buffer cb a (LEN a p) s = Ok tt (cb_upd (cb (PTR_TO buffer a) (Z.to_nat (p - a))) s).
Proof.
  intros Ha Hp. unfold element. erewrite bind_ok; [|apply in_buffer_ok; rewrite LEN_small by lia; lia].
  by rewrite LEN_small.
Qed.

(** What every action that does not break leaves. *)
Lemma act_ok a f f' p s :
  act_flags a f = Some f' → http_breaks a = false → 0 ≤ p < zlen buffer → offsets_ok f p (m_parser s) →
  ∃ s', http_act buffer a p s = Ok tt s' ∧ offsets_ok f' p (m_parser s') ∧
        hp_body_start (m_parser s') = hp_body_start (m_parser s) ∧ hp_cs (m_parser s') = hp_cs (m_parser s).
Proof.
  intros Hf Hb Hp (Hn & Hm & Hs & Hl & Hq & Hv). unfold http_act. erewrite bind_ok; [|reflexivity].
  destruct a; cbn in Hf; try done; simplify_eq;
    try (eexists; split; [reflexivity|]; split; [|done]; unfold offsets_ok; cbn; by split_and!; auto with lia);
    try (eexists; split; [apply element_ok; lia|]; split; [|done]; by unfold offsets_ok; auto).
  - (* write_field *)
    eexists. split; [reflexivity|]. split; [|done]. unfold offsets_ok. cbn. rewrite LEN_small by lia.
    split_and!; auto with lia.
  - (* write_value *)
    destruct (f.2) eqn:Ef; [|done]. simplify_eq. specialize (Hv eq_refl).
    erewrite bind_ok; [|apply in_buffer_ok; lia].
    erewrite bind_ok; [|apply in_buffer_ok; rewrite LEN_small by lia; lia].
    eexists. split; [reflexivity|]. split; [|done]. unfold offsets_ok. by rewrite Ef.
  - (* query_string *)
    destruct (f.1) eqn:Ef; [|done]. simplify_eq. specialize (Hq eq_refl).
    eexists. split; [apply element_ok; lia|]. split; [|done]. unfold offsets_ok. by rewrite Ef.
Qed.

(** A transition: its actions succeed; it ends with an fbreak, body_start set
    inside the buffer, or leaves the flags the check computes. *)
Lemma run_acts_ok acts f f' p s :
  acts_flags acts f = Some f' → breaks_last acts = true → 0 ≤ p < zlen buffer →
  offsets_ok f p (m_parser s) → hp_body_start (m_parser s) = 0 →
  ∃ s', run_acts (http_act buffer) http_breaks acts p s = Ok (existsb http_breaks acts) s' ∧
    offsets_ok f' p (m_parser s') ∧ hp_cs (m_parser s') = hp_cs (m_parser s) ∧
    (if existsb http_breaks acts then 0 ≤ hp_body_start (m_parser s') ≤ zlen buffer else hp_body_start (m_parser s') = 0).
Proof.
  revert f s. induction acts as [|a acts IH]; intros f s Hf Hb Hp Ho H0.
  { cbn in Hf. simplify_eq. by exists s. }
  cbn [acts_flags] in Hf. destruct (act_flags a f) as [f1|] eqn:Ef; [|done]. cbn [run_acts existsb].
  destruct (http_breaks a) eqn:Ea.
  - assert (acts = []) as -> by (destruct acts; [done|]; cbn in Hb; by rewrite Ea in Hb).
    destruct a; try done. cbn in Ef, Hf. simplify_eq.
    pose proof Ho as (_ & Hm & _). unfold http_act.
    destruct (hp_xml_sent (m_parser s) || hp_json_sent (m_parser s)) eqn:Ex.
    + eexists. split; [mred; rewrite Ex; reflexivity|]. split; [done|]. split; [done|]. cbn. lia.
    + eexists. split; [mred; rewrite Ex; reflexivity|]. split; [done|]. split; [done|]. cbn. lia.
  - destruct (act_ok a f f1 p s) as (s1 & E1 & Ho1 & Hb1 & Hc1); [done..|]. run E1.
    destruct (IH f1 s1) as (s' & E' & Ho' & Hc' & Hb'); [done| |done|done|congruence|].
    { destruct acts; [done|]. cbn in Hb. by apply andb_true_iff in Hb as [_ Hb]. }
    exists s'. split; [done|]. split; [done|]. split; [congruence|done].
Qed.

(** While the machine reads. *)
Definition reading (h0 : http_parser) (cs p : Z) (s : RequestParser) : Prop :=
  1 ≤ cs < http_parser_first_final ∧ hp_body_start (m_parser s) = 0 ∧
  hp_cs (m_parser s) = hp_cs h0 ∧
  offsets_ok (in_query cs, in_value cs) p (m_parser s).
(** When it is done. *)
Definition read_done (h0 : http_parser) (cs p : Z) (s : RequestParser) : Prop :=
  http_parser_first_final ≤ cs ∧ 0 ≤ hp_body_start (m_parser s) ≤ zlen buffer ∧
  hp_cs (m_parser s) = hp_cs h0 ∧
  offsets_ok (false, false) p (m_parser s).

Lemma offsets_next f f' p h :
  offsets_ok f p h → (f'.1 = true → f.1 = true) → (f'.2 = true → f.2 = true) → offsets_ok f' (p + 1) h.
Proof.
  intros (Hn & Hm & Hs & Hl & Hq & Hv) H1 H2. split_and!; auto with lia.
  - intros H. specialize (Hq (H1 H)). lia.
  - intros H. specialize (Hv (H2 H)). lia.
Qed.

Lemma reading_step b h0 cs c j p s :
  reading h0 cs p s → 0 ≤ p < zlen buffer → next http_table b cs c = Some j →
  ∃ (brk : bool) s', run_acts (http_act buffer) http_breaks (resolve http_tr j).1 p s = Ok brk s' ∧
    (if brk then read_done h0 else reading h0) (resolve http_tr j).2 (p + 1) s'.
Proof.
  intros (Hcs & H0 & Hc & Ho) Hp (e & <- & He)%next_checked. unfold edge_checked in He.
  destruct (resolve http_tr (jump_of e)) as [acts tgt]. cbn [fst snd].
  apply andb_true_iff in He as [Hb He]. destruct (acts_flags acts _) as [[q v]|] eqn:Ef; [|done].
  destruct (run_acts_ok acts _ _ p s Ef Hb Hp Ho H0) as (s' & E & Ho' & Hc' & Hb').
  exists (existsb http_breaks acts), s'. split; [exact E|]. destruct (existsb http_breaks acts).
  - split; [by apply Z.leb_le|]. split; [done|]. split; [congruence|]. by eapply offsets_next.
  - rewrite !andb_true_iff, Z.leb_le, Z.ltb_lt in He. destruct He as [[[Hq Hv] H1] H2].
    split; [lia|]. split; [done|]. split; [congruence|]. eapply offsets_next; [done|..]; cbn; intros Ht.
    + by rewrite Ht in Hq.
    + by rewrite Ht in Hv.
Qed.

End Run.

(** A parser that can take the next buffer: not finished, no error, and not
    stopped inside a query. *)
Definition ready (s : RequestParser) : Prop :=
  1 ≤ hp_cs (m_parser s) < http_parser_first_final ∧ in_query (hp_cs (m_parser s)) = false ∧
  hp_body_start (m_parser s) = 0.

Lemma ready_new h : ready (RequestParser_new h).
Proof. by unfold ready; cbn. Qed.

(** The fields the code resets before each buffer. *)
Definition reset_fields (h : http_parser) : http_parser :=
  set_field_start 0 (set_field_len 0 (set_mark 0 (set_nread 0 h))).

(** The code after the machine, once the machine has stopped inside the buffer
    with sane offsets. *)
Lemma execute_after buffer s cs p s1 f :
  0 < zlen buffer < 2 ^ 31 →
  http_exec buffer (hp_uri_relaxed (m_parser s)) (hp_cs (m_parser s)) 0 buffer (hp_upd reset_fields s) = Ok (cs, p) s1 →
  0 ≤ p ≤ zlen buffer → offsets_ok buffer f p (m_parser s1) → hp_body_start (m_parser s1) ≤ zlen buffer →
  hp_cs (m_parser s1) ≠ http_parser_error →
  http_parser_execute buffer 0 s = Ok p (hp_upd (λ h, set_nread p (set_cs cs h)) s1).
Proof.
  intros Hlen E Hp (Hn & Hm & Hs & Hl & _) Hb Hcs. unfold http_parser_execute.
  rewrite (proj2 (Z.eqb_neq (zlen buffer) 0)) by lia.
  rewrite bind_modify. erewrite bind_ok; [|reflexivity].
  rewrite (proj2 (Z.leb_le 0 (zlen buffer))) by lia. erewrite bind_ok; [|reflexivity].
  rewrite (wraps_small 32 (zlen buffer)), Z.eqb_refl by (unfold in_s; lia). erewrite bind_ok; [|reflexivity].
  erewrite bind_ok; [|exact E]. cbv beta iota. rewrite (proj2 (Z.leb_le p (zlen buffer))) by lia.
  erewrite bind_ok; [|reflexivity]. rewrite bind_modify, bind_modify.
  assert (hp_upd (λ h, set_nread (hp_nread h + (p - 0)) h)
    (hp_upd (λ h, if http_parser_has_error h then h else set_cs cs h) s1)
    = hp_upd (λ h, set_nread p (set_cs cs h)) s1) as ->.
  { unfold hp_upd, http_parser_has_error. cbn [m_parser m_cb]. rewrite (proj2 (Z.eqb_neq _ _) Hcs).
    cbn [hp_nread set_cs]. by rewrite Hn, Z.sub_0_r, Z.add_0_l. }
  erewrite bind_ok; [|reflexivity]. cbn [m_parser hp_upd hp_nread hp_body_start hp_mark hp_field_len hp_field_start set_nread set_cs].
  rewrite (proj2 (Z.leb_le p (zlen buffer))), (proj2 (Z.leb_le (hp_body_start _) (zlen buffer))),
    (proj2 (Z.ltb_lt (hp_mark _) (zlen buffer))), (proj2 (Z.leb_le (hp_field_len _) (zlen buffer))),
    (proj2 (Z.ltb_lt (hp_field_start _) (zlen buffer))) by lia.
  done.
Qed.

(** The run of the machine inside execute. *)
Lemma execute_runs buffer s :
  ready s → 0 < zlen buffer < 2 ^ 31 →
  ∃ cs p s1,
    http_exec buffer (hp_uri_relaxed (m_parser s)) (hp_cs (m_parser s)) 0 buffer (hp_upd reset_fields s) = Ok (cs, p) s1 ∧
    http_parser_execute buffer 0 s = Ok p (hp_upd (λ h, set_nread p (set_cs cs h)) s1) ∧ 0 ≤ p ≤ zlen buffer ∧
    ((1 ≤ cs < http_parser_first_final ∧ hp_body_start (m_parser s1) = 0 ∧ p = zlen buffer) ∨
     (http_parser_first_final ≤ cs ∧ 0 ≤ hp_body_start (m_parser s1) ≤ zlen buffer) ∨
     (cs = 0 ∧ p < zlen buffer)).
Proof.
  intros (Hcs & Hq & Hb) Hlen. pose (h0 := m_parser s).
  destruct (exec_inv_at http_table http_tr (hp_uri_relaxed h0) (http_act buffer) http_breaks 2
    (reading buffer h0) (read_done buffer h0) buffer (hp_cs h0) 0 buffer (hp_upd reset_fields s))
    as (cs & p & s1 & E & Hp & Hout).
  - intros. by eapply reading_step.
  - intros cs' p' s' (H & _). by apply state_known.
  - lia.
  - done.
  - split; [done|]. split; [done|]. split; [done|]. subst h0. rewrite Hq. unfold offsets_ok. cbn.
    split_and!; auto with lia.
  - assert (∃ f, offsets_ok buffer f p (m_parser s1) ∧ hp_cs (m_parser s1) = hp_cs h0 ∧
      0 ≤ hp_body_start (m_parser s1) ≤ zlen buffer) as (f & Ho & Hc1 & Hb1).
    { destruct Hout as [[(_ & H0 & Hc & Ho) _]|[(_ & H0 & Hc & Ho)|(_ & _ & cs0 & _ & H0 & Hc & Ho)]];
        eexists; (split; [exact Ho|]; split; [done|lia]). }
    exists cs, p, s1. split; [done|]. split.
    { eapply execute_after; [done|exact E|done|done|lia|]. rewrite Hc1. unfold http_parser_error. subst h0. lia. }
    split; [done|]. destruct Hout as [[(Hcs1 & H0 & _) ->]|[(Hcs1 & H0 & _)|(-> & Hp1 & _)]]; auto.
Qed.

(** C32: From a fresh request parser, or one that needs more input and did not stop
    inside a query, on every buffer of less than 2^31 bytes the parser stays inside
    the buffer: no callback is given a text that leaves it, no assertion fails, and
    execute returns. It has read the whole buffer unless the request is complete
    or malformed, and a parser that needs more input can take the next buffer if
    it did not stop inside a query. (One that did throws on the next buffer,
    [split_query_throws].) *)
Theorem execute_safe buffer s :
  ready s → 0 < zlen buffer < 2 ^ 31 →
  ∃ n s', http_parser_execute buffer 0 s = Ok n s' ∧ 0 ≤ n ≤ zlen buffer ∧ hp_nread (m_parser s') = n ∧
    ((isFinished s' = 0 ∧ n = zlen buffer ∧ (in_query (hp_cs (m_parser s')) = false → ready s')) ∨
     (isFinished s' = 1 ∧ hp_body_start (m_parser s') ≤ zlen buffer) ∨
     (isFinished s' = -1 ∧ n < zlen buffer)).
Proof.
  intros Hr Hlen. destruct (execute_runs buffer s Hr Hlen) as (cs & p & s1 & _ & E & Hp & Hout).
  eexists p, _. split; [exact E|]. split; [done|]. split; [done|].
  unfold isFinished, http_parser_finish, ready, http_parser_has_error, http_parser_is_finished. cbn.
  unfold http_parser_error, http_parser_first_final in *. destruct Hout as [(Hcs & H0 & ->)|[(Hcs & H0)|(-> & Hp1)]].
  - left. rewrite (proj2 (Z.eqb_neq cs 0)), (proj2 (Z.leb_gt _ cs)) by lia. auto.
  - right; left. rewrite (proj2 (Z.eqb_neq cs 0)), (proj2 (Z.leb_le _ cs)) by lia. split; [done|lia].
  - right; right. split; [done|lia].
Qed.

Lemma execute_safe_witness : ∃ n s', http_parser_execute (L "GET /index.html?a=") 0 (RequestParser_new blank) = Ok n s'.
Proof.
  destruct (execute_safe (L "GET /index.html?a=") (RequestParser_new blank)) as (n & s' & E & _).
  - apply ready_new.
  - split; reflexivity.
  - by exists n, s'.
Defined.

(** A query that is split between two buffers: query_start is not reset, the
    length wraps around and the callback throws. *)
Lemma split_query_throws :
  ∃ s, run_chunks [L "GET /abc?x"; L "=1 HTTP/1.1"] (RequestParser_new blank)
    = Exc (length_error "basic_string::_M_create") s.
Proof. eexists. vm_compute. reflexivity. Qed.

(** Any other text that is split loses its first part: the buffer is read to
    its end, so nothing is kept for the next call. *)
Lemma split_path_lost :
  match fields (run_chunks [L "GET /ab"; L "c HTTP/1.1" ++ CRLF ++ CRLF] (RequestParser_new blank)) with
  | Some (ns, fin, r) => ns = [7; 14] ∧ fin = 1 ∧ q_path r = L "c"
  | None => False
  end.
Proof. vm_compute. split; [reflexivity|]. split; reflexivity. Qed.

(** A malformed request: hasError says no, and isFinished is not zero. *)
Lemma malformed_request_unnoticed :
  ∃ s, excute (L "get / HTTP/1.1") (RequestParser_new blank) = Ok (0, L "get / HTTP/1.1") s ∧
    hasError s = false ∧ isFinished s = -1.
Proof. eexists. split; [vm_compute; reflexivity|]. split; reflexivity. Qed.

(** A line without a colon becomes part of the next header's name: the
    grammar's HTTP_CTL does not contain the control characters. *)
Lemma header_name_with_newline :
  match fields (run_chunks [L "GET / HTTP/1.1" ++ CRLF ++ L "x" ++ CRLF ++ L "Host:a" ++ CRLF ++ CRLF]
    (RequestParser_new blank)) with
  | Some (_, fin, r) => fin = 1 ∧ q_headers r = [(L "x" ++ CRLF ++ L "Host", L "a")]
  | None => False
  end.
Proof. vm_compute. split; reflexivity. Qed.
