(* ===== verification/HttpRoundtrip.v ===== *)
(** Parsing what HttpRequest::dump prints.

    The machine is followed along each part of a printed request: method,
    path, query, fragment, version, headers, empty line. The characters a part
    may contain are checked against the machine's edges by evaluation
    ([goes]). *)

From stdpp Require Import base list strings.
From Stdlib Require Import Ascii Lia.
From S2P Require Import Prelude StdOrdered CString Http HttpProps Ragel HttpTable HttpParser HttpParserSafe.

(** ** Characters *)

(** In state [cs] the machine takes [j] on every character of the class [P]. *)
Definition goes : bool → Z → (ascii → bool) → jump → bool := goes_in http_table.

Lemma goes_next b cs P j c : goes b cs P j = true → P c = true → next http_table b cs c = Some j.
Proof. apply goes_in_next. Qed.

(** RFC 7230's token characters that the grammar admits. *)
Definition token_char (c : ascii) : bool :=
  eqc 33 c || between 35 39 c || between 42 43 c || between 45 46 c || between 48 57 c || between 65 90 c
  || between 94 122 c || eqc 124 c || eqc 126 c.
Definition value_char (c : ascii) : bool := negb (eqc 0 c || eqc 10 c || eqc 13 c || eqc 127 c).
Definition blank_char (c : ascii) : bool := eqc 9 c || eqc 32 c.

(** The loops of the grammar. *)
Lemma walk_path b w : escaped uri_char w = true → walk http_table b 26 w = Some 26.
Proof. apply (walk_escaped http_table b uri_char 26 27 28); destruct b; vm_compute; reflexivity. Qed.
Lemma walk_query b w : escaped query_char w = true → walk http_table b 30 w = Some 30.
Proof. apply (walk_escaped http_table b query_char 30 31 32); destruct b; vm_compute; reflexivity. Qed.
Lemma walk_fragment b w : escaped query_char w = true → walk http_table b 21 w = Some 21.
Proof. apply (walk_escaped http_table b query_char 21 22 23); destruct b; vm_compute; reflexivity. Qed.
Lemma walk_name b w : forallb token_char w = true → walk http_table b 14 w = Some 14.
Proof. apply walk_class. intros c. apply goes_next. destruct b; vm_compute; reflexivity. Qed.
Lemma walk_value b w : forallb value_char w = true → walk http_table b 16 w = Some 16.
Proof. apply walk_class. intros c. apply goes_next. destruct b; vm_compute; reflexivity. Qed.

(** The text of a path after its first slash. *)
Definition path_rest_ok (w : str) : bool :=
  escaped uri_char w && match w with c :: _ => negb (eqc 47 c) | [] => true end.

Lemma walk_path_start b w : path_rest_ok w = true → ∃ cs, walk http_table b 33 w = Some cs ∧ (cs = 33 ∨ cs = 26).
Proof.
  unfold path_rest_ok. destruct w as [|c w]; [exists 33; auto|].
  intros [Hw Hc]%andb_true_iff. exists 26. split; [|by right]. revert Hw. cbn [escaped].
  destruct (eqc 37 c) eqn:Hp.
  - destruct w as [|c1 [|c2 w]]; [done..|]. intros [[Hc1 Hc2]%andb_true_iff Hw]%andb_true_iff. cbn [walk].
    rewrite (goes_next b 33 (eqc 37) (St 27)), (goes_next b 27 hex_char (St 28)), (goes_next b 28 hex_char (St 26))
      by (done || (destruct b; vm_compute; reflexivity)).
    by apply walk_path.
  - intros [HP Hw]%andb_true_iff. cbn [walk].
    rewrite (goes_next b 33 (λ c, uri_char c && negb (eqc 47 c)) (St 26))
      by (by rewrite HP || (destruct b; vm_compute; reflexivity)).
    by apply walk_path.
Qed.

(** ** Parts of a request *)

Section Parts.
Context (buffer : str) (b : bool) (Hlen : 0 < zlen buffer < 2 ^ 31).

(** The parser at position [p] with the request read so far. *)
Definition at_pos (p : Z) (r : HttpRequest) (s : RequestParser) : Prop :=
  m_cb s = mkQP r 0 ∧ 0 ≤ hp_mark (m_parser s) ≤ p.

(** After [pre], reading [seg] takes the machine from [cs] to [cs'] and the
    request from [r] to [r']. *)
Definition reads (pre : str) (cs : Z) (r : HttpRequest) (seg : str) (cs' : Z) (r' : HttpRequest) : Prop :=
  ∀ post s, buffer = pre ++ seg ++ post → at_pos (zlen pre) r s →
  ∃ s', http_exec buffer b cs (zlen pre) (seg ++ post) s = http_exec buffer b cs' (zlen (pre ++ seg)) post s' ∧
        at_pos (zlen (pre ++ seg)) r' s'.

Lemma reads_app pre cs r seg1 cs1 r1 seg2 cs2 r2 :
  reads pre cs r seg1 cs1 r1 → reads (pre ++ seg1) cs1 r1 seg2 cs2 r2 → reads pre cs r (seg1 ++ seg2) cs2 r2.
Proof.
  intros H1 H2 post s Hb Hs. rewrite <- (assoc_L (++)) in Hb |- *.
  destruct (H1 (seg2 ++ post) s) as (s1 & E1 & Hs1); [done|done|].
  destruct (H2 post s1) as (s2 & E2 & Hs2); [by rewrite <- (assoc_L (++))|done|].
  exists s2. rewrite E1, E2, (assoc_L (++)). done.
Qed.

Lemma text_at pre seg post :
  buffer = pre ++ seg ++ post →
  take (Z.to_nat (zlen (pre ++ seg) - zlen pre)) (PTR_TO buffer (zlen pre)) = seg.
Proof.
  intros ->. unfold PTR_TO, zlen. rewrite length_app, Nat2Z.id, drop_app_length.
  replace (Z.to_nat _) with (length seg) by lia. by rewrite take_app_length.
Qed.

(** A part that starts with a character that sets the mark and ends before
    [t], on which the actions [acts] run. *)
Lemma reads_marked pre cs r c w cs1 j1 cs2 t j2 r' :
  next http_table b cs c = Some j1 → resolve http_tr j1 = ([a_mark], cs1) →
  walk http_table b cs1 w = Some cs2 → next http_table b cs2 t = Some j2 →
  (∀ post s, buffer = pre ++ (c :: w) ++ t :: post → m_cb s = mkQP r 0 → hp_mark (m_parser s) = zlen pre →
     ∃ s', run_acts (http_act buffer) http_breaks (resolve http_tr j2).1 (zlen (pre ++ c :: w)) s = Ok false s' ∧
           m_cb s' = mkQP r' 0 ∧ hp_mark (m_parser s') = zlen pre) →
  reads pre cs r ((c :: w) ++ [t]) (resolve http_tr j2).2 r'.
Proof.
  intros E1 Ej1 E2 E3 Hacts post s Hb [Hcb Hm]. rewrite <- (assoc_L (++)) in Hb |- *. cbn [app] in *.
  destruct (Hacts post (hp_upd (set_mark (zlen pre)) s)) as (s' & E4 & Hcb' & Hm'); [done..|].
  exists s'. unfold http_exec. erewrite exec_tr; [|exact E1|by rewrite Ej1]. rewrite Ej1. cbn [snd].
  erewrite exec_walk by exact E2.
  replace (zlen pre + 1 + zlen w) with (zlen (pre ++ c :: w)) by (rewrite zlen_app, zlen_cons; lia).
  erewrite exec_tr; [|exact E3|exact E4].
  replace (zlen (pre ++ c :: w) + 1) with (zlen (pre ++ c :: w ++ [t])).
  2:{ rewrite !zlen_app, !zlen_cons, zlen_app, zlen_cons, zlen_nil. lia. }
  split; [done|]. split; [done|]. rewrite Hm'. rewrite zlen_app, zlen_cons.
  pose proof (zlen_nonneg pre). pose proof (zlen_nonneg (w ++ [t])). lia.
Qed.

(** A callback of a grammar action on the text since the mark. *)
Lemma mark_element cb pre w t post s :
  buffer = pre ++ w ++ t :: post → hp_mark (m_parser s) = zlen pre →
  element buffer cb (hp_mark (m_parser s)) (LEN (hp_mark (m_parser s)) (zlen (pre ++ w))) s
    = Ok tt (cb_upd (cb (w ++ t :: post) (length w)) s).
Proof.
  intros Hb Hm. rewrite Hm. pose proof (zlen_nonneg pre). pose proof (zlen_nonneg w). pose proof (zlen_nonneg post).
  assert (zlen buffer = zlen pre + zlen w + 1 + zlen post) as Hz by (rewrite Hb, !zlen_app, zlen_cons; lia).
  rewrite element_ok by (rewrite ?zlen_app; lia). do 3 f_equal.
  - rewrite Hb. unfold PTR_TO, zlen. by rewrite Nat2Z.id, drop_app_length.
  - rewrite zlen_app. unfold zlen. lia.
Qed.

(** One callback, and then the callback for the whole URI, which does
    nothing. *)
Lemma run_element a cb pre w t post s r r' (uri : bool) :
  (∀ p s, http_act buffer a p s = element buffer cb (hp_mark (m_parser s)) (LEN (hp_mark (m_parser s)) p) s) →
  http_breaks a = false →
  buffer = pre ++ w ++ t :: post → m_cb s = mkQP r 0 → hp_mark (m_parser s) = zlen pre →
  cb (w ++ t :: post) (length w) (mkQP r 0) = mkQP r' 0 →
  ∃ s', run_acts (http_act buffer) http_breaks (if uri then [a; a_request_uri] else [a]) (zlen (pre ++ w)) s = Ok false s' ∧
    m_cb s' = mkQP r' 0 ∧ hp_mark (m_parser s') = zlen pre.
Proof.
  intros Ha Hbr Hb Hcb Hm Hr. exists (cb_upd (cb (w ++ t :: post) (length w)) s).
  split; [|split; [cbn; by rewrite Hcb|done]].
  assert (http_act buffer a (zlen (pre ++ w)) s = Ok tt (cb_upd (cb (w ++ t :: post) (length w)) s)) as E.
  { rewrite Ha. by apply mark_element. }
  destruct uri; cbn [run_acts]; run E; rewrite Hbr; [|done].
  assert (http_act buffer a_request_uri (zlen (pre ++ w)) (cb_upd (cb (w ++ t :: post) (length w)) s)
    = Ok tt (cb_upd (cb (w ++ t :: post) (length w)) s)) as E'.
  { unfold http_act. erewrite bind_ok; [|reflexivity]. erewrite mark_element; [|done|done]. done. }
  run E'. done.
Qed.

(** The start of a query or a fragment. *)
Lemma escaped_start e a x y l h1 h2 c w :
  goes b e query_char (Tr x) = true → http_tr x = ([a], l) →
  goes b e (eqc 37) (Tr y) = true → http_tr y = ([a], h1) →
  goes b h1 hex_char (St h2) = true → goes b h2 hex_char (St l) = true →
  (∀ w, escaped query_char w = true → walk http_table b l w = Some l) →
  escaped query_char (c :: w) = true →
  ∃ j cs1, next http_table b e c = Some j ∧ resolve http_tr j = ([a], cs1) ∧ walk http_table b cs1 w = Some l.
Proof.
  intros Hx Ex Hy Ey H1 H2 Hl. cbn [escaped]. destruct (eqc 37 c) eqn:Hc.
  - destruct w as [|c1 [|c2 w]]; [done..|]. intros [[Hc1 Hc2]%andb_true_iff Hw]%andb_true_iff.
    exists (Tr y), h1. split; [by apply (goes_next _ _ _ _ _ Hy)|]. split; [done|]. cbn [walk].
    rewrite (goes_next _ _ _ _ _ H1 Hc1), (goes_next _ _ _ _ _ H2 Hc2). by apply Hl.
  - intros [HP Hw]%andb_true_iff. exists (Tr x), l. split; [by apply (goes_next _ _ _ _ _ Hx)|]. split; [done|]. by apply Hl.
Qed.

#[local] Ltac edges := by destruct b; vm_compute.

Lemma reads_path pre r w t j uri :
  path_rest_ok w = true →
  (∀ cs, cs = 33 ∨ cs = 26 → next http_table b cs t = Some j) →
  (resolve http_tr j).1 = (if (uri : bool) then [a_request_path; a_request_uri] else [a_request_path]) →
  reads pre 3 r (("/"%char :: w) ++ [t]) (resolve http_tr j).2 (q_setPath ("/"%char :: w) r).
Proof.
  intros Hw Ht Hj. destruct (walk_path_start b w Hw) as (cs2 & E & Hcs).
  eapply (reads_marked _ _ _ _ _ 33 (Tr 10)); [edges|done|exact E|by apply Ht|].
  intros post s Hb Hcb Hm. rewrite Hj.
  eapply (run_element a_request_path on_request_path _ _ t post s r); try done.
  unfold on_request_path, qp_upd. cbn [qp_data qp_error]. by rewrite take_app_length.
Qed.

Lemma reads_fragment pre r c w :
  escaped query_char (c :: w) = true →
  reads pre 20 r ((c :: w) ++ [" "%char]) 4 (q_setFragment (c :: w) r).
Proof.
  intros Hw. destruct (escaped_start 20 a_mark 43 45 21 22 23 c w) as (j & cs1 & E1 & E2 & E3);
    [edges|done|edges|done|edges|edges|apply walk_fragment|done|].
  eapply (reads_marked _ _ _ _ _ cs1 j 21 _ (Tr 47)); [done|done|done|edges|].
  intros post s Hb Hcb Hm.
  eapply (run_element a_fragment on_request_fragment _ _ " "%char post s r _ false); try done.
  unfold on_request_fragment, qp_upd. cbn [qp_data qp_error]. by rewrite take_app_length.
Qed.

Lemma reads_query pre r c w t j :
  escaped query_char (c :: w) = true → next http_table b 30 t = Some j →
  (resolve http_tr j).1 = [a_query_string; a_request_uri] →
  reads pre 29 r ((c :: w) ++ [t]) (resolve http_tr j).2 (q_setQuery (c :: w) r).
Proof.
  intros Hw Ht Hj post s Hb [Hcb Hm]. rewrite <- (assoc_L (++)) in Hb |- *. cbn [app] in *.
  destruct (escaped_start 29 a_start_query 53 56 30 31 32 c w) as (j1 & cs1 & E1 & E2 & E3);
    [edges|done|edges|done|edges|edges|apply walk_query|done|].
  pose proof (zlen_nonneg pre). pose proof (zlen_nonneg w). pose proof (zlen_nonneg post).
  assert (zlen buffer = zlen pre + (1 + (zlen w + (1 + zlen post)))) as Hz by (rewrite Hb, zlen_app, zlen_cons, zlen_app, zlen_cons; lia).
  assert (zlen (pre ++ c :: w) = zlen pre + 1 + zlen w) as Hp by (rewrite zlen_app, zlen_cons; lia).
  pose (s1 := hp_upd (set_query_start (zlen pre)) s).
  pose (s2 := cb_upd (on_request_query (PTR_TO buffer (zlen pre)) (Z.to_nat (zlen (pre ++ c :: w) - zlen pre))) s1).
  assert (run_acts (http_act buffer) http_breaks (resolve http_tr j).1 (zlen (pre ++ c :: w)) s1 = Ok false s2) as E4.
  { assert (http_act buffer a_query_string (zlen (pre ++ c :: w)) s1 = Ok tt s2) as Eq.
    { unfold http_act. erewrite bind_ok; [|reflexivity]. apply element_ok; cbn; lia. }
    assert (http_act buffer a_request_uri (zlen (pre ++ c :: w)) s2 = Ok tt s2) as Eu.
    { unfold http_act. erewrite bind_ok; [|reflexivity]. erewrite element_ok by (cbn; lia). done. }
    rewrite Hj. cbn [run_acts]. run Eq. cbn [http_breaks]. run Eu. done. }
  exists s2. unfold http_exec. erewrite exec_tr; [|exact E1|by rewrite E2]. rewrite E2. cbn [snd].
  erewrite exec_walk by exact E3. replace (zlen pre + 1 + zlen w) with (zlen (pre ++ c :: w)).
  erewrite exec_tr; [|exact Ht|exact E4].
  replace (zlen (pre ++ c :: w) + 1) with (zlen (pre ++ c :: w ++ [t])) by (rewrite zlen_app, zlen_cons, zlen_app, zlen_cons, zlen_nil; lia).
  split; [done|]. split; [|cbn; rewrite zlen_app, zlen_cons, zlen_app; unfold zlen at 3; cbn; lia].
  unfold s2, s1. cbn. rewrite Hcb. unfold on_request_query, qp_upd. cbn [qp_data qp_error].
  by rewrite (text_at pre (c :: w) (t :: post)).
Qed.

Lemma reads_walk pre cs r seg cs' : walk http_table b cs seg = Some cs' → reads pre cs r seg cs' r.
Proof.
  intros Hw post s _ [Hcb Hm]. exists s. unfold http_exec. erewrite exec_walk by exact Hw. rewrite zlen_app.
  split; [done|]. split; [done|]. pose proof (zlen_nonneg seg). lia.
Qed.

Lemma method_walk m :
  m ≠ INVALID_METHOD → m ≠ MSEARCH →
  ∃ c w cs, L (HttpMethodToString m) = c :: w ∧ next http_table b 1 c = Some (Tr 0) ∧
    walk http_table b 2 w = Some cs ∧ next http_table b cs " "%char = Some (Tr 4).
Proof.
  intros H1 H2. destruct b, m; try done; eexists _, _, _; (split; [reflexivity|]; split; [vm_compute; reflexivity|];
    split; [vm_compute; reflexivity|]; vm_compute; reflexivity).
Qed.

Lemma chars_method m rest : m ≠ INVALID_METHOD → CharsToHttpMethod (L (HttpMethodToString m) ++ rest) = m.
Proof. intros Hm. destruct m; try done; reflexivity. Qed.

Lemma reads_method pre r m :
  m ≠ INVALID_METHOD → m ≠ MSEARCH →
  reads pre 1 r (L (HttpMethodToString m) ++ [" "%char]) 3 (q_setMethod m r).
Proof.
  intros H1 H2. destruct (method_walk m H1 H2) as (c & w & cs & Ht & E1 & E2 & E3). rewrite Ht.
  eapply (reads_marked _ _ _ _ _ 2 (Tr 0) cs _ (Tr 4)); [done|done|done|done|].
  intros post s Hb Hcb Hm.
  eapply (run_element a_request_method on_request_method _ _ " "%char post s r _ false); try done.
  unfold on_request_method. rewrite <- Ht, chars_method by done. by rewrite bool_decide_false.
Qed.

(** The versions the parser knows. *)
Definition version_ok (v : Z) : Prop := v = 16 ∨ v = 17.

Lemma reads_version pre r v :
  version_ok v → reads pre 4 r (version_str v ++ CRLF) 13 (q_setVersion v r).
Proof.
  intros Hv. assert (∃ w, version_str v = "H"%char :: w ∧ walk http_table b 5 w = Some 12 ∧
    ∀ post q, on_request_version (("H"%char :: w) ++ CR :: post) (length ("H"%char :: w)) (mkQP q 0) = mkQP (q_setVersion v q) 0)
    as (w & Hw & E & Hcb).
  { destruct Hv as [-> | ->]; eexists; (split; [vm_compute; reflexivity|]; split; [edges|]; reflexivity). }
  rewrite Hw. change CRLF with ([CR] ++ [LF]). rewrite (assoc_L (++)).
  eapply reads_app; [|apply (reads_walk _ 17); edges].
  eapply (reads_marked _ _ _ _ _ 5 (Tr 13) 12 _ (Tr 22)); [edges|done|done|edges|].
  intros post s Hb Hcs Hm.
  by eapply (run_element a_http_version on_request_version _ _ CR post s r _ false).
Qed.

(** ** Headers *)

Definition name_ok (k : str) : bool := match k with [] => false | _ => forallb token_char k end.
Definition value_ok (v : str) : bool :=
  forallb value_char v && match v with c :: _ => negb (blank_char c) | [] => true end.

(** The parser after a header's name: its text is at [p], of length [n]. *)
Definition name_at (p n : Z) (r : HttpRequest) (s : RequestParser) : Prop :=
  m_cb s = mkQP r 0 ∧ hp_field_start (m_parser s) = p ∧ hp_field_len (m_parser s) = n.

Lemma exec_name r k p rest s :
  name_ok k = true → 0 ≤ p → p + zlen k < zlen buffer → m_cb s = mkQP r 0 →
  ∃ s', http_exec buffer b 13 p (k ++ ":"%char :: rest) s = http_exec buffer b 15 (p + zlen k + 1) rest s' ∧
        name_at p (zlen k) r s'.
Proof.
  intros Hk Hp Hl Hcb. destruct k as [|c w]; [done|]. apply andb_true_iff in Hk as [Hc Hw].
  exists (hp_upd (set_field_len (LEN p (p + zlen (c :: w)))) (hp_upd (set_field_start p) s)).
  rewrite zlen_cons in *. pose proof (zlen_nonneg w). split; [|split; [done|]; split; [done|]; cbn; rewrite (LEN_small buffer); lia].
  cbn [app]. unfold http_exec. erewrite exec_tr; [|apply (goes_next b 13 token_char (Tr 23)); [edges|done]|reflexivity].
  cbn [resolve http_tr snd]. erewrite exec_walk by (by apply walk_name).
  replace (p + 1 + zlen w) with (p + (1 + zlen w)) by lia.
  erewrite exec_tr; [|apply (goes_next b 14 (eqc 58) (Tr 27)); [edges|done]|reflexivity]. done.
Qed.

Lemma write_value_ok p n r v q rest s :
  name_at p n r s → 0 ≤ p → 0 ≤ n → p + n ≤ zlen buffer → 0 < n → hp_mark (m_parser s) = zlen q →
  buffer = q ++ v ++ CR :: rest →
  http_act buffer a_write_value (zlen (q ++ v)) s
    = Ok tt (cb_upd (λ _, mkQP (q_setHeader (take (Z.to_nat n) (PTR_TO buffer p)) v r) 0) s).
Proof.
  intros (Hcb & Hs & Hl) Hp Hn Hpn Hn0 Hm Hb. unfold http_act. erewrite bind_ok; [|reflexivity].
  rewrite Hs, Hl, Hm. pose proof (zlen_nonneg q). pose proof (zlen_nonneg v). pose proof (zlen_nonneg rest).
  assert (zlen buffer = zlen q + (zlen v + (1 + zlen rest))) as Hz by (rewrite Hb, !zlen_app, zlen_cons; lia).
  erewrite bind_ok; [|apply in_buffer_ok; lia].
  erewrite bind_ok; [|apply in_buffer_ok; rewrite zlen_app, (LEN_small buffer) by lia; lia].
  unfold mmodify, cb_upd. rewrite Hcb, (LEN_small buffer) by (rewrite ?zlen_app; lia). do 2 f_equal.
  unfold on_request_http_filed. destruct (Z.to_nat n) as [|n'] eqn:En; [lia|].
  unfold qp_upd. cbn [qp_data qp_error]. by rewrite (text_at q v (CR :: rest)).
Qed.

Lemma exec_value p n r v q rest s :
  name_at p n r s → value_ok v = true → 0 ≤ p → 0 < n → p + n ≤ zlen buffer → buffer = q ++ v ++ CR :: rest →
  ∃ s', http_exec buffer b 15 (zlen q) (v ++ CR :: rest) s = http_exec buffer b 17 (zlen (q ++ v) + 1) rest s' ∧
    m_cb s' = mkQP (q_setHeader (take (Z.to_nat n) (PTR_TO buffer p)) v r) 0 ∧
    hp_mark (m_parser s') = zlen q.
Proof.
  intros Hn Hv Hp Hn0 Hpn Hb. pose (s1 := hp_upd (set_mark (zlen q)) s).
  pose proof (write_value_ok p n r v q rest s1) as Ew.
  exists (cb_upd (λ _, mkQP (q_setHeader (take (Z.to_nat n) (PTR_TO buffer p)) v r) 0) s1).
  split; [|done]. unfold http_exec. destruct v as [|c w].
  - rewrite (app_nil_r q) in *. cbn [app].
    erewrite exec_tr; [|apply (goes_next b 15 (eqc 13) (Tr 31)); [edges|done]|]; [reflexivity|].
    change ((resolve http_tr (Tr 31)).1) with [a_start_value; a_write_value]. cbn [run_acts].
    rewrite (bind_ok _ _ s tt s1) by done. cbn [http_breaks].
    erewrite bind_ok; [|apply Ew; try done; lia]. reflexivity.
  - unfold value_ok in Hv. apply andb_true_iff in Hv as [[Hc Hw]%andb_true_iff Hbl].
    cbn [app]. erewrite exec_tr;
      [|apply (goes_next b 15 (λ c, value_char c && negb (blank_char c)) (Tr 28)); [edges|by rewrite Hc]|reflexivity].
    cbn [resolve http_tr snd]. erewrite exec_walk by (by apply walk_value).
    replace (zlen q + 1 + zlen w) with (zlen (q ++ c :: w)) by (rewrite zlen_app, zlen_cons; lia).
    erewrite exec_tr; [|apply (goes_next b 16 (eqc 13) (Tr 34)); [edges|done]|]; [reflexivity|].
    change ((resolve http_tr (Tr 34)).1) with [a_write_value]. cbn [run_acts].
    erewrite bind_ok; [|apply Ew; try done; lia]. reflexivity.
Qed.

Lemma exec_spaces p n r sp q rest s :
  (sp = [] ∨ sp = [" "%char]) → name_at p n r s →
  ∃ s', http_exec buffer b 15 (zlen q) (sp ++ rest) s = http_exec buffer b 15 (zlen (q ++ sp)) rest s' ∧ name_at p n r s'.
Proof.
  intros [-> | ->] Hs; [exists s; by rewrite app_nil_r|].
  exists (hp_upd (set_mark (zlen q)) s). split; [|done]. unfold http_exec. cbn [app].
  erewrite exec_tr; [|apply (goes_next b 15 (eqc 32) (Tr 29)); [edges|done]|reflexivity]. by rewrite zlen_app.
Qed.

Lemma reads_header pre r k sp v :
  name_ok k = true → (sp = [] ∨ sp = [" "%char]) → value_ok v = true →
  reads pre 13 r (k ++ [":"%char] ++ sp ++ v ++ CRLF) 13 (q_setHeader k v r).
Proof.
  intros Hk Hsp Hv post s Hb [Hcb Hm]. unfold CRLF in Hb |- *. rewrite <- !(assoc_L (++)) in Hb |- *. cbn [app] in *.
  pose proof (zlen_nonneg pre) as Hpre. pose proof (zlen_nonneg (sp ++ v ++ CR :: LF :: post)).
  assert (zlen buffer = zlen pre + (zlen k + (1 + zlen (sp ++ v ++ CR :: LF :: post)))) as Hz.
  { rewrite Hb, zlen_app, zlen_app, zlen_cons. done. }
  assert (0 < zlen k) as Hk0. { destruct k; [done|]. rewrite zlen_cons. pose proof (zlen_nonneg k). lia. }
  destruct (exec_name r k (zlen pre) (sp ++ v ++ CR :: LF :: post) s) as (s1 & E1 & Hs1); [done|done|lia|done|].
  pose (q := pre ++ k ++ [":"%char]).
  assert (zlen pre + zlen k + 1 = zlen q) as Hq by (unfold q; rewrite !zlen_app, zlen_cons, zlen_nil; lia).
  destruct (exec_spaces (zlen pre) (zlen k) r sp q (v ++ CR :: LF :: post) s1) as (s2 & E2 & Hs2); [done|done|].
  destruct (exec_value (zlen pre) (zlen k) r v (q ++ sp) (LF :: post) s2) as (s3 & E3 & Hcb3 & Hm3); try done; [lia| |].
  { rewrite Hb. unfold q. by rewrite <- !(assoc_L (++)). }
  exists s3. rewrite E1, Hq, E2, E3. clear E1 E2 E3.
  assert (zlen (pre ++ k ++ ":"%char :: sp ++ v ++ [CR; LF]) = zlen ((q ++ sp) ++ v) + 2) as ->.
  { unfold q. repeat rewrite ?zlen_app, ?zlen_cons, ?zlen_nil. lia. }
  split.
  - unfold http_exec. change (LF :: post) with ([LF] ++ post). erewrite (exec_walk _ _ _ _ _ _ 17 [LF] 13) by edges.
    f_equal. rewrite zlen_cons, zlen_nil. lia.
  - split.
    + rewrite Hcb3. repeat f_equal. unfold PTR_TO, zlen. rewrite !Nat2Z.id, Hb, drop_app_length. by rewrite take_app_length.
    + rewrite Hm3, (zlen_app (q ++ sp) v). pose proof (zlen_nonneg (q ++ sp)). pose proof (zlen_nonneg v). lia.
Qed.

(** The headers one after the other. *)
Definition header_ok (kv : str * str) : Prop := name_ok kv.1 = true ∧ value_ok kv.2 = true.
Definition set_headers (hs : list (str * str)) (r : HttpRequest) : HttpRequest :=
  foldl (λ r kv, q_setHeader kv.1 kv.2 r) r hs.

Lemma reads_headers pre r sp hs :
  (sp = [] ∨ sp = [" "%char]) → Forall header_ok hs →
  reads pre 13 r (lines ((λ kv, kv.1 ++ (":"%char :: sp) ++ kv.2) <$> hs)) 13 (set_headers hs r).
Proof.
  intros Hsp Hhs. revert pre r. induction Hhs as [|[k v] hs [Hk Hv] Hhs IH]; intros pre r; [by apply reads_walk|].
  cbn [fmap list_fmap lines set_headers foldl fst snd]. rewrite (assoc_L (++)).
  eapply reads_app; [|apply IH]. rewrite <- !(assoc_L (++)). by apply (reads_header pre r k sp v).
Qed.

(** The empty line ends the request. *)
Lemma exec_end p r post s :
  m_cb s = mkQP r 0 →
  ∃ s', http_exec buffer b 13 p (CRLF ++ post) s = Ok (348, p + 2) s' ∧ m_cb s' = mkQP r 0.
Proof.
  intros Hcb. pose (s1 := hp_upd (set_field_start p) s).
  assert (∃ s', run_acts (http_act buffer) http_breaks [a_done] (p + 1) s1 = Ok true s' ∧ m_cb s' = m_cb s) as (s' & E & Hs').
  { cbn [run_acts http_breaks]. unfold http_act.
    destruct (hp_xml_sent (m_parser s1) || hp_json_sent (m_parser s1)) eqn:Ex;
      (eexists; split; [mred; rewrite Ex; reflexivity|done]). }
  exists s'. split; [|congruence]. unfold http_exec, CRLF. cbn [app].
  rewrite (exec_tr _ _ _ _ _ _ 13 _ _ _ (Tr 25) s s1) by (done || edges). cbn [resolve http_tr snd].
  erewrite exec_break; [|apply (goes_next b 18 (eqc 10) (Tr 36)); [edges|done]|exact E]. cbn [resolve http_tr snd].
  do 2 f_equal. lia.
Qed.

End Parts.

(** ** Whole requests *)

(** What the grammar admits of a request. *)
Definition printable (q : HttpRequest) : Prop :=
  (q_method q ≠ INVALID_METHOD ∧ q_method q ≠ MSEARCH) ∧ version_ok (q_version q) ∧
  (∃ w, q_path q = "/"%char :: w ∧ path_rest_ok w = true) ∧
  escaped query_char (q_query q) = true ∧ escaped query_char (q_fragment q) = true ∧
  Forall header_ok (filter (λ kv, is_connection kv.1 = false) (q_headers q)).

(** The headers dump prints, in order. *)
Definition printed_headers (q : HttpRequest) : list (str * str) :=
  (L "connection", if q_close q then L "close" else L "keep=alive")
  :: filter (λ kv, is_connection kv.1 = false) (q_headers q)
  ++ match q_body q with [] => [] | _ => [(L "content-length", dec (zlen (q_body q)))] end.

(** The request the parser makes of the head of a printed one. *)
Definition parsed (q : HttpRequest) : HttpRequest :=
  set_headers (printed_headers q)
    (mkReq (q_method q) (q_version q) true (q_path q) (q_query q) (q_fragment q) [] [] [] []).

Lemma digit_chars n : 0 ≤ n < 10 → value_char (digit n) = true ∧ blank_char (digit n) = false.
Proof.
  intros Hn. assert (n = 0 ∨ n = 1 ∨ n = 2 ∨ n = 3 ∨ n = 4 ∨ n = 5 ∨ n = 6 ∨ n = 7 ∨ n = 8 ∨ n = 9) as H by lia.
  repeat destruct H as [->|H]; try (by vm_compute). subst. by vm_compute.
Qed.

Lemma dec_loop_chars fuel n acc :
  (acc = [] → fuel ≠ O) → forallb value_char acc = true → match acc with c :: _ => blank_char c = false | [] => True end →
  value_ok (dec_loop fuel n acc) = true.
Proof.
  revert n acc. induction fuel as [|fuel IH]; intros n acc Hf Ha Hh; cbn [dec_loop].
  { unfold value_ok. rewrite Ha. destruct acc; [by destruct Hf|]. by rewrite Hh. }
  destruct (digit_chars (n mod 10)) as [H1 H2]; [by apply Z.mod_pos_bound|].
  assert (forallb value_char (digit (n mod 10) :: acc) = true) as Ha' by (cbn [forallb]; by rewrite H1, Ha).
  destruct (n / 10 =? 0).
  - unfold value_ok. by rewrite Ha', H2.
  - by apply IH.
Qed.

Lemma dec_value_ok n : value_ok (dec n) = true.
Proof. by apply dec_loop_chars. Qed.

Section Whole.
Context (buffer : str) (b : bool) (Hlen : 0 < zlen buffer < 2 ^ 31).

Lemma setQuery_id r : q_query r = [] → q_setQuery [] r = r.
Proof. destruct r. cbn. by intros ->. Qed.
Lemma setFragment_id r : q_fragment r = [] → q_setFragment [] r = r.
Proof. destruct r. cbn. by intros ->. Qed.

(** Path, query, fragment and the space after them. *)
Lemma reads_target pre r q :
  printable q → q_query r = [] → q_fragment r = [] →
  reads buffer b pre 3 r
    (q_path q ++ (match q_query q with [] => [] | _ => L "?" end) ++ q_query q
     ++ (match q_fragment q with [] => [] | _ => L "#" end) ++ q_fragment q ++ [" "%char]) 4
    (q_setFragment (q_fragment q) (q_setQuery (q_query q) (q_setPath (q_path q) r))).
Proof.
  intros (_ & _ & (w & -> & Hw) & Hq & Hf & _) Hrq Hrf.
  destruct (q_query q) as [|c1 w1], (q_fragment q) as [|c2 w2]; cbn [app];
    rewrite ?(setQuery_id (q_setPath _ r)), ?(setFragment_id (q_setPath _ r)), ?(setFragment_id (q_setQuery _ (q_setPath _ r))) by done.
  - by apply (reads_path buffer b Hlen pre r w " "%char (Tr 37) true Hw); [intros ? [-> | ->]; destruct b; vm_compute|].
  - change (?a :: w ++ L "#" ++ ?t) with ((a :: w) ++ ["#"%char] ++ t).
    rewrite (assoc_L (++)). eapply reads_app.
    + by apply (reads_path buffer b Hlen pre r w "#"%char (Tr 39) true Hw); [intros ? [-> | ->]; destruct b; vm_compute|].
    + by apply (reads_fragment buffer b Hlen).
  - change (?a :: w ++ L "?" ++ ?t) with ((a :: w) ++ ["?"%char] ++ t).
    rewrite (assoc_L (++)). eapply reads_app.
    + by apply (reads_path buffer b Hlen pre r w "?"%char (Tr 42) false Hw); [intros ? [-> | ->]; destruct b; vm_compute|].
    + by apply (reads_query buffer b Hlen _ _ c1 w1 " "%char (Tr 58)); [|destruct b; vm_compute|].
  - change (?a :: w ++ L "?" ++ ?t) with ((a :: w) ++ ["?"%char] ++ t).
    rewrite (assoc_L (++)). eapply reads_app.
    + by apply (reads_path buffer b Hlen pre r w "?"%char (Tr 42) false Hw); [intros ? [-> | ->]; destruct b; vm_compute|].
    + change (?a :: w1 ++ L "#" ++ ?t) with ((a :: w1) ++ ["#"%char] ++ t).
      rewrite (assoc_L (++) (c1 :: w1)). eapply reads_app.
      * by apply (reads_query buffer b Hlen _ _ c1 w1 "#"%char (Tr 59)); [|destruct b; vm_compute|].
      * by apply (reads_fragment buffer b Hlen).
Qed.

Lemma header_lines_printed q :
  req_lines q =
    ((λ kv, kv.1 ++ [":"%char; " "%char] ++ kv.2) <$> [(L "connection", if q_close q then L "close" else L "keep=alive")])
    ++ ((λ kv, kv.1 ++ [":"%char] ++ kv.2) <$> filter (λ kv, is_connection kv.1 = false) (q_headers q))
    ++ ((λ kv, kv.1 ++ [":"%char; " "%char] ++ kv.2) <$>
        match q_body q with [] => [] | _ => [(L "content-length", dec (zlen (q_body q)))] end).
Proof. unfold req_lines, connection_line, length_line. destruct (q_body q), (q_close q); reflexivity. Qed.

Lemma reads_req_lines pre r q :
  printable q → reads buffer b pre 13 r (lines (req_lines q)) 13 (set_headers (printed_headers q) r).
Proof.
  intros (_ & _ & _ & _ & _ & Hh). rewrite header_lines_printed, !lines_app.
  unfold printed_headers, set_headers. cbn [foldl]. rewrite foldl_app.
  eapply reads_app; [apply (reads_headers buffer b Hlen _ r [" "%char]); [by right|]|].
  { constructor; [|constructor]. destruct (q_close q); split; by vm_compute. }
  eapply reads_app; [apply (reads_headers buffer b Hlen _ _ []); [by left|done]|].
  apply (reads_headers buffer b Hlen _ _ [" "%char]); [by right|].
  destruct (q_body q); constructor; [|constructor]. split; [by vm_compute|apply dec_value_ok].
Qed.

Lemma reads_request q :
  printable q →
  reads buffer b [] 1 (HttpRequest_new 17 true) (lines (request_line q :: req_lines q)) 13 (parsed q).
Proof.
  intros Hq. pose proof Hq as ([Hm1 Hm2] & Hv & _).
  assert (lines (request_line q :: req_lines q) = (L (HttpMethodToString (q_method q)) ++ [" "%char]) ++
    (q_path q ++ (match q_query q with [] => [] | _ => L "?" end) ++ q_query q
     ++ (match q_fragment q with [] => [] | _ => L "#" end) ++ q_fragment q ++ [" "%char]) ++
    (version_str (q_version q) ++ CRLF) ++ lines (req_lines q)) as ->.
  { cbn [lines]. unfold request_line. by rewrite <- !(assoc_L (++)). }
  eapply reads_app; [by apply reads_method|]. eapply reads_app; [by apply reads_target|].
  eapply reads_app; [by apply reads_version|]. by apply reads_req_lines.
Qed.

End Whole.

(** ** The headers that arrive *)

Definition set_all (hs : list (str * str)) (m : MapType) : MapType := foldl (λ m kv, map_set m kv.1 kv.2) m hs.

Lemma set_headers_all hs r : q_headers (set_headers hs r) = set_all hs (q_headers r).
Proof. revert r. induction hs as [|kv hs IH]; intros r; [done|]. apply IH. Qed.

Lemma set_all_ok hs m : map_ok m → map_ok (set_all hs m).
Proof.
  revert m. induction hs as [|[k v] hs IH]; intros m Hm; [done|]. cbn. apply IH.
  by apply (map_assign_ordered CaseInsensitiveLess).
Qed.

Lemma set_all_other hs m k def :
  map_ok m → Forall (λ kv, casefold kv.1 ≠ casefold k) hs → map_get (set_all hs m) k def = map_get m k def.
Proof.
  intros Hm Hhs. revert m Hm. induction Hhs as [|[k' v] hs Hk Hhs IH]; intros m Hm; [done|].
  change (set_all ((k', v) :: hs) m) with (set_all hs (map_set m k' v)).
  rewrite IH by (by apply (map_assign_ordered CaseInsensitiveLess)).
  rewrite map_get_set by done. rewrite bool_decide_false; [done|]. by apply not_eq_sym.
Qed.

Lemma set_all_found hs1 hs2 m k k' v def :
  map_ok m → casefold k' = casefold k → Forall (λ kv, casefold kv.1 ≠ casefold k) hs2 →
  map_get (set_all (hs1 ++ (k', v) :: hs2) m) k def = v.
Proof.
  intros Hm Hk Hhs. unfold set_all. rewrite foldl_app. cbn [foldl fst snd].
  fold (set_all hs1 m) (set_all hs2 (map_set (set_all hs1 m) k' v)).
  pose proof (set_all_ok hs1 m Hm) as Hm1. rewrite set_all_other; [|by apply (map_assign_ordered CaseInsensitiveLess)|done].
  rewrite map_get_set by done. by rewrite bool_decide_true.
Qed.

(** Where an ordered map holds a key. *)
Lemma map_find_split k v (m : MapType) :
  map_ok m → map_find CaseInsensitiveLess k m = Some v →
  ∃ k' m1 m2, m = m1 ++ (k', v) :: m2 ∧ casefold k' = casefold k ∧ Forall (λ kv, casefold kv.1 ≠ casefold k) m2.
Proof.
  intros Hm E. apply (map_find_in CaseInsensitiveLess k v m Hm) in E as (k' & Hin & Hk). apply key_equiv in Hk.
  apply list_elem_of_split in Hin as (m1 & m2 & ->). exists k', m1, m2. split; [done|]. split; [done|].
  apply ordered_app in Hm as (_ & Hm2 & _). inversion Hm2 as [|? ? _ Hlt]; subst.
  eapply Forall_impl; [exact Hlt|]. intros [k2 v2] Hk2 E. cbn [fst] in *.
  assert (keq CaseInsensitiveLess k' k2) as [H1%negb_true_iff _]%andb_true_iff by (apply key_equiv; congruence). congruence.
Qed.

Lemma map_find_absent k (m : MapType) :
  map_ok m → map_find CaseInsensitiveLess k m = None → Forall (λ kv, casefold kv.1 ≠ casefold k) m.
Proof.
  intros Hm E. apply Forall_forall. intros [k' v] Hin Hk. cbn [fst] in Hk.
  assert (map_find CaseInsensitiveLess k m = Some v) as E'; [|congruence].
  apply (map_find_in CaseInsensitiveLess k v m Hm). exists k'. split; [done|]. by apply key_equiv.
Qed.

Lemma Forall_keep (P Q : str * str → Prop) `{∀ x, Decision (P x)} m : Forall Q m → Forall Q (filter P m).
Proof. rewrite !Forall_forall. intros Hm x [_ Hx]%list_elem_of_filter. by apply Hm. Qed.

(** Printing a map without connection, among other headers, and setting what is
    printed one after the other keeps the value of every other name. *)
Lemma printed_get m pre post k def :
  map_ok m → casefold k ≠ casefold (L "connection") →
  Forall (λ kv, casefold kv.1 ≠ casefold k) pre → Forall (λ kv, casefold kv.1 ≠ casefold k) post →
  map_get (set_all (pre ++ filter (λ kv, is_connection kv.1 = false) m ++ post) []) k def = map_get m k def.
Proof.
  intros Hm Hc Hpre Hpost. assert (map_ok []) as Hnil by constructor.
  unfold map_get at 2. destruct (map_find CaseInsensitiveLess k m) as [v|] eqn:E.
  - destruct (map_find_split k v _ Hm E) as (k' & m1 & m2 & -> & Hk & Hm2).
    rewrite filter_app, filter_cons_True.
    2:{ cbn. apply bool_decide_eq_false. rewrite Hk. by intros H. }
    rewrite <- (assoc_L (++)), <- app_comm_cons, (assoc_L (++)). apply set_all_found; [done|done|].
    apply Forall_app. split; [|done]. by apply Forall_keep.
  - rewrite set_all_other; [done|done|]. apply Forall_app. split; [done|]. apply Forall_app. split; [|done].
    by apply Forall_keep, map_find_absent.
Qed.

Lemma parsed_getHeader q k def :
  map_ok (q_headers q) →
  casefold k ≠ casefold (L "connection") → casefold k ≠ casefold (L "content-length") →
  q_getHeader (parsed q) k def = q_getHeader q k def.
Proof.
  intros Hm H1 H2. unfold q_getHeader, parsed. rewrite set_headers_all. unfold printed_headers. 
  apply (printed_get (q_headers q) [_]); [done|done|constructor; [by apply not_eq_sym|constructor]|].
  destruct (q_body q); constructor; [by apply not_eq_sym|constructor].
Qed.

(** The head of a printed request. *)
Definition head_of (q : HttpRequest) : str := lines (request_line q :: req_lines q) ++ CRLF.

Lemma q_dump_head q : q_dump q = head_of q ++ q_body q.
Proof. rewrite q_dump_lines. unfold head_of. by rewrite <- (assoc_L (++)). Qed.

(** One call of the parser on a head followed by anything. *)
Lemma parse_head q rest mem :
  printable q → zlen (head_of q ++ rest) < 2 ^ 31 →
  ∃ s, excute (head_of q ++ rest) (RequestParser_new mem) = Ok (zlen (head_of q), rest) s ∧
       isFinished s = 1 ∧ m_cb s = mkQP (parsed q) 0.
Proof.
  intros Hq Hl. pose (head := lines (request_line q :: req_lines q)). pose (buffer := head_of q ++ rest).
  assert (buffer = head ++ CRLF ++ rest) as Hbuf by (unfold buffer, head_of; by rewrite <- (assoc_L (++))).
  assert (zlen buffer = zlen head + (2 + zlen rest)) as Hz by (rewrite Hbuf, !zlen_app; done).
  fold buffer in Hl |- *. pose proof (zlen_nonneg head). pose proof (zlen_nonneg rest).
  assert (0 < zlen buffer < 2 ^ 31) as Hlen by lia.
  destruct (execute_runs buffer (RequestParser_new mem) (ready_new mem) Hlen) as (cs & p & s1 & E & Ex & _ & _).
  destruct (reads_request buffer (hp_uri_relaxed mem) Hlen q Hq (CRLF ++ rest)
    (hp_upd reset_fields (RequestParser_new mem))) as (s2 & E2 & [Hs2 _]); [done|done|].
  destruct (exec_end buffer (hp_uri_relaxed mem) (zlen head) (parsed q) rest s2 Hs2) as (s3 & E3 & Hs3).
  cbn [app] in E2. fold head in E2. rewrite E3 in E2.
  assert (Ok (cs, p) s1 = Ok (348, zlen head + 2) s3) as [= -> -> ->].
  { rewrite <- E, <- E2. by rewrite <- Hbuf. }
  exists (hp_upd (λ h, set_nread (zlen head + 2) (set_cs 348 h)) s3). split; [|by split].
  unfold excute. erewrite bind_ok; [|exact Ex]. unfold mret, M_ret. do 2 f_equal.
  - unfold head_of. rewrite zlen_app. done.
  - unfold buffer. replace (Z.to_nat _) with (length (head_of q)).
    { apply drop_app_length. } unfold head_of. rewrite length_app. unfold zlen, head. cbn. lia.
Qed.

(** C3: A request printed by dump is read back by the parser. For a request
    whose parts the grammar admits, one call of excute on the printed text,
    followed by anything, reads exactly the head: it leaves the body and what
    follows, reports the request as finished and no error, and the request it
    has built has the method, version, path, query and fragment of the printed
    one and exactly the headers that were printed; getHeader gives the same
    value for every name but connection and content-length. Nothing depends on
    what the memory of the parser held before. *)
Theorem parse_dump q rest mem :
  printable q → zlen (q_dump q ++ rest) < 2 ^ 31 →
  ∃ s, excute (q_dump q ++ rest) (RequestParser_new mem)
         = Ok (zlen (q_dump q) - zlen (q_body q), q_body q ++ rest) s ∧
       isFinished s = 1 ∧ hasError s = false ∧ qp_data (m_cb s) = parsed q ∧
       (map_ok (q_headers q) → ∀ k def,
          casefold k ≠ casefold (L "connection") → casefold k ≠ casefold (L "content-length") →
          q_getHeader (qp_data (m_cb s)) k def = q_getHeader q k def).
Proof.
  intros Hq Hl. rewrite q_dump_head in *. rewrite <- (assoc_L (++)) in Hl |- *.
  destruct (parse_head q (q_body q ++ rest) mem Hq Hl) as (s & E & Hf & Hs). exists s.
  rewrite Hs. split; [rewrite E, zlen_app; do 2 f_equal; lia|]. split; [done|].
  split; [unfold hasError, qp_hasError; by rewrite Hs|]. split; [done|].
  intros Hm k def H1 H2. by apply parsed_getHeader.
Qed.

Definition demo_post : HttpRequest :=
  q_setBody (L "a=1") (q_setHeader (L "Host") (L "www.x.org") (q_setQuery (L "q=%41b")
    (q_setPath (L "/a/b.html") (q_setMethod POST (HttpRequest_new 17 false))))).

Lemma parse_dump_witness :
  ∃ s, excute (q_dump demo_post) (RequestParser_new blank)
         = Ok (zlen (q_dump demo_post) - 3, L "a=1") s ∧
       q_getHeader (qp_data (m_cb s)) (L "HOST") [] = L "www.x.org".
Proof.
  destruct (parse_dump demo_post [] blank) as (s & E & _ & _ & _ & Hh).
  - split; [by split|]. split; [by right|]. split; [exists (L "a/b.html"); by split|]. split; [done|]. split; [done|].
    constructor; [by split|constructor].
  - vm_compute. reflexivity.
  - rewrite app_nil_r in E. exists s. split; [exact E|]. rewrite Hh; [reflexivity|repeat constructor|by vm_compute|by vm_compute].
Defined.
