(* ===== verification/Stream.v ===== *)
(** Streams over a connected socket (skt/stream/stream.cpp,
    skt/streams/socket_stream.cpp, and send, recv, close of
    skt/socket/socket.cpp).

    The peer is a script: what successive recv calls find, and how many bytes
    successive send calls accept. *)

From stdpp Require Import base list strings.
From Stdlib Require Import Ascii Lia.
From S2P Require Import Prelude CString.

(** [Data d]: bytes that have arrived together. [Eof]: the peer has closed.
    [Fail]: recv returns -1. *)
Inductive arrival : Type :=
| Data (d : str)
| Eof
| Fail.

(** [c_caps]: a negative entry makes send return -1; when the list is empty
    send accepts all that one call can transfer. *)
Record Conn : Type := mkConn { c_in : list arrival; c_caps : list Z; c_out : str; c_open : bool }.

Definition set_in (i : list arrival) (c : Conn) : Conn := mkConn i (c_caps c) (c_out c) (c_open c).

(** SocketStream::read and Socket::recv: the returned number, an int, and the
    bytes put into the buffer. *)
Definition stream_read (n : Z) : M Conn (Z * str) := λ c,
  if negb (c_open c) then Ok (-1, []) c
  else match c_in c with
       | [] | Eof :: _ => Ok (0, []) c
       | Fail :: i => Ok (-1, []) (set_in i c)
       | Data d :: i =>
         let got := take (Z.to_nat n) d in
         let rest := drop (Z.to_nat n) d in
         Ok (i32 (zlen got), got) (set_in (match rest with [] => i | _ => Data rest :: i end) c)
       end.

(** What one call transfers at most (write(2), MAX_RW_COUNT). *)
Definition MAX_RW_COUNT : Z := 2147479552.

(** What a call takes of [d] when the kernel has room for [k] bytes. *)
Definition sent_part (k : Z) (d : str) : str := take (Z.to_nat ((k `min` MAX_RW_COUNT) `min` zlen d)) d.

(** SocketStream::write and Socket::send, which return an int. *)
Definition stream_write (d : str) : M Conn Z := λ c,
  if negb (c_open c) then Ok (-1) c
  else match c_caps c with
       | [] => let sent := sent_part MAX_RW_COUNT d in Ok (i32 (zlen sent)) (mkConn (c_in c) [] (c_out c ++ sent) (c_open c))
       | k :: ks =>
         if k <? 0 then Ok (-1) (mkConn (c_in c) ks (c_out c) (c_open c))
         else let sent := sent_part k d in Ok (i32 (zlen sent)) (mkConn (c_in c) ks (c_out c ++ sent) (c_open c))
       end.

(** SocketStream::close and Socket::close. *)
Definition stream_close : M Conn unit := mmodify (λ c, mkConn (c_in c) (c_caps c) (c_out c) false).

(** Stream::readFixSize into the memory [buf] from position [base] on; offset,
    left and len are size_t, so that the -1 of a failed read is a large
    length. The number returned and the memory. *)
Fixpoint readFixSize_loop (fuel : nat) (base length offset left : Z) (buf : str) : M Conn (Z * str) :=
  match fuel with
  | O => mnofuel
  | S fuel' =>
    if left =? 0 then mret (i32 length, buf)
    else
      '(r, d) ← stream_read left;
      let len := u64 r in
      if len =? 0 then mret (0, buf)
      else
        buf' ← (match d with
                | [] => mret buf
                | _ => mderef OutOfBounds (mem_write (base + i64 offset) d buf)
                end);
        readFixSize_loop fuel' base length (u64 (offset + len)) (u64 (left - len)) buf'
  end.
Definition readFixSize (fuel : nat) (base length : Z) (buf : str) : M Conn (Z * str) :=
  readFixSize_loop fuel base length 0 length buf.

(** Stream::writeFixSize from the memory [buf]. *)
Fixpoint writeFixSize_loop (fuel : nat) (length offset left : Z) (buf : str) : M Conn Z :=
  match fuel with
  | O => mnofuel
  | S fuel' =>
    if left =? 0 then mret (i32 length)
    else
      d ← mderef OutOfBounds (mem_read (i64 offset) left buf);
      r ← stream_write d;
      let len := u64 r in
      if len =? 0 then mret 0
      else writeFixSize_loop fuel' length (u64 (offset + len)) (u64 (left - len)) buf
  end.
Definition writeFixSize (fuel : nat) (buf : str) (length : Z) : M Conn Z := writeFixSize_loop fuel length 0 length buf.

(** ** What has arrived *)

(** The bytes before the peer closes or a read fails. *)
Fixpoint arrived (i : list arrival) : str :=
  match i with
  | Data d :: i' => d ++ arrived i'
  | _ => []
  end.

(** No chunk is empty. *)
Definition chunks_ok (i : list arrival) : Prop := Forall (λ a, a ≠ Data []) i.

Lemma stream_read_data n c :
  c_open c = true → chunks_ok (c_in c) → 0 < n < 2 ^ 31 → arrived (c_in c) ≠ [] →
  ∃ got rest, 0 < zlen got ≤ n ∧ arrived (c_in c) = got ++ arrived rest ∧ chunks_ok rest ∧
    (length rest < length (c_in c) ∨ length rest = length (c_in c) ∧ zlen got = n)%nat ∧
    stream_read n c = Ok (zlen got, got) (set_in rest c).
Proof.
  intros Ho Hc Hn Ha. unfold stream_read. rewrite Ho. cbn [negb].
  destruct (c_in c) as [|[d| |] i]; [done| |done|done]. apply Forall_cons_1 in Hc as [Hd Hi]. cbn [arrived].
  assert (zlen (take (Z.to_nat n) d) ≤ n) as Hle by (unfold zlen; rewrite length_take; lia).
  eexists (take (Z.to_nat n) d), _. split; [|split; [|split; [|split; [|rewrite wraps_small by (pose proof (zlen_nonneg (take (Z.to_nat n) d)); unfold in_s; lia); reflexivity]]]].
  - destruct d as [|x d]; [done|]. unfold zlen. rewrite length_take. cbn. lia.
  - destruct (drop (Z.to_nat n) d) eqn:E; cbn [arrived].
    + f_equal. rewrite <- (take_drop (Z.to_nat n) d) at 1. by rewrite E, app_nil_r.
    + rewrite <- E, (assoc_L (++)). by rewrite take_drop.
  - destruct (drop (Z.to_nat n) d) eqn:E; [done|]. by constructor.
  - destruct (drop (Z.to_nat n) d) eqn:E; [left; cbn; lia|]. right. split; [done|].
    assert (Z.to_nat n < length d)%nat. { destruct (decide (length d ≤ Z.to_nat n)%nat) as [H|H]; [by rewrite drop_ge in E|lia]. }
    unfold zlen. rewrite length_take. lia.
Qed.

Lemma set_in_set_in i j c : set_in i (set_in j c) = set_in i c.
Proof. done. Qed.

Lemma set_in_id c : set_in (c_in c) c = c.
Proof. by destruct c. Qed.

Lemma zsplice_nil {A} off (l : list A) : zsplice off [] l = l.
Proof. unfold zsplice. cbn. rewrite Nat.add_0_r. apply take_drop. Qed.

Lemma readFixSize_loop_ok fuel base length offset left buf c :
  c_open c = true → chunks_ok (c_in c) → 0 ≤ base → 0 ≤ offset → 0 ≤ left ≤ zlen (arrived (c_in c)) → left < 2 ^ 31 →
  base + offset + left ≤ zlen buf < 2 ^ 63 →
  (left = 0 ∧ (1 ≤ fuel)%nat) ∨ (List.length (c_in c) + 2 ≤ fuel)%nat →
  ∃ rest, chunks_ok rest ∧ arrived rest = drop (Z.to_nat left) (arrived (c_in c)) ∧
    readFixSize_loop fuel base length offset left buf c
    = Ok (i32 length, zsplice (base + offset) (take (Z.to_nat left) (arrived (c_in c))) buf) (set_in rest c).
Proof.
  intros Ho. revert offset left buf c Ho.
  induction fuel as [|fuel IH]; intros offset left buf c Ho Hc Hb Hoff Hleft Hint Hbuf Hfuel; [lia|].
  cbn [readFixSize_loop]. destruct (Z.eqb_spec left 0) as [->|Hl].
  { exists (c_in c). split; [done|]. split; [done|]. change (take (Z.to_nat 0) _) with (@nil ascii). by rewrite zsplice_nil, set_in_id. }
  destruct (stream_read_data left c) as (got & rest & Hgot & Har & Hrest & Hlen & E); [done|done|lia|..].
  { intros Hn. assert (zlen (arrived (c_in c)) = 0) by (by rewrite Hn). lia. }
  run E. rewrite (wrapu_small 64) by (split; lia). rewrite (proj2 (Z.eqb_neq _ 0)) by lia.
  assert (mem_write (base + i64 offset) got buf = Some (zsplice (base + offset) got buf)) as Ew.
  { rewrite (wraps_small 64) by (unfold in_s; lia). apply mem_write_ok; lia. }
  erewrite bind_ok; [|destruct got; [by destruct Hgot as [[=] _]|by rewrite Ew]].
  rewrite (wrapu_small 64), (wrapu_small 64) by (split; lia).
  assert (zlen (arrived (c_in c)) = zlen got + zlen (arrived rest)) as Hz by (by rewrite Har, zlen_app).
  destruct (IH (offset + zlen got) (left - zlen got) (zsplice (base + offset) got buf) (set_in rest c))
    as (rest' & Hr' & Ha' & E'); [done|done|done|lia|cbn [c_in set_in]; lia|lia|rewrite zlen_zsplice; lia| |].
  { cbn [c_in set_in]. destruct Hlen as [H|[_ H]]; [lia|]. left. split; lia. }
  exists rest'. rewrite set_in_set_in in E'. cbn [c_in set_in] in Ha', E'. split; [done|].
  assert (Z.to_nat left = List.length got + Z.to_nat (left - zlen got))%nat as Hn by (unfold zlen in *; lia). split.
  - rewrite Ha', Har, Hn. by rewrite drop_app_add.
  - rewrite E'. do 2 f_equal. rewrite Har, Hn, take_app_add, zsplice_app' by lia. f_equal. lia.
Qed.

(** readFixSize is independent of how the network cuts the stream: when
    [length] bytes, fewer than 2^31, arrive before the peer closes or a read fails, it returns
    length, the memory holds exactly those bytes from [base] on and is
    otherwise unchanged, and the stream continues right after them. One
    round per chunk and one more are enough. *)
Theorem readFixSize_exact base length buf c :
  c_open c = true → chunks_ok (c_in c) → 0 ≤ base → 0 ≤ length ≤ zlen (arrived (c_in c)) → length < 2 ^ 31 →
  base + length ≤ zlen buf < 2 ^ 63 →
  ∃ rest, arrived rest = drop (Z.to_nat length) (arrived (c_in c)) ∧
    readFixSize (List.length (c_in c) + 2) base length buf c
    = Ok (i32 length, zsplice base (take (Z.to_nat length) (arrived (c_in c))) buf) (set_in rest c).
Proof.
  intros Ho Hc Hb Hl Hint Hbuf.
  destruct (readFixSize_loop_ok (List.length (c_in c) + 2) base length 0 length buf c) as (rest & _ & Ha & E);
    [done|done|done|lia|done|done|lia|by right|].
  exists rest. rewrite Z.add_0_r in E. done.
Qed.

Definition caps_ok (c : Conn) : Prop := Forall (λ k, 0 < k) (c_caps c).

Lemma stream_write_some d c :
  c_open c = true → caps_ok c → d ≠ [] →
  ∃ n ks, (0 < n ≤ List.length d)%nat ∧ Forall (λ k, 0 < k) ks ∧ (List.length ks ≤ List.length (c_caps c))%nat ∧
    ((List.length ks < List.length (c_caps c))%nat ∨ n = List.length d ∨ Z.of_nat n = MAX_RW_COUNT) ∧
    stream_write d c = Ok (Z.of_nat n) (mkConn (c_in c) ks (c_out c ++ take n d) true).
Proof.
  intros Ho Hc Hd. unfold stream_write, caps_ok in *. rewrite Ho. cbn [negb].
  assert (0 < List.length d)%nat as Hpos by (destruct d; [done|cbn; lia]).
  assert (∀ k, 0 < k → i32 (zlen (sent_part k d)) = (k `min` MAX_RW_COUNT) `min` zlen d) as Hi.
  { intros k Hk. unfold sent_part, zlen. rewrite length_take. rewrite wraps_small; unfold in_s, MAX_RW_COUNT; lia. }
  assert (zlen d = Z.of_nat (List.length d)) as Hz by done.
  destruct (c_caps c) as [|k ks].
  - rewrite (Hi MAX_RW_COUNT) by done. unfold sent_part, MAX_RW_COUNT in *.
    exists (Z.to_nat ((2147479552 `min` 2147479552) `min` zlen d)), []. split_and!; try done; [lia..|]. f_equal. lia.
  - apply Forall_cons_1 in Hc as [Hk Hks]. rewrite (proj2 (Z.ltb_ge k 0)), (Hi k Hk) by lia. unfold sent_part, MAX_RW_COUNT in *.
    exists (Z.to_nat ((k `min` 2147479552) `min` zlen d)), ks. split_and!; try done; [lia|lia|cbn; lia|left; cbn; lia|]. f_equal. lia.
Qed.

(** The rounds for [n] bytes: one for each limit of send, one for each full call,
    one for the rest and one to see that nothing is left. *)
Definition send_rounds (c : Conn) (n : Z) : nat := (List.length (c_caps c) + Z.to_nat (n / MAX_RW_COUNT) + 2)%nat.

Lemma writeFixSize_loop_ok fuel length offset left buf c :
  c_open c = true → caps_ok c → 0 ≤ offset → 0 ≤ left → offset + left = zlen buf → zlen buf < 2 ^ 63 →
  (send_rounds c left ≤ fuel)%nat ∨ (left = 0 ∧ (1 ≤ fuel)%nat) →
  ∃ ks, Forall (λ k, 0 < k) ks ∧
    writeFixSize_loop fuel length offset left buf c
    = Ok (i32 length) (mkConn (c_in c) ks (c_out c ++ drop (Z.to_nat offset) buf) true).
Proof.
  intros Ho. revert offset left c Ho.
  induction fuel as [|fuel IH]; intros offset left c Ho Hc Hoff Hl Hsum Hbuf Hfuel; [unfold send_rounds in Hfuel; lia|].
  cbn [writeFixSize_loop]. destruct (Z.eqb_spec left 0) as [->|Hl0].
  { exists (c_caps c). split; [done|]. rewrite drop_ge by (unfold zlen in *; lia). rewrite app_nil_r.
    destruct c. cbn in Ho. by subst. }
  assert (drop (Z.to_nat offset) buf ≠ []) as Hd.
  { intros E. apply (f_equal List.length) in E. rewrite length_drop in E. cbn in E. unfold zlen in *. lia. }
  rewrite (wraps_small 64), mem_read_ok by (unfold in_s; lia). erewrite bind_ok; [|reflexivity].
  assert (zslice offset left buf = drop (Z.to_nat offset) buf) as ->.
  { unfold zslice. apply take_ge. rewrite length_drop. unfold zlen in *. lia. }
  destruct (stream_write_some (drop (Z.to_nat offset) buf) c Ho Hc Hd) as (n & ks & Hn & Hks & Hle & Hlen & E).
  run E. assert (Z.of_nat n ≤ left) as Hnl by (rewrite length_drop in Hn; unfold zlen in *; lia).
  rewrite (wrapu_small 64), (proj2 (Z.eqb_neq _ 0)), (wrapu_small 64), (wrapu_small 64) by (split || idtac; unfold in_u; lia).
  destruct (IH (offset + Z.of_nat n) (left - Z.of_nat n) (mkConn (c_in c) ks (c_out c ++ take n (drop (Z.to_nat offset) buf)) true))
    as (ks' & Hks' & E'); [done|done|lia|lia|lia|done| |].
  { unfold send_rounds in *. cbn [c_caps]. destruct Hfuel as [Hfuel|[? _]]; [|lia].
    assert ((left - Z.of_nat n) / MAX_RW_COUNT ≤ left / MAX_RW_COUNT) as Hdiv by (apply Z.div_le_mono; unfold MAX_RW_COUNT; lia).
    assert (0 ≤ (left - Z.of_nat n) / MAX_RW_COUNT) by (apply Z.div_pos; unfold MAX_RW_COUNT; lia).
    destruct Hlen as [H1|[H1|H1]]; [left; lia|right; rewrite length_drop in H1; unfold zlen in *; lia|].
    left. assert (left / MAX_RW_COUNT = (left - Z.of_nat n) / MAX_RW_COUNT + 1) as Hd1.
    { rewrite <- Z.div_add by (unfold MAX_RW_COUNT; lia). f_equal. lia. }
    lia. }
  exists ks'. split; [done|]. rewrite E'. cbn [c_in c_out]. rewrite <- (assoc_L (++)). do 3 f_equal.
  rewrite Z2Nat.inj_add, Nat2Z.id, <- drop_drop by lia. apply take_drop.
Qed.

(** C40: writeFixSize sends the whole buffer, once and in order, however few
    bytes each send accepts, as long as it accepts some; one call transfers at
    most 0x7ffff000 bytes. *)
Theorem writeFixSize_all buf c :
  c_open c = true → caps_ok c → zlen buf < 2 ^ 63 →
  ∃ ks, writeFixSize (send_rounds c (zlen buf)) buf (zlen buf) c
    = Ok (i32 (zlen buf)) (mkConn (c_in c) ks (c_out c ++ buf) true).
Proof.
  intros Ho Hc Hb. pose proof (zlen_nonneg buf).
  destruct (writeFixSize_loop_ok (send_rounds c (zlen buf)) (zlen buf) 0 (zlen buf) buf c) as (ks & _ & E);
    [done|done|lia|done|lia|done|by left|].
  by exists ks.
Qed.

(** ** Concrete streams *)

Definition demo_conn : Conn := mkConn [Data (L "ab"); Data (L "cde"); Data (L "f")] [1; 3] [] true.

Lemma readFixSize_exact_witness :
  ∃ rest, arrived rest = L "ef" ∧
    readFixSize 5 1 4 (L "......") demo_conn = Ok (4, L ".abcd.") (set_in rest demo_conn).
Proof.
  destruct (readFixSize_exact 1 4 (L "......") demo_conn) as (rest & Ha & E);
    [done|repeat constructor; discriminate|lia|vm_compute; split; discriminate|lia|vm_compute; split; [discriminate|done]|].
  exists rest. split; [exact Ha|exact E].
Defined.

Lemma writeFixSize_all_witness :
  ∃ ks, writeFixSize 4 (L "hello") 5 demo_conn = Ok 5 (mkConn (c_in demo_conn) ks (L "hello") true).
Proof.
  apply (writeFixSize_all (L "hello") demo_conn); [done|repeat constructor|vm_compute; done].
Defined.

(** A failed read is not noticed: its -1 is a large unsigned length, offset
    moves back, and the next byte is stored before the buffer. *)
Lemma readFixSize_failed_read :
  readFixSize 9 0 4 (L "....") (mkConn [Data (L "a"); Fail; Fail; Data (L "b")] [] [] true) = Stop OutOfBounds.
Proof. vm_compute. reflexivity. Qed.
Lemma readFixSize_failed_read_shifts :
  readFixSize 9 0 2 (L "..") (mkConn [Data (L "a"); Fail; Data (L "bc")] [] [] true)
  = Ok (2, L "bc") (mkConn [] [] [] true).
Proof. vm_compute. reflexivity. Qed.
