(* ===== verification/Session.v ===== *)
(** HttpSession (skt/http/http_session.cpp) and HttpServer::handleClient
    (skt/http/http_server.cpp).

    The composition of the server's parts: bytes from the stream go through
    the request parser, the request to the dispatcher, and the printed response
    back to the stream. [buff_size] is the configured buffer size, [mem] the
    memory the parser object is built in, [lexical_cast] boost's conversion of
    text to uint64_t. *)

From stdpp Require Import base list strings gmap.
From Stdlib Require Import Ascii Lia.
From S2P Require Import Prelude StdOrdered CString Http HttpProps Servlet Ragel HttpTable HttpParser HttpParserSafe.
From S2P Require Import HttpRoundtrip Stream.

(** A call of the parser object: its exceptions and failures are those of the
    session. *)
Definition on_parser {P A} (m : M P A) (ps : P) : M Conn (A * P) := λ c,
  match m ps with
  | Ok a ps' => Ok (a, ps') c
  | Exc e _ => Exc e c
  | Stop u => Stop u
  | NoFuel => NoFuel
  end.

Section Session.
Context (buff_size : Z) (mem : http_parser) (lexical_cast : str → option Z).

(** close(); return nullptr; *)
Definition hang_up {A} : M Conn (option A) := stream_close ≫= λ _, mret None.

(** The loop of recvRequest. [pending]: the first offset bytes of the buffer. *)
Fixpoint recv_head (fuel : nat) (pending : str) (ps : RequestParser) : M Conn (option (str * RequestParser)) :=
  match fuel with
  | O => mnofuel
  | S fuel' =>
    '(r, d) ← stream_read (u64 (buff_size - zlen pending));
    if r <=? 0 then hang_up
    else
      let data := pending ++ d in
      '((_, rest), ps') ← on_parser (excute data) ps;
      if hasError ps' then hang_up
      else if zlen rest =? i32 buff_size then hang_up
      else if negb (isFinished ps' =? 0) then mret (Some (rest, ps'))
      else recv_head fuel' rest ps'
  end.

(** The body: [data] are the bytes read after the head. *)
Definition recv_body (fuel : nat) (data : str) (length : Z) : M Conn (option str) :=
  let offset := zlen data in
  let zeros := replicate (Z.to_nat length) NUL in
  let '(body, len) := if offset <=? length then (zsplice 0 data zeros, offset)
                      else (zsplice 0 (take (Z.to_nat length) data) zeros, 0) in
  let left := length - offset in
  if 0 <? left
  then '(r, body') ← readFixSize fuel len left body;
       if r <=? 0 then hang_up else mret (Some body')
  else mret (Some body).

(** HttpSession::recvRequest *)
Definition recvRequest (fuel : nat) : M Conn (option HttpRequest) :=
  h ← recv_head fuel [] (RequestParser_new mem);
  match h with
  | None => mret None
  | Some (data, ps) =>
    let length := i64 (qp_getContentLength lexical_cast (m_cb ps)) in
    if 0 <? length
    then b ← recv_body fuel data length;
         match b with
         | None => mret None
         | Some body => mret (Some (q_setBody body (qp_data (m_cb ps))))
         end
    else mret (Some (qp_data (m_cb ps)))
  end.

(** HttpSession::sendResponse *)
Definition sendResponse (fuel : nat) (rsp : HttpResponse) : M Conn Z :=
  let data := p_dump rsp in writeFixSize fuel data (zlen data).

(** HttpServer::handleClient: [name] is getName(), [handler] the dispatcher.
    [fuel] bounds the requests on one connection, [io] the rounds of each
    loop over the stream. *)
Fixpoint handleClient_loop {S} `{Handler S} (fuel io : nat) (m_isKeepalive : bool) (name : str) (handler : S) : M Conn unit :=
  match fuel with
  | O => mnofuel
  | Datatypes.S fuel' =>
    req ← recvRequest io;
    match req with
    | None => stream_close
    | Some req =>
      let rsp := p_setHeader (L "Server") name
                   (HttpResponse_new (q_version req) (q_close req || negb m_isKeepalive)) in
      let rsp' := (handle handler req rsp).2 in
      sendResponse io rsp' ≫= λ _,
      if negb m_isKeepalive || q_close req then stream_close
      else handleClient_loop fuel' io m_isKeepalive name handler
    end
  end.
Definition handleClient {S} `{Handler S} := @handleClient_loop S _.

End Session.
