(* ===== verification/SessionProps.v ===== *)
(** Properties of the server's session: the composition of stream, parser,
    dispatcher and printer. *)

From stdpp Require Import base list strings gmap.
From Stdlib Require Import Ascii Lia.
From S2P Require Import Prelude StdOrdered CString Http HttpProps Servlet Ragel HttpTable HttpParser HttpParserSafe.
From S2P Require Import HttpRoundtrip Stream Session.

Lemma zsplice_front {A} (d l : list A) : zsplice 0 d l = d ++ drop (length d) l.
Proof. unfold zsplice. done. Qed.

Lemma zsplice_over {A} (d1 d2 l : list A) :
  (length d1 + length d2 = length l)%nat → zsplice (zlen d1) d2 (zsplice 0 d1 l) = d1 ++ d2.
Proof.
  intros Hl. rewrite zsplice_front. unfold zsplice, zlen. rewrite Nat2Z.id, take_app_length.
  rewrite (drop_ge (d1 ++ _)) by (rewrite length_app, length_drop; lia). by rewrite app_nil_r.
Qed.

Lemma app_prefix {A} (l1 l2 k1 k2 : list A) :
  l1 ++ l2 = k1 ++ k2 → zlen l1 ≤ zlen k1 → ∃ b, k1 = l1 ++ b ∧ l2 = b ++ k2.
Proof.
  intros [(k & -> & ->)|(k & -> & ->)]%app_eq_inv Hl; [|by exists k]. rewrite zlen_app in Hl.
  assert (k = []) as ->. { destruct k; [done|]. rewrite zlen_cons in Hl. pose proof (zlen_nonneg k). lia. }
  exists []. by rewrite !app_nil_r.
Qed.

(** The body is exactly the next [length] bytes of the stream: the bytes
    [data] that came with the head, then those that arrive. *)
Lemma recv_body_ok fuel data body extra c :
  c_open c = true → chunks_ok (c_in c) → data ++ arrived (c_in c) = body ++ extra →
  0 < zlen body < 2 ^ 31 → (length (c_in c) + 2 ≤ fuel)%nat →
  ∃ rest, recv_body fuel data (zlen body) c = Ok (Some body) (set_in rest c) ∧
    chunks_ok rest ∧ arrived rest = drop (Z.to_nat (zlen body - zlen data)) (arrived (c_in c)).
Proof.
  intros Ho Hc Hcat Hb Hf. unfold recv_body.
  pose proof (zlen_nonneg data). pose (zeros := replicate (Z.to_nat (zlen body)) NUL). fold zeros.
  assert (length zeros = length body) as Hz by (unfold zeros; rewrite length_replicate; unfold zlen; lia).
  destruct (Z.leb_spec (zlen data) (zlen body)) as [Hle|Hgt]; cbv zeta iota beta.
  - apply app_eq_inv in Hcat as [(k & Hd & ->)|(k & -> & Hk)].
    + (* the body ends with data *)
      rewrite Hd, zlen_app in Hle. assert (k = []) as ->.
      { destruct k; [done|]. rewrite zlen_cons in Hle. pose proof (zlen_nonneg k). lia. }
      rewrite app_nil_r in Hd. subst data. exists (c_in c). rewrite set_in_id, Z.sub_diag.
      split; [|done]. cbn. do 3 f_equal. rewrite zsplice_front, drop_ge by lia. apply app_nil_r.
    + (* all of data belongs to the body *)
      rewrite zlen_app in *. replace (zlen data + zlen k - zlen data) with (zlen k) by lia.
      destruct (Z.ltb_spec 0 (zlen k)) as [Hpos|Hnpos].
      * destruct (readFixSize_loop_ok fuel (zlen data) (zlen k) 0 (zlen k) (zsplice 0 data zeros) c)
          as (rest & Hcr & Ha & E); try done; [rewrite Hk, zlen_app; pose proof (zlen_nonneg extra); lia|lia| |by right|].
        { rewrite zlen_zsplice by (unfold zlen in *; rewrite length_app in Hz; lia). unfold zlen in *. rewrite length_app in Hz. lia. }
        exists rest. split; [|done]. unfold readFixSize. run E. rewrite (wraps_small 32) by (unfold in_s; lia).
        rewrite (proj2 (Z.leb_gt (zlen k) 0)) by lia. rewrite Z.add_0_r, Hk.
        unfold zlen at 2. rewrite Nat2Z.id, take_app_length, zsplice_over; [done|]. by rewrite Hz, length_app.
      * assert (k = []) as -> by (destruct k; [done|rewrite zlen_cons in Hnpos; pose proof (zlen_nonneg k); lia]).
        exists (c_in c). rewrite set_in_id. split; [|done]. rewrite app_nil_r in *. do 3 f_equal.
        rewrite zsplice_front, drop_ge by lia. apply app_nil_r.
  - rewrite (proj2 (Z.ltb_ge 0 (zlen body - zlen data))) by lia. exists (c_in c). rewrite set_in_id.
    split; [|split; [done|by replace (Z.to_nat _) with 0%nat by lia]]. do 3 f_equal.
    assert (take (Z.to_nat (zlen body)) data = body) as ->.
    { apply (f_equal (take (length body))) in Hcat. rewrite take_app_length, take_app_le in Hcat by (unfold zlen in *; lia).
      unfold zlen. by rewrite Nat2Z.id. }
    rewrite zsplice_front, drop_ge by lia. apply app_nil_r.
Qed.

(** ** The length the parser reports *)

Lemma set_headers_rest hs r :
  q_body (set_headers hs r) = q_body r ∧ q_close (set_headers hs r) = q_close r ∧ q_version (set_headers hs r) = q_version r.
Proof. revert r. induction hs as [|[k v] hs IH]; intros r; [done|]. exact (IH (q_setHeader k v r)). Qed.

Lemma setBody_id r : q_body r = [] → q_setBody [] r = r.
Proof. destruct r. cbn. by intros ->. Qed.

Lemma map_get_find (m : MapType) k v :
  map_find CaseInsensitiveLess k m = Some v ↔ ∀ def, map_get m k def = v.
Proof.
  unfold map_get. split; [by intros ->|]. destruct (map_find CaseInsensitiveLess k m) as [w|]; [intros H; by rewrite (H [])|].
  intros H. pose proof (H []) as H1. pose proof (H [CR]) as H2. congruence.
Qed.

(** No length is announced for a request without a body. *)
Definition length_ok (q : HttpRequest) : Prop :=
  q_body q = [] → Forall (λ kv, casefold kv.1 ≠ casefold (L "content-length")) (q_headers q).

Section Session.
Context (buff_size : Z) (Hbs : 0 < buff_size < 2 ^ 31) (mem : http_parser).
(** lexical_cast<uint64_t> reads the decimal notation of a number. *)
Context (lexical_cast : str → option Z) (Hcast : ∀ n, 0 ≤ n < 2 ^ 64 → lexical_cast (dec n) = Some n).

(** The length read back from headers that end with the one dump prints. *)
Lemma length_found (hs : list (str * str)) (body : str) :
  (body = [] → Forall (λ kv, casefold kv.1 ≠ casefold (L "content-length")) hs) → zlen body < 2 ^ 31 →
  getAs lexical_cast (set_all (hs ++ match body with [] => [] | _ => [(L "content-length", dec (zlen body))] end) [])
    (L "content-length") 0 = zlen body.
Proof.
  intros Hl Hb. assert (map_ok []) as Hnil by constructor. pose proof (zlen_nonneg body) as Hz.
  unfold getAs. destruct body as [|x body].
  - rewrite app_nil_r. pose (m := set_all hs []). fold m.
    assert (∀ def, map_get m (L "content-length") def = def) as H.
    { intros def. unfold m. rewrite set_all_other; [done|done|]. by apply Hl. }
    destruct (map_find CaseInsensitiveLess (L "content-length") m) as [w|] eqn:E; [|done].
    pose proof (proj1 (map_get_find _ _ _) E) as Hw.
    pose proof (H []) as H1. pose proof (H [CR]) as H2. rewrite Hw in H1, H2. congruence.
  - rewrite (proj2 (map_get_find _ (L "content-length") (dec (zlen (x :: body))))); [by rewrite Hcast by lia|].
    intros def. by apply set_all_found.
Qed.

Lemma content_length_parsed q :
  length_ok q → zlen (q_body q) < 2 ^ 31 →
  qp_getContentLength lexical_cast (mkQP (parsed q) 0) = zlen (q_body q).
Proof.
  intros Hl Hb. unfold qp_getContentLength, parsed. cbn [qp_data]. rewrite set_headers_all. unfold printed_headers.
  rewrite app_comm_cons. apply length_found; [|done]. intros E. constructor; [by vm_compute|]. by apply Forall_keep, Hl.
Qed.

(** The first read brings the head, and some of what follows. *)
Lemma first_read c d0 i hd tl :
  c_open c = true → chunks_ok (c_in c) → c_in c = Data d0 :: i → arrived (c_in c) = hd ++ tl →
  zlen hd ≤ zlen d0 → zlen hd ≤ buff_size →
  ∃ b0 rest, stream_read buff_size c = Ok (zlen (hd ++ b0), hd ++ b0) (set_in rest c) ∧ zlen (hd ++ b0) ≤ buff_size ∧
    chunks_ok rest ∧ (length rest ≤ length (c_in c))%nat ∧ b0 ++ arrived rest = tl.
Proof.
  intros Ho Hc Ein Har Hh1 Hh2.
  assert (∃ got rest, stream_read buff_size c = Ok (zlen got, got) (set_in rest c) ∧
    arrived (c_in c) = got ++ arrived rest ∧ zlen hd ≤ zlen got ≤ buff_size ∧ chunks_ok rest ∧
    (length rest ≤ length (c_in c))%nat) as (got & rest & E & Hsplit & Hgot & Hcr & Hlr).
  { unfold stream_read. rewrite Ho, Ein. cbn [negb]. eexists (take (Z.to_nat buff_size) d0), _.
    rewrite wraps_small by (unfold in_s, zlen; rewrite ?length_take; lia). split; [reflexivity|].
    rewrite Ein in Hc. apply Forall_cons_1 in Hc as [_ Hi].
    split; [|split; [unfold zlen in *; rewrite length_take; lia|split]].
    - cbn [arrived]. rewrite <- (take_drop (Z.to_nat buff_size) d0) at 1. rewrite <- (assoc_L (++)). f_equal.
      by destruct (drop (Z.to_nat buff_size) d0).
    - destruct (drop (Z.to_nat buff_size) d0) eqn:Ed; [done|]. by constructor.
    - destruct (drop _ d0); cbn; lia. }
  rewrite Har in Hsplit. destruct (app_prefix _ _ _ _ Hsplit) as (b0 & -> & Hb); [lia|]. exists b0, rest. split; [done|]. split; [lia|]. by split_and!.
Qed.

(** A request of the client has arrived, its head with the first read. *)
Definition request_arrives (q : HttpRequest) (extra : str) (c : Conn) : Prop :=
  c_open c = true ∧ chunks_ok (c_in c) ∧ printable q ∧ length_ok q ∧ zlen (q_body q) < 2 ^ 31 ∧
  arrived (c_in c) = q_dump q ++ extra ∧
  ∃ d0 i, c_in c = Data d0 :: i ∧ zlen (head_of q) ≤ zlen d0 ∧ zlen (head_of q) ≤ buff_size.

(** The request a servlet gets. *)
Definition received (q : HttpRequest) : HttpRequest := q_setBody (q_body q) (parsed q).

Lemma head_nonempty q : 0 < zlen (head_of q).
Proof. unfold head_of. rewrite zlen_app. pose proof (zlen_nonneg (lines (request_line q :: req_lines q))). change (zlen CRLF) with 2. lia. Qed.

(** The first round of recvRequest. *)
Lemma recv_head_ok fuel q extra c :
  request_arrives q extra c →
  ∃ b0 ps rest, recv_head buff_size (S fuel) [] (RequestParser_new mem) c = Ok (Some (b0, ps)) (set_in rest c) ∧
    m_cb ps = mkQP (parsed q) 0 ∧ chunks_ok rest ∧ (length rest ≤ length (c_in c))%nat ∧
    b0 ++ arrived rest = q_body q ++ extra.
Proof.
  intros (Ho & Hc & Hq & _ & _ & Har & d0 & i & Ein & Hh1 & Hh2). pose proof (head_nonempty q) as Hh0.
  rewrite q_dump_head, <- (assoc_L (++)) in Har.
  destruct (first_read c d0 i _ _ Ho Hc Ein Har Hh1 Hh2) as (b0 & rest & E & Hgot & Hcr & Hlr & Hb).
  pose proof (zlen_nonneg b0) as Hb0. rewrite zlen_app in Hgot.
  destruct (parse_head q b0 mem Hq) as (ps & Ep & Hfin & Hps); [rewrite zlen_app; lia|].
  exists b0, ps, rest. split; [|done]. cbn [recv_head].
  assert (u64 (buff_size - zlen (@nil ascii)) = buff_size) as -> by (rewrite zlen_nil, Z.sub_0_r; apply wrapu_small; split; lia).
  run E. rewrite (proj2 (Z.leb_gt _ 0)) by (rewrite zlen_app; lia). cbn [app].
  erewrite bind_ok; [|unfold on_parser; rewrite Ep; reflexivity]. cbv beta iota.
  unfold hasError, qp_hasError. rewrite Hps. cbn [qp_error]. rewrite Z.eqb_refl. cbn [negb andb].
  rewrite (wraps_small 32), (proj2 (Z.eqb_neq (zlen b0) buff_size)) by (unfold in_s; lia).
  by rewrite Hfin.
Qed.

Lemma recvRequest_ok fuel q extra c :
  request_arrives q extra c → (length (c_in c) + 2 ≤ fuel)%nat →
  ∃ rest, recvRequest buff_size mem lexical_cast fuel c = Ok (Some (received q)) (set_in rest c) ∧ chunks_ok rest.
Proof.
  intros Hr Hf. destruct fuel as [|fuel]; [lia|]. pose proof Hr as (Ho & _ & _ & Hlok & Hb & _).
  destruct (recv_head_ok fuel q extra c Hr) as (b0 & ps & rest & E & Hps & Hcr & Hlr & Hcat).
  unfold recvRequest. run E. cbv beta iota. rewrite Hps, content_length_parsed by done.
  pose proof (zlen_nonneg (q_body q)). rewrite (wraps_small 64) by (unfold in_s; lia).
  destruct (Z.ltb_spec 0 (zlen (q_body q))) as [Hpos|Hnil].
  - destruct (recv_body_ok (S fuel) b0 (q_body q) extra (set_in rest c)) as (rest' & E' & Hc' & _); try done; [cbn [c_in set_in]; lia|].
    exists rest'. by run E'.
  - exists rest. split; [|done]. cbn [qp_data]. unfold received.
    assert (q_body q = []) as Hq. { destruct (q_body q); [done|]. rewrite zlen_cons in Hnil. pose proof (zlen_nonneg l). lia. }
    rewrite Hq, setBody_id; [done|]. unfold parsed. by rewrite (proj1 (set_headers_rest _ _)).
Qed.

Lemma set_headers_fields hs r :
  let r' := set_headers hs r in
  q_method r' = q_method r ∧ q_path r' = q_path r ∧ q_query r' = q_query r ∧ q_fragment r' = q_fragment r.
Proof. revert r. induction hs as [|[k v] hs IH]; intros r; [done|]. exact (IH (q_setHeader k v r)). Qed.


(** The response a servlet returns for a request, with the headers the server
    sets before. *)
Definition answer {S} `{Handler S} (name : str) (handler : S) (q : HttpRequest) : HttpResponse :=
  (handle handler (received q) (p_setHeader (L "Server") name (HttpResponse_new (q_version q) true))).2.

Lemma received_rest q : q_close (received q) = true ∧ q_version (received q) = q_version q.
Proof. unfold received, parsed. destruct (set_headers_rest (printed_headers q) (mkReq (q_method q) (q_version q) true (q_path q) (q_query q) (q_fragment q) [] [] [] [])) as (_ & H1 & H2). done. Qed.

(** A client is served: the server reads its request, hands it to the
    dispatcher, sends the printed response completely, however few bytes each
    send accepts, and closes the connection. It does so with and without
    keep-alive, because the parser never clears the request's close flag. *)
Theorem handleClient_serves {S} `{Handler S} fuel io keepalive name (handler : S) q extra c :
  request_arrives q extra c → caps_ok c → zlen (p_dump (answer name handler q)) < 2 ^ 63 →
  (length (c_in c) + 2 ≤ io)%nat → (send_rounds c (zlen (p_dump (answer name handler q))) ≤ io)%nat →
  ∃ c', handleClient buff_size mem lexical_cast (Datatypes.S fuel) io keepalive name handler c = Ok tt c' ∧
    c_open c' = false ∧ c_out c' = c_out c ++ p_dump (answer name handler q).
Proof.
  intros Hr Hcaps Hlen Hio1 Hio2. destruct (recvRequest_ok io q extra c Hr Hio1) as (rest & E & _).
  destruct (received_rest q) as [Hclose Hver].
  destruct (writeFixSize_loop_ok io (zlen (p_dump (answer name handler q))) 0 (zlen (p_dump (answer name handler q)))
    (p_dump (answer name handler q)) (set_in rest c)) as (ks & _ & E2);
    [by destruct Hr|done|lia|apply zlen_nonneg|lia|done|by left|].
  unfold handleClient. cbn [handleClient_loop]. run E. rewrite Hclose, Hver, orb_true_r. cbn [orb].
  change (handle handler (received q) _).2 with (answer name handler q).
  unfold sendResponse, writeFixSize. erewrite bind_ok; [|exact E2].
  eexists. split; [reflexivity|]. done.
Qed.

End Session.

(** ** A client *)

(** strtoull for plain digits. *)
Definition read_dec (s : str) : option Z :=
  match s with
  | [] => None
  | _ => if forallb (between 48 57) s then Some (fold_left (λ n c, 10 * n + (char_val c - 48)) s 0) else None
  end.

Lemma digit_char_val d : 0 ≤ d < 10 → char_val (digit d) = 48 + d.
Proof.
  intros Hd. assert (d = 0 ∨ d = 1 ∨ d = 2 ∨ d = 3 ∨ d = 4 ∨ d = 5 ∨ d = 6 ∨ d = 7 ∨ d = 8 ∨ d = 9) as H by lia.
  repeat destruct H as [->|H]; try (by vm_compute). subst. by vm_compute.
Qed.

Lemma dec_loop_value fuel n acc :
  0 ≤ n < 10 ^ Z.of_nat fuel → (0 < fuel)%nat → forallb (between 48 57) acc = true →
  let s := dec_loop fuel n acc in
  s ≠ [] ∧ forallb (between 48 57) s = true ∧
  fold_left (λ n c, 10 * n + (char_val c - 48)) s 0 = fold_left (λ n c, 10 * n + (char_val c - 48)) acc n.
Proof.
  revert n acc. induction fuel as [|fuel IH]; intros n acc Hn Hf Ha; [lia|]. cbn [dec_loop].
  pose proof (Z.mod_pos_bound n 10 ltac:(lia)) as Hm. pose proof (Z.div_mod n 10 ltac:(lia)) as Hd.
  assert (forallb (between 48 57) (digit (n mod 10) :: acc) = true) as Ha'.
  { cbn [forallb]. rewrite Ha. unfold between. rewrite digit_char_val by lia.
    by rewrite (proj2 (Z.leb_le 48 _)), (proj2 (Z.leb_le _ 57)) by lia. }
  destruct (Z.eqb_spec (n / 10) 0) as [Hz|Hz].
  - split; [done|]. split; [done|]. cbn [fold_left]. rewrite digit_char_val by lia. f_equal. lia.
  - rewrite Nat2Z.inj_succ, Z.pow_succ_r in Hn by lia.
    destruct (IH (n / 10) (digit (n mod 10) :: acc)) as (H1 & H2 & H3); [|destruct fuel; [cbn in Hn; lia|lia]|done|].
    { split; [apply Z.div_pos; lia|apply Z.div_lt_upper_bound; lia]. }
    split; [done|]. split; [done|]. rewrite H3. cbn [fold_left]. rewrite digit_char_val by lia. f_equal. lia.
Qed.

Lemma read_dec_dec n : 0 ≤ n < 2 ^ 64 → read_dec (dec n) = Some n.
Proof.
  intros Hn. destruct (dec_loop_value 20 n []) as (H1 & H2 & H3); [|lia|done|].
  { assert (2 ^ 64 ≤ 10 ^ Z.of_nat 20) by (vm_compute; discriminate). lia. }
  unfold read_dec, dec. destruct (dec_loop 20 n []) eqn:E; [done|]. rewrite H2, H3. done.
Qed.

(** The request of [demo_post] in three pieces, and a servlet for its path. *)
Definition demo_client : Conn :=
  mkConn [Data (head_of demo_post ++ L "a"); Data (L "="); Data (L "1GET /x")] [7; 1] [] true.

Definition demo_get : HttpRequest := q_setPath (L "/x") (HttpRequest_new 17 false).
Definition demo_server : ServletDispatch Z := addServlet (L "/a/b.html") (User 201) ServletDispatch_new.
#[local] Instance demo_handler : Handler (ServletDispatch Z) :=
  ServletDispatch_handle (λ p s, bool_decide (p = s)).

Lemma demo_arrives : request_arrives 4096 demo_post (L "GET /x") demo_client.
Proof.
  split; [done|]. split; [repeat constructor; vm_compute; discriminate|]. split.
  { split; [by split|]. split; [by right|]. split; [exists (L "a/b.html"); by split|]. split; [done|]. split; [done|].
    constructor; [by split|constructor]. }
  split; [intros [=]|]. split; [by vm_compute|]. split; [vm_compute; reflexivity|].
  eexists _, _. split; [reflexivity|]. split; vm_compute; discriminate.
Qed.


Lemma handleClient_serves_witness :
  ∃ c', handleClient 4096 blank read_dec 1 5 true (L "skt") demo_server demo_client = Ok tt c' ∧
    c_open c' = false ∧ c_out c' = p_dump (answer (L "skt") demo_server demo_post).
Proof.
  apply (handleClient_serves 4096 ltac:(lia) blank read_dec read_dec_dec 0 5 true (L "skt") demo_server demo_post (L "GET /x") demo_client);
    [exact demo_arrives|repeat constructor|vm_compute; done|cbn; lia|vm_compute; lia].
Defined.

(** What follows the request in the same read is lost. *)
Lemma pipelined_request_lost :
  ∃ r c', recvRequest 4096 blank read_dec 5
    (mkConn [Data (q_dump demo_get ++ q_dump demo_get)] [] [] true) = Ok (Some r) c' ∧ arrived (c_in c') = [].
Proof. eexists _, _. split; [vm_compute; reflexivity|reflexivity]. Qed.

(** A malformed request is answered as if it were the request read so far. *)
Lemma malformed_request_served :
  ∃ r c', recvRequest 4096 blank read_dec 5 (mkConn [Data (L "nonsense")] [] [] true) = Ok (Some r) c' ∧
    q_method r = GET ∧ q_path r = L "/".
Proof. eexists _, _. split; [vm_compute; reflexivity|]. split; reflexivity. Qed.
