(* ===== verification/Address.v ===== *)
(** Network addresses (skt/address/address.h, skt/address/address.cpp).

    The socket address structures as they lie in memory on a little-endian
    machine. getaddrinfo, getifaddrs and inet_pton are arguments: what they
    return is given. *)

From stdpp Require Import base list strings.
From Stdlib Require Import Ascii ZArith Lia.
From S2P Require Import Prelude Endian CString.

Definition AF_UNSPEC : Z := 0.
Definition AF_UNIX : Z := 1.
Definition AF_INET : Z := 2.
Definition AF_INET6 : Z := 10.

(** CreateMask<T> at a type of [w] bits: 1 is an int. None: the shift or the
    subtraction has no defined result. *)
Definition CreateMask (w bits : Z) : option Z :=
  let k := u64 (w - bits) in
  if (k <? 31) then Some (wrapu w (2 ^ k - 1)) else None.

(** CountBytes: the loop, and its value; it runs once per set bit. *)
Fixpoint CountBytes_loop (fuel : nat) (value res : Z) : option Z :=
  match fuel with
  | O => None
  | S fuel' => if value =? 0 then Some res else CountBytes_loop fuel' (Z.land value (value - 1)) (res + 1)
  end.
Definition CountBytes (w : nat) (value : Z) : option Z := CountBytes_loop (S w) value 0.

(** ** Structures *)

Record sockaddr_in : Type := mkIn { sin_family : Z; sin_port : Z; s_addr : Z; sin_zero : list Z }.
Record sockaddr_in6 : Type := mkIn6 { sin6_family : Z; sin6_port : Z; sin6_flowinfo : Z; s6_addr : list Z; sin6_scope : Z }.
Record sockaddr_un : Type := mkUn { sun_family : Z; sun_path : str }.
Record sockaddr : Type := mkSa { sa_family : Z; sa_data : list Z }.

(** sizeof sun_path, and the offset of sun_path. *)
Definition UNIX_PATH_MAX : Z := 108.
Definition sun_path_offset : Z := 2.
Definition MAX_PATH_LEN : Z := UNIX_PATH_MAX - 1.

Definition char_byte (c : ascii) : Z := Z.of_N (N_of_ascii c).

(** The bytes of each structure. *)
Definition in_bytes (a : sockaddr_in) : list Z :=
  le_bytes 2 (sin_family a) ++ le_bytes 2 (sin_port a) ++ le_bytes 4 (s_addr a) ++ sin_zero a.
Definition in6_bytes (a : sockaddr_in6) : list Z :=
  le_bytes 2 (sin6_family a) ++ le_bytes 2 (sin6_port a) ++ le_bytes 4 (sin6_flowinfo a) ++ s6_addr a
  ++ le_bytes 4 (sin6_scope a).
Definition un_bytes (a : sockaddr_un) : list Z := le_bytes 2 (sun_family a) ++ (char_byte <$> sun_path a).
Definition sa_bytes (a : sockaddr) : list Z := le_bytes 2 (sa_family a) ++ sa_data a.

(** The classes derived from Address. *)
Inductive Address : Type :=
| IPv4Address (m_addr : sockaddr_in)
| IPv6Address (m_addr : sockaddr_in6)
| UnixAddress (m_addr : sockaddr_un) (m_length : Z)
| UnknowAddress (m_addr : sockaddr).

(** The object behind getAddr(). *)
Definition getAddr (a : Address) : list Z :=
  match a with
  | IPv4Address m => in_bytes m
  | IPv6Address m => in6_bytes m
  | UnixAddress m _ => un_bytes m
  | UnknowAddress m => sa_bytes m
  end.
Definition getAddrLen (a : Address) : Z :=
  match a with
  | IPv4Address _ => 16
  | IPv6Address _ => 28
  | UnixAddress _ len => len
  | UnknowAddress _ => 16
  end.
Definition getFamily (a : Address) : Z :=
  match a with
  | IPv4Address m => sin_family m
  | IPv6Address m => sin6_family m
  | UnixAddress m _ => sun_family m
  | UnknowAddress m => sa_family m
  end.
Definition setAddrLen (v : Z) (a : Address) : Address :=
  match a with UnixAddress m _ => UnixAddress m v | _ => a end.

(** ** Constructors *)

Definition sockaddr_in_new (address port : Z) : sockaddr_in :=
  mkIn AF_INET (byteswapOnLittleEndian 2 port) (byteswapOnLittleEndian 4 address) (replicate 8 0).
Definition IPv4Address_new (address port : Z) : Address := IPv4Address (sockaddr_in_new address port).
(** [inet_pton]: the raw value it stores, or None. *)
Definition IPv4Address_Create (inet_pton : str → option Z) (address : str) (port : Z) : option Address :=
  match inet_pton address with
  | Some raw => Some (IPv4Address (mkIn AF_INET (byteswapOnLittleEndian 2 port) raw (replicate 8 0)))
  | None => None
  end.

Definition IPv6Address_new : Address := IPv6Address (mkIn6 AF_INET6 0 0 (replicate 16 0) 0).
Definition IPv6Address_bytes (address : list Z) (port : Z) : Address :=
  IPv6Address (mkIn6 AF_INET6 (byteswapOnLittleEndian 2 port) 0 address 0).
Definition IPv6Address_Create (inet_pton : str → option (list Z)) (address : str) (port : Z) : option Address :=
  match inet_pton address with
  | Some raw => Some (IPv6Address_bytes raw port)
  | None => None
  end.

Definition UnixAddress_new : Address :=
  UnixAddress (mkUn AF_UNIX (replicate 108 NUL)) (sun_path_offset + MAX_PATH_LEN).
(** An exception when the path is too long. memcpy copies the path and, unless
    it starts with NUL, its terminator. *)
Definition UnixAddress_path (path : str) : exn + Address :=
  let m_length := match path with
                  | c :: _ => if bool_decide (c = NUL) then zlen path else zlen path + 1
                  | [] => 1
                  end in
  if UNIX_PATH_MAX <? m_length then inl (logic_error "path too long")
  else inr (UnixAddress (mkUn AF_UNIX (zsplice 0 (take (Z.to_nat m_length) (path ++ [NUL])) (replicate 108 NUL)))
              (m_length + sun_path_offset)).
Definition UnknowAddress_new (family : Z) : Address := UnknowAddress (mkSa family (replicate 14 0)).

(** Address::Create on a socket address of the system. *)
Inductive raw_addr : Type :=
| RawIn (a : sockaddr_in)
| RawIn6 (a : sockaddr_in6)
| RawOther (a : sockaddr).
Definition Address_Create (addr : option raw_addr) : option Address :=
  match addr with
  | None => None
  | Some (RawIn a) => Some (IPv4Address a)
  | Some (RawIn6 a) => Some (IPv6Address a)
  | Some (RawOther a) => Some (UnknowAddress a)
  end.

(** ** Comparison *)

(** memcmp(a, b, n): None outside the objects; otherwise whether the result is
    negative, zero or positive. *)
Fixpoint memcmp (a b : list Z) : comparison :=
  match a, b with
  | x :: a', y :: b' => if x <? y then Lt else if y <? x then Gt else memcmp a' b'
  | _, _ => Eq
  end.
Definition memcmp_n (a b : list Z) (n : Z) : option comparison :=
  match mem_read 0 n a, mem_read 0 n b with
  | Some x, Some y => Some (memcmp x y)
  | _, _ => None
  end.

Definition Address_lt (a b : Address) : option bool :=
  match memcmp_n (getAddr a) (getAddr b) (Z.min (getAddrLen a) (getAddrLen b)) with
  | None => None
  | Some Lt => Some true
  | Some Gt => Some false
  | Some Eq => Some (getAddrLen a <? getAddrLen b)
  end.
Definition Address_eq (a b : Address) : option bool :=
  if getAddrLen a =? getAddrLen b
  then match memcmp_n (getAddr a) (getAddr b) (getAddrLen a) with
       | Some Eq => Some true
       | Some _ => Some false
       | None => None
       end
  else Some false.
Definition Address_ne (a b : Address) : option bool := negb <$> Address_eq a b.

(** ** Text *)

Definition v4_ip (a : sockaddr_in) : Z := byteswapOnLittleEndian 4 (s_addr a).

Definition v4_insert (a : sockaddr_in) : str :=
  let addr := v4_ip a in
  dec (Z.land (Z.shiftr addr 24) 255) ++ L "." ++ dec (Z.land (Z.shiftr addr 16) 255) ++ L "."
  ++ dec (Z.land (Z.shiftr addr 8) 255) ++ L "." ++ dec (Z.land addr 255)
  ++ L ":" ++ dec (byteswapOnLittleEndian 2 (sin_port a)).

Definition hex_digit (n : Z) : ascii :=
  if n <? 10 then ascii_of_nat (48 + Z.to_nat n) else ascii_of_nat (87 + Z.to_nat n).
(** std::hex, for at most 16 bits. *)
Fixpoint hex_loop (fuel : nat) (n : Z) (acc : str) : str :=
  match fuel with
  | O => acc
  | S fuel' =>
    let acc' := hex_digit (n mod 16) :: acc in
    if n / 16 =? 0 then acc' else hex_loop fuel' (n / 16) acc'
  end.
Definition hex (n : Z) : str := hex_loop 4 n [].

(** The uint16_t at index [i] of the address. *)
Definition v6_word (addr : list Z) (i : nat) : Z := nth (2 * i) addr 0 + 256 * nth (2 * i + 1) addr 0.

Fixpoint v6_loop (addr : list Z) (ixs : list nat) (used_zeros : bool) (os : str) : bool * str :=
  match ixs with
  | [] => (used_zeros, os)
  | i :: ixs' =>
    if (v6_word addr i =? 0) && negb used_zeros then v6_loop addr ixs' used_zeros os
    else
      let zeros_end := negb (Nat.eqb i 0) && (v6_word addr (i - 1) =? 0) && negb used_zeros in
      let os1 := if zeros_end then os ++ L ":" else os in
      let os2 := if Nat.eqb i 0 then os1 else os1 ++ L ":" in
      v6_loop addr ixs' (used_zeros || zeros_end) (os2 ++ hex (byteswapOnLittleEndian 2 (v6_word addr i)))
  end.
Definition v6_insert (a : sockaddr_in6) : str :=
  let '(used, os) := v6_loop (s6_addr a) (seq 0 8) false (L "[") in
  (if negb used && (v6_word (s6_addr a) 7 =? 0) then os ++ L "::" else os)
  ++ L "]:" ++ dec (byteswapOnLittleEndian 2 (sin6_port a)).

(** Address::insert and toString; None: the length leaves sun_path. *)
Definition toString (a : Address) : option str :=
  match a with
  | IPv4Address m => Some (v4_insert m)
  | IPv6Address m => Some (v6_insert m)
  | UnixAddress m len =>
    if (sun_path_offset <? len) && bool_decide (hd NUL (sun_path m) = NUL)
    then match mem_read 1 (len - sun_path_offset - 1) (sun_path m) with
         | Some s => Some (ascii_of_nat 92 :: L "0" ++ s)
         | None => None
         end
    else Some (c_str (sun_path m))
  | UnknowAddress m => Some (L "[UnkonwAddress family=" ++ dec (sa_family m) ++ L "]")
  end.

(** ** Prefixes *)

(** IPAddress::broadcastAddress, networkAddress and subnetMask: Stop where the
    code has no defined result, [Ok None] for nullptr. *)
Definition v4_with (f : Z → Z) (m : sockaddr_in) : Address :=
  IPv4Address (mkIn (sin_family m) (sin_port m) (f (s_addr m)) (sin_zero m)).
Definition v4_broadcastAddress (m : sockaddr_in) (prefix_len : Z) : result unit (option Address) :=
  if 32 <? prefix_len then Ok None tt
  else match CreateMask 32 prefix_len with
       | None => Stop BadArith
       | Some mask => Ok (Some (v4_with (λ x, Z.lor x (byteswapOnLittleEndian 4 mask)) m)) tt
       end.
Definition v4_networkAddress (m : sockaddr_in) (prefix_len : Z) : result unit (option Address) :=
  if 32 <? prefix_len then Ok None tt
  else match CreateMask 32 prefix_len with
       | None => Stop BadArith
       | Some mask => Ok (Some (v4_with (λ x, Z.land x (byteswapOnLittleEndian 4 mask)) m)) tt
       end.
Definition v4_subnetMask (prefix_len : Z) : result unit (option Address) :=
  match CreateMask 32 prefix_len with
  | None => Stop BadArith
  | Some mask => Ok (Some (IPv4Address (mkIn AF_INET 0 (u32 (Z.lnot (byteswapOnLittleEndian 4 mask))) (replicate 8 0)))) tt
  end.

(** Bytes [from] to 15 set to 0xff. *)
Definition fill_from (from : Z) (addr : list Z) : list Z :=
  take (Z.to_nat from) addr ++ replicate (16 - Z.to_nat from) 255.
Definition v6_with (addr : list Z) (m : sockaddr_in6) : Address :=
  IPv6Address (mkIn6 (sin6_family m) (sin6_port m) (sin6_flowinfo m) addr (sin6_scope m)).
(** The common shape of the first two: byte prefix_len / 8 is combined with the
    mask, the bytes after it are set. *)
Definition v6_combine (op : Z → Z → Z) (m : sockaddr_in6) (prefix_len : Z) : result unit (option Address) :=
  match CreateMask 8 (prefix_len mod 8), mem_read (prefix_len / 8) 1 (s6_addr m) with
  | Some mask, Some [x] =>
    Ok (Some (v6_with (fill_from (prefix_len / 8 + 1) (zsplice (prefix_len / 8) [op x mask] (s6_addr m))) m)) tt
  | Some _, _ => Stop OutOfBounds
  | None, _ => Stop BadArith
  end.
Definition v6_broadcastAddress : sockaddr_in6 → Z → result unit (option Address) := v6_combine Z.lor.
Definition v6_networkAddress : sockaddr_in6 → Z → result unit (option Address) := v6_combine Z.land.
Definition v6_subnetMask (prefix_len : Z) : result unit (option Address) :=
  match CreateMask 8 (prefix_len mod 8), mem_read (prefix_len / 8) 1 (replicate 16 0) with
  | Some mask, Some _ =>
    Ok (Some (IPv6Address_bytes
      (zsplice 0 (replicate (Z.to_nat (prefix_len / 8)) 255)
        (zsplice (prefix_len / 8) [u8 (Z.lnot mask)] (replicate 16 0))) 0)) tt
  | Some _, None => Stop OutOfBounds
  | None, _ => Stop BadArith
  end.

(** ** Ports *)

Definition getPort (a : Address) : option Z :=
  match a with
  | IPv4Address m => Some (byteswapOnLittleEndian 2 (sin_port m))
  | IPv6Address m => Some (byteswapOnLittleEndian 2 (sin6_port m))
  | _ => None
  end.
Definition setPort (v : Z) (a : Address) : Address :=
  match a with
  | IPv4Address m => IPv4Address (mkIn (sin_family m) (byteswapOnLittleEndian 2 v) (s_addr m) (sin_zero m))
  | IPv6Address m => IPv6Address (mkIn6 (sin6_family m) (byteswapOnLittleEndian 2 v) (sin6_flowinfo m) (s6_addr m) (sin6_scope m))
  | _ => a
  end.

(** ** Lookup *)

(** memchr: the text before the character, and the text from it on. *)
Fixpoint memchr (c : ascii) (s : str) : option (str * str) :=
  match s with
  | [] => None
  | x :: s' => if bool_decide (x = c) then Some ([], s)
               else match memchr c s' with Some (p, r) => Some (x :: p, r) | None => None end
  end.

(** The first part of Lookup: node and service of a host text. *)
Definition split_host (host : str) : str * option str :=
  let '(node, service) :=
    match host with
    | c :: host' =>
      if bool_decide (c = "["%char)
      then match memchr "]"%char host' with
           | Some (node, _ :: after) =>
             (node, match after with c' :: s => if bool_decide (c' = ":"%char) then Some s else None | [] => None end)
           | _ => ([], None)
           end
      else ([], None)
    | [] => ([], None)
    end in
  let '(node, service) :=
    match node with
    | [] =>
      match memchr ":"%char host with
      | Some (before, colon :: after) =>
        match memchr ":"%char after with
        | None => (before, Some after)
        | Some _ => ([], Some (colon :: after))
        end
      | _ => ([], None)
      end
    | _ => (node, service)
    end in
  (match node with [] => host | _ => node end, service).

(** [getaddrinfo]: the list it returns, or None for an error. *)
Definition Lookup (getaddrinfo : str → option str → option (list raw_addr)) (result : list Address) (host : str)
  : bool * list Address :=
  let '(node, service) := split_host host in
  match getaddrinfo (c_str node) (c_str <$> service) with
  | None => (false, result)
  | Some rs =>
    let result' := result ++ omap (λ r, Address_Create (Some r)) rs in
    (negb (bool_decide (result' = [])), result')
  end.
Definition LookupAny getaddrinfo (host : str) : option Address :=
  let '(ok, rs) := Lookup getaddrinfo [] host in if (ok : bool) then head rs else None.
Definition is_ip (a : Address) : bool := match a with IPv4Address _ | IPv6Address _ => true | _ => false end.
Definition LookupAnyIPAddress getaddrinfo (host : str) : option Address :=
  let '(ok, rs) := Lookup getaddrinfo [] host in
  if (ok : bool) then head (filter (λ a, is_ip a = true) rs) else None.

(** IPAddress::Create: [getaddrinfo] gives an error number or the results. *)
Definition EAI_NONAME : Z := -2.
Definition IPAddress_Create (getaddrinfo : Z + list raw_addr) (port : Z) : result unit (option Address) :=
  match getaddrinfo with
  | inl e => if e =? EAI_NONAME then Ok None tt else Stop Indeterminate
  | inr [] => Stop NullDeref
  | inr (r :: _) =>
    match Address_Create (Some r) with
    | Some a => if is_ip a then Ok (Some (setPort port a)) tt else Stop NullDeref
    | None => Stop NullDeref
    end
  end.

(** ** Interfaces *)

(** An entry of getifaddrs: name, address (null for some interfaces) and
    netmask (the raw value, or the bytes). *)
Record ifaddr : Type := mkIf { ifa_name : str; ifa_addr : option raw_addr; ifa_netmask : Z + list Z }.

Definition raw_family (r : raw_addr) : Z :=
  match r with RawIn a => sin_family a | RawIn6 a => sin6_family a | RawOther a => sa_family a end.

Fixpoint sum_bytes (bs : list Z) : option Z :=
  match bs with
  | [] => Some 0
  | b :: bs' => match CountBytes 8 b, sum_bytes bs' with Some x, Some y => Some (x + y) | _, _ => None end
  end.

Definition ifa_entry (i : ifaddr) (r : raw_addr) : option (str * (Address * Z)) :=
  match r, ifa_netmask i with
  | RawIn a, inl m => (λ p, (ifa_name i, (IPv4Address a, p))) <$> CountBytes 32 m
  | RawIn6 a, inr bs => (λ p, (ifa_name i, (IPv6Address a, p))) <$> sum_bytes bs
  | _, _ => None
  end.

(** Address::GetInterfaceAddresses into the multimap; Stop NullDeref for an
    interface without an address. *)
Fixpoint GetInterfaceAddresses (ifs : list ifaddr) (family : Z) : result unit (list (str * (Address * Z))) :=
  match ifs with
  | [] => Ok [] tt
  | i :: ifs' =>
    match ifa_addr i with
    | None => Stop NullDeref
    | Some r =>
      match GetInterfaceAddresses ifs' family with
      | Ok rest _ =>
        if negb (family =? AF_UNSPEC) && negb (family =? raw_family r) then Ok rest tt
        else Ok (match ifa_entry i r with Some e => e :: rest | None => rest end) tt
      | e => e
      end
    end
  end.

(** The overload for one interface. *)
Definition GetInterfaceAddresses_iface (ifs : list ifaddr) (iface : str) (family : Z) : result unit (list (Address * Z)) :=
  if bool_decide (iface = []) || bool_decide (iface = L "*")
  then Ok ((if (family =? AF_INET) || (family =? AF_UNSPEC) then [(IPv4Address_new 0 0, 0)] else [])
        ++ (if (family =? AF_INET6) || (family =? AF_UNSPEC) then [(IPv6Address_new, 0)] else [])) tt
  else match GetInterfaceAddresses ifs family with
       | Ok results _ => Ok (snd <$> filter (λ e, e.1 = iface) results) tt
       | Exc e s => Exc e s
       | Stop u => Stop u
       | NoFuel => NoFuel
       end.
