(* ===== verification/AddressProps.v ===== *)
(** Properties of network addresses. *)

From stdpp Require Import base list strings sets.
From Stdlib Require Import Ascii ZArith Lia.
From S2P Require Import Prelude Endian StdOrdered CString Address.

(** ** Counting bits *)

(** The number of set bits among the low [w]. *)
Definition popcount (w : nat) (v : Z) : Z :=
  Z.of_nat (length (filter (λ i, Z.testbit v (Z.of_nat i) = true) (seq 0 w))).

Fixpoint pop (p : positive) : nat :=
  match p with
  | xH => 1
  | xO p' => pop p'
  | xI p' => S (pop p')
  end.
Definition popz (v : Z) : nat := match v with Zpos p => pop p | _ => 0 end.

Lemma popz_double v : 0 ≤ v → popz (2 * v) = popz v.
Proof. by destruct v. Qed.

(** value & (value - 1) clears one bit. *)
Lemma clear_lowest p : popz (Z.land (Zpos p) (Zpos p - 1)) = Nat.pred (pop p) ∧ 0 ≤ Z.land (Zpos p) (Zpos p - 1) < Zpos p.
Proof.
  induction p as [p IH|p IH|]; [| |done].
  - replace (Zpos p~1 - 1) with (Zpos p~0) by lia. assert (Z.land (Zpos p~1) (Zpos p~0) = Zpos p~0) as ->.
    { change (Zpos p~1) with (2 * Zpos p + 1). change (Zpos p~0) with (2 * Zpos p).
      apply Z.bits_inj'. intros i Hi. rewrite Z.land_spec. destruct (Z.eq_dec i 0) as [->|Hi0].
      - by rewrite Z.testbit_odd_0, Z.testbit_even_0.
      - replace i with (Z.succ (i - 1)) by lia.
        rewrite Z.testbit_odd_succ, Z.testbit_even_succ by lia. apply andb_diag. }
    split; [done|lia].
  - assert (Z.land (Zpos p~0) (Zpos p~0 - 1) = 2 * Z.land (Zpos p) (Zpos p - 1)) as ->.
    { change (Zpos p~0) with (2 * Zpos p). replace (2 * Zpos p - 1) with (2 * (Zpos p - 1) + 1) by lia.
      apply Z.bits_inj'. intros i Hi. rewrite Z.land_spec. destruct (Z.eq_dec i 0) as [->|Hi0].
      - by rewrite !Z.testbit_even_0.
      - replace i with (Z.succ (i - 1)) by lia.
        rewrite Z.testbit_odd_succ, !Z.testbit_even_succ, Z.land_spec by lia. done. }
    destruct IH as [IH1 IH2]. rewrite popz_double by lia. split; [done|lia].
Qed.

Lemma pop_pos p : (0 < pop p)%nat.
Proof. induction p; cbn; lia. Qed.

Lemma CountBytes_loop_pop fuel v res :
  0 ≤ v → (popz v < fuel)%nat → CountBytes_loop fuel v res = Some (res + Z.of_nat (popz v)).
Proof.
  revert v res. induction fuel as [|fuel IH]; intros v res Hv Hf; [lia|]. cbn [CountBytes_loop].
  destruct v as [|p|p]; [by rewrite Z.add_0_r| |lia]. destruct (clear_lowest p) as [H1 H2].
  cbn [Z.eqb]. rewrite IH; [|lia|rewrite H1; pose proof (pop_pos p); cbn in Hf; lia].
  rewrite H1. f_equal. cbn [popz]. pose proof (pop_pos p). lia.
Qed.

Lemma filter_seq_shift (P : nat → bool) k w :
  length (filter (λ i, P i = true) (seq (S k) w)) = length (filter (λ i, P (S i) = true) (seq k w)).
Proof.
  revert k. induction w as [|w IH]; intros k; [done|]. cbn [seq]. rewrite !filter_cons.
  destruct (decide (P (S k) = true)); cbn; by rewrite IH.
Qed.

Lemma popcount_pop w v : 0 ≤ v < 2 ^ Z.of_nat w → popcount w v = Z.of_nat (popz v).
Proof.
  unfold popcount. intros Hv. f_equal. revert v Hv. induction w as [|w IH]; intros v Hv.
  { assert (v = 0) as -> by (cbn in Hv; lia). done. }
  rewrite Nat2Z.inj_succ, Z.pow_succ_r in Hv by lia. pose proof (Z.div2_odd v) as Hd.
  assert (∀ i, Z.testbit v (Z.of_nat (S i)) = Z.testbit (Z.div2 v) (Z.of_nat i)) as Hbits.
  { intros i. rewrite Z.div2_spec, Z.shiftr_spec by lia. f_equal. lia. }
  assert (length (filter (λ i, Z.testbit v (Z.of_nat (S i)) = true) (seq 0 w)) = popz (Z.div2 v)) as Hrest.
  { rewrite <- IH by (split; [apply Z.div2_nonneg; lia|destruct (Z.odd v); cbn in Hd; lia]).
    f_equal. apply list_filter_iff. intros i. by rewrite Hbits. }
  assert (popz v = (if Z.testbit v 0 then 1 else 0) + popz (Z.div2 v))%nat as Hp.
  { destruct v as [|[p|p|]|p]; try done; lia. }
  cbn [seq]. rewrite Hp, <- Hrest, <- (filter_seq_shift (λ i, Z.testbit v (Z.of_nat i))).
  destruct (Z.testbit v 0) eqn:E0; [rewrite filter_cons_True by done; done|rewrite filter_cons_False; [done|]]. change (Z.of_nat 0) with 0. congruence.
Qed.

Lemma popz_bound w v : 0 ≤ v < 2 ^ Z.of_nat w → (popz v ≤ w)%nat.
Proof.
  intros Hv. pose proof (popcount_pop w v Hv) as E. unfold popcount in E. apply Nat2Z.inj in E.
  rewrite <- E. etransitivity; [apply length_filter|]. by rewrite length_seq.
Qed.

(** CountBytes ends for every value of [w] bits, after at most [w] rounds,
    with the number of set bits. *)
Theorem CountBytes_counts w v :
  0 ≤ v < 2 ^ Z.of_nat w → CountBytes w v = Some (popcount w v).
Proof.
  intros Hv. unfold CountBytes. rewrite (popcount_pop w v Hv).
  apply CountBytes_loop_pop; [lia|]. pose proof (popz_bound w v Hv). lia.
Qed.

Lemma CountBytes_counts_witness : CountBytes 32 65535 = Some 16.
Proof. rewrite (CountBytes_counts 32 65535) by (split; [discriminate|reflexivity]). vm_compute. reflexivity. Defined.

(** ** IPv4 prefixes *)

Lemma CreateMask_32 n : 2 ≤ n ≤ 32 → CreateMask 32 n = Some (2 ^ (32 - n) - 1).
Proof.
  intros Hn. unfold CreateMask. rewrite (wrapu_small 64) by (split; lia). rewrite (proj2 (Z.ltb_lt _ 31)) by lia.
  f_equal. apply wrapu_small. unfold in_u. pose proof (Z.pow_pos_nonneg 2 (32 - n)).
  pose proof (Z.pow_le_mono_r 2 (32 - n) 30). lia.
Qed.

(** The address in host order of what an operation returns. *)
Definition result_ip (r : result unit (option Address)) : option Z :=
  match r with Ok (Some (IPv4Address m)) _ => Some (v4_ip m) | _ => None end.
Definition result_raw (r : result unit (option Address)) : option Z :=
  match r with Ok (Some (IPv4Address m)) _ => Some (s_addr m) | _ => None end.

(** IPv4 prefixes of 2 to 32 bits, on the address as a number: the
    broadcast address has all host bits set, the subnet mask has exactly the
    prefix bits set and CountBytes finds the prefix length again, and
    networkAddress keeps the host bits (not the network bits). Longer prefixes
    give null, or no defined result for subnetMask. *)
Theorem v4_prefixes m n :
  2 ≤ n ≤ 32 →
  result_ip (v4_broadcastAddress m n) = Some (Z.lor (v4_ip m) (2 ^ (32 - n) - 1)) ∧
  result_ip (v4_networkAddress m n) = Some (Z.land (v4_ip m) (2 ^ (32 - n) - 1)) ∧
  result_ip (v4_subnetMask n) = Some (2 ^ 32 - 2 ^ (32 - n)) ∧
  (result_raw (v4_subnetMask n) ≫= CountBytes 32) = Some n ∧
  (∀ k, 32 < k → v4_broadcastAddress m k = Ok None tt ∧ v4_networkAddress m k = Ok None tt) ∧
  (∀ k, 32 < k < 2 ^ 32 → v4_subnetMask k = Stop BadArith).
Proof.
  intros Hn. pose proof (CreateMask_32 n Hn) as Em. pose (mask := 2 ^ (32 - n) - 1). fold mask in Em |- *.
  assert (0 ≤ mask < 2 ^ 32) as Hm.
  { unfold mask. pose proof (Z.pow_pos_nonneg 2 (32 - n)). pose proof (Z.pow_le_mono_r 2 (32 - n) 30). lia. }
  assert (bswap 4 (bswap 4 mask) = mask) as Hbb by (rewrite bswap_bswap; apply wrapu_small; exact Hm).
  unfold v4_broadcastAddress, v4_networkAddress, v4_subnetMask. rewrite (proj2 (Z.ltb_ge 32 n)), Em by lia.
  split; [unfold result_ip, v4_with, v4_ip; cbn [s_addr]; unfold byteswapOnLittleEndian, byteswap_u; by rewrite bswap_lor, Hbb|].
  split; [unfold result_ip, v4_with, v4_ip; cbn [s_addr]; unfold byteswapOnLittleEndian, byteswap_u; by rewrite bswap_land, Hbb|].
  assert (u32 (Z.lnot (bswap 4 mask)) = bswap 4 (Z.lnot mask)) as Hraw by (by rewrite bswap_lnot).
  split.
  { unfold result_ip, v4_ip. cbn [s_addr]. unfold byteswapOnLittleEndian, byteswap_u. rewrite Hraw, bswap_bswap. f_equal.
    unfold wrapu, Z.lnot. replace (Z.pred (- mask)) with (2 ^ 32 - 2 ^ (32 - n) + (-1) * 2 ^ 32) by (unfold mask; lia).
    change (8 * Z.of_nat 4) with 32. rewrite Z.mod_add by lia. apply Z.mod_small. unfold mask in Hm. lia. }
  split.
  { assert (Forall (λ k, (result_raw (v4_subnetMask k) ≫= CountBytes 32) = Some k) (Z.of_nat <$> seq 2 31)) as Hall
      by (cbn [fmap list_fmap seq]; repeat constructor).
    rewrite Forall_forall in Hall. unfold v4_subnetMask in Hall. specialize (Hall n). rewrite Em in Hall. apply Hall.
    apply list_elem_of_fmap. exists (Z.to_nat n). split; [lia|]. apply elem_of_seq. lia. }
  split.
  - intros k Hk. by rewrite (proj2 (Z.ltb_lt 32 k)).
  - intros k Hk. unfold CreateMask. replace (u64 (32 - k)) with (2 ^ 64 + (32 - k)).
    { by rewrite (proj2 (Z.ltb_ge _ 31)) by lia. }
    unfold wrapu. rewrite <- (Z.mod_add (32 - k) 1) by lia. symmetry. rewrite Z.mod_small; lia.
Qed.

Lemma v4_prefixes_witness :
  result_ip (v4_broadcastAddress (sockaddr_in_new 3232235777 80) 24) = Some 3232236031.
Proof.
  destruct (v4_prefixes (sockaddr_in_new 3232235777 80) 24) as [E _]; [lia|]. rewrite E. vm_compute. reflexivity.
Defined.

(** A prefix of no bits shifts an int by 32. *)
Lemma v4_prefix_zero m : v4_broadcastAddress m 0 = Stop BadArith.
Proof. done. Qed.

(** ** IPv6 prefixes *)

(** Bit [i] of an address, from the most significant on. *)
Definition bit_at (addr : list Z) (i : Z) : bool := Z.testbit (nth (Z.to_nat (i / 8)) addr 0) (7 - i mod 8).

Lemma CreateMask_8 r : 0 ≤ r < 8 → CreateMask 8 r = Some (Z.ones (8 - r)).
Proof.
  intros Hr. assert (r = 0 ∨ r = 1 ∨ r = 2 ∨ r = 3 ∨ r = 4 ∨ r = 5 ∨ r = 6 ∨ r = 7) as H by lia.
  repeat (destruct H as [->|H]; [by vm_compute|]). subst. by vm_compute.
Qed.

(** The list with byte [k] replaced and the rest set to [x]. *)
Lemma nth_combined (addr : list Z) (k j : nat) b :
  length addr = 16%nat → (k < 16)%nat → (j < 16)%nat →
  nth j (fill_from (Z.of_nat k + 1) (zsplice (Z.of_nat k) [b] addr)) 0
  = if (j <? k)%nat then nth j addr 0 else if (j =? k)%nat then b else 255.
Proof.
  intros Hl Hk Hj. unfold fill_from, zsplice. rewrite Nat2Z.id. replace (Z.to_nat (Z.of_nat k + 1)) with (S k) by lia.
  assert (take (S k) (take k addr ++ [b] ++ drop (k + length [b]) addr) = take k addr ++ [b]) as ->.
  { rewrite (assoc_L (++)). apply take_app_length'. rewrite length_app, length_take. cbn. lia. }
  rewrite !nth_lookup. destruct (Nat.ltb_spec j k) as [H|H].
  - rewrite lookup_app_l by (rewrite length_app, length_take; cbn; lia). rewrite lookup_app_l by (rewrite length_take; lia).
    by rewrite lookup_take_lt.
  - destruct (Nat.eqb_spec j k) as [->|Hne].
    + rewrite lookup_app_l by (rewrite length_app, length_take; cbn; lia). rewrite lookup_app_r by (rewrite length_take; lia).
      rewrite length_take. by replace (k - k `min` length addr)%nat with 0%nat by lia.
    + rewrite lookup_app_r by (rewrite length_app, length_take; cbn; lia). rewrite length_app, length_take. cbn [length].
      rewrite lookup_replicate_2 by lia. done.
Qed.

Lemma nth_mask (k j : nat) b :
  (k < 16)%nat → (j < 16)%nat →
  nth j (zsplice 0 (replicate k 255) (zsplice (Z.of_nat k) [b] (replicate 16 0))) 0
  = if (j <? k)%nat then 255 else if (j =? k)%nat then b else 0.
Proof.
  intros Hk Hj. unfold zsplice. rewrite Nat2Z.id, length_replicate. change (Z.to_nat 0) with 0%nat.
  rewrite take_0. cbn [app Nat.add].
  rewrite drop_app_length' by (rewrite length_take; cbn; lia).
  rewrite !nth_lookup. destruct (Nat.ltb_spec j k) as [H|H].
  - rewrite lookup_app_l by (rewrite length_replicate; lia). by rewrite lookup_replicate_2.
  - rewrite lookup_app_r by (rewrite length_replicate; lia). rewrite length_replicate.
    destruct (Nat.eqb_spec j k) as [->|Hne]; [by rewrite Nat.sub_diag|].
    rewrite lookup_cons_ne_0 by lia. rewrite lookup_drop, lookup_replicate_2 by (cbn; lia). done.
Qed.

(** Where bit [i] lies relative to the prefix. *)
Lemma bit_index p i :
  0 ≤ p < 128 → 0 ≤ i < 128 →
  let k := Z.to_nat (p / 8) in let j := Z.to_nat (i / 8) in
  (k < 16)%nat ∧ (j < 16)%nat ∧ ((j < k)%nat → i < p) ∧ ((k < j)%nat → p < i) ∧
  (j = k → (p <=? i) = (7 - i mod 8 <? 8 - p mod 8)) ∧ 0 ≤ 7 - i mod 8 < 8.
Proof.
  intros Hp Hi. pose proof (Z.mod_pos_bound i 8 ltac:(lia)). pose proof (Z.div_mod i 8 ltac:(lia)).
  pose proof (Z.mod_pos_bound p 8 ltac:(lia)). pose proof (Z.div_mod p 8 ltac:(lia)).
  assert (0 ≤ i / 8 < 16) by (split; [apply Z.div_pos|apply Z.div_lt_upper_bound]; lia).
  assert (0 ≤ p / 8 < 16) by (split; [apply Z.div_pos|apply Z.div_lt_upper_bound]; lia).
  cbn. split_and!; lia.
Qed.

Lemma ones_bit r j : 0 ≤ r → 0 ≤ j → Z.testbit (Z.ones r) j = (j <? r).
Proof. intros. apply Z.testbit_ones_nonneg; lia. Qed.

Lemma v6_combine_eq op m p :
  length (s6_addr m) = 16%nat → 0 ≤ p < 128 →
  v6_combine op m p = Ok (Some (v6_with (fill_from (Z.of_nat (Z.to_nat (p / 8)) + 1)
    (zsplice (Z.of_nat (Z.to_nat (p / 8))) [op (nth (Z.to_nat (p / 8)) (s6_addr m) 0) (Z.ones (8 - p mod 8))] (s6_addr m))) m)) tt.
Proof.
  intros Hl Hp. destruct (bit_index p p Hp Hp) as (Hk & _). assert (0 ≤ p / 8) by (apply Z.div_pos; lia).
  unfold v6_combine. rewrite CreateMask_8 by (apply Z.mod_pos_bound; lia).
  rewrite mem_read_ok by (unfold zlen; lia). rewrite !Z2Nat.id by lia.
  assert (zslice (p / 8) 1 (s6_addr m) = [nth (Z.to_nat (p / 8)) (s6_addr m) 0]) as ->; [|done].
  unfold zslice. rewrite nth_lookup. destruct (lookup_lt_is_Some_2 (s6_addr m) (Z.to_nat (p / 8))) as [x Hx]; [lia|].
  rewrite Hx. by rewrite (drop_S _ _ _ Hx).
Qed.

(** IPv6 prefixes below 128 bits, bit by bit from the most significant:
    the broadcast address keeps the prefix and has every later bit set, the
    subnet mask has exactly the prefix set, and networkAddress keeps the bytes
    before the prefix's last byte, keeps the host bits of that byte, and sets
    everything after it. For a prefix of 128 bits each of them leaves the
    array. *)
Theorem v6_prefixes m p :
  length (s6_addr m) = 16%nat → 0 ≤ p < 128 →
  (∃ a, v6_broadcastAddress m p = Ok (Some (v6_with a m)) tt ∧
     ∀ i, 0 ≤ i < 128 → bit_at a i = bit_at (s6_addr m) i || (p <=? i)) ∧
  (∃ a, v6_networkAddress m p = Ok (Some (v6_with a m)) tt ∧
     ∀ i, 0 ≤ i < 128 → bit_at a i = (if i / 8 <? p / 8 then bit_at (s6_addr m) i
                                      else if i / 8 =? p / 8 then bit_at (s6_addr m) i && (p <=? i) else true)) ∧
  (∃ a, v6_subnetMask p = Ok (Some (IPv6Address_bytes a 0)) tt ∧ ∀ i, 0 ≤ i < 128 → bit_at a i = (i <? p)) ∧
  v6_broadcastAddress m 128 = Stop OutOfBounds ∧ v6_networkAddress m 128 = Stop OutOfBounds ∧
  v6_subnetMask 128 = Stop OutOfBounds.
Proof.
  intros Hl Hp. pose proof (Z.mod_pos_bound p 8 ltac:(lia)) as Hr. assert (0 ≤ p / 8) by (apply Z.div_pos; lia).
  assert (∀ x, 0 ≤ x < 8 → Z.testbit 255 x = true) as H255.
  { intros x Hx. change 255 with (Z.ones 8). rewrite ones_bit by lia. apply Z.ltb_lt. lia. }
  assert (∀ op, v6_combine op m 128 = Stop OutOfBounds) as Hout.
  { intros op. unfold v6_combine. rewrite CreateMask_8 by (vm_compute; split; [discriminate|done]).
    unfold mem_read, zlen. rewrite Hl. done. }
  split; [|split; [|split]].
  - eexists. split; [by apply v6_combine_eq|]. intros i Hi. destruct (bit_index p i Hp Hi) as (Hk & Hj & H1 & H2 & H3 & H4).
    unfold bit_at. rewrite nth_combined by done.
    destruct (Nat.ltb_spec (Z.to_nat (i / 8)) (Z.to_nat (p / 8))) as [Hlt|Hge].
    + rewrite (proj2 (Z.leb_gt p i)) by auto. by rewrite orb_false_r.
    + destruct (Nat.eqb_spec (Z.to_nat (i / 8)) (Z.to_nat (p / 8))) as [E|E].
      * rewrite Z.lor_spec, ones_bit, (H3 E) by lia. by rewrite E.
      * rewrite H255, (proj2 (Z.leb_le p i)) by lia. by rewrite orb_true_r.
  - eexists. split; [by apply v6_combine_eq|]. intros i Hi. destruct (bit_index p i Hp Hi) as (Hk & Hj & H1 & H2 & H3 & H4).
    assert (0 ≤ i / 8) by (apply Z.div_pos; lia). unfold bit_at. rewrite nth_combined by done.
    destruct (Nat.ltb_spec (Z.to_nat (i / 8)) (Z.to_nat (p / 8))) as [Hlt|Hge].
    + by rewrite (proj2 (Z.ltb_lt (i / 8) (p / 8))) by lia.
    + rewrite (proj2 (Z.ltb_ge (i / 8) (p / 8))) by lia. destruct (Nat.eqb_spec (Z.to_nat (i / 8)) (Z.to_nat (p / 8))) as [E|E].
      * rewrite Z.land_spec, ones_bit, (H3 E) by lia. rewrite (proj2 (Z.eqb_eq (i / 8) (p / 8))) by lia. by rewrite E.
      * rewrite (proj2 (Z.eqb_neq (i / 8) (p / 8))) by lia. by apply H255.
  - destruct (bit_index p p Hp Hp) as (Hk & _). eexists. split.
    { unfold v6_subnetMask. rewrite CreateMask_8, mem_read_ok by (rewrite ?zlen_replicate; unfold zlen; cbn; lia). reflexivity. }
    intros i Hi. destruct (bit_index p i Hp Hi) as (_ & Hj & H1 & H2 & H3 & H4).
    unfold bit_at. rewrite <- (Z2Nat.id (p / 8)) at 2 by lia. rewrite nth_mask by done.
    destruct (Nat.ltb_spec (Z.to_nat (i / 8)) (Z.to_nat (p / 8))) as [Hlt|Hge].
    + rewrite H255, (proj2 (Z.ltb_lt i p)) by auto. done.
    + destruct (Nat.eqb_spec (Z.to_nat (i / 8)) (Z.to_nat (p / 8))) as [E|E].
      * unfold wrapu. rewrite Z.mod_pow2_bits_low, Z.lnot_spec, ones_bit, <- (H3 E) by lia.
        destruct (Z.leb_spec p i); [by rewrite (proj2 (Z.ltb_ge i p))|by rewrite (proj2 (Z.ltb_lt i p))].
      * rewrite Z.bits_0, (proj2 (Z.ltb_ge i p)) by lia. done.
  - split; [apply Hout|]. split; [apply Hout|reflexivity].
Qed.

Lemma v6_prefixes_witness :
  ∃ a, v6_subnetMask 20 = Ok (Some (IPv6Address_bytes a 0)) tt ∧ ∀ i, 0 ≤ i < 128 → bit_at a i = (i <? 20).
Proof. apply (v6_prefixes (mkIn6 AF_INET6 0 0 (replicate 16 7) 0) 20); [done|lia]. Defined.

(** ** Order *)

(** The object holds at least getAddrLen() bytes. *)
Definition addr_ok (a : Address) : Prop := Forall is_byte (getAddr a) ∧ 0 ≤ getAddrLen a ≤ zlen (getAddr a).

(** What the comparisons look at. *)
Definition addr_key (a : Address) : list N := Z.to_N <$> take (Z.to_nat (getAddrLen a)) (getAddr a).

Lemma memcmp_lex x y :
  Forall is_byte x → Forall is_byte y →
  let n := Nat.min (length x) (length y) in
  match memcmp (take n x) (take n y) with
  | Lt => true | Gt => false | Eq => (length x <? length y)%nat
  end = lex_lt (Z.to_N <$> x) (Z.to_N <$> y).
Proof.
  intros Hx. revert y. induction Hx as [|b x Hb Hx IH]; intros y Hy; [by destruct y|].
  destruct Hy as [|c y Hc Hy]; [done|]. cbn. unfold is_byte in *.
  destruct (Z.ltb_spec b c) as [H|H]; [by rewrite (proj2 (N.ltb_lt _ _)) by lia|].
  rewrite (proj2 (N.ltb_ge (Z.to_N b) (Z.to_N c))) by lia.
  destruct (Z.ltb_spec c b) as [H'|H'].
  - rewrite (proj2 (N.eqb_neq (Z.to_N b) (Z.to_N c))) by lia. done.
  - assert (b = c) as -> by lia. rewrite N.eqb_refl. by apply IH.
Qed.

Lemma memcmp_eq x y : length x = length y → memcmp x y = Eq ↔ x = y.
Proof.
  revert y. induction x as [|b x IH]; intros [|c y] Hl; try done. injection Hl as Hl. cbn.
  destruct (Z.ltb_spec b c); [split; [done|intros [= -> ->]; lia]|].
  destruct (Z.ltb_spec c b); [split; [done|intros [= -> ->]; lia]|].
  assert (b = c) as -> by lia. rewrite (IH y Hl). split; [by intros ->|by intros [= ->]].
Qed.

Lemma Address_lt_lex a b : addr_ok a → addr_ok b → Address_lt a b = Some (lex_lt (addr_key a) (addr_key b)).
Proof.
  intros [Ha1 Ha2] [Hb1 Hb2]. unfold Address_lt, memcmp_n. rewrite !mem_read_ok by lia. unfold addr_key.
  pose (x := take (Z.to_nat (getAddrLen a)) (getAddr a)). pose (y := take (Z.to_nat (getAddrLen b)) (getAddr b)). fold x y.
  assert (length x = Z.to_nat (getAddrLen a)) as Hx by (unfold x; rewrite length_take; unfold zlen in *; lia).
  assert (length y = Z.to_nat (getAddrLen b)) as Hy by (unfold y; rewrite length_take; unfold zlen in *; lia).
  rewrite <- (memcmp_lex x y) by (apply Forall_take; done). unfold zslice. change (Z.to_nat 0) with 0%nat. rewrite !drop_0.
  assert (take (Z.to_nat (Z.min (getAddrLen a) (getAddrLen b))) (getAddr a) = take (Nat.min (length x) (length y)) x) as ->.
  { unfold x at 2. rewrite take_take. f_equal. lia. }
  assert (take (Z.to_nat (Z.min (getAddrLen a) (getAddrLen b))) (getAddr b) = take (Nat.min (length x) (length y)) y) as ->.
  { unfold y at 2. rewrite take_take. f_equal. lia. }
  destruct (memcmp _ _); try done. f_equal. rewrite Hx, Hy.
  destruct (Z.ltb_spec (getAddrLen a) (getAddrLen b)), (Nat.ltb_spec (Z.to_nat (getAddrLen a)) (Z.to_nat (getAddrLen b))); try done; lia.
Qed.

Lemma to_N_inj x y : Forall is_byte x → Forall is_byte y → Z.to_N <$> x = Z.to_N <$> y → x = y.
Proof.
  intros Hx. revert y. induction Hx as [|b x Hb Hx IH]; intros y Hy E.
  - by destruct y.
  - destruct Hy as [|c y Hc Hy]; [done|]. injection E as E1 E2. f_equal; [unfold is_byte in *; lia|by apply IH].
Qed.

Lemma Address_eq_key a b : addr_ok a → addr_ok b → Address_eq a b = Some (bool_decide (addr_key a = addr_key b)).
Proof.
  intros [Ha1 Ha2] [Hb1 Hb2]. unfold Address_eq, addr_key.
  assert (∀ c, addr_ok c → length (take (Z.to_nat (getAddrLen c)) (getAddr c)) = Z.to_nat (getAddrLen c)) as Hl.
  { intros c [_ Hc]. rewrite length_take. unfold zlen in *. lia. }
  destruct (Z.eqb_spec (getAddrLen a) (getAddrLen b)) as [E|E].
  - unfold memcmp_n. rewrite !mem_read_ok by lia. unfold zslice. change (Z.to_nat 0) with 0%nat. rewrite !drop_0.
    pose proof (memcmp_eq (take (Z.to_nat (getAddrLen a)) (getAddr a)) (take (Z.to_nat (getAddrLen a)) (getAddr b))) as Hm.
    rewrite <- E. assert (Z.to_N <$> take (Z.to_nat (getAddrLen a)) (getAddr a) = Z.to_N <$> take (Z.to_nat (getAddrLen a)) (getAddr b)
      ↔ take (Z.to_nat (getAddrLen a)) (getAddr a) = take (Z.to_nat (getAddrLen a)) (getAddr b)) as Hi.
    { split; [|by intros ->]. apply to_N_inj; by apply Forall_take. }
    rewrite <- Hm in Hi by (rewrite !length_take; unfold zlen in *; lia).
    destruct (memcmp _ _); [by rewrite bool_decide_true by (by apply Hi)| |];
      (rewrite bool_decide_false; [done|]; by intros [=]%Hi).
  - rewrite bool_decide_false; [done|]. intros H. apply (f_equal length) in H.
    rewrite !length_fmap, !Hl in H by done. lia.
Qed.

(** The comparison operators make addresses usable as keys: they read only
    the bytes of the two objects, exactly one of a < b, a == b and b < a
    holds, < is transitive, and != is the negation of ==. *)
Theorem address_order a b c :
  addr_ok a → addr_ok b → addr_ok c →
  (∃ x y z, Address_lt a b = Some x ∧ Address_eq a b = Some y ∧ Address_lt b a = Some z ∧
     Address_ne a b = Some (negb y) ∧
     (x, y, z) ∈ [(true, false, false); (false, true, false); (false, false, true)]) ∧
  (Address_lt a b = Some true → Address_lt b c = Some true → Address_lt a c = Some true).
Proof.
  intros Ha Hb Hc. unfold Address_ne. rewrite !Address_lt_lex, !Address_eq_key by done. split.
  - eexists _, _, _. split; [done|]. split; [done|]. split; [done|]. split; [done|].
    destruct (lex_lt (addr_key a) (addr_key b)) eqn:E1, (lex_lt (addr_key b) (addr_key a)) eqn:E2.
    + pose proof (lex_lt_trans _ _ _ E1 E2) as H. by rewrite lex_lt_irrefl in H.
    + rewrite bool_decide_false by (intros H; by rewrite H, lex_lt_irrefl in E1). set_solver.
    + rewrite bool_decide_false by (intros H; by rewrite H, lex_lt_irrefl in E2). set_solver.
    + rewrite bool_decide_true by (by apply lex_lt_total). set_solver.
  - intros [= E1] [= E2]. f_equal. by eapply lex_lt_trans.
Qed.

Lemma address_order_witness :
  Address_lt (IPv4Address_new 1 80) IPv6Address_new = Some true.
Proof.
  assert (∀ x, addr_ok (IPv4Address_new x 80)) as H4.
  { intros x. split; [|cbn; split; discriminate]. cbn [getAddr IPv4Address_new]. unfold in_bytes.
    repeat apply Forall_app_2; try apply le_bytes_bytes. repeat constructor; discriminate. }
  destruct (address_order (IPv4Address_new 1 80) (IPv4Address_new 2 80) IPv6Address_new) as [_ H]; [apply H4|apply H4| |apply H; vm_compute; reflexivity].
  split; [|cbn; split; discriminate]. cbn [getAddr IPv6Address_new]. unfold in6_bytes.
  repeat apply Forall_app_2; try apply le_bytes_bytes. repeat constructor; discriminate.
Defined.

(** ** Unix paths *)

Lemma c_str_nul s r : c_str (s ++ NUL :: r) = c_str s.
Proof.
  induction s as [|c s IH]; [done|]. cbn [app c_str]. case_bool_decide; [done|]. by rewrite IH.
Qed.

(** What the text of the address of a path is. *)
Definition path_text (path : str) : str :=
  match path with
  | [] => ascii_of_nat 92 :: L "0"
  | c :: s => if bool_decide (c = NUL) then ascii_of_nat 92 :: L "0" ++ s else c_str path
  end.

(** The longest path: an abstract one needs no terminator. *)
Definition path_limit (path : str) : Z :=
  match path with c :: _ => if bool_decide (c = NUL) then 108 else 107 | [] => 107 end.

(** A Unix address is made of every path that fits sun_path, which is 107
    bytes, or 108 for an abstract name; its text is the path, up to the first
    NUL, or the abstract name after a backslash and a zero; its length covers
    the path inside the structure. A longer path throws logic_error. *)
Theorem unix_path path :
  match UnixAddress_path path with
  | inl e => path_limit path < zlen path ∧ e = logic_error "path too long"
  | inr a => zlen path ≤ path_limit path ∧ toString a = Some (path_text path) ∧
             zlen path + 2 ≤ getAddrLen a ≤ zlen (getAddr a) ∧ getFamily a = AF_UNIX
  end.
Proof.
  unfold UnixAddress_path. change UNIX_PATH_MAX with 108.
  assert (∀ n, zlen (getAddr (UnixAddress (mkUn AF_UNIX (zsplice 0 (take n (path ++ [NUL])) (replicate 108 NUL))) 0)) =
    2 + zlen (zsplice 0 (take n (path ++ [NUL])) (replicate 108 NUL))) as Hsz.
  { intros n. unfold getAddr, un_bytes, zlen. rewrite length_app, length_fmap. cbn. lia. }
  destruct path as [|c s].
  { cbn [path_limit]. vm_compute. split_and!; (discriminate || reflexivity). }
  cbn [path_limit path_text]. pose proof (zlen_nonneg s) as Hs.
  assert (zlen (replicate 108 NUL) = 108) as H108 by done.
  case_bool_decide as Hc.
  - subst c. destruct (Z.ltb_spec 108 (zlen (NUL :: s))) as [H|H]; [done|].
    assert (take (Z.to_nat (zlen (NUL :: s))) ((NUL :: s) ++ [NUL]) = NUL :: s) as E.
    { unfold zlen. rewrite Nat2Z.id. apply take_app_length. }
    specialize (Hsz (Z.to_nat (zlen (NUL :: s)))). rewrite E in Hsz |- *. rewrite zlen_zsplice in Hsz by (rewrite ?H108; lia).
    split; [done|]. cbn [toString getAddrLen getFamily sun_path sun_family]. rewrite zlen_cons in *.
    split; [|split; [unfold getAddr in *; unfold sun_path_offset; lia|done]].
    unfold sun_path_offset. rewrite (proj2 (Z.ltb_lt 2 (1 + zlen s + 2))) by lia. rewrite bool_decide_true by done. cbn [andb].
    rewrite mem_read_ok by (try rewrite zlen_zsplice; rewrite ?zlen_cons, ?H108; lia).
    do 3 f_equal. replace (1 + zlen s + 2 - 2 - 1) with (zlen s) by lia. unfold zslice, zsplice, zlen.
    rewrite Nat2Z.id. change (Z.to_nat 1) with 1%nat. change (Z.to_nat 0) with 0%nat. rewrite take_0. cbn [app drop].
    apply take_app_length.
  - destruct (Z.ltb_spec 108 (zlen (c :: s) + 1)) as [H|H]; [split; [lia|done]|].
    assert (take (Z.to_nat (zlen (c :: s) + 1)) ((c :: s) ++ [NUL]) = (c :: s) ++ [NUL]) as E.
    { apply take_ge. rewrite length_app. unfold zlen. cbn. lia. }
    specialize (Hsz (Z.to_nat (zlen (c :: s) + 1))). rewrite E in Hsz |- *.
    assert (zlen ((c :: s) ++ [NUL]) = zlen (c :: s) + 1) as Hl by (by rewrite zlen_app).
    rewrite zlen_zsplice in Hsz by (rewrite ?H108, ?Hl; lia).
    split; [lia|]. cbn [toString getAddrLen getFamily sun_path sun_family].
    split; [|split; [unfold getAddr in *; unfold sun_path_offset; lia|done]].
    rewrite bool_decide_false; [|done]. rewrite andb_false_r. f_equal.
    unfold zsplice. change (Z.to_nat 0) with 0%nat. rewrite take_0, <- (assoc_L (++)). apply c_str_nul.
Qed.

(** ** Hosts *)

Lemma memchr_none c s : c ∉ s → memchr c s = None.
Proof.
  induction s as [|x s IH]; intros Hn; [done|]. cbn. rewrite bool_decide_false by set_solver. by rewrite IH by set_solver.
Qed.

Lemma memchr_first c s r : c ∉ s → memchr c (s ++ c :: r) = Some (s, c :: r).
Proof.
  induction s as [|x s IH]; intros Hn; cbn; [by rewrite bool_decide_true|].
  rewrite bool_decide_false by set_solver. by rewrite IH by set_solver.
Qed.

(** How Lookup takes a host apart: a name with or without a port, and an
    IPv6 address in brackets with or without a port. An IPv6 address without
    brackets is kept whole, but its text from the first colon on is passed on
    as the service. *)
Theorem host_parts host port v6 :
  (":"%char ∉ host) → (":"%char ∉ port) → ("]"%char ∉ v6) → host ≠ [] → head host ≠ Some "["%char → v6 ≠ [] →
  split_host host = (host, None) ∧
  split_host (host ++ L ":" ++ port) = (host, Some port) ∧
  split_host (L "[" ++ v6 ++ L "]") = (v6, None) ∧
  split_host (L "[" ++ v6 ++ L "]:" ++ port) = (v6, Some port) ∧
  split_host (host ++ L ":" ++ port ++ L ":" ++ port) = (host ++ L ":" ++ port ++ L ":" ++ port, Some (L ":" ++ port ++ L ":" ++ port)).
Proof.
  intros Hh Hp Hv Hne Hhd Hvne. destruct host as [|c host]; [done|].
  assert (bool_decide (c = "["%char) = false) as Hc by (apply bool_decide_eq_false; intros ->; by apply Hhd).
  split; [|split; [|split; [|split]]].
  - unfold split_host. rewrite Hc, memchr_none by done. done.
  - unfold split_host. cbn [app]. rewrite Hc. change (c :: host ++ L ":" ++ port) with ((c :: host) ++ ":"%char :: port).
    rewrite memchr_first by done. by rewrite memchr_none by done.
  - unfold split_host. cbn [app L String.list_ascii_of_string]. rewrite bool_decide_true by done.
    change (v6 ++ ["]"%char]) with (v6 ++ "]"%char :: []). rewrite memchr_first by done. by destruct v6.
  - unfold split_host. cbn [app L String.list_ascii_of_string]. rewrite bool_decide_true by done.
    rewrite memchr_first by done. rewrite bool_decide_true by done. by destruct v6.
  - unfold split_host. cbn [app]. rewrite Hc.
    change (c :: host ++ L ":" ++ port ++ L ":" ++ port) with ((c :: host) ++ ":"%char :: (port ++ ":"%char :: port)).
    rewrite memchr_first by done. by rewrite memchr_first by done.
Qed.

Lemma host_parts_witness : split_host (L "localhost:80") = (L "localhost", Some (L "80")).
Proof.
  apply (host_parts (L "localhost") (L "80") (L "::1")); try done; vm_compute; set_solver.
Defined.
