(* ===== verification/Decimal.v ===== *)
(** Decimal notation: what strtol and atoi read of the numbers that operator<<
    and std::to_string print. *)

From stdpp Require Import base list strings.
From Stdlib Require Import Ascii Lia.
From S2P Require Import Prelude CString Ragel.

Definition is_digit (c : ascii) : bool := between 48 57 c.

Lemma digit_digit n : 0 ≤ n < 10 → is_digit (digit n) = true ∧ digit_val 10 (digit n) = Some n.
Proof.
  intros Hn. assert (n = 0 ∨ n = 1 ∨ n = 2 ∨ n = 3 ∨ n = 4 ∨ n = 5 ∨ n = 6 ∨ n = 7 ∨ n = 8 ∨ n = 9) as H by lia.
  repeat destruct H as [->|H]; try (by vm_compute). subst. by vm_compute.
Qed.

Lemma dec_loop_digits fuel n acc :
  0 ≤ n < 10 ^ Z.of_nat fuel → (0 < fuel)%nat →
  ∃ ds, dec_loop fuel n acc = ds ++ acc ∧ ds ≠ [] ∧ forallb is_digit ds = true ∧
    ∀ a s, digits_loop 10 a (ds ++ s) = digits_loop 10 (a * 10 ^ zlen ds + n) s.
Proof.
  revert n acc. induction fuel as [|fuel IH]; intros n acc Hn Hf; [lia|].
  cbn [dec_loop]. destruct (digit_digit (n mod 10)) as [Hd Hv]; [apply Z.mod_pos_bound; lia|].
  pose proof (Z.div_mod n 10 ltac:(lia)) as Hdiv. destruct (Z.eqb_spec (n / 10) 0) as [H0|H0].
  - exists [digit (n mod 10)]. split; [done|]. split; [done|]. split; [cbn [forallb]; by rewrite Hd|].
    intros a s. cbn [app digits_loop]. rewrite Hv. f_equal. rewrite zlen_cons, zlen_nil. lia.
  - assert (0 ≤ n / 10 < 10 ^ Z.of_nat fuel) as Hq.
    { split; [apply Z.div_pos; lia|]. apply Z.div_lt_upper_bound; [lia|]. rewrite <- Z.pow_succ_r by lia.
      replace (Z.succ (Z.of_nat fuel)) with (Z.of_nat (S fuel)) by lia. lia. }
    destruct (IH (n / 10) (digit (n mod 10) :: acc) Hq) as (ds & E & _ & Hds & Hl).
    { destruct fuel; [|lia]. cbn in Hq. lia. }
    exists (ds ++ [digit (n mod 10)]). split; [by rewrite E, <- (assoc_L (++))|]. split; [by destruct ds|].
    split; [rewrite forallb_app, Hds; cbn [forallb]; by rewrite Hd|].
    intros a s. rewrite <- (assoc_L (++)), Hl. cbn [app digits_loop]. rewrite Hv. f_equal.
    rewrite zlen_app, zlen_cons, zlen_nil, Z.pow_add_r by (unfold zlen; lia). lia.
Qed.

Lemma skip_0x_10 s : skip_0x 10 s = s.
Proof. by destruct s as [|? [|? [|? ?]]]. Qed.

Lemma dec_digits n :
  0 ≤ n < 10 ^ 20 → ∃ c w, dec n = c :: w ∧ forallb is_digit (c :: w) = true ∧
    ∀ t s, digit_val 10 t = None → strtol 10 (dec n ++ t :: s) = Z.min (2 ^ 63 - 1) n.
Proof.
  intros Hn. destruct (dec_loop_digits 20 n [] Hn ltac:(lia)) as (ds & E & Hne & Hds & Hl).
  unfold dec. rewrite E, app_nil_r. destruct ds as [|c w]; [done|]. exists c, w. split; [done|]. split; [done|].
  intros t s Ht. assert (skip_spaces ((c :: w) ++ t :: s) = (c :: w) ++ t :: s ∧ c ≠ "-"%char ∧ c ≠ "+"%char) as (E1 & E2 & E3).
  { cbn [forallb] in Hds. apply andb_true_iff in Hds as [Hc _]. cbn [app skip_spaces].
    assert (forallb (λ c, implb (is_digit c) (negb (isspace c) && negb (bool_decide (c = "-"%char)) && negb (bool_decide (c = "+"%char))))
      all_chars = true) as Hall by (by vm_compute).
    rewrite forallb_forall in Hall. specialize (Hall c (proj1 (list_elem_of_In _ _) (all_chars_complete c))). cbv beta in Hall.
    rewrite Hc in Hall. cbn [implb] in Hall. rewrite !andb_true_iff, !negb_true_iff, !bool_decide_eq_false in Hall.
    destruct Hall as [[-> ?] ?]. by split_and!. }
  unfold strtol. rewrite E1. cbn [app] in *. rewrite !bool_decide_false, skip_0x_10, Hl by done.
  cbn [digits_loop]. by rewrite Ht.
Qed.

(** atoi reads the number back when no digit follows. *)
Lemma atoi_dec n t s : 0 ≤ n < 2 ^ 31 → digit_val 10 t = None → atoi (dec n ++ t :: s) = n.
Proof.
  intros Hn Ht. destruct (dec_digits n) as (c & w & _ & _ & H); [lia|]. unfold atoi. rewrite H by done.
  rewrite Z.min_r, wraps_small by (unfold in_s; lia). done.
Qed.
