(* ===== verification/ClientTable.v ===== *)
(** The states and transitions of the response parser (generated code,
    skt/http/httpclient_parser.rl.cpp), with the labels of the source; the
    actions are those of skt/http/httpclient_parser.rl. *)

From stdpp Require Import base list.
From S2P Require Import Prelude Ragel.

Inductive client_action : Type :=
| c_mark
| c_start_field
| c_write_field
| c_start_value
| c_write_content_len
| c_write_connection_close
| c_write_value
| c_reason_phrase
| c_status_code
| c_http_version
| c_chunk_size
| c_trans_chunked
| c_done.

Definition client_tr (n : Z) : list client_action * Z :=
  match n with
  | 0 => ([c_mark], 2)
  | 2 => ([c_mark], 8)
  | 3 => ([c_chunk_size; c_done], 120)
  | 4 => ([c_chunk_size], 3)
  | 6 => ([c_chunk_size], 4)
  | 7 => ([c_done], 120)
  | 8 => ([c_start_field], 5)
  | 9 => ([c_write_field; c_start_value; c_write_value; c_done], 120)
  | 10 => ([c_write_field; c_start_value; c_write_value], 3)
  | 12 => ([c_write_field; c_start_value; c_write_value], 4)
  | 13 => ([c_write_field; c_start_value], 6)
  | 14 => ([c_start_value], 7)
  | 15 => ([c_write_value; c_done], 120)
  | 16 => ([c_write_value], 3)
  | 18 => ([c_write_value], 4)
  | 26 => ([c_http_version], 16)
  | 27 => ([c_mark], 17)
  | 28 => ([c_status_code], 18)
  | 30 => ([c_mark], 19)
  | 32 => ([c_reason_phrase], 20)
  | 33 => ([c_reason_phrase], 24)
  | 35 => ([c_start_field], 21)
  | 36 => ([c_start_field], 25)
  | 37 => ([c_start_field], 44)
  | 39 => ([c_write_field], 22)
  | 40 => ([c_start_value], 23)
  | 41 => ([c_start_value], 22)
  | 42 => ([c_start_value; c_write_value], 20)
  | 43 => ([c_start_value; c_write_value], 24)
  | 45 => ([c_write_value], 20)
  | 46 => ([c_write_value], 24)
  | 58 => ([c_write_field], 35)
  | 59 => ([c_start_value], 35)
  | 60 => ([c_start_value; c_write_value], 36)
  | 61 => ([c_start_value; c_write_value], 95)
  | 62 => ([c_start_value], 96)
  | 64 => ([c_done], 122)
  | 66 => ([c_start_field], 90)
  | 74 => ([c_write_connection_close; c_done], 120)
  | 75 => ([c_write_connection_close], 3)
  | 76 => ([c_write_connection_close; c_start_field], 21)
  | 77 => ([c_write_connection_close; c_start_field], 25)
  | 78 => ([c_write_connection_close; c_start_field], 44)
  | 95 => ([c_write_field], 61)
  | 96 => ([c_start_value], 61)
  | 97 => ([c_start_value; c_write_value], 62)
  | 98 => ([c_start_value; c_write_value], 80)
  | 99 => ([c_start_value], 81)
  | 101 => ([c_done], 121)
  | 103 => ([c_start_value; c_start_field], 73)
  | 104 => ([c_start_value], 64)
  | 111 => ([c_write_value; c_trans_chunked], 20)
  | 112 => ([c_write_value], 71)
  | 113 => ([c_trans_chunked], 20)
  | 136 => ([c_write_value], 43)
  | 137 => ([c_write_value], 88)
  | 148 => ([c_write_field], 112)
  | 149 => ([c_start_value], 112)
  | 150 => ([c_start_value; c_write_value], 113)
  | 151 => ([c_start_value; c_write_value], 118)
  | 152 => ([c_start_value], 119)
  | 154 => ([c_done], 123)
  | 156 => ([c_start_value; c_start_field], 117)
  | 157 => ([c_start_value], 115)
  | 158 => ([c_write_content_len; c_write_value], 20)
  | 159 => ([c_write_content_len; c_write_value], 24)
  | _ => ([], 0)
  end.

Definition client_states_1 : table :=
  [
    (1, [On 48 57 (Tr 0); On 65 70 (Tr 0); Ch 72 (Tr 2); On 97 102 (Tr 0)]);
    (2, [Ch 10 (Tr 3); Ch 13 (Tr 4); On 48 57 (St 2); Ch 59 (Tr 6); On 65 70 (St 2); On 97 102 (St 2)]);
    (120, []) ].

Definition client_states_2 : table :=
  [
    (3, [Ch 10 (Tr 7)]);
    (4, [Ch 33 (Tr 8); On 35 39 (Tr 8); On 42 43 (Tr 8); On 45 46 (Tr 8); On 48 57 (Tr 8); On 65 90 (Tr 8);
      On 94 122 (Tr 8); Ch 124 (Tr 8); Ch 126 (Tr 8)]);
    (5, [Ch 10 (Tr 9); Ch 13 (Tr 10); Ch 33 (St 5); On 35 39 (St 5); On 42 43 (St 5); On 45 46 (St 5);
      On 48 57 (St 5); Ch 59 (Tr 12); Ch 61 (Tr 13); On 65 90 (St 5); On 94 122 (St 5); Ch 124 (St 5);
      Ch 126 (St 5)]) ].

Definition client_states_3 : table :=
  [
    (6, [Ch 33 (Tr 14); On 35 39 (Tr 14); On 42 43 (Tr 14); On 45 46 (Tr 14); On 48 57 (Tr 14);
      On 65 90 (Tr 14); On 94 122 (Tr 14); Ch 124 (Tr 14); Ch 126 (Tr 14)]);
    (7, [Ch 10 (Tr 15); Ch 13 (Tr 16); Ch 33 (St 7); On 35 39 (St 7); On 42 43 (St 7); On 45 46 (St 7);
      On 48 57 (St 7); Ch 59 (Tr 18); On 65 90 (St 7); On 94 122 (St 7); Ch 124 (St 7); Ch 126 (St 7)]);
    (8, [Ch 84 (St 9)]);
    (9, [Ch 84 (St 10)]);
    (10, [Ch 80 (St 11)]);
    (11, [Ch 47 (St 12)]);
    (12, [On 48 57 (St 13)]);
    (13, [Ch 46 (St 14); On 48 57 (St 13)]);
    (14, [On 48 57 (St 15)]);
    (15, [Ch 32 (Tr 26); On 48 57 (St 15)]) ].

Definition client_states_4 : table :=
  [
    (16, [On 48 57 (Tr 27)]);
    (17, [Ch 32 (Tr 28); On 48 57 (St 17)]);
    (18, [On (-128) 9 (Tr 30); On 11 127 (Tr 30)]);
    (19, [On (-128) 9 (St 19); Ch 10 (Tr 32); On 11 12 (St 19); Ch 13 (Tr 33); On 14 127 (St 19)]);
    (20, [Ch 10 (Tr 7); Ch 13 (St 3); Ch 33 (Tr 35); On 35 39 (Tr 35); On 42 43 (Tr 35); On 45 46 (Tr 35);
      On 48 57 (Tr 35); On 65 66 (Tr 35); Ch 67 (Tr 36); On 68 83 (Tr 35); Ch 84 (Tr 37); On 85 90 (Tr 35);
      On 94 98 (Tr 35); Ch 99 (Tr 36); On 100 115 (Tr 35); Ch 116 (Tr 37); On 117 122 (Tr 35);
      Ch 124 (Tr 35); Ch 126 (Tr 35)]) ].

Definition client_states_5 : table :=
  [
    (21, [Ch 33 (St 21); On 35 39 (St 21); On 42 43 (St 21); On 45 46 (St 21); On 48 57 (St 21);
      Ch 58 (Tr 39); On 65 90 (St 21); On 94 122 (St 21); Ch 124 (St 21); Ch 126 (St 21)]);
    (22, [On (-128) 8 (Tr 40); Ch 9 (Tr 41); Ch 10 (Tr 42); On 11 12 (Tr 41); Ch 13 (Tr 43);
      On 14 31 (Tr 40); Ch 32 (Tr 41); On 33 127 (Tr 40)]);
    (23, [On (-128) 9 (St 23); Ch 10 (Tr 45); On 11 12 (St 23); Ch 13 (Tr 46); On 14 127 (St 23)]);
    (24, [Ch 10 (St 20)]) ].

Definition client_states_6 : table :=
  [
    (25, [Ch 33 (St 21); On 35 39 (St 21); On 42 43 (St 21); On 45 46 (St 21); On 48 57 (St 21);
      Ch 58 (Tr 39); On 65 78 (St 21); Ch 79 (St 26); On 80 90 (St 21); On 94 110 (St 21); Ch 111 (St 26);
      On 112 122 (St 21); Ch 124 (St 21); Ch 126 (St 21)]);
    (26, [Ch 33 (St 21); On 35 39 (St 21); On 42 43 (St 21); On 45 46 (St 21); On 48 57 (St 21);
      Ch 58 (Tr 39); On 65 77 (St 21); Ch 78 (St 27); On 79 90 (St 21); On 94 109 (St 21); Ch 110 (St 27);
      On 111 122 (St 21); Ch 124 (St 21); Ch 126 (St 21)]);
    (27, [Ch 33 (St 21); On 35 39 (St 21); On 42 43 (St 21); On 45 46 (St 21); On 48 57 (St 21);
      Ch 58 (Tr 39); On 65 77 (St 21); Ch 78 (St 28); On 79 83 (St 21); Ch 84 (St 101); On 85 90 (St 21);
      On 94 109 (St 21); Ch 110 (St 28); On 111 115 (St 21); Ch 116 (St 101); On 117 122 (St 21);
      Ch 124 (St 21); Ch 126 (St 21)]);
    (28, [Ch 33 (St 21); On 35 39 (St 21); On 42 43 (St 21); On 45 46 (St 21); On 48 57 (St 21);
      Ch 58 (Tr 39); On 65 68 (St 21); Ch 69 (St 29); On 70 90 (St 21); On 94 100 (St 21); Ch 101 (St 29);
      On 102 122 (St 21); Ch 124 (St 21); Ch 126 (St 21)]) ].

Definition client_states_7 : table :=
  [
    (29, [Ch 33 (St 21); On 35 39 (St 21); On 42 43 (St 21); On 45 46 (St 21); On 48 57 (St 21);
      Ch 58 (Tr 39); On 65 66 (St 21); Ch 67 (St 30); On 68 90 (St 21); On 94 98 (St 21); Ch 99 (St 30);
      On 100 122 (St 21); Ch 124 (St 21); Ch 126 (St 21)]);
    (30, [Ch 33 (St 21); On 35 39 (St 21); On 42 43 (St 21); On 45 46 (St 21); On 48 57 (St 21);
      Ch 58 (Tr 39); On 65 83 (St 21); Ch 84 (St 31); On 85 90 (St 21); On 94 115 (St 21); Ch 116 (St 31);
      On 117 122 (St 21); Ch 124 (St 21); Ch 126 (St 21)]);
    (31, [Ch 33 (St 21); On 35 39 (St 21); On 42 43 (St 21); On 45 46 (St 21); On 48 57 (St 21);
      Ch 58 (Tr 39); On 65 72 (St 21); Ch 73 (St 32); On 74 90 (St 21); On 94 104 (St 21); Ch 105 (St 32);
      On 106 122 (St 21); Ch 124 (St 21); Ch 126 (St 21)]);
    (32, [Ch 33 (St 21); On 35 39 (St 21); On 42 43 (St 21); On 45 46 (St 21); On 48 57 (St 21);
      Ch 58 (Tr 39); On 65 78 (St 21); Ch 79 (St 33); On 80 90 (St 21); On 94 110 (St 21); Ch 111 (St 33);
      On 112 122 (St 21); Ch 124 (St 21); Ch 126 (St 21)]);
    (33, [Ch 33 (St 21); On 35 39 (St 21); On 42 43 (St 21); On 45 46 (St 21); On 48 57 (St 21);
      Ch 58 (Tr 39); On 65 77 (St 21); Ch 78 (St 34); On 79 90 (St 21); On 94 109 (St 21); Ch 110 (St 34);
      On 111 122 (St 21); Ch 124 (St 21); Ch 126 (St 21)]) ].

Definition client_states_8 : table :=
  [
    (34, [Ch 33 (St 21); On 35 39 (St 21); On 42 43 (St 21); On 45 46 (St 21); On 48 57 (St 21);
      Ch 58 (Tr 58); On 65 90 (St 21); On 94 122 (St 21); Ch 124 (St 21); Ch 126 (St 21)]);
    (35, [On (-128) 8 (Tr 40); Ch 9 (Tr 59); Ch 10 (Tr 60); On 11 12 (Tr 59); Ch 13 (Tr 61);
      On 14 31 (Tr 40); Ch 32 (Tr 59); On 33 66 (Tr 40); Ch 67 (Tr 62); On 68 98 (Tr 40); Ch 99 (Tr 62);
      On 100 127 (Tr 40)]);
    (36, [Ch 9 (St 37); Ch 10 (Tr 64); On 11 12 (St 37); Ch 13 (St 89); Ch 32 (St 37); Ch 33 (Tr 35);
      On 35 39 (Tr 35); On 42 43 (Tr 35); On 45 46 (Tr 35); On 48 57 (Tr 35); On 65 66 (Tr 35);
      Ch 67 (Tr 66); On 68 83 (Tr 35); Ch 84 (Tr 37); On 85 90 (Tr 35); On 94 98 (Tr 35); Ch 99 (Tr 66);
      On 100 115 (Tr 35); Ch 116 (Tr 37); On 117 122 (Tr 35); Ch 124 (Tr 35); Ch 126 (Tr 35)]);
    (37, [On 9 13 (St 37); Ch 32 (St 37); Ch 67 (St 38); Ch 99 (St 38)]);
    (38, [Ch 76 (St 39); Ch 108 (St 39)]);
    (39, [Ch 79 (St 40); Ch 111 (St 40)]);
    (40, [Ch 83 (St 41); Ch 115 (St 41)]);
    (41, [Ch 69 (St 42); Ch 101 (St 42)]) ].

Definition client_states_9 : table :=
  [
    (42, [Ch 10 (St 43); Ch 13 (St 88)]);
    (43, [Ch 10 (Tr 74); Ch 13 (Tr 75); Ch 33 (Tr 76); On 35 39 (Tr 76); On 42 43 (Tr 76);
      On 45 46 (Tr 76); On 48 57 (Tr 76); On 65 66 (Tr 76); Ch 67 (Tr 77); On 68 83 (Tr 76); Ch 84 (Tr 78);
      On 85 90 (Tr 76); On 94 98 (Tr 76); Ch 99 (Tr 77); On 100 115 (Tr 76); Ch 116 (Tr 78);
      On 117 122 (Tr 76); Ch 124 (Tr 76); Ch 126 (Tr 76)]);
    (44, [Ch 33 (St 21); On 35 39 (St 21); On 42 43 (St 21); On 45 46 (St 21); On 48 57 (St 21);
      Ch 58 (Tr 39); On 65 81 (St 21); Ch 82 (St 45); On 83 90 (St 21); On 94 113 (St 21); Ch 114 (St 45);
      On 115 122 (St 21); Ch 124 (St 21); Ch 126 (St 21)]);
    (45, [Ch 33 (St 21); On 35 39 (St 21); On 42 43 (St 21); On 45 46 (St 21); On 48 57 (St 21);
      Ch 58 (Tr 39); Ch 65 (St 46); On 66 90 (St 21); On 94 96 (St 21); Ch 97 (St 46); On 98 122 (St 21);
      Ch 124 (St 21); Ch 126 (St 21)]) ].

Definition client_states_10 : table :=
  [
    (46, [Ch 33 (St 21); On 35 39 (St 21); On 42 43 (St 21); On 45 46 (St 21); On 48 57 (St 21);
      Ch 58 (Tr 39); On 65 77 (St 21); Ch 78 (St 47); On 79 90 (St 21); On 94 109 (St 21); Ch 110 (St 47);
      On 111 122 (St 21); Ch 124 (St 21); Ch 126 (St 21)]);
    (47, [Ch 33 (St 21); On 35 39 (St 21); On 42 43 (St 21); On 45 46 (St 21); On 48 57 (St 21);
      Ch 58 (Tr 39); On 65 82 (St 21); Ch 83 (St 48); On 84 90 (St 21); On 94 114 (St 21); Ch 115 (St 48);
      On 116 122 (St 21); Ch 124 (St 21); Ch 126 (St 21)]);
    (48, [Ch 33 (St 21); On 35 39 (St 21); On 42 43 (St 21); On 45 46 (St 21); On 48 57 (St 21);
      Ch 58 (Tr 39); On 65 69 (St 21); Ch 70 (St 49); On 71 90 (St 21); On 94 101 (St 21); Ch 102 (St 49);
      On 103 122 (St 21); Ch 124 (St 21); Ch 126 (St 21)]);
    (49, [Ch 33 (St 21); On 35 39 (St 21); On 42 43 (St 21); On 45 46 (St 21); On 48 57 (St 21);
      Ch 58 (Tr 39); On 65 68 (St 21); Ch 69 (St 50); On 70 90 (St 21); On 94 100 (St 21); Ch 101 (St 50);
      On 102 122 (St 21); Ch 124 (St 21); Ch 126 (St 21)]);
    (50, [Ch 33 (St 21); On 35 39 (St 21); On 42 43 (St 21); On 45 46 (St 21); On 48 57 (St 21);
      Ch 58 (Tr 39); On 65 81 (St 21); Ch 82 (St 51); On 83 90 (St 21); On 94 113 (St 21); Ch 114 (St 51);
      On 115 122 (St 21); Ch 124 (St 21); Ch 126 (St 21)]) ].

Definition client_states_11 : table :=
  [
    (51, [Ch 33 (St 21); On 35 39 (St 21); On 42 43 (St 21); Ch 45 (St 52); Ch 46 (St 21);
      On 48 57 (St 21); Ch 58 (Tr 39); On 65 90 (St 21); On 94 122 (St 21); Ch 124 (St 21); Ch 126 (St 21)]);
    (52, [Ch 33 (St 21); On 35 39 (St 21); On 42 43 (St 21); On 45 46 (St 21); On 48 57 (St 21);
      Ch 58 (Tr 39); On 65 68 (St 21); Ch 69 (St 53); On 70 90 (St 21); On 94 100 (St 21); Ch 101 (St 53);
      On 102 122 (St 21); Ch 124 (St 21); Ch 126 (St 21)]);
    (53, [Ch 33 (St 21); On 35 39 (St 21); On 42 43 (St 21); On 45 46 (St 21); On 48 57 (St 21);
      Ch 58 (Tr 39); On 65 77 (St 21); Ch 78 (St 54); On 79 90 (St 21); On 94 109 (St 21); Ch 110 (St 54);
      On 111 122 (St 21); Ch 124 (St 21); Ch 126 (St 21)]);
    (54, [Ch 33 (St 21); On 35 39 (St 21); On 42 43 (St 21); On 45 46 (St 21); On 48 57 (St 21);
      Ch 58 (Tr 39); On 65 66 (St 21); Ch 67 (St 55); On 68 90 (St 21); On 94 98 (St 21); Ch 99 (St 55);
      On 100 122 (St 21); Ch 124 (St 21); Ch 126 (St 21)]);
    (55, [Ch 33 (St 21); On 35 39 (St 21); On 42 43 (St 21); On 45 46 (St 21); On 48 57 (St 21);
      Ch 58 (Tr 39); On 65 78 (St 21); Ch 79 (St 56); On 80 90 (St 21); On 94 110 (St 21); Ch 111 (St 56);
      On 112 122 (St 21); Ch 124 (St 21); Ch 126 (St 21)]) ].

Definition client_states_12 : table :=
  [
    (56, [Ch 33 (St 21); On 35 39 (St 21); On 42 43 (St 21); On 45 46 (St 21); On 48 57 (St 21);
      Ch 58 (Tr 39); On 65 67 (St 21); Ch 68 (St 57); On 69 90 (St 21); On 94 99 (St 21); Ch 100 (St 57);
      On 101 122 (St 21); Ch 124 (St 21); Ch 126 (St 21)]);
    (57, [Ch 33 (St 21); On 35 39 (St 21); On 42 43 (St 21); On 45 46 (St 21); On 48 57 (St 21);
      Ch 58 (Tr 39); On 65 72 (St 21); Ch 73 (St 58); On 74 90 (St 21); On 94 104 (St 21); Ch 105 (St 58);
      On 106 122 (St 21); Ch 124 (St 21); Ch 126 (St 21)]);
    (58, [Ch 33 (St 21); On 35 39 (St 21); On 42 43 (St 21); On 45 46 (St 21); On 48 57 (St 21);
      Ch 58 (Tr 39); On 65 77 (St 21); Ch 78 (St 59); On 79 90 (St 21); On 94 109 (St 21); Ch 110 (St 59);
      On 111 122 (St 21); Ch 124 (St 21); Ch 126 (St 21)]);
    (59, [Ch 33 (St 21); On 35 39 (St 21); On 42 43 (St 21); On 45 46 (St 21); On 48 57 (St 21);
      Ch 58 (Tr 39); On 65 70 (St 21); Ch 71 (St 60); On 72 90 (St 21); On 94 102 (St 21); Ch 103 (St 60);
      On 104 122 (St 21); Ch 124 (St 21); Ch 126 (St 21)]);
    (60, [Ch 33 (St 21); On 35 39 (St 21); On 42 43 (St 21); On 45 46 (St 21); On 48 57 (St 21);
      Ch 58 (Tr 95); On 65 90 (St 21); On 94 122 (St 21); Ch 124 (St 21); Ch 126 (St 21)]) ].

Definition client_states_13 : table :=
  [
    (61, [On (-128) 8 (Tr 40); Ch 9 (Tr 96); Ch 10 (Tr 97); On 11 12 (Tr 96); Ch 13 (Tr 98);
      On 14 31 (Tr 40); Ch 32 (Tr 96); On 33 66 (Tr 40); Ch 67 (Tr 99); On 68 98 (Tr 40); Ch 99 (Tr 99);
      On 100 127 (Tr 40)]);
    (62, [Ch 9 (St 63); Ch 10 (Tr 101); On 11 12 (St 63); Ch 13 (St 72); Ch 32 (St 63); Ch 33 (Tr 35);
      On 35 39 (Tr 35); On 42 43 (Tr 35); On 45 46 (Tr 35); On 48 57 (Tr 35); On 65 66 (Tr 35);
      Ch 67 (Tr 103); On 68 83 (Tr 35); Ch 84 (Tr 37); On 85 90 (Tr 35); On 94 98 (Tr 35); Ch 99 (Tr 103);
      On 100 115 (Tr 35); Ch 116 (Tr 37); On 117 122 (Tr 35); Ch 124 (Tr 35); Ch 126 (Tr 35)]);
    (63, [On 9 13 (St 63); Ch 32 (St 63); Ch 67 (Tr 104); Ch 99 (Tr 104)]);
    (64, [Ch 72 (St 65); Ch 104 (St 65)]);
    (65, [Ch 85 (St 66); Ch 117 (St 66)]);
    (66, [Ch 78 (St 67); Ch 110 (St 67)]);
    (67, [Ch 75 (St 68); Ch 107 (St 68)]);
    (68, [Ch 69 (St 69); Ch 101 (St 69)]);
    (69, [Ch 68 (St 70); Ch 100 (St 70)]) ].

Definition client_states_14 : table :=
  [
    (70, [Ch 10 (Tr 111); Ch 13 (Tr 112)]);
    (71, [Ch 10 (Tr 113)]);
    (121, [On 9 13 (St 63); Ch 32 (St 63); Ch 67 (Tr 104); Ch 99 (Tr 104)]);
    (72, [Ch 9 (St 63); Ch 10 (Tr 101); On 11 13 (St 63); Ch 32 (St 63); Ch 67 (Tr 104); Ch 99 (Tr 104)]);
    (73, [Ch 33 (St 21); On 35 39 (St 21); On 42 43 (St 21); On 45 46 (St 21); On 48 57 (St 21);
      Ch 58 (Tr 39); On 65 71 (St 21); Ch 72 (St 74); On 73 78 (St 21); Ch 79 (St 26); On 80 90 (St 21);
      On 94 103 (St 21); Ch 104 (St 74); On 105 110 (St 21); Ch 111 (St 26); On 112 122 (St 21);
      Ch 124 (St 21); Ch 126 (St 21)]);
    (74, [Ch 33 (St 21); On 35 39 (St 21); On 42 43 (St 21); On 45 46 (St 21); On 48 57 (St 21);
      Ch 58 (Tr 39); On 65 84 (St 21); Ch 85 (St 75); On 86 90 (St 21); On 94 116 (St 21); Ch 117 (St 75);
      On 118 122 (St 21); Ch 124 (St 21); Ch 126 (St 21)]) ].

Definition client_states_15 : table :=
  [
    (75, [Ch 33 (St 21); On 35 39 (St 21); On 42 43 (St 21); On 45 46 (St 21); On 48 57 (St 21);
      Ch 58 (Tr 39); On 65 77 (St 21); Ch 78 (St 76); On 79 90 (St 21); On 94 109 (St 21); Ch 110 (St 76);
      On 111 122 (St 21); Ch 124 (St 21); Ch 126 (St 21)]);
    (76, [Ch 33 (St 21); On 35 39 (St 21); On 42 43 (St 21); On 45 46 (St 21); On 48 57 (St 21);
      Ch 58 (Tr 39); On 65 74 (St 21); Ch 75 (St 77); On 76 90 (St 21); On 94 106 (St 21); Ch 107 (St 77);
      On 108 122 (St 21); Ch 124 (St 21); Ch 126 (St 21)]);
    (77, [Ch 33 (St 21); On 35 39 (St 21); On 42 43 (St 21); On 45 46 (St 21); On 48 57 (St 21);
      Ch 58 (Tr 39); On 65 68 (St 21); Ch 69 (St 78); On 70 90 (St 21); On 94 100 (St 21); Ch 101 (St 78);
      On 102 122 (St 21); Ch 124 (St 21); Ch 126 (St 21)]);
    (78, [Ch 33 (St 21); On 35 39 (St 21); On 42 43 (St 21); On 45 46 (St 21); On 48 57 (St 21);
      Ch 58 (Tr 39); On 65 67 (St 21); Ch 68 (St 79); On 69 90 (St 21); On 94 99 (St 21); Ch 100 (St 79);
      On 101 122 (St 21); Ch 124 (St 21); Ch 126 (St 21)]);
    (79, [Ch 10 (Tr 111); Ch 13 (Tr 112); Ch 33 (St 21); On 35 39 (St 21); On 42 43 (St 21);
      On 45 46 (St 21); On 48 57 (St 21); Ch 58 (Tr 39); On 65 90 (St 21); On 94 122 (St 21);
      Ch 124 (St 21); Ch 126 (St 21)]) ].

Definition client_states_16 : table :=
  [
    (80, [Ch 9 (St 63); Ch 10 (St 62); On 11 13 (St 63); Ch 32 (St 63); Ch 67 (Tr 104); Ch 99 (Tr 104)]);
    (81, [On (-128) 9 (St 23); Ch 10 (Tr 45); On 11 12 (St 23); Ch 13 (Tr 46); On 14 71 (St 23);
      Ch 72 (St 82); On 73 103 (St 23); Ch 104 (St 82); On 105 127 (St 23)]);
    (82, [On (-128) 9 (St 23); Ch 10 (Tr 45); On 11 12 (St 23); Ch 13 (Tr 46); On 14 84 (St 23);
      Ch 85 (St 83); On 86 116 (St 23); Ch 117 (St 83); On 118 127 (St 23)]);
    (83, [On (-128) 9 (St 23); Ch 10 (Tr 45); On 11 12 (St 23); Ch 13 (Tr 46); On 14 77 (St 23);
      Ch 78 (St 84); On 79 109 (St 23); Ch 110 (St 84); On 111 127 (St 23)]);
    (84, [On (-128) 9 (St 23); Ch 10 (Tr 45); On 11 12 (St 23); Ch 13 (Tr 46); On 14 74 (St 23);
      Ch 75 (St 85); On 76 106 (St 23); Ch 107 (St 85); On 108 127 (St 23)]);
    (85, [On (-128) 9 (St 23); Ch 10 (Tr 45); On 11 12 (St 23); Ch 13 (Tr 46); On 14 68 (St 23);
      Ch 69 (St 86); On 70 100 (St 23); Ch 101 (St 86); On 102 127 (St 23)]);
    (86, [On (-128) 9 (St 23); Ch 10 (Tr 45); On 11 12 (St 23); Ch 13 (Tr 46); On 14 67 (St 23);
      Ch 68 (St 87); On 69 99 (St 23); Ch 100 (St 87); On 101 127 (St 23)]);
    (87, [On (-128) 9 (St 23); Ch 10 (Tr 111); On 11 12 (St 23); Ch 13 (Tr 112); On 14 127 (St 23)]);
    (88, [Ch 10 (St 43)]);
    (122, [On 9 13 (St 37); Ch 32 (St 37); Ch 67 (St 38); Ch 99 (St 38)]) ].

Definition client_states_17 : table :=
  [
    (89, [Ch 9 (St 37); Ch 10 (Tr 64); On 11 13 (St 37); Ch 32 (St 37); Ch 67 (St 38); Ch 99 (St 38)]);
    (90, [Ch 33 (St 21); On 35 39 (St 21); On 42 43 (St 21); On 45 46 (St 21); On 48 57 (St 21);
      Ch 58 (Tr 39); On 65 75 (St 21); Ch 76 (St 91); On 77 78 (St 21); Ch 79 (St 26); On 80 90 (St 21);
      On 94 107 (St 21); Ch 108 (St 91); On 109 110 (St 21); Ch 111 (St 26); On 112 122 (St 21);
      Ch 124 (St 21); Ch 126 (St 21)]);
    (91, [Ch 33 (St 21); On 35 39 (St 21); On 42 43 (St 21); On 45 46 (St 21); On 48 57 (St 21);
      Ch 58 (Tr 39); On 65 78 (St 21); Ch 79 (St 92); On 80 90 (St 21); On 94 110 (St 21); Ch 111 (St 92);
      On 112 122 (St 21); Ch 124 (St 21); Ch 126 (St 21)]);
    (92, [Ch 33 (St 21); On 35 39 (St 21); On 42 43 (St 21); On 45 46 (St 21); On 48 57 (St 21);
      Ch 58 (Tr 39); On 65 82 (St 21); Ch 83 (St 93); On 84 90 (St 21); On 94 114 (St 21); Ch 115 (St 93);
      On 116 122 (St 21); Ch 124 (St 21); Ch 126 (St 21)]);
    (93, [Ch 33 (St 21); On 35 39 (St 21); On 42 43 (St 21); On 45 46 (St 21); On 48 57 (St 21);
      Ch 58 (Tr 39); On 65 68 (St 21); Ch 69 (St 94); On 70 90 (St 21); On 94 100 (St 21); Ch 101 (St 94);
      On 102 122 (St 21); Ch 124 (St 21); Ch 126 (St 21)]) ].

Definition client_states_18 : table :=
  [
    (94, [Ch 10 (St 43); Ch 13 (St 88); Ch 33 (St 21); On 35 39 (St 21); On 42 43 (St 21);
      On 45 46 (St 21); On 48 57 (St 21); Ch 58 (Tr 39); On 65 90 (St 21); On 94 122 (St 21);
      Ch 124 (St 21); Ch 126 (St 21)]);
    (95, [Ch 9 (St 37); Ch 10 (St 36); On 11 13 (St 37); Ch 32 (St 37); Ch 67 (St 38); Ch 99 (St 38)]);
    (96, [On (-128) 9 (St 23); Ch 10 (Tr 45); On 11 12 (St 23); Ch 13 (Tr 46); On 14 75 (St 23);
      Ch 76 (St 97); On 77 107 (St 23); Ch 108 (St 97); On 109 127 (St 23)]);
    (97, [On (-128) 9 (St 23); Ch 10 (Tr 45); On 11 12 (St 23); Ch 13 (Tr 46); On 14 78 (St 23);
      Ch 79 (St 98); On 80 110 (St 23); Ch 111 (St 98); On 112 127 (St 23)]);
    (98, [On (-128) 9 (St 23); Ch 10 (Tr 45); On 11 12 (St 23); Ch 13 (Tr 46); On 14 82 (St 23);
      Ch 83 (St 99); On 84 114 (St 23); Ch 115 (St 99); On 116 127 (St 23)]);
    (99, [On (-128) 9 (St 23); Ch 10 (Tr 45); On 11 12 (St 23); Ch 13 (Tr 46); On 14 68 (St 23);
      Ch 69 (St 100); On 70 100 (St 23); Ch 101 (St 100); On 102 127 (St 23)]);
    (100, [On (-128) 9 (St 23); Ch 10 (Tr 136); On 11 12 (St 23); Ch 13 (Tr 137); On 14 127 (St 23)]);
    (101, [Ch 33 (St 21); On 35 39 (St 21); On 42 43 (St 21); On 45 46 (St 21); On 48 57 (St 21);
      Ch 58 (Tr 39); On 65 68 (St 21); Ch 69 (St 102); On 70 90 (St 21); On 94 100 (St 21);
      Ch 101 (St 102); On 102 122 (St 21); Ch 124 (St 21); Ch 126 (St 21)]) ].

Definition client_states_19 : table :=
  [
    (102, [Ch 33 (St 21); On 35 39 (St 21); On 42 43 (St 21); On 45 46 (St 21); On 48 57 (St 21);
      Ch 58 (Tr 39); On 65 77 (St 21); Ch 78 (St 103); On 79 90 (St 21); On 94 109 (St 21);
      Ch 110 (St 103); On 111 122 (St 21); Ch 124 (St 21); Ch 126 (St 21)]);
    (103, [Ch 33 (St 21); On 35 39 (St 21); On 42 43 (St 21); On 45 46 (St 21); On 48 57 (St 21);
      Ch 58 (Tr 39); On 65 83 (St 21); Ch 84 (St 104); On 85 90 (St 21); On 94 115 (St 21);
      Ch 116 (St 104); On 117 122 (St 21); Ch 124 (St 21); Ch 126 (St 21)]);
    (104, [Ch 33 (St 21); On 35 39 (St 21); On 42 43 (St 21); Ch 45 (St 105); Ch 46 (St 21);
      On 48 57 (St 21); Ch 58 (Tr 39); On 65 90 (St 21); On 94 122 (St 21); Ch 124 (St 21); Ch 126 (St 21)]);
    (105, [Ch 33 (St 21); On 35 39 (St 21); On 42 43 (St 21); On 45 46 (St 21); On 48 57 (St 21);
      Ch 58 (Tr 39); On 65 75 (St 21); Ch 76 (St 106); On 77 90 (St 21); On 94 107 (St 21);
      Ch 108 (St 106); On 109 122 (St 21); Ch 124 (St 21); Ch 126 (St 21)]);
    (106, [Ch 33 (St 21); On 35 39 (St 21); On 42 43 (St 21); On 45 46 (St 21); On 48 57 (St 21);
      Ch 58 (Tr 39); On 65 68 (St 21); Ch 69 (St 107); On 70 90 (St 21); On 94 100 (St 21);
      Ch 101 (St 107); On 102 122 (St 21); Ch 124 (St 21); Ch 126 (St 21)]) ].

Definition client_states_20 : table :=
  [
    (107, [Ch 33 (St 21); On 35 39 (St 21); On 42 43 (St 21); On 45 46 (St 21); On 48 57 (St 21);
      Ch 58 (Tr 39); On 65 77 (St 21); Ch 78 (St 108); On 79 90 (St 21); On 94 109 (St 21);
      Ch 110 (St 108); On 111 122 (St 21); Ch 124 (St 21); Ch 126 (St 21)]);
    (108, [Ch 33 (St 21); On 35 39 (St 21); On 42 43 (St 21); On 45 46 (St 21); On 48 57 (St 21);
      Ch 58 (Tr 39); On 65 70 (St 21); Ch 71 (St 109); On 72 90 (St 21); On 94 102 (St 21);
      Ch 103 (St 109); On 104 122 (St 21); Ch 124 (St 21); Ch 126 (St 21)]);
    (109, [Ch 33 (St 21); On 35 39 (St 21); On 42 43 (St 21); On 45 46 (St 21); On 48 57 (St 21);
      Ch 58 (Tr 39); On 65 83 (St 21); Ch 84 (St 110); On 85 90 (St 21); On 94 115 (St 21);
      Ch 116 (St 110); On 117 122 (St 21); Ch 124 (St 21); Ch 126 (St 21)]);
    (110, [Ch 33 (St 21); On 35 39 (St 21); On 42 43 (St 21); On 45 46 (St 21); On 48 57 (St 21);
      Ch 58 (Tr 39); On 65 71 (St 21); Ch 72 (St 111); On 73 90 (St 21); On 94 103 (St 21);
      Ch 104 (St 111); On 105 122 (St 21); Ch 124 (St 21); Ch 126 (St 21)]);
    (111, [Ch 33 (St 21); On 35 39 (St 21); On 42 43 (St 21); On 45 46 (St 21); On 48 57 (St 21);
      Ch 58 (Tr 148); On 65 90 (St 21); On 94 122 (St 21); Ch 124 (St 21); Ch 126 (St 21)]) ].

Definition client_states_21 : table :=
  [
    (112, [On (-128) 8 (Tr 40); Ch 9 (Tr 149); Ch 10 (Tr 150); On 11 12 (Tr 149); Ch 13 (Tr 151);
      On 14 31 (Tr 40); Ch 32 (Tr 149); On 33 47 (Tr 40); On 48 57 (Tr 152); On 58 127 (Tr 40)]);
    (113, [Ch 9 (St 114); Ch 10 (Tr 154); On 11 12 (St 114); Ch 13 (St 116); Ch 32 (St 114); Ch 33 (Tr 35);
      On 35 39 (Tr 35); On 42 43 (Tr 35); On 45 46 (Tr 35); On 48 57 (Tr 156); On 65 66 (Tr 35);
      Ch 67 (Tr 36); On 68 83 (Tr 35); Ch 84 (Tr 37); On 85 90 (Tr 35); On 94 98 (Tr 35); Ch 99 (Tr 36);
      On 100 115 (Tr 35); Ch 116 (Tr 37); On 117 122 (Tr 35); Ch 124 (Tr 35); Ch 126 (Tr 35)]);
    (114, [On 9 13 (St 114); Ch 32 (St 114); On 48 57 (Tr 157)]);
    (115, [Ch 10 (Tr 158); Ch 13 (Tr 159); On 48 57 (St 115)]);
    (123, [On 9 13 (St 114); Ch 32 (St 114); On 48 57 (Tr 157)]);
    (116, [Ch 9 (St 114); Ch 10 (Tr 154); On 11 13 (St 114); Ch 32 (St 114); On 48 57 (Tr 157)]) ].

Definition client_states_22 : table :=
  [
    (117, [Ch 10 (Tr 158); Ch 13 (Tr 159); Ch 33 (St 21); On 35 39 (St 21); On 42 43 (St 21);
      On 45 46 (St 21); On 48 57 (St 117); Ch 58 (Tr 39); On 65 90 (St 21); On 94 122 (St 21);
      Ch 124 (St 21); Ch 126 (St 21)]);
    (118, [Ch 9 (St 114); Ch 10 (St 113); On 11 13 (St 114); Ch 32 (St 114); On 48 57 (Tr 157)]);
    (119, [On (-128) 9 (St 23); Ch 10 (Tr 158); On 11 12 (St 23); Ch 13 (Tr 159); On 14 47 (St 23);
      On 48 57 (St 119); On 58 127 (St 23)]) ].

Definition client_table : table :=
  client_states_1
  ++ client_states_2
  ++ client_states_3
  ++ client_states_4
  ++ client_states_5
  ++ client_states_6
  ++ client_states_7
  ++ client_states_8
  ++ client_states_9
  ++ client_states_10
  ++ client_states_11
  ++ client_states_12
  ++ client_states_13
  ++ client_states_14
  ++ client_states_15
  ++ client_states_16
  ++ client_states_17
  ++ client_states_18
  ++ client_states_19
  ++ client_states_20
  ++ client_states_21
  ++ client_states_22.
