(* ===== verification/ClientParser.v ===== *)
(** The response parser: httpclient_parser (skt/http/httpclient_parser.h,
    httpclient_parser.rl) and HttpResponseParser (skt/http/http_parser.cpp).

    As in HttpParser, a buffer is the list of the bytes before the terminating
    NUL, pointers are offsets into it, and the callbacks of http_parser.cpp are
    those of Http. *)

From stdpp Require Import base list strings.
From Stdlib Require Import Ascii Lia.
From S2P Require Import Prelude CString Http Ragel HttpParser ClientTable.

Record httpclient_parser : Type := mkCP {
  cp_cs : Z;
  cp_body_start : Z;
  cp_content_len : Z;
  cp_status : Z;
  cp_chunked : Z;
  cp_chunks_done : Z;
  cp_close : Z;
  cp_nread : Z;
  cp_mark : Z;
  cp_field_start : Z;
  cp_field_len : Z
}.

Definition httpclient_parser_start : Z := 1.
Definition httpclient_parser_first_final : Z := 120.
Definition httpclient_parser_error : Z := 0.

(** status keeps what the memory held, [h]. *)
Definition httpclient_parser_init (h : httpclient_parser) : httpclient_parser :=
  mkCP httpclient_parser_start 0 (-1) (cp_status h) 0 0 0 0 0 0 0.

Definition httpclient_parser_has_error (h : httpclient_parser) : bool := cp_cs h =? httpclient_parser_error.
Definition httpclient_parser_is_finished (h : httpclient_parser) : bool := cp_cs h =? httpclient_parser_first_final.
Definition httpclient_parser_finish (h : httpclient_parser) : Z :=
  if httpclient_parser_has_error h then -1 else if httpclient_parser_is_finished h then 1 else 0.

(** The class HttpResponseParser with its machine. *)
Record ResponseParser : Type := mkPR { c_parser : httpclient_parser; c_cb : HttpResponseParser }.

Definition ResponseParser_new (h : httpclient_parser) : ResponseParser :=
  mkPR (httpclient_parser_init h) HttpResponseParser_new.

Definition cp_set_cs v (h : httpclient_parser) : httpclient_parser :=
  mkCP v (cp_body_start h) (cp_content_len h) (cp_status h) (cp_chunked h) (cp_chunks_done h) (cp_close h)
    (cp_nread h) (cp_mark h) (cp_field_start h) (cp_field_len h).
Definition cp_set_body v (h : httpclient_parser) : httpclient_parser :=
  mkCP (cp_cs h) v (cp_content_len h) (cp_status h) (cp_chunked h) (cp_chunks_done h) (cp_close h)
    (cp_nread h) (cp_mark h) (cp_field_start h) (cp_field_len h).
Definition cp_set_len v (h : httpclient_parser) : httpclient_parser :=
  mkCP (cp_cs h) (cp_body_start h) v (cp_status h) (cp_chunked h) (cp_chunks_done h) (cp_close h)
    (cp_nread h) (cp_mark h) (cp_field_start h) (cp_field_len h).
Definition cp_set_status v (h : httpclient_parser) : httpclient_parser :=
  mkCP (cp_cs h) (cp_body_start h) (cp_content_len h) v (cp_chunked h) (cp_chunks_done h) (cp_close h)
    (cp_nread h) (cp_mark h) (cp_field_start h) (cp_field_len h).
Definition cp_set_chunked v (h : httpclient_parser) : httpclient_parser :=
  mkCP (cp_cs h) (cp_body_start h) (cp_content_len h) (cp_status h) v (cp_chunks_done h) (cp_close h)
    (cp_nread h) (cp_mark h) (cp_field_start h) (cp_field_len h).
Definition cp_set_done v (h : httpclient_parser) : httpclient_parser :=
  mkCP (cp_cs h) (cp_body_start h) (cp_content_len h) (cp_status h) (cp_chunked h) v (cp_close h)
    (cp_nread h) (cp_mark h) (cp_field_start h) (cp_field_len h).
Definition cp_set_close v (h : httpclient_parser) : httpclient_parser :=
  mkCP (cp_cs h) (cp_body_start h) (cp_content_len h) (cp_status h) (cp_chunked h) (cp_chunks_done h) v
    (cp_nread h) (cp_mark h) (cp_field_start h) (cp_field_len h).
Definition cp_set_nread v (h : httpclient_parser) : httpclient_parser :=
  mkCP (cp_cs h) (cp_body_start h) (cp_content_len h) (cp_status h) (cp_chunked h) (cp_chunks_done h) (cp_close h)
    v (cp_mark h) (cp_field_start h) (cp_field_len h).
Definition cp_set_mark v (h : httpclient_parser) : httpclient_parser :=
  mkCP (cp_cs h) (cp_body_start h) (cp_content_len h) (cp_status h) (cp_chunked h) (cp_chunks_done h) (cp_close h)
    (cp_nread h) v (cp_field_start h) (cp_field_len h).
Definition cp_set_field_start v (h : httpclient_parser) : httpclient_parser :=
  mkCP (cp_cs h) (cp_body_start h) (cp_content_len h) (cp_status h) (cp_chunked h) (cp_chunks_done h) (cp_close h)
    (cp_nread h) (cp_mark h) v (cp_field_len h).
Definition cp_set_field_len v (h : httpclient_parser) : httpclient_parser :=
  mkCP (cp_cs h) (cp_body_start h) (cp_content_len h) (cp_status h) (cp_chunked h) (cp_chunks_done h) (cp_close h)
    (cp_nread h) (cp_mark h) (cp_field_start h) v.

Definition cp_upd (f : httpclient_parser → httpclient_parser) (s : ResponseParser) : ResponseParser :=
  mkPR (f (c_parser s)) (c_cb s).
Definition ccb_upd (f : HttpResponseParser → HttpResponseParser) (s : ResponseParser) : ResponseParser :=
  mkPR (c_parser s) (f (c_cb s)).

Section Buffer.
(** The len bytes at buffer. *)
Context (buffer : str).

(** A callback on the text from the mark to [p]. *)
Definition c_element (cb : str → nat → HttpResponseParser → HttpResponseParser) (p : Z) : M ResponseParser unit :=
  s ← mget;
  let mark := cp_mark (c_parser s) in
  in_buffer buffer mark (LEN mark p) ≫= λ _,
  mmodify (ccb_upd (cb (PTR_TO buffer mark) (Z.to_nat (LEN mark p)))).

Definition client_act (a : client_action) (p : Z) : M ResponseParser unit :=
  s ← mget;
  let h := c_parser s in
  match a with
  | c_mark | c_start_value => mmodify (cp_upd (cp_set_mark p))
  | c_start_field => mmodify (cp_upd (cp_set_field_start p))
  | c_write_field => mmodify (cp_upd (cp_set_field_len (LEN (cp_field_start h) p)))
  | c_write_content_len => mmodify (cp_upd (cp_set_len (i32 (strtol 10 (PTR_TO buffer (cp_mark h))))))
  | c_write_connection_close => mmodify (cp_upd (cp_set_close 1))
  | c_write_value =>
    in_buffer buffer (cp_field_start h) (cp_field_len h) ≫= λ _,
    in_buffer buffer (cp_mark h) (LEN (cp_mark h) p) ≫= λ _,
    mmodify (ccb_upd (on_response_http_filed (PTR_TO buffer (cp_field_start h)) (Z.to_nat (cp_field_len h))
      (PTR_TO buffer (cp_mark h)) (Z.to_nat (LEN (cp_mark h) p))))
  | c_reason_phrase => c_element on_response_reason p
  | c_status_code =>
    mmodify (cp_upd (cp_set_status (i32 (strtol 10 (PTR_TO buffer (cp_mark h)))))) ≫= λ _,
    c_element on_response_status p
  | c_http_version => c_element on_response_version p
  | c_chunk_size =>
    let content_len := i32 (strtol 16 (PTR_TO buffer (cp_mark h))) in
    let chunks_done := content_len <=? 0 in
    mmodify (cp_upd (λ h, cp_set_done (Z.b2z chunks_done) (cp_set_len content_len (cp_set_chunked 1 h)))) ≫= λ _,
    c_element (if chunks_done then on_response_last_chunk else on_response_chunk) p
  | c_trans_chunked => mmodify (cp_upd (cp_set_chunked 1))
  | c_done =>
    mmodify (cp_upd (cp_set_body (p + 1))) ≫= λ _,
    mmodify (ccb_upd (on_response_header_done (PTR_TO buffer (p + 1)) (Z.to_nat (zlen buffer - p - 1))))
  end.

(** done ends with fbreak. *)
Definition client_breaks (a : client_action) : bool := match a with c_done => true | _ => false end.

(** The machine; the grammar has no conditions. The code after the switch sets
    cs = 2 first. *)
Definition client_exec : Z → Z → str → M ResponseParser (Z * Z) :=
  exec client_table client_tr false client_act client_breaks 2.

(** [pe] is the byte after the buffer. The result is an int: -1 when one of the
    checks fails. *)
Definition httpclient_parser_execute (pe : ascii) (off : Z) : M ResponseParser Z :=
  mmodify (cp_upd (λ h, cp_set_field_start 0 (cp_set_field_len 0 (cp_set_mark 0 (cp_set_nread 0 h))))) ≫= λ _,
  s ← mget;
  massert (off <=? zlen buffer) ≫= λ _,
  massert (bool_decide (pe = NUL)) ≫= λ _,
  massert (zlen buffer - off =? i32 (zlen buffer) - i32 off) ≫= λ _,
  '(cs, p) ← client_exec (cp_cs (c_parser s)) off (PTR_TO buffer off);
  mmodify (cp_upd (cp_set_cs cs)) ≫= λ _,
  mmodify (cp_upd (λ h, cp_set_nread (cp_nread h + (p - off)) h)) ≫= λ _,
  s' ← mget;
  let h := c_parser s' in
  massert (p <=? zlen buffer) ≫= λ _,
  massert (cp_nread h <=? zlen buffer) ≫= λ _,
  massert (cp_body_start h <=? zlen buffer) ≫= λ _,
  if (cp_mark h <? zlen buffer) && (cp_field_len h <=? zlen buffer) && (cp_field_start h <? zlen buffer)
  then mret (i32 (cp_nread h)) else mret (-1).

(** HttpResponseParser::excute: the number of bytes read, and the bytes moved
    to the front of the buffer; the offset is a size_t, so that -1 leaves the
    buffer. *)
Definition c_excute (pe : ascii) (chunk : bool) : M ResponseParser (Z * str) :=
  (if chunk then mmodify (cp_upd httpclient_parser_init) else mret tt) ≫= λ _,
  r ← httpclient_parser_execute pe 0;
  let offset := u64 r in
  if offset <=? zlen buffer then mret (offset, drop (Z.to_nat offset) buffer) else mstop OutOfBounds.

End Buffer.

Definition c_isFinished (s : ResponseParser) : Z := httpclient_parser_finish (c_parser s).
Definition c_hasError (s : ResponseParser) : bool := pp_hasError (httpclient_parser_has_error (c_parser s)) (c_cb s).

(** ** Concrete runs *)

(** Whatever was in memory before the constructor. *)
Definition c_blank : httpclient_parser := mkCP 7 7 7 7 7 7 7 7 7 7 7.

Definition c_run (chunk : bool) (text : str) (s : ResponseParser) : option (Z * Z * bool * Z * Z * HttpResponse) :=
  match c_excute text NUL chunk s with
  | Ok (n, _) s' =>
    Some (n, c_isFinished s', c_hasError s', cp_content_len (c_parser s'), cp_chunked (c_parser s'), pp_data (c_cb s'))
  | _ => None
  end.

Example response_parsed :
  c_run false (L "HTTP/1.1 404 Not Found" ++ CRLF ++ L "Content-Length: 5" ++ CRLF
               ++ L "Connection: close" ++ CRLF ++ CRLF ++ L "hello") (ResponseParser_new c_blank)
  = Some (64, 1, false, 5, 0,
      mkRsp 404 17 true [] (L "Not Found") [(L "Connection", L "close"); (L "Content-Length", L "5")]).
Proof. vm_compute. reflexivity. Qed.

Example chunk_parsed :
  c_run true (L "1a;x=y" ++ CRLF ++ L "abc") (ResponseParser_new c_blank)
  = Some (8, 1, false, 26, 1, mkRsp 200 17 true [] [] [(L "x", L "y")]).
Proof. vm_compute. reflexivity. Qed.
