(* ===== verification/ClientParserSafe.v ===== *)
(** The response parser stays inside its buffer, and where it does not.

    As for requests, what the actions rely on is checked once for every edge
    of the machine. The states of [folded] fail the check: after an empty
    Transfer-Encoding or Content-Length header the grammar also reads the next
    line as the value, and calls http_field with the start of that line and the
    length of the name before it. *)

From stdpp Require Import base list strings.
From Stdlib Require Import Ascii Lia.
From S2P Require Import Prelude CString Http Ragel HttpParser HttpParserSafe ClientTable ClientParser.

(** Inside a header name, or after a line "close" that folds an empty
    Connection: field_start is set, field_len is not. *)
Definition in_name (cs : Z) : bool :=
  (cs =? 3) || (cs =? 43) || (cs =? 88) || (cs =? 5) || (cs =? 21) || ((25 <=? cs) && (cs <=? 34)) || ((44 <=? cs) && (cs <=? 60))
  || ((90 <=? cs) && (cs <=? 94)) || ((101 <=? cs) && (cs <=? 111)).
(** Inside a line that is both a name and the value of the line before. *)
Definition folded (cs : Z) : bool := ((73 <=? cs) && (cs <=? 79)) || (cs =? 117).

(** The flag: field_start and field_len are set. *)
Definition c_act_flag (a : client_action) (f : bool) : option bool :=
  match a with
  | c_start_field => Some false
  | c_write_field => Some true
  | c_write_value => if f then Some f else None
  | _ => Some f
  end.
Fixpoint c_acts_flag (acts : list client_action) (f : bool) : option bool :=
  match acts with
  | [] => Some f
  | a :: acts' => match c_act_flag a f with Some f' => c_acts_flag acts' f' | None => None end
  end.

Fixpoint c_breaks_last (acts : list client_action) : bool :=
  match acts with
  | [] => true
  | [_] => true
  | a :: acts' => negb (client_breaks a) && c_breaks_last acts'
  end.

Definition c_edge_checked (cs : Z) (e : edge) : bool :=
  folded cs ||
  let '(acts, tgt) := resolve client_tr (jump_of e) in
  c_breaks_last acts &&
  match c_acts_flag acts (negb (in_name cs)) with
  | None => false
  | Some f =>
    if existsb client_breaks acts then httpclient_parser_first_final <=? tgt
    else (folded tgt || implb (negb (in_name tgt)) f) && (1 <=? tgt) && (tgt <? httpclient_parser_first_final)
  end.

Lemma client_table_checked : forallb (λ '(cs, es), forallb (c_edge_checked cs) es) client_table = true.
Proof. vm_compute. reflexivity. Qed.

Lemma client_states_known :
  forallb (λ n, bool_decide (is_Some (state_edges (Z.of_nat n) client_table))) (seq 1 123) = true.
Proof. vm_compute. reflexivity. Qed.

Lemma c_state_known cs : 1 ≤ cs ≤ 123 → state_edges cs client_table ≠ None.
Proof.
  intros Hcs. pose proof (proj1 (forallb_forall _ _) client_states_known (Z.to_nat cs)) as H. cbv beta in H.
  rewrite Z2Nat.id in H by lia. rewrite bool_decide_eq_true in H.
  destruct H as [es E]; [apply in_seq; lia|congruence].
Qed.

Section Run.
Context (buffer : str) (Hlen : 0 < zlen buffer < 2 ^ 31).

(** The offsets at position [p], when the flag [f] holds. *)
Definition c_offsets (f : bool) (p : Z) (h : httpclient_parser) : Prop :=
  cp_nread h = 0 ∧
  (0 ≤ cp_mark h ≤ p ∧ cp_mark h < zlen buffer) ∧
  (0 ≤ cp_field_start h ≤ p ∧ cp_field_start h < zlen buffer) ∧
  0 ≤ cp_field_len h ≤ p ∧
  (f = true → cp_field_start h + cp_field_len h ≤ p).

Lemma c_element_ok cb p s :
  0 ≤ cp_mark (c_parser s) ≤ p → p < zlen buffer →
  c_element buffer cb p s
    = Ok tt (ccb_upd (cb (PTR_TO buffer (cp_mark (c_parser s))) (Z.to_nat (p - cp_mark (c_parser s)))) s).
Proof.
  intros Ha Hp. unfold c_element. erewrite bind_ok; [|reflexivity]. rewrite (LEN_small buffer) by lia.
  erewrite bind_ok; [|apply in_buffer_ok; lia]. done.
Qed.

Lemma c_act_ok a f f' p s :
  c_act_flag a f = Some f' → client_breaks a = false → 0 ≤ p < zlen buffer → c_offsets f p (c_parser s) →
  ∃ s', client_act buffer a p s = Ok tt s' ∧ c_offsets f' p (c_parser s') ∧
        cp_body_start (c_parser s') = cp_body_start (c_parser s).
Proof.
  intros Hf Hb Hp (Hn & Hm & Hs & Hl & Hv). unfold client_act. erewrite bind_ok; [|reflexivity].
  destruct a; cbn in Hf; try done; simplify_eq;
    try (eexists; split; [reflexivity|]; split; [|done]; unfold c_offsets; cbn; by split_and!; auto with lia);
    try (rewrite ?bind_modify; eexists; split; [apply c_element_ok; cbn; lia|]; split; [|done]; by unfold c_offsets; auto).
  - (* write_field *)
    eexists. split; [reflexivity|]. split; [|done]. unfold c_offsets. cbn. rewrite (LEN_small buffer) by lia.
    split_and!; auto with lia.
  - (* write_value *)
    destruct f; [|done]. simplify_eq. specialize (Hv eq_refl).
    erewrite bind_ok; [|apply in_buffer_ok; lia].
    erewrite bind_ok; [|apply in_buffer_ok; rewrite (LEN_small buffer) by lia; lia].
    eexists. split; [reflexivity|]. split; [|done]. by unfold c_offsets.
Qed.

Lemma c_run_acts_ok acts f f' p s :
  c_acts_flag acts f = Some f' → c_breaks_last acts = true → 0 ≤ p < zlen buffer →
  c_offsets f p (c_parser s) → cp_body_start (c_parser s) = 0 →
  ∃ s', run_acts (client_act buffer) client_breaks acts p s = Ok (existsb client_breaks acts) s' ∧
    c_offsets f' p (c_parser s') ∧
    cp_body_start (c_parser s') = if existsb client_breaks acts then p + 1 else 0.
Proof.
  revert f s. induction acts as [|a acts IH]; intros f s Hf Hb Hp Ho H0.
  { cbn in Hf. simplify_eq. by exists s. }
  cbn [c_acts_flag] in Hf. destruct (c_act_flag a f) as [f1|] eqn:Ef; [|done]. cbn [run_acts existsb].
  destruct (client_breaks a) eqn:Ea.
  - assert (acts = []) as -> by (destruct acts; [done|]; cbn in Hb; by rewrite Ea in Hb).
    destruct a; try done. cbn in Ef, Hf. simplify_eq.
    eexists. split; [reflexivity|]. by split.
  - destruct (c_act_ok a f f1 p s) as (s1 & E1 & Ho1 & Hb1); [done..|]. run E1.
    destruct (IH f1 s1) as (s' & E' & Ho' & Hb'); [done| |done|done|congruence|].
    { destruct acts; [done|]. cbn in Hb. by apply andb_true_iff in Hb as [_ Hb]. }
    by exists s'.
Qed.

(** While the machine reads, and when it is done. [cs0]: where it started. *)
Definition c_reading (cs0 cs p : Z) (s : ResponseParser) : Prop :=
  cs = after client_table client_tr false cs0 (take (Z.to_nat p) buffer) ∧
  1 ≤ cs < httpclient_parser_first_final ∧ cp_body_start (c_parser s) = 0 ∧
  c_offsets (negb (in_name cs)) p (c_parser s).
Definition c_read_done (cs p : Z) (s : ResponseParser) : Prop :=
  httpclient_parser_first_final ≤ cs ∧ cp_body_start (c_parser s) = p ∧ c_offsets false p (c_parser s).

Lemma c_offsets_next f f' p h : c_offsets f p h → (f' = true → f = true) → c_offsets f' (p + 1) h.
Proof.
  intros (Hn & Hm & Hs & Hl & Hv) Hf. split_and!; auto with lia.
  intros H. specialize (Hv (Hf H)). lia.
Qed.

(** The states the machine goes through on the buffer are not those of a folded
    line. *)
Definition unfolded (cs0 : Z) : Prop :=
  ∀ n, folded (after client_table client_tr false cs0 (take n buffer)) = false.

Lemma c_reading_step cs0 cs c j p s :
  unfolded cs0 → c_reading cs0 cs p s → 0 ≤ p < zlen buffer → buffer !! Z.to_nat p = Some c →
  next client_table false cs c = Some j →
  ∃ (brk : bool) s', run_acts (client_act buffer) client_breaks (resolve client_tr j).1 p s = Ok brk s' ∧
    (if brk then c_read_done else c_reading cs0) (resolve client_tr j).2 (p + 1) s'.
Proof.
  intros Hu (Hcs & Hr & H0 & Ho) Hp Hc Hj.
  assert ((resolve client_tr j).2 = after client_table client_tr false cs0 (take (Z.to_nat (p + 1)) buffer)) as Haft.
  { replace (Z.to_nat (p + 1)) with (S (Z.to_nat p)) by lia. erewrite take_S_r by exact Hc. symmetry.
    apply after_snoc. by rewrite <- Hcs. }
  pose proof (Hu (Z.to_nat (p + 1))) as Hf'. rewrite <- Haft in Hf'.
  pose proof (Hu (Z.to_nat p)) as Hf0. rewrite <- Hcs in Hf0.
  destruct (next_all _ _ _ _ _ _ client_table_checked Hj) as (e & <- & He).
  unfold c_edge_checked in He. rewrite Hf0 in He. cbn [orb] in He.
  destruct (resolve client_tr (jump_of e)) as [acts tgt] eqn:Er. cbn [fst snd] in *.
  apply andb_true_iff in He as [Hb He]. destruct (c_acts_flag acts _) as [f|] eqn:Ef; [|done].
  destruct (c_run_acts_ok acts _ _ p s Ef Hb Hp Ho H0) as (s' & E & Ho' & Hb').
  exists (existsb client_breaks acts), s'. split; [exact E|]. destruct (existsb client_breaks acts).
  - split; [by apply Z.leb_le|]. split; [done|]. by eapply c_offsets_next.
  - rewrite !andb_true_iff, Z.leb_le, Z.ltb_lt, Hf' in He. destruct He as [[Hv H1] H2].
    split; [done|]. split; [lia|]. split; [done|]. eapply c_offsets_next; [done|]. intros Ht. cbn in Hv. by rewrite Ht in Hv.
Qed.

End Run.

(** A parser that can take the next buffer: not done and no error. *)
Definition c_ready (s : ResponseParser) : Prop :=
  1 ≤ cp_cs (c_parser s) < httpclient_parser_first_final ∧ cp_body_start (c_parser s) = 0.

Lemma c_ready_init s : c_ready (cp_upd httpclient_parser_init s).
Proof. by unfold c_ready; cbn. Qed.

(** The fields the code resets before each buffer. *)
Definition c_reset (h : httpclient_parser) : httpclient_parser :=
  cp_set_field_start 0 (cp_set_field_len 0 (cp_set_mark 0 (cp_set_nread 0 h))).

(** The code after the machine, once the machine has stopped inside the buffer
    with sane offsets. *)
Lemma c_execute_after buffer s cs p s1 f :
  0 < zlen buffer < 2 ^ 31 →
  client_exec buffer (cp_cs (c_parser s)) 0 buffer (cp_upd c_reset s) = Ok (cs, p) s1 →
  0 ≤ p ≤ zlen buffer → c_offsets buffer f p (c_parser s1) → cp_body_start (c_parser s1) ≤ zlen buffer →
  httpclient_parser_execute buffer NUL 0 s = Ok p (cp_upd (λ h, cp_set_nread p (cp_set_cs cs h)) s1).
Proof.
  intros Hlen E Hp (Hn & Hm & Hs & Hl & _) Hb. unfold httpclient_parser_execute.
  rewrite bind_modify. erewrite bind_ok; [|reflexivity].
  rewrite (proj2 (Z.leb_le 0 (zlen buffer))) by lia. erewrite bind_ok; [|reflexivity].
  rewrite bool_decide_true by done. erewrite bind_ok; [|reflexivity].
  rewrite (wraps_small 32 (zlen buffer)), Z.eqb_refl by (unfold in_s; lia). erewrite bind_ok; [|reflexivity].
  erewrite bind_ok; [|exact E]. cbv beta iota. rewrite bind_modify, bind_modify.
  erewrite bind_ok; [|reflexivity]. cbn [c_parser cp_upd cp_set_nread cp_set_cs cp_nread cp_body_start cp_mark cp_field_len cp_field_start].
  rewrite Hn. rewrite (proj2 (Z.leb_le p (zlen buffer))) by lia. erewrite bind_ok; [|reflexivity].
  replace (0 + (p - 0)) with p by lia. rewrite (proj2 (Z.leb_le p (zlen buffer))) by lia.
  erewrite bind_ok; [|reflexivity]. rewrite (proj2 (Z.leb_le _ (zlen buffer)) Hb). erewrite bind_ok; [|reflexivity].
  rewrite (proj2 (Z.ltb_lt (cp_mark (c_parser s1)) (zlen buffer))), (proj2 (Z.leb_le (cp_field_len (c_parser s1)) (zlen buffer))),
    (proj2 (Z.ltb_lt (cp_field_start (c_parser s1)) (zlen buffer))) by lia.
  cbn [andb]. rewrite wraps_small by (unfold in_s; lia). unfold mret, M_ret, cp_upd. cbn. rewrite Hn.
  by replace (0 + (p - 0)) with p by lia.
Qed.

(** The run of the machine inside execute. *)
Lemma c_execute_runs buffer s :
  c_ready s → 0 < zlen buffer < 2 ^ 31 → unfolded buffer (cp_cs (c_parser s)) →
  ∃ cs p s1,
    client_exec buffer (cp_cs (c_parser s)) 0 buffer (cp_upd c_reset s) = Ok (cs, p) s1 ∧
    httpclient_parser_execute buffer NUL 0 s = Ok p (cp_upd (λ h, cp_set_nread p (cp_set_cs cs h)) s1) ∧
    0 ≤ p ≤ zlen buffer ∧
    ((1 ≤ cs < httpclient_parser_first_final ∧ cp_body_start (c_parser s1) = 0 ∧ p = zlen buffer) ∨
     (httpclient_parser_first_final ≤ cs ∧ cp_body_start (c_parser s1) = p) ∨
     (cs = 0 ∧ p < zlen buffer)).
Proof.
  intros (Hcs & Hb) Hlen Hu. pose (cs0 := cp_cs (c_parser s)).
  destruct (exec_inv_at client_table client_tr false (client_act buffer) client_breaks 2
    (c_reading buffer cs0) (c_read_done buffer) buffer cs0 0 buffer (cp_upd c_reset s))
    as (cs & p & s1 & E & Hp & Hout).
  - intros. by eapply c_reading_step.
  - intros cs' p' s' (_ & H & _). apply c_state_known. unfold httpclient_parser_first_final in H. lia.
  - lia.
  - done.
  - split; [done|]. split; [done|]. split; [done|]. unfold c_offsets. cbn. split_and!; auto with lia.
  - assert (∃ f, c_offsets buffer f p (c_parser s1) ∧ cp_body_start (c_parser s1) ≤ zlen buffer) as (f & Ho & Hb1).
    { destruct Hout as [[(_ & _ & H0 & Ho) _]|[(_ & H0 & Ho)|(_ & _ & c0 & _ & _ & H0 & Ho)]];
        eexists; (split; [exact Ho|lia]). }
    exists cs, p, s1. split; [done|]. split; [by eapply c_execute_after|].
    split; [done|]. destruct Hout as [[(_ & Hcs1 & H0 & _) ->]|[(Hcs1 & H0 & _)|(-> & Hp1 & _)]]; auto.
Qed.

(** What excute does with the result of execute. *)
Lemma c_excute_of buffer (chunk : bool) s p s' :
  httpclient_parser_execute buffer NUL 0 (if chunk then cp_upd httpclient_parser_init s else s) = Ok p s' →
  0 ≤ p ≤ zlen buffer → zlen buffer < 2 ^ 31 →
  c_excute buffer NUL chunk s = Ok (p, drop (Z.to_nat p) buffer) s'.
Proof.
  intros E Hp Hl. unfold c_excute.
  assert (((if chunk then mmodify (cp_upd httpclient_parser_init) else mret tt) : M ResponseParser unit) s
    = Ok tt (if chunk then cp_upd httpclient_parser_init s else s)) as E0 by (by destruct chunk).
  run E0. run E. rewrite wrapu_small by (unfold in_u; lia). by rewrite (proj2 (Z.leb_le _ _)) by lia.
Qed.


Definition demo_response : str := L "HTTP/1.1 200 OK" ++ CRLF ++ L "Server: skt" ++ CRLF ++ CRLF.


(** A line that folds an empty Transfer-Encoding: the callback is given 17
    bytes of a text of 9. *)
Lemma folded_value_overread :
  c_excute (L "HTTP/1.1 200 OK" ++ CRLF ++ L "Transfer-Encoding:" ++ CRLF ++ L "chunked" ++ CRLF)
    NUL false (ResponseParser_new c_blank) = Stop OutOfBounds.
Proof. vm_compute. reflexivity. Qed.

(** A head that ends after an empty Connection header is complete (body_start
    is set), and yet isFinished is 0: the machine has four final states, and
    is_finished tests for the first. The next buffer, if it is shorter, fails
    an assertion. *)
Lemma empty_header_unfinished :
  ∃ n s, c_excute (L "HTTP/1.1 200 OK" ++ CRLF ++ L "Connection:" ++ CRLF ++ CRLF) NUL false (ResponseParser_new c_blank)
         = Ok (n, []) s ∧ cp_body_start (c_parser s) = n ∧ c_isFinished s = 0 ∧
       c_excute (L "close") NUL false s = Stop AssertFail.
Proof. eexists _, _. split; [vm_compute; reflexivity|]. split; [reflexivity|]. by split; vm_compute. Qed.
