(* ===== verification/ClientRoundtrip.v ===== *)
(** Parsing what HttpResponse::dump prints.

    As for requests, the machine is followed along the parts of a printed
    response. The names of headers the grammar knows have states of their own;
    which name a state stands for, and that the sets of states for names and for
    values are closed, is checked by evaluation over all characters. *)

From stdpp Require Import base list strings sets.
From Stdlib Require Import Ascii Lia.
From S2P Require Import Prelude StdOrdered CString Http HttpProps Ragel HttpParser HttpParserSafe HttpRoundtrip.
From S2P Require Import Decimal ClientTable ClientParser ClientParserSafe.

(** ** States *)

#[global] Instance client_action_eq_dec : EqDecision client_action.
Proof. solve_decision. Defined.

Abbreviation steps := (steps_in client_table false).
Abbreviation acting := (acting_in client_tr).

(** Where a header line may start; inside a name; after the colon, unless the
    name is transfer-encoding; inside a value; after its CR. *)
Definition line_starts : list Z := [20; 43].
Definition names : list Z := 21 :: (Z.of_nat <$> (seq 25 10 ++ seq 44 17 ++ seq 101 11)).
Definition colons : list Z := [22; 35; 112].
Definition values : list Z := 23 :: 119 :: (Z.of_nat <$> seq 96 5).
Definition line_ends : list Z := [24; 88].

(** What the name has been up to a state, for the names the grammar knows. *)
Definition name_of (cs : Z) : option (list N) :=
  if (25 <=? cs) && (cs <=? 34) then Some (take (Z.to_nat (cs - 24)) (casefold (L "connection")))
  else if (44 <=? cs) && (cs <=? 60) then Some (take (Z.to_nat (cs - 43)) (casefold (L "transfer-encoding")))
  else if (101 <=? cs) && (cs <=? 111) then Some (take (Z.to_nat (cs - 97)) (casefold (L "content-length")))
  else None.
Definition named (cs : Z) (k : str) : Prop := match name_of cs with Some q => casefold k = q | None => True end.

Definition name_step (cs : Z) (c : ascii) (n : Z) : bool :=
  match name_of n with
  | None => true
  | Some q => match name_of cs with Some q' => bool_decide (q = q' ++ [tolower c]) | None => false end
  end.
Definition first_step (c : ascii) (n : Z) : bool :=
  match name_of n with None => true | Some q => bool_decide (q = [tolower c]) end.

Lemma starts_checked :
  steps line_starts token_char
    (λ _ c j, acting [[c_start_field]; [c_write_connection_close; c_start_field]] names j && first_step c (resolve client_tr j).2) = true.
Proof. vm_compute. reflexivity. Qed.
Lemma names_checked :
  steps names token_char (λ cs c j, silent names j && name_step cs c (resolve client_tr j).2) = true.
Proof. vm_compute. reflexivity. Qed.
Definition colon_of (cs : Z) : Z := if cs =? 34 then 35 else if cs =? 60 then 61 else if cs =? 111 then 112 else 22.
Lemma colons_checked : steps names (eqc 58) (λ cs _ j, acting [[c_write_field]] [colon_of cs] j) = true.
Proof. vm_compute. reflexivity. Qed.
Lemma blanks_checked : steps colons (eqc 32) (λ cs _ j, acting [[c_start_value]] [cs] j) = true.
Proof. vm_compute. reflexivity. Qed.
Lemma value_starts_checked :
  steps colons (λ c, value_char c && negb (isspace c)) (λ _ _ j, acting [[c_start_value]] values j) = true.
Proof. vm_compute. reflexivity. Qed.
Lemma values_checked : steps values value_char (λ _ _ j, silent values j) = true.
Proof. vm_compute. reflexivity. Qed.
Lemma value_ends_checked :
  steps values (eqc 13) (λ _ _ j, acting [[c_write_value]; [c_write_content_len; c_write_value]] line_ends j) = true.
Proof. vm_compute. reflexivity. Qed.
Lemma line_ends_checked : steps line_ends (eqc 10) (λ _ _ j, silent line_starts j) = true.
Proof. vm_compute. reflexivity. Qed.

Lemma c_str_token k : forallb token_char k = true → c_str k = k.
Proof.
  induction k as [|c k IH]; [done|]. cbn [forallb c_str]. intros [Hc Hk]%andb_true_iff.
  rewrite bool_decide_false by (intros ->; by vm_compute in Hc). by rewrite IH.
Qed.

Lemma casefold_snoc k c :
  forallb token_char k = true → token_char c = true → casefold (k ++ [c]) = casefold k ++ [tolower c].
Proof.
  intros Hk Hc. unfold casefold. rewrite !c_str_token; [by rewrite fmap_app|done|].
  rewrite forallb_app, Hk. cbn [forallb]. by rewrite Hc.
Qed.

Lemma name_walk w cs k :
  cs ∈ names → named cs k → forallb token_char k = true → forallb token_char w = true →
  ∃ cs', walk client_table false cs w = Some cs' ∧ cs' ∈ names ∧ named cs' (k ++ w).
Proof.
  revert cs k. induction w as [|c w IH]; intros cs k Hcs Hn Hk Hw.
  { exists cs. by rewrite app_nil_r. }
  cbn [forallb] in Hw. apply andb_true_iff in Hw as [Hc Hw].
  destruct (steps_in_next _ _ _ _ _ _ _ names_checked Hcs Hc) as ([n|n] & E & [Hs Hst]%andb_true_iff); [|done].
  apply bool_decide_eq_true in Hs. cbn [walk]. rewrite E.
  destruct (IH n (k ++ [c])) as (cs' & Ew & Hcs' & Hn'); [done| |by rewrite forallb_app, Hk; cbn [forallb]; rewrite Hc|done|].
  - unfold named, name_step in *. cbn [resolve snd] in Hst. destruct (name_of n) as [q|]; [|done].
    destruct (name_of cs) as [q'|]; [|done]. apply bool_decide_eq_true in Hst as ->.
    by rewrite casefold_snoc, Hn.
  - exists cs'. rewrite <- (assoc_L (++)) in Hn'. by split_and!.
Qed.

(** The state after the colon tells which of the known names it was. *)
Lemma colon_named cs k :
  cs ∈ names → named cs k → casefold k ≠ casefold (L "transfer-encoding") →
  colon_of cs ∈ colons ∧
  (casefold k ≠ casefold (L "connection") → casefold k ≠ casefold (L "content-length") → colon_of cs = 22).
Proof.
  intros Hcs Hn Hk. unfold colon_of, colons.
  destruct (Z.eqb_spec cs 34) as [->|H1]; [split; [set_solver|by intros []]|].
  destruct (Z.eqb_spec cs 60) as [->|H2]; [by destruct Hk|].
  destruct (Z.eqb_spec cs 111) as [->|H3]; [split; [set_solver|by intros _ []]|]. split; [set_solver|done].
Qed.

(** ** Parts of a response *)

Section Parts.
Context (buffer : str) (Hlen : 0 < zlen buffer < 2 ^ 31).

(** The parser at position [p] with the response read so far; no chunked
    encoding was announced. *)
Definition c_at (p : Z) (r : HttpResponse) (s : ResponseParser) : Prop :=
  c_cb s = mkPP r 0 ∧ 0 ≤ cp_mark (c_parser s) ≤ p ∧ cp_chunked (c_parser s) = 0.

(** After [pre], reading [seg] takes the machine from a state of [Ps] to one of
    [Qs] and the response from [r] to [r']. *)
Definition c_reads (pre : str) (Ps : list Z) (r : HttpResponse) (seg : str) (Qs : list Z) (r' : HttpResponse) : Prop :=
  ∀ post s cs, buffer = pre ++ seg ++ post → cs ∈ Ps → c_at (zlen pre) r s →
  ∃ s' cs', client_exec buffer cs (zlen pre) (seg ++ post) s = client_exec buffer cs' (zlen (pre ++ seg)) post s' ∧
            cs' ∈ Qs ∧ c_at (zlen (pre ++ seg)) r' s'.

Lemma c_reads_app pre Ps r seg1 Qs r1 seg2 Rs r2 :
  c_reads pre Ps r seg1 Qs r1 → c_reads (pre ++ seg1) Qs r1 seg2 Rs r2 → c_reads pre Ps r (seg1 ++ seg2) Rs r2.
Proof.
  intros H1 H2 post s cs Hb Hcs Hs. rewrite <- (assoc_L (++)) in Hb |- *.
  destruct (H1 (seg2 ++ post) s cs) as (s1 & cs1 & E1 & Hcs1 & Hs1); [done|done|done|].
  destruct (H2 post s1 cs1) as (s2 & cs2 & E2 & Hcs2 & Hs2); [by rewrite <- (assoc_L (++))|done|done|].
  exists s2, cs2. rewrite E1, E2, (assoc_L (++)). done.
Qed.

(** One character on which nothing happens. *)
Lemma c_reads_silent pre Ps r c Qs :
  steps Ps (λ x, bool_decide (x = c)) (λ _ _, silent Qs) = true → c_reads pre Ps r [c] Qs r.
Proof.
  intros H post s cs _ Hcs (Hcb & Hm & Hch).
  destruct (steps_in_next _ _ _ _ _ _ c H Hcs) as ([n|n] & E & Hn); [by apply bool_decide_eq_true| |done].
  exists s, n. unfold client_exec. cbn [app].
  rewrite (exec_tr _ _ _ _ _ _ _ _ _ _ _ s s E) by done. rewrite zlen_app.
  split; [done|]. split; [by apply bool_decide_eq_true in Hn|]. split; [done|]. change (zlen [c]) with 1. split; [lia|done].
Qed.

(** A part that starts with a character that sets the mark and ends before
    [t], on which the action [a] runs. *)
Lemma c_reads_marked pre cs r c w cs1 j1 cs2 t j2 a r' :
  next client_table false cs c = Some j1 → resolve client_tr j1 = ([c_mark], cs1) →
  walk client_table false cs1 w = Some cs2 → next client_table false cs2 t = Some j2 →
  (resolve client_tr j2).1 = [a] → client_breaks a = false →
  (∀ post s, buffer = pre ++ (c :: w) ++ t :: post → cp_mark (c_parser s) = zlen pre → c_cb s = mkPP r 0 →
     ∃ s', client_act buffer a (zlen (pre ++ c :: w)) s = Ok tt s' ∧ c_cb s' = mkPP r' 0 ∧
           cp_mark (c_parser s') = zlen pre ∧ cp_chunked (c_parser s') = cp_chunked (c_parser s)) →
  c_reads pre [cs] r ((c :: w) ++ [t]) [(resolve client_tr j2).2] r'.
Proof.
  intros E1 Ej1 E2 E3 Ea Hbr Hact post s cs' Hb Hcs (Hcb & Hm & Hch). apply list_elem_of_singleton in Hcs as ->.
  rewrite <- (assoc_L (++)) in Hb |- *. cbn [app] in *.
  destruct (Hact post (cp_upd (cp_set_mark (zlen pre)) s)) as (s' & E4 & Hcb' & Hm' & Hch'); [done..|].
  exists s', (resolve client_tr j2).2. unfold client_exec. erewrite exec_tr; [|exact E1|by rewrite Ej1].
  rewrite Ej1. cbn [snd]. erewrite exec_walk by exact E2.
  replace (zlen pre + 1 + zlen w) with (zlen (pre ++ c :: w)) by (rewrite zlen_app, zlen_cons; lia).
  erewrite exec_tr; [|exact E3|rewrite Ea; cbn [run_acts]; run E4; by rewrite Hbr].
  replace (zlen (pre ++ c :: w) + 1) with (zlen (pre ++ c :: w ++ [t])).
  2:{ rewrite !zlen_app, !zlen_cons, zlen_app, zlen_cons, zlen_nil. lia. }
  split; [done|]. split; [by apply list_elem_of_singleton|]. split; [done|].
  rewrite Hm', zlen_app, zlen_cons, Hch'. pose proof (zlen_nonneg pre). pose proof (zlen_nonneg (w ++ [t])). split; [lia|done].
Qed.

(** A callback on the text since the mark. *)
Lemma c_mark_element cb pre w t post s :
  buffer = pre ++ w ++ t :: post → cp_mark (c_parser s) = zlen pre →
  c_element buffer cb (zlen (pre ++ w)) s = Ok tt (ccb_upd (cb (w ++ t :: post) (length w)) s).
Proof.
  intros Hb Hm. pose proof (zlen_nonneg pre). pose proof (zlen_nonneg w). pose proof (zlen_nonneg post).
  assert (zlen buffer = zlen pre + zlen w + 1 + zlen post) as Hz by (rewrite Hb, !zlen_app, zlen_cons; lia).
  rewrite c_element_ok, Hm by (rewrite ?Hm, ?zlen_app; lia). do 3 f_equal.
  - rewrite Hb. unfold PTR_TO, zlen. by rewrite Nat2Z.id, drop_app_length.
  - rewrite zlen_app. unfold zlen. lia.
Qed.

Lemma c_reads_version pre r v :
  version_ok v → c_reads pre [1] r (version_str v ++ [" "%char]) [16] (p_setVersion v r).
Proof.
  intros Hv. assert (∃ w, version_str v = "H"%char :: w ∧ walk client_table false 8 w = Some 15 ∧
    ∀ post q, on_response_version (("H"%char :: w) ++ " "%char :: post) (length ("H"%char :: w)) (mkPP q 0) = mkPP (p_setVersion v q) 0)
    as (w & Hw & E & Hcb).
  { destruct Hv as [-> | ->]; eexists; (split; [vm_compute; reflexivity|]; split; [by vm_compute|]; reflexivity). }
  rewrite Hw. eapply (c_reads_marked _ _ _ _ _ 8 (Tr 2) 15 _ (Tr 26) c_http_version); [by vm_compute|done|done|by vm_compute|done|done|].
  intros post s Hb Hm Hs. eexists. split.
  { unfold client_act. erewrite bind_ok; [|reflexivity]. by eapply c_mark_element. }
  split; [|by split]. cbn. rewrite Hs. apply Hcb.
Qed.

Lemma c_reads_status pre r st :
  0 ≤ st < 2 ^ 31 → c_reads pre [16] r (dec (u32 st) ++ [" "%char]) [18] (p_setStatus st r).
Proof.
  intros Hst. rewrite wrapu_small by (unfold in_u; lia).
  destruct (dec_digits st) as (c & w & Hd & Hds & Hn); [lia|]. rewrite Hd. cbn [forallb] in Hds.
  apply andb_true_iff in Hds as [Hc Hw].
  eapply (c_reads_marked _ _ _ _ _ 17 (Tr 27) 17 _ (Tr 28) c_status_code);
    [apply (goes_in_next _ _ _ is_digit); [by vm_compute|done]|done| |by vm_compute|done|done|].
  { apply (walk_class client_table false is_digit); [|done]. intros x. apply goes_in_next. by vm_compute. }
  intros post s Hb Hm Hs. eexists. split.
  { unfold client_act. erewrite bind_ok; [|reflexivity]. rewrite bind_modify. eapply c_mark_element; [exact Hb|done]. }
  split; [|by split]. cbn. rewrite Hs. unfold on_response_status, pp_upd. cbn [pp_data pp_error].
    change (c :: w ++ " "%char :: post) with ((c :: w) ++ " "%char :: post). rewrite <- Hd. unfold atoi.
    rewrite Hn by done. rewrite Z.min_r, wraps_small by (unfold in_s; lia). done.
Qed.

(** The reason phrase and the end of the status line. *)
Definition reason_char (c : ascii) : bool := negb (eqc 10 c || eqc 13 c).

Lemma c_reads_reason pre r c w :
  forallb reason_char (c :: w) = true → c_reads pre [18] r ((c :: w) ++ CRLF) line_starts (p_setReason (c :: w) r).
Proof.
  intros Hds. cbn [forallb] in Hds. apply andb_true_iff in Hds as [Hc Hw].
  change CRLF with ([CR] ++ [LF]). rewrite (assoc_L (++)).
  eapply c_reads_app; [|apply (c_reads_silent _ [24]); by vm_compute].
  eapply (c_reads_marked _ _ _ _ _ 19 (Tr 30) 19 _ (Tr 33) c_reason_phrase);
    [apply (goes_in_next _ _ _ reason_char); [by vm_compute|done]|done| |by vm_compute|done|done|].
  { apply (walk_class client_table false reason_char); [|done]. intros x. apply goes_in_next. by vm_compute. }
  intros post s Hb Hm Hs. eexists. split.
  { unfold client_act. erewrite bind_ok; [|reflexivity]. by eapply c_mark_element. }
  split; [|by split]. cbn. rewrite Hs. unfold on_response_reason, pp_upd. cbn [pp_data pp_error].
    change (c :: w ++ CR :: post) with ((c :: w) ++ CR :: post). change (S (length w)) with (length (c :: w)).
    by rewrite take_app_length.
Qed.

(** ** Headers *)

(** The parser after a header's name: its text is at [p], of length [n]. *)
Definition c_name_at (p n : Z) (r : HttpResponse) (s : ResponseParser) : Prop :=
  c_cb s = mkPP r 0 ∧ cp_field_start (c_parser s) = p ∧ cp_field_len (c_parser s) = n ∧ cp_chunked (c_parser s) = 0.

(** The first character of a name. *)
Lemma c_name_start cs c p r s :
  cs ∈ line_starts → token_char c = true → c_cb s = mkPP r 0 → cp_chunked (c_parser s) = 0 →
  ∃ j s', next client_table false cs c = Some j ∧
    run_acts (client_act buffer) client_breaks (resolve client_tr j).1 p s = Ok false s' ∧
    (resolve client_tr j).2 ∈ names ∧ named (resolve client_tr j).2 [c] ∧
    c_cb s' = mkPP r 0 ∧ cp_field_start (c_parser s') = p ∧ cp_chunked (c_parser s') = 0.
Proof.
  intros Hcs Hc Hcb Hch.
  destruct (steps_in_next _ _ _ _ _ _ _ starts_checked Hcs Hc) as (j & E & [[Ha Hn]%andb_true_iff Hf]%andb_true_iff).
  apply bool_decide_eq_true in Ha, Hn. exists j. unfold named, first_step in *.
  assert (casefold [c] = [tolower c]) as Hfold.
  { unfold casefold. rewrite c_str_token; [done|]. cbn [forallb]. by rewrite Hc. }
  assert (match name_of (resolve client_tr j).2 with Some q => casefold [c] = q | None => True end) as Hnm.
  { destruct (name_of _); [|done]. apply bool_decide_eq_true in Hf as ->. done. }
  rewrite list_elem_of_In in Ha. destruct Ha as [<-|[<-|[]]]; eexists; (split; [exact E|]; split; [reflexivity|]; by split_and!).
Qed.

Lemma c_exec_name r k p rest s cs :
  name_ok k = true → casefold k ≠ casefold (L "transfer-encoding") → cs ∈ line_starts →
  0 ≤ p → p + zlen k < zlen buffer → c_cb s = mkPP r 0 → cp_chunked (c_parser s) = 0 →
  ∃ s' cs', client_exec buffer cs p (k ++ ":"%char :: rest) s = client_exec buffer cs' (p + zlen k + 1) rest s' ∧
    cs' ∈ colons ∧
    (casefold k ≠ casefold (L "connection") → casefold k ≠ casefold (L "content-length") → cs' = 22) ∧
    c_name_at p (zlen k) r s'.
Proof.
  intros Hk Hte Hcs Hp Hl Hcb Hch. destruct k as [|c w]; [done|].
  pose proof Hk as [Hc Hw]%andb_true_iff. rewrite zlen_cons in *. pose proof (zlen_nonneg w).
  destruct (c_name_start cs c p r s Hcs Hc Hcb Hch) as (j & s1 & E1 & E2 & Hj & Hnm & Hcb1 & Hf1 & Hch1).
  destruct (name_walk w (resolve client_tr j).2 [c]) as (cs2 & E3 & Hcs2 & Hnm2); [done|done|cbn [forallb]; by rewrite Hc|done|].
  destruct (steps_in_next _ _ _ _ _ _ ":"%char colons_checked Hcs2 eq_refl) as (j2 & E4 & [Ha Ht]%andb_true_iff).
  apply bool_decide_eq_true in Ha, Ht. apply list_elem_of_singleton in Ha, Ht.
  destruct (colon_named cs2 (c :: w) Hcs2 Hnm2 Hte) as [Hcol Hord].
  exists (cp_upd (cp_set_field_len (LEN p (p + (1 + zlen w)))) s1), (colon_of cs2).
  split; [|split; [done|]; split; [done|]; split; [done|]; split; [done|]; split; [cbn; rewrite (LEN_small buffer); lia|done]].
  cbn [app]. unfold client_exec. erewrite exec_tr; [|exact E1|exact E2]. erewrite exec_walk by exact E3.
  replace (p + 1 + zlen w) with (p + (1 + zlen w)) by lia.
  erewrite exec_tr; [|exact E4|rewrite Ha; subst p; reflexivity]. by rewrite Ht, Hf1.
Qed.

(** write_value, after the content length has been noted or not. *)
Lemma c_write_value_ok acts p n r v q rest s :
  acts ∈ [[c_write_value]; [c_write_content_len; c_write_value]] →
  c_name_at p n r s → 0 ≤ p → 0 < n → p + n ≤ zlen buffer → cp_mark (c_parser s) = zlen q →
  buffer = q ++ v ++ CR :: rest →
  ∃ s', run_acts (client_act buffer) client_breaks acts (zlen (q ++ v)) s = Ok false s' ∧
    c_cb s' = mkPP (p_setHeader (take (Z.to_nat n) (PTR_TO buffer p)) v r) 0 ∧
    cp_mark (c_parser s') = zlen q ∧ cp_chunked (c_parser s') = 0.
Proof.
  intros Ha Hs Hp Hn Hpn Hm Hb.
  assert (∀ s, c_name_at p n r s → cp_mark (c_parser s) = zlen q →
    client_act buffer c_write_value (zlen (q ++ v)) s
      = Ok tt (ccb_upd (λ _, mkPP (p_setHeader (take (Z.to_nat n) (PTR_TO buffer p)) v r) 0) s)) as Hw.
  { clear s Hs Hm. intros s (Hcb & Hs & Hl & Hch) Hm. unfold client_act. erewrite bind_ok; [|reflexivity].
    rewrite Hs, Hl, Hm. pose proof (zlen_nonneg q). pose proof (zlen_nonneg v). pose proof (zlen_nonneg rest).
    assert (zlen buffer = zlen q + (zlen v + (1 + zlen rest))) as Hz by (rewrite Hb, !zlen_app, zlen_cons; lia).
    erewrite bind_ok; [|apply in_buffer_ok; lia].
    erewrite bind_ok; [|apply in_buffer_ok; rewrite zlen_app, (LEN_small buffer) by lia; lia].
    unfold mmodify, ccb_upd. rewrite Hcb, (LEN_small buffer) by (rewrite ?zlen_app; lia). do 2 f_equal.
    unfold on_response_http_filed. destruct (Z.to_nat n) as [|n'] eqn:En; [lia|].
    unfold pp_upd. cbn [pp_data pp_error]. by rewrite (text_at buffer Hlen q v (CR :: rest)). }
  pose proof Hs as (_ & _ & _ & Hch). rewrite list_elem_of_In in Ha. destruct Ha as [<-|[<-|[]]]; cbn [run_acts client_breaks].
  - eexists. split; [erewrite bind_ok; [|by apply Hw]; reflexivity|]. by split_and!.
  - pose (s1 := cp_upd (cp_set_len (i32 (strtol 10 (PTR_TO buffer (cp_mark (c_parser s)))))) s).
    rewrite (bind_ok _ _ s tt s1) by done. eexists. split; [erewrite bind_ok; [|by apply Hw]; reflexivity|]. by split_and!.
Qed.

Definition c_value_ok (v : str) : bool :=
  forallb value_char v && match v with c :: _ => negb (isspace c) | [] => true end.

Lemma c_exec_value cs p n r v q rest s :
  cs ∈ colons → (v = [] → cs = 22) → c_name_at p n r s → c_value_ok v = true → 0 ≤ p → 0 < n → p + n ≤ zlen buffer →
  buffer = q ++ v ++ CR :: rest →
  ∃ s' cs', client_exec buffer cs (zlen q) (v ++ CR :: rest) s = client_exec buffer cs' (zlen (q ++ v) + 1) rest s' ∧
    cs' ∈ line_ends ∧ c_cb s' = mkPP (p_setHeader (take (Z.to_nat n) (PTR_TO buffer p)) v r) 0 ∧
    cp_mark (c_parser s') = zlen q ∧ cp_chunked (c_parser s') = 0.
Proof.
  intros Hcs Hv0 Hn Hv Hp Hn0 Hpn Hb. pose (s1 := cp_upd (cp_set_mark (zlen q)) s). unfold client_exec. destruct v as [|c w].
  - rewrite (Hv0 eq_refl). clear Hv0. rewrite (app_nil_r q) in *. cbn [app].
    destruct (c_write_value_ok [c_write_value] p n r [] q rest s1) as (s' & E & H); [set_solver|done..|].
    rewrite app_nil_r in E. exists s', 24.
    erewrite exec_tr; [|apply (goes_in_next _ _ 22 (eqc 13) (Tr 43)); [by vm_compute|done]|].
    2:{ change ((resolve client_tr (Tr 43)).1) with [c_start_value; c_write_value].
        change (run_acts (client_act buffer) client_breaks [c_start_value; c_write_value] (zlen q) s)
          with (run_acts (client_act buffer) client_breaks [c_write_value] (zlen q) s1). exact E. }
    split; [done|]. split; [unfold line_ends; set_solver|done].
  - unfold c_value_ok in Hv. apply andb_true_iff in Hv as [[Hc Hw]%andb_true_iff Hbl].
    destruct (steps_in_next _ _ _ _ _ _ c value_starts_checked Hcs) as (j1 & E1 & [Ha1 Ht1]%andb_true_iff); [by rewrite Hc, Hbl|].
    apply bool_decide_eq_true in Ha1, Ht1. apply list_elem_of_singleton in Ha1.
    destruct (walk_set client_table false values value_char w (resolve client_tr j1).2 values_checked Ht1 Hw) as (cs2 & E2 & Hcs2).
    destruct (steps_in_next _ _ _ _ _ _ CR value_ends_checked Hcs2 eq_refl) as (j3 & E3 & [Ha3 Ht3]%andb_true_iff).
    apply bool_decide_eq_true in Ha3, Ht3.
    destruct (c_write_value_ok (resolve client_tr j3).1 p n r (c :: w) q rest s1) as (s' & E & H); [done..|].
    exists s', (resolve client_tr j3).2. cbn [app]. erewrite exec_tr; [|exact E1|by rewrite Ha1].
    erewrite exec_walk by exact E2.
    replace (zlen q + 1 + zlen w) with (zlen (q ++ c :: w)) by (rewrite zlen_app, zlen_cons; lia).
    erewrite exec_tr; [|exact E3|exact E]. by split.
Qed.

(** The space after the colon. *)
Lemma c_exec_space cs p n r q rest s :
  cs ∈ colons → c_name_at p n r s →
  ∃ s', client_exec buffer cs (zlen q) (" "%char :: rest) s = client_exec buffer cs (zlen (q ++ [" "%char])) rest s' ∧
        c_name_at p n r s'.
Proof.
  intros Hcs Hs. destruct (steps_in_next _ _ _ _ _ _ " "%char blanks_checked Hcs eq_refl) as (j & E & [Ha Ht]%andb_true_iff).
  apply bool_decide_eq_true in Ha, Ht. apply list_elem_of_singleton in Ha, Ht.
  exists (cp_upd (cp_set_mark (zlen q)) s). split; [|done]. unfold client_exec.
  erewrite exec_tr; [|exact E|by rewrite Ha]. by rewrite Ht, zlen_app.
Qed.

(** What a header line may hold; a name the grammar knows needs a value, and
    the transfer encoding is another matter. *)
Definition c_header_ok (kv : str * str) : Prop :=
  name_ok kv.1 = true ∧ c_value_ok kv.2 = true ∧ casefold kv.1 ≠ casefold (L "transfer-encoding") ∧
  (kv.2 = [] → casefold kv.1 ≠ casefold (L "connection") ∧ casefold kv.1 ≠ casefold (L "content-length")).

Lemma c_reads_header pre r k v :
  c_header_ok (k, v) → c_reads pre line_starts r (k ++ [":"%char; " "%char] ++ v ++ CRLF) line_starts (p_setHeader k v r).
Proof.
  intros (Hk & Hv & Hte & Hv0) post s cs Hb Hcs (Hcb & Hm & Hch). cbn [fst snd] in *.
  unfold CRLF in Hb |- *. rewrite <- !(assoc_L (++)) in Hb |- *. cbn [app] in *.
  pose proof (zlen_nonneg pre) as Hpre. pose proof (zlen_nonneg (v ++ CR :: LF :: post)).
  assert (zlen buffer = zlen pre + (zlen k + (1 + (1 + zlen (v ++ CR :: LF :: post))))) as Hz.
  { rewrite Hb, zlen_app, zlen_app, !zlen_cons. done. }
  assert (0 < zlen k) as Hk0. { destruct k; [done|]. rewrite zlen_cons. pose proof (zlen_nonneg k). lia. }
  destruct (c_exec_name r k (zlen pre) (" "%char :: v ++ CR :: LF :: post) s cs) as (s1 & cs1 & E1 & Hcs1 & Hord & Hs1); [done|done|done|done|lia|done|done|].
  pose (q := pre ++ k ++ [":"%char]).
  assert (zlen pre + zlen k + 1 = zlen q) as Hq by (unfold q; rewrite !zlen_app; change (zlen [":"%char]) with 1; lia).
  destruct (c_exec_space cs1 (zlen pre) (zlen k) r q (v ++ CR :: LF :: post) s1) as (s2 & E2 & Hs2); [done|done|].
  destruct (c_exec_value cs1 (zlen pre) (zlen k) r v (q ++ [" "%char]) (LF :: post) s2) as (s3 & cs3 & E3 & Hcs3 & Hcb3 & Hm3 & Hch3); try done.
  { intros ->. destruct Hv0 as [? ?]; [done|]. by apply Hord. }
  { lia. }
  { rewrite Hb. unfold q. by rewrite <- !(assoc_L (++)). }
  destruct (steps_in_next _ _ _ _ _ _ LF line_ends_checked Hcs3 eq_refl) as ([n|n] & E4 & Hn); [|done].
  exists s3, n. rewrite E1, Hq, E2, E3. clear E1 E2 E3.
  assert (zlen (pre ++ k ++ ":"%char :: " "%char :: v ++ [CR; LF]) = zlen ((q ++ [" "%char]) ++ v) + 1 + 1) as ->.
  { unfold q, zlen. repeat (rewrite length_app || cbn [length]). lia. }
  split; [|split; [by apply bool_decide_eq_true in Hn|]].
  - unfold client_exec. by rewrite (exec_tr _ _ _ _ _ _ _ _ _ _ _ s3 s3 E4) by done.
  - split.
    + rewrite Hcb3. repeat f_equal. unfold PTR_TO, zlen. rewrite !Nat2Z.id, Hb, drop_app_length. by rewrite take_app_length.
    + rewrite Hm3, (zlen_app (q ++ [" "%char]) v), Hch3. pose proof (zlen_nonneg (q ++ [" "%char])). pose proof (zlen_nonneg v). split; [lia|done].
Qed.

(** The headers one after the other. *)
Definition p_set_headers (hs : list (str * str)) (r : HttpResponse) : HttpResponse :=
  foldl (λ r kv, p_setHeader kv.1 kv.2 r) r hs.

Lemma c_reads_headers pre r hs :
  Forall c_header_ok hs →
  c_reads pre line_starts r (lines ((λ kv, kv.1 ++ [":"%char; " "%char] ++ kv.2) <$> hs)) line_starts (p_set_headers hs r).
Proof.
  intros Hhs. revert pre r. induction Hhs as [|[k v] hs Hkv Hhs IH]; intros pre r.
  { intros post s cs _ Hcs Hs. exists s, cs. cbn [fmap list_fmap lines app]. by rewrite app_nil_r. }
  cbn [fmap list_fmap lines p_set_headers foldl fst snd]. rewrite (assoc_L (++)).
  eapply c_reads_app; [|apply IH]. rewrite <- !(assoc_L (++)). by apply (c_reads_header pre r k v).
Qed.

(** The empty line ends the head. *)
Lemma c_exec_end cs p r post s :
  cs ∈ line_starts → c_cb s = mkPP r 0 → cp_chunked (c_parser s) = 0 →
  ∃ s', client_exec buffer cs p (CRLF ++ post) s = Ok (120, p + 2) s' ∧ c_cb s' = mkPP r 0 ∧ cp_chunked (c_parser s') = 0.
Proof.
  intros Hcs Hcb Hch.
  assert (steps line_starts (eqc 13) (λ _ _ j, acting [[]; [c_write_connection_close]] [3] j) = true) as Hchk by (by vm_compute).
  destruct (steps_in_next _ _ _ _ _ _ CR Hchk Hcs eq_refl) as (j & E & [Ha Ht]%andb_true_iff).
  apply bool_decide_eq_true in Ha, Ht. apply list_elem_of_singleton in Ht.
  assert (∃ s1, run_acts (client_act buffer) client_breaks (resolve client_tr j).1 p s = Ok false s1 ∧
    c_cb s1 = mkPP r 0 ∧ cp_chunked (c_parser s1) = 0) as (s1 & E1 & Hcb1 & Hch1).
  { rewrite list_elem_of_In in Ha. destruct Ha as [<-|[<-|[]]]; eexists; (split; [reflexivity|]; by split). }
  eexists. split; [|].
  - unfold client_exec, CRLF. cbn [app]. erewrite exec_tr; [|exact E|exact E1]. rewrite Ht.
    erewrite exec_break; [|apply (goes_in_next _ _ 3 (eqc 10) (Tr 7)); [by vm_compute|done]|reflexivity].
    replace (p + 1 + 1) with (p + 2) by lia. reflexivity.
  - by split.
Qed.

End Parts.

(** ** What a run that returns leaves behind *)

Section Kept.
Context (buffer : str) (Hlen : 0 < zlen buffer < 2 ^ 31).

(** The offsets are inside the buffer, whatever the state. *)
Definition kept (p : Z) (s : ResponseParser) : Prop :=
  c_offsets buffer false p (c_parser s) ∧ cp_body_start (c_parser s) ≤ zlen buffer.

Lemma in_buffer_keeps at_ len s u s' : in_buffer (S := ResponseParser) buffer at_ len s = Ok u s' → s' = s.
Proof. unfold in_buffer. repeat case_match; by intros [= _ <-]. Qed.

Lemma c_element_keeps cb p s u s' : c_element buffer cb p s = Ok u s' → c_parser s' = c_parser s.
Proof.
  unfold c_element. intros (? & ? & [= <- <-] & H)%bind_inv_ok.
  apply bind_inv_ok in H as (? & s1 & ->%in_buffer_keeps & [= _ <-]). done.
Qed.

Lemma c_act_keeps a p s u s' : client_act buffer a p s = Ok u s' → 0 ≤ p < zlen buffer → kept p s → kept p s'.
Proof.
  intros H Hp (Ho & Hb). pose proof Ho as (Hn & Hm & Hs & Hl & _). unfold client_act in H.
  apply bind_inv_ok in H as (? & ? & [= <- <-] & H).
  destruct a; try (injection H as _ <-; unfold kept, c_offsets; cbn; rewrite ?(LEN_small buffer) by lia; by split_and!; auto with lia).
  - apply bind_inv_ok in H as (? & s1 & ->%in_buffer_keeps & H).
    apply bind_inv_ok in H as (? & s2 & ->%in_buffer_keeps & H). injection H as _ <-. done.
  - apply c_element_keeps in H. unfold kept. by rewrite H.
  - rewrite bind_modify in H. apply c_element_keeps in H. unfold kept. by rewrite H.
  - apply c_element_keeps in H. unfold kept. by rewrite H.
  - rewrite bind_modify in H. apply c_element_keeps in H. unfold kept. by rewrite H.
Qed.

Lemma run_acts_keeps acts p s b s' :
  run_acts (client_act buffer) client_breaks acts p s = Ok b s' → 0 ≤ p < zlen buffer → kept p s → kept p s'.
Proof.
  intros H Hp. revert s H. induction acts as [|a acts IH]; intros s H Hk; [by injection H as _ <-|].
  cbn [run_acts] in H. apply bind_inv_ok in H as (? & s1 & E & H). apply c_act_keeps in E; [|done..].
  destruct (client_breaks a); [by injection H as _ <-|]. by eapply IH.
Qed.

Lemma client_exec_keeps cs p rest s cs' p' s' :
  client_exec buffer cs p rest s = Ok (cs', p') s' → 0 ≤ p → p + zlen rest = zlen buffer → kept p s →
  kept p' s' ∧ p ≤ p' ≤ zlen buffer.
Proof.
  unfold client_exec. revert cs p s. induction rest as [|c rest IH]; intros cs p s H Hp Hl Hk.
  { injection H as <- <- <-. change (zlen []) with 0 in Hl. split; [done|lia]. }
  rewrite zlen_cons in Hl. pose proof (zlen_nonneg rest). cbn [exec] in H.
  destruct (state_edges cs client_table) as [es|]; [|injection H as <- <- <-; split; [done|lia]].
  destruct (find_edge false (char_val c) es) as [j|]; [|injection H as <- <- <-; split; [done|lia]].
  apply bind_inv_ok in H as (b & s1 & E & H). apply run_acts_keeps in E; [|lia|done].
  assert (kept (p + 1) s1) as Hk1.
  { destruct E as [E1 E2]. split; [|done]. by eapply c_offsets_next. }
  destruct b; [injection H as <- <- <-; split; [done|lia]|].
  destruct (IH _ _ _ H) as [? ?]; [lia|lia|done|]. split; [done|lia].
Qed.

Lemma kept_new mem : kept 0 (cp_upd c_reset (ResponseParser_new mem)).
Proof. unfold kept, c_offsets. cbn -[zlen]. split_and!; auto with lia. Qed.

End Kept.

(** ** Whole responses *)

(** What dump prints as the reason. *)
Definition reason_of (r : HttpResponse) : str :=
  match p_reason r with [] => L (HttpStatusToString (p_status r)) | reason => reason end.

(** What the grammar admits of a response. *)
Definition p_printable (r : HttpResponse) : Prop :=
  version_ok (p_version r) ∧ 0 ≤ p_status r < 2 ^ 31 ∧ forallb reason_char (p_reason r) = true ∧
  Forall c_header_ok (filter (λ kv, is_connection kv.1 = false) (p_headers r)).

(** The headers dump prints, in order. *)
Definition p_printed_headers (r : HttpResponse) : list (str * str) :=
  filter (λ kv, is_connection kv.1 = false) (p_headers r)
  ++ (L "connection", if p_close r then L "close" else L "keep-alive")
  :: match p_body r with [] => [] | _ => [(L "content-length", dec (zlen (p_body r)))] end.

(** The response the parser makes of the head of a printed one. *)
Definition p_parsed (r : HttpResponse) : HttpResponse :=
  p_set_headers (p_printed_headers r) (mkRsp (p_status r) (p_version r) true [] (reason_of r) []).

Lemma reason_ok r : p_printable r → ∃ c w, reason_of r = c :: w ∧ forallb reason_char (c :: w) = true.
Proof.
  intros (_ & _ & Hr & _). unfold reason_of. destruct (p_reason r) as [|c w]; [|by exists c, w].
  assert (∀ t : list (Z * string), forallb (λ '(_, d), match L d with [] => false | w => forallb reason_char w end) t = true →
    ∃ c w, L (status_text (p_status r) t) = c :: w ∧ forallb reason_char (c :: w) = true) as H.
  { induction t as [|[code d] t IH]; intros Ht; [eexists _, _; split; [reflexivity|by vm_compute]|].
    cbn [forallb] in Ht. apply andb_true_iff in Ht as [Hd Ht]. cbn [status_text].
    destruct (p_status r =? code); [|by apply IH]. destruct (L d) as [|c w]; [done|]. by exists c, w. }
  apply H. by vm_compute.
Qed.

Lemma dec_c_value_ok n : 0 ≤ n < 10 ^ 20 → c_value_ok (dec n) = true ∧ dec n ≠ [].
Proof.
  intros Hn. pose proof (dec_value_ok n) as Hv. destruct (dec_digits n Hn) as (c & w & E & Hd & _). rewrite E in *.
  split; [|done]. unfold value_ok in Hv. apply andb_true_iff in Hv as [Hv _]. unfold c_value_ok. rewrite Hv. cbn [andb].
  cbn [forallb] in Hd. apply andb_true_iff in Hd as [Hc _].
  assert (forallb (λ c, implb (is_digit c) (negb (isspace c))) all_chars = true) as Hall by (by vm_compute).
  rewrite forallb_forall in Hall. specialize (Hall c (proj1 (list_elem_of_In _ _) (all_chars_complete c))). cbv beta in Hall.
  by rewrite Hc in Hall.
Qed.

Lemma p_printed_ok r : p_printable r → zlen (p_body r) < 10 ^ 20 → Forall c_header_ok (p_printed_headers r).
Proof.
  intros (_ & _ & _ & Hh) Hl. apply Forall_app. split; [done|]. constructor.
  - split; [by vm_compute|]. split; [by destruct (p_close r); vm_compute|]. split; [by vm_compute|]. cbn. by destruct (p_close r).
  - destruct (p_body r) as [|c w] eqn:E; [constructor|]. constructor; [|constructor].
    destruct (dec_c_value_ok (zlen (c :: w))) as [H1 H2]; [pose proof (zlen_nonneg (c :: w)); lia|].
    split; [by vm_compute|]. split; [done|]. split; [by vm_compute|]. by intros H.
Qed.

Lemma rsp_lines_printed r : rsp_lines r = (λ kv, kv.1 ++ [":"%char; " "%char] ++ kv.2) <$> p_printed_headers r.
Proof.
  unfold rsp_lines, p_printed_headers, header_lines, connection_line, length_line. rewrite fmap_app. f_equal.
  destruct (p_body r), (p_close r); reflexivity.
Qed.

(** The head of a printed response. *)
Definition p_head (r : HttpResponse) : str := lines (status_line r :: rsp_lines r) ++ CRLF.

Lemma p_dump_head r : p_dump r = p_head r ++ p_body r.
Proof. rewrite p_dump_lines. unfold p_head. by rewrite <- (assoc_L (++)). Qed.

Lemma c_reads_response buffer r :
  0 < zlen buffer < 2 ^ 31 → p_printable r → zlen (p_body r) < 10 ^ 20 →
  c_reads buffer [] [1] (HttpResponse_new 17 true) (lines (status_line r :: rsp_lines r)) line_starts (p_parsed r).
Proof.
  intros Hlen Hr Hl. pose proof Hr as (Hv & Hst & _). destruct (reason_ok r Hr) as (c & w & E & Hw).
  assert (lines (status_line r :: rsp_lines r) = (version_str (p_version r) ++ [" "%char]) ++
    (dec (u32 (p_status r)) ++ [" "%char]) ++ (reason_of r ++ CRLF) ++ lines (rsp_lines r)) as ->.
  { cbn [lines]. unfold status_line, reason_of. by rewrite <- !(assoc_L (++)). }
  eapply c_reads_app; [by apply c_reads_version|]. eapply c_reads_app; [by apply c_reads_status|].
  unfold p_parsed. rewrite rsp_lines_printed, E. eapply c_reads_app; [by apply c_reads_reason|].
  by apply c_reads_headers, p_printed_ok.
Qed.

(** One call of the parser on a head followed by anything. *)
Lemma c_parse_head r rest mem :
  p_printable r → zlen (p_body r) < 10 ^ 20 → zlen (p_head r ++ rest) < 2 ^ 31 →
  ∃ s, c_excute (p_head r ++ rest) NUL false (ResponseParser_new mem) = Ok (zlen (p_head r), rest) s ∧
       c_isFinished s = 1 ∧ c_cb s = mkPP (p_parsed r) 0 ∧ cp_chunked (c_parser s) = 0.
Proof.
  intros Hr Hbl Hl. pose (head := lines (status_line r :: rsp_lines r)). pose (buffer := p_head r ++ rest).
  assert (buffer = head ++ CRLF ++ rest) as Hbuf by (unfold buffer, p_head; by rewrite <- (assoc_L (++))).
  assert (zlen buffer = zlen head + (2 + zlen rest)) as Hz by (rewrite Hbuf, !zlen_app; done).
  fold buffer in Hl |- *. pose proof (zlen_nonneg head). pose proof (zlen_nonneg rest).
  assert (0 < zlen buffer < 2 ^ 31) as Hlen by lia. pose (s0 := ResponseParser_new mem).
  destruct (c_reads_response buffer r Hlen Hr Hbl (CRLF ++ rest) (cp_upd c_reset s0) 1) as (s2 & cs2 & E2 & Hcs2 & Hcb2 & _ & Hch2);
    [done|set_solver|done|].
  destruct (c_exec_end buffer cs2 (zlen head) (p_parsed r) rest s2) as (s3 & E3 & Hcb3 & Hch3); [done..|].
  cbn [app] in E2. fold head in E2. rewrite E3, <- Hbuf in E2.
  destruct (client_exec_keeps buffer Hlen 1 0 buffer (cp_upd c_reset s0) 120 (zlen head + 2) s3) as [[Ho Hb3] _];
    [exact E2|lia|lia| |].
  { by apply kept_new. }
  exists (cp_upd (λ h, cp_set_nread (zlen head + 2) (cp_set_cs 120 h)) s3). split; [|by split_and!].
  assert (zlen (p_head r) = zlen head + 2) as Hh by (unfold p_head; by rewrite zlen_app).
  erewrite c_excute_of; [|eapply c_execute_after; [done|exact E2|lia|exact Ho|done]|lia|lia].
  rewrite <- Hh. do 2 f_equal. unfold buffer, zlen. rewrite Nat2Z.id. apply drop_app_length.
Qed.

Lemma p_set_headers_all hs r : p_headers (p_set_headers hs r) = set_all hs (p_headers r).
Proof. revert r. induction hs as [|kv hs IH]; intros r; [done|]. apply IH. Qed.

Lemma p_parsed_getHeader r k def :
  map_ok (p_headers r) →
  casefold k ≠ casefold (L "connection") → casefold k ≠ casefold (L "content-length") →
  p_getHeader (p_parsed r) k def = p_getHeader r k def.
Proof.
  intros Hm H1 H2. unfold p_getHeader, p_parsed. rewrite p_set_headers_all. unfold p_printed_headers.
  apply (printed_get (p_headers r) []); [done|done|constructor|].
  constructor; [by apply not_eq_sym|]. destruct (p_body r); constructor; [by apply not_eq_sym|constructor].
Qed.

Lemma p_set_headers_rest hs r :
  p_status (p_set_headers hs r) = p_status r ∧ p_version (p_set_headers hs r) = p_version r ∧
  p_reason (p_set_headers hs r) = p_reason r.
Proof. revert r. induction hs as [|kv hs IH]; intros r; [done|]. apply (IH (p_setHeader kv.1 kv.2 r)). Qed.

(** C16: A response printed by dump is read back by the client's parser. For a
    response whose parts the grammar admits, one call of excute on the printed
    text, followed by anything, reads exactly the head: it leaves the body and
    what follows, reports the response as finished, without error and not
    chunked, and the response it has built has the status, the version and the
    reason that were printed, and gives the same value for the headers of every
    name but connection and content-length. *)
Theorem parse_response_dump r rest mem :
  p_printable r → zlen (p_dump r ++ rest) < 2 ^ 31 →
  ∃ s, c_excute (p_dump r ++ rest) NUL false (ResponseParser_new mem)
         = Ok (zlen (p_dump r) - zlen (p_body r), p_body r ++ rest) s ∧
       c_isFinished s = 1 ∧ c_hasError s = false ∧ cp_chunked (c_parser s) = 0 ∧
       p_status (pp_data (c_cb s)) = p_status r ∧ p_version (pp_data (c_cb s)) = p_version r ∧
       p_reason (pp_data (c_cb s)) = reason_of r ∧
       (map_ok (p_headers r) → ∀ k def,
          casefold k ≠ casefold (L "connection") → casefold k ≠ casefold (L "content-length") →
          p_getHeader (pp_data (c_cb s)) k def = p_getHeader r k def).
Proof.
  intros Hr Hl. rewrite p_dump_head in *. rewrite <- (assoc_L (++)) in Hl |- *.
  assert (zlen (p_body r) < 10 ^ 20) as Hb.
  { rewrite !zlen_app in Hl. pose proof (zlen_nonneg (p_head r)). pose proof (zlen_nonneg rest). lia. }
  destruct (c_parse_head r (p_body r ++ rest) mem Hr Hb Hl) as (s & E & Hf & Hs & Hch). exists s.
  rewrite Hs. split; [rewrite E, zlen_app; do 2 f_equal; lia|]. split; [done|].
  split; [unfold c_hasError, pp_hasError, httpclient_parser_has_error; rewrite Hs; cbn [pp_error]|].
  { unfold c_isFinished, httpclient_parser_finish, httpclient_parser_has_error in Hf. by destruct (_ =? _). }
  split; [done|]. cbn [pp_data].
  destruct (p_set_headers_rest (p_printed_headers r) (mkRsp (p_status r) (p_version r) true [] (reason_of r) [])) as (H1 & H2 & H3).
  split; [done|]. split; [done|]. split; [done|]. intros Hm k def Hk1 Hk2. by apply p_parsed_getHeader.
Qed.

Lemma parse_response_dump_witness :
  ∃ s, c_excute (p_dump demo_rsp) NUL false (ResponseParser_new c_blank)
         = Ok (zlen (p_dump demo_rsp) - 5, L "hello") s ∧
       p_reason (pp_data (c_cb s)) = L "OK" ∧ p_getHeader (pp_data (c_cb s)) (L "SERVER") [] = L "skt".
Proof.
  destruct (parse_response_dump demo_rsp [] c_blank) as (s & E & _ & _ & _ & _ & _ & Hrs & Hh).
  - split; [by right|]. split; [done|]. split; [done|]. constructor; [|constructor]. by split_and!; vm_compute.
  - vm_compute. reflexivity.
  - rewrite app_nil_r in E. exists s. split; [exact E|]. split; [exact Hrs|].
    rewrite Hh; [reflexivity|repeat constructor|by vm_compute|by vm_compute].
Defined.
