(* ===== verification/UriTable.v ===== *)
(** The states and transitions of the URI parser (generated code,
    skt/uri/uri.rl.cpp), with the labels of the source; the actions are those of
    skt/uri/uri.rl. *)

From stdpp Require Import base list.
From S2P Require Import Prelude Ragel.

Inductive uri_action : Type :=
| u_marku
| u_markh
| u_save_scheme
| u_save_port
| u_save_userinfo
| u_save_host
| u_save_path
| u_save_query
| u_save_fragment.

Definition uri_tr (n : Z) : list uri_action * Z :=
  match n with
  | 38 => ([u_save_userinfo], 469)
  | 263 => ([u_save_userinfo], 522)
  | 461 => ([u_marku], 508)
  | 462 => ([u_marku], 454)
  | 463 => ([u_marku], 1)
  | 466 => ([u_marku], 457)
  | 467 => ([u_marku; u_save_query], 453)
  | 468 => ([u_marku], 7)
  | 469 => ([u_save_query], 453)
  | 472 => ([u_markh], 9)
  | 473 => ([u_markh], 467)
  | 474 => ([u_markh; u_save_host], 453)
  | 475 => ([u_markh], 31)
  | 476 => ([u_markh; u_save_host], 455)
  | 477 => ([u_markh], 490)
  | 478 => ([u_markh], 504)
  | 479 => ([u_markh], 506)
  | 480 => ([u_markh], 505)
  | 481 => ([u_markh; u_save_host], 468)
  | 482 => ([u_markh; u_save_host], 456)
  | 483 => ([u_markh; u_save_userinfo], 469)
  | 484 => ([u_markh], 38)
  | 485 => ([u_save_host], 453)
  | 486 => ([u_save_host], 455)
  | 487 => ([u_save_host], 461)
  | 488 => ([u_save_host], 456)
  | 489 => ([u_markh; u_save_port], 453)
  | 490 => ([u_markh; u_save_port], 455)
  | 491 => ([u_markh], 462)
  | 492 => ([u_markh; u_save_port], 456)
  | 493 => ([u_save_port], 453)
  | 494 => ([u_save_port], 455)
  | 496 => ([u_save_port], 456)
  | 499 => ([u_save_host], 468)
  | 500 => ([u_markh], 489)
  | 501 => ([u_markh], 470)
  | 502 => ([u_markh], 36)
  | 503 => ([u_markh], 471)
  | 504 => ([u_markh], 485)
  | 505 => ([u_markh], 487)
  | 506 => ([u_markh], 486)
  | 507 => ([u_markh; u_save_host], 461)
  | 543 => ([u_save_scheme], 509)
  | 546 => ([u_markh], 229)
  | 547 => ([u_markh], 520)
  | 548 => ([u_markh; u_save_host; u_save_path], 453)
  | 549 => ([u_markh], 253)
  | 550 => ([u_markh; u_save_host], 513)
  | 551 => ([u_markh], 543)
  | 552 => ([u_markh], 557)
  | 553 => ([u_markh], 559)
  | 554 => ([u_markh], 558)
  | 555 => ([u_markh; u_save_host], 521)
  | 556 => ([u_markh; u_save_host; u_save_path], 456)
  | 557 => ([u_markh; u_save_userinfo], 522)
  | 558 => ([u_markh], 260)
  | 559 => ([u_save_host; u_markh; u_save_path], 453)
  | 560 => ([u_save_host; u_markh], 513)
  | 561 => ([u_save_host], 514)
  | 562 => ([u_save_host; u_markh; u_save_path], 456)
  | 563 => ([u_save_path], 453)
  | 565 => ([u_save_path], 456)
  | 566 => ([u_markh; u_save_port; u_save_path], 453)
  | 567 => ([u_markh; u_save_port], 513)
  | 568 => ([u_markh], 515)
  | 569 => ([u_markh; u_save_port; u_save_path], 456)
  | 570 => ([u_save_port; u_markh; u_save_path], 453)
  | 571 => ([u_save_port; u_markh], 513)
  | 573 => ([u_save_port; u_markh; u_save_path], 456)
  | 576 => ([u_save_host], 521)
  | 577 => ([u_markh], 542)
  | 578 => ([u_markh], 523)
  | 579 => ([u_markh], 258)
  | 580 => ([u_markh], 524)
  | 581 => ([u_markh], 538)
  | 582 => ([u_markh], 540)
  | 583 => ([u_markh], 539)
  | 584 => ([u_markh; u_save_host], 514)
  | _ => ([], 0)
  end.

(** The actions at the end of the text. *)
Definition uri_eof (cs : Z) : list uri_action :=
  if (cs =? 462) || (cs =? 489) then [u_save_port]
  else
  if (cs =? 460) || ((463 <=? cs) && (cs <=? 467)) || ((470 <=? cs) && (cs <=? 488)) || ((490 <=? cs) && (cs <=? 507)) then [u_save_host]
  else
  if (cs =? 513) then [u_save_path]
  else
  if (cs =? 457) then [u_save_query]
  else
  if (cs =? 454) then [u_save_fragment]
  else
  if (cs =? 456) then [u_marku; u_save_query]
  else
  if (cs =? 453) then [u_marku; u_save_fragment]
  else
  if (cs =? 461) || (cs =? 468) then [u_markh; u_save_port]
  else
  if (cs =? 459) || (cs =? 469) then [u_markh; u_save_host]
  else
  if (cs =? 514) || (cs =? 521) then [u_markh; u_save_port; u_save_path]
  else
  if (cs =? 511) || (cs =? 522) then [u_markh; u_save_host; u_save_path]
  else
  if (cs =? 515) || (cs =? 542) then [u_save_port; u_markh; u_save_path]
  else
  if (cs =? 512) || ((516 <=? cs) && (cs <=? 520)) || ((523 <=? cs) && (cs <=? 541)) || ((543 <=? cs) && (cs <=? 560)) then [u_save_host; u_markh; u_save_path]
  else [].

Definition uri_states_1 : table :=
  [
    (451, [On (-128) (-1) (St 452); Ch 33 (St 452); Ch 35 (St 453); Ch 36 (St 452); Ch 37 (St 3); On 38 46 (St 452);
      Ch 47 (St 458); On 48 57 (St 452); Ch 59 (St 452); Ch 61 (St 452); Ch 63 (St 456); Ch 64 (St 452);
      On 65 90 (Tr 461); Ch 95 (St 452); On 97 122 (Tr 461); Ch 126 (St 452)]);
    (452, [On (-128) (-1) (St 452); Ch 33 (St 452); Ch 35 (St 453); Ch 36 (St 452); Ch 37 (St 3); On 38 46 (St 452);
      Ch 47 (St 455); On 48 57 (St 452); Ch 59 (St 452); Ch 61 (St 452); Ch 63 (St 456); On 64 90 (St 452);
      Ch 95 (St 452); On 97 122 (St 452); Ch 126 (St 452)]) ].

Definition uri_states_2 : table :=
  [
    (453, [On (-128) (-1) (Tr 462); Ch 33 (Tr 462); Ch 36 (Tr 462); Ch 37 (Tr 463); On 38 59 (Tr 462);
      Ch 61 (Tr 462); On 63 90 (Tr 462); Ch 95 (Tr 462); On 97 122 (Tr 462); Ch 126 (Tr 462)]) ].

Definition uri_states_3 : table :=
  [
    (454, [On (-128) (-1) (St 454); Ch 33 (St 454); Ch 36 (St 454); Ch 37 (St 1); On 38 59 (St 454); Ch 61 (St 454);
      On 63 90 (St 454); Ch 95 (St 454); On 97 122 (St 454); Ch 126 (St 454)]);
    (1, [On 48 57 (St 2); On 65 70 (St 2); On 97 102 (St 2)]);
    (2, [On 48 57 (St 454); On 65 70 (St 454); On 97 102 (St 454)]);
    (3, [On 48 57 (St 4); On 65 70 (St 4); On 97 102 (St 4)]);
    (4, [On 48 57 (St 452); On 65 70 (St 452); On 97 102 (St 452)]);
    (455, [On (-128) (-1) (St 455); Ch 33 (St 455); Ch 35 (St 453); Ch 36 (St 455); Ch 37 (St 5); On 38 59 (St 455);
      Ch 61 (St 455); Ch 63 (St 456); On 64 90 (St 455); Ch 95 (St 455); On 97 122 (St 455); Ch 126 (St 455)]) ].

Definition uri_states_4 : table :=
  [
    (5, [On 48 57 (St 6); On 65 70 (St 6); On 97 102 (St 6)]);
    (6, [On 48 57 (St 455); On 65 70 (St 455); On 97 102 (St 455)]) ].

Definition uri_states_5 : table :=
  [
    (456, [On (-128) (-1) (Tr 466); Ch 33 (Tr 466); Ch 35 (Tr 467); Ch 36 (Tr 466); Ch 37 (Tr 468);
      On 38 59 (Tr 466); Ch 61 (Tr 466); On 63 90 (Tr 466); Ch 95 (Tr 466); On 97 122 (Tr 466); Ch 126 (Tr 466)]) ].

Definition uri_states_6 : table :=
  [
    (457, [On (-128) (-1) (St 457); Ch 33 (St 457); Ch 35 (Tr 469); Ch 36 (St 457); Ch 37 (St 7); On 38 59 (St 457);
      Ch 61 (St 457); On 63 90 (St 457); Ch 95 (St 457); On 97 122 (St 457); Ch 126 (St 457)]);
    (7, [On 48 57 (St 8); On 65 70 (St 8); On 97 102 (St 8)]);
    (8, [On 48 57 (St 457); On 65 70 (St 457); On 97 102 (St 457)]);
    (458, [On (-128) (-1) (St 455); Ch 33 (St 455); Ch 35 (St 453); Ch 36 (St 455); Ch 37 (St 5); On 38 46 (St 455);
      Ch 47 (St 459); On 48 59 (St 455); Ch 61 (St 455); Ch 63 (St 456); On 64 90 (St 455); Ch 95 (St 455);
      On 97 122 (St 455); Ch 126 (St 455)]);
    (459, [Ch 2 (Tr 472); Ch 33 (Tr 473); Ch 35 (Tr 474); Ch 36 (Tr 473); Ch 37 (Tr 475); On 38 46 (Tr 473);
      Ch 47 (Tr 476); Ch 48 (Tr 477); Ch 49 (Tr 478); Ch 50 (Tr 479); On 51 57 (Tr 480); Ch 58 (Tr 481);
      Ch 59 (Tr 473); Ch 61 (Tr 473); Ch 63 (Tr 482); Ch 64 (Tr 483); On 65 90 (Tr 473); Ch 91 (Tr 484);
      Ch 95 (Tr 473); On 97 122 (Tr 473); Ch 126 (Tr 473)]);
    (9, [On 48 52 (St 10)]);
    (10, [On 48 57 (St 11)]);
    (11, [Ch 46 (St 12)]) ].

Definition uri_states_7 : table :=
  [
    (12, [Ch 2 (St 13); Ch 48 (St 15); Ch 49 (St 27); Ch 50 (St 29); On 51 57 (St 28)]);
    (13, [On 48 52 (St 14)]);
    (14, [On 48 57 (St 15)]);
    (15, [Ch 46 (St 16)]);
    (16, [Ch 2 (St 17); Ch 48 (St 19); Ch 49 (St 23); Ch 50 (St 25); On 51 57 (St 24)]);
    (17, [On 48 52 (St 18)]);
    (18, [On 48 57 (St 19)]);
    (19, [Ch 46 (St 20)]);
    (20, [Ch 2 (St 21); Ch 48 (St 460); Ch 49 (St 463); Ch 50 (St 465); On 51 57 (St 464)]);
    (21, [On 48 52 (St 22)]);
    (22, [On 48 57 (St 460)]);
    (460, [Ch 35 (Tr 485); Ch 47 (Tr 486); Ch 58 (Tr 487); Ch 63 (Tr 488)]);
    (461, [Ch 35 (Tr 489); Ch 47 (Tr 490); On 48 57 (Tr 491); Ch 63 (Tr 492)]) ].

Definition uri_states_8 : table :=
  [
    (462, [Ch 35 (Tr 493); Ch 47 (Tr 494); On 48 57 (St 462); Ch 63 (Tr 496)]);
    (463, [Ch 35 (Tr 485); Ch 47 (Tr 486); On 48 57 (St 464); Ch 58 (Tr 487); Ch 63 (Tr 488)]);
    (464, [Ch 35 (Tr 485); Ch 47 (Tr 486); On 48 57 (St 460); Ch 58 (Tr 487); Ch 63 (Tr 488)]);
    (465, [Ch 35 (Tr 485); Ch 47 (Tr 486); On 48 52 (St 460); Ch 53 (St 466); On 54 57 (St 460); Ch 58 (Tr 487);
      Ch 63 (Tr 488)]);
    (466, [Ch 35 (Tr 485); Ch 47 (Tr 486); On 48 53 (St 460); Ch 58 (Tr 487); Ch 63 (Tr 488)]);
    (23, [Ch 46 (St 20); On 48 57 (St 24)]);
    (24, [Ch 46 (St 20); On 48 57 (St 19)]);
    (25, [Ch 46 (St 20); On 48 52 (St 19); Ch 53 (St 26); On 54 57 (St 19)]);
    (26, [Ch 46 (St 20); On 48 53 (St 19)]);
    (27, [Ch 46 (St 16); On 48 57 (St 28)]);
    (28, [Ch 46 (St 16); On 48 57 (St 15)]);
    (29, [Ch 46 (St 16); On 48 52 (St 15); Ch 53 (St 30); On 54 57 (St 15)]);
    (30, [Ch 46 (St 16); On 48 53 (St 15)]) ].

Definition uri_states_9 : table :=
  [
    (467, [Ch 33 (St 467); Ch 35 (Tr 485); Ch 36 (St 467); Ch 37 (St 31); On 38 46 (St 467); Ch 47 (Tr 486);
      On 48 57 (St 467); Ch 58 (Tr 499); Ch 59 (St 467); Ch 61 (St 467); Ch 63 (Tr 488); Ch 64 (Tr 38);
      On 65 90 (St 467); Ch 95 (St 467); On 97 122 (St 467); Ch 126 (St 467)]);
    (31, [On 48 57 (St 32); On 65 70 (St 32); On 97 102 (St 32)]);
    (32, [On 48 57 (St 467); On 65 70 (St 467); On 97 102 (St 467)]);
    (468, [Ch 33 (St 33); Ch 35 (Tr 489); Ch 36 (St 33); Ch 37 (St 34); On 38 46 (St 33); Ch 47 (Tr 490);
      On 48 57 (Tr 500); On 58 59 (St 33); Ch 61 (St 33); Ch 63 (Tr 492); Ch 64 (Tr 38); On 65 90 (St 33);
      Ch 95 (St 33); On 97 122 (St 33); Ch 126 (St 33)]);
    (33, [Ch 33 (St 33); Ch 36 (St 33); Ch 37 (St 34); On 38 46 (St 33); On 48 59 (St 33); Ch 61 (St 33);
      Ch 64 (Tr 38); On 65 90 (St 33); Ch 95 (St 33); On 97 122 (St 33); Ch 126 (St 33)]);
    (34, [On 48 57 (St 35); On 65 70 (St 35); On 97 102 (St 35)]) ].

Definition uri_states_10 : table :=
  [
    (35, [On 48 57 (St 33); On 65 70 (St 33); On 97 102 (St 33)]);
    (469, [Ch 2 (Tr 472); Ch 33 (Tr 501); Ch 35 (Tr 474); Ch 36 (Tr 501); Ch 37 (Tr 502); On 38 46 (Tr 501);
      Ch 47 (Tr 476); Ch 48 (Tr 503); Ch 49 (Tr 504); Ch 50 (Tr 505); On 51 57 (Tr 506); Ch 58 (Tr 507);
      Ch 59 (Tr 501); Ch 61 (Tr 501); Ch 63 (Tr 482); On 65 90 (Tr 501); Ch 91 (Tr 484); Ch 95 (Tr 501);
      On 97 122 (Tr 501); Ch 126 (Tr 501)]);
    (470, [Ch 33 (St 470); Ch 35 (Tr 485); Ch 36 (St 470); Ch 37 (St 36); On 38 46 (St 470); Ch 47 (Tr 486);
      On 48 57 (St 470); Ch 58 (Tr 487); Ch 59 (St 470); Ch 61 (St 470); Ch 63 (Tr 488); On 65 90 (St 470);
      Ch 95 (St 470); On 97 122 (St 470); Ch 126 (St 470)]);
    (36, [On 48 57 (St 37); On 65 70 (St 37); On 97 102 (St 37)]);
    (37, [On 48 57 (St 470); On 65 70 (St 470); On 97 102 (St 470)]) ].

Definition uri_states_11 : table :=
  [
    (471, [Ch 33 (St 470); Ch 35 (Tr 485); Ch 36 (St 470); Ch 37 (St 36); On 38 45 (St 470); Ch 46 (St 472);
      Ch 47 (Tr 486); On 48 57 (St 470); Ch 58 (Tr 487); Ch 59 (St 470); Ch 61 (St 470); Ch 63 (Tr 488);
      On 65 90 (St 470); Ch 95 (St 470); On 97 122 (St 470); Ch 126 (St 470)]);
    (472, [Ch 2 (St 13); Ch 33 (St 470); Ch 35 (Tr 485); Ch 36 (St 470); Ch 37 (St 36); On 38 46 (St 470);
      Ch 47 (Tr 486); Ch 48 (St 473); Ch 49 (St 481); Ch 50 (St 483); On 51 57 (St 482); Ch 58 (Tr 487);
      Ch 59 (St 470); Ch 61 (St 470); Ch 63 (Tr 488); On 65 90 (St 470); Ch 95 (St 470); On 97 122 (St 470);
      Ch 126 (St 470)]);
    (473, [Ch 33 (St 470); Ch 35 (Tr 485); Ch 36 (St 470); Ch 37 (St 36); On 38 45 (St 470); Ch 46 (St 474);
      Ch 47 (Tr 486); On 48 57 (St 470); Ch 58 (Tr 487); Ch 59 (St 470); Ch 61 (St 470); Ch 63 (Tr 488);
      On 65 90 (St 470); Ch 95 (St 470); On 97 122 (St 470); Ch 126 (St 470)]);
    (474, [Ch 2 (St 17); Ch 33 (St 470); Ch 35 (Tr 485); Ch 36 (St 470); Ch 37 (St 36); On 38 46 (St 470);
      Ch 47 (Tr 486); Ch 48 (St 475); Ch 49 (St 477); Ch 50 (St 479); On 51 57 (St 478); Ch 58 (Tr 487);
      Ch 59 (St 470); Ch 61 (St 470); Ch 63 (Tr 488); On 65 90 (St 470); Ch 95 (St 470); On 97 122 (St 470);
      Ch 126 (St 470)]);
    (475, [Ch 33 (St 470); Ch 35 (Tr 485); Ch 36 (St 470); Ch 37 (St 36); On 38 45 (St 470); Ch 46 (St 476);
      Ch 47 (Tr 486); On 48 57 (St 470); Ch 58 (Tr 487); Ch 59 (St 470); Ch 61 (St 470); Ch 63 (Tr 488);
      On 65 90 (St 470); Ch 95 (St 470); On 97 122 (St 470); Ch 126 (St 470)]) ].

Definition uri_states_12 : table :=
  [
    (476, [Ch 2 (St 21); Ch 33 (St 470); Ch 35 (Tr 485); Ch 36 (St 470); Ch 37 (St 36); On 38 46 (St 470);
      Ch 47 (Tr 486); On 48 57 (St 470); Ch 58 (Tr 487); Ch 59 (St 470); Ch 61 (St 470); Ch 63 (Tr 488);
      On 65 90 (St 470); Ch 95 (St 470); On 97 122 (St 470); Ch 126 (St 470)]);
    (477, [Ch 33 (St 470); Ch 35 (Tr 485); Ch 36 (St 470); Ch 37 (St 36); On 38 45 (St 470); Ch 46 (St 476);
      Ch 47 (Tr 486); On 48 57 (St 478); Ch 58 (Tr 487); Ch 59 (St 470); Ch 61 (St 470); Ch 63 (Tr 488);
      On 65 90 (St 470); Ch 95 (St 470); On 97 122 (St 470); Ch 126 (St 470)]);
    (478, [Ch 33 (St 470); Ch 35 (Tr 485); Ch 36 (St 470); Ch 37 (St 36); On 38 45 (St 470); Ch 46 (St 476);
      Ch 47 (Tr 486); On 48 57 (St 475); Ch 58 (Tr 487); Ch 59 (St 470); Ch 61 (St 470); Ch 63 (Tr 488);
      On 65 90 (St 470); Ch 95 (St 470); On 97 122 (St 470); Ch 126 (St 470)]);
    (479, [Ch 33 (St 470); Ch 35 (Tr 485); Ch 36 (St 470); Ch 37 (St 36); On 38 45 (St 470); Ch 46 (St 476);
      Ch 47 (Tr 486); On 48 52 (St 475); Ch 53 (St 480); On 54 57 (St 475); Ch 58 (Tr 487); Ch 59 (St 470);
      Ch 61 (St 470); Ch 63 (Tr 488); On 65 90 (St 470); Ch 95 (St 470); On 97 122 (St 470); Ch 126 (St 470)]);
    (480, [Ch 33 (St 470); Ch 35 (Tr 485); Ch 36 (St 470); Ch 37 (St 36); On 38 45 (St 470); Ch 46 (St 476);
      Ch 47 (Tr 486); On 48 53 (St 475); On 54 57 (St 470); Ch 58 (Tr 487); Ch 59 (St 470); Ch 61 (St 470);
      Ch 63 (Tr 488); On 65 90 (St 470); Ch 95 (St 470); On 97 122 (St 470); Ch 126 (St 470)]) ].

Definition uri_states_13 : table :=
  [
    (481, [Ch 33 (St 470); Ch 35 (Tr 485); Ch 36 (St 470); Ch 37 (St 36); On 38 45 (St 470); Ch 46 (St 474);
      Ch 47 (Tr 486); On 48 57 (St 482); Ch 58 (Tr 487); Ch 59 (St 470); Ch 61 (St 470); Ch 63 (Tr 488);
      On 65 90 (St 470); Ch 95 (St 470); On 97 122 (St 470); Ch 126 (St 470)]);
    (482, [Ch 33 (St 470); Ch 35 (Tr 485); Ch 36 (St 470); Ch 37 (St 36); On 38 45 (St 470); Ch 46 (St 474);
      Ch 47 (Tr 486); On 48 57 (St 473); Ch 58 (Tr 487); Ch 59 (St 470); Ch 61 (St 470); Ch 63 (Tr 488);
      On 65 90 (St 470); Ch 95 (St 470); On 97 122 (St 470); Ch 126 (St 470)]);
    (483, [Ch 33 (St 470); Ch 35 (Tr 485); Ch 36 (St 470); Ch 37 (St 36); On 38 45 (St 470); Ch 46 (St 474);
      Ch 47 (Tr 486); On 48 52 (St 473); Ch 53 (St 484); On 54 57 (St 473); Ch 58 (Tr 487); Ch 59 (St 470);
      Ch 61 (St 470); Ch 63 (Tr 488); On 65 90 (St 470); Ch 95 (St 470); On 97 122 (St 470); Ch 126 (St 470)]);
    (484, [Ch 33 (St 470); Ch 35 (Tr 485); Ch 36 (St 470); Ch 37 (St 36); On 38 45 (St 470); Ch 46 (St 474);
      Ch 47 (Tr 486); On 48 53 (St 473); On 54 57 (St 470); Ch 58 (Tr 487); Ch 59 (St 470); Ch 61 (St 470);
      Ch 63 (Tr 488); On 65 90 (St 470); Ch 95 (St 470); On 97 122 (St 470); Ch 126 (St 470)]) ].

Definition uri_states_14 : table :=
  [
    (485, [Ch 33 (St 470); Ch 35 (Tr 485); Ch 36 (St 470); Ch 37 (St 36); On 38 45 (St 470); Ch 46 (St 472);
      Ch 47 (Tr 486); On 48 57 (St 486); Ch 58 (Tr 487); Ch 59 (St 470); Ch 61 (St 470); Ch 63 (Tr 488);
      On 65 90 (St 470); Ch 95 (St 470); On 97 122 (St 470); Ch 126 (St 470)]);
    (486, [Ch 33 (St 470); Ch 35 (Tr 485); Ch 36 (St 470); Ch 37 (St 36); On 38 45 (St 470); Ch 46 (St 472);
      Ch 47 (Tr 486); On 48 57 (St 471); Ch 58 (Tr 487); Ch 59 (St 470); Ch 61 (St 470); Ch 63 (Tr 488);
      On 65 90 (St 470); Ch 95 (St 470); On 97 122 (St 470); Ch 126 (St 470)]);
    (487, [Ch 33 (St 470); Ch 35 (Tr 485); Ch 36 (St 470); Ch 37 (St 36); On 38 45 (St 470); Ch 46 (St 472);
      Ch 47 (Tr 486); On 48 52 (St 471); Ch 53 (St 488); On 54 57 (St 471); Ch 58 (Tr 487); Ch 59 (St 470);
      Ch 61 (St 470); Ch 63 (Tr 488); On 65 90 (St 470); Ch 95 (St 470); On 97 122 (St 470); Ch 126 (St 470)]);
    (488, [Ch 33 (St 470); Ch 35 (Tr 485); Ch 36 (St 470); Ch 37 (St 36); On 38 45 (St 470); Ch 46 (St 472);
      Ch 47 (Tr 486); On 48 53 (St 471); On 54 57 (St 470); Ch 58 (Tr 487); Ch 59 (St 470); Ch 61 (St 470);
      Ch 63 (Tr 488); On 65 90 (St 470); Ch 95 (St 470); On 97 122 (St 470); Ch 126 (St 470)]) ].

Definition uri_states_15 : table :=
  [
    (38, [On 48 57 (St 39); Ch 58 (St 146); On 65 70 (St 39); On 97 102 (St 39); Ch 118 (St 225)]);
    (39, [On 48 57 (St 40); Ch 58 (St 43); On 65 70 (St 40); On 97 102 (St 40)]);
    (40, [On 48 57 (St 41); Ch 58 (St 43); On 65 70 (St 41); On 97 102 (St 41)]);
    (41, [On 48 57 (St 42); Ch 58 (St 43); On 65 70 (St 42); On 97 102 (St 42)]);
    (42, [Ch 58 (St 43)]);
    (43, [On 48 57 (St 44); Ch 58 (St 141); On 65 70 (St 44); On 97 102 (St 44)]);
    (44, [On 48 57 (St 45); Ch 58 (St 48); On 65 70 (St 45); On 97 102 (St 45)]);
    (45, [On 48 57 (St 46); Ch 58 (St 48); On 65 70 (St 46); On 97 102 (St 46)]);
    (46, [On 48 57 (St 47); Ch 58 (St 48); On 65 70 (St 47); On 97 102 (St 47)]);
    (47, [Ch 58 (St 48)]) ].

Definition uri_states_16 : table :=
  [
    (48, [On 48 57 (St 49); Ch 58 (St 136); On 65 70 (St 49); On 97 102 (St 49)]);
    (49, [On 48 57 (St 50); Ch 58 (St 53); On 65 70 (St 50); On 97 102 (St 50)]);
    (50, [On 48 57 (St 51); Ch 58 (St 53); On 65 70 (St 51); On 97 102 (St 51)]);
    (51, [On 48 57 (St 52); Ch 58 (St 53); On 65 70 (St 52); On 97 102 (St 52)]);
    (52, [Ch 58 (St 53)]);
    (53, [On 48 57 (St 54); Ch 58 (St 131); On 65 70 (St 54); On 97 102 (St 54)]);
    (54, [On 48 57 (St 55); Ch 58 (St 58); On 65 70 (St 55); On 97 102 (St 55)]);
    (55, [On 48 57 (St 56); Ch 58 (St 58); On 65 70 (St 56); On 97 102 (St 56)]);
    (56, [On 48 57 (St 57); Ch 58 (St 58); On 65 70 (St 57); On 97 102 (St 57)]);
    (57, [Ch 58 (St 58)]);
    (58, [On 48 57 (St 59); Ch 58 (St 126); On 65 70 (St 59); On 97 102 (St 59)]) ].

Definition uri_states_17 : table :=
  [
    (59, [On 48 57 (St 60); Ch 58 (St 63); On 65 70 (St 60); On 97 102 (St 60)]);
    (60, [On 48 57 (St 61); Ch 58 (St 63); On 65 70 (St 61); On 97 102 (St 61)]);
    (61, [On 48 57 (St 62); Ch 58 (St 63); On 65 70 (St 62); On 97 102 (St 62)]);
    (62, [Ch 58 (St 63)]);
    (63, [On 48 57 (St 64); Ch 58 (St 113); On 65 70 (St 64); On 97 102 (St 64)]);
    (64, [On 48 57 (St 65); Ch 58 (St 68); On 65 70 (St 65); On 97 102 (St 65)]);
    (65, [On 48 57 (St 66); Ch 58 (St 68); On 65 70 (St 66); On 97 102 (St 66)]);
    (66, [On 48 57 (St 67); Ch 58 (St 68); On 65 70 (St 67); On 97 102 (St 67)]);
    (67, [Ch 58 (St 68)]);
    (68, [Ch 2 (St 69); Ch 48 (St 96); Ch 49 (St 104); Ch 50 (St 107); On 51 57 (St 110); Ch 58 (St 111);
      On 65 70 (St 112); On 97 102 (St 112)]);
    (69, [On 48 52 (St 70)]) ].

Definition uri_states_18 : table :=
  [
    (70, [On 48 57 (St 71)]);
    (71, [Ch 46 (St 72)]);
    (72, [Ch 2 (St 73); Ch 48 (St 75); Ch 49 (St 92); Ch 50 (St 94); On 51 57 (St 93)]);
    (73, [On 48 52 (St 74)]);
    (74, [On 48 57 (St 75)]);
    (75, [Ch 46 (St 76)]);
    (76, [Ch 2 (St 77); Ch 48 (St 79); Ch 49 (St 88); Ch 50 (St 90); On 51 57 (St 89)]);
    (77, [On 48 52 (St 78)]);
    (78, [On 48 57 (St 79)]);
    (79, [Ch 46 (St 80)]);
    (80, [Ch 2 (St 81); Ch 48 (St 83); Ch 49 (St 84); Ch 50 (St 86); On 51 57 (St 85)]);
    (81, [On 48 52 (St 82)]);
    (82, [On 48 57 (St 83)]);
    (83, [Ch 93 (St 460)]);
    (84, [On 48 57 (St 85); Ch 93 (St 460)]);
    (85, [On 48 57 (St 83); Ch 93 (St 460)]);
    (86, [On 48 52 (St 83); Ch 53 (St 87); On 54 57 (St 83); Ch 93 (St 460)]) ].

Definition uri_states_19 : table :=
  [
    (87, [On 48 53 (St 83); Ch 93 (St 460)]);
    (88, [Ch 46 (St 80); On 48 57 (St 89)]);
    (89, [Ch 46 (St 80); On 48 57 (St 79)]);
    (90, [Ch 46 (St 80); On 48 52 (St 79); Ch 53 (St 91); On 54 57 (St 79)]);
    (91, [Ch 46 (St 80); On 48 53 (St 79)]);
    (92, [Ch 46 (St 76); On 48 57 (St 93)]);
    (93, [Ch 46 (St 76); On 48 57 (St 75)]);
    (94, [Ch 46 (St 76); On 48 52 (St 75); Ch 53 (St 95); On 54 57 (St 75)]);
    (95, [Ch 46 (St 76); On 48 53 (St 75)]);
    (96, [Ch 46 (St 72); On 48 57 (St 97); Ch 58 (St 100); On 65 70 (St 97); On 97 102 (St 97)]);
    (97, [On 48 57 (St 98); Ch 58 (St 100); On 65 70 (St 98); On 97 102 (St 98)]);
    (98, [On 48 57 (St 99); Ch 58 (St 100); On 65 70 (St 99); On 97 102 (St 99)]);
    (99, [Ch 58 (St 100)]) ].

Definition uri_states_20 : table :=
  [
    (100, [On 48 57 (St 101); Ch 58 (St 83); On 65 70 (St 101); On 97 102 (St 101)]);
    (101, [On 48 57 (St 102); On 65 70 (St 102); Ch 93 (St 460); On 97 102 (St 102)]);
    (102, [On 48 57 (St 103); On 65 70 (St 103); Ch 93 (St 460); On 97 102 (St 103)]);
    (103, [On 48 57 (St 83); On 65 70 (St 83); Ch 93 (St 460); On 97 102 (St 83)]);
    (104, [Ch 46 (St 72); On 48 57 (St 105); Ch 58 (St 100); On 65 70 (St 97); On 97 102 (St 97)]);
    (105, [Ch 46 (St 72); On 48 57 (St 106); Ch 58 (St 100); On 65 70 (St 98); On 97 102 (St 98)]);
    (106, [Ch 46 (St 72); On 48 57 (St 99); Ch 58 (St 100); On 65 70 (St 99); On 97 102 (St 99)]);
    (107, [Ch 46 (St 72); On 48 52 (St 108); Ch 53 (St 109); On 54 57 (St 108); Ch 58 (St 100); On 65 70 (St 97);
      On 97 102 (St 97)]);
    (108, [Ch 46 (St 72); On 48 57 (St 98); Ch 58 (St 100); On 65 70 (St 98); On 97 102 (St 98)]) ].

Definition uri_states_21 : table :=
  [
    (109, [Ch 46 (St 72); On 48 53 (St 106); On 54 57 (St 98); Ch 58 (St 100); On 65 70 (St 98); On 97 102 (St 98)]);
    (110, [Ch 46 (St 72); On 48 57 (St 108); Ch 58 (St 100); On 65 70 (St 97); On 97 102 (St 97)]);
    (111, [On 48 57 (St 101); On 65 70 (St 101); On 97 102 (St 101)]);
    (112, [On 48 57 (St 97); Ch 58 (St 100); On 65 70 (St 97); On 97 102 (St 97)]);
    (113, [Ch 2 (St 69); Ch 48 (St 114); Ch 49 (St 118); Ch 50 (St 121); On 51 57 (St 124); On 65 70 (St 125);
      On 97 102 (St 125)]);
    (114, [Ch 46 (St 72); On 48 57 (St 115); Ch 58 (St 111); On 65 70 (St 115); On 97 102 (St 115)]);
    (115, [On 48 57 (St 116); Ch 58 (St 111); On 65 70 (St 116); On 97 102 (St 116)]);
    (116, [On 48 57 (St 117); Ch 58 (St 111); On 65 70 (St 117); On 97 102 (St 117)]);
    (117, [Ch 58 (St 111)]) ].

Definition uri_states_22 : table :=
  [
    (118, [Ch 46 (St 72); On 48 57 (St 119); Ch 58 (St 111); On 65 70 (St 115); On 97 102 (St 115)]);
    (119, [Ch 46 (St 72); On 48 57 (St 120); Ch 58 (St 111); On 65 70 (St 116); On 97 102 (St 116)]);
    (120, [Ch 46 (St 72); On 48 57 (St 117); Ch 58 (St 111); On 65 70 (St 117); On 97 102 (St 117)]);
    (121, [Ch 46 (St 72); On 48 52 (St 122); Ch 53 (St 123); On 54 57 (St 122); Ch 58 (St 111); On 65 70 (St 115);
      On 97 102 (St 115)]);
    (122, [Ch 46 (St 72); On 48 57 (St 116); Ch 58 (St 111); On 65 70 (St 116); On 97 102 (St 116)]);
    (123, [Ch 46 (St 72); On 48 53 (St 120); On 54 57 (St 116); Ch 58 (St 111); On 65 70 (St 116); On 97 102 (St 116)]);
    (124, [Ch 46 (St 72); On 48 57 (St 122); Ch 58 (St 111); On 65 70 (St 115); On 97 102 (St 115)]);
    (125, [On 48 57 (St 115); Ch 58 (St 111); On 65 70 (St 115); On 97 102 (St 115)]) ].

Definition uri_states_23 : table :=
  [
    (126, [On 48 57 (St 127); On 65 70 (St 127); On 97 102 (St 127)]);
    (127, [On 48 57 (St 128); Ch 58 (St 113); On 65 70 (St 128); On 97 102 (St 128)]);
    (128, [On 48 57 (St 129); Ch 58 (St 113); On 65 70 (St 129); On 97 102 (St 129)]);
    (129, [On 48 57 (St 130); Ch 58 (St 113); On 65 70 (St 130); On 97 102 (St 130)]);
    (130, [Ch 58 (St 113)]);
    (131, [On 48 57 (St 132); On 65 70 (St 132); On 97 102 (St 132)]);
    (132, [On 48 57 (St 133); Ch 58 (St 126); On 65 70 (St 133); On 97 102 (St 133)]);
    (133, [On 48 57 (St 134); Ch 58 (St 126); On 65 70 (St 134); On 97 102 (St 134)]);
    (134, [On 48 57 (St 135); Ch 58 (St 126); On 65 70 (St 135); On 97 102 (St 135)]);
    (135, [Ch 58 (St 126)]);
    (136, [On 48 57 (St 137); On 65 70 (St 137); On 97 102 (St 137)]) ].

Definition uri_states_24 : table :=
  [
    (137, [On 48 57 (St 138); Ch 58 (St 131); On 65 70 (St 138); On 97 102 (St 138)]);
    (138, [On 48 57 (St 139); Ch 58 (St 131); On 65 70 (St 139); On 97 102 (St 139)]);
    (139, [On 48 57 (St 140); Ch 58 (St 131); On 65 70 (St 140); On 97 102 (St 140)]);
    (140, [Ch 58 (St 131)]);
    (141, [On 48 57 (St 142); On 65 70 (St 142); On 97 102 (St 142)]);
    (142, [On 48 57 (St 143); Ch 58 (St 136); On 65 70 (St 143); On 97 102 (St 143)]);
    (143, [On 48 57 (St 144); Ch 58 (St 136); On 65 70 (St 144); On 97 102 (St 144)]);
    (144, [On 48 57 (St 145); Ch 58 (St 136); On 65 70 (St 145); On 97 102 (St 145)]);
    (145, [Ch 58 (St 136)]);
    (146, [Ch 58 (St 147)]);
    (147, [Ch 2 (St 69); Ch 48 (St 148); Ch 49 (St 217); Ch 50 (St 220); On 51 57 (St 223); On 65 70 (St 224);
      Ch 93 (St 460); On 97 102 (St 224)]) ].

Definition uri_states_25 : table :=
  [
    (148, [Ch 46 (St 72); On 48 57 (St 149); Ch 58 (St 152); On 65 70 (St 149); Ch 93 (St 460); On 97 102 (St 149)]);
    (149, [On 48 57 (St 150); Ch 58 (St 152); On 65 70 (St 150); Ch 93 (St 460); On 97 102 (St 150)]);
    (150, [On 48 57 (St 151); Ch 58 (St 152); On 65 70 (St 151); Ch 93 (St 460); On 97 102 (St 151)]);
    (151, [Ch 58 (St 152); Ch 93 (St 460)]);
    (152, [Ch 2 (St 69); Ch 48 (St 153); Ch 49 (St 209); Ch 50 (St 212); On 51 57 (St 215); On 65 70 (St 216);
      On 97 102 (St 216)]);
    (153, [Ch 46 (St 72); On 48 57 (St 154); Ch 58 (St 157); On 65 70 (St 154); Ch 93 (St 460); On 97 102 (St 154)]);
    (154, [On 48 57 (St 155); Ch 58 (St 157); On 65 70 (St 155); Ch 93 (St 460); On 97 102 (St 155)]);
    (155, [On 48 57 (St 156); Ch 58 (St 157); On 65 70 (St 156); Ch 93 (St 460); On 97 102 (St 156)]);
    (156, [Ch 58 (St 157); Ch 93 (St 460)]) ].

Definition uri_states_26 : table :=
  [
    (157, [Ch 2 (St 69); Ch 48 (St 158); Ch 49 (St 201); Ch 50 (St 204); On 51 57 (St 207); On 65 70 (St 208);
      On 97 102 (St 208)]);
    (158, [Ch 46 (St 72); On 48 57 (St 159); Ch 58 (St 162); On 65 70 (St 159); Ch 93 (St 460); On 97 102 (St 159)]);
    (159, [On 48 57 (St 160); Ch 58 (St 162); On 65 70 (St 160); Ch 93 (St 460); On 97 102 (St 160)]);
    (160, [On 48 57 (St 161); Ch 58 (St 162); On 65 70 (St 161); Ch 93 (St 460); On 97 102 (St 161)]);
    (161, [Ch 58 (St 162); Ch 93 (St 460)]);
    (162, [Ch 2 (St 69); Ch 48 (St 163); Ch 49 (St 193); Ch 50 (St 196); On 51 57 (St 199); On 65 70 (St 200);
      On 97 102 (St 200)]);
    (163, [Ch 46 (St 72); On 48 57 (St 164); Ch 58 (St 167); On 65 70 (St 164); Ch 93 (St 460); On 97 102 (St 164)]);
    (164, [On 48 57 (St 165); Ch 58 (St 167); On 65 70 (St 165); Ch 93 (St 460); On 97 102 (St 165)]) ].

Definition uri_states_27 : table :=
  [
    (165, [On 48 57 (St 166); Ch 58 (St 167); On 65 70 (St 166); Ch 93 (St 460); On 97 102 (St 166)]);
    (166, [Ch 58 (St 167); Ch 93 (St 460)]);
    (167, [Ch 2 (St 69); Ch 48 (St 168); Ch 49 (St 185); Ch 50 (St 188); On 51 57 (St 191); On 65 70 (St 192);
      On 97 102 (St 192)]);
    (168, [Ch 46 (St 72); On 48 57 (St 169); Ch 58 (St 172); On 65 70 (St 169); Ch 93 (St 460); On 97 102 (St 169)]);
    (169, [On 48 57 (St 170); Ch 58 (St 172); On 65 70 (St 170); Ch 93 (St 460); On 97 102 (St 170)]);
    (170, [On 48 57 (St 171); Ch 58 (St 172); On 65 70 (St 171); Ch 93 (St 460); On 97 102 (St 171)]);
    (171, [Ch 58 (St 172); Ch 93 (St 460)]);
    (172, [Ch 2 (St 69); Ch 48 (St 173); Ch 49 (St 177); Ch 50 (St 180); On 51 57 (St 183); On 65 70 (St 184);
      On 97 102 (St 184)]);
    (173, [Ch 46 (St 72); On 48 57 (St 174); Ch 58 (St 111); On 65 70 (St 174); Ch 93 (St 460); On 97 102 (St 174)]) ].

Definition uri_states_28 : table :=
  [
    (174, [On 48 57 (St 175); Ch 58 (St 111); On 65 70 (St 175); Ch 93 (St 460); On 97 102 (St 175)]);
    (175, [On 48 57 (St 176); Ch 58 (St 111); On 65 70 (St 176); Ch 93 (St 460); On 97 102 (St 176)]);
    (176, [Ch 58 (St 111); Ch 93 (St 460)]);
    (177, [Ch 46 (St 72); On 48 57 (St 178); Ch 58 (St 111); On 65 70 (St 174); Ch 93 (St 460); On 97 102 (St 174)]);
    (178, [Ch 46 (St 72); On 48 57 (St 179); Ch 58 (St 111); On 65 70 (St 175); Ch 93 (St 460); On 97 102 (St 175)]);
    (179, [Ch 46 (St 72); On 48 57 (St 176); Ch 58 (St 111); On 65 70 (St 176); Ch 93 (St 460); On 97 102 (St 176)]);
    (180, [Ch 46 (St 72); On 48 52 (St 181); Ch 53 (St 182); On 54 57 (St 181); Ch 58 (St 111); On 65 70 (St 174);
      Ch 93 (St 460); On 97 102 (St 174)]);
    (181, [Ch 46 (St 72); On 48 57 (St 175); Ch 58 (St 111); On 65 70 (St 175); Ch 93 (St 460); On 97 102 (St 175)]) ].

Definition uri_states_29 : table :=
  [
    (182, [Ch 46 (St 72); On 48 53 (St 179); On 54 57 (St 175); Ch 58 (St 111); On 65 70 (St 175); Ch 93 (St 460);
      On 97 102 (St 175)]);
    (183, [Ch 46 (St 72); On 48 57 (St 181); Ch 58 (St 111); On 65 70 (St 174); Ch 93 (St 460); On 97 102 (St 174)]);
    (184, [On 48 57 (St 174); Ch 58 (St 111); On 65 70 (St 174); Ch 93 (St 460); On 97 102 (St 174)]);
    (185, [Ch 46 (St 72); On 48 57 (St 186); Ch 58 (St 172); On 65 70 (St 169); Ch 93 (St 460); On 97 102 (St 169)]);
    (186, [Ch 46 (St 72); On 48 57 (St 187); Ch 58 (St 172); On 65 70 (St 170); Ch 93 (St 460); On 97 102 (St 170)]);
    (187, [Ch 46 (St 72); On 48 57 (St 171); Ch 58 (St 172); On 65 70 (St 171); Ch 93 (St 460); On 97 102 (St 171)]);
    (188, [Ch 46 (St 72); On 48 52 (St 189); Ch 53 (St 190); On 54 57 (St 189); Ch 58 (St 172); On 65 70 (St 169);
      Ch 93 (St 460); On 97 102 (St 169)]);
    (189, [Ch 46 (St 72); On 48 57 (St 170); Ch 58 (St 172); On 65 70 (St 170); Ch 93 (St 460); On 97 102 (St 170)]) ].

Definition uri_states_30 : table :=
  [
    (190, [Ch 46 (St 72); On 48 53 (St 187); On 54 57 (St 170); Ch 58 (St 172); On 65 70 (St 170); Ch 93 (St 460);
      On 97 102 (St 170)]);
    (191, [Ch 46 (St 72); On 48 57 (St 189); Ch 58 (St 172); On 65 70 (St 169); Ch 93 (St 460); On 97 102 (St 169)]);
    (192, [On 48 57 (St 169); Ch 58 (St 172); On 65 70 (St 169); Ch 93 (St 460); On 97 102 (St 169)]);
    (193, [Ch 46 (St 72); On 48 57 (St 194); Ch 58 (St 167); On 65 70 (St 164); Ch 93 (St 460); On 97 102 (St 164)]);
    (194, [Ch 46 (St 72); On 48 57 (St 195); Ch 58 (St 167); On 65 70 (St 165); Ch 93 (St 460); On 97 102 (St 165)]);
    (195, [Ch 46 (St 72); On 48 57 (St 166); Ch 58 (St 167); On 65 70 (St 166); Ch 93 (St 460); On 97 102 (St 166)]);
    (196, [Ch 46 (St 72); On 48 52 (St 197); Ch 53 (St 198); On 54 57 (St 197); Ch 58 (St 167); On 65 70 (St 164);
      Ch 93 (St 460); On 97 102 (St 164)]);
    (197, [Ch 46 (St 72); On 48 57 (St 165); Ch 58 (St 167); On 65 70 (St 165); Ch 93 (St 460); On 97 102 (St 165)]) ].

Definition uri_states_31 : table :=
  [
    (198, [Ch 46 (St 72); On 48 53 (St 195); On 54 57 (St 165); Ch 58 (St 167); On 65 70 (St 165); Ch 93 (St 460);
      On 97 102 (St 165)]);
    (199, [Ch 46 (St 72); On 48 57 (St 197); Ch 58 (St 167); On 65 70 (St 164); Ch 93 (St 460); On 97 102 (St 164)]);
    (200, [On 48 57 (St 164); Ch 58 (St 167); On 65 70 (St 164); Ch 93 (St 460); On 97 102 (St 164)]);
    (201, [Ch 46 (St 72); On 48 57 (St 202); Ch 58 (St 162); On 65 70 (St 159); Ch 93 (St 460); On 97 102 (St 159)]);
    (202, [Ch 46 (St 72); On 48 57 (St 203); Ch 58 (St 162); On 65 70 (St 160); Ch 93 (St 460); On 97 102 (St 160)]);
    (203, [Ch 46 (St 72); On 48 57 (St 161); Ch 58 (St 162); On 65 70 (St 161); Ch 93 (St 460); On 97 102 (St 161)]);
    (204, [Ch 46 (St 72); On 48 52 (St 205); Ch 53 (St 206); On 54 57 (St 205); Ch 58 (St 162); On 65 70 (St 159);
      Ch 93 (St 460); On 97 102 (St 159)]);
    (205, [Ch 46 (St 72); On 48 57 (St 160); Ch 58 (St 162); On 65 70 (St 160); Ch 93 (St 460); On 97 102 (St 160)]) ].

Definition uri_states_32 : table :=
  [
    (206, [Ch 46 (St 72); On 48 53 (St 203); On 54 57 (St 160); Ch 58 (St 162); On 65 70 (St 160); Ch 93 (St 460);
      On 97 102 (St 160)]);
    (207, [Ch 46 (St 72); On 48 57 (St 205); Ch 58 (St 162); On 65 70 (St 159); Ch 93 (St 460); On 97 102 (St 159)]);
    (208, [On 48 57 (St 159); Ch 58 (St 162); On 65 70 (St 159); Ch 93 (St 460); On 97 102 (St 159)]);
    (209, [Ch 46 (St 72); On 48 57 (St 210); Ch 58 (St 157); On 65 70 (St 154); Ch 93 (St 460); On 97 102 (St 154)]);
    (210, [Ch 46 (St 72); On 48 57 (St 211); Ch 58 (St 157); On 65 70 (St 155); Ch 93 (St 460); On 97 102 (St 155)]);
    (211, [Ch 46 (St 72); On 48 57 (St 156); Ch 58 (St 157); On 65 70 (St 156); Ch 93 (St 460); On 97 102 (St 156)]);
    (212, [Ch 46 (St 72); On 48 52 (St 213); Ch 53 (St 214); On 54 57 (St 213); Ch 58 (St 157); On 65 70 (St 154);
      Ch 93 (St 460); On 97 102 (St 154)]);
    (213, [Ch 46 (St 72); On 48 57 (St 155); Ch 58 (St 157); On 65 70 (St 155); Ch 93 (St 460); On 97 102 (St 155)]) ].

Definition uri_states_33 : table :=
  [
    (214, [Ch 46 (St 72); On 48 53 (St 211); On 54 57 (St 155); Ch 58 (St 157); On 65 70 (St 155); Ch 93 (St 460);
      On 97 102 (St 155)]);
    (215, [Ch 46 (St 72); On 48 57 (St 213); Ch 58 (St 157); On 65 70 (St 154); Ch 93 (St 460); On 97 102 (St 154)]);
    (216, [On 48 57 (St 154); Ch 58 (St 157); On 65 70 (St 154); Ch 93 (St 460); On 97 102 (St 154)]);
    (217, [Ch 46 (St 72); On 48 57 (St 218); Ch 58 (St 152); On 65 70 (St 149); Ch 93 (St 460); On 97 102 (St 149)]);
    (218, [Ch 46 (St 72); On 48 57 (St 219); Ch 58 (St 152); On 65 70 (St 150); Ch 93 (St 460); On 97 102 (St 150)]);
    (219, [Ch 46 (St 72); On 48 57 (St 151); Ch 58 (St 152); On 65 70 (St 151); Ch 93 (St 460); On 97 102 (St 151)]);
    (220, [Ch 46 (St 72); On 48 52 (St 221); Ch 53 (St 222); On 54 57 (St 221); Ch 58 (St 152); On 65 70 (St 149);
      Ch 93 (St 460); On 97 102 (St 149)]);
    (221, [Ch 46 (St 72); On 48 57 (St 150); Ch 58 (St 152); On 65 70 (St 150); Ch 93 (St 460); On 97 102 (St 150)]) ].

Definition uri_states_34 : table :=
  [
    (222, [Ch 46 (St 72); On 48 53 (St 219); On 54 57 (St 150); Ch 58 (St 152); On 65 70 (St 150); Ch 93 (St 460);
      On 97 102 (St 150)]);
    (223, [Ch 46 (St 72); On 48 57 (St 221); Ch 58 (St 152); On 65 70 (St 149); Ch 93 (St 460); On 97 102 (St 149)]);
    (224, [On 48 57 (St 149); Ch 58 (St 152); On 65 70 (St 149); Ch 93 (St 460); On 97 102 (St 149)]);
    (225, [On 48 57 (St 226); On 65 70 (St 226); On 97 102 (St 226)]);
    (226, [Ch 46 (St 227); On 48 57 (St 226); On 65 70 (St 226); On 97 102 (St 226)]);
    (227, [Ch 33 (St 228); Ch 36 (St 228); On 38 46 (St 228); On 48 59 (St 228); Ch 61 (St 228); On 65 90 (St 228);
      Ch 95 (St 228); On 97 122 (St 228); Ch 126 (St 228)]);
    (228, [Ch 33 (St 228); Ch 36 (St 228); On 38 46 (St 228); On 48 59 (St 228); Ch 61 (St 228); On 65 90 (St 228);
      Ch 93 (St 460); Ch 95 (St 228); On 97 122 (St 228); Ch 126 (St 228)]) ].

Definition uri_states_35 : table :=
  [
    (489, [Ch 33 (St 33); Ch 35 (Tr 493); Ch 36 (St 33); Ch 37 (St 34); On 38 46 (St 33); Ch 47 (Tr 494);
      On 48 57 (St 489); On 58 59 (St 33); Ch 61 (St 33); Ch 63 (Tr 496); Ch 64 (Tr 38); On 65 90 (St 33);
      Ch 95 (St 33); On 97 122 (St 33); Ch 126 (St 33)]);
    (490, [Ch 33 (St 467); Ch 35 (Tr 485); Ch 36 (St 467); Ch 37 (St 31); On 38 45 (St 467); Ch 46 (St 491);
      Ch 47 (Tr 486); On 48 57 (St 467); Ch 58 (Tr 499); Ch 59 (St 467); Ch 61 (St 467); Ch 63 (Tr 488);
      Ch 64 (Tr 38); On 65 90 (St 467); Ch 95 (St 467); On 97 122 (St 467); Ch 126 (St 467)]);
    (491, [Ch 2 (St 13); Ch 33 (St 467); Ch 35 (Tr 485); Ch 36 (St 467); Ch 37 (St 31); On 38 46 (St 467);
      Ch 47 (Tr 486); Ch 48 (St 492); Ch 49 (St 500); Ch 50 (St 502); On 51 57 (St 501); Ch 58 (Tr 499);
      Ch 59 (St 467); Ch 61 (St 467); Ch 63 (Tr 488); Ch 64 (Tr 38); On 65 90 (St 467); Ch 95 (St 467);
      On 97 122 (St 467); Ch 126 (St 467)]);
    (492, [Ch 33 (St 467); Ch 35 (Tr 485); Ch 36 (St 467); Ch 37 (St 31); On 38 45 (St 467); Ch 46 (St 493);
      Ch 47 (Tr 486); On 48 57 (St 467); Ch 58 (Tr 499); Ch 59 (St 467); Ch 61 (St 467); Ch 63 (Tr 488);
      Ch 64 (Tr 38); On 65 90 (St 467); Ch 95 (St 467); On 97 122 (St 467); Ch 126 (St 467)]) ].

Definition uri_states_36 : table :=
  [
    (493, [Ch 2 (St 17); Ch 33 (St 467); Ch 35 (Tr 485); Ch 36 (St 467); Ch 37 (St 31); On 38 46 (St 467);
      Ch 47 (Tr 486); Ch 48 (St 494); Ch 49 (St 496); Ch 50 (St 498); On 51 57 (St 497); Ch 58 (Tr 499);
      Ch 59 (St 467); Ch 61 (St 467); Ch 63 (Tr 488); Ch 64 (Tr 38); On 65 90 (St 467); Ch 95 (St 467);
      On 97 122 (St 467); Ch 126 (St 467)]);
    (494, [Ch 33 (St 467); Ch 35 (Tr 485); Ch 36 (St 467); Ch 37 (St 31); On 38 45 (St 467); Ch 46 (St 495);
      Ch 47 (Tr 486); On 48 57 (St 467); Ch 58 (Tr 499); Ch 59 (St 467); Ch 61 (St 467); Ch 63 (Tr 488);
      Ch 64 (Tr 38); On 65 90 (St 467); Ch 95 (St 467); On 97 122 (St 467); Ch 126 (St 467)]);
    (495, [Ch 2 (St 21); Ch 33 (St 467); Ch 35 (Tr 485); Ch 36 (St 467); Ch 37 (St 31); On 38 46 (St 467);
      Ch 47 (Tr 486); On 48 57 (St 467); Ch 58 (Tr 499); Ch 59 (St 467); Ch 61 (St 467); Ch 63 (Tr 488);
      Ch 64 (Tr 38); On 65 90 (St 467); Ch 95 (St 467); On 97 122 (St 467); Ch 126 (St 467)]);
    (496, [Ch 33 (St 467); Ch 35 (Tr 485); Ch 36 (St 467); Ch 37 (St 31); On 38 45 (St 467); Ch 46 (St 495);
      Ch 47 (Tr 486); On 48 57 (St 497); Ch 58 (Tr 499); Ch 59 (St 467); Ch 61 (St 467); Ch 63 (Tr 488);
      Ch 64 (Tr 38); On 65 90 (St 467); Ch 95 (St 467); On 97 122 (St 467); Ch 126 (St 467)]);
    (497, [Ch 33 (St 467); Ch 35 (Tr 485); Ch 36 (St 467); Ch 37 (St 31); On 38 45 (St 467); Ch 46 (St 495);
      Ch 47 (Tr 486); On 48 57 (St 494); Ch 58 (Tr 499); Ch 59 (St 467); Ch 61 (St 467); Ch 63 (Tr 488);
      Ch 64 (Tr 38); On 65 90 (St 467); Ch 95 (St 467); On 97 122 (St 467); Ch 126 (St 467)]) ].

Definition uri_states_37 : table :=
  [
    (498, [Ch 33 (St 467); Ch 35 (Tr 485); Ch 36 (St 467); Ch 37 (St 31); On 38 45 (St 467); Ch 46 (St 495);
      Ch 47 (Tr 486); On 48 52 (St 494); Ch 53 (St 499); On 54 57 (St 494); Ch 58 (Tr 499); Ch 59 (St 467);
      Ch 61 (St 467); Ch 63 (Tr 488); Ch 64 (Tr 38); On 65 90 (St 467); Ch 95 (St 467); On 97 122 (St 467);
      Ch 126 (St 467)]);
    (499, [Ch 33 (St 467); Ch 35 (Tr 485); Ch 36 (St 467); Ch 37 (St 31); On 38 45 (St 467); Ch 46 (St 495);
      Ch 47 (Tr 486); On 48 53 (St 494); On 54 57 (St 467); Ch 58 (Tr 499); Ch 59 (St 467); Ch 61 (St 467);
      Ch 63 (Tr 488); Ch 64 (Tr 38); On 65 90 (St 467); Ch 95 (St 467); On 97 122 (St 467); Ch 126 (St 467)]);
    (500, [Ch 33 (St 467); Ch 35 (Tr 485); Ch 36 (St 467); Ch 37 (St 31); On 38 45 (St 467); Ch 46 (St 493);
      Ch 47 (Tr 486); On 48 57 (St 501); Ch 58 (Tr 499); Ch 59 (St 467); Ch 61 (St 467); Ch 63 (Tr 488);
      Ch 64 (Tr 38); On 65 90 (St 467); Ch 95 (St 467); On 97 122 (St 467); Ch 126 (St 467)]);
    (501, [Ch 33 (St 467); Ch 35 (Tr 485); Ch 36 (St 467); Ch 37 (St 31); On 38 45 (St 467); Ch 46 (St 493);
      Ch 47 (Tr 486); On 48 57 (St 492); Ch 58 (Tr 499); Ch 59 (St 467); Ch 61 (St 467); Ch 63 (Tr 488);
      Ch 64 (Tr 38); On 65 90 (St 467); Ch 95 (St 467); On 97 122 (St 467); Ch 126 (St 467)]) ].

Definition uri_states_38 : table :=
  [
    (502, [Ch 33 (St 467); Ch 35 (Tr 485); Ch 36 (St 467); Ch 37 (St 31); On 38 45 (St 467); Ch 46 (St 493);
      Ch 47 (Tr 486); On 48 52 (St 492); Ch 53 (St 503); On 54 57 (St 492); Ch 58 (Tr 499); Ch 59 (St 467);
      Ch 61 (St 467); Ch 63 (Tr 488); Ch 64 (Tr 38); On 65 90 (St 467); Ch 95 (St 467); On 97 122 (St 467);
      Ch 126 (St 467)]);
    (503, [Ch 33 (St 467); Ch 35 (Tr 485); Ch 36 (St 467); Ch 37 (St 31); On 38 45 (St 467); Ch 46 (St 493);
      Ch 47 (Tr 486); On 48 53 (St 492); On 54 57 (St 467); Ch 58 (Tr 499); Ch 59 (St 467); Ch 61 (St 467);
      Ch 63 (Tr 488); Ch 64 (Tr 38); On 65 90 (St 467); Ch 95 (St 467); On 97 122 (St 467); Ch 126 (St 467)]);
    (504, [Ch 33 (St 467); Ch 35 (Tr 485); Ch 36 (St 467); Ch 37 (St 31); On 38 45 (St 467); Ch 46 (St 491);
      Ch 47 (Tr 486); On 48 57 (St 505); Ch 58 (Tr 499); Ch 59 (St 467); Ch 61 (St 467); Ch 63 (Tr 488);
      Ch 64 (Tr 38); On 65 90 (St 467); Ch 95 (St 467); On 97 122 (St 467); Ch 126 (St 467)]);
    (505, [Ch 33 (St 467); Ch 35 (Tr 485); Ch 36 (St 467); Ch 37 (St 31); On 38 45 (St 467); Ch 46 (St 491);
      Ch 47 (Tr 486); On 48 57 (St 490); Ch 58 (Tr 499); Ch 59 (St 467); Ch 61 (St 467); Ch 63 (Tr 488);
      Ch 64 (Tr 38); On 65 90 (St 467); Ch 95 (St 467); On 97 122 (St 467); Ch 126 (St 467)]) ].

Definition uri_states_39 : table :=
  [
    (506, [Ch 33 (St 467); Ch 35 (Tr 485); Ch 36 (St 467); Ch 37 (St 31); On 38 45 (St 467); Ch 46 (St 491);
      Ch 47 (Tr 486); On 48 52 (St 490); Ch 53 (St 507); On 54 57 (St 490); Ch 58 (Tr 499); Ch 59 (St 467);
      Ch 61 (St 467); Ch 63 (Tr 488); Ch 64 (Tr 38); On 65 90 (St 467); Ch 95 (St 467); On 97 122 (St 467);
      Ch 126 (St 467)]);
    (507, [Ch 33 (St 467); Ch 35 (Tr 485); Ch 36 (St 467); Ch 37 (St 31); On 38 45 (St 467); Ch 46 (St 491);
      Ch 47 (Tr 486); On 48 53 (St 490); On 54 57 (St 467); Ch 58 (Tr 499); Ch 59 (St 467); Ch 61 (St 467);
      Ch 63 (Tr 488); Ch 64 (Tr 38); On 65 90 (St 467); Ch 95 (St 467); On 97 122 (St 467); Ch 126 (St 467)]);
    (508, [On (-128) (-1) (St 452); Ch 33 (St 452); Ch 35 (St 453); Ch 36 (St 452); Ch 37 (St 3); On 38 42 (St 452);
      Ch 43 (St 508); Ch 44 (St 452); On 45 46 (St 508); Ch 47 (St 455); On 48 57 (St 508); Ch 58 (Tr 543);
      Ch 59 (St 452); Ch 61 (St 452); Ch 63 (St 456); Ch 64 (St 452); On 65 90 (St 508); Ch 95 (St 452);
      On 97 122 (St 508); Ch 126 (St 452)]);
    (509, [On (-128) (-1) (St 455); Ch 33 (St 455); Ch 35 (St 453); Ch 36 (St 455); Ch 37 (St 5); On 38 46 (St 455);
      Ch 47 (St 510); On 48 59 (St 455); Ch 61 (St 455); Ch 63 (St 456); On 64 90 (St 455); Ch 95 (St 455);
      On 97 122 (St 455); Ch 126 (St 455)]) ].

Definition uri_states_40 : table :=
  [
    (510, [On (-128) (-1) (St 455); Ch 33 (St 455); Ch 35 (St 453); Ch 36 (St 455); Ch 37 (St 5); On 38 46 (St 455);
      Ch 47 (St 511); On 48 59 (St 455); Ch 61 (St 455); Ch 63 (St 456); On 64 90 (St 455); Ch 95 (St 455);
      On 97 122 (St 455); Ch 126 (St 455)]);
    (511, [Ch 2 (Tr 546); Ch 33 (Tr 547); Ch 35 (Tr 548); Ch 36 (Tr 547); Ch 37 (Tr 549); On 38 46 (Tr 547);
      Ch 47 (Tr 550); Ch 48 (Tr 551); Ch 49 (Tr 552); Ch 50 (Tr 553); On 51 57 (Tr 554); Ch 58 (Tr 555);
      Ch 59 (Tr 547); Ch 61 (Tr 547); Ch 63 (Tr 556); Ch 64 (Tr 557); On 65 90 (Tr 547); Ch 91 (Tr 558);
      Ch 95 (Tr 547); On 97 122 (Tr 547); Ch 126 (Tr 547)]);
    (229, [On 48 52 (St 230)]);
    (230, [On 48 57 (St 231)]);
    (231, [Ch 46 (St 232)]);
    (232, [Ch 2 (St 233); Ch 48 (St 235); Ch 49 (St 249); Ch 50 (St 251); On 51 57 (St 250)]);
    (233, [On 48 52 (St 234)]);
    (234, [On 48 57 (St 235)]);
    (235, [Ch 46 (St 236)]);
    (236, [Ch 2 (St 237); Ch 48 (St 239); Ch 49 (St 245); Ch 50 (St 247); On 51 57 (St 246)]);
    (237, [On 48 52 (St 238)]);
    (238, [On 48 57 (St 239)]) ].

Definition uri_states_41 : table :=
  [
    (239, [Ch 46 (St 240)]);
    (240, [Ch 2 (St 241); Ch 48 (St 512); Ch 49 (St 516); Ch 50 (St 518); On 51 57 (St 517)]);
    (241, [On 48 52 (St 242)]);
    (242, [On 48 57 (St 512)]);
    (512, [Ch 35 (Tr 559); Ch 47 (Tr 560); Ch 58 (Tr 561); Ch 63 (Tr 562)]);
    (513, [On (-128) (-1) (St 513); Ch 33 (St 513); Ch 35 (Tr 563); Ch 36 (St 513); Ch 37 (St 243);
      On 38 59 (St 513); Ch 61 (St 513); Ch 63 (Tr 565); On 64 90 (St 513); Ch 95 (St 513); On 97 122 (St 513);
      Ch 126 (St 513)]);
    (243, [On 48 57 (St 244); On 65 70 (St 244); On 97 102 (St 244)]);
    (244, [On 48 57 (St 513); On 65 70 (St 513); On 97 102 (St 513)]) ].

Definition uri_states_42 : table :=
  [
    (514, [Ch 35 (Tr 566); Ch 47 (Tr 567); On 48 57 (Tr 568); Ch 63 (Tr 569)]);
    (515, [Ch 35 (Tr 570); Ch 47 (Tr 571); On 48 57 (St 515); Ch 63 (Tr 573)]);
    (516, [Ch 35 (Tr 559); Ch 47 (Tr 560); On 48 57 (St 517); Ch 58 (Tr 561); Ch 63 (Tr 562)]);
    (517, [Ch 35 (Tr 559); Ch 47 (Tr 560); On 48 57 (St 512); Ch 58 (Tr 561); Ch 63 (Tr 562)]);
    (518, [Ch 35 (Tr 559); Ch 47 (Tr 560); On 48 52 (St 512); Ch 53 (St 519); On 54 57 (St 512); Ch 58 (Tr 561);
      Ch 63 (Tr 562)]);
    (519, [Ch 35 (Tr 559); Ch 47 (Tr 560); On 48 53 (St 512); Ch 58 (Tr 561); Ch 63 (Tr 562)]);
    (245, [Ch 46 (St 240); On 48 57 (St 246)]);
    (246, [Ch 46 (St 240); On 48 57 (St 239)]);
    (247, [Ch 46 (St 240); On 48 52 (St 239); Ch 53 (St 248); On 54 57 (St 239)]);
    (248, [Ch 46 (St 240); On 48 53 (St 239)]);
    (249, [Ch 46 (St 236); On 48 57 (St 250)]) ].

Definition uri_states_43 : table :=
  [
    (250, [Ch 46 (St 236); On 48 57 (St 235)]);
    (251, [Ch 46 (St 236); On 48 52 (St 235); Ch 53 (St 252); On 54 57 (St 235)]);
    (252, [Ch 46 (St 236); On 48 53 (St 235)]);
    (520, [Ch 33 (St 520); Ch 35 (Tr 559); Ch 36 (St 520); Ch 37 (St 253); On 38 46 (St 520); Ch 47 (Tr 560);
      On 48 57 (St 520); Ch 58 (Tr 576); Ch 59 (St 520); Ch 61 (St 520); Ch 63 (Tr 562); Ch 64 (Tr 263);
      On 65 90 (St 520); Ch 95 (St 520); On 97 122 (St 520); Ch 126 (St 520)]);
    (253, [On 48 57 (St 254); On 65 70 (St 254); On 97 102 (St 254)]);
    (254, [On 48 57 (St 520); On 65 70 (St 520); On 97 102 (St 520)]);
    (521, [Ch 33 (St 255); Ch 35 (Tr 566); Ch 36 (St 255); Ch 37 (St 256); On 38 46 (St 255); Ch 47 (Tr 567);
      On 48 57 (Tr 577); On 58 59 (St 255); Ch 61 (St 255); Ch 63 (Tr 569); Ch 64 (Tr 263); On 65 90 (St 255);
      Ch 95 (St 255); On 97 122 (St 255); Ch 126 (St 255)]) ].

Definition uri_states_44 : table :=
  [
    (255, [Ch 33 (St 255); Ch 36 (St 255); Ch 37 (St 256); On 38 46 (St 255); On 48 59 (St 255); Ch 61 (St 255);
      Ch 64 (Tr 263); On 65 90 (St 255); Ch 95 (St 255); On 97 122 (St 255); Ch 126 (St 255)]);
    (256, [On 48 57 (St 257); On 65 70 (St 257); On 97 102 (St 257)]);
    (257, [On 48 57 (St 255); On 65 70 (St 255); On 97 102 (St 255)]);
    (522, [Ch 2 (Tr 546); Ch 33 (Tr 578); Ch 35 (Tr 548); Ch 36 (Tr 578); Ch 37 (Tr 579); On 38 46 (Tr 578);
      Ch 47 (Tr 550); Ch 48 (Tr 580); Ch 49 (Tr 581); Ch 50 (Tr 582); On 51 57 (Tr 583); Ch 58 (Tr 584);
      Ch 59 (Tr 578); Ch 61 (Tr 578); Ch 63 (Tr 556); On 65 90 (Tr 578); Ch 91 (Tr 558); Ch 95 (Tr 578);
      On 97 122 (Tr 578); Ch 126 (Tr 578)]);
    (523, [Ch 33 (St 523); Ch 35 (Tr 559); Ch 36 (St 523); Ch 37 (St 258); On 38 46 (St 523); Ch 47 (Tr 560);
      On 48 57 (St 523); Ch 58 (Tr 561); Ch 59 (St 523); Ch 61 (St 523); Ch 63 (Tr 562); On 65 90 (St 523);
      Ch 95 (St 523); On 97 122 (St 523); Ch 126 (St 523)]) ].

Definition uri_states_45 : table :=
  [
    (258, [On 48 57 (St 259); On 65 70 (St 259); On 97 102 (St 259)]);
    (259, [On 48 57 (St 523); On 65 70 (St 523); On 97 102 (St 523)]);
    (524, [Ch 33 (St 523); Ch 35 (Tr 559); Ch 36 (St 523); Ch 37 (St 258); On 38 45 (St 523); Ch 46 (St 525);
      Ch 47 (Tr 560); On 48 57 (St 523); Ch 58 (Tr 561); Ch 59 (St 523); Ch 61 (St 523); Ch 63 (Tr 562);
      On 65 90 (St 523); Ch 95 (St 523); On 97 122 (St 523); Ch 126 (St 523)]);
    (525, [Ch 2 (St 233); Ch 33 (St 523); Ch 35 (Tr 559); Ch 36 (St 523); Ch 37 (St 258); On 38 46 (St 523);
      Ch 47 (Tr 560); Ch 48 (St 526); Ch 49 (St 534); Ch 50 (St 536); On 51 57 (St 535); Ch 58 (Tr 561);
      Ch 59 (St 523); Ch 61 (St 523); Ch 63 (Tr 562); On 65 90 (St 523); Ch 95 (St 523); On 97 122 (St 523);
      Ch 126 (St 523)]);
    (526, [Ch 33 (St 523); Ch 35 (Tr 559); Ch 36 (St 523); Ch 37 (St 258); On 38 45 (St 523); Ch 46 (St 527);
      Ch 47 (Tr 560); On 48 57 (St 523); Ch 58 (Tr 561); Ch 59 (St 523); Ch 61 (St 523); Ch 63 (Tr 562);
      On 65 90 (St 523); Ch 95 (St 523); On 97 122 (St 523); Ch 126 (St 523)]);
    (527, [Ch 2 (St 237); Ch 33 (St 523); Ch 35 (Tr 559); Ch 36 (St 523); Ch 37 (St 258); On 38 46 (St 523);
      Ch 47 (Tr 560); Ch 48 (St 528); Ch 49 (St 530); Ch 50 (St 532); On 51 57 (St 531); Ch 58 (Tr 561);
      Ch 59 (St 523); Ch 61 (St 523); Ch 63 (Tr 562); On 65 90 (St 523); Ch 95 (St 523); On 97 122 (St 523);
      Ch 126 (St 523)]) ].

Definition uri_states_46 : table :=
  [
    (528, [Ch 33 (St 523); Ch 35 (Tr 559); Ch 36 (St 523); Ch 37 (St 258); On 38 45 (St 523); Ch 46 (St 529);
      Ch 47 (Tr 560); On 48 57 (St 523); Ch 58 (Tr 561); Ch 59 (St 523); Ch 61 (St 523); Ch 63 (Tr 562);
      On 65 90 (St 523); Ch 95 (St 523); On 97 122 (St 523); Ch 126 (St 523)]);
    (529, [Ch 2 (St 241); Ch 33 (St 523); Ch 35 (Tr 559); Ch 36 (St 523); Ch 37 (St 258); On 38 46 (St 523);
      Ch 47 (Tr 560); On 48 57 (St 523); Ch 58 (Tr 561); Ch 59 (St 523); Ch 61 (St 523); Ch 63 (Tr 562);
      On 65 90 (St 523); Ch 95 (St 523); On 97 122 (St 523); Ch 126 (St 523)]);
    (530, [Ch 33 (St 523); Ch 35 (Tr 559); Ch 36 (St 523); Ch 37 (St 258); On 38 45 (St 523); Ch 46 (St 529);
      Ch 47 (Tr 560); On 48 57 (St 531); Ch 58 (Tr 561); Ch 59 (St 523); Ch 61 (St 523); Ch 63 (Tr 562);
      On 65 90 (St 523); Ch 95 (St 523); On 97 122 (St 523); Ch 126 (St 523)]);
    (531, [Ch 33 (St 523); Ch 35 (Tr 559); Ch 36 (St 523); Ch 37 (St 258); On 38 45 (St 523); Ch 46 (St 529);
      Ch 47 (Tr 560); On 48 57 (St 528); Ch 58 (Tr 561); Ch 59 (St 523); Ch 61 (St 523); Ch 63 (Tr 562);
      On 65 90 (St 523); Ch 95 (St 523); On 97 122 (St 523); Ch 126 (St 523)]);
    (532, [Ch 33 (St 523); Ch 35 (Tr 559); Ch 36 (St 523); Ch 37 (St 258); On 38 45 (St 523); Ch 46 (St 529);
      Ch 47 (Tr 560); On 48 52 (St 528); Ch 53 (St 533); On 54 57 (St 528); Ch 58 (Tr 561); Ch 59 (St 523);
      Ch 61 (St 523); Ch 63 (Tr 562); On 65 90 (St 523); Ch 95 (St 523); On 97 122 (St 523); Ch 126 (St 523)]) ].

Definition uri_states_47 : table :=
  [
    (533, [Ch 33 (St 523); Ch 35 (Tr 559); Ch 36 (St 523); Ch 37 (St 258); On 38 45 (St 523); Ch 46 (St 529);
      Ch 47 (Tr 560); On 48 53 (St 528); On 54 57 (St 523); Ch 58 (Tr 561); Ch 59 (St 523); Ch 61 (St 523);
      Ch 63 (Tr 562); On 65 90 (St 523); Ch 95 (St 523); On 97 122 (St 523); Ch 126 (St 523)]);
    (534, [Ch 33 (St 523); Ch 35 (Tr 559); Ch 36 (St 523); Ch 37 (St 258); On 38 45 (St 523); Ch 46 (St 527);
      Ch 47 (Tr 560); On 48 57 (St 535); Ch 58 (Tr 561); Ch 59 (St 523); Ch 61 (St 523); Ch 63 (Tr 562);
      On 65 90 (St 523); Ch 95 (St 523); On 97 122 (St 523); Ch 126 (St 523)]);
    (535, [Ch 33 (St 523); Ch 35 (Tr 559); Ch 36 (St 523); Ch 37 (St 258); On 38 45 (St 523); Ch 46 (St 527);
      Ch 47 (Tr 560); On 48 57 (St 526); Ch 58 (Tr 561); Ch 59 (St 523); Ch 61 (St 523); Ch 63 (Tr 562);
      On 65 90 (St 523); Ch 95 (St 523); On 97 122 (St 523); Ch 126 (St 523)]);
    (536, [Ch 33 (St 523); Ch 35 (Tr 559); Ch 36 (St 523); Ch 37 (St 258); On 38 45 (St 523); Ch 46 (St 527);
      Ch 47 (Tr 560); On 48 52 (St 526); Ch 53 (St 537); On 54 57 (St 526); Ch 58 (Tr 561); Ch 59 (St 523);
      Ch 61 (St 523); Ch 63 (Tr 562); On 65 90 (St 523); Ch 95 (St 523); On 97 122 (St 523); Ch 126 (St 523)]);
    (537, [Ch 33 (St 523); Ch 35 (Tr 559); Ch 36 (St 523); Ch 37 (St 258); On 38 45 (St 523); Ch 46 (St 527);
      Ch 47 (Tr 560); On 48 53 (St 526); On 54 57 (St 523); Ch 58 (Tr 561); Ch 59 (St 523); Ch 61 (St 523);
      Ch 63 (Tr 562); On 65 90 (St 523); Ch 95 (St 523); On 97 122 (St 523); Ch 126 (St 523)]) ].

Definition uri_states_48 : table :=
  [
    (538, [Ch 33 (St 523); Ch 35 (Tr 559); Ch 36 (St 523); Ch 37 (St 258); On 38 45 (St 523); Ch 46 (St 525);
      Ch 47 (Tr 560); On 48 57 (St 539); Ch 58 (Tr 561); Ch 59 (St 523); Ch 61 (St 523); Ch 63 (Tr 562);
      On 65 90 (St 523); Ch 95 (St 523); On 97 122 (St 523); Ch 126 (St 523)]);
    (539, [Ch 33 (St 523); Ch 35 (Tr 559); Ch 36 (St 523); Ch 37 (St 258); On 38 45 (St 523); Ch 46 (St 525);
      Ch 47 (Tr 560); On 48 57 (St 524); Ch 58 (Tr 561); Ch 59 (St 523); Ch 61 (St 523); Ch 63 (Tr 562);
      On 65 90 (St 523); Ch 95 (St 523); On 97 122 (St 523); Ch 126 (St 523)]);
    (540, [Ch 33 (St 523); Ch 35 (Tr 559); Ch 36 (St 523); Ch 37 (St 258); On 38 45 (St 523); Ch 46 (St 525);
      Ch 47 (Tr 560); On 48 52 (St 524); Ch 53 (St 541); On 54 57 (St 524); Ch 58 (Tr 561); Ch 59 (St 523);
      Ch 61 (St 523); Ch 63 (Tr 562); On 65 90 (St 523); Ch 95 (St 523); On 97 122 (St 523); Ch 126 (St 523)]);
    (541, [Ch 33 (St 523); Ch 35 (Tr 559); Ch 36 (St 523); Ch 37 (St 258); On 38 45 (St 523); Ch 46 (St 525);
      Ch 47 (Tr 560); On 48 53 (St 524); On 54 57 (St 523); Ch 58 (Tr 561); Ch 59 (St 523); Ch 61 (St 523);
      Ch 63 (Tr 562); On 65 90 (St 523); Ch 95 (St 523); On 97 122 (St 523); Ch 126 (St 523)]) ].

Definition uri_states_49 : table :=
  [
    (260, [On 48 57 (St 261); Ch 58 (St 368); On 65 70 (St 261); On 97 102 (St 261); Ch 118 (St 447)]);
    (261, [On 48 57 (St 262); Ch 58 (St 265); On 65 70 (St 262); On 97 102 (St 262)]);
    (262, [On 48 57 (St 263); Ch 58 (St 265); On 65 70 (St 263); On 97 102 (St 263)]);
    (263, [On 48 57 (St 264); Ch 58 (St 265); On 65 70 (St 264); On 97 102 (St 264)]);
    (264, [Ch 58 (St 265)]);
    (265, [On 48 57 (St 266); Ch 58 (St 363); On 65 70 (St 266); On 97 102 (St 266)]);
    (266, [On 48 57 (St 267); Ch 58 (St 270); On 65 70 (St 267); On 97 102 (St 267)]);
    (267, [On 48 57 (St 268); Ch 58 (St 270); On 65 70 (St 268); On 97 102 (St 268)]);
    (268, [On 48 57 (St 269); Ch 58 (St 270); On 65 70 (St 269); On 97 102 (St 269)]);
    (269, [Ch 58 (St 270)]) ].

Definition uri_states_50 : table :=
  [
    (270, [On 48 57 (St 271); Ch 58 (St 358); On 65 70 (St 271); On 97 102 (St 271)]);
    (271, [On 48 57 (St 272); Ch 58 (St 275); On 65 70 (St 272); On 97 102 (St 272)]);
    (272, [On 48 57 (St 273); Ch 58 (St 275); On 65 70 (St 273); On 97 102 (St 273)]);
    (273, [On 48 57 (St 274); Ch 58 (St 275); On 65 70 (St 274); On 97 102 (St 274)]);
    (274, [Ch 58 (St 275)]);
    (275, [On 48 57 (St 276); Ch 58 (St 353); On 65 70 (St 276); On 97 102 (St 276)]);
    (276, [On 48 57 (St 277); Ch 58 (St 280); On 65 70 (St 277); On 97 102 (St 277)]);
    (277, [On 48 57 (St 278); Ch 58 (St 280); On 65 70 (St 278); On 97 102 (St 278)]);
    (278, [On 48 57 (St 279); Ch 58 (St 280); On 65 70 (St 279); On 97 102 (St 279)]);
    (279, [Ch 58 (St 280)]);
    (280, [On 48 57 (St 281); Ch 58 (St 348); On 65 70 (St 281); On 97 102 (St 281)]) ].

Definition uri_states_51 : table :=
  [
    (281, [On 48 57 (St 282); Ch 58 (St 285); On 65 70 (St 282); On 97 102 (St 282)]);
    (282, [On 48 57 (St 283); Ch 58 (St 285); On 65 70 (St 283); On 97 102 (St 283)]);
    (283, [On 48 57 (St 284); Ch 58 (St 285); On 65 70 (St 284); On 97 102 (St 284)]);
    (284, [Ch 58 (St 285)]);
    (285, [On 48 57 (St 286); Ch 58 (St 335); On 65 70 (St 286); On 97 102 (St 286)]);
    (286, [On 48 57 (St 287); Ch 58 (St 290); On 65 70 (St 287); On 97 102 (St 287)]);
    (287, [On 48 57 (St 288); Ch 58 (St 290); On 65 70 (St 288); On 97 102 (St 288)]);
    (288, [On 48 57 (St 289); Ch 58 (St 290); On 65 70 (St 289); On 97 102 (St 289)]);
    (289, [Ch 58 (St 290)]);
    (290, [Ch 2 (St 291); Ch 48 (St 318); Ch 49 (St 326); Ch 50 (St 329); On 51 57 (St 332); Ch 58 (St 333);
      On 65 70 (St 334); On 97 102 (St 334)]);
    (291, [On 48 52 (St 292)]) ].

Definition uri_states_52 : table :=
  [
    (292, [On 48 57 (St 293)]);
    (293, [Ch 46 (St 294)]);
    (294, [Ch 2 (St 295); Ch 48 (St 297); Ch 49 (St 314); Ch 50 (St 316); On 51 57 (St 315)]);
    (295, [On 48 52 (St 296)]);
    (296, [On 48 57 (St 297)]);
    (297, [Ch 46 (St 298)]);
    (298, [Ch 2 (St 299); Ch 48 (St 301); Ch 49 (St 310); Ch 50 (St 312); On 51 57 (St 311)]);
    (299, [On 48 52 (St 300)]);
    (300, [On 48 57 (St 301)]);
    (301, [Ch 46 (St 302)]);
    (302, [Ch 2 (St 303); Ch 48 (St 305); Ch 49 (St 306); Ch 50 (St 308); On 51 57 (St 307)]);
    (303, [On 48 52 (St 304)]);
    (304, [On 48 57 (St 305)]);
    (305, [Ch 93 (St 512)]);
    (306, [On 48 57 (St 307); Ch 93 (St 512)]);
    (307, [On 48 57 (St 305); Ch 93 (St 512)]);
    (308, [On 48 52 (St 305); Ch 53 (St 309); On 54 57 (St 305); Ch 93 (St 512)]) ].

Definition uri_states_53 : table :=
  [
    (309, [On 48 53 (St 305); Ch 93 (St 512)]);
    (310, [Ch 46 (St 302); On 48 57 (St 311)]);
    (311, [Ch 46 (St 302); On 48 57 (St 301)]);
    (312, [Ch 46 (St 302); On 48 52 (St 301); Ch 53 (St 313); On 54 57 (St 301)]);
    (313, [Ch 46 (St 302); On 48 53 (St 301)]);
    (314, [Ch 46 (St 298); On 48 57 (St 315)]);
    (315, [Ch 46 (St 298); On 48 57 (St 297)]);
    (316, [Ch 46 (St 298); On 48 52 (St 297); Ch 53 (St 317); On 54 57 (St 297)]);
    (317, [Ch 46 (St 298); On 48 53 (St 297)]);
    (318, [Ch 46 (St 294); On 48 57 (St 319); Ch 58 (St 322); On 65 70 (St 319); On 97 102 (St 319)]);
    (319, [On 48 57 (St 320); Ch 58 (St 322); On 65 70 (St 320); On 97 102 (St 320)]);
    (320, [On 48 57 (St 321); Ch 58 (St 322); On 65 70 (St 321); On 97 102 (St 321)]);
    (321, [Ch 58 (St 322)]) ].

Definition uri_states_54 : table :=
  [
    (322, [On 48 57 (St 323); Ch 58 (St 305); On 65 70 (St 323); On 97 102 (St 323)]);
    (323, [On 48 57 (St 324); On 65 70 (St 324); Ch 93 (St 512); On 97 102 (St 324)]);
    (324, [On 48 57 (St 325); On 65 70 (St 325); Ch 93 (St 512); On 97 102 (St 325)]);
    (325, [On 48 57 (St 305); On 65 70 (St 305); Ch 93 (St 512); On 97 102 (St 305)]);
    (326, [Ch 46 (St 294); On 48 57 (St 327); Ch 58 (St 322); On 65 70 (St 319); On 97 102 (St 319)]);
    (327, [Ch 46 (St 294); On 48 57 (St 328); Ch 58 (St 322); On 65 70 (St 320); On 97 102 (St 320)]);
    (328, [Ch 46 (St 294); On 48 57 (St 321); Ch 58 (St 322); On 65 70 (St 321); On 97 102 (St 321)]);
    (329, [Ch 46 (St 294); On 48 52 (St 330); Ch 53 (St 331); On 54 57 (St 330); Ch 58 (St 322); On 65 70 (St 319);
      On 97 102 (St 319)]);
    (330, [Ch 46 (St 294); On 48 57 (St 320); Ch 58 (St 322); On 65 70 (St 320); On 97 102 (St 320)]) ].

Definition uri_states_55 : table :=
  [
    (331, [Ch 46 (St 294); On 48 53 (St 328); On 54 57 (St 320); Ch 58 (St 322); On 65 70 (St 320); On 97 102 (St 320)]);
    (332, [Ch 46 (St 294); On 48 57 (St 330); Ch 58 (St 322); On 65 70 (St 319); On 97 102 (St 319)]);
    (333, [On 48 57 (St 323); On 65 70 (St 323); On 97 102 (St 323)]);
    (334, [On 48 57 (St 319); Ch 58 (St 322); On 65 70 (St 319); On 97 102 (St 319)]);
    (335, [Ch 2 (St 291); Ch 48 (St 336); Ch 49 (St 340); Ch 50 (St 343); On 51 57 (St 346); On 65 70 (St 347);
      On 97 102 (St 347)]);
    (336, [Ch 46 (St 294); On 48 57 (St 337); Ch 58 (St 333); On 65 70 (St 337); On 97 102 (St 337)]);
    (337, [On 48 57 (St 338); Ch 58 (St 333); On 65 70 (St 338); On 97 102 (St 338)]);
    (338, [On 48 57 (St 339); Ch 58 (St 333); On 65 70 (St 339); On 97 102 (St 339)]);
    (339, [Ch 58 (St 333)]) ].

Definition uri_states_56 : table :=
  [
    (340, [Ch 46 (St 294); On 48 57 (St 341); Ch 58 (St 333); On 65 70 (St 337); On 97 102 (St 337)]);
    (341, [Ch 46 (St 294); On 48 57 (St 342); Ch 58 (St 333); On 65 70 (St 338); On 97 102 (St 338)]);
    (342, [Ch 46 (St 294); On 48 57 (St 339); Ch 58 (St 333); On 65 70 (St 339); On 97 102 (St 339)]);
    (343, [Ch 46 (St 294); On 48 52 (St 344); Ch 53 (St 345); On 54 57 (St 344); Ch 58 (St 333); On 65 70 (St 337);
      On 97 102 (St 337)]);
    (344, [Ch 46 (St 294); On 48 57 (St 338); Ch 58 (St 333); On 65 70 (St 338); On 97 102 (St 338)]);
    (345, [Ch 46 (St 294); On 48 53 (St 342); On 54 57 (St 338); Ch 58 (St 333); On 65 70 (St 338); On 97 102 (St 338)]);
    (346, [Ch 46 (St 294); On 48 57 (St 344); Ch 58 (St 333); On 65 70 (St 337); On 97 102 (St 337)]);
    (347, [On 48 57 (St 337); Ch 58 (St 333); On 65 70 (St 337); On 97 102 (St 337)]) ].

Definition uri_states_57 : table :=
  [
    (348, [On 48 57 (St 349); On 65 70 (St 349); On 97 102 (St 349)]);
    (349, [On 48 57 (St 350); Ch 58 (St 335); On 65 70 (St 350); On 97 102 (St 350)]);
    (350, [On 48 57 (St 351); Ch 58 (St 335); On 65 70 (St 351); On 97 102 (St 351)]);
    (351, [On 48 57 (St 352); Ch 58 (St 335); On 65 70 (St 352); On 97 102 (St 352)]);
    (352, [Ch 58 (St 335)]);
    (353, [On 48 57 (St 354); On 65 70 (St 354); On 97 102 (St 354)]);
    (354, [On 48 57 (St 355); Ch 58 (St 348); On 65 70 (St 355); On 97 102 (St 355)]);
    (355, [On 48 57 (St 356); Ch 58 (St 348); On 65 70 (St 356); On 97 102 (St 356)]);
    (356, [On 48 57 (St 357); Ch 58 (St 348); On 65 70 (St 357); On 97 102 (St 357)]);
    (357, [Ch 58 (St 348)]);
    (358, [On 48 57 (St 359); On 65 70 (St 359); On 97 102 (St 359)]) ].

Definition uri_states_58 : table :=
  [
    (359, [On 48 57 (St 360); Ch 58 (St 353); On 65 70 (St 360); On 97 102 (St 360)]);
    (360, [On 48 57 (St 361); Ch 58 (St 353); On 65 70 (St 361); On 97 102 (St 361)]);
    (361, [On 48 57 (St 362); Ch 58 (St 353); On 65 70 (St 362); On 97 102 (St 362)]);
    (362, [Ch 58 (St 353)]);
    (363, [On 48 57 (St 364); On 65 70 (St 364); On 97 102 (St 364)]);
    (364, [On 48 57 (St 365); Ch 58 (St 358); On 65 70 (St 365); On 97 102 (St 365)]);
    (365, [On 48 57 (St 366); Ch 58 (St 358); On 65 70 (St 366); On 97 102 (St 366)]);
    (366, [On 48 57 (St 367); Ch 58 (St 358); On 65 70 (St 367); On 97 102 (St 367)]);
    (367, [Ch 58 (St 358)]);
    (368, [Ch 58 (St 369)]);
    (369, [Ch 2 (St 291); Ch 48 (St 370); Ch 49 (St 439); Ch 50 (St 442); On 51 57 (St 445); On 65 70 (St 446);
      Ch 93 (St 512); On 97 102 (St 446)]) ].

Definition uri_states_59 : table :=
  [
    (370, [Ch 46 (St 294); On 48 57 (St 371); Ch 58 (St 374); On 65 70 (St 371); Ch 93 (St 512); On 97 102 (St 371)]);
    (371, [On 48 57 (St 372); Ch 58 (St 374); On 65 70 (St 372); Ch 93 (St 512); On 97 102 (St 372)]);
    (372, [On 48 57 (St 373); Ch 58 (St 374); On 65 70 (St 373); Ch 93 (St 512); On 97 102 (St 373)]);
    (373, [Ch 58 (St 374); Ch 93 (St 512)]);
    (374, [Ch 2 (St 291); Ch 48 (St 375); Ch 49 (St 431); Ch 50 (St 434); On 51 57 (St 437); On 65 70 (St 438);
      On 97 102 (St 438)]);
    (375, [Ch 46 (St 294); On 48 57 (St 376); Ch 58 (St 379); On 65 70 (St 376); Ch 93 (St 512); On 97 102 (St 376)]);
    (376, [On 48 57 (St 377); Ch 58 (St 379); On 65 70 (St 377); Ch 93 (St 512); On 97 102 (St 377)]);
    (377, [On 48 57 (St 378); Ch 58 (St 379); On 65 70 (St 378); Ch 93 (St 512); On 97 102 (St 378)]);
    (378, [Ch 58 (St 379); Ch 93 (St 512)]) ].

Definition uri_states_60 : table :=
  [
    (379, [Ch 2 (St 291); Ch 48 (St 380); Ch 49 (St 423); Ch 50 (St 426); On 51 57 (St 429); On 65 70 (St 430);
      On 97 102 (St 430)]);
    (380, [Ch 46 (St 294); On 48 57 (St 381); Ch 58 (St 384); On 65 70 (St 381); Ch 93 (St 512); On 97 102 (St 381)]);
    (381, [On 48 57 (St 382); Ch 58 (St 384); On 65 70 (St 382); Ch 93 (St 512); On 97 102 (St 382)]);
    (382, [On 48 57 (St 383); Ch 58 (St 384); On 65 70 (St 383); Ch 93 (St 512); On 97 102 (St 383)]);
    (383, [Ch 58 (St 384); Ch 93 (St 512)]);
    (384, [Ch 2 (St 291); Ch 48 (St 385); Ch 49 (St 415); Ch 50 (St 418); On 51 57 (St 421); On 65 70 (St 422);
      On 97 102 (St 422)]);
    (385, [Ch 46 (St 294); On 48 57 (St 386); Ch 58 (St 389); On 65 70 (St 386); Ch 93 (St 512); On 97 102 (St 386)]);
    (386, [On 48 57 (St 387); Ch 58 (St 389); On 65 70 (St 387); Ch 93 (St 512); On 97 102 (St 387)]) ].

Definition uri_states_61 : table :=
  [
    (387, [On 48 57 (St 388); Ch 58 (St 389); On 65 70 (St 388); Ch 93 (St 512); On 97 102 (St 388)]);
    (388, [Ch 58 (St 389); Ch 93 (St 512)]);
    (389, [Ch 2 (St 291); Ch 48 (St 390); Ch 49 (St 407); Ch 50 (St 410); On 51 57 (St 413); On 65 70 (St 414);
      On 97 102 (St 414)]);
    (390, [Ch 46 (St 294); On 48 57 (St 391); Ch 58 (St 394); On 65 70 (St 391); Ch 93 (St 512); On 97 102 (St 391)]);
    (391, [On 48 57 (St 392); Ch 58 (St 394); On 65 70 (St 392); Ch 93 (St 512); On 97 102 (St 392)]);
    (392, [On 48 57 (St 393); Ch 58 (St 394); On 65 70 (St 393); Ch 93 (St 512); On 97 102 (St 393)]);
    (393, [Ch 58 (St 394); Ch 93 (St 512)]);
    (394, [Ch 2 (St 291); Ch 48 (St 395); Ch 49 (St 399); Ch 50 (St 402); On 51 57 (St 405); On 65 70 (St 406);
      On 97 102 (St 406)]);
    (395, [Ch 46 (St 294); On 48 57 (St 396); Ch 58 (St 333); On 65 70 (St 396); Ch 93 (St 512); On 97 102 (St 396)]) ].

Definition uri_states_62 : table :=
  [
    (396, [On 48 57 (St 397); Ch 58 (St 333); On 65 70 (St 397); Ch 93 (St 512); On 97 102 (St 397)]);
    (397, [On 48 57 (St 398); Ch 58 (St 333); On 65 70 (St 398); Ch 93 (St 512); On 97 102 (St 398)]);
    (398, [Ch 58 (St 333); Ch 93 (St 512)]);
    (399, [Ch 46 (St 294); On 48 57 (St 400); Ch 58 (St 333); On 65 70 (St 396); Ch 93 (St 512); On 97 102 (St 396)]);
    (400, [Ch 46 (St 294); On 48 57 (St 401); Ch 58 (St 333); On 65 70 (St 397); Ch 93 (St 512); On 97 102 (St 397)]);
    (401, [Ch 46 (St 294); On 48 57 (St 398); Ch 58 (St 333); On 65 70 (St 398); Ch 93 (St 512); On 97 102 (St 398)]);
    (402, [Ch 46 (St 294); On 48 52 (St 403); Ch 53 (St 404); On 54 57 (St 403); Ch 58 (St 333); On 65 70 (St 396);
      Ch 93 (St 512); On 97 102 (St 396)]);
    (403, [Ch 46 (St 294); On 48 57 (St 397); Ch 58 (St 333); On 65 70 (St 397); Ch 93 (St 512); On 97 102 (St 397)]) ].

Definition uri_states_63 : table :=
  [
    (404, [Ch 46 (St 294); On 48 53 (St 401); On 54 57 (St 397); Ch 58 (St 333); On 65 70 (St 397); Ch 93 (St 512);
      On 97 102 (St 397)]);
    (405, [Ch 46 (St 294); On 48 57 (St 403); Ch 58 (St 333); On 65 70 (St 396); Ch 93 (St 512); On 97 102 (St 396)]);
    (406, [On 48 57 (St 396); Ch 58 (St 333); On 65 70 (St 396); Ch 93 (St 512); On 97 102 (St 396)]);
    (407, [Ch 46 (St 294); On 48 57 (St 408); Ch 58 (St 394); On 65 70 (St 391); Ch 93 (St 512); On 97 102 (St 391)]);
    (408, [Ch 46 (St 294); On 48 57 (St 409); Ch 58 (St 394); On 65 70 (St 392); Ch 93 (St 512); On 97 102 (St 392)]);
    (409, [Ch 46 (St 294); On 48 57 (St 393); Ch 58 (St 394); On 65 70 (St 393); Ch 93 (St 512); On 97 102 (St 393)]);
    (410, [Ch 46 (St 294); On 48 52 (St 411); Ch 53 (St 412); On 54 57 (St 411); Ch 58 (St 394); On 65 70 (St 391);
      Ch 93 (St 512); On 97 102 (St 391)]);
    (411, [Ch 46 (St 294); On 48 57 (St 392); Ch 58 (St 394); On 65 70 (St 392); Ch 93 (St 512); On 97 102 (St 392)]) ].

Definition uri_states_64 : table :=
  [
    (412, [Ch 46 (St 294); On 48 53 (St 409); On 54 57 (St 392); Ch 58 (St 394); On 65 70 (St 392); Ch 93 (St 512);
      On 97 102 (St 392)]);
    (413, [Ch 46 (St 294); On 48 57 (St 411); Ch 58 (St 394); On 65 70 (St 391); Ch 93 (St 512); On 97 102 (St 391)]);
    (414, [On 48 57 (St 391); Ch 58 (St 394); On 65 70 (St 391); Ch 93 (St 512); On 97 102 (St 391)]);
    (415, [Ch 46 (St 294); On 48 57 (St 416); Ch 58 (St 389); On 65 70 (St 386); Ch 93 (St 512); On 97 102 (St 386)]);
    (416, [Ch 46 (St 294); On 48 57 (St 417); Ch 58 (St 389); On 65 70 (St 387); Ch 93 (St 512); On 97 102 (St 387)]);
    (417, [Ch 46 (St 294); On 48 57 (St 388); Ch 58 (St 389); On 65 70 (St 388); Ch 93 (St 512); On 97 102 (St 388)]);
    (418, [Ch 46 (St 294); On 48 52 (St 419); Ch 53 (St 420); On 54 57 (St 419); Ch 58 (St 389); On 65 70 (St 386);
      Ch 93 (St 512); On 97 102 (St 386)]);
    (419, [Ch 46 (St 294); On 48 57 (St 387); Ch 58 (St 389); On 65 70 (St 387); Ch 93 (St 512); On 97 102 (St 387)]) ].

Definition uri_states_65 : table :=
  [
    (420, [Ch 46 (St 294); On 48 53 (St 417); On 54 57 (St 387); Ch 58 (St 389); On 65 70 (St 387); Ch 93 (St 512);
      On 97 102 (St 387)]);
    (421, [Ch 46 (St 294); On 48 57 (St 419); Ch 58 (St 389); On 65 70 (St 386); Ch 93 (St 512); On 97 102 (St 386)]);
    (422, [On 48 57 (St 386); Ch 58 (St 389); On 65 70 (St 386); Ch 93 (St 512); On 97 102 (St 386)]);
    (423, [Ch 46 (St 294); On 48 57 (St 424); Ch 58 (St 384); On 65 70 (St 381); Ch 93 (St 512); On 97 102 (St 381)]);
    (424, [Ch 46 (St 294); On 48 57 (St 425); Ch 58 (St 384); On 65 70 (St 382); Ch 93 (St 512); On 97 102 (St 382)]);
    (425, [Ch 46 (St 294); On 48 57 (St 383); Ch 58 (St 384); On 65 70 (St 383); Ch 93 (St 512); On 97 102 (St 383)]);
    (426, [Ch 46 (St 294); On 48 52 (St 427); Ch 53 (St 428); On 54 57 (St 427); Ch 58 (St 384); On 65 70 (St 381);
      Ch 93 (St 512); On 97 102 (St 381)]);
    (427, [Ch 46 (St 294); On 48 57 (St 382); Ch 58 (St 384); On 65 70 (St 382); Ch 93 (St 512); On 97 102 (St 382)]) ].

Definition uri_states_66 : table :=
  [
    (428, [Ch 46 (St 294); On 48 53 (St 425); On 54 57 (St 382); Ch 58 (St 384); On 65 70 (St 382); Ch 93 (St 512);
      On 97 102 (St 382)]);
    (429, [Ch 46 (St 294); On 48 57 (St 427); Ch 58 (St 384); On 65 70 (St 381); Ch 93 (St 512); On 97 102 (St 381)]);
    (430, [On 48 57 (St 381); Ch 58 (St 384); On 65 70 (St 381); Ch 93 (St 512); On 97 102 (St 381)]);
    (431, [Ch 46 (St 294); On 48 57 (St 432); Ch 58 (St 379); On 65 70 (St 376); Ch 93 (St 512); On 97 102 (St 376)]);
    (432, [Ch 46 (St 294); On 48 57 (St 433); Ch 58 (St 379); On 65 70 (St 377); Ch 93 (St 512); On 97 102 (St 377)]);
    (433, [Ch 46 (St 294); On 48 57 (St 378); Ch 58 (St 379); On 65 70 (St 378); Ch 93 (St 512); On 97 102 (St 378)]);
    (434, [Ch 46 (St 294); On 48 52 (St 435); Ch 53 (St 436); On 54 57 (St 435); Ch 58 (St 379); On 65 70 (St 376);
      Ch 93 (St 512); On 97 102 (St 376)]);
    (435, [Ch 46 (St 294); On 48 57 (St 377); Ch 58 (St 379); On 65 70 (St 377); Ch 93 (St 512); On 97 102 (St 377)]) ].

Definition uri_states_67 : table :=
  [
    (436, [Ch 46 (St 294); On 48 53 (St 433); On 54 57 (St 377); Ch 58 (St 379); On 65 70 (St 377); Ch 93 (St 512);
      On 97 102 (St 377)]);
    (437, [Ch 46 (St 294); On 48 57 (St 435); Ch 58 (St 379); On 65 70 (St 376); Ch 93 (St 512); On 97 102 (St 376)]);
    (438, [On 48 57 (St 376); Ch 58 (St 379); On 65 70 (St 376); Ch 93 (St 512); On 97 102 (St 376)]);
    (439, [Ch 46 (St 294); On 48 57 (St 440); Ch 58 (St 374); On 65 70 (St 371); Ch 93 (St 512); On 97 102 (St 371)]);
    (440, [Ch 46 (St 294); On 48 57 (St 441); Ch 58 (St 374); On 65 70 (St 372); Ch 93 (St 512); On 97 102 (St 372)]);
    (441, [Ch 46 (St 294); On 48 57 (St 373); Ch 58 (St 374); On 65 70 (St 373); Ch 93 (St 512); On 97 102 (St 373)]);
    (442, [Ch 46 (St 294); On 48 52 (St 443); Ch 53 (St 444); On 54 57 (St 443); Ch 58 (St 374); On 65 70 (St 371);
      Ch 93 (St 512); On 97 102 (St 371)]);
    (443, [Ch 46 (St 294); On 48 57 (St 372); Ch 58 (St 374); On 65 70 (St 372); Ch 93 (St 512); On 97 102 (St 372)]) ].

Definition uri_states_68 : table :=
  [
    (444, [Ch 46 (St 294); On 48 53 (St 441); On 54 57 (St 372); Ch 58 (St 374); On 65 70 (St 372); Ch 93 (St 512);
      On 97 102 (St 372)]);
    (445, [Ch 46 (St 294); On 48 57 (St 443); Ch 58 (St 374); On 65 70 (St 371); Ch 93 (St 512); On 97 102 (St 371)]);
    (446, [On 48 57 (St 371); Ch 58 (St 374); On 65 70 (St 371); Ch 93 (St 512); On 97 102 (St 371)]);
    (447, [On 48 57 (St 448); On 65 70 (St 448); On 97 102 (St 448)]);
    (448, [Ch 46 (St 449); On 48 57 (St 448); On 65 70 (St 448); On 97 102 (St 448)]);
    (449, [Ch 33 (St 450); Ch 36 (St 450); On 38 46 (St 450); On 48 59 (St 450); Ch 61 (St 450); On 65 90 (St 450);
      Ch 95 (St 450); On 97 122 (St 450); Ch 126 (St 450)]);
    (450, [Ch 33 (St 450); Ch 36 (St 450); On 38 46 (St 450); On 48 59 (St 450); Ch 61 (St 450); On 65 90 (St 450);
      Ch 93 (St 512); Ch 95 (St 450); On 97 122 (St 450); Ch 126 (St 450)]) ].

Definition uri_states_69 : table :=
  [
    (542, [Ch 33 (St 255); Ch 35 (Tr 570); Ch 36 (St 255); Ch 37 (St 256); On 38 46 (St 255); Ch 47 (Tr 571);
      On 48 57 (St 542); On 58 59 (St 255); Ch 61 (St 255); Ch 63 (Tr 573); Ch 64 (Tr 263); On 65 90 (St 255);
      Ch 95 (St 255); On 97 122 (St 255); Ch 126 (St 255)]);
    (543, [Ch 33 (St 520); Ch 35 (Tr 559); Ch 36 (St 520); Ch 37 (St 253); On 38 45 (St 520); Ch 46 (St 544);
      Ch 47 (Tr 560); On 48 57 (St 520); Ch 58 (Tr 576); Ch 59 (St 520); Ch 61 (St 520); Ch 63 (Tr 562);
      Ch 64 (Tr 263); On 65 90 (St 520); Ch 95 (St 520); On 97 122 (St 520); Ch 126 (St 520)]);
    (544, [Ch 2 (St 233); Ch 33 (St 520); Ch 35 (Tr 559); Ch 36 (St 520); Ch 37 (St 253); On 38 46 (St 520);
      Ch 47 (Tr 560); Ch 48 (St 545); Ch 49 (St 553); Ch 50 (St 555); On 51 57 (St 554); Ch 58 (Tr 576);
      Ch 59 (St 520); Ch 61 (St 520); Ch 63 (Tr 562); Ch 64 (Tr 263); On 65 90 (St 520); Ch 95 (St 520);
      On 97 122 (St 520); Ch 126 (St 520)]);
    (545, [Ch 33 (St 520); Ch 35 (Tr 559); Ch 36 (St 520); Ch 37 (St 253); On 38 45 (St 520); Ch 46 (St 546);
      Ch 47 (Tr 560); On 48 57 (St 520); Ch 58 (Tr 576); Ch 59 (St 520); Ch 61 (St 520); Ch 63 (Tr 562);
      Ch 64 (Tr 263); On 65 90 (St 520); Ch 95 (St 520); On 97 122 (St 520); Ch 126 (St 520)]) ].

Definition uri_states_70 : table :=
  [
    (546, [Ch 2 (St 237); Ch 33 (St 520); Ch 35 (Tr 559); Ch 36 (St 520); Ch 37 (St 253); On 38 46 (St 520);
      Ch 47 (Tr 560); Ch 48 (St 547); Ch 49 (St 549); Ch 50 (St 551); On 51 57 (St 550); Ch 58 (Tr 576);
      Ch 59 (St 520); Ch 61 (St 520); Ch 63 (Tr 562); Ch 64 (Tr 263); On 65 90 (St 520); Ch 95 (St 520);
      On 97 122 (St 520); Ch 126 (St 520)]);
    (547, [Ch 33 (St 520); Ch 35 (Tr 559); Ch 36 (St 520); Ch 37 (St 253); On 38 45 (St 520); Ch 46 (St 548);
      Ch 47 (Tr 560); On 48 57 (St 520); Ch 58 (Tr 576); Ch 59 (St 520); Ch 61 (St 520); Ch 63 (Tr 562);
      Ch 64 (Tr 263); On 65 90 (St 520); Ch 95 (St 520); On 97 122 (St 520); Ch 126 (St 520)]);
    (548, [Ch 2 (St 241); Ch 33 (St 520); Ch 35 (Tr 559); Ch 36 (St 520); Ch 37 (St 253); On 38 46 (St 520);
      Ch 47 (Tr 560); On 48 57 (St 520); Ch 58 (Tr 576); Ch 59 (St 520); Ch 61 (St 520); Ch 63 (Tr 562);
      Ch 64 (Tr 263); On 65 90 (St 520); Ch 95 (St 520); On 97 122 (St 520); Ch 126 (St 520)]);
    (549, [Ch 33 (St 520); Ch 35 (Tr 559); Ch 36 (St 520); Ch 37 (St 253); On 38 45 (St 520); Ch 46 (St 548);
      Ch 47 (Tr 560); On 48 57 (St 550); Ch 58 (Tr 576); Ch 59 (St 520); Ch 61 (St 520); Ch 63 (Tr 562);
      Ch 64 (Tr 263); On 65 90 (St 520); Ch 95 (St 520); On 97 122 (St 520); Ch 126 (St 520)]);
    (550, [Ch 33 (St 520); Ch 35 (Tr 559); Ch 36 (St 520); Ch 37 (St 253); On 38 45 (St 520); Ch 46 (St 548);
      Ch 47 (Tr 560); On 48 57 (St 547); Ch 58 (Tr 576); Ch 59 (St 520); Ch 61 (St 520); Ch 63 (Tr 562);
      Ch 64 (Tr 263); On 65 90 (St 520); Ch 95 (St 520); On 97 122 (St 520); Ch 126 (St 520)]) ].

Definition uri_states_71 : table :=
  [
    (551, [Ch 33 (St 520); Ch 35 (Tr 559); Ch 36 (St 520); Ch 37 (St 253); On 38 45 (St 520); Ch 46 (St 548);
      Ch 47 (Tr 560); On 48 52 (St 547); Ch 53 (St 552); On 54 57 (St 547); Ch 58 (Tr 576); Ch 59 (St 520);
      Ch 61 (St 520); Ch 63 (Tr 562); Ch 64 (Tr 263); On 65 90 (St 520); Ch 95 (St 520); On 97 122 (St 520);
      Ch 126 (St 520)]);
    (552, [Ch 33 (St 520); Ch 35 (Tr 559); Ch 36 (St 520); Ch 37 (St 253); On 38 45 (St 520); Ch 46 (St 548);
      Ch 47 (Tr 560); On 48 53 (St 547); On 54 57 (St 520); Ch 58 (Tr 576); Ch 59 (St 520); Ch 61 (St 520);
      Ch 63 (Tr 562); Ch 64 (Tr 263); On 65 90 (St 520); Ch 95 (St 520); On 97 122 (St 520); Ch 126 (St 520)]);
    (553, [Ch 33 (St 520); Ch 35 (Tr 559); Ch 36 (St 520); Ch 37 (St 253); On 38 45 (St 520); Ch 46 (St 546);
      Ch 47 (Tr 560); On 48 57 (St 554); Ch 58 (Tr 576); Ch 59 (St 520); Ch 61 (St 520); Ch 63 (Tr 562);
      Ch 64 (Tr 263); On 65 90 (St 520); Ch 95 (St 520); On 97 122 (St 520); Ch 126 (St 520)]);
    (554, [Ch 33 (St 520); Ch 35 (Tr 559); Ch 36 (St 520); Ch 37 (St 253); On 38 45 (St 520); Ch 46 (St 546);
      Ch 47 (Tr 560); On 48 57 (St 545); Ch 58 (Tr 576); Ch 59 (St 520); Ch 61 (St 520); Ch 63 (Tr 562);
      Ch 64 (Tr 263); On 65 90 (St 520); Ch 95 (St 520); On 97 122 (St 520); Ch 126 (St 520)]) ].

Definition uri_states_72 : table :=
  [
    (555, [Ch 33 (St 520); Ch 35 (Tr 559); Ch 36 (St 520); Ch 37 (St 253); On 38 45 (St 520); Ch 46 (St 546);
      Ch 47 (Tr 560); On 48 52 (St 545); Ch 53 (St 556); On 54 57 (St 545); Ch 58 (Tr 576); Ch 59 (St 520);
      Ch 61 (St 520); Ch 63 (Tr 562); Ch 64 (Tr 263); On 65 90 (St 520); Ch 95 (St 520); On 97 122 (St 520);
      Ch 126 (St 520)]);
    (556, [Ch 33 (St 520); Ch 35 (Tr 559); Ch 36 (St 520); Ch 37 (St 253); On 38 45 (St 520); Ch 46 (St 546);
      Ch 47 (Tr 560); On 48 53 (St 545); On 54 57 (St 520); Ch 58 (Tr 576); Ch 59 (St 520); Ch 61 (St 520);
      Ch 63 (Tr 562); Ch 64 (Tr 263); On 65 90 (St 520); Ch 95 (St 520); On 97 122 (St 520); Ch 126 (St 520)]);
    (557, [Ch 33 (St 520); Ch 35 (Tr 559); Ch 36 (St 520); Ch 37 (St 253); On 38 45 (St 520); Ch 46 (St 544);
      Ch 47 (Tr 560); On 48 57 (St 558); Ch 58 (Tr 576); Ch 59 (St 520); Ch 61 (St 520); Ch 63 (Tr 562);
      Ch 64 (Tr 263); On 65 90 (St 520); Ch 95 (St 520); On 97 122 (St 520); Ch 126 (St 520)]);
    (558, [Ch 33 (St 520); Ch 35 (Tr 559); Ch 36 (St 520); Ch 37 (St 253); On 38 45 (St 520); Ch 46 (St 544);
      Ch 47 (Tr 560); On 48 57 (St 543); Ch 58 (Tr 576); Ch 59 (St 520); Ch 61 (St 520); Ch 63 (Tr 562);
      Ch 64 (Tr 263); On 65 90 (St 520); Ch 95 (St 520); On 97 122 (St 520); Ch 126 (St 520)]) ].

Definition uri_states_73 : table :=
  [
    (559, [Ch 33 (St 520); Ch 35 (Tr 559); Ch 36 (St 520); Ch 37 (St 253); On 38 45 (St 520); Ch 46 (St 544);
      Ch 47 (Tr 560); On 48 52 (St 543); Ch 53 (St 560); On 54 57 (St 543); Ch 58 (Tr 576); Ch 59 (St 520);
      Ch 61 (St 520); Ch 63 (Tr 562); Ch 64 (Tr 263); On 65 90 (St 520); Ch 95 (St 520); On 97 122 (St 520);
      Ch 126 (St 520)]);
    (560, [Ch 33 (St 520); Ch 35 (Tr 559); Ch 36 (St 520); Ch 37 (St 253); On 38 45 (St 520); Ch 46 (St 544);
      Ch 47 (Tr 560); On 48 53 (St 543); On 54 57 (St 520); Ch 58 (Tr 576); Ch 59 (St 520); Ch 61 (St 520);
      Ch 63 (Tr 562); Ch 64 (Tr 263); On 65 90 (St 520); Ch 95 (St 520); On 97 122 (St 520); Ch 126 (St 520)]) ].

Definition uri_table : table :=
  uri_states_1
  ++ uri_states_2
  ++ uri_states_3
  ++ uri_states_4
  ++ uri_states_5
  ++ uri_states_6
  ++ uri_states_7
  ++ uri_states_8
  ++ uri_states_9
  ++ uri_states_10
  ++ uri_states_11
  ++ uri_states_12
  ++ uri_states_13
  ++ uri_states_14
  ++ uri_states_15
  ++ uri_states_16
  ++ uri_states_17
  ++ uri_states_18
  ++ uri_states_19
  ++ uri_states_20
  ++ uri_states_21
  ++ uri_states_22
  ++ uri_states_23
  ++ uri_states_24
  ++ uri_states_25
  ++ uri_states_26
  ++ uri_states_27
  ++ uri_states_28
  ++ uri_states_29
  ++ uri_states_30
  ++ uri_states_31
  ++ uri_states_32
  ++ uri_states_33
  ++ uri_states_34
  ++ uri_states_35
  ++ uri_states_36
  ++ uri_states_37
  ++ uri_states_38
  ++ uri_states_39
  ++ uri_states_40
  ++ uri_states_41
  ++ uri_states_42
  ++ uri_states_43
  ++ uri_states_44
  ++ uri_states_45
  ++ uri_states_46
  ++ uri_states_47
  ++ uri_states_48
  ++ uri_states_49
  ++ uri_states_50
  ++ uri_states_51
  ++ uri_states_52
  ++ uri_states_53
  ++ uri_states_54
  ++ uri_states_55
  ++ uri_states_56
  ++ uri_states_57
  ++ uri_states_58
  ++ uri_states_59
  ++ uri_states_60
  ++ uri_states_61
  ++ uri_states_62
  ++ uri_states_63
  ++ uri_states_64
  ++ uri_states_65
  ++ uri_states_66
  ++ uri_states_67
  ++ uri_states_68
  ++ uri_states_69
  ++ uri_states_70
  ++ uri_states_71
  ++ uri_states_72
  ++ uri_states_73.
