(* ===== verification/Uri.v ===== *)
(** Uri (skt/uri/uri.h, skt/uri/uri.rl).

    The parser is the machine of UriTable; mark, a pointer into the text that may
    be null, is an offset or None. *)

From stdpp Require Import base list strings.
From Stdlib Require Import Ascii Lia.
From S2P Require Import Prelude CString Ragel UriTable.

Record Uri : Type := mkUri {
  m_scheme : str;
  m_userinfo : str;
  m_host : str;
  m_path : str;
  m_query : str;
  m_fragment : str;
  m_port : Z
}.

Definition Uri_new : Uri := mkUri [] [] [] [] [] [] 0.

Definition setScheme v (u : Uri) : Uri :=
  mkUri v (m_userinfo u) (m_host u) (m_path u) (m_query u) (m_fragment u) (m_port u).
Definition setUserinfo v (u : Uri) : Uri :=
  mkUri (m_scheme u) v (m_host u) (m_path u) (m_query u) (m_fragment u) (m_port u).
Definition setHost v (u : Uri) : Uri :=
  mkUri (m_scheme u) (m_userinfo u) v (m_path u) (m_query u) (m_fragment u) (m_port u).
Definition setPath v (u : Uri) : Uri :=
  mkUri (m_scheme u) (m_userinfo u) (m_host u) v (m_query u) (m_fragment u) (m_port u).
Definition setQuery v (u : Uri) : Uri :=
  mkUri (m_scheme u) (m_userinfo u) (m_host u) (m_path u) v (m_fragment u) (m_port u).
Definition setFragment v (u : Uri) : Uri :=
  mkUri (m_scheme u) (m_userinfo u) (m_host u) (m_path u) (m_query u) v (m_port u).
(** The parameter is a uint32_t, the field an int32_t. *)
Definition setPort v (u : Uri) : Uri :=
  mkUri (m_scheme u) (m_userinfo u) (m_host u) (m_path u) (m_query u) (m_fragment u) (i32 (u32 v)).

Definition is_scheme (u : Uri) (a b : string) : bool :=
  bool_decide (m_scheme u = L a) || bool_decide (m_scheme u = L b).

Definition isDefaultPort (u : Uri) : bool :=
  if m_port u =? 0 then true
  else if is_scheme u "http" "ws" then m_port u =? 80
  else if is_scheme u "https" "wss" then m_port u =? 443
  else false.

Definition getPath (u : Uri) : str := match m_path u with [] => L "/" | p => p end.

Definition getPort (u : Uri) : Z :=
  if negb (m_port u =? 0) then m_port u
  else if is_scheme u "http" "ws" then 80
  else if is_scheme u "https" "wss" then 443
  else m_port u.

Definition sep_if (s : string) (x : str) : str := match x with [] => [] | _ => L s end.

(** Uri::dump and toString *)
Definition u_dump (u : Uri) : str :=
  m_scheme u ++ L "://"
  ++ m_userinfo u ++ sep_if "@" (m_userinfo u)
  ++ m_host u
  ++ (if isDefaultPort u then [] else L ":" ++ to_string (m_port u))
  ++ getPath u
  ++ sep_if "?" (m_query u) ++ m_query u
  ++ sep_if "#" (m_fragment u) ++ m_fragment u.

(** ** Parsing *)

Record UriState : Type := mkUS { us_uri : Uri; us_mark : option Z }.

Definition uri_parser_start : Z := 451.
Definition uri_parser_first_final : Z := 451.
Definition uri_parser_error : Z := 0.

Section Parse.
(** uristr *)
Context (text : str).

(** std::string(mark, fpc - mark): a null pointer with a length that is not 0
    makes the constructor throw. *)
Definition since_mark (p : Z) : M UriState str :=
  s ← mget;
  match us_mark s with
  | Some k => mret (zslice k (p - k) text)
  | None => mthrow (logic_error "basic_string: construction from null is not valid")
  end.

Definition mark_at (m : option Z) : M UriState unit := mmodify (λ s, mkUS (us_uri s) m).
Definition upd_uri (f : Uri → Uri) : M UriState unit := mmodify (λ s, mkUS (f (us_uri s)) (us_mark s)).

(** uri->set(std::string(mark, fpc - mark)) *)
Definition save (set : str → Uri → Uri) (p : Z) : M UriState unit := v ← since_mark p; upd_uri (set v).

Definition uri_act (a : uri_action) (p : Z) : M UriState unit :=
  s ← mget;
  match a with
  | u_marku | u_markh => mark_at (Some p)
  | u_save_scheme => save setScheme p ≫= λ _, mark_at None
  | u_save_port =>
    (if bool_decide (us_mark s = Some p) then mret tt
     else k ← mderef NullDeref (us_mark s); upd_uri (setPort (atoi (drop (Z.to_nat k) text)))) ≫= λ _,
    mark_at None
  | u_save_userinfo =>
    (match us_mark s with Some _ => save setUserinfo p | None => mret tt end) ≫= λ _, mark_at None
  | u_save_host => match us_mark s with Some _ => save setHost p | None => mret tt end
  | u_save_path => save setPath p ≫= λ _, mark_at None
  | u_save_query => save setQuery p ≫= λ _, mark_at None
  | u_save_fragment => save setFragment p ≫= λ _, mark_at None
  end.

(** No action breaks, and every state has a case. *)
Definition uri_exec : Z → Z → str → M UriState (Z * Z) :=
  exec uri_table uri_tr false uri_act (λ _, false) 452.

(** The actions of the end run when the machine has read the whole text. *)
Definition uri_run : M UriState Z :=
  '(cs, p) ← uri_exec uri_parser_start 0 text;
  run_acts uri_act (λ _, false) (uri_eof cs) p ≫= λ _, mret cs.

End Parse.

(** Uri::Create; None is nullptr. *)
Definition Create (text : str) : result UriState (option Uri) :=
  (cs ← uri_run text;
   s ← mget;
   mret (if cs =? uri_parser_error then None
         else if uri_parser_first_final <=? cs then Some (us_uri s) else None))
  (mkUS Uri_new None).

(** ** Concrete texts *)

Definition created (r : result UriState (option Uri)) : option (option Uri) :=
  match r with Ok u _ => Some u | _ => None end.

Example create_url :
  created (Create (L "http://user@www.x.org:8080/a/b?q=1#f"))
  = Some (Some (mkUri (L "http") (L "user") (L "www.x.org") (L "/a/b") (L "q=1") (L "f") 8080)).
Proof. vm_compute. reflexivity. Qed.

Example create_no_path :
  created (Create (L "http://www.x.org")) = Some (Some (mkUri (L "http") [] (L "www.x.org") [] [] [] 0)).
Proof. vm_compute. reflexivity. Qed.

Example create_invalid : created (Create (L "http://a b/")) = Some None.
Proof. vm_compute. reflexivity. Qed.

(** An empty port: the path is saved from a null mark. *)
Lemma empty_port_throws :
  (∃ s, Create (L "http://h:/a") = Exc (logic_error "basic_string: construction from null is not valid") s) ∧
  (∃ s, Create (L "http://h:") = Exc (logic_error "basic_string: construction from null is not valid") s).
Proof. split; eexists; vm_compute; reflexivity. Qed.

(** After a colon followed by digits the mark is that of a port: the user
    information loses what comes before. *)
Lemma userinfo_cut :
  created (Create (L "http://user:123@h/x"))
  = Some (Some (mkUri (L "http") (L "123") (L "h") (L "/x") [] [] 0)).
Proof. vm_compute. reflexivity. Qed.

(** Only a path after an authority is saved. *)
Lemma path_not_saved :
  created (Create (L "/a/b?c")) = Some (Some (mkUri [] [] [] [] (L "c") [] 0)) ∧
  created (Create (L "http:/a/b")) = Some (Some (mkUri (L "http") [] [] [] [] [] 0)).
Proof. split; vm_compute; reflexivity. Qed.

(** In dec_octet the 2 of 200..249 is the character with the code 2. *)
Lemma ipv4_in_ipv6_rejected :
  created (Create (L "http://[::ffff:200.0.0.1]/")) = Some None ∧
  created (Create (L "http://[::ffff:100.0.0.1]/"))
  = Some (Some (mkUri (L "http") [] (L "[::ffff:100.0.0.1]") (L "/") [] [] 0)).
Proof. split; vm_compute; reflexivity. Qed.
