(* ===== verification/UriProps.v ===== *)
(** Properties of the URI parser: what it can fail with, and parsing what
    Uri::dump prints. *)

From stdpp Require Import base list strings sets.
From Stdlib Require Import Ascii Lia.
From S2P Require Import Prelude CString Ragel Decimal UriTable Uri.

#[global] Instance uri_action_eq_dec : EqDecision uri_action.
Proof. solve_decision. Defined.

(** ** Every run ends *)

(** The states in a port, where save_port reads from the mark. *)
Definition in_port (cs : Z) : bool := (cs =? 462) || (cs =? 489) || (cs =? 515) || (cs =? 542).

(** The flag: the mark is not null. None: save_port would read from null. *)
Definition u_act_flag (a : uri_action) (f : bool) : option bool :=
  match a with
  | u_marku | u_markh => Some true
  | u_save_port => if f then Some false else None
  | u_save_host => Some f
  | _ => Some false
  end.
Fixpoint u_acts_flag (acts : list uri_action) (f : bool) : option bool :=
  match acts with
  | [] => Some f
  | a :: acts' => match u_act_flag a f with Some f' => u_acts_flag acts' f' | None => None end
  end.

Definition u_edge_checked (cs : Z) (e : edge) : bool :=
  let '(acts, tgt) := resolve uri_tr (jump_of e) in
  match u_acts_flag acts (in_port cs) with
  | None => false
  | Some f => implb (in_port tgt) f && (1 <=? tgt) && (tgt <=? 560)
  end.

Lemma uri_table_checked : forallb (λ '(cs, es), forallb (u_edge_checked cs) es) uri_table = true.
Proof. vm_compute. reflexivity. Qed.

Lemma uri_eof_checked :
  forallb (λ n, bool_decide (is_Some (u_acts_flag (uri_eof (Z.of_nat n)) (in_port (Z.of_nat n))))) (seq 0 561) = true.
Proof. vm_compute. reflexivity. Qed.

Lemma uri_states_known :
  forallb (λ n, bool_decide (is_Some (state_edges (Z.of_nat n) uri_table))) (seq 1 560) = true.
Proof. vm_compute. reflexivity. Qed.

Lemma u_state_known cs : 1 ≤ cs ≤ 560 → state_edges cs uri_table ≠ None.
Proof.
  intros Hcs. pose proof (proj1 (forallb_forall _ _) uri_states_known (Z.to_nat cs)) as H. cbv beta in H.
  rewrite Z2Nat.id in H by lia. rewrite bool_decide_eq_true in H.
  destruct H as [es E]; [apply in_seq; lia|congruence].
Qed.

(** Returns, or a string was built from a null pointer. *)
Definition ends {A} (Q : A → UriState → Prop) (r : result UriState A) : Prop :=
  match r with
  | Ok a s => Q a s
  | Exc e _ => e = logic_error "basic_string: construction from null is not valid"
  | _ => False
  end.

Lemma ends_bind {A B} (c : M UriState A) (k : A → M UriState B) s Q R :
  ends Q (c s) → (∀ a s', Q a s' → ends R (k a s')) → ends R ((c ≫= k) s).
Proof. intros H Hk. unfold mbind, M_bind. destruct (c s); cbn in *; try done. by apply Hk. Qed.

Definition flagged (f : bool) (s : UriState) : Prop := f = true → us_mark s ≠ None.

Lemma save_ends text set p s f : flagged f s → ends (λ _ s', us_mark s' = us_mark s) (save text set p s).
Proof. intros Hf. unfold save, since_mark, upd_uri. mred. destruct (us_mark s) eqn:E; cbn; by rewrite ?E. Qed.

Lemma uri_act_ends text a p s f f' :
  u_act_flag a f = Some f' → flagged f s → ends (λ _, flagged f') (uri_act text a p s).
Proof.
  intros Ha Hf. unfold uri_act. eapply (ends_bind mget _ _ (λ a s', a = s ∧ s' = s)); [done|]. intros ? ? [-> ->].
  destruct a; cbn in Ha; simplify_eq; try done;
    try (eapply ends_bind; [by apply (save_ends _ _ _ _ f)|]; done).
  - destruct f; [|done]. simplify_eq. specialize (Hf eq_refl). mred.
    case_bool_decide; [done|]. by destruct (us_mark s).
  - eapply (ends_bind _ _ _ (λ _ _, True)); [|done]. destruct (us_mark s) eqn:E; [|done].
    unfold save, since_mark. mred. by rewrite E.
  - destruct (us_mark s) eqn:E; [|done]. unfold save, since_mark. mred. by rewrite E.
Qed.

Lemma run_acts_ends text acts p s f f' :
  u_acts_flag acts f = Some f' → flagged f s →
  ends (λ b s', b = false ∧ flagged f' s') (run_acts (uri_act text) (λ _, false) acts p s).
Proof.
  revert f s. induction acts as [|a acts IH]; intros f s Hf Hs; [cbn in *; simplify_eq; done|].
  cbn [u_acts_flag] in Hf. destruct (u_act_flag a f) as [f1|] eqn:E; [|done]. cbn [run_acts].
  eapply ends_bind; [by eapply uri_act_ends|]. intros ? s1 Hs1. by eapply IH.
Qed.

Lemma uri_exec_ends text cs p rest s :
  1 ≤ cs ≤ 560 → flagged (in_port cs) s →
  ends (λ '(cs', _) s', 0 ≤ cs' ≤ 560 ∧ flagged (in_port cs') s') (uri_exec text cs p rest s).
Proof.
  unfold uri_exec. revert cs p s. induction rest as [|c rest IH]; intros cs p s Hcs Hs; [cbn; split; [lia|done]|].
  destruct (next uri_table false cs c) as [j|] eqn:E.
  - rewrite (exec_step _ _ _ _ _ _ _ _ _ _ _ E).
    destruct (next_all _ _ _ _ _ _ uri_table_checked E) as (e & <- & He). unfold u_edge_checked in He.
    destruct (resolve uri_tr (jump_of e)) as [acts tgt]. cbn [fst snd].
    destruct (u_acts_flag acts (in_port cs)) as [f|] eqn:Ef; [|done].
    rewrite !andb_true_iff, !Z.leb_le in He. destruct He as [[Hi H1] H2].
    eapply ends_bind; [by eapply run_acts_ends|]. intros b s1 [-> Hs1]. apply IH; [lia|].
    intros Ht. rewrite Ht in Hi. destruct f; [by apply Hs1|done].
  - unfold next in E. cbn [exec]. destruct (state_edges cs uri_table) eqn:Ecs; [|by destruct (u_state_known cs)].
    rewrite E. done.
Qed.

(** Uri::Create returns for every text: it never reads the port from a null
    pointer, and the only exception that can leave it is that of a string built
    from a null mark. *)
Theorem Create_total text :
  (∃ u s, Create text = Ok u s) ∨
  (∃ s, Create text = Exc (logic_error "basic_string: construction from null is not valid") s).
Proof.
  assert (ends (λ _ _, True) (Create text)) as H.
  { unfold Create. eapply (ends_bind _ _ _ (λ _ _, True)); [|done]. unfold uri_run.
    eapply ends_bind; [by apply uri_exec_ends|]. intros [cs p] s [Hcs Hs].
    pose proof (proj1 (forallb_forall _ _) uri_eof_checked (Z.to_nat cs)) as He. cbv beta in He.
    rewrite Z2Nat.id in He by lia. rewrite bool_decide_eq_true in He. destruct He as [f Ef]; [apply in_seq; lia|].
    eapply ends_bind; [by eapply run_acts_ends|]. done. }
  destruct (Create text) as [u s|e s| |]; [left; by eauto| |done..]. right. cbn in H. subst e. by exists s.
Qed.

(** ** Parsing what dump prints *)

Section Parts.
Context (text : str).

(** After [pre], reading [seg] takes the machine from a state of [Ps] to one of
    [Qs] and the parser from [st] to [st']. *)
Definition u_reads (pre : str) (Ps : list Z) (st : UriState) (seg : str) (Qs : list Z) (st' : UriState) : Prop :=
  ∀ post cs, text = pre ++ seg ++ post → cs ∈ Ps →
  ∃ cs', uri_exec text cs (zlen pre) (seg ++ post) st = uri_exec text cs' (zlen (pre ++ seg)) post st' ∧ cs' ∈ Qs.

Lemma u_app pre Ps st seg1 Qs st1 seg2 Rs st2 :
  u_reads pre Ps st seg1 Qs st1 → u_reads (pre ++ seg1) Qs st1 seg2 Rs st2 → u_reads pre Ps st (seg1 ++ seg2) Rs st2.
Proof.
  intros H1 H2 post cs Hb Hcs. rewrite <- (assoc_L (++)) in Hb |- *.
  destruct (H1 (seg2 ++ post) cs) as (cs1 & E1 & Hcs1); [done|done|].
  destruct (H2 post cs1) as (cs2 & E2 & Hcs2); [by rewrite <- (assoc_L (++))|done|].
  exists cs2. by rewrite E1, E2, (assoc_L (++)).
Qed.

(** Characters on which nothing happens. *)
Lemma u_silent pre Ps st C w :
  steps_in uri_table false Ps C (λ _ _, silent Ps) = true → forallb C w = true → u_reads pre Ps st w Ps st.
Proof.
  intros H Hw post cs _ Hcs. destruct (walk_set _ _ _ _ w cs H Hcs Hw) as (cs' & E & Hcs').
  exists cs'. unfold uri_exec. erewrite exec_walk by exact E. by rewrite zlen_app.
Qed.

Lemma u_walk pre cs st w cs' : walk uri_table false cs w = Some cs' → u_reads pre [cs] st w [cs'] st.
Proof.
  intros H post c0 _ ->%list_elem_of_singleton. exists cs'. unfold uri_exec. erewrite exec_walk by exact H.
  rewrite zlen_app. split; [done|]. by apply list_elem_of_singleton.
Qed.

(** One character of a class, on which the actions [acts] run. *)
Lemma u_char pre Ps st C c acts Qs st' :
  steps_in uri_table false Ps C (λ _ _, acting_in uri_tr [acts] Qs) = true → C c = true →
  (∀ post, text = pre ++ c :: post → run_acts (uri_act text) (λ _, false) acts (zlen pre) st = Ok false st') →
  u_reads pre Ps st [c] Qs st'.
Proof.
  intros H Hc Hr post cs Hb Hcs.
  destruct (steps_in_next _ _ _ _ _ _ _ H Hcs Hc) as (j & E & [Ha Ht]%andb_true_iff).
  apply bool_decide_eq_true in Ha, Ht. apply list_elem_of_singleton in Ha.
  exists (resolve uri_tr j).2. split; [|done]. unfold uri_exec. cbn [app].
  erewrite exec_tr; [|exact E|rewrite Ha; by apply (Hr post)]. by rewrite zlen_app.
Qed.

(** The text since the mark. *)
Lemma mark_text pre seg post u :
  text = pre ++ seg ++ post → since_mark text (zlen (pre ++ seg)) (mkUS u (Some (zlen pre))) = Ok seg (mkUS u (Some (zlen pre))).
Proof.
  intros ->. unfold since_mark. mred. cbn [us_mark]. unfold zslice. do 2 f_equal.
  replace (zlen (pre ++ seg) - zlen pre) with (zlen seg) by (rewrite zlen_app; lia).
  unfold zlen. by rewrite !Nat2Z.id, drop_app_length, take_app_length.
Qed.

Lemma save_text set pre seg post u :
  text = pre ++ seg ++ post →
  save text set (zlen (pre ++ seg)) (mkUS u (Some (zlen pre))) = Ok tt (mkUS (set seg u) (Some (zlen pre))).
Proof. intros Hb. unfold save. by run (mark_text pre seg post u Hb). Qed.

(** What the actions that save do to the text since the mark. *)
Definition saves (a : uri_action) : option ((str → Uri → Uri) * bool) :=
  match a with
  | u_save_scheme => Some (setScheme, true)
  | u_save_userinfo => Some (setUserinfo, true)
  | u_save_host => Some (setHost, false)
  | u_save_path => Some (setPath, true)
  | u_save_query => Some (setQuery, true)
  | u_save_fragment => Some (setFragment, true)
  | _ => None
  end.

Lemma act_saves a set clear pre seg post u :
  saves a = Some (set, clear) → text = pre ++ seg ++ post →
  uri_act text a (zlen (pre ++ seg)) (mkUS u (Some (zlen pre)))
    = Ok tt (mkUS (set seg u) (if (clear : bool) then None else Some (zlen pre))).
Proof.
  intros Ha Hb. unfold uri_act. erewrite bind_ok; [|reflexivity].
  destruct a; cbn in Ha; try done; injection Ha as <- <-; cbn [us_mark];
    try (erewrite bind_ok; [|by apply (save_text _ _ _ post)]; done). by apply (save_text _ _ _ post).
Qed.

(** A saved part: from its first character to the one after it, which saves
    it. *)
Lemma u_saved pre seg Ps u a set clear C c Qs :
  saves a = Some (set, clear) → steps_in uri_table false Ps C (λ _ _, acting_in uri_tr [[a]] Qs) = true → C c = true →
  u_reads (pre ++ seg) Ps (mkUS u (Some (zlen pre))) [c] Qs (mkUS (set seg u) (if (clear : bool) then None else Some (zlen pre))).
Proof.
  intros Ha Hs Hc. eapply u_char; [exact Hs|done|]. intros post Hb. cbn [run_acts].
  erewrite bind_ok; [|by apply (act_saves _ _ _ _ _ (c :: post) _ Ha); rewrite <- (assoc_L (++)) in Hb]. done.
Qed.

(** The mark is set on the first character. *)
Lemma u_first pre Ps st C c a Qs :
  a = u_marku ∨ a = u_markh →
  steps_in uri_table false Ps C (λ _ _, acting_in uri_tr [[a]] Qs) = true → C c = true →
  u_reads pre Ps st [c] Qs (mkUS (us_uri st) (Some (zlen pre))).
Proof. intros Ha Hs Hc. eapply u_char; [exact Hs|done|]. intros post _. by destruct Ha as [-> | ->]. Qed.

(** *** The scheme *)

Definition alpha (c : ascii) : bool := between 65 90 c || between 97 122 c.
Definition scheme_char (c : ascii) : bool := alpha c || is_digit c || eqc 43 c || eqc 45 c || eqc 46 c.
Definition scheme_ok (s : str) : bool := match s with [] => false | c :: w => alpha c && forallb scheme_char w end.

Lemma u_scheme s u :
  scheme_ok s = true →
  u_reads [] [451] (mkUS u None) (s ++ L "://") [511] (mkUS (setScheme s u) None).
Proof.
  destruct s as [|c w]; [done|]. intros [Hc Hw]%andb_true_iff.
  change ((c :: w) ++ L "://") with ([c] ++ (w ++ [":"%char] ++ L "//")).
  eapply u_app; [apply (u_first _ _ _ alpha _ u_marku [508]); [by left|by vm_compute|done]|].
  eapply u_app; [apply (u_silent _ [508] _ scheme_char); [by vm_compute|done]|].
  eapply u_app; [apply (u_saved [] ([c] ++ w) [508] _ u_save_scheme setScheme true (eqc 58) _ [509]); [done|by vm_compute|done]|].
  apply u_walk. by vm_compute.
Qed.

(** *** The authority *)

Definition host_char (c : ascii) : bool :=
  eqc 33 c || eqc 36 c || between 38 46 c || is_digit c || eqc 59 c || eqc 61 c || alpha c || eqc 95 c || eqc 126 c.

(** The states of a host: where it starts, inside it, after the colon, inside
    the port. *)
Definition auth_checked (start : Z) (H : list Z) (col prt : Z) : bool :=
  steps_in uri_table false [start] host_char (λ _ _, acting_in uri_tr [[u_markh]] H)
  && steps_in uri_table false H host_char (λ _ _, silent H)
  && steps_in uri_table false [start] (eqc 47) (λ _ _, acting_in uri_tr [[u_markh; u_save_host]] [513])
  && steps_in uri_table false [start] (eqc 58) (λ _ _, acting_in uri_tr [[u_markh; u_save_host]] [col])
  && steps_in uri_table false H (eqc 47) (λ _ _, acting_in uri_tr [[u_save_host; u_markh]] [513])
  && steps_in uri_table false H (eqc 58) (λ _ _, acting_in uri_tr [[u_save_host]] [col])
  && steps_in uri_table false [col] is_digit (λ _ _, acting_in uri_tr [[u_markh]] [prt])
  && steps_in uri_table false [prt] is_digit (λ _ _, silent [prt])
  && steps_in uri_table false [prt] (eqc 47) (λ _ _, acting_in uri_tr [[u_save_port; u_markh]] [513]).

Definition in_host : list Z := 520 :: (Z.of_nat <$> seq 543 18).
Definition in_host' : list Z := Z.of_nat <$> seq 523 19.

Lemma auth_511 : auth_checked 511 in_host 521 542 = true.
Proof. vm_compute. reflexivity. Qed.
Lemma auth_522 : auth_checked 522 in_host' 514 515 = true.
Proof. vm_compute. reflexivity. Qed.

Section Authority.
Context (start : Z) (H : list Z) (col prt : Z) (Hchk : auth_checked start H col prt = true).

#[local] Ltac checks :=
  pose proof Hchk as Hc; unfold auth_checked in Hc; rewrite !andb_true_iff in Hc;
  destruct Hc as [[[[[[[[K1 K2] K3] K4] K5] K6] K7] K8] K9].

Lemma u_host_slash pre u h :
  forallb host_char h = true →
  u_reads pre [start] (mkUS u None) (h ++ ["/"%char]) [513] (mkUS (setHost h u) (Some (zlen (pre ++ h)))).
Proof.
  intros Hh. checks. destruct h as [|c w].
  - rewrite app_nil_r. cbn [app]. eapply u_char; [exact K3|done|]. intros post Hb. cbn [run_acts].
    erewrite bind_ok; [|reflexivity]. rewrite <- (app_nil_r pre) at 1.
    erewrite bind_ok; [|by apply (act_saves u_save_host setHost false pre [] ("/"%char :: post))].
    cbn [app]. reflexivity.
  - cbn [forallb] in Hh. apply andb_true_iff in Hh as [Hc Hw]. change ((c :: w) ++ ["/"%char]) with ([c] ++ (w ++ ["/"%char])).
    eapply u_app; [by eapply u_first; [right|exact K1|]|]. eapply u_app; [by eapply u_silent; [exact K2|]|].
    eapply u_char; [exact K5|done|]. intros post Hb. rewrite <- (assoc_L (++) pre) in Hb |- *. cbn [run_acts us_uri].
    erewrite bind_ok; [|apply (act_saves u_save_host setHost false pre ([c] ++ w) ("/"%char :: post)); [done|by rewrite Hb, <- !(assoc_L (++))]].
    reflexivity.
Qed.

Lemma u_host_colon pre u h :
  forallb host_char h = true →
  u_reads pre [start] (mkUS u None) (h ++ [":"%char]) [col] (mkUS (setHost h u) (Some (zlen pre))).
Proof.
  intros Hh. checks. destruct h as [|c w].
  - cbn [app]. eapply u_char; [exact K4|done|]. intros post Hb. cbn [run_acts].
    erewrite bind_ok; [|reflexivity]. rewrite <- (app_nil_r pre) at 1.
    erewrite bind_ok; [|by apply (act_saves u_save_host setHost false pre [] (":"%char :: post))]. reflexivity.
  - cbn [forallb] in Hh. apply andb_true_iff in Hh as [Hc Hw]. change ((c :: w) ++ [":"%char]) with ([c] ++ (w ++ [":"%char])).
    eapply u_app; [by eapply u_first; [right|exact K1|]|]. eapply u_app; [by eapply u_silent; [exact K2|]|].
    rewrite <- (assoc_L (++) pre). by eapply (u_saved pre ([c] ++ w) _ _ u_save_host setHost false); [|exact K6|].
Qed.

Lemma u_port pre u m n :
  0 ≤ n < 2 ^ 31 →
  u_reads pre [col] (mkUS u m) (dec n ++ ["/"%char]) [513] (mkUS (setPort n u) (Some (zlen (pre ++ dec n)))).
Proof.
  intros Hn. checks. destruct (dec_digits n) as (c & w & Hd & Hds & _); [lia|].
  pose proof (atoi_dec n "/"%char) as Hat. rewrite Hd in *.
  cbn [forallb] in Hds. apply andb_true_iff in Hds as [Hc Hw].
  change ((c :: w) ++ ["/"%char]) with ([c] ++ (w ++ ["/"%char])).
  eapply u_app; [by eapply u_first; [right|exact K7|]|]. eapply u_app; [by eapply u_silent; [exact K8|]|].
  eapply u_char; [exact K9|done|]. intros post Hb. rewrite <- (assoc_L (++) pre) in Hb |- *. cbn [run_acts us_uri].
  assert (uri_act text u_save_port (zlen (pre ++ [c] ++ w)) (mkUS u (Some (zlen pre))) = Ok tt (mkUS (setPort n u) None)) as E.
  { assert (atoi (drop (Z.to_nat (zlen pre)) text) = n) as Ha.
    { rewrite Hb. unfold zlen. rewrite Nat2Z.id, <- !(assoc_L (++)), drop_app_length. by apply Hat. }
    unfold uri_act, upd_uri, mark_at. mred. cbn [us_mark us_uri]. rewrite bool_decide_false; [by rewrite Ha|].
    intros [= E]. rewrite zlen_app in E. cbn [app] in E. rewrite zlen_cons in E. pose proof (zlen_nonneg w). lia. }
  erewrite bind_ok; [|exact E]. reflexivity.
Qed.

End Authority.

Lemma u_userinfo pre u c w :
  forallb host_char (c :: w) = true →
  u_reads pre [511] (mkUS u None) ((c :: w) ++ ["@"%char]) [522] (mkUS (setUserinfo (c :: w) u) None).
Proof.
  intros [Hc Hw]%andb_true_iff. change ((c :: w) ++ ["@"%char]) with ([c] ++ (w ++ ["@"%char])).
  eapply u_app; [eapply (u_first _ _ _ host_char _ u_markh in_host); [by right|by vm_compute|done]|].
  eapply u_app; [eapply (u_silent _ in_host _ host_char); [by vm_compute|done]|].
  rewrite <- (assoc_L (++) pre).
  by eapply (u_saved pre ([c] ++ w) _ _ u_save_userinfo setUserinfo true (eqc 64) _ [522]); [|vm_compute|].
Qed.

(** Host and port, up to the slash of the path; [prt]: the port, when it is
    printed. *)
Lemma u_hostport start H col prt pre u h n :
  auth_checked start H col prt = true → forallb host_char h = true →
  match n with Some k => 0 ≤ k < 2 ^ 31 | None => True end →
  let shown := match n with Some k => L ":" ++ dec k | None => [] end in
  u_reads pre [start] (mkUS u None) ((h ++ shown) ++ ["/"%char]) [513]
    (mkUS (match n with Some k => setPort k | None => id end (setHost h u)) (Some (zlen (pre ++ h ++ shown)))).
Proof.
  intros Hchk Hh Hn shown. subst shown. destruct n as [k|].
  - replace ((h ++ L ":" ++ dec k) ++ ["/"%char]) with ((h ++ [":"%char]) ++ dec k ++ ["/"%char]) by (by rewrite <- !(assoc_L (++))).
    eapply u_app; [by eapply u_host_colon|].
    replace (pre ++ h ++ L ":" ++ dec k) with ((pre ++ h ++ [":"%char]) ++ dec k) by (by rewrite <- !(assoc_L (++))).
    by eapply u_port.
  - rewrite app_nil_r. by eapply u_host_slash.
Qed.

(** *** Path, query and fragment *)

Lemma u_path pre w st : escaped uri_char w = true → u_reads pre [513] st w [513] st.
Proof. intros Hw. apply u_walk, (walk_escaped _ _ uri_char 513 243 244); try done; by vm_compute. Qed.

(** The start of a query or a fragment sets the mark. *)
Lemma u_escaped e l x y h1 h2 pre st c w :
  goes_in uri_table false e query_char (Tr x) = true → uri_tr x = ([u_marku], l) →
  goes_in uri_table false e (eqc 37) (Tr y) = true → uri_tr y = ([u_marku], h1) →
  goes_in uri_table false h1 hex_char (St h2) = true → goes_in uri_table false h2 hex_char (St l) = true →
  (∀ w, escaped query_char w = true → walk uri_table false l w = Some l) →
  escaped query_char (c :: w) = true →
  u_reads pre [e] st (c :: w) [l] (mkUS (us_uri st) (Some (zlen pre))).
Proof.
  intros Hx Ex Hy Ey H1 H2 Hl Hw post cs _ ->%list_elem_of_singleton.
  assert (∃ j cs1, next uri_table false e c = Some j ∧ resolve uri_tr j = ([u_marku], cs1) ∧
    walk uri_table false cs1 w = Some l) as (j & cs1 & E1 & E2 & E3).
  { cbn [escaped] in Hw. destruct (eqc 37 c) eqn:Hc.
    - destruct w as [|c1 [|c2 w]]; [done..|]. apply andb_true_iff in Hw as [[Hc1 Hc2]%andb_true_iff Hw].
      exists (Tr y), h1. split; [by apply (goes_in_next _ _ _ _ _ _ Hy)|]. split; [done|]. cbn [walk].
      rewrite (goes_in_next _ _ _ _ _ _ H1 Hc1), (goes_in_next _ _ _ _ _ _ H2 Hc2). by apply Hl.
    - apply andb_true_iff in Hw as [HP Hw]. exists (Tr x), l.
      split; [by apply (goes_in_next _ _ _ _ _ _ Hx)|]. split; [done|]. by apply Hl. }
  exists l. unfold uri_exec. cbn [app]. erewrite exec_tr; [|exact E1|by rewrite E2]. rewrite E2. cbn [snd].
  erewrite exec_walk by exact E3. rewrite zlen_app, zlen_cons. split; [|by apply list_elem_of_singleton].
  by replace (zlen pre + 1 + zlen w) with (zlen pre + (1 + zlen w)) by lia.
Qed.

Lemma u_query pre st c w :
  escaped query_char (c :: w) = true → u_reads pre [456] st (c :: w) [457] (mkUS (us_uri st) (Some (zlen pre))).
Proof.
  apply (u_escaped 456 457 466 468 7 8); try done; try (by vm_compute).
  intros w'. apply (walk_escaped _ _ query_char 457 7 8); by vm_compute.
Qed.

Lemma u_fragment pre st c w :
  escaped query_char (c :: w) = true → u_reads pre [453] st (c :: w) [454] (mkUS (us_uri st) (Some (zlen pre))).
Proof.
  apply (u_escaped 453 454 462 463 1 2); try done; try (by vm_compute).
  intros w'. apply (walk_escaped _ _ query_char 454 1 2); by vm_compute.
Qed.

(** The whole text: the machine ends in [cs], and the part since the mark is
    saved at the end. *)
Lemma u_whole cs u a set clear pre seg :
  u_reads [] [451] (mkUS Uri_new None) (pre ++ seg) [cs] (mkUS u (Some (zlen pre))) → text = pre ++ seg →
  uri_eof cs = [a] → saves a = Some (set, clear) → 451 ≤ cs →
  ∃ s, Create text = Ok (Some (set seg u)) s.
Proof.
  intros Hr Hb He Ha Hcs. destruct (Hr [] 451) as (cs' & E & ->%list_elem_of_singleton);
    [by rewrite app_nil_r|by apply list_elem_of_singleton|]. rewrite app_nil_r, <- Hb in E.
  assert (uri_act text a (zlen (pre ++ seg)) (mkUS u (Some (zlen pre)))
    = Ok tt (mkUS (set seg u) (if (clear : bool) then None else Some (zlen pre)))) as Ea.
  { apply (act_saves _ _ _ _ _ []); [done|by rewrite app_nil_r]. }
  assert (uri_run text (mkUS Uri_new None) = Ok cs (mkUS (set seg u) (if clear then None else Some (zlen pre)))) as Er.
  { unfold uri_run. erewrite bind_ok; [|exact E]. cbv beta iota. rewrite He. cbn [app]. rewrite Hb. cbn [run_acts].
    erewrite bind_ok; [|]. 2:{ erewrite bind_ok; [|rewrite <- Hb at 1; exact Ea]. reflexivity. } reflexivity. }
  eexists. unfold Create. run Er. erewrite bind_ok; [|reflexivity]. unfold mret, M_ret. do 2 f_equal.
  unfold uri_parser_error, uri_parser_first_final.
  rewrite (proj2 (Z.eqb_neq cs 0)), (proj2 (Z.leb_le 451 cs)) by lia. done.
Qed.

End Parts.

(** The Uris of the theorem, fewer than the grammar has texts for: a scheme of the
    grammar; user information and host of unreserved characters and
    sub-delimiters, so without a colon, escapes or brackets, which the grammar
    admits there (of user information with a colon only what follows it is read
    back, [userinfo_cut]); a port that fits; a path that is empty or begins with a
    slash; path, query and fragment of characters and escapes of the grammar. *)
Definition uri_ok (u : Uri) : Prop :=
  scheme_ok (m_scheme u) = true ∧ forallb host_char (m_userinfo u) = true ∧ forallb host_char (m_host u) = true ∧
  0 ≤ m_port u < 2 ^ 31 ∧
  (m_path u = [] ∨ ∃ w, m_path u = "/"%char :: w ∧ escaped uri_char w = true) ∧
  escaped query_char (m_query u) = true ∧ escaped query_char (m_fragment u) = true.

(** What arrives: the path that is printed, and the port, when it is printed. *)
Definition shown_port (u : Uri) : option Z := if isDefaultPort u then None else Some (m_port u).
Definition reparsed (u : Uri) : Uri :=
  mkUri (m_scheme u) (m_userinfo u) (m_host u) (getPath u) (m_query u) (m_fragment u)
    (match shown_port u with Some n => n | None => 0 end).

Definition authority (u : Uri) : str :=
  m_host u ++ match shown_port u with Some n => L ":" ++ dec n | None => [] end.
(** The text before the path. *)
Definition before_path (u : Uri) : str :=
  (m_scheme u ++ L "://") ++ (m_userinfo u ++ sep_if "@" (m_userinfo u)) ++ authority u.

Lemma u_dump_split u :
  0 ≤ m_port u →
  u_dump u = before_path u ++ getPath u ++ sep_if "?" (m_query u) ++ m_query u ++ sep_if "#" (m_fragment u) ++ m_fragment u.
Proof.
  intros Hp. unfold u_dump, before_path, authority, shown_port, to_string.
  rewrite (proj2 (Z.ltb_ge (m_port u) 0)) by lia. destruct (isDefaultPort u); by rewrite <- !(assoc_L (++)).
Qed.

Lemma u_front text u w :
  uri_ok u → escaped uri_char w = true →
  u_reads text [] [451] (mkUS Uri_new None) (before_path u ++ "/"%char :: w) [513]
    (mkUS (mkUri (m_scheme u) (m_userinfo u) (m_host u) [] [] [] (match shown_port u with Some n => n | None => 0 end))
      (Some (zlen (before_path u)))).
Proof.
  intros (Hs & Hui & Hh & Hp & _) Hw.
  assert (match shown_port u with Some k => 0 ≤ k < 2 ^ 31 | None => True end) as Hn.
  { unfold shown_port. by destruct (isDefaultPort u). }
  change ("/"%char :: w) with (["/"%char] ++ w). rewrite (assoc_L (++)). eapply u_app; [|by apply u_path].
  unfold before_path. rewrite <- !(assoc_L (++) (_ ++ L "://")), <- (assoc_L (++) (_ ++ sep_if _ _)).
  eapply u_app; [by apply u_scheme|]. cbn [app].
  assert (∀ n v, match n with Some k => 0 ≤ k < 2 ^ 31 | None => True end →
    match n with Some k => setPort k | None => id end (mkUri (m_scheme u) v (m_host u) [] [] [] 0)
    = mkUri (m_scheme u) v (m_host u) [] [] [] (match n with Some k => k | None => 0 end)) as Hport.
  { intros [k|] v Hk; [|done]. unfold setPort. cbn. rewrite wrapu_small, wraps_small by (unfold in_u, in_s; lia). done. }
  unfold authority. destruct (m_userinfo u) as [|c ui] eqn:Eui.
  - cbn [sep_if app]. rewrite <- Hport by done. by apply (u_hostport _ _ _ _ _ _ (setScheme (m_scheme u) Uri_new) _ _ auth_511).
  - eapply u_app; [by apply u_userinfo|].
    rewrite <- Hport, (assoc_L (++) (m_scheme u ++ L "://") ((c :: ui) ++ sep_if "@" (c :: ui))) by done.
    by apply (u_hostport _ _ _ _ _ _ (setUserinfo (c :: ui) (setScheme (m_scheme u) Uri_new)) _ _ auth_522).
Qed.

Lemma path_text u : uri_ok u → ∃ w, getPath u = "/"%char :: w ∧ escaped uri_char w = true.
Proof. intros (_ & _ & _ & _ & [E|(w & E & Hw)] & _); unfold getPath; rewrite E; [by exists []|by exists w]. Qed.

Lemma reparsed_same u : uri_ok u → getPort (reparsed u) = getPort u ∧ u_dump (reparsed u) = u_dump u.
Proof.
  intros Hu. destruct (path_text u Hu) as (w & Ew & _).
  assert (getPath (reparsed u) = getPath u) as Hpath by (unfold reparsed, getPath at 1; cbn; by rewrite Ew).
  assert (isDefaultPort (reparsed u) = isDefaultPort u ∧ (isDefaultPort u = false → m_port (reparsed u) = m_port u)) as [Hd Hp].
  { unfold reparsed, shown_port. destruct (isDefaultPort u) eqn:E; split; [done|done|by rewrite <- E|done]. }
  split.
  - assert (m_port (reparsed u) = if isDefaultPort u then 0 else m_port u) as Hm.
    { unfold reparsed, shown_port. by destruct (isDefaultPort u). }
    unfold getPort. rewrite Hm. change (is_scheme (reparsed u)) with (is_scheme u). unfold isDefaultPort.
    destruct (Z.eqb_spec (m_port u) 0) as [E0|E0]; [by rewrite E0|].
    destruct (is_scheme u "http" "ws"); [destruct (Z.eqb_spec (m_port u) 80)|
      destruct (is_scheme u "https" "wss"); [destruct (Z.eqb_spec (m_port u) 443)|]];
      rewrite ?(proj2 (Z.eqb_neq (m_port u) 0)) by done; done.
  - unfold u_dump. rewrite Hd, Hpath. by destruct (isDefaultPort u); [|rewrite Hp].
Qed.

(** C17: Uri::Create reads back what Uri::dump prints, for a Uri with a scheme of
    the grammar, with user information and a host of unreserved characters and
    sub-delimiters (no colon, no escapes, no brackets), with a port that is an
    int, a path that is empty or begins with a slash, and path, query and fragment
    of characters and escapes that the grammar admits. The text is parsed without
    exception to a Uri with the same scheme, user information, host, query and
    fragment, and with the path that getPath gives; a port that is the default of
    the scheme, which dump leaves out, is not set. The parsed Uri has the same
    getPort and prints to the same text. *)
Theorem Create_dump u :
  uri_ok u →
  (∃ s, Create (u_dump u) = Ok (Some (reparsed u)) s) ∧
  getPort (reparsed u) = getPort u ∧ u_dump (reparsed u) = u_dump u.
Proof.
  intros Hu. pose proof Hu as (_ & _ & _ & Hp & _). split; [|by apply reparsed_same].
  destruct (path_text u Hu) as (w & Ew & Hw). pose proof (u_dump_split u ltac:(lia)) as Et. rewrite Ew in Et.
  pose proof (u_front (u_dump u) u w Hu Hw) as Hfront.
  unfold reparsed. rewrite Ew.
  pose (P := before_path u). pose (U := mkUri (m_scheme u) (m_userinfo u) (m_host u) [] [] [] (match shown_port u with Some n => n | None => 0 end)).
  fold P U in Hfront, Et. destruct Hu as (_ & _ & _ & _ & _ & Hq & Hf).
  assert (∀ q Qs, (q = "?"%char ∧ Qs = [456]) ∨ (q = "#"%char ∧ Qs = [453]) →
    u_reads (u_dump u) [] [451] (mkUS Uri_new None) ((P ++ "/"%char :: w) ++ [q]) Qs (mkUS (setPath ("/"%char :: w) U) None)) as Hpath.
  { intros q Qs Hq'. eapply u_app; [exact Hfront|].
    destruct Hq' as [[-> ->]|[-> ->]]; [apply (u_saved (u_dump u) P _ [513] U u_save_path setPath true (eqc 63))|
      apply (u_saved (u_dump u) P _ [513] U u_save_path setPath true (eqc 35))]; try done; by vm_compute. }
  destruct (m_query u) as [|c1 q] eqn:Eq, (m_fragment u) as [|c2 f] eqn:Ef; cbn [sep_if app] in Et.
  - rewrite app_nil_r in Et.
    by apply (u_whole (u_dump u) 513 U u_save_path setPath true P ("/"%char :: w)).
  - eapply (u_whole (u_dump u) 454 (setPath ("/"%char :: w) U) u_save_fragment setFragment true ((P ++ "/"%char :: w) ++ ["#"%char]) (c2 :: f)); try done.
    + eapply u_app; [by apply Hpath; right|]. by apply u_fragment.
    + by rewrite Et, <- !(assoc_L (++)).
  - eapply (u_whole (u_dump u) 457 (setPath ("/"%char :: w) U) u_save_query setQuery true ((P ++ "/"%char :: w) ++ ["?"%char]) (c1 :: q)); try done.
    + eapply u_app; [by apply Hpath; left|]. by apply u_query.
    + by rewrite Et, <- !(assoc_L (++)), app_nil_r.
  - eapply (u_whole (u_dump u) 454 (setQuery (c1 :: q) (setPath ("/"%char :: w) U)) u_save_fragment setFragment true
      ((((P ++ "/"%char :: w) ++ ["?"%char]) ++ c1 :: q) ++ ["#"%char]) (c2 :: f)); try done.
    + eapply u_app; [eapply u_app; [eapply u_app; [by apply Hpath; left|by apply u_query]|]|].
      { apply (u_saved (u_dump u) ((P ++ "/"%char :: w) ++ ["?"%char]) (c1 :: q) [457] _ u_save_query setQuery true (eqc 35) _ [453]); done. }
      by apply u_fragment.
    + by rewrite Et, <- !(assoc_L (++)).
Qed.

Definition demo_uri : Uri := mkUri (L "http") (L "me") (L "www.x.org") [] (L "a=%41") (L "top") 8080.

Lemma Create_dump_witness :
  (∃ s, Create (L "http://me@www.x.org:8080/?a=%41#top") = Ok (Some (reparsed demo_uri)) s) ∧ getPort (reparsed demo_uri) = 8080.
Proof.
  destruct (Create_dump demo_uri) as (H1 & H2 & _); [|by split].
  split; [done|]. split; [done|]. split; [done|]. split; [done|]. split; [by left|]. by split.
Defined.
