(* ===== verification/Connection.v ===== *)
(** HttpConnection and HttpConnectionPool (skt/http/http_connection.cpp).

    A connection is a stream (Stream) with the response parser on it. The
    resolver is getaddrinfo; [dial] is what connecting a new socket to an
    address gives: a stream, or None when connect fails. The texts of the
    errors are left out of HttpResult. *)

From stdpp Require Import base list strings gmap.
From Stdlib Require Import Ascii Lia.
From S2P Require Import Prelude StdOrdered CString Http Ragel HttpParser Stream Session.
From S2P Require Import ClientTable ClientParser Address UriTable Uri.

(** HttpResult::Error *)
Inductive Error : Type :=
| OK
| INVALID_URL
| INVALID_HOST
| CONNECT_FAIL
| SEND_CLOSE_BY_PEER
| SEND_SOCKET_ERROR
| TIMEOUT
| CREATE_SOCKET_ERROR
| POOL_GET_CONNECTION
| POOL_INVALID_CONNECTION.

Record HttpResult : Type := mkResult { r_result : Error; r_response : option HttpResponse }.

Definition fails (e : Error) : HttpResult := mkResult e None.

Section Receive.
(** The buffer size is that of the request parser. [mem]: the memory the parser
    is built in. *)
Context (buff_size : Z) (mem : httpclient_parser) (lexical_cast : str → option Z).

(** The loops that read and parse, for the head ([chunk] false) and for the
    header of a chunk. [pending]: the first offset (len) bytes of the buffer. *)
Fixpoint recv_rounds (chunk : bool) (fuel : nat) (pending : str) (ps : ResponseParser)
  : M Conn (option (str * ResponseParser)) :=
  match fuel with
  | O => mnofuel
  | S fuel' =>
    '(r, d) ← stream_read (u64 (buff_size - zlen pending));
    if r <=? 0 then hang_up
    else
      let data := pending ++ d in
      '((_, rest), ps') ← on_parser (c_excute data NUL chunk) ps;
      if c_hasError ps' then hang_up
      else if zlen rest =? i32 buff_size then hang_up
      else if negb (c_isFinished ps' =? 0) then mret (Some (rest, ps'))
      else recv_rounds chunk fuel' rest ps'
  end.

(** The rest of a chunk that is longer than what the buffer holds. *)
Fixpoint recv_left (fuel : nat) (left : Z) (body : str) : M Conn (option str) :=
  match fuel with
  | O => mnofuel
  | S fuel' =>
    if 0 <? left
    then '(rt, d) ← stream_read (if i32 buff_size <? left then i32 buff_size else left);
         if rt <=? 0 then hang_up else recv_left fuel' (left - rt) (body ++ d)
    else mret (Some body)
  end.

(** body.append(data, n) for an int n: a negative one is a length beyond
    max_size. *)
Definition append (body data : str) (n : Z) : M Conn str :=
  if n <? 0 then mthrow (length_error "basic_string::append") else mret (body ++ take (Z.to_nat n) data).

(** The chunks. [fuel] bounds their number, [io] the rounds of each loop over
    the stream. *)
Fixpoint recv_chunks (fuel io : nat) (pending body : str) (ps : ResponseParser) : M Conn (option (str * ResponseParser)) :=
  match fuel with
  | O => mnofuel
  | S fuel' =>
    h ← recv_rounds true io pending ps;
    match h with
    | None => mret None
    | Some (data, ps') =>
      let len := zlen data - 2 in
      let content_len := cp_content_len (c_parser ps') in
      next ← (if content_len <=? len
              then body' ← append body data content_len;
                   mret (Some (drop (Z.to_nat content_len) (take (Z.to_nat len) data), body'))
              else body' ← append body data len;
                   b ← recv_left io (content_len - len) body';
                   mret (match b with Some b => Some ([], b) | None => None end));
      match next with
      | None => mret None
      | Some (rest, body') =>
        if negb (cp_chunks_done (c_parser ps') =? 0) then mret (Some (body', ps'))
        else recv_chunks fuel' io rest body' ps'
      end
    end
  end.

(** HttpConnection::recvResponse *)
Definition recvResponse (fuel io : nat) : M Conn (option HttpResponse) :=
  h ← recv_rounds false io [] (ResponseParser_new mem);
  match h with
  | None => mret None
  | Some (data, ps) =>
    if negb (cp_chunked (c_parser ps) =? 0)
    then r ← recv_chunks fuel io data [] ps;
         match r with
         | None => mret None
         | Some (body, ps') => mret (Some (p_setBody body (pp_data (c_cb ps'))))
         end
    else
      let length := i64 (pp_getContentLength lexical_cast (c_cb ps)) in
      if 0 <? length
      then b ← recv_body io data length;
           match b with
           | None => mret None
           | Some body => mret (Some (p_setBody body (pp_data (c_cb ps))))
           end
      else mret (Some (pp_data (c_cb ps)))
  end.

(** HttpConnection::sendRequest *)
Definition sendRequest (io : nat) (req : HttpRequest) : M Conn Z :=
  let data := q_dump req in writeFixSize io data (zlen data).

(** ** Requests *)

(** The loop over the headers: the request, and has_host. *)
Definition add_header (acc : HttpRequest * bool) (kv : str * str) : HttpRequest * bool :=
  let '(req, has_host) := acc in
  let '(k, v) := kv in
  if strcasecmp_eq k (L "connection")
  then (if strcasecmp_eq v (L "keep-alive") then q_setClose false req else req, has_host)
  else
    let has_host' := if negb has_host && strcasecmp_eq k (L "host") then negb (bool_decide (v = [])) else has_host in
    (q_setHeader k v req, has_host').

(** The request DoRequest sends: [headers] is a std::map, in its order. *)
Definition build_request (method : HttpMethod) (path : str) (close : bool) (host : str)
    (headers : list (str * str)) (body : str) : HttpRequest :=
  let req := q_setClose close (q_setMethod method (q_setPath path (HttpRequest_new 17 true))) in
  let '(req, has_host) := foldl add_header (req, false) headers in
  q_setBody body (if has_host then req else q_setHeader (L "Host") host req).

Section Dial.
Context (getaddrinfo : str → option str → option (list raw_addr)) (dial : Address → option Conn).

(** Uri::createAddress *)
Definition createAddress (u : Uri) : option Address :=
  match LookupAnyIPAddress getaddrinfo (m_host u) with
  | Some a => Some (Address.setPort (u16 (Uri.getPort u)) a)
  | None => None
  end.

(** HttpConnection::DoRequest(req, uri, timeout_ms): the result and the
    connection, which is closed when it is destroyed. *)
Definition DoRequest (fuel io : nat) (req : HttpRequest) (u : Uri) : result (option Conn) HttpResult :=
  match createAddress u with
  | None => Ok (fails INVALID_HOST) None
  | Some addr =>
    match dial addr with
    | None => Ok (fails CONNECT_FAIL) None
    | Some c =>
      match (rt ← sendRequest io req;
             if rt <? 0 then mret (fails SEND_SOCKET_ERROR)
             else rsp ← recvResponse fuel io;
                  match rsp with
                  | None => mret (fails TIMEOUT)
                  | Some r => mret (mkResult OK (Some r))
                  end) c with
      | Ok r c' => Ok r (Some c')
      | Exc e c' => Exc e (Some c')
      | Stop w => Stop w
      | NoFuel => NoFuel
      end
    end
  end.

(** DoRequest(method, uri, ...) *)
Definition DoRequest_uri (fuel io : nat) (method : HttpMethod) (u : Uri) (headers : list (str * str)) (body : str) :=
  DoRequest fuel io (build_request method (getPath u) true (m_host u) headers body) u.

(** DoRequest(method, url, ...); DoGet and DoPost are the methods GET and
    POST. *)
Definition DoRequest_url (fuel io : nat) (method : HttpMethod) (url : str) (headers : list (str * str)) (body : str)
  : result (option Conn) HttpResult :=
  match Create url with
  | Ok (Some u) _ => DoRequest_uri fuel io method u headers body
  | Ok None _ => Ok (fails INVALID_URL) None
  | Exc e _ => Exc e None
  | Stop w => Stop w
  | NoFuel => NoFuel
  end.
Definition DoGet (fuel io : nat) := DoRequest_url fuel io GET.
Definition DoPost (fuel io : nat) := DoRequest_url fuel io POST.

(** ** The pool *)

(** A pooled connection: m_createTime, which nothing sets, and m_request. *)
Record PoolConn : Type := mkPC { pc_conn : Conn; pc_createTime : Z; pc_request : Z }.

Record Pool : Type := mkPool { m_conns : list PoolConn; m_total : Z }.

(** The fields of the pool that never change; m_maxsize is not read by any
    method. *)
Context (p_host p_vhost : str) (p_port m_maxAliveTime m_maxRequest : Z).

(** The loop of getConnection: the connections to delete, the one taken, and
    those left. *)
Fixpoint take_idle (now : Z) (l : list PoolConn) : list PoolConn * option PoolConn * list PoolConn :=
  match l with
  | [] => ([], None, [])
  | c :: l' =>
    if negb (c_open (pc_conn c)) || (now <? u64 (pc_createTime c + m_maxAliveTime))
    then let '(bad, found, rest) := take_idle now l' in (c :: bad, found, rest)
    else ([], Some c, l')
  end.

(** A new connection of the pool. *)
Definition pool_dial : option PoolConn :=
  match LookupAnyIPAddress getaddrinfo p_host with
  | None => None
  | Some a =>
    match dial (Address.setPort (u16 p_port) a) with
    | None => None
    | Some c => Some (mkPC c 0 0)
    end
  end.

Definition getConnection (now : Z) : M Pool (option PoolConn) :=
  p ← mget;
  let '(bad, found, rest) := take_idle now (m_conns p) in
  let total := i32 (m_total p - zlen bad) in
  match found with
  | Some c => mput (mkPool rest total) ≫= λ _, mret (Some c)
  | None =>
    match pool_dial with
    | None => mput (mkPool rest total) ≫= λ _, mret None
    | Some c => mput (mkPool rest (i32 (total + 1))) ≫= λ _, mret (Some c)
    end
  end.

(** ReleasePtr, the deleter of what getConnection returns. *)
Definition ReleasePtr (now : Z) (c : PoolConn) : M Pool unit :=
  p ← mget;
  let c' := mkPC (pc_conn c) (pc_createTime c) (u64 (pc_request c + 1)) in
  if negb (c_open (pc_conn c')) || (now <=? u64 (pc_createTime c' + m_maxAliveTime)) || (m_maxRequest <? pc_request c')
  then mput (mkPool (m_conns p) (i32 (m_total p - 1)))
  else mput (mkPool (m_conns p ++ [c']) (m_total p)).

(** What a call does with the connection it holds: when it returns, or an
    exception leaves it, the connection is released. *)
Definition with_connection {A} (now : Z) (c : PoolConn) (k : M Conn A) : M Pool A := λ p,
  let back c' := ReleasePtr now (mkPC c' (pc_createTime c) (pc_request c)) in
  match k (pc_conn c) with
  | Ok a c' => (back c' ≫= λ _, mret a) p
  | Exc e c' => (back c' ≫= λ _, mthrow e) p
  | Stop w => Stop w
  | NoFuel => NoFuel
  end.

(** HttpConnectionPool::doRequest(req, timeout_ms); [now]: at getConnection,
    [now']: at the release. *)
Definition pool_doRequest (fuel io : nat) (now now' : Z) (req : HttpRequest) : M Pool HttpResult :=
  conn ← getConnection now;
  match conn with
  | None => mret (fails POOL_GET_CONNECTION)
  | Some c =>
    with_connection now' c
      (rt ← sendRequest io req;
       if rt =? 0 then mret (fails SEND_CLOSE_BY_PEER)
       else if rt <? 0 then mret (fails SEND_SOCKET_ERROR)
       else rsp ← recvResponse fuel io;
            match rsp with
            | None => mret (fails TIMEOUT)
            | Some r => mret (mkResult OK (Some r))
            end)
  end.

(** doRequest(method, url, ...); doGet and doPost are the methods GET and
    POST. *)
Definition pool_doRequest_url (fuel io : nat) (now now' : Z) (method : HttpMethod) (url : str)
    (headers : list (str * str)) (body : str) : M Pool HttpResult :=
  pool_doRequest fuel io now now'
    (build_request method url false (match p_vhost with [] => p_host | _ => p_vhost end) headers body).
Definition target (u : Uri) : str :=
  getPath u ++ sep_if "?" (m_query u) ++ m_query u ++ sep_if "#" (m_fragment u) ++ m_fragment u.
Definition pool_doRequest_uri (fuel io : nat) (now now' : Z) (method : HttpMethod) (u : Uri) :=
  pool_doRequest_url fuel io now now' method (target u).
Definition doGet (fuel io : nat) (now now' : Z) := pool_doRequest_url fuel io now now' GET.
Definition doPost (fuel io : nat) (now now' : Z) := pool_doRequest_url fuel io now now' POST.

End Dial.
End Receive.
