(* ===== verification/ConnectionProps.v ===== *)
(** Properties of the client: responses that arrive, chunked bodies, requests
    and the connection pool. *)

From stdpp Require Import base list strings gmap sets.
From Stdlib Require Import Ascii Lia.
From S2P Require Import Prelude StdOrdered CString Http HttpProps Ragel HttpParser HttpParserSafe HttpRoundtrip.
From S2P Require Import Stream Session SessionProps Decimal ClientTable ClientParser ClientParserSafe ClientRoundtrip.
From S2P Require Import Address UriTable Uri Connection.

(** ** A response of known length *)

(** No length is announced for a response without a body. *)
Definition p_length_ok (r : HttpResponse) : Prop :=
  p_body r = [] → Forall (λ kv, casefold kv.1 ≠ casefold (L "content-length")) (p_headers r).

(** The response the caller gets. *)
Definition p_received (r : HttpResponse) : HttpResponse := p_setBody (p_body r) (p_parsed r).

Section Client.
Context (buff_size : Z) (Hbs : 0 < buff_size < 2 ^ 31) (mem : httpclient_parser).
Context (lexical_cast : str → option Z) (Hcast : ∀ n, 0 ≤ n < 2 ^ 64 → lexical_cast (dec n) = Some n).

(** A printed response has arrived, its head with the first read. *)
Definition response_arrives (r : HttpResponse) (extra : str) (c : Conn) : Prop :=
  c_open c = true ∧ chunks_ok (c_in c) ∧ p_printable r ∧ p_length_ok r ∧ zlen (p_body r) < 2 ^ 31 ∧
  arrived (c_in c) = p_dump r ++ extra ∧
  ∃ d0 i, c_in c = Data d0 :: i ∧ zlen (p_head r) ≤ zlen d0 ∧ zlen (p_head r) ≤ buff_size.

Lemma p_head_nonempty r : 0 < zlen (p_head r).
Proof. unfold p_head. rewrite zlen_app. pose proof (zlen_nonneg (lines (status_line r :: rsp_lines r))). change (zlen CRLF) with 2. lia. Qed.

Lemma p_content_length r :
  p_length_ok r → zlen (p_body r) < 2 ^ 31 →
  pp_getContentLength lexical_cast (mkPP (p_parsed r) 0) = zlen (p_body r).
Proof.
  intros Hl Hb. unfold pp_getContentLength, p_parsed. cbn [pp_data]. rewrite p_set_headers_all. unfold p_printed_headers.
  rewrite (cons_middle _ (filter _ _)), (assoc_L (++)).
  apply (length_found lexical_cast Hcast); [|done]. intros E.
  apply Forall_app. split; [by apply Forall_keep, Hl|]. constructor; [by vm_compute|constructor].
Qed.

(** A read with room for all that has arrived together. *)
Lemma read_whole n d i c :
  c_open c = true → c_in c = Data d :: i → zlen d ≤ n < 2 ^ 31 → stream_read n c = Ok (zlen d, d) (set_in i c).
Proof.
  intros Ho Ein Hn. pose proof (zlen_nonneg d). unfold stream_read. rewrite Ho, Ein. cbn [negb].
  rewrite take_ge, drop_ge by (unfold zlen in *; lia). by rewrite wraps_small by (unfold in_s; lia).
Qed.

(** What a round does once the parser has answered. *)
Lemma round_done chunk fuel pending d data rest' ps ps' c c' :
  stream_read (u64 (buff_size - zlen pending)) c = Ok (zlen d, d) c' → 0 < zlen d →
  c_excute (pending ++ d) NUL chunk ps = Ok (data, rest') ps' →
  c_isFinished ps' = 1 → pp_error (c_cb ps') = 0 → zlen rest' < buff_size →
  recv_rounds buff_size chunk (S fuel) pending ps c = Ok (Some (rest', ps')) c'.
Proof.
  intros E Hd Ep Hf He Hr. cbn [recv_rounds]. run E. rewrite (proj2 (Z.leb_gt _ 0)) by lia.
  erewrite bind_ok; [|unfold on_parser; rewrite Ep; reflexivity]. cbv beta iota.
  assert (c_hasError ps' = false) as ->.
  { unfold c_hasError, pp_hasError. rewrite He. unfold c_isFinished, httpclient_parser_finish in Hf.
    destruct (httpclient_parser_has_error _); [done|]. done. }
  rewrite (wraps_small 32), (proj2 (Z.eqb_neq (zlen rest') buff_size)) by (unfold in_s; lia). by rewrite Hf.
Qed.

Lemma recvResponse_ok fuel io r extra c :
  response_arrives r extra c → (length (c_in c) + 2 ≤ io)%nat →
  ∃ rest, recvResponse buff_size mem lexical_cast fuel io c = Ok (Some (p_received r)) (set_in rest c) ∧ chunks_ok rest.
Proof.
  intros (Ho & Hc & Hr & Hlok & Hb & Har & d0 & i & Ein & Hh1 & Hh2) Hf. destruct io as [|io]; [lia|].
  pose proof (p_head_nonempty r) as Hh0. rewrite p_dump_head, <- (assoc_L (++)) in Har.
  destruct (first_read buff_size Hbs c d0 i _ _ Ho Hc Ein Har Hh1 Hh2) as (b0 & rest & E & Hgot & Hcr & Hlr & Hcat).
  pose proof (zlen_nonneg b0) as Hb0. rewrite zlen_app in Hgot. pose proof (zlen_nonneg (p_body r)) as Hz.
  destruct (c_parse_head r b0 mem Hr) as (ps & Ep & Hfin & Hps & Hch); [lia|rewrite zlen_app; lia|].
  assert (recv_rounds buff_size false (S io) [] (ResponseParser_new mem) c = Ok (Some (b0, ps)) (set_in rest c)) as Er.
  { eapply (round_done false io [] (p_head r ++ b0)); [|rewrite zlen_app; lia|exact Ep|done|by rewrite Hps|lia].
    change (zlen []) with 0. by rewrite Z.sub_0_r, wrapu_small by (unfold in_u; lia). }
  unfold recvResponse. run Er. cbv beta iota. rewrite Hch. cbn [Z.eqb negb]. rewrite Hps, p_content_length by done.
  rewrite (wraps_small 64) by (unfold in_s; lia). destruct (Z.ltb_spec 0 (zlen (p_body r))) as [Hpos|Hnil].
  - destruct (recv_body_ok (S io) b0 (p_body r) extra (set_in rest c)) as (rest' & E' & Hc' & _); try done; [cbn [c_in set_in]; lia|].
    exists rest'. by run E'.
  - exists rest. split; [|done]. cbn [pp_data]. unfold p_received.
    assert (p_body r = []) as Hq. { destruct (p_body r); [done|]. rewrite zlen_cons in Hnil. pose proof (zlen_nonneg l). lia. }
    rewrite Hq. unfold p_parsed. do 3 f_equal.
    assert (∀ hs r, p_body r = [] → p_setBody [] (p_set_headers hs r) = p_set_headers hs r) as Hset; [|by rewrite Hset].
    clear. intros hs. induction hs as [|kv hs IH]; intros r Hr; [destruct r; cbn in *; by subst|]. by apply IH.
Qed.

(** ** Chunks *)

(** The header [w] of a chunk announces the length [n] in base 16. *)
Definition announces (w : str) (n : Z) : Prop :=
  w ≠ [] ∧ forallb hex_char w = true ∧ digits_loop 16 0 w = n ∧ 0 ≤ n < 2 ^ 31.

Lemma digits_loop_end w t s acc :
  forallb hex_char w = true → digit_val 16 t = None → digits_loop 16 acc (w ++ t :: s) = digits_loop 16 acc w.
Proof.
  intros Hw Ht. revert acc. induction w as [|c w IH]; intros acc; [cbn; by rewrite Ht|].
  cbn [forallb] in Hw. apply andb_true_iff in Hw as [_ Hw]. cbn [app digits_loop].
  destruct (digit_val 16 c); [|done]. by apply IH.
Qed.

Lemma hex_not_blank c : hex_char c = true → isspace c = false ∧ c ≠ "-"%char ∧ c ≠ "+"%char ∧ c ≠ "x"%char ∧ c ≠ "X"%char.
Proof.
  intros Hc. assert (forallb (λ c, implb (hex_char c) (negb (isspace c || bool_decide (c = "-"%char) || bool_decide (c = "+"%char)
    || bool_decide (c = "x"%char) || bool_decide (c = "X"%char)))) all_chars = true) as Hall by (by vm_compute).
  rewrite forallb_forall in Hall. specialize (Hall c (proj1 (list_elem_of_In _ _) (all_chars_complete c))). cbv beta in Hall.
  rewrite Hc in Hall. cbn [implb] in Hall. rewrite negb_true_iff, !orb_false_iff, !bool_decide_eq_false in Hall. naive_solver.
Qed.

Lemma strtol_announced w n s : announces w n → strtol 16 (w ++ CR :: s) = n.
Proof.
  intros (Hne & Hw & Hn & Hr). destruct w as [|c w]; [done|]. pose proof Hw as [Hc Hw']%andb_true_iff.
  destruct (hex_not_blank c Hc) as (H1 & H2 & H3 & _). unfold strtol. cbn [app skip_spaces]. rewrite H1, !bool_decide_false by done.
  assert (skip_0x 16 (c :: w ++ CR :: s) = (c :: w) ++ CR :: s) as ->.
  { unfold skip_0x. destruct w as [|c2 w]; cbn [app]; [destruct s; [done|]|].
    - rewrite (bool_decide_false (CR = "x"%char ∨ CR = "X"%char)) by (by intros [|]). by rewrite andb_false_r.
    - cbn [forallb] in Hw'. apply andb_true_iff in Hw' as [Hc2 _]. destruct (hex_not_blank c2 Hc2) as (_ & _ & _ & H4 & H5).
      destruct (w ++ CR :: s); [done|]. rewrite (bool_decide_false (c2 = "x"%char ∨ c2 = "X"%char)) by (by intros [|]).
      by rewrite andb_false_r. }
  rewrite digits_loop_end by done. rewrite Hn. lia.
Qed.

(** The parser on the header of a chunk followed by anything. *)
Lemma chunk_header w n rest ps :
  announces w n → zlen (w ++ CRLF ++ rest) < 2 ^ 31 →
  ∃ ps', c_excute (w ++ CRLF ++ rest) NUL true ps = Ok (zlen w + 2, rest) ps' ∧ c_isFinished ps' = 1 ∧
    c_cb ps' = c_cb ps ∧ cp_content_len (c_parser ps') = n ∧ cp_chunks_done (c_parser ps') = Z.b2z (n <=? 0).
Proof.
  intros Ha Hl. pose proof Ha as (Hne & Hw & _ & Hn). destruct w as [|c w]; [done|]. cbn [forallb] in Hw.
  apply andb_true_iff in Hw as [Hc Hw]. pose (buffer := (c :: w) ++ CRLF ++ rest). fold buffer in Hl |- *.
  assert (zlen buffer = 1 + zlen w + 2 + zlen rest) as Hz.
  { unfold buffer. rewrite !zlen_app, zlen_cons. change (zlen CRLF) with 2. lia. }
  pose proof (zlen_nonneg w). pose proof (zlen_nonneg rest). assert (0 < zlen buffer < 2 ^ 31) as Hlen by lia.
  pose (s0 := cp_upd c_reset (cp_upd httpclient_parser_init ps)).
  pose (s1 := cp_upd (cp_set_mark 0) s0).
  pose (s2 := cp_upd (λ h, cp_set_done (Z.b2z (n <=? 0)) (cp_set_len n (cp_set_chunked 1 h))) s1).
  assert (client_act buffer c_chunk_size (1 + zlen w) s1 = Ok tt s2) as Ec.
  { unfold client_act. erewrite bind_ok; [|reflexivity].
    assert (i32 (strtol 16 (PTR_TO buffer (cp_mark (c_parser s1)))) = n) as ->.
    { change (PTR_TO buffer (cp_mark (c_parser s1))) with ((c :: w) ++ CR :: LF :: rest).
      rewrite (strtol_announced _ n) by done. apply wraps_small; unfold in_s; lia. }
    rewrite bind_modify. rewrite c_element_ok by (change (cp_mark (c_parser _)) with 0; lia).
    do 2 f_equal. destruct (n <=? 0); unfold ccb_upd, on_response_last_chunk, on_response_chunk; cbn; by destruct ps. }
  assert (client_exec buffer 1 0 buffer s0 = Ok (120, zlen (c :: w) + 2) (cp_upd (cp_set_body (zlen (c :: w) + 2)) s2)) as E.
  { unfold client_exec. change (exec client_table client_tr false (client_act buffer) client_breaks 2 1 0 buffer s0)
      with (exec client_table client_tr false (client_act buffer) client_breaks 2 1 0 (c :: w ++ [CR; LF] ++ rest) s0).
    erewrite exec_tr; [|apply (goes_in_next _ _ 1 hex_char (Tr 0)); [by vm_compute|done]|reflexivity].
    cbn [resolve client_tr snd]. erewrite (exec_walk _ _ _ _ _ _ 2 w 2).
    2:{ apply (walk_class client_table false hex_char); [|done]. intros x. apply goes_in_next. by vm_compute. }
    cbn [app]. erewrite exec_tr; [|apply (goes_in_next _ _ 2 (eqc 13) (Tr 4)); [by vm_compute|done]|].
    2:{ change ((resolve client_tr (Tr 4)).1) with [c_chunk_size]. cbn [run_acts].
        replace (0 + 1 + zlen w) with (1 + zlen w) by lia. erewrite bind_ok; [|exact Ec]. reflexivity. }
    cbn [resolve client_tr snd]. erewrite exec_break; [|apply (goes_in_next _ _ 3 (eqc 10) (Tr 7)); [by vm_compute|done]|reflexivity].
    cbn [resolve client_tr snd]. rewrite zlen_cons. replace (0 + 1 + zlen w + 1 + 1) with (1 + zlen w + 2) by lia. done. }
  exists (cp_upd (λ h, cp_set_nread (zlen (c :: w) + 2) (cp_set_cs 120 h)) (cp_upd (cp_set_body (zlen (c :: w) + 2)) s2)).
  split; [|done].
  assert (0 ≤ zlen (c :: w) + 2 ≤ zlen buffer) as Hp by (rewrite zlen_cons; lia).
  rewrite (c_excute_of buffer true ps (zlen (c :: w) + 2)
    (cp_upd (λ h, cp_set_nread (zlen (c :: w) + 2) (cp_set_cs 120 h)) (cp_upd (cp_set_body (zlen (c :: w) + 2)) s2))); [| |done|lia].
  - do 2 f_equal. unfold buffer. rewrite (assoc_L (++)).
    replace (Z.to_nat (zlen (c :: w) + 2)) with (length ((c :: w) ++ CRLF)); [apply drop_app_length|].
    rewrite length_app. unfold zlen. cbn [length CRLF]. lia.
  - eapply (c_execute_after _ _ _ _ _ false); [done|exact E|done| |by apply Hp].
    unfold c_offsets. cbn -[zlen]. by split_and!; auto with lia.
Qed.

(** A chunk as it is sent. *)
Definition chunk_text (wd : str * str) : str := wd.1 ++ CRLF ++ wd.2 ++ CRLF.
Definition chunk_ok (wd : str * str) : Prop :=
  announces wd.1 (zlen wd.2) ∧ wd.2 ≠ [] ∧ zlen (chunk_text wd) ≤ buff_size.

(** One read that brings exactly a header and what comes with it. *)
Lemma chunk_round io w n rest i c ps :
  c_open c = true → c_in c = Data (w ++ CRLF ++ rest) :: i → announces w n → zlen (w ++ CRLF ++ rest) ≤ buff_size →
  pp_error (c_cb ps) = 0 →
  ∃ ps', recv_rounds buff_size true (S io) [] ps c = Ok (Some (rest, ps')) (set_in i c) ∧
    c_cb ps' = c_cb ps ∧ cp_content_len (c_parser ps') = n ∧ cp_chunks_done (c_parser ps') = Z.b2z (n <=? 0).
Proof.
  intros Ho Ein Ha Hl He. destruct (chunk_header w n rest ps Ha) as (ps' & Ep & Hf & Hcb & Hn & Hd); [lia|].
  assert (0 < zlen w) as Hw. { destruct Ha as (Hne & _). destruct w; [done|]. rewrite zlen_cons. pose proof (zlen_nonneg w). lia. }
  assert (zlen (w ++ CRLF ++ rest) = zlen w + 2 + zlen rest) as Hz by (rewrite !zlen_app; change (zlen CRLF) with 2; lia).
  pose proof (zlen_nonneg rest). exists ps'. split; [|done].
  eapply (round_done true io [] (w ++ CRLF ++ rest)); [|lia|exact Ep|done|by rewrite Hcb|lia].
  change (zlen []) with 0. rewrite Z.sub_0_r, wrapu_small by (unfold in_u; lia).
  apply read_whole; [done|done|lia].
Qed.

Lemma recv_chunks_ok chunks wl fuel io i c body ps :
  c_open c = true → Forall chunk_ok chunks → announces wl 0 → zlen (wl ++ CRLF ++ CRLF) ≤ buff_size →
  c_in c = (Data ∘ chunk_text <$> chunks) ++ Data (wl ++ CRLF ++ CRLF) :: i →
  pp_error (c_cb ps) = 0 → (length chunks < fuel)%nat →
  ∃ ps', recv_chunks buff_size fuel (S io) [] body ps c = Ok (Some (body ++ concat (snd <$> chunks), ps')) (set_in i c) ∧
    c_cb ps' = c_cb ps.
Proof.
  intros Ho Hch Hl Hll. revert fuel c Ho body ps. induction Hch as [|[w d] chunks (Ha & Hd & Hs) Hch IH]; intros fuel c Ho body ps Ein He Hf;
    (destruct fuel as [|fuel]; [cbn in Hf; lia|]); cbn [recv_chunks fmap list_fmap app] in *.
  - destruct (chunk_round io wl 0 CRLF i c ps Ho Ein Hl Hll He) as (ps' & E & Hcb & Hn & Hdone).
    exists ps'. split; [|done]. run E. cbv beta iota. rewrite Hn, Hdone. change (zlen CRLF - 2) with 0. unfold append. mred. reflexivity.
  - unfold chunk_text in Ein, Hs. cbn [fst snd compose] in *.
    destruct (chunk_round io w (zlen d) (d ++ CRLF) _ c ps Ho Ein Ha Hs He) as (ps' & E & Hcb & Hn & Hdone).
    assert (0 < zlen d) as Hd0. { destruct d; [done|]. rewrite zlen_cons. pose proof (zlen_nonneg d). lia. }
    destruct (IH fuel (set_in ((Data ∘ chunk_text <$> chunks) ++ Data (wl ++ CRLF ++ CRLF) :: i) c) Ho (body ++ d) ps') as (ps2 & E2 & Hcb2);
      [done|by rewrite Hcb|cbn in Hf; lia|].
    exists ps2. split; [|congruence]. run E. cbv beta iota. rewrite Hn, Hdone.
    assert (zlen (d ++ CRLF) - 2 = zlen d) as -> by (rewrite zlen_app; change (zlen CRLF) with 2; lia).
    rewrite Z.leb_refl. unfold append. rewrite (proj2 (Z.ltb_ge (zlen d) 0)), (proj2 (Z.leb_gt (zlen d) 0)) by lia.
    mred. unfold zlen. rewrite !Nat2Z.id, take_app_length, drop_ge by (by rewrite ?length_take; lia).
    cbn [Z.b2z Z.eqb negb]. change (concat (d :: chunks.*2)) with (d ++ concat chunks.*2). rewrite (assoc_L (++) body). exact E2.
Qed.

(** C19: A chunked response is decoded when every chunk arrives with a read of
    its own. Let the parser accept the first read as the head of a chunked
    response, and let each further read bring one chunk, header, data and the
    line end, that fits the buffer, the last one empty: then recvResponse
    returns the response of the head with the data of the chunks, one after the
    other, as its body, and has read nothing more. *)
Theorem recvResponse_chunked head ps chunks wl fuel io i c :
  c_open c = true →
  c_in c = Data head :: (Data ∘ chunk_text <$> chunks) ++ Data (wl ++ CRLF ++ CRLF) :: i →
  0 < zlen head ≤ buff_size →
  c_excute head NUL false (ResponseParser_new mem) = Ok (zlen head, []) ps → c_isFinished ps = 1 →
  pp_error (c_cb ps) = 0 → cp_chunked (c_parser ps) = 1 →
  Forall chunk_ok chunks → announces wl 0 → zlen (wl ++ CRLF ++ CRLF) ≤ buff_size → (length chunks < fuel)%nat →
  recvResponse buff_size mem lexical_cast fuel (S io) c
  = Ok (Some (p_setBody (concat (snd <$> chunks)) (pp_data (c_cb ps)))) (set_in i c).
Proof.
  intros Ho Ein Hh Ep Hf He Hchk Hchunks Hl Hll Hfuel.
  pose (i' := (Data ∘ chunk_text <$> chunks) ++ Data (wl ++ CRLF ++ CRLF) :: i). fold i' in Ein.
  assert (recv_rounds buff_size false (S io) [] (ResponseParser_new mem) c = Ok (Some ([], ps)) (set_in i' c)) as Er.
  { eapply (round_done false io [] head); [|lia|exact Ep|done|done|change (zlen []) with 0; lia].
    change (zlen []) with 0. rewrite Z.sub_0_r, wrapu_small by (unfold in_u; lia).
    apply read_whole; [done|done|lia]. }
  destruct (recv_chunks_ok chunks wl fuel io i (set_in i' c) [] ps) as (ps' & E & Hcb); [done..|].
  unfold recvResponse. run Er. cbv beta iota. rewrite Hchk. cbn [Z.eqb negb]. run E. cbv beta iota. rewrite Hcb. done.
Qed.

End Client.

(** ** Concrete chunked responses *)

Definition demo_head : str := L "HTTP/1.1 200 OK" ++ CRLF ++ L "Transfer-Encoding: chunked" ++ CRLF ++ CRLF.
Definition demo_receive (i : list arrival) : result Conn (option HttpResponse) :=
  recvResponse 4096 c_blank (λ _, None) 9 9 (mkConn i [] [] true).

Definition demo_chunked : HttpResponse := mkRsp 200 17 true [] (L "OK") [(L "Transfer-Encoding", L "chunked")].

Lemma demo_head_parsed :
  ∃ ps, c_excute demo_head NUL false (ResponseParser_new c_blank) = Ok (zlen demo_head, []) ps ∧ c_isFinished ps = 1 ∧
    pp_error (c_cb ps) = 0 ∧ cp_chunked (c_parser ps) = 1 ∧ pp_data (c_cb ps) = demo_chunked.
Proof. eexists. split; [vm_compute; reflexivity|]. by split_and!. Qed.

Lemma recvResponse_chunked_witness :
  ∃ c, demo_receive [Data demo_head; Data (L "5" ++ CRLF ++ L "hello" ++ CRLF); Data (L "0" ++ CRLF ++ CRLF)]
       = Ok (Some (p_setBody (L "hello") demo_chunked)) c.
Proof.
  destruct demo_head_parsed as (ps & E & Hf & He & Hc & Hd). eexists. rewrite <- Hd.
  apply (recvResponse_chunked 4096 ltac:(lia) c_blank (λ _, None) demo_head ps [(L "5", L "hello")] (L "0") 9 8 []
    (mkConn [Data demo_head; Data (L "5" ++ CRLF ++ L "hello" ++ CRLF); Data (L "0" ++ CRLF ++ CRLF)] [] [] true));
    [done|done|by split; vm_compute|done|done|done|done| | |by vm_compute|cbn; lia].
  - constructor; [|constructor]. split; [split; [done|]; split; [done|]; split; [done|by split; vm_compute]|].
    split; [done|by vm_compute].
  - split; [done|]. split; [done|]. split; [done|by split].
Defined.

(** All chunks with one read: the next read comes before the parser, and the
    response is lost. *)
Lemma chunked_in_one_read_lost :
  demo_receive [Data (demo_head ++ L "5" ++ CRLF ++ L "hello" ++ CRLF ++ L "0" ++ CRLF ++ CRLF)]
  = Ok None (mkConn [] [] [] false).
Proof. vm_compute. reflexivity. Qed.

(** The header of a chunk without its data: the length -2 is appended. *)
Lemma chunk_header_alone_throws :
  ∃ c, demo_receive [Data demo_head; Data (L "5" ++ CRLF); Data (L "hello" ++ CRLF); Data (L "0" ++ CRLF ++ CRLF)]
       = Exc (length_error "basic_string::append") c.
Proof. eexists. vm_compute. reflexivity. Qed.

(** A chunk in two reads: two bytes of the first are dropped, and the line end
    is taken for data. *)
Lemma chunk_in_two_reads_corrupt :
  ∃ c, demo_receive [Data demo_head; Data (L "5" ++ CRLF ++ L "hel"); Data (L "lo" ++ CRLF); Data (L "0" ++ CRLF ++ CRLF)]
       = Ok (Some (p_setBody (L "hlo" ++ CRLF) demo_chunked)) c.
Proof. eexists. vm_compute. reflexivity. Qed.

(** ** Requests *)

Section Request.
Context (buff_size : Z) (Hbs : 0 < buff_size < 2 ^ 31) (mem : httpclient_parser).
Context (lexical_cast : str → option Z) (Hcast : ∀ n, 0 ≤ n < 2 ^ 64 → lexical_cast (dec n) = Some n).
Context (getaddrinfo : str → option str → option (list raw_addr)) (dial : Address → option Conn).

Lemma sendRequest_ok io req c :
  c_open c = true → caps_ok c → zlen (q_dump req) < 2 ^ 31 → (length (c_caps c) + 3 ≤ io)%nat →
  ∃ ks, sendRequest io req c = Ok (zlen (q_dump req)) (mkConn (c_in c) ks (c_out c ++ q_dump req) true).
Proof.
  intros Ho Hc Hl Hio. pose proof (zlen_nonneg (q_dump req)).
  destruct (writeFixSize_loop_ok io (zlen (q_dump req)) 0 (zlen (q_dump req)) (q_dump req) c) as (ks & _ & E);
    [done|done|lia|done|lia|lia| |].
  { left. unfold send_rounds. assert (zlen (q_dump req) / MAX_RW_COUNT < 2) by (apply Z.div_lt_upper_bound; unfold MAX_RW_COUNT; lia). lia. }
  exists ks. unfold sendRequest, writeFixSize. rewrite E, wraps_small by (unfold in_s; lia). done.
Qed.

Lemma q_dump_nonempty req : 0 < zlen (q_dump req).
Proof.
  rewrite q_dump_head. rewrite zlen_app. pose proof (zlen_nonneg (q_body req)). pose proof (head_nonempty req). lia.
Qed.


End Request.

(** A host whose resolver gives 127.0.0.1, and a peer that answers there. *)
Definition demo_resolver (node : str) (service : option str) : option (list raw_addr) :=
  Some [RawIn (mkIn 2 0 16777343 [])].
Definition demo_peer : Conn :=
  mkConn [Data (p_dump demo_rsp)] [4; 1] [] true.
Definition demo_target : Uri := mkUri (L "http") [] (L "localhost") (L "/a") [] [] 8080.

Lemma demo_answers : response_arrives 4096 demo_rsp [] demo_peer.
Proof.
  split; [done|]. split; [repeat constructor; vm_compute; discriminate|]. split.
  { split; [by right|]. split; [done|]. split; [done|]. constructor; [|constructor]. by split_and!; vm_compute. }
  split; [intros [=]|]. split; [by vm_compute|]. split; [by vm_compute|].
  eexists _, _. split; [reflexivity|]. split; vm_compute; discriminate.
Qed.

