(* ===== verification/Pool.v ===== *)
(** Properties of the requests the client builds and of the connection pool
    (skt/http/http_connection.cpp). *)

From stdpp Require Import base list strings gmap sets.
From Stdlib Require Import Ascii Lia.
From S2P Require Import Prelude StdOrdered CString Http HttpProps HttpRoundtrip Stream Session SessionProps.
From S2P Require Import ClientParser ClientRoundtrip Address UriTable Uri Connection ConnectionProps.

(** ** The headers of a request *)

Definition is_host (k : str) : bool := strcasecmp_eq k (L "host").
(** A header that names the host. *)
Definition names_host (kv : str * str) : bool := negb (is_connection kv.1) && is_host kv.1 && negb (bool_decide (kv.2 = [])).
(** A header that asks to keep the connection. *)
Definition keeps_alive (kv : str * str) : bool := is_connection kv.1 && strcasecmp_eq kv.2 (L "keep-alive").

Lemma add_headers_spec hs req b :
  let '(req', b') := foldl add_header (req, b) hs in
  q_headers req' = set_all (filter (λ kv, is_connection kv.1 = false) hs) (q_headers req) ∧
  q_close req' = q_close req && negb (existsb keeps_alive hs) ∧
  b' = b || existsb names_host hs ∧
  q_method req' = q_method req ∧ q_path req' = q_path req ∧ q_version req' = q_version req ∧
  q_query req' = q_query req ∧ q_fragment req' = q_fragment req.
Proof.
  revert req b. induction hs as [|[k v] hs IH]; intros req b.
  { cbn. rewrite andb_true_r, orb_false_r. done. }
  cbn [foldl]. destruct (add_header (req, b) (k, v)) as [req1 b1] eqn:E. specialize (IH req1 b1).
  destruct (foldl add_header (req1, b1) hs) as [req' b']. destruct IH as (H1 & H2 & H3 & H4 & H5 & H6 & H7 & H8).
  unfold add_header in E. cbn [existsb]. unfold keeps_alive at 1, names_host at 1. cbn [fst snd].
  change (strcasecmp_eq k (L "connection")) with (is_connection k) in E.
  destruct (is_connection k) eqn:Ek.
  - rewrite filter_cons_False by (cbn; by rewrite Ek).
    destruct (strcasecmp_eq v (L "keep-alive")); injection E as <- <-; rewrite H2, H3; cbn; rewrite ?andb_false_r; by split_and!.
  - rewrite filter_cons_True by done.
    assert (req1 = q_setHeader k v req ∧ b1 = if negb b && is_host k then negb (bool_decide (v = [])) else b) as [-> ->] by (by inversion E).
    cbn [andb orb negb] in *. rewrite H1, H2, H3. split; [done|]. split; [done|]. split; [|done].
    by destruct b, (is_host k), (bool_decide (v = [])), (existsb names_host hs).
Qed.

(** The request DoRequest builds. It has the method, the path and the body
    that were asked for; every header that was given, but for connection, comes
    out as setHeader sets them one after the other, so that the last of two
    names that differ in case only counts; without a header that names a host
    the Host header is the host; and it asks to keep the connection exactly when
    a connection header says keep-alive, or close was not the default. *)
Theorem build_request_spec method path close host hs body k def :
  let req := build_request method path close host hs body in
  q_method req = method ∧ q_path req = path ∧ q_query req = [] ∧ q_body req = body ∧
  q_close req = close && negb (existsb keeps_alive hs) ∧
  q_getHeader req k def =
    (if bool_decide (casefold k = casefold (L "Host")) && negb (existsb names_host hs) then host
     else map_get (set_all (filter (λ kv, is_connection kv.1 = false) hs) []) k def).
Proof.
  cbv zeta. unfold build_request.
  pose proof (add_headers_spec hs (q_setClose close (q_setMethod method (q_setPath path (HttpRequest_new 17 true)))) false) as H.
  destruct (foldl add_header _ hs) as [req b]. destruct H as (H1 & H2 & -> & H4 & H5 & H6 & H7 & H8). cbn in H2, H4, H5, H7. cbn [orb].
  assert (map_ok []) as Hnil by constructor.
  assert (map_ok (q_headers req)) as Hok by (rewrite H1; by apply set_all_ok).
  destruct (existsb names_host hs) eqn:Eh.
  - rewrite andb_false_r. split_and!; try done. unfold q_getHeader. cbn. by rewrite H1.
  - rewrite andb_true_r. split_and!; try done.
    change (q_getHeader (q_setBody body (q_setHeader (L "Host") host req)) k def) with (map_get (map_set (q_headers req) (L "Host") host) k def).
    rewrite map_get_set by done. by rewrite H1.
Qed.

(** ** The pool *)

Section Pool.
Context (getaddrinfo : str → option str → option (list raw_addr)) (dial : Address → option Conn).
Context (p_host : str) (p_port m_maxAliveTime m_maxRequest : Z).

Abbreviation getConnection := (getConnection getaddrinfo dial p_host p_port m_maxAliveTime).
Abbreviation ReleasePtr := (ReleasePtr m_maxAliveTime m_maxRequest).

(** The pool with the connections it has handed out. A holder uses its
    connection; it cannot change when it was made or how often it was used. *)
Inductive pool_step : Pool * list PoolConn → Pool * list PoolConn → Prop :=
| PGet now p p' r out :
    ⟨ getConnection now, p ⟩ ⇓ ⟨ r, p' ⟩ →
    pool_step (p, out) (p', match r with Some c => c :: out | None => out end)
| PUse p c conn' out1 out2 :
    pool_step (p, out1 ++ c :: out2) (p, out1 ++ mkPC conn' (pc_createTime c) (pc_request c) :: out2)
| PRelease now p p' c out1 out2 :
    ⟨ ReleasePtr now c, p ⟩ ⇓ ⟨ tt, p' ⟩ → pool_step (p, out1 ++ c :: out2) (p', out1 ++ out2).

Inductive pool_reachable : Pool * list PoolConn → Prop :=
| PInit : pool_reachable (mkPool [] 0, [])
| PStep x y : pool_reachable x → pool_step x y → pool_reachable y.

(** An idle connection. *)
Definition idle_ok (c : PoolConn) : Prop :=
  c_open (pc_conn c) = true ∧ pc_createTime c = 0 ∧ 0 < pc_request c ≤ m_maxRequest.
Definition out_ok (c : PoolConn) : Prop := pc_createTime c = 0 ∧ 0 ≤ pc_request c ≤ m_maxRequest.

Definition pool_inv (x : Pool * list PoolConn) : Prop :=
  m_total x.1 = i32 (zlen (m_conns x.1) + zlen x.2) ∧ Forall idle_ok (m_conns x.1) ∧ Forall out_ok x.2.

(** What the loop of getConnection finds. *)
Lemma take_idle_spec now l bad found rest :
  take_idle m_maxAliveTime now l = (bad, found, rest) →
  l = bad ++ (match found with Some c => [c] | None => [] end) ++ rest ∧
  (found = None → rest = []) ∧
  Forall (λ c, c_open (pc_conn c) = false ∨ now < u64 (pc_createTime c + m_maxAliveTime)) bad ∧
  (∀ c, found = Some c → c_open (pc_conn c) = true ∧ u64 (pc_createTime c + m_maxAliveTime) ≤ now).
Proof.
  revert bad found rest. induction l as [|c l IH]; intros bad found rest; cbn [take_idle].
  { intros [= <- <- <-]. by split_and!. }
  destruct (negb (c_open (pc_conn c)) || (now <? u64 (pc_createTime c + m_maxAliveTime))) eqn:E.
  - destruct (take_idle m_maxAliveTime now l) as [[bad' found'] rest'] eqn:El. intros [= <- <- <-].
    destruct (IH _ _ _ eq_refl) as (-> & H1 & H2 & H3). split; [done|]. split; [done|]. split; [|done].
    constructor; [|done]. apply orb_true_iff in E as [E|E]; [left; by apply negb_true_iff|right; by apply Z.ltb_lt].
  - intros [= <- <- <-]. split; [done|]. split; [done|]. split; [constructor|]. intros c' [= <-].
    apply orb_false_iff in E as [E1 E2]. split; [by apply negb_false_iff|by apply Z.ltb_ge].
Qed.

Lemma getConnection_spec now p :
  ∃ bad found rest, take_idle m_maxAliveTime now (m_conns p) = (bad, found, rest) ∧
    ⟨ getConnection now, p ⟩ ⇓
    ⟨ match found with Some c => Some c | None => pool_dial getaddrinfo dial p_host p_port end,
      mkPool rest (i32 (m_total p - zlen bad + match found, pool_dial getaddrinfo dial p_host p_port with None, Some _ => 1 | _, _ => 0 end)) ⟩.
Proof.
  destruct (take_idle m_maxAliveTime now (m_conns p)) as [[bad found] rest] eqn:E. exists bad, found, rest. split; [done|].
  unfold Connection.getConnection. mred. rewrite E. destruct found as [c|]; [by rewrite Z.add_0_r|].
  destruct (pool_dial getaddrinfo dial p_host p_port) as [c|]; [by rewrite wraps_add|by rewrite Z.add_0_r].
Qed.

Lemma pool_dial_new c : pool_dial getaddrinfo dial p_host p_port = Some c → pc_createTime c = 0 ∧ pc_request c = 0.
Proof. unfold pool_dial. repeat case_match; intros [= <-]; done. Qed.

Lemma pool_get_inv now p p' r out :
  0 ≤ m_maxRequest → pool_inv (p, out) → ⟨ getConnection now, p ⟩ ⇓ ⟨ r, p' ⟩ →
  pool_inv (p', match r with Some c => c :: out | None => out end).
Proof.
  intros Hmax (Ht & Hi & Ho) E. cbn [fst snd] in *.
  destruct (getConnection_spec now p) as (bad & found & rest & El & E'). rewrite E' in E. injection E as <- <-.
  destruct (take_idle_spec _ _ _ _ _ El) as (Hl & Hnone & _ & _). rewrite Hl in Ht, Hi.
  apply Forall_app in Hi as [_ Hi]. apply Forall_app in Hi as [Hf Hr].
  unfold pool_inv. cbn [fst snd m_conns m_total]. rewrite Ht. split; [|split].
  - rewrite <- Z.add_opp_r, <- Z.add_assoc, wraps_add. f_equal.
    destruct found as [c|]; [|destruct (pool_dial _ _ _ _)]; zlia.
  - done.
  - destruct found as [c|]; [|destruct (pool_dial _ _ _ _) as [c|] eqn:Ed; [|done]].
    + constructor; [|done]. apply Forall_cons_1 in Hf as [(_ & H1 & H2) _]. split; [done|lia].
    + constructor; [|done]. destruct (pool_dial_new c Ed) as [H1 H2]. split; [done|lia].
Qed.

Lemma pool_release_inv now p p' c out1 out2 :
  m_maxRequest < 2 ^ 32 → pool_inv (p, out1 ++ c :: out2) → ⟨ ReleasePtr now c, p ⟩ ⇓ ⟨ tt, p' ⟩ → pool_inv (p', out1 ++ out2).
Proof.
  intros Hmax (Ht & Hi & Ho). cbn [fst snd] in *. apply Forall_app in Ho as [Ho1 Ho2].
  apply Forall_cons_1 in Ho2 as [[Hc Hreq] Ho2]. unfold Connection.ReleasePtr. mred. cbn [pc_conn pc_createTime pc_request].
  assert (Forall out_ok (out1 ++ out2)) as Hout by (by apply Forall_app).
  rewrite (wrapu_small 64 (pc_request c + 1)) by (unfold in_u; lia).
  destruct (_ || _ || _) eqn:Eb; intros [= <-]; unfold pool_inv; cbn [fst snd m_conns m_total]; rewrite Ht.
  - split; [|done]. rewrite <- Z.add_opp_r, wraps_add. f_equal. zlia.
  - split; [f_equal; zlia|]. split; [|done]. apply Forall_app. split; [done|]. constructor; [|constructor].
    apply orb_false_iff in Eb as [[E1 E2]%orb_false_iff E3]. split; [by apply negb_false_iff|]. split; [done|].
    cbn [pc_request]. apply Z.ltb_ge in E3. lia.
Qed.

Lemma pool_step_inv x y : 0 ≤ m_maxRequest < 2 ^ 32 → pool_inv x → pool_step x y → pool_inv y.
Proof.
  intros Hmax Hx Hs. destruct Hs as [now p p' r out E|p c conn' out1 out2|now p p' c out1 out2 E].
  - by eapply pool_get_inv; [lia|..].
  - destruct Hx as (Ht & Hi & Ho). split; [|split; [done|]]; cbn [fst snd] in *.
    + rewrite Ht. f_equal. zlia.
    + apply Forall_app in Ho as [Ho1 Ho2]. apply Forall_cons_1 in Ho2 as [Hc Ho2].
      apply Forall_app. split; [done|]. by constructor.
  - by eapply pool_release_inv; [lia|..].
Qed.

(** C20: The pool accounts for its connections. Whatever sequence of getConnection,
    use and release, in any order and at any times: m_total is the number of
    idle connections and of those handed out; every idle connection is open
    and has been used at least once and at most m_maxRequest times; and what
    getConnection takes from the pool is the first idle connection that it does
    not delete, one that is open and whose creation time plus the maximal alive
    time is not after now. *)
Theorem pool_accounts x :
  0 ≤ m_maxRequest < 2 ^ 32 → pool_reachable x →
  m_total x.1 = i32 (zlen (m_conns x.1) + zlen x.2) ∧ Forall idle_ok (m_conns x.1) ∧
  ∀ now, ∃ bad found rest p', m_conns x.1 = bad ++ match found with Some c => [c] | None => [] end ++ rest ∧
    ⟨ getConnection now, x.1 ⟩ ⇓
    ⟨ match found with Some c => Some c | None => pool_dial getaddrinfo dial p_host p_port end, p' ⟩ ∧
    m_conns p' = rest ∧ Forall (λ c, now < u64 (pc_createTime c + m_maxAliveTime)) bad ∧
    (found = None → rest = []) ∧
    (∀ c, found = Some c → c_open (pc_conn c) = true ∧ u64 (pc_createTime c + m_maxAliveTime) ≤ now).
Proof.
  intros Hmax Hx. assert (pool_inv x) as (Ht & Hi & _).
  { induction Hx as [|x y _ IH Hs]; [by split_and!|]. by eapply pool_step_inv. }
  split; [done|]. split; [done|]. intros now.
  destruct (getConnection_spec now x.1) as (bad & found & rest & El & E).
  destruct (take_idle_spec _ _ _ _ _ El) as (Hl & Hnone & Hbad & Hfound).
  eexists bad, found, rest, _. split; [done|]. split; [exact E|]. split; [done|]. split; [|done].
  rewrite Hl in Hi. apply Forall_app in Hi as [Hi _]. rewrite Forall_forall in Hi, Hbad |- *.
  intros c Hc. destruct (Hbad c Hc) as [H|H]; [|done]. destruct (Hi c Hc) as [H' _]. congruence.
Qed.

(** No connection grows old: m_createTime is never set, so that an idle
    connection is taken at any time from m_maxAliveTime on. *)
Lemma pool_never_expires now p c l :
  0 ≤ m_maxAliveTime < 2 ^ 32 → m_maxAliveTime ≤ now → pool_inv (p, []) → m_conns p = c :: l →
  ∃ p', ⟨ getConnection now, p ⟩ ⇓ ⟨ Some c, p' ⟩.
Proof.
  intros Hm Hnow (_ & Hi & _) El. cbn [fst] in Hi. rewrite El in Hi. apply Forall_cons_1 in Hi as [(Ho & Hc & _) _].
  eexists. unfold Connection.getConnection. mred. rewrite El. cbn [take_idle]. rewrite Ho, Hc. cbn [negb orb].
  rewrite wrapu_small, (proj2 (Z.ltb_ge now _)) by (unfold in_u; lia). reflexivity.
Qed.

End Pool.

(** A pool that has made one connection and got it back. *)
Definition demo_pooled : PoolConn := mkPC demo_peer 0 1.

Lemma pool_accounts_witness :
  m_total (mkPool [demo_pooled] 1) = i32 (zlen [demo_pooled] + 0) ∧
  ∃ p', getConnection demo_resolver (λ _, Some demo_peer) (L "localhost") 8080 1000 6000 (mkPool [demo_pooled] 1)
        = Ok (Some demo_pooled) p'.
Proof.
  destruct (pool_accounts demo_resolver (λ _, Some demo_peer) (L "localhost") 8080 1000 8 (mkPool [demo_pooled] 1, [])) as (Ht & _ & Hg).
  - lia.
  - eapply PStep; [eapply PStep; [apply PInit|]|].
    + apply (PGet _ _ _ _ _ _ 5000 _ (mkPool [] 1) (Some (mkPC demo_peer 0 0))). reflexivity.
    + apply (PRelease _ _ _ _ _ _ 5500 _ _ (mkPC demo_peer 0 0) [] []). reflexivity.
  - split; [exact Ht|]. destruct (Hg 6000) as (bad & found & rest & p' & Hl & E & _ & Hbad & _). exists p'.
    destruct bad as [|c bad]; cbn in Hl.
    + destruct found as [c|]; [|discriminate E]. inversion Hl. subst c. exact E.
    + apply Forall_cons_1 in Hbad as [H _]. inversion Hl. subst c. discriminate H.
Defined.
