(* ===== verification/Socket.v ===== *)
(** Socket (skt/socket/socket.h, skt/socket/socket.cpp).

    A method runs on its object, [this], in the world of FdManager and the
    kernel (Hook). The class [Net] adds the calls on sockets to [Kernel]: the
    original calls, and for connect and accept what the hooked call returns when
    it is done waiting. [Reactor] has the results of the IOManager's cancel
    operations (IOManager.v) for a descriptor that it can look up. *)

From stdpp Require Import base list gmap sets strings.
From Stdlib Require Import Lia.
From S2P Require Import Prelude IOManager Hook CString Address.

(** ** The environment *)

Definition SOCK_STREAM : Z := 1.
Definition SOCK_DGRAM : Z := 2.
Definition SOL_SOCKET : Z := 1.
Definition IPPROTO_TCP : Z := 6.
Definition SO_REUSEADDR : Z := 2.
Definition SO_ERROR : Z := 4.
Definition TCP_NODELAY : Z := 1.
Definition SOMAXCONN : Z := 4096.

(** The object behind the pointer given to setsockopt: an int, or a timeval. *)
Inductive optval : Type := OInt (v : Z) | OTime (tv_sec tv_usec : Z).

(** The input and output calls with their arguments; an iovec array is the list
    of its buffers, or of their lengths. *)
Inductive io_call : Type :=
| CSend (buffer : list Z) (flags : Z)
| CSendmsg (iov : list (list Z)) (to : option Address) (flags : Z)
| CSendto (buffer : list Z) (flags : Z) (to : Address)
| CRecv (length flags : Z)
| CRecvmsg (iov : list Z) (from : option Address) (flags : Z)
| CRecvfrom (length flags : Z) (from : Address).

Class Net (K : Type) : Type := {
  bind_f : K → Z → Address → Z * K;
  listen_f : K → Z → Z → Z * K;
  connect_done : K → Z → Address → Z → Z * K;       (* connect_with_timeout, with the time-out *)
  accept_done : K → Z → Z * K;                      (* do_io with accept_f *)
  io_done : K → Z → io_call → Z * list Z * K;       (* the number returned and the bytes received *)
  setsockopt_f : K → Z → Z → Z → optval → Z * K;
  getsockopt_int : K → Z → Z → Z → option Z;        (* None: an error *)
  getpeername : K → Z → Address → option (Address * Z);   (* what is written into the object, and addrlen *)
  getsockname : K → Z → Address → option (Address * Z)
}.

(** IOManager::cancelEvent and IOManager::cancelAll of a descriptor that is not
    negative; they return (IOManagerProps.cancel_returns). *)
Class Reactor (K : Type) : Type := {
  iom_cancelEvent : K → Z → Z → bool * K;
  iom_cancelAll : K → Z → bool * K
}.

(** ** The object *)

Record Socket : Type := mkSocket {
  m_sock : Z;
  m_family : Z;
  m_type : Z;
  m_protocol : Z;
  m_isConnected : bool;
  m_localAddress : option Address;
  m_remoteAddress : option Address
}.

Definition Socket_new (family type protocol : Z) : Socket := mkSocket (-1) family type protocol false None None.

Definition set_sock v (s : Socket) : Socket :=
  mkSocket v (m_family s) (m_type s) (m_protocol s) (m_isConnected s) (m_localAddress s) (m_remoteAddress s).
Definition set_connected v (s : Socket) : Socket :=
  mkSocket (m_sock s) (m_family s) (m_type s) (m_protocol s) v (m_localAddress s) (m_remoteAddress s).
Definition set_local v (s : Socket) : Socket :=
  mkSocket (m_sock s) (m_family s) (m_type s) (m_protocol s) (m_isConnected s) v (m_remoteAddress s).
Definition set_remote v (s : Socket) : Socket :=
  mkSocket (m_sock s) (m_family s) (m_type s) (m_protocol s) (m_isConnected s) (m_localAddress s) v.

Definition isValid (s : Socket) : bool := negb (m_sock s =? -1).
Definition isConnected (s : Socket) : bool := m_isConnected s.

(** Socket::dump; an address without a text stops it. *)
Definition dump_address (name : string) (a : option Address) : option str :=
  match a with None => Some [] | Some a => t ← toString a; Some (L name ++ t) end.
Definition dump (s : Socket) : option str :=
  l ← dump_address " local_address=" (m_localAddress s);
  r ← dump_address " remote_address=" (m_remoteAddress s);
  Some (L "(Socket sock=" ++ to_string (m_sock s) ++ L " is_connected=" ++ to_string (if m_isConnected s then 1 else 0)
        ++ L " family=" ++ to_string (m_family s) ++ L " type=" ++ to_string (m_type s)
        ++ L " protocol=" ++ to_string (m_protocol s) ++ l ++ r ++ L ")").

Record Obj (K : Type) : Type := mkObj { this : Socket; world : Sys K }.
Arguments mkObj {K} _ _.
Arguments this {K} _.
Arguments world {K} _.

Section Ops.
Context {K : Type} `{KN : Kernel K} `{NT : Net K} `{RC : Reactor K}.
(** s_connect_timeout, the configured time-out of the hooked connect. *)
Context (s_connect_timeout : Z).
Abbreviation sys := (M (Sys K)).
Abbreviation method := (M (Obj K)).

(** A call of the world from a method. *)
Definition in_sys {A} (c : sys A) : method A := λ o,
  match c (world o) with
  | Ok a w => Ok a (mkObj (this o) w)
  | Exc e w => Exc e (mkObj (this o) w)
  | Stop u => Stop u
  | NoFuel => NoFuel
  end.
(** A method of another object: the result and the object after the call. *)
Definition on_object {A} (c : method A) (s : Socket) : sys (A * Socket) := λ w,
  match c (mkObj s w) with
  | Ok a o => Ok (a, this o) (world o)
  | Exc e o => Exc e (world o)
  | Stop u => Stop u
  | NoFuel => NoFuel
  end.
(** A call of the kernel. *)
Definition syscall {A} (f : K → A * K) : sys A :=
  s ← mget; let '(a, k) := f (kern s) in mput (set_kern k s);; mret a.
Definition ask {A} (f : Sys K → A) : method A := o ← mget; mret (f (world o)).
Definition me : method Socket := o ← mget; mret (this o).
Definition update (f : Socket → Socket) : method unit := mmodify (λ o, mkObj (f (this o)) (world o)).

(** The hooked setsockopt and accept. *)
Definition hook_setsockopt (fd level optname : Z) (v : optval) : sys Z :=
  (match v with
   | OTime tv_sec tv_usec => if level =? SOL_SOCKET then setsockopt_timeout fd optname tv_sec tv_usec else mret tt
   | OInt _ => mret tt
   end);;
  syscall (λ k, setsockopt_f k fd level optname v).
Definition hook_accept (fd : Z) : sys Z :=
  newfd ← syscall (λ k, accept_done k fd);
  (if 0 <=? newfd then get newfd true;; mret tt else mret tt);;
  mret newfd.

(** Socket::setOption, Socket::getOption of an int *)
Definition setOption (level optname : Z) (v : optval) : method bool :=
  s ← me; rt ← in_sys (hook_setsockopt (m_sock s) level optname v); mret (rt =? 0).
Definition getOption (level optname : Z) : method (option Z) :=
  s ← me; ask (λ w, getsockopt_int (kern w) (m_sock s) level optname).

(** The time-outs; v is an int64_t, and the two fields are cast to int. *)
Definition timeval_of (v : Z) : optval := OTime (i32 (Z.quot v 1000)) (i32 (Z.rem v 1000 * 1000)).
Definition ctx_timeout (type : Z) : method Z :=
  s ← me;
  ctx ← in_sys (get (m_sock s) false);
  mret (match ctx with Some c => i64 (getTimeout type c) | None => -1 end).
Definition getSendTimeout : method Z := ctx_timeout SO_SNDTIMEO.
Definition setSendTimeout (v : Z) : method unit := setOption SOL_SOCKET SO_SNDTIMEO (timeval_of v);; mret tt.
Definition getRecvTimeout : method Z := ctx_timeout SO_RCVTIMEO.
Definition setRecvTimeout (v : Z) : method unit := setOption SOL_SOCKET SO_RCVTIMEO (timeval_of v);; mret tt.

Definition getError : method Z := r ← getOption SOL_SOCKET SO_ERROR; mret (match r with Some e => e | None => -1 end).

(** ** Addresses *)

Definition blank_address (family : Z) : Address :=
  if family =? AF_INET then IPv4Address_new 0 0
  else if family =? AF_INET6 then IPv6Address_new
  else if family =? AF_UNIX then UnixAddress_new
  else UnknowAddress_new family.

(** The common part of getRemoteAddress and getLocalAddress behind the cache:
    what getpeername or getsockname fills in, or None when it fails. *)
Definition ask_address (call : K → Z → Address → option (Address * Z)) : method (option Address) :=
  s ← me;
  r ← ask (λ w, call (kern w) (m_sock s) (blank_address (m_family s)));
  mret (match r with
        | None => None
        | Some (a, addrlen) => Some (if m_family s =? AF_UNIX then setAddrLen addrlen a else a)
        end).

Definition getRemoteAddress : method Address :=
  s ← me;
  match m_remoteAddress s with
  | Some a => mret a
  | None =>
    r ← ask_address getpeername;
    match r with
    | None => mret (UnknowAddress_new (m_family s))
    | Some a => update (set_remote (Some a));; mret a
    end
  end.

Definition getLocalAddress : method Address :=
  s ← me;
  match m_localAddress s with
  | Some a => mret a
  | None =>
    r ← ask_address getsockname;
    match r with
    | None => mret (UnknowAddress_new (m_family s))
    | Some a => update (set_local (Some a));; mret a
    end
  end.

(** ** Life of a socket *)

Definition initSock : method unit :=
  setOption SOL_SOCKET SO_REUSEADDR (OInt 1);;
  s ← me;
  if m_type s =? SOCK_STREAM then setOption IPPROTO_TCP TCP_NODELAY (OInt 1);; mret tt else mret tt.

Definition newSock : method unit :=
  fd ← in_sys socket;
  update (set_sock fd);;
  if negb (fd =? -1) then initSock else mret tt.

Definition close : method bool :=
  s ← me;
  if negb (m_isConnected s) && (m_sock s =? -1) then mret true
  else
    update (set_connected false);;
    (if negb (m_sock s =? -1) then in_sys (Hook.close (m_sock s));; update (set_sock (-1)) else mret tt);;
    mret false.

(** Socket::init *)
Definition init (sock : Z) : method bool :=
  ctx ← in_sys (get sock false);
  match ctx with
  | Some c =>
    if m_isSocket c && negb (m_isClosed c)
    then update (λ s, set_connected true (set_sock sock s));; initSock;; getLocalAddress;; getRemoteAddress;; mret true
    else mret false
  | None => mret false
  end.

(** Socket::accept: the object it returns, or nullptr. [accept_on] is the call
    with the descriptor it was entered with; the object may be closed while the
    call waits. *)
Definition accept_on (fd : Z) : method (option Socket) :=
  s ← me;
  newsock ← in_sys (hook_accept fd);
  if newsock =? -1 then mret None
  else
    '(ok, sock) ← in_sys (on_object (init newsock) (Socket_new (m_family s) (m_type s) (m_protocol s)));
    mret (if (ok : bool) then Some sock else None).
Definition accept : method (option Socket) := s ← me; accept_on (m_sock s).

(** A valid descriptor, a new one if there is none. *)
Definition ensure_sock : method bool :=
  s ← me;
  if isValid s then mret true else newSock;; s' ← me; mret (isValid s').

Definition bind (addr : Address) : method bool :=
  ok ← ensure_sock;
  if negb ok then mret false
  else
    s ← me;
    if negb (getFamily addr =? m_family s) then mret false
    else
      rt ← in_sys (syscall (λ k, bind_f k (m_sock s) addr));
      if negb (rt =? 0) then mret false else getLocalAddress;; mret true.

Definition connect (addr : Address) (timeout_ms : Z) : method bool :=
  update (set_remote (Some addr));;
  ok ← ensure_sock;
  if negb ok then mret false
  else
    s ← me;
    if negb (getFamily addr =? m_family s) then mret false
    else
      rt ← in_sys (syscall (λ k, connect_done k (m_sock s) addr
                                   (if timeout_ms =? minus1 then s_connect_timeout else timeout_ms)));
      if negb (rt =? 0) then close;; mret false
      else update (set_connected true);; getRemoteAddress;; getLocalAddress;; mret true.

Definition listen (backlog : Z) : method bool :=
  s ← me;
  if negb (isValid s) then mret false
  else rt ← in_sys (syscall (λ k, listen_f k (m_sock s) backlog)); mret (rt =? 0).

(** Socket::~Socket *)
Definition destroy : method unit := close;; mret tt.

(** ** Creation *)

Definition CreateTCP (a : Address) : Socket := Socket_new (getFamily a) SOCK_STREAM 0.
Definition CreateTCPSocket : Socket := Socket_new AF_INET SOCK_STREAM 0.
Definition CreateTCPSocket6 : Socket := Socket_new AF_INET6 SOCK_STREAM 0.
Definition CreateUnixTCPSocket : Socket := Socket_new AF_UNIX SOCK_STREAM 0.
Definition CreateUnixUDPSocket : Socket := Socket_new AF_UNIX SOCK_DGRAM 0.

Definition created_udp (family : Z) : sys Socket :=
  '(_, sock) ← on_object (newSock;; update (set_connected true)) (Socket_new family SOCK_DGRAM 0);
  mret sock.
Definition CreateUDP (a : Address) : sys Socket := created_udp (getFamily a).
Definition CreateUDPSocket : sys Socket := created_udp AF_INET.
Definition CreateUDPSocket6 : sys Socket := created_udp AF_INET6.

(** ** Input and output *)

(** The number returned, and the bytes received. *)
Definition do_call (call : io_call) : method (Z * list Z) :=
  s ← me;
  if isConnected s
  then in_sys (syscall (λ k, let '(n, d, k') := io_done k (m_sock s) call in ((n, d), k')))
  else mret (-1, []).

Definition send (buffer : list Z) (flags : Z) : method Z := r ← do_call (CSend buffer flags); mret r.1.
Definition send_iov (iov : list (list Z)) (flags : Z) : method Z := r ← do_call (CSendmsg iov None flags); mret r.1.
Definition sendTo (buffer : list Z) (to : Address) (flags : Z) : method Z := r ← do_call (CSendto buffer flags to); mret r.1.
Definition sendTo_iov (iov : list (list Z)) (to : Address) (flags : Z) : method Z :=
  r ← do_call (CSendmsg iov (Some to) flags); mret r.1.
Definition recv (length flags : Z) : method (Z * list Z) := do_call (CRecv length flags).
Definition recv_iov (iov : list Z) (flags : Z) : method (Z * list Z) := do_call (CRecvmsg iov None flags).
Definition recvFrom (length : Z) (from : Address) (flags : Z) : method (Z * list Z) := do_call (CRecvfrom length flags from).
Definition recvFrom_iov (iov : list Z) (from : Address) (flags : Z) : method (Z * list Z) := do_call (CRecvmsg iov (Some from) flags).

(** ** Cancellation *)

(** IOManager::GetThis()->...(m_sock); [iom]: the calling thread has an
    IOManager. Without one the call is on a null pointer, and the IOManager
    indexes m_fdContexts with the descriptor (IOManagerProps.cancel_negative). *)
Definition cancel_call (iom : bool) (f : K → Z → bool * K) : method bool :=
  s ← me;
  if negb iom then mstop NullDeref
  else if m_sock s <? 0 then mstop OutOfBounds
  else in_sys (syscall (λ k, f k (m_sock s))).
Definition cancelRead (iom : bool) : method bool := cancel_call iom (λ k fd, iom_cancelEvent k fd READ).
Definition cancelWrite (iom : bool) : method bool := cancel_call iom (λ k fd, iom_cancelEvent k fd WRITE).
Definition cancelAccept (iom : bool) : method bool := cancel_call iom (λ k fd, iom_cancelEvent k fd READ).
Definition cancelAll (iom : bool) : method bool := cancel_call iom iom_cancelAll.

End Ops.
