(* ===== verification/SocketProps.v ===== *)
(** Properties of Socket: every method keeps the descriptors of others, time-outs
    are kept, and what accept returns. *)

From stdpp Require Import base list gmap sets.
From Stdlib Require Import Lia.
From S2P Require Import Prelude IOManager Hook HookProps CString Address Socket.

(** ** What the manual pages say of descriptors *)

(** The open descriptors; of a socket, the address that the last bind which
    succeeded was called with, and whether listen has succeeded. *)
Class Descriptors (K : Type) : Type := {
  open_fds : K → gset Z;
  sock_state : K → Z → option Address * bool
}.

Section Laws.
Context {K : Type} `{KN : Kernel K} `{DS : Descriptors K}.

(** A call on [fd] that leaves the descriptors and their flags as they are, and
    the sockets of all other descriptors. *)
Definition same_but (fd : Z) (k k' : K) : Prop :=
  open_fds k' = open_fds k ∧ (∀ fd', getfl k' fd' = getfl k fd') ∧ ∀ fd', fd' ≠ fd → sock_state k' fd' = sock_state k fd'.
(** A call that leaves all as it is. *)
Definition same (k k' : K) : Prop :=
  open_fds k' = open_fds k ∧ (∀ fd, getfl k' fd = getfl k fd) ∧ ∀ fd, sock_state k' fd = sock_state k fd.

(** These descriptors are open, with their sockets as before. *)
Definition keeps (X : gset Z) (k k' : K) : Prop := ∀ fd, fd ∈ X → fd ∈ open_fds k' ∧ sock_state k' fd = sock_state k fd.

(** A new descriptor, of a socket. *)
Definition new_fd (k : K) (fd : Z) (k' : K) : Prop :=
  0 ≤ fd < 2 ^ 30 ∧ (fd ∉ open_fds k) ∧ open_fds k' = {[fd]} ∪ open_fds k ∧ fstat_socket k' fd = Some true.
End Laws.

Class NetLaws (K : Type) `{KN : Kernel K} `{NT : Net K} `{RC : Reactor K} `{DS : Descriptors K} : Prop := {
  nl_nonneg k fd : fd ∈ open_fds k → 0 ≤ fd;
  nl_open k : ((open_socket k).1 = -1 ∧ open_fds (open_socket k).2 = open_fds k) ∨
    new_fd k (open_socket k).1 (open_socket k).2;
  nl_accept k l : (accept_done k l).1 = -1 ∧ open_fds (accept_done k l).2 = open_fds k ∨
    l ∈ open_fds k ∧ new_fd k (accept_done k l).1 (accept_done k l).2;
  nl_accept_fl k l fd : fd ≠ (accept_done k l).1 → getfl (accept_done k l).2 fd = getfl k fd;
  nl_open_others k fd : fd ≠ (open_socket k).1 → sock_state (open_socket k).2 fd = sock_state k fd;
  nl_accept_others k l fd : fd ≠ (accept_done k l).1 → sock_state (accept_done k l).2 fd = sock_state k fd;
  nl_close_others k fd fd' : fd' ≠ fd → sock_state (close_fd k fd).2 fd' = sock_state k fd';
  nl_setfl_others k fd f fd' : sock_state (setfl k fd f).2 fd' = sock_state k fd';
  nl_bind_done k fd a : (bind_f k fd a).1 = 0 → sock_state (bind_f k fd a).2 fd = (Some a, (sock_state k fd).2);
  nl_listen_done k fd n : (listen_f k fd n).1 = 0 → sock_state (listen_f k fd n).2 fd = ((sock_state k fd).1, true);
  nl_close k fd : open_fds (close_fd k fd).2 = open_fds k ∖ {[fd]};
  nl_setfl k fd f : open_fds (setfl k fd f).2 = open_fds k;
  nl_bind k fd a : same_but fd k (bind_f k fd a).2;
  nl_listen k fd n : same_but fd k (listen_f k fd n).2;
  nl_connect k fd a t : same_but fd k (connect_done k fd a t).2;
  nl_io k fd c : same k (io_done k fd c).2;
  nl_setsockopt k fd l o v : same k (setsockopt_f k fd l o v).2;
  nl_cancel_event k fd e : same k (iom_cancelEvent k fd e).2;
  nl_cancel_all k fd : same k (iom_cancelAll k fd).2
}.

Section Socket.
Context {K : Type} `{KN : Kernel K} `{KL : !KernelLaws K} `{NT : Net K} `{RC : Reactor K} `{DS : Descriptors K}.
Context `{NL : !NetLaws K} (s_connect_timeout : Z).
Implicit Types w : Sys K.
Implicit Types o : Obj K.

(** ** The world *)

(** The hooks are on, and every context is that of an open descriptor. *)
Record sys_ok w : Prop := {
  so_inv : fd_inv w;
  so_hook : t_hook_enable w = true;
  so_ctx fd c : 0 ≤ fd → ctx_of fd w = Some c → fd ∈ open_fds (kern w)
}.

Lemma sys_ok_same w k : sys_ok w → open_fds k = open_fds (kern w) → (∀ fd, getfl k fd = getfl (kern w) fd) → sys_ok (set_kern k w).
Proof.
  intros [HI Hh Hc] Hf Hg. split; cbn; [|done|].
  - apply (fd_inv_kern w k 0); [done|lia|by intros; apply Hg|]. intros c E Hs.
    destruct (ctx_of_size 0 w c E) as [_ Hl]; [lia|]. destruct (fi_ctx _ HI _ _ Hl) as (_ & _ & H).
    unfold nonblocking. rewrite Hg. by apply H.
  - intros fd c Hfd E. rewrite Hf. by eapply Hc.
Qed.

Lemma get_ok fd w : sys_ok w → -1 ≤ fd → get fd false w = Ok (if fd =? -1 then None else ctx_of fd w) w.
Proof.
  intros [HI _ _] Hfd. destruct (Z.eqb_spec fd (-1)) as [->|Hne]; [done|]. apply get_lookup; [done|lia].
Qed.

(** A new descriptor gets its context. *)
Lemma sys_ok_new w fd k :
  sys_ok w → new_fd (kern w) fd k → (∀ fd', fd' ≠ fd → getfl k fd' = getfl (kern w) fd') →
  ∃ c w', get fd true (set_kern k w) = Ok (Some c) w' ∧ sys_ok w' ∧ ctx_of fd w' = Some c ∧ m_isSocket c = true ∧
    open_fds (kern w') = {[fd]} ∪ open_fds (kern w) ∧ ∀ fd', sock_state (kern w') fd' = sock_state k fd'.
Proof.
  intros [HI Hh Hc] (Hfd & Hn & Hf & Hst) Hg.
  assert (ctx_of fd w = None) as Hnone by (destruct (ctx_of fd w) as [c|] eqn:E; [exfalso; apply Hn; by eapply Hc; [lia|]|done]).
  assert (fd_inv (set_kern k w)) as HIk by (apply (fd_inv_kern w k fd); [done|lia|done|by rewrite Hnone]).
  destruct (get_create fd (set_kern k w) HIk Hfd Hnone) as (c & w' & E & HI' & Hc' & Hs & Hh' & Hk & Ho).
  assert (open_fds (kern w') = {[fd]} ∪ open_fds (kern w)) as Hfds.
  { rewrite <- Hf. destruct Hk as [->|[f ->]]; [done|]. apply (nl_setfl k). }
  assert (∀ fd', sock_state (kern w') fd' = sock_state k fd') as Hst'.
  { intros fd'. destruct Hk as [->|[f ->]]; [done|]. apply (nl_setfl_others k). }
  exists c, w'. split; [done|]. split; [|split; [done|split; [|done]]].
  - split; [done|by rewrite Hh'|]. intros fd' c' H1 H2. rewrite Hfds.
    destruct (decide (fd' = fd)) as [->|Hne]; [set_solver|]. rewrite Ho in H2 by done. apply elem_of_union_r. by eapply Hc.
  - rewrite Hs. cbn. by rewrite Hst.
Qed.

(** ** Objects and their descriptors *)

(** The descriptor an object holds. *)
Definition own (s : Socket) : gset Z := if m_sock s =? -1 then ∅ else {[m_sock s]}.
(** The open descriptors that it does not hold. *)
Definition others o : gset Z := open_fds (kern (world o)) ∖ own (this o).

Record obj_ok o : Prop := {
  oo_world : sys_ok (world o);
  oo_sock : -1 ≤ m_sock (this o);
  oo_open : own (this o) ⊆ open_fds (kern (world o))
}.

(** All descriptors of others are left alone, with their sockets. *)
Definition kept o o' : Prop := others o' = others o ∧ keeps (others o) (kern (world o)) (kern (world o')).

(** A method that returns, keeps the object in order, and leaves others alone:
    from [o], and from every object in order. *)
Definition tidy_from {A} o (c : M (Obj K) A) : Prop := ∃ a o', ⟨ c, o ⟩ ⇓ ⟨ a, o' ⟩ ∧ obj_ok o' ∧ kept o o'.
Definition tidy {A} (c : M (Obj K) A) : Prop := ∀ o, obj_ok o → tidy_from o c.

Lemma kept_trans o1 o2 o3 : kept o1 o2 → kept o2 o3 → kept o1 o3.
Proof.
  intros [E1 K1] [E2 K2]. split; [congruence|]. intros fd Hfd. rewrite E1 in K2. destruct (K2 fd Hfd) as [H1 H2].
  split; [done|]. rewrite H2. by apply K1.
Qed.

(** What the sockets of others being as before comes to. *)
Lemma kept_intro o o' :
  others o' = others o → (∀ fd, fd ∈ others o → sock_state (kern (world o')) fd = sock_state (kern (world o)) fd) → kept o o'.
Proof. intros E H. split; [done|]. intros fd Hfd. split; [|by apply H]. rewrite <- E in Hfd. unfold others in Hfd. set_solver. Qed.

Lemma kept_refl o : kept o o.
Proof. by apply kept_intro. Qed.

(** A descriptor of others is not the object's. *)
Lemma others_ne o fd : fd ∈ others o → fd ≠ m_sock (this o).
Proof.
  unfold others, own. intros H ->. destruct (Z.eqb_spec (m_sock (this o)) (-1)) as [E|]; [|set_solver].
  apply elem_of_difference in H as [H _]. rewrite E in H. apply nl_nonneg in H. lia.
Qed.

Lemma tidy_ret {A} (a : A) : tidy (mret a).
Proof. intros o Ho. eexists _, _. split; [reflexivity|]. split; [done|apply kept_refl]. Qed.

Lemma tidy_from_bind {A B} o (c : M (Obj K) A) (f : A → M (Obj K) B) : tidy_from o c → (∀ a, tidy (f a)) → tidy_from o (c ≫= f).
Proof.
  intros (a & o1 & E1 & Ho1 & H1) Hf. destruct (Hf a o1 Ho1) as (b & o2 & E2 & Ho2 & H2).
  exists b, o2. split; [by rewrite (bind_ok _ _ _ _ _ E1)|]. split; [done|]. by eapply kept_trans.
Qed.

Lemma tidy_bind {A B} (c : M (Obj K) A) (f : A → M (Obj K) B) : tidy c → (∀ a, tidy (f a)) → tidy (c ≫= f).
Proof. intros Hc Hf o Ho. apply tidy_from_bind; [by apply Hc|done]. Qed.

(** The object a method finds is in order. *)
Lemma tidy_me_from {A} (f : Socket → M (Obj K) A) : (∀ o, obj_ok o → tidy_from o (f (this o))) → tidy (me ≫= f).
Proof. intros Hf o Ho. by apply Hf. Qed.
Lemma tidy_me {A} (f : Socket → M (Obj K) A) : (∀ s, -1 ≤ m_sock s → tidy (f s)) → tidy (me ≫= f).
Proof. intros Hf. apply tidy_me_from. intros o Ho. apply (Hf (this o)); [apply Ho|done]. Qed.

Lemma tidy_update (f : Socket → Socket) : (∀ s, m_sock (f s) = m_sock s) → tidy (update f).
Proof.
  intros Hf o [H1 H2 H3]. eexists _, _. split; [reflexivity|].
  assert (own (f (this o)) = own (this o)) as E by (unfold own; by rewrite Hf).
  split; [|apply kept_intro; [unfold others; cbn; by rewrite E|done]]. split; cbn; [done|by rewrite Hf|by rewrite E].
Qed.

(** Calls of the world that change no descriptor, and no socket but the own. *)
Lemma tidy_in_sys_from {A} o (c : M (Sys K) A) :
  obj_ok o →
  (∃ a w', c (world o) = Ok a w' ∧ sys_ok w' ∧ open_fds (kern w') = open_fds (kern (world o)) ∧
     ∀ fd, fd ≠ m_sock (this o) → sock_state (kern w') fd = sock_state (kern (world o)) fd) → tidy_from o (in_sys c).
Proof.
  intros [H1 H2 H3] (a & w' & E & H & Hf & Hst). exists a, (mkObj (this o) w').
  unfold in_sys. rewrite E. split; [done|]. split; [split; cbn; [done..|by rewrite Hf]|].
  apply kept_intro; [unfold others; cbn; by rewrite Hf|]. cbn. intros fd Hfd. by apply Hst, others_ne.
Qed.

Lemma tidy_in_sys {A} (c : M (Sys K) A) :
  (∀ w, sys_ok w → ∃ a w', c w = Ok a w' ∧ sys_ok w' ∧ open_fds (kern w') = open_fds (kern w) ∧
     ∀ fd, sock_state (kern w') fd = sock_state (kern w) fd) → tidy (in_sys c).
Proof.
  intros Hc o Ho. apply tidy_in_sys_from; [done|]. destruct (Hc (world o)) as (a & w' & E & H & Hf & Hst); [apply Ho|]. by exists a, w'.
Qed.

Lemma tidy_ask {A} (f : Sys K → A) : tidy (ask f).
Proof. intros o Ho. eexists _, _. split; [reflexivity|]. split; [done|apply kept_refl]. Qed.

Lemma tidy_get fd : -1 ≤ fd → tidy (in_sys (get fd false)).
Proof. intros Hfd. apply tidy_in_sys. intros w Hw. rewrite get_ok by done. by eexists _, _. Qed.

Lemma syscall_same {A} (f : K → A * K) w :
  sys_ok w → (∀ k, same k (f k).2) →
  ∃ a w', syscall f w = Ok a w' ∧ sys_ok w' ∧ open_fds (kern w') = open_fds (kern w) ∧ ∀ fd, sock_state (kern w') fd = sock_state (kern w) fd.
Proof.
  intros Hw Hf. unfold syscall. mred. destruct (f (kern w)) as [a k] eqn:E. specialize (Hf (kern w)). rewrite E in Hf.
  destruct Hf as (H1 & H2 & H3). eexists _, _. split; [reflexivity|]. by split; [apply sys_ok_same|].
Qed.

Lemma tidy_syscall {A} (f : K → A * K) : (∀ k, same k (f k).2) → tidy (in_sys (syscall f)).
Proof. intros Hf. apply tidy_in_sys. intros w Hw. by apply syscall_same. Qed.

(** A call on the own descriptor. *)
Lemma tidy_own_call {A} o (f : K → Z → A * K) :
  obj_ok o → (∀ k fd, same_but fd k (f k fd).2) → tidy_from o (in_sys (syscall (λ k, f k (m_sock (this o))))).
Proof.
  intros Ho Hf. apply tidy_in_sys_from; [done|]. unfold syscall. mred. specialize (Hf (kern (world o)) (m_sock (this o))).
  destruct (f _ _) as [a k]. destruct Hf as (H1 & H2 & H3). eexists _, _. split; [reflexivity|]. split; [by apply sys_ok_same; [apply Ho|..]|done].
Qed.

(** setsockopt on a time-out updates the context. *)
Lemma timeout_ok fd optname a b w :
  sys_ok w → -1 ≤ fd →
  ∃ w', setsockopt_timeout fd optname a b w = Ok tt w' ∧ sys_ok w' ∧ kern w' = kern w ∧
    (0 ≤ fd → optname = SO_RCVTIMEO ∨ optname = SO_SNDTIMEO →
     ctx_of fd w' = setTimeout optname (u64 (a * 1000 + Z.quot b 1000)) <$> ctx_of fd w).
Proof.
  intros Hw Hfd. pose proof Hw as [HI Hh Hc]. unfold setsockopt_timeout.
  rewrite (bind_ok _ _ _ _ _ (eq_refl : mget w = Ok w w)), Hh. cbn [negb].
  destruct ((optname =? SO_RCVTIMEO) || (optname =? SO_SNDTIMEO)) eqn:Eo.
  2: { exists w. split_and!; [done..|]. intros _ [->| ->]; done. }
  rewrite (bind_ok _ _ _ _ _ (get_ok fd w Hw Hfd)). destruct (Z.eqb_spec fd (-1)) as [->|Hne].
  { exists w. split_and!; [done..|]. lia. }
  destruct (ctx_of fd w) as [c|] eqn:E; [|by exists w; split_and!; rewrite ?E].
  destruct (ctx_of_size fd w c E) as [Hsz Hl]; [lia|]. rewrite datas_put_spec by done.
  destruct (timeout_fields optname (u64 (a * 1000 + Z.quot b 1000)) c) as (F1 & F2 & F3 & F4).
  eexists. split; [reflexivity|]. split; [|split; [done|]].
  - split; [|done|].
    + apply fd_inv_put; [done..|]. intros c' [= <-]. destruct (fi_ctx _ HI _ _ Hl) as (H1 & H2 & H3).
      rewrite Z2Nat.id in H1, H3 by lia. by rewrite F1, F2, F3, F4.
    + intros fd' c' H1 H2. cbn. destruct (decide (fd' = fd)) as [->|Hd]; [by eapply Hc|].
      apply (Hc fd' c' H1). unfold ctx_of in *. cbn in H2. by rewrite list_lookup_insert_ne in H2 by lia.
  - intros _ _. unfold ctx_of. cbn. by rewrite list_lookup_insert_eq by (unfold zlen in Hsz; lia).
Qed.

Lemma hook_setsockopt_ok fd level optname v w :
  sys_ok w → -1 ≤ fd →
  ∃ rt w', hook_setsockopt fd level optname v w = Ok rt w' ∧ sys_ok w' ∧ open_fds (kern w') = open_fds (kern w) ∧
    ∀ fd', sock_state (kern w') fd' = sock_state (kern w) fd'.
Proof.
  intros Hw Hfd. unfold hook_setsockopt.
  assert (∃ w1, (match v with
     | OTime tv_sec tv_usec => if level =? SOL_SOCKET then setsockopt_timeout fd optname tv_sec tv_usec else mret tt
     | OInt _ => mret tt end) w = Ok tt w1 ∧ sys_ok w1 ∧ kern w1 = kern w) as (w1 & E1 & Hw1 & Hk).
  { destruct v as [v|a b]; [by exists w|]. destruct (level =? SOL_SOCKET); [|by exists w].
    destruct (timeout_ok fd optname a b w Hw Hfd) as (w1 & ? & ? & ? & _). by exists w1. }
  rewrite (bind_ok _ _ _ _ _ E1), <- Hk. apply syscall_same; [done|]. intros k. apply nl_setsockopt.
Qed.

(** ** Every method is tidy *)

Create HintDb tidy.
#[local] Hint Resolve tidy_ret tidy_ask tidy_get : tidy.

(** A method body is tidy when its calls are. *)
Ltac tidy_body :=
  repeat match goal with
  | |- tidy (me ≫= _) => apply tidy_me; intros ? ?
  | |- tidy (_ ≫= _) => apply tidy_bind; [|intros ?]
  | |- tidy (match ?x with _ => _ end) => destruct x
  | |- tidy (update _) => by apply tidy_update
  | |- tidy _ => solve [eauto with tidy]
  end.

Lemma tidy_setOption level optname v : tidy (setOption level optname v).
Proof.
  unfold setOption. tidy_body. apply tidy_in_sys. intros w Hw. by apply hook_setsockopt_ok.
Qed.

Lemma tidy_ask_address call : tidy (ask_address call).
Proof. unfold ask_address. tidy_body. Qed.
#[local] Hint Resolve tidy_setOption tidy_ask_address : tidy.

Lemma tidy_getRemoteAddress : tidy getRemoteAddress.
Proof. unfold getRemoteAddress. tidy_body. Qed.
Lemma tidy_getLocalAddress : tidy getLocalAddress.
Proof. unfold getLocalAddress. tidy_body. Qed.
Lemma tidy_initSock : tidy initSock.
Proof. unfold initSock. tidy_body. Qed.
#[local] Hint Resolve tidy_getRemoteAddress tidy_getLocalAddress tidy_initSock : tidy.

(** A closed object that takes over a new descriptor. *)
Lemma obj_takes o fd w :
  obj_ok o → m_sock (this o) = -1 → sys_ok w → 0 ≤ fd → fd ∉ open_fds (kern (world o)) →
  open_fds (kern w) = {[fd]} ∪ open_fds (kern (world o)) →
  (∀ fd', fd' ≠ fd → sock_state (kern w) fd' = sock_state (kern (world o)) fd') →
  obj_ok (mkObj (set_sock fd (this o)) w) ∧ kept o (mkObj (set_sock fd (this o)) w).
Proof.
  intros Ho Hs Hw Hfd Hn Hf Hst.
  assert (own (this o) = ∅) as E0 by (unfold own; by rewrite Hs).
  assert (own (set_sock fd (this o)) = {[fd]}) as E1.
  { unfold own. cbn. by rewrite (proj2 (Z.eqb_neq _ _)) by lia. }
  split; [split; cbn; [done|lia|rewrite E1, Hf; set_solver]|].
  apply kept_intro; [unfold others; cbn [world this]; rewrite E0, E1, Hf; set_solver|]. cbn. intros fd' Hin. apply Hst. intros ->.
  apply Hn. unfold others in Hin. set_solver.
Qed.

(** socket() leaves the world in order, without or with a new descriptor. *)
Lemma socket_ok w :
  sys_ok w →
  ∃ fd w', socket w = Ok fd w' ∧ sys_ok w' ∧ fd = (open_socket (kern w)).1 ∧
    (∀ fd', fd' ≠ fd → sock_state (kern w') fd' = sock_state (kern w) fd') ∧
    (fd = -1 ∧ open_fds (kern w') = open_fds (kern w) ∨
     0 ≤ fd ∧ (fd ∉ open_fds (kern w)) ∧ open_fds (kern w') = {[fd]} ∪ open_fds (kern w)).
Proof.
  intros Hw. unfold socket. mred. pose proof (nl_open (kern w)) as Hopen. pose proof (open_other (kern w)) as Hfl.
  pose proof (nl_open_others (kern w)) as Hst.
  destruct (open_socket (kern w)) as [fd k] eqn:Ek. specialize (Hfl fd k). cbn [fst snd] in Hopen, Hst. rewrite (so_hook _ Hw). cbn [negb].
  destruct Hopen as [[-> Hf]|Hnew].
  - eexists _, _. split; [reflexivity|]. split; [|by split_and!; [..|left]].
    split; cbn; [|apply Hw|intros ? ? ? ?; rewrite Hf; by eapply (so_ctx _ Hw)].
    split; [apply (so_inv _ Hw)|]. cbn. intros i c Hi. destruct (fi_ctx _ (so_inv _ Hw) i c Hi) as (? & ? & H3).
    split_and!; try done. intros Hsk. destruct (H3 Hsk) as [? ?]. split; [done|]. unfold nonblocking. rewrite Hfl; [done..|lia].
  - pose proof Hnew as ([Hfd _] & Hn & _). rewrite (proj2 (Z.eqb_neq _ _)) by lia.
    destruct (sys_ok_new w fd k Hw Hnew) as (c & w' & Eg & Hw' & _ & _ & Hf & Hst'); [by intros; apply Hfl|].
    rewrite Eg. eexists _, _. split; [reflexivity|]. split; [done|]. split; [done|]. split; [|by right].
    intros fd' Hne. rewrite Hst'. by apply Hst.
Qed.

(** newSock is called on an object that holds nothing. *)
Lemma newSock_tidy o :
  obj_ok o → m_sock (this o) = -1 → ∃ o', ⟨ newSock, o ⟩ ⇓ ⟨ tt, o' ⟩ ∧ obj_ok o' ∧ kept o o'.
Proof.
  intros Ho Hs. unfold newSock. pose proof (oo_world _ Ho) as Hw.
  assert (∃ fd w, socket (world o) = Ok fd w ∧ obj_ok (mkObj (set_sock fd (this o)) w) ∧ kept o (mkObj (set_sock fd (this o)) w))
    as (fd & w & E & Ho1 & H1).
  { destruct (socket_ok (world o) Hw) as (fd & w & E & Hw' & _ & Hst & [[-> Hf]|(H0 & Hn & Hf)]); eexists _, w; (split; [exact E|]).
    - assert (set_sock (-1) (this o) = this o) as -> by (by destruct (this o); cbn in *; subst).
      split; [split; cbn; [done|apply Ho|rewrite Hf; apply Ho]|]. apply kept_intro; [unfold others; cbn; by rewrite Hf|].
      cbn. intros fd Hfd. apply Hst. apply others_ne in Hfd. by rewrite Hs in Hfd.
    - by apply obj_takes. }
  erewrite bind_ok; [|unfold in_sys; rewrite E; reflexivity]. erewrite bind_ok; [|reflexivity]. cbn [this world].
  destruct (negb (fd =? -1)).
  - destruct (tidy_initSock _ Ho1) as ([] & o2 & E2 & Ho2 & H2). exists o2. split; [exact E2|]. split; [done|]. by eapply kept_trans.
  - eexists. split; [reflexivity|]. by split.
Qed.

Lemma tidy_ensure_sock : tidy ensure_sock.
Proof.
  intros o Ho. unfold ensure_sock, tidy_from. erewrite bind_ok; [|reflexivity]. unfold isValid. destruct (Z.eqb_spec (m_sock (this o)) (-1)) as [E|E]; cbn [negb].
  - destruct (newSock_tidy o Ho E) as (o1 & E1 & Ho1 & H1). exists (negb (m_sock (this o1) =? -1)), o1.
    rewrite (bind_ok _ _ _ _ _ E1). by split.
  - eexists _, _. split; [reflexivity|]. split; [done|apply kept_refl].
Qed.

Lemma tidy_close : tidy close.
Proof.
  intros o Ho. pose proof Ho as [Hw Hs Hopen]. unfold close, tidy_from. erewrite bind_ok; [|reflexivity].
  destruct (Z.eqb_spec (m_sock (this o)) (-1)) as [E|E]; cbn [negb].
  - destruct (m_isConnected (this o)); cbn [negb andb]; [|by eexists _, _; split; [reflexivity|]; split; [|apply kept_refl]].
    destruct (tidy_update (set_connected false) (λ _, eq_refl) o Ho) as ([] & o1 & E1 & Ho1 & H1).
    exists false, o1. rewrite (bind_ok _ _ _ _ _ E1). by split.
  - rewrite andb_false_r. erewrite bind_ok; [|reflexivity].
    destruct (close_inv (world o) (m_sock (this o)) (so_inv _ Hw)) as (rt & w & Ec & HI & Hnone & Hh); [lia|apply Hw|].
    assert (open_fds (kern w) = open_fds (kern (world o)) ∖ {[m_sock (this o)]} ∧
      (∀ fd, 0 ≤ fd → fd ≠ m_sock (this o) → ctx_of fd w = ctx_of fd (world o)) ∧
      ∀ fd, fd ≠ m_sock (this o) → sock_state (kern w) fd = sock_state (kern (world o)) fd) as (Hf & Hctx & Hst).
    { revert Ec. unfold Hook.close. rewrite (bind_ok _ _ _ _ _ (eq_refl : mget (world o) = Ok (world o) (world o))).
      rewrite (so_hook _ Hw). cbn [negb]. unfold mbind at 1, M_bind at 1.
      rewrite (bind_ok _ _ _ _ _ (get_ok (m_sock (this o)) (world o) Hw Hs)). rewrite (proj2 (Z.eqb_neq _ _)) by done.
      pose proof (nl_close (kern (world o)) (m_sock (this o))) as Hcl. pose proof (nl_close_others (kern (world o)) (m_sock (this o))) as Hcs.
      destruct (ctx_of (m_sock (this o)) (world o)) as [c|] eqn:Hc.
      - destruct (ctx_of_size _ _ _ Hc) as [Hsz _]; [lia|]. unfold del. mred. rewrite datas_i32 by apply Hw.
        rewrite (proj2 (Z.leb_gt _ _)) by lia. rewrite datas_put_spec by done. cbn.
        destruct (close_fd _ _) as [rt' k]. intros [= <- <-]. split; [done|]. split; [|done]. intros fd H1 H2. unfold ctx_of. cbn.
        by rewrite list_lookup_insert_ne by lia.
      - mred. cbn. destruct (close_fd _ _) as [rt' k]. intros [= <- <-]. by split. }
    erewrite bind_ok.
    2: { erewrite bind_ok; [|unfold in_sys; cbn [world this]; rewrite Ec; reflexivity]. reflexivity. }
    eexists _, _. split; [reflexivity|]. cbn [this world].
    assert (own (this o) = {[m_sock (this o)]}) as Eo by (unfold own; by rewrite (proj2 (Z.eqb_neq _ _))).
    split; [split; cbn [this world]; [|done|apply empty_subseteq]|].
    + split; [done..|]. intros fd c H1 H2. destruct (decide (fd = m_sock (this o))) as [->|Hne]; [congruence|].
      rewrite Hf, Hctx in * by done. apply elem_of_difference. split; [by eapply (so_ctx _ Hw)|set_solver].
    + apply kept_intro; [unfold others; cbn [this world]; rewrite Hf, Eo; change (own (set_sock (-1) _)) with (∅ : gset Z); set_solver|].
      cbn. intros fd Hfd. by apply Hst, others_ne.
Qed.
#[local] Hint Resolve tidy_ensure_sock tidy_close : tidy.

(** A method of which the rest is a call on the own descriptor. *)
Lemma tidy_guarded {A B} (g : Socket → bool) (d : B) (f : K → Z → A * K) (r : A → M (Obj K) B) :
  (∀ k fd, same_but fd k (f k fd).2) → (∀ a, tidy (r a)) →
  tidy (s ← me; if g s then mret d else a ← in_sys (syscall (λ k, f k (m_sock s))); r a).
Proof.
  intros Hf Hr. apply tidy_me_from. intros o Ho. destruct (g (this o)); [by apply tidy_ret|].
  apply tidy_from_bind; [by apply tidy_own_call|done].
Qed.

Lemma tidy_bind_op addr : tidy (Socket.bind addr).
Proof.
  unfold Socket.bind. apply tidy_bind; [apply tidy_ensure_sock|intros []; cbn [negb]; [|apply tidy_ret]].
  apply (tidy_guarded (λ s, negb (getFamily addr =? m_family s)) false (λ k fd, bind_f k fd addr)); [|intros rt; tidy_body].
  intros k fd. apply nl_bind.
Qed.
Lemma tidy_connect addr t : tidy (connect s_connect_timeout addr t).
Proof.
  unfold connect. apply tidy_bind; [by apply tidy_update|intros _].
  apply tidy_bind; [apply tidy_ensure_sock|intros []; cbn [negb]; [|apply tidy_ret]].
  apply (tidy_guarded (λ s, negb (getFamily addr =? m_family s)) false
    (λ k fd, connect_done k fd addr (if t =? minus1 then s_connect_timeout else t))); [|intros rt; tidy_body].
  intros k fd. apply nl_connect.
Qed.
Lemma tidy_listen n : tidy (listen n).
Proof. apply (tidy_guarded (λ s, negb (isValid s)) false (λ k fd, listen_f k fd n)); [|intros rt; tidy_body]. intros k fd. apply nl_listen. Qed.
Lemma tidy_do_call call : tidy (do_call call).
Proof.
  unfold do_call. tidy_body. apply tidy_syscall. intros k. pose proof (nl_io k (m_sock s) call).
  by destruct (io_done k (m_sock s) call) as [[n d] k'].
Qed.
#[local] Hint Resolve tidy_bind_op tidy_connect tidy_listen tidy_do_call : tidy.

(** Cancelling is for a thread with an IOManager and an open socket. *)
Lemma cancel_from o iom f :
  obj_ok o → (∀ k fd, same k (f k fd).2) →
  if iom : bool then if m_sock (this o) =? -1 then cancel_call iom f o = Stop OutOfBounds else tidy_from o (cancel_call iom f)
  else cancel_call iom f o = Stop NullDeref.
Proof.
  intros Ho Hf. destruct iom; [|done]. pose proof (oo_sock _ Ho). unfold cancel_call, tidy_from.
  rewrite (bind_ok _ _ _ _ _ (eq_refl : me o = Ok (this o) o)). cbn [negb]. destruct (Z.eqb_spec (m_sock (this o)) (-1)) as [->|Hne]; [done|].
  rewrite (proj2 (Z.ltb_ge _ _)) by lia. by apply (tidy_syscall (λ k, f k (m_sock (this o)))).
Qed.

(** The public methods that do not make another object, with arguments of the
    caller; what they return is left out. *)
Inductive op : Type :=
| OpBind (addr : Address) | OpConnect (addr : Address) (timeout_ms : Z) | OpListen (backlog : Z) | OpClose
| OpIo (call : io_call) | OpSetSendTimeout (v : Z) | OpSetRecvTimeout (v : Z) | OpGetSendTimeout | OpGetRecvTimeout
| OpSetOption (level optname : Z) (v : optval) | OpGetError | OpRemote | OpLocal
| OpCancelRead | OpCancelWrite | OpCancelAccept | OpCancelAll.

Definition discard {A} (c : M (Obj K) A) : M (Obj K) unit := c;; mret tt.

(** [iom]: the thread has an IOManager. *)
Definition run_op (iom : bool) (x : op) : M (Obj K) unit :=
  match x with
  | OpBind a => discard (Socket.bind a) | OpConnect a t => discard (connect s_connect_timeout a t)
  | OpListen n => discard (listen n) | OpClose => discard close | OpIo c => discard (do_call c)
  | OpSetSendTimeout v => setSendTimeout v | OpSetRecvTimeout v => setRecvTimeout v
  | OpGetSendTimeout => discard getSendTimeout | OpGetRecvTimeout => discard getRecvTimeout
  | OpSetOption l n v => discard (setOption l n v) | OpGetError => discard getError
  | OpRemote => discard getRemoteAddress | OpLocal => discard getLocalAddress
  | OpCancelRead => discard (cancelRead iom) | OpCancelWrite => discard (cancelWrite iom)
  | OpCancelAccept => discard (cancelAccept iom) | OpCancelAll => discard (cancelAll iom)
  end.

Lemma tidy_discard {A} (c : M (Obj K) A) : tidy c → tidy (discard c).
Proof. intros Hc. unfold discard. tidy_body. Qed.

(** The calls without a defined behaviour: cancelling in a thread that has no
    IOManager, or without a descriptor. *)
Definition undefined_call (iom : bool) (x : op) (s : Socket) : option stop :=
  match x with
  | OpCancelRead | OpCancelWrite | OpCancelAccept | OpCancelAll =>
    if negb iom then Some NullDeref else if m_sock s =? -1 then Some OutOfBounds else None
  | _ => None
  end.

Lemma op_from iom x o :
  obj_ok o →
  match undefined_call iom x (this o) with Some u => run_op iom x o = Stop u | None => tidy_from o (run_op iom x) end.
Proof.
  intros Ho. assert (∀ f, (∀ k fd, same k (f k fd).2) →
    match (if negb iom then Some NullDeref else if m_sock (this o) =? -1 then Some OutOfBounds else None) with
    | Some u => discard (cancel_call iom f) o = Stop u | None => tidy_from o (discard (cancel_call iom f)) end) as Hc.
  { intros f Hf. pose proof (cancel_from o iom f Ho Hf) as H. destruct iom; cbn [negb]; [destruct (m_sock (this o) =? -1)|].
    - by apply bind_stop.
    - apply tidy_from_bind; [done|]. intros b. apply tidy_ret.
    - by apply bind_stop. }
  destruct x; cbn [undefined_call run_op]; try (by apply Hc; intros; first [apply nl_cancel_event|apply nl_cancel_all]);
    revert o Ho Hc; intros o Ho _; revert o Ho; try apply tidy_discard;
    unfold setSendTimeout, setRecvTimeout, getSendTimeout, getRecvTimeout, ctx_timeout, getError, getOption; tidy_body.
Qed.

Fixpoint run_ops (iom : bool) (l : list op) : M (Obj K) unit :=
  match l with [] => mret tt | x :: l' => run_op iom x;; run_ops iom l' end.

(** A sequence of calls is tidy, or comes to one without a defined behaviour. *)
Lemma ops_from iom l o :
  obj_ok o →
  tidy_from o (run_ops iom l) ∨
  ∃ l1 x l2 o1 u, l = l1 ++ x :: l2 ∧ ⟨ run_ops iom l1, o ⟩ ⇓ ⟨ tt, o1 ⟩ ∧ undefined_call iom x (this o1) = Some u ∧ run_ops iom l o = Stop u.
Proof.
  revert o. induction l as [|x l IH]; intros o Ho; cbn [run_ops]; [left; by apply tidy_ret|].
  pose proof (op_from iom x o Ho) as Hx. destruct (undefined_call iom x (this o)) as [u|] eqn:Eu.
  { right. exists [], x, l, o, u. split_and!; try done. by apply bind_stop. }
  destruct Hx as ([] & o1 & E & Ho1 & K1). destruct (IH o1 Ho1) as [([] & o2 & E2 & Ho2 & K2)|(l1 & y & l2 & o2 & u & -> & E2 & Hu & Es)].
  - left. exists tt, o2. rewrite (bind_ok _ _ _ _ _ E). split; [done|]. split; [done|]. by eapply kept_trans.
  - right. exists (x :: l1), y, l2, o2, u. cbn [run_ops]. rewrite !(bind_ok _ _ _ _ _ E). by split_and!.
Qed.

(** What close leaves of the object. *)
Lemma close_this o b o' : close o = Ok b o' → this o' = set_sock (-1) (set_connected false (this o)).
Proof.
  unfold close, in_sys, me, update. destruct o as [[sock fam ty pr conn loc rem] w]. mred. cbn.
  destruct (Z.eqb_spec sock (-1)) as [->|Hne]; cbn; [by destruct conn; intros [= <- <-]|].
  rewrite andb_false_r. cbn. destruct (Hook.close sock w); cbn; intros E; by inversion E.
Qed.


(** ** Methods that leave the descriptor and the contexts alone *)

Definition still {A} (c : M (Obj K) A) : Prop :=
  ∀ o a o', ⟨ c, o ⟩ ⇓ ⟨ a, o' ⟩ →
    m_sock (this o') = m_sock (this o) ∧ m_isConnected (this o') = m_isConnected (this o) ∧
    m_family (this o') = m_family (this o) ∧ m_datas (world o') = m_datas (world o).

Lemma still_ret {A} (a : A) : still (mret a).
Proof. intros o a' o' [= _ <-]. done. Qed.
Lemma still_ask {A} (f : Sys K → A) : still (ask f).
Proof. intros o a o' [= _ <-]. done. Qed.
Lemma still_me : still me.
Proof. intros o a o' [= _ <-]. done. Qed.
Lemma still_bind {A B} (c : M (Obj K) A) (f : A → M (Obj K) B) : still c → (∀ a, still (f a)) → still (c ≫= f).
Proof.
  intros Hc Hf o b o'. unfold mbind, M_bind. destruct (c o) as [a o1| | |] eqn:E; [|done..]. intros E'.
  destruct (Hc _ _ _ E) as (H1 & H2 & H3 & H4). destruct (Hf _ _ _ _ E') as (-> & -> & -> & ->). done.
Qed.
Lemma still_update f :
  (∀ s, m_sock (f s) = m_sock s ∧ m_isConnected (f s) = m_isConnected s ∧ m_family (f s) = m_family s) → still (update f).
Proof. intros Hf o a o' [= _ <-]. cbn. by destruct (Hf (this o)) as (-> & -> & ->). Qed.
Lemma still_syscall {A} (f : K → A * K) : still (in_sys (syscall f)).
Proof.
  intros o a o'. unfold in_sys, syscall. mred. destruct (f (kern (world o))) as [b k]. intros [= _ <-]. done.
Qed.
Create HintDb still.
#[local] Hint Resolve still_ret still_ask still_me still_syscall : still.

Ltac still_body :=
  repeat match goal with
  | |- still (_ ≫= _) => apply still_bind; [|intros ?]
  | |- still (match ?x with _ => _ end) => destruct x
  | |- still (update _) => apply still_update; by intros []
  | |- still _ => solve [eauto with still]
  end.

Lemma still_setOption level optname v : still (setOption level optname (OInt v)).
Proof.
  unfold setOption. apply still_bind; [apply still_me|]. intros s. apply still_bind; [|intros rt; apply still_ret].
  apply (still_syscall (λ k, setsockopt_f k (m_sock s) level optname (OInt v))).
Qed.
#[local] Hint Resolve still_setOption : still.
Lemma still_initSock : still initSock.
Proof. unfold initSock. still_body. Qed.
Lemma still_getRemoteAddress : still getRemoteAddress.
Proof. unfold getRemoteAddress, ask_address. still_body. Qed.
Lemma still_getLocalAddress : still getLocalAddress.
Proof. unfold getLocalAddress, ask_address. still_body. Qed.
#[local] Hint Resolve still_initSock still_getRemoteAddress still_getLocalAddress : still.

Lemma still_listen n : still (listen n).
Proof. unfold listen. still_body. Qed.

Lemma getLocalAddress_world o a o' : getLocalAddress o = Ok a o' → world o' = world o.
Proof.
  unfold getLocalAddress, ask_address, me, ask, update. mred. destruct (m_localAddress (this o)); [by intros [= _ <-]|].
  mred. destruct (getsockname _ _ _) as [[b n]|]; mred; by intros [= _ <-].
Qed.

(** How ensure_sock ends: without a descriptor only when socket() gave none. *)
Lemma ensure_sock_outcome o ok o1 :
  obj_ok o → ensure_sock o = Ok ok o1 →
  ok = negb (m_sock (this o1) =? -1) ∧ m_family (this o1) = m_family (this o) ∧ (ok = false → (open_socket (kern (world o))).1 = -1).
Proof.
  intros Ho. unfold ensure_sock. rewrite (bind_ok _ _ _ _ _ (eq_refl : me o = Ok (this o) o)). unfold isValid.
  destruct (negb (m_sock (this o) =? -1)) eqn:Ev; [by intros [= <- <-]|].
  intros ([] & o2 & E2 & [= <- <-])%bind_inv_ok. revert E2. unfold newSock.
  destruct (socket_ok (world o)) as (fd & w & E & _ & Hfd & _); [apply Ho|].
  rewrite (bind_ok _ _ o fd (mkObj (this o) w)) by (unfold in_sys; by rewrite E).
  rewrite (bind_ok _ _ (mkObj (this o) w) tt (mkObj (set_sock fd (this o)) w)) by done.
  assert (still (if negb (fd =? -1) then initSock else mret tt)) as Hst by still_body.
  intros (-> & _ & -> & _)%Hst. cbn. split; [done|]. split; [done|]. intros ->%negb_false_iff%Z.eqb_eq. done.
Qed.

(** How bind ends: the object holds a descriptor of the family of the address
    that is bound to it; or, when the family is right, a call was refused. *)
Lemma bind_outcome addr o ok o' :
  obj_ok o → Socket.bind addr o = Ok ok o' →
  if ok : bool
  then m_sock (this o') ≠ -1 ∧ m_family (this o') = getFamily addr ∧ (sock_state (kern (world o')) (m_sock (this o'))).1 = Some addr
  else m_family (this o) = getFamily addr →
    ∃ k, keeps (others o) (kern (world o)) k ∧ ((open_socket k).1 = -1 ∨ ∃ fd, (bind_f k fd addr).1 ≠ 0).
Proof.
  intros Ho. unfold Socket.bind. destruct (tidy_ensure_sock o Ho) as (ok1 & o1 & E & Ho1 & [_ K1]). rewrite (bind_ok _ _ _ _ _ E).
  destruct (ensure_sock_outcome o ok1 o1 Ho E) as (-> & Hfam & Hopen). rewrite negb_involutive.
  destruct (Z.eqb_spec (m_sock (this o1)) (-1)) as [Es|Hne].
  { intros [= <- <-] _. exists (kern (world o)). split; [|left; by apply Hopen]. intros fd Hfd. unfold others in Hfd. set_solver. }
  rewrite (bind_ok _ _ _ _ _ (eq_refl : me o1 = Ok (this o1) o1)).
  destruct (Z.eqb_spec (getFamily addr) (m_family (this o1))) as [Hf|Hf]; cbn [negb]; [|intros [= <- <-] H; congruence].
  pose proof (nl_bind_done (kern (world o1)) (m_sock (this o1)) addr) as Hdone. unfold in_sys, syscall. unfold mbind at 1, M_bind at 1. mred.
  destruct (bind_f (kern (world o1)) (m_sock (this o1)) addr) as [rt k] eqn:Ek. cbn [fst snd] in Hdone.
  destruct (Z.eqb_spec rt 0) as [->|Hrt]; cbn [negb].
  2: { intros [= <- <-] _. exists (kern (world o1)). split; [done|]. right. exists (m_sock (this o1)). by rewrite Ek. }
  intros (a & o2 & E2 & [= <- <-])%bind_inv_ok. pose proof (getLocalAddress_world _ _ _ E2) as Hw.
  destruct (still_getLocalAddress _ _ _ E2) as (-> & _ & -> & _). rewrite Hw. cbn. by rewrite Hdone.
Qed.

(** After a listen that succeeds the socket listens, at the address it had. *)
Lemma listen_outcome n o ok o' :
  m_sock (this o) ≠ -1 → listen n o = Ok ok o' →
  this o' = this o ∧
  if ok : bool then sock_state (kern (world o')) (m_sock (this o)) = ((sock_state (kern (world o)) (m_sock (this o))).1, true)
  else (listen_f (kern (world o)) (m_sock (this o)) n).1 ≠ 0.
Proof.
  intros Hne. unfold listen. rewrite (bind_ok _ _ _ _ _ (eq_refl : me o = Ok (this o) o)). unfold isValid.
  rewrite (proj2 (Z.eqb_neq _ _) Hne). cbn [negb]. unfold in_sys, syscall. mred.
  pose proof (nl_listen_done (kern (world o)) (m_sock (this o)) n) as Hdone. destruct (listen_f _ _ _) as [rt k]. cbn [fst snd] in *.
  intros [= <- <-]. split; [done|]. destruct (Z.eqb_spec rt 0) as [->|Hrt]; cbn; [by apply Hdone|done].
Qed.

(** ** Time-outs *)

(** A time-out that the two int fields of a timeval can hold, or -1. *)
Definition fits (v : Z) : Prop := -1 ≤ v < 2 ^ 31 * 1000.

Lemma timeval_keeps v : fits v →
  i64 (u64 (i32 (Z.quot v 1000) * 1000 + Z.quot (i32 (Z.rem v 1000 * 1000)) 1000)) = v.
Proof.
  intros [H1 H2]. destruct (decide (v = -1)) as [->|Hne]; [by vm_compute|].
  pose proof (Z.quot_rem' v 1000). pose proof (Z.rem_bound_pos v 1000).
  assert (0 ≤ Z.quot v 1000 < 2 ^ 31) by (split; [apply Z.quot_pos; lia|apply Z.quot_lt_upper_bound; lia]).
  rewrite !(wraps_small 32) by (unfold in_s; lia). rewrite Z.quot_mul by lia.
  rewrite wrapu_small by (unfold in_u; lia). rewrite wraps_small by (unfold in_s; lia). lia.
Qed.

Lemma set_timeout_spec o c optname v :
  obj_ok o → 0 ≤ m_sock (this o) → ctx_of (m_sock (this o)) (world o) = Some c →
  optname = SO_RCVTIMEO ∨ optname = SO_SNDTIMEO →
  ∃ b o', ⟨ setOption SOL_SOCKET optname (timeval_of v), o ⟩ ⇓ ⟨ b, o' ⟩ ∧ obj_ok o' ∧ this o' = this o ∧ kept o o' ∧
    ctx_of (m_sock (this o)) (world o') =
      Some (setTimeout optname (u64 (i32 (Z.quot v 1000) * 1000 + Z.quot (i32 (Z.rem v 1000 * 1000)) 1000)) c).
Proof.
  intros Ho Hs Hc Hopt. destruct (tidy_setOption SOL_SOCKET optname (timeval_of v) o Ho) as (b & o' & E & Ho' & Hoth).
  exists b, o'. split; [done|]. split; [done|]. revert E. unfold setOption, hook_setsockopt, timeval_of, in_sys.
  rewrite (bind_ok _ _ _ _ _ (eq_refl : me o = Ok (this o) o)).
  destruct (timeout_ok (m_sock (this o)) optname (i32 (Z.quot v 1000)) (i32 (Z.rem v 1000 * 1000)) (world o))
    as (w1 & E1 & _ & _ & Hctx); [apply Ho|lia|]. specialize (Hctx Hs Hopt). rewrite Hc in Hctx.
  change (SOL_SOCKET =? SOL_SOCKET) with true. cbv iota. unfold mbind at 1, M_bind at 1. rewrite (bind_ok _ _ _ _ _ E1).
  unfold syscall. mred. destruct (setsockopt_f _ _ _ _ _) as [rt k]. intros [= <- <-]. done.
Qed.

Lemma ctx_timeout_spec o c type :
  obj_ok o → 0 ≤ m_sock (this o) → ctx_of (m_sock (this o)) (world o) = Some c →
  ctx_timeout type o = Ok (i64 (getTimeout type c)) o.
Proof.
  intros Ho Hs Hc. unfold ctx_timeout, in_sys. rewrite (bind_ok _ _ _ _ _ (eq_refl : me o = Ok (this o) o)).
  unfold mbind, M_bind. rewrite get_ok by apply Ho. rewrite (proj2 (Z.eqb_neq _ _)) by lia. rewrite Hc. by destruct o.
Qed.

(** Time-outs of a socket round trip through the hooked setsockopt: a time-out
    in milliseconds that fits, or -1 for none, is what the getter returns
    afterwards, and the time-out of the other direction stays. *)
Theorem timeout_roundtrip o c v :
  obj_ok o → 0 ≤ m_sock (this o) → ctx_of (m_sock (this o)) (world o) = Some c → fits v →
  (∃ o', ⟨ setRecvTimeout v, o ⟩ ⇓ ⟨ tt, o' ⟩ ∧ ⟨ getRecvTimeout, o' ⟩ ⇓ ⟨ v, o' ⟩ ∧
     ⟨ getSendTimeout, o' ⟩ ⇓ ⟨ i64 (m_sendTimeout c), o' ⟩) ∧
  (∃ o', ⟨ setSendTimeout v, o ⟩ ⇓ ⟨ tt, o' ⟩ ∧ ⟨ getSendTimeout, o' ⟩ ⇓ ⟨ v, o' ⟩ ∧
     ⟨ getRecvTimeout, o' ⟩ ⇓ ⟨ i64 (m_recvTimeout c), o' ⟩).
Proof.
  intros Ho Hs Hc Hv.
  destruct (set_timeout_spec o c SO_RCVTIMEO v) as (b1 & o1 & E1 & Ho1 & T1 & _ & C1); [done..|by left|].
  destruct (set_timeout_spec o c SO_SNDTIMEO v) as (b2 & o2 & E2 & Ho2 & T2 & _ & C2); [done..|by right|].
  rewrite <- T1 in C1, Hs. rewrite <- T2 in C2. pose proof Hs as Hs2. rewrite T1, <- T2 in Hs2. split.
  - exists o1. split; [unfold setRecvTimeout; by rewrite (bind_ok _ _ _ _ _ E1)|].
    unfold getRecvTimeout, getSendTimeout. rewrite !(ctx_timeout_spec _ _ _ Ho1 Hs C1). cbn. by rewrite timeval_keeps.
  - exists o2. split; [unfold setSendTimeout; by rewrite (bind_ok _ _ _ _ _ E2)|].
    unfold getRecvTimeout, getSendTimeout. rewrite !(ctx_timeout_spec _ _ _ Ho2 Hs2 C2). cbn. by rewrite timeval_keeps.
Qed.

(** ** Accepting *)

Lemma init_true o b o' : (initSock;; getLocalAddress;; getRemoteAddress;; mret true) o = Ok b o' → b = true.
Proof.
  unfold mbind, M_bind. destruct (initSock o) as [? o1| | |]; [|done..]. destruct (getLocalAddress o1) as [? o2| | |]; [|done..].
  destruct (getRemoteAddress o2) as [? o3| | |]; [|done..]. by intros [= <- _].
Qed.

(** What init does with a descriptor that has its context. *)
Lemma init_spec fam ty pr fd c w :
  sys_ok w → 0 ≤ fd → fd ∈ open_fds (kern w) → ctx_of fd w = Some c → m_isSocket c = true →
  ∃ s w', on_object (init fd) (Socket_new fam ty pr) w = Ok (true, s) w' ∧ obj_ok (mkObj s w') ∧
    m_sock s = fd ∧ m_isConnected s = true ∧ open_fds (kern w') = open_fds (kern w) ∧ ctx_of fd w' = Some c.
Proof.
  intros Hw Hfd Hin Hc Hsk. unfold on_object, init, in_sys. unfold mbind at 1, M_bind at 1. cbn [world].
  rewrite get_ok by (done || lia). rewrite (proj2 (Z.eqb_neq _ _)) by lia. rewrite Hc, Hsk.
  destruct (ctx_of_size _ _ _ Hc Hfd) as [_ Hl]. destruct (fi_ctx _ (so_inv _ Hw) _ _ Hl) as (_ & -> & _). cbn [negb andb this].
  set (s1 := set_connected true (set_sock fd (Socket_new fam ty pr))).
  rewrite (bind_ok _ _ _ tt (mkObj s1 w)) by done.
  assert (obj_ok (mkObj s1 w)) as Ho.
  { split; cbn; [done|lia|]. unfold own. cbn. rewrite (proj2 (Z.eqb_neq _ _)) by lia. set_solver. }
  assert (tidy (initSock;; getLocalAddress;; getRemoteAddress;; mret true)) as Ht by tidy_body.
  assert (still (initSock;; getLocalAddress;; getRemoteAddress;; mret true)) as Hst by still_body.
  destruct (Ht _ Ho) as (b & o' & E & Ho' & [Hoth _]). destruct (Hst _ _ _ E) as (H1 & H2 & _ & H3). cbn in H1, H2, H3.
  assert (b = true) as -> by (by apply init_true in E). rewrite E. exists (this o'), (world o').
  split; [done|]. split; [by destruct o'|]. split; [done|]. split; [done|]. split.
  - assert (own (this o') = own s1) as Eo by (unfold own; by rewrite H1). unfold others in Hoth. rewrite Eo in Hoth. cbn [this world] in Hoth.
    rewrite (union_difference_L (own s1) (open_fds (kern (world o')))) by (rewrite <- Eo; apply Ho').
    rewrite Hoth. symmetry. apply union_difference_L, Ho.
  - unfold ctx_of in *. by rewrite H3.
Qed.

(** Socket::accept: nothing when the call fails, and otherwise a connected socket
    on the new descriptor. *)
Lemma accept_on_spec fd o :
  obj_ok o →
  ((accept_done (kern (world o)) fd).1 = -1 ∧ ∃ o', accept_on fd o = Ok None o' ∧ obj_ok o' ∧ this o' = this o ∧ open_fds (kern (world o')) = open_fds (kern (world o))) ∨
  (∃ s c w', m_sock s = (accept_done (kern (world o)) fd).1 ∧ accept_on fd o = Ok (Some s) (mkObj (this o) w') ∧ fd ∈ open_fds (kern (world o)) ∧ obj_ok (mkObj s w') ∧
     m_isConnected s = true ∧ 0 ≤ m_sock s ∧ (m_sock s ∉ open_fds (kern (world o))) ∧
     open_fds (kern w') = {[m_sock s]} ∪ open_fds (kern (world o)) ∧ ctx_of (m_sock s) w' = Some c).
Proof.
  intros Ho. pose proof Ho as [Hw Hs Hopen]. unfold accept_on. rewrite (bind_ok _ _ _ _ _ (eq_refl : me o = Ok (this o) o)).
  unfold hook_accept, in_sys. unfold mbind at 1, M_bind at 1. unfold syscall. mred.
  pose proof (nl_accept (kern (world o)) fd) as Ha. pose proof (nl_accept_fl (kern (world o)) fd) as Hfl.
  destruct (accept_done (kern (world o)) fd) as [nfd k] eqn:Ek. cbn [fst snd] in Ha, Hfl. destruct Ha as [[-> Hf]|[Hl Hnew]].
  - left. split; [done|]. eexists. split; [reflexivity|]. cbn. split; [|by rewrite Hf]. split; cbn; [|done|by rewrite Hf].
    split; cbn; [|apply Hw|intros ? ? ? ?; rewrite Hf; by eapply (so_ctx _ Hw)].
    split; [apply (so_inv _ Hw)|]. cbn. intros i c Hi. destruct (fi_ctx _ (so_inv _ Hw) i c Hi) as (? & ? & H3).
    split_and!; try done. intros Hsk. destruct (H3 Hsk) as [? ?]. split; [done|]. unfold nonblocking. rewrite Hfl; [done|lia].
  - right. pose proof Hnew as ([Hn0 _] & Hnin & _). rewrite (proj2 (Z.leb_le _ _)) by done.
    destruct (sys_ok_new (world o) nfd k Hw Hnew) as (c & w1 & Eg & Hw1 & Hc & Hsk & Hf1 & _); [by intros; apply Hfl|].
    rewrite Eg. cbn -[init]. rewrite (proj2 (Z.eqb_neq _ _)) by lia. cbn [world this].
    destruct (init_spec (m_family (this o)) (m_type (this o)) (m_protocol (this o)) nfd c w1) as (s & w' & Ei & Ho' & H1 & H2 & H3 & H4);
      [done|done|rewrite Hf1; set_solver|done|done|].
    rewrite Ei. exists s, c, w'. rewrite H1, H3, Hf1. cbn. by split_and!.
Qed.

(** The cached addresses outlive the descriptor: after close, and after the
    next connect, the local address is the old one. *)
Lemma stale_local_address o a b o' :
  m_localAddress (this o) = Some a → close o = Ok b o' → getLocalAddress o' = Ok a o'.
Proof.
  intros Ha E. apply close_this in E. unfold getLocalAddress. rewrite (bind_ok _ _ _ _ _ (eq_refl : me o' = Ok (this o') o')).
  rewrite E. cbn. by rewrite Ha.
Qed.

End Socket.

(** ** A small kernel *)

(** Descriptors are handed out in order; every call succeeds, except that
    nothing is bound to a path. *)
Record demo_net : Type := mkNet { dn_open : gset Z; dn_flags : gmap Z Z; dn_socks : gmap Z (option Address * bool); dn_next : Z }.

Definition demo_new (k : demo_net) : Z * demo_net :=
  if decide (0 ≤ dn_next k < 2 ^ 30 ∧ dn_next k ∉ filter (λ fd, 0 ≤ fd) (dn_open k))
  then (dn_next k, mkNet ({[dn_next k]} ∪ dn_open k) (dn_flags k) (dn_socks k) (dn_next k + 1)) else (-1, k).
Definition demo_state (k : demo_net) (fd : Z) : option Address * bool := default (None, false) (dn_socks k !! fd).
Definition demo_put (k : demo_net) (fd : Z) (st : option Address * bool) : demo_net :=
  mkNet (dn_open k) (dn_flags k) (<[fd := st]> (dn_socks k)) (dn_next k).
Definition demo_bind (k : demo_net) (fd : Z) (a : Address) : Z * demo_net :=
  if getFamily a =? AF_UNIX
  then (-1, k) else (0, demo_put k fd (Some a, (demo_state k fd).2)).

#[global] Instance demo_sock_kernel : Kernel demo_net := {|
  fstat_socket _ _ := Some true;
  getfl k fd := default 0 (dn_flags k !! fd);
  setfl k fd f := (0, mkNet (dn_open k) (<[fd := f]> (dn_flags k)) (dn_socks k) (dn_next k));
  fionbio k _ _ := (0, k);
  open_socket := demo_new;
  close_fd k fd := (0, mkNet (dn_open k ∖ {[fd]}) (dn_flags k) (delete fd (dn_socks k)) (dn_next k))
|}.
#[global] Instance demo_sockets : Net demo_net := {|
  bind_f := demo_bind;
  listen_f k fd _ := (0, demo_put k fd ((demo_state k fd).1, true));
  connect_done k _ _ _ := (0, k);
  accept_done k l := if decide (l ∈ filter (λ fd, 0 ≤ fd) (dn_open k)) then demo_new k else (-1, k);
  io_done k _ _ := (0, [], k);
  setsockopt_f k _ _ _ _ := (0, k);
  getsockopt_int _ _ _ _ := Some 0;
  getpeername _ _ a := Some (a, getAddrLen a);
  getsockname _ _ a := Some (a, getAddrLen a)
|}.
#[global] Instance demo_reactor : Reactor demo_net := {| iom_cancelEvent k _ _ := (true, k); iom_cancelAll k _ := (true, k) |}.
#[global] Instance demo_fds : Descriptors demo_net := {| open_fds k := filter (λ fd, 0 ≤ fd) (dn_open k); sock_state := demo_state |}.

(** The bound of the table of contexts; no descriptor is open. *)
Definition demo_world : Sys demo_net := FdManager_new (mkNet ∅ ∅ ∅ 3) true.

#[global] Instance demo_sock_kernel_laws : KernelLaws demo_net.
Proof.
  split; cbn.
  - intros k fd f k' [= <-]. cbn. by rewrite lookup_insert_eq.
  - done.
  - by intros k fd f rt k' [= <- <-].
  - intros k fd f rt k' fd' [= <- <-] Hne. cbn. by rewrite lookup_insert_ne.
  - intros k fd k' fd'. unfold demo_new. by case_decide; intros [= <- <-].
  - by intros k fd rt k' fd' [= <- <-].
Qed.

Lemma demo_new_fd k : (demo_new k).1 = -1 ∧ open_fds (demo_new k).2 = open_fds k ∨ new_fd k (demo_new k).1 (demo_new k).2.
Proof.
  unfold demo_new. case_decide as H; [|by left]. right. destruct H as [H1 H2]. split; [done|]. split; [done|]. split; [|done].
  cbn. apply set_eq. intros x. rewrite elem_of_union, !elem_of_filter. set_solver.
Qed.

Lemma demo_new_state k fd : demo_state (demo_new k).2 fd = demo_state k fd.
Proof. unfold demo_new. by case_decide. Qed.

Lemma demo_put_same k fd st : same_but fd k (demo_put k fd st).
Proof. split; [done|]. split; [done|]. intros fd' Hne. cbn. unfold demo_state. cbn. by rewrite lookup_insert_ne. Qed.
Lemma demo_put_state k fd st : demo_state (demo_put k fd st) fd = st.
Proof. unfold demo_state. cbn. by rewrite lookup_insert_eq. Qed.

#[global] Instance demo_net_laws : NetLaws demo_net.
Proof.
  split; try done.
  - intros k fd H. by apply elem_of_filter in H as [H _].
  - apply demo_new_fd.
  - intros k l. cbn. case_decide; [|by left]. destruct (demo_new_fd k) as [H'|H']; [by left|right]. by split.
  - intros k l fd. cbn. case_decide; [|done]. unfold demo_new. by case_decide.
  - intros k fd _. apply demo_new_state.
  - intros k l fd _. cbn. case_decide; [apply demo_new_state|done].
  - intros k fd fd' Hne. cbn. unfold demo_state. cbn. by rewrite lookup_delete_ne.
  - intros k fd a. cbn. unfold demo_bind. destruct (getFamily a =? AF_UNIX); [done|]. intros _. apply demo_put_state.
  - intros k fd n _. apply demo_put_state.
  - intros k fd. cbn. apply set_eq. intros x. rewrite elem_of_difference, !elem_of_filter. set_solver.
  - intros k fd a. cbn. unfold demo_bind. destruct (getFamily a =? AF_UNIX); [done|]. apply demo_put_same.
  - intros k fd n. apply demo_put_same.
Qed.

Lemma demo_world_ok : sys_ok demo_world.
Proof.
  split; [apply FdManager_new_inv|done|]. intros fd c _ H. exfalso. revert H. unfold ctx_of, demo_world, FdManager_new. cbn [m_datas].
  destruct (replicate 64 None !! Z.to_nat fd) as [d|] eqn:E; [|done]. apply lookup_replicate_1 in E as [-> _]. done.
Qed.

Definition demo_addr : Address := IPv4Address_new 2130706433 80.

Definition demo_calls : list op := [OpConnect demo_addr minus1; OpSetRecvTimeout 100; OpCancelAll; OpConnect demo_addr 1].


(** Cancelling after close: an index out of bounds. *)
Lemma cancel_after_close_undefined :
  run_ops 5000 true [OpConnect demo_addr minus1; OpClose; OpCancelAll] (mkObj (Socket_new AF_INET SOCK_STREAM 0) demo_world) = Stop OutOfBounds.
Proof. by vm_compute. Qed.

(** A socket that has been connected. *)
Definition demo_connected : option (Obj demo_net) :=
  match connect 5000 demo_addr minus1 (mkObj (Socket_new AF_INET SOCK_STREAM 0) demo_world) with Ok _ o => Some o | _ => None end.

Lemma demo_connected_ok : ∃ o c, demo_connected = Some o ∧ obj_ok o ∧ m_sock (this o) = 3 ∧ ctx_of 3 (world o) = Some c ∧
  m_sendTimeout c = minus1.
Proof.
  destruct (tidy_connect 5000 demo_addr minus1 (mkObj (Socket_new AF_INET SOCK_STREAM 0) demo_world)) as (b & o & E & Ho & _).
  { split; [apply demo_world_ok|done|apply empty_subseteq]. }
  assert (demo_connected = Some o) as E' by (unfold demo_connected; by rewrite E).
  assert (∃ c, m_sock (this o) = 3 ∧ ctx_of 3 (world o) = Some c ∧ m_sendTimeout c = minus1) as (c & H1 & H2 & H3).
  { assert (∃ o1, demo_connected = Some o1 ∧ m_sock (this o1) = 3 ∧ ctx_of 3 (world o1) = Some (mkCtx true true true false false 3 minus1 minus1))
      as (o1 & E1 & H1 & H2) by (eexists; split; [vm_compute; reflexivity|by split; vm_compute]).
    rewrite E' in E1. injection E1 as ->. by eexists. }
  by exists o, c.
Qed.

Lemma timeout_roundtrip_witness :
  ∃ o o', demo_connected = Some o ∧ setRecvTimeout 1500 o = Ok tt o' ∧ getRecvTimeout o' = Ok 1500 o' ∧ getSendTimeout o' = Ok (-1) o'.
Proof.
  destruct demo_connected_ok as (o & c & E & Ho & Hs & Hc & Hsend). exists o. rewrite <- Hs in Hc.
  destruct (timeout_roundtrip o c 1500 Ho ltac:(lia) Hc) as [(o' & H1 & H2 & H3) _]; [by split|].
  exists o'. split; [exact E|]. split; [exact H1|]. split; [exact H2|]. rewrite Hsend in H3. exact H3.
Defined.

(** A UDP socket whose descriptor could not be made says that it is connected. *)
Lemma udp_connected_without_socket :
  ∃ s w, CreateUDPSocket (FdManager_new (mkNet ∅ ∅ ∅ (-1)) true) = Ok s w ∧ isConnected s = true ∧ isValid s = false.
Proof. eexists _, _. split; [vm_compute; reflexivity|]. by split. Qed.

