(* ===== verification/TcpServer.v ===== *)
(** TcpServer (skt/tcp_server/tcp_server.h, skt/tcp_server/tcp_server.cpp).

    Sockets are shared objects in a heap: m_socks and the tasks that are
    scheduled or running hold references, and the last one to go runs the
    destructor. The tasks of both workers are one list, as their schedulers may
    run them in any order; a task is a fiber that runs from one place where it
    can wait to the next. *)

From stdpp Require Import base list gmap sets strings.
From Stdlib Require Import Lia.
From S2P Require Import Prelude Hook CString Address Socket.

(** What is bound to a worker: startAccept(sock), at the head of its loop or
    inside accept with the descriptor it was called with; handleClient(client);
    the function of stop. *)
Inductive task : Type :=
| TAccept (sock : nat) (waiting : option Z)
| TClient (client : nat)
| TStop.

Definition task_ref (t : task) : option nat :=
  match t with TAccept a _ | TClient a => Some a | TStop => None end.

Record Server (K : Type) : Type := mkServer {
  sv_sys : Sys K;
  sv_heap : gmap nat Socket;
  m_socks : list nat;
  sv_recvTimeout : Z;              (* m_recvTimeout *)
  sv_name : str;                   (* m_name *)
  m_isStop : bool;
  sv_tasks : list task
}.
Arguments mkServer {K} _ _ _ _ _ _ _.
Arguments sv_sys {K} _.
Arguments sv_heap {K} _.
Arguments m_socks {K} _.
Arguments sv_recvTimeout {K} _.
Arguments sv_name {K} _.
Arguments m_isStop {K} _.
Arguments sv_tasks {K} _.

Section Ops.
Context {K : Type} `{KN : Kernel K} `{NT : Net K} `{RC : Reactor K}.
Abbreviation server := (M (Server K)).
Implicit Types s : Server K.

Definition set_mem (w : Sys K) (h : gmap nat Socket) s : Server K :=
  mkServer w h (m_socks s) (sv_recvTimeout s) (sv_name s) (m_isStop s) (sv_tasks s).
Definition set_socks (l : list nat) s : Server K :=
  mkServer (sv_sys s) (sv_heap s) l (sv_recvTimeout s) (sv_name s) (m_isStop s) (sv_tasks s).
Definition set_stop (b : bool) s : Server K :=
  mkServer (sv_sys s) (sv_heap s) (m_socks s) (sv_recvTimeout s) (sv_name s) b (sv_tasks s).
Definition set_tasks (l : list task) s : Server K :=
  mkServer (sv_sys s) (sv_heap s) (m_socks s) (sv_recvTimeout s) (sv_name s) (m_isStop s) l.

(** TcpServer::TcpServer; [recv_timeout] is the configured value. *)
Definition TcpServer_new (recv_timeout : Z) (w : Sys K) : Server K := mkServer w ∅ [] recv_timeout (L "skt/1.0.0") true [].

(** The setters of the header. *)
Definition TcpServer_setRecvTimeout (v : Z) : server unit :=
  mmodify (λ s, mkServer (sv_sys s) (sv_heap s) (m_socks s) v (sv_name s) (m_isStop s) (sv_tasks s)).
Definition TcpServer_setName (v : str) : server unit :=
  mmodify (λ s, mkServer (sv_sys s) (sv_heap s) (m_socks s) (sv_recvTimeout s) v (m_isStop s) (sv_tasks s)).

(** ** Shared objects *)

(** new Socket *)
Definition new_object (x : Socket) : server nat := λ s,
  let a := fresh (dom (sv_heap s)) in Ok a (set_mem (sv_sys s) (<[a := x]> (sv_heap s)) s).

(** A method call on the object at [a]. *)
Definition at_object {A} (a : nat) (c : M (Obj K) A) : server A := λ s,
  match sv_heap s !! a with
  | None => Stop NullDeref
  | Some x =>
    match c (mkObj x (sv_sys s)) with
    | Ok r o => Ok r (set_mem (world o) (<[a := this o]> (sv_heap s)) s)
    | Exc e o => Exc e (set_mem (world o) (<[a := this o]> (sv_heap s)) s)
    | Stop u => Stop u
    | NoFuel => NoFuel
    end
  end.

(** The references that are held. *)
Definition refs s : list nat := m_socks s ++ omap task_ref (sv_tasks s).

(** A reference to [a] goes: without another the object is destroyed. *)
Definition drop_ref (a : nat) : server unit :=
  s ← mget;
  if decide (a ∈ refs s) then mret tt
  else at_object a destroy;; mmodify (λ s, set_mem (sv_sys s) (delete a (sv_heap s)) s).

Fixpoint drop_refs (l : list nat) : server unit :=
  match l with [] => mret tt | a :: l' => drop_ref a;; drop_refs l' end.

(** m_socks.clear() *)
Definition clear_socks : server unit :=
  s ← mget; mput (set_socks [] s);; drop_refs (m_socks s).

Definition schedule (t : task) : server unit := mmodify (λ s, set_tasks (sv_tasks s ++ [t]) s).

(** ** The operations *)

(** The loop of bind: the addresses that failed. *)
Fixpoint bind_loop (addrs fails : list Address) : server (list Address) :=
  match addrs with
  | [] => mret fails
  | addr :: addrs' =>
    sock ← new_object (CreateTCP addr);
    ok ← at_object sock (Socket.bind addr);
    if negb ok then drop_ref sock;; bind_loop addrs' (fails ++ [addr])
    else
      ok ← at_object sock (listen SOMAXCONN);
      if negb ok then drop_ref sock;; bind_loop addrs' (fails ++ [addr])
      else mmodify (λ s, set_socks (m_socks s ++ [sock]) s);; bind_loop addrs' fails
  end.

(** TcpServer::bind(addrs, fails) *)
Definition bind_all (addrs fails : list Address) : server (bool * list Address) :=
  fails' ← bind_loop addrs fails;
  match fails' with
  | [] => mret (true, fails')
  | _ => clear_socks;; mret (false, fails')
  end.
(** TcpServer::bind(addr) *)
Definition bind (addr : Address) : server bool := r ← bind_all [addr] []; mret r.1.

(** TcpServer::start *)
Definition start : server bool :=
  s ← mget;
  if negb (m_isStop s) then mret true
  else
    mput (set_tasks (sv_tasks s ++ ((λ a, TAccept a None) <$> m_socks s)) (set_stop false s));;
    mret true.

(** TcpServer::stop *)
Definition stop : server unit := mmodify (set_stop true);; schedule TStop.

(** The function that stop schedules; it runs in a worker, an IOManager. *)
Fixpoint close_socks (l : list nat) : server unit :=
  match l with
  | [] => mret tt
  | a :: l' => at_object a (cancelAll true);; at_object a Socket.close;; close_socks l'
  end.
Definition stop_task : server unit := s ← mget; close_socks (m_socks s);; clear_socks.

(** The task at [i] of the list ends, or goes on as [t]. *)
Definition end_task (i : nat) : server unit := mmodify (λ s, set_tasks (delete i (sv_tasks s)) s).
Definition set_task (i : nat) (t : task) : server unit := mmodify (λ s, set_tasks (<[i := t]> (sv_tasks s)) s).

(** startAccept at the head of the loop. *)
Definition accept_enter (i sock : nat) : server unit :=
  s ← mget;
  if negb (m_isStop s)
  then fd ← at_object sock (x ← me; mret (m_sock x)); set_task i (TAccept sock (Some fd))
  else end_task i;; drop_ref sock.

(** accept has returned; the rest of the body. *)
Definition accept_return (i sock : nat) (fd : Z) : server unit :=
  r ← at_object sock (accept_on fd);
  (match r with
   | Some x =>
     client ← new_object x;
     s ← mget;
     at_object client (setRecvTimeout (i64 (sv_recvTimeout s)));;
     schedule (TClient client)
   | None => mret tt
   end);;
  set_task i (TAccept sock None).

(** A task runs to the next place where it may wait. handleClient ends by
    giving up its reference. *)
Definition run_task (i : nat) : server unit :=
  s ← mget;
  match sv_tasks s !! i with
  | None => mret tt
  | Some (TAccept a None) => accept_enter i a
  | Some (TAccept a (Some fd)) => accept_return i a fd
  | Some (TClient a) => end_task i;; drop_ref a
  | Some TStop => stop_task;; end_task i
  end.

(** TcpServer::~TcpServer *)
Fixpoint close_all (l : list nat) : server unit :=
  match l with [] => mret tt | a :: l' => at_object a Socket.close;; close_all l' end.
Definition TcpServer_destroy : server unit := s ← mget; close_all (m_socks s);; clear_socks.

End Ops.
