(* ===== verification/TcpServerProps.v ===== *)
(** Properties of TcpServer: descriptors and objects are accounted for in every
    interleaving of its operations and tasks, bind succeeds for all addresses or
    leaves nothing, and stop ends the accept loops. *)

From stdpp Require Import base list gmap sets.
From Stdlib Require Import Lia.
From S2P Require Import Prelude Hook HookProps CString Address Socket SocketProps TcpServer.

Section Server.
Context {K : Type} `{KN : Kernel K} `{KL : !KernelLaws K} `{NT : Net K} `{RC : Reactor K} `{DS : Descriptors K}.
Context `{NL : !NetLaws K}.
(** The descriptors that are open when the server is made, by others. *)
Context (base : gset Z).
Implicit Types s : Server K.
Implicit Types w : Sys K.
Implicit Types h : gmap nat Socket.

(** ** Memory *)

(** The open descriptors are those of others and those of the objects, each of
    one object. *)
Record mem_ok w h : Prop := {
  mo_sys : sys_ok w;
  mo_sock a x : h !! a = Some x → -1 ≤ m_sock x;
  mo_fds fd : fd ∈ open_fds (kern w) ↔ fd ∈ base ∨ ∃ a x, h !! a = Some x ∧ fd ∈ own x;
  mo_one a b x y fd : h !! a = Some x → h !! b = Some y → fd ∈ own x → fd ∈ own y → a = b;
  mo_base a x fd : h !! a = Some x → fd ∈ own x → fd ∉ base
}.

Lemma mem_obj w h a x : mem_ok w h → h !! a = Some x → obj_ok (mkObj x w).
Proof.
  intros Hm Ha. split; cbn; [apply Hm|by eapply mo_sock|]. intros fd Hfd. apply (mo_fds _ _ Hm). right. by exists a, x.
Qed.

(** An object is replaced by what a tidy method leaves of it. *)
Lemma mem_update w h a x o' :
  mem_ok w h → h !! a = Some x → obj_ok o' → others o' = others (mkObj x w) → mem_ok (world o') (<[a := this o']> h).
Proof.
  intros Hm Ha Ho Hoth. pose proof (mem_obj _ _ _ _ Hm Ha) as Hx.
  assert (∀ fd, fd ∈ open_fds (kern (world o')) ↔ fd ∈ own (this o') ∨ fd ∈ open_fds (kern w) ∧ fd ∉ own x) as Hfds.
  { intros fd. pose proof (oo_open _ Ho) as Hown. unfold others in Hoth. cbn [this world] in Hoth.
    assert (fd ∈ open_fds (kern (world o')) ∖ own (this o') ↔ fd ∈ open_fds (kern w) ∖ own x) as H by (by rewrite Hoth).
    rewrite !elem_of_difference in H. destruct (decide (fd ∈ own (this o'))); [|tauto]. split; [by left|]. intros _. by apply Hown. }
  assert (∀ fd, fd ∈ own (this o') → fd ∈ open_fds (kern w) → fd ∈ own x) as Hnew.
  { intros fd H1 H2. destruct (decide (fd ∈ own x)); [done|]. exfalso.
    assert (fd ∈ open_fds (kern (world o')) ∖ own (this o')) as H3; [|set_solver].
    unfold others in Hoth. cbn [this world] in Hoth. rewrite Hoth. set_solver. }
  split; [apply Ho|..].
  - intros b y. rewrite lookup_insert_Some. intros [[<- <-]|[_ Hb]]; [apply Ho|by eapply (mo_sock _ _ Hm)].
  - intros fd. rewrite Hfds, (mo_fds _ _ Hm). split.
    + intros [H|[[H|(b & y & Hb & H)] Hn]]; [right; exists a, (this o'); by rewrite lookup_insert_eq|by left|].
      destruct (decide (b = a)) as [->|Hne]; [congruence|]. right. exists b, y. by rewrite lookup_insert_ne.
    + intros [H|(b & y & Hb & H)]; [right; split; [by left|]; intros Hx'; by eapply (mo_base _ _ Hm)|].
      apply lookup_insert_Some in Hb as [[<- <-]|[Hne Hb]]; [by left|]. right. split; [right; by exists b, y|].
      intros Hx'. apply Hne. by eapply (mo_one _ _ Hm).
  - assert (∀ b y fd, b ≠ a → h !! b = Some y → fd ∈ own y → fd ∉ own (this o')) as Hd.
    { intros b y fd Hne Hb H1 H2. apply Hne. eapply (mo_one _ _ Hm); [done..|]. apply Hnew; [done|].
      apply (mo_fds _ _ Hm). right. by exists b, y. }
    intros b c y z fd. rewrite !lookup_insert_Some. intros [[<- <-]|[Hb Hb']] [[<- <-]|[Hc Hc']] H1 H2; [done|..].
    + exfalso. by eapply Hd.
    + exfalso. by eapply (Hd b).
    + by eapply (mo_one _ _ Hm).
  - intros b y fd. rewrite lookup_insert_Some. intros [[<- <-]|[_ Hb]] H1; [|by eapply (mo_base _ _ Hm)].
    intros H2. eapply (mo_base _ _ Hm a x fd Ha); [|done]. apply Hnew; [done|]. apply (mo_fds _ _ Hm). by left.
Qed.

(** An object that holds nothing comes or goes. *)
Lemma mem_new w h a x : mem_ok w h → h !! a = None → m_sock x = -1 → mem_ok w (<[a := x]> h).
Proof.
  intros Hm Ha Hx. assert (own x = ∅) as Hown by (unfold own; by rewrite Hx). split; [apply Hm|..].
  - intros b y. rewrite lookup_insert_Some. intros [[<- <-]|[_ Hb]]; [lia|by eapply (mo_sock _ _ Hm)].
  - intros fd. rewrite (mo_fds _ _ Hm). split; (intros [H|(b & y & Hb & H)]; [by left|right; exists b, y; split; [|done]]).
    + rewrite lookup_insert_ne; [done|]. congruence.
    + apply lookup_insert_Some in Hb as [[<- <-]|[_ Hb]]; [rewrite Hown in H; set_solver|done].
  - intros b c y z fd. rewrite !lookup_insert_Some. intros [[<- <-]|[_ Hb]] [[<- <-]|[_ Hc]] H1 H2;
      rewrite ?Hown in *; [set_solver..|by eapply (mo_one _ _ Hm)].
  - intros b y fd. rewrite lookup_insert_Some. intros [[<- <-]|[_ Hb]] H1; [rewrite Hown in H1; set_solver|by eapply (mo_base _ _ Hm)].
Qed.

Lemma mem_delete w h a x : mem_ok w h → h !! a = Some x → m_sock x = -1 → mem_ok w (delete a h).
Proof.
  intros Hm Ha Hx. assert (own x = ∅) as Hown by (unfold own; by rewrite Hx). split; [apply Hm|..].
  - intros b y [_ Hb]%lookup_delete_Some. by eapply (mo_sock _ _ Hm).
  - intros fd. rewrite (mo_fds _ _ Hm). split; (intros [H|(b & y & Hb & H)]; [by left|right; exists b, y; split; [|done]]).
    + apply lookup_delete_Some. split; [|done]. intros ->. assert (y = x) as -> by congruence. rewrite Hown in H. set_solver.
    + by apply lookup_delete_Some in Hb as [_ Hb].
  - intros b c y z fd [_ Hb]%lookup_delete_Some [_ Hc]%lookup_delete_Some. by eapply (mo_one _ _ Hm).
  - intros b y fd [_ Hb]%lookup_delete_Some. by eapply (mo_base _ _ Hm).
Qed.

(** An object that holds a new descriptor comes. *)
Lemma mem_accept w h a x w' :
  mem_ok w h → h !! a = None → obj_ok (mkObj x w') → m_sock x ≠ -1 → m_sock x ∉ open_fds (kern w) →
  open_fds (kern w') = {[m_sock x]} ∪ open_fds (kern w) → mem_ok w' (<[a := x]> h).
Proof.
  intros Hm Ha Hx Hs Hn Hf. assert (own x = {[m_sock x]}) as Hown by (unfold own; by rewrite (proj2 (Z.eqb_neq _ _))).
  assert (∀ b y fd, h !! b = Some y → fd ∈ own y → fd ∉ own x) as Hd.
  { intros b y fd Hb Hy. rewrite Hown, elem_of_singleton. intros ->. apply Hn, (mo_fds _ _ Hm). right. by exists b, y. }
  split; [apply Hx|..].
  - intros b y. rewrite lookup_insert_Some. intros [[<- <-]|[_ Hb]]; [apply Hx|by eapply (mo_sock _ _ Hm)].
  - intros fd. rewrite Hf, elem_of_union, <- Hown, (mo_fds _ _ Hm). split.
    + intros [H|[H|(b & y & Hb & H)]]; [right; exists a, x; by rewrite lookup_insert_eq|by left|right; exists b, y].
      rewrite lookup_insert_ne by congruence. done.
    + intros [H|(b & y & Hb & H)]; [by right; left|]. apply lookup_insert_Some in Hb as [[<- <-]|[_ Hb]]; [by left|]. right. right. by exists b, y.
  - intros b c y z fd. rewrite !lookup_insert_Some. intros [[<- <-]|[_ Hb]] [[<- <-]|[_ Hc]] H1 H2; [done|..].
    + exfalso. by eapply Hd.
    + exfalso. by eapply (Hd b).
    + by eapply (mo_one _ _ Hm).
  - intros b y fd. rewrite lookup_insert_Some. intros [[<- <-]|[_ Hb]] H1; [|by eapply (mo_base _ _ Hm)].
    rewrite Hown, elem_of_singleton in H1. subst fd. intros H2. apply Hn, (mo_fds _ _ Hm). by left.
Qed.

(** ** Objects and references *)

(** [local]: the references that local variables hold. *)
Record srv_ok (local : list nat) s : Prop := {
  sr_mem : mem_ok (sv_sys s) (sv_heap s);
  sr_refs a : is_Some (sv_heap s !! a) ↔ a ∈ local ++ refs s;
  sr_nodup : NoDup (m_socks s)
}.

(** The members other than memory are the same. *)
Definition framed s s' : Prop :=
  m_socks s' = m_socks s ∧ sv_tasks s' = sv_tasks s ∧ m_isStop s' = m_isStop s ∧ sv_recvTimeout s' = sv_recvTimeout s.

Lemma framed_refs s s' : framed s s' → refs s' = refs s.
Proof. intros (H1 & H2 & _). unfold refs. by rewrite H1, H2. Qed.

Lemma at_object_from {A} local s a x (c : M (Obj K) A) :
  srv_ok local s → sv_heap s !! a = Some x → tidy_from (mkObj x (sv_sys s)) c →
  ∃ r o, ⟨ c, mkObj x (sv_sys s) ⟩ ⇓ ⟨ r, o ⟩ ∧ kept (mkObj x (sv_sys s)) o ∧
    ⟨ at_object a c, s ⟩ ⇓ ⟨ r, set_mem (world o) (<[a := this o]> (sv_heap s)) s ⟩ ∧
    srv_ok local (set_mem (world o) (<[a := this o]> (sv_heap s)) s).
Proof.
  intros Hs Hx (r & o & E & Ho' & Hk). exists r, o. unfold at_object. rewrite Hx, E.
  split; [done|]. split; [done|]. split; [done|]. split; cbn; [|intros b|apply Hs].
  - by eapply mem_update; [apply Hs|done..|apply Hk].
  - change (refs (set_mem _ _ s)) with (refs s). rewrite <- (sr_refs _ _ Hs b).
    destruct (decide (b = a)) as [->|Hne]; [rewrite lookup_insert_eq, Hx; by split; eexists|by rewrite lookup_insert_ne].
Qed.

Lemma at_object_ok {A} local s a (c : M (Obj K) A) :
  srv_ok local s → tidy c → a ∈ local ++ refs s →
  ∃ x r o, sv_heap s !! a = Some x ∧ ⟨ c, mkObj x (sv_sys s) ⟩ ⇓ ⟨ r, o ⟩ ∧ kept (mkObj x (sv_sys s)) o ∧
    ⟨ at_object a c, s ⟩ ⇓ ⟨ r, set_mem (world o) (<[a := this o]> (sv_heap s)) s ⟩ ∧
    srv_ok local (set_mem (world o) (<[a := this o]> (sv_heap s)) s).
Proof.
  intros Hs Hc Ha. apply (sr_refs _ _ Hs) in Ha as [x Hx]. exists x.
  destruct (at_object_from local s a x c Hs Hx) as (r & o & H); [apply Hc; by eapply mem_obj; [apply Hs|]|]. by exists r, o.
Qed.

Lemma new_object_ok local s x :
  srv_ok local s → m_sock x = -1 →
  ∃ a, ⟨ new_object x, s ⟩ ⇓ ⟨ a, set_mem (sv_sys s) (<[a := x]> (sv_heap s)) s ⟩ ∧ (a ∉ local ++ refs s) ∧
    srv_ok (a :: local) (set_mem (sv_sys s) (<[a := x]> (sv_heap s)) s).
Proof.
  intros Hs Hx. exists (fresh (dom (sv_heap s))). split; [done|].
  assert (sv_heap s !! fresh (dom (sv_heap s)) = None) as Hn by (apply not_elem_of_dom, is_fresh).
  split; [rewrite <- (sr_refs _ _ Hs), Hn; by intros [? [=]]|]. split; cbn; [by apply mem_new; [apply Hs|..]|intros b|apply Hs].
  change (refs (set_mem _ _ s)) with (refs s). rewrite elem_of_cons, <- (sr_refs _ _ Hs b).
  destruct (decide (b = fresh (dom (sv_heap s)))) as [->|Hne]; [rewrite lookup_insert_eq; split; [by left|by eexists]|].
  rewrite lookup_insert_ne by done. split; [by right|by intros [|]].
Qed.

(** The destructor, and the memory it frees. *)
Lemma drop_ref_ok local s a :
  srv_ok (a :: local) s → a ∉ local →
  ∃ s', ⟨ drop_ref a, s ⟩ ⇓ ⟨ tt, s' ⟩ ∧ srv_ok local s' ∧ framed s s' ∧
    (∀ b, b ≠ a → sv_heap s' !! b = sv_heap s !! b) ∧ (∀ b x, sv_heap s' !! b = Some x → sv_heap s !! b = Some x) ∧
    (∀ x, sv_heap s !! a = Some x → keeps (others (mkObj x (sv_sys s))) (kern (sv_sys s)) (kern (sv_sys s'))).
Proof.
  intros Hs Ha. unfold drop_ref. rewrite (bind_ok _ _ _ _ _ (eq_refl : mget s = Ok s s)). destruct (decide (a ∈ refs s)) as [Hin|Hn].
  - exists s. split; [done|]. split; [|split_and!; try done; intros x _ fd Hfd; unfold others in Hfd; set_solver].
    split; [apply Hs| |apply Hs]. intros b. rewrite (sr_refs _ _ Hs). set_solver.
  - assert (tidy destroy) as Ht by (apply tidy_bind; [apply tidy_close|intros; apply tidy_ret]).
    destruct (at_object_ok (a :: local) s a destroy Hs Ht) as (x & [] & o & Hx & E & [_ Hk] & E1 & Hs1); [set_solver|].
    rewrite (bind_ok _ _ _ _ _ E1). eexists. split; [reflexivity|].
    assert (m_sock (this o) = -1) as Hsock.
    { revert E. unfold destroy, mbind, M_bind. destruct (close _) as [b o1| | |] eqn:Ec; [|done..]. intros [= ->].
      apply close_this in Ec. by rewrite Ec. }
    split; [|split; [by split_and!|]].
    + split; cbn; [|intros b|apply Hs].
      * eapply mem_delete; [apply Hs1|by cbn; rewrite lookup_insert_eq|done].
      * change (refs (set_mem _ _ _)) with (refs s). destruct (decide (b = a)) as [->|Hne].
        { rewrite lookup_delete_eq. split; [by intros [? [=]]|set_solver]. }
        rewrite lookup_delete_ne, lookup_insert_ne, (sr_refs _ _ Hs) by done. set_solver.
    + cbn. split; [intros b Hb; by rewrite lookup_delete_ne, lookup_insert_ne|]. split.
      * intros b y [Hb Hy]%lookup_delete_Some. by rewrite lookup_insert_ne in Hy.
      * intros y Hy. assert (y = x) as -> by congruence. exact Hk.
Qed.

Lemma drop_refs_ok l local s :
  srv_ok (l ++ local) s → NoDup l → (∀ a, a ∈ l → a ∉ local) →
  ∃ s', ⟨ drop_refs l, s ⟩ ⇓ ⟨ tt, s' ⟩ ∧ srv_ok local s' ∧ framed s s' ∧
    ∀ b x, sv_heap s' !! b = Some x → sv_heap s !! b = Some x.
Proof.
  revert s. induction l as [|a l IH]; intros s Hs Hnd Hl; [by exists s; split_and!|]. apply NoDup_cons in Hnd as [Ha Hnd].
  destruct (drop_ref_ok (l ++ local) s a Hs) as (s1 & E1 & Hs1 & (F1 & F2 & F3 & F4) & _ & Hh1 & _); [set_solver|].
  destruct (IH s1 Hs1 Hnd) as (s2 & E2 & Hs2 & (G1 & G2 & G3 & G4) & Hh2); [set_solver|]. exists s2. cbn [drop_refs].
  rewrite (bind_ok _ _ _ _ _ E1). split; [done|]. split; [done|]. split; [split_and!; congruence|].
  intros b x Hb. apply Hh1. by apply Hh2.
Qed.

Lemma clear_socks_ok s :
  srv_ok [] s →
  ∃ s', ⟨ clear_socks, s ⟩ ⇓ ⟨ tt, s' ⟩ ∧ srv_ok [] s' ∧ framed (set_socks [] s) s' ∧
    ∀ b x, sv_heap s' !! b = Some x → sv_heap s !! b = Some x.
Proof.
  intros Hs. unfold clear_socks. destruct (drop_refs_ok (m_socks s) [] (set_socks [] s)) as (s' & E & Hs' & F & Hh).
  - rewrite app_nil_r. split; cbn; [apply Hs|intros a; rewrite (sr_refs _ _ Hs); unfold refs; cbn; done|constructor].
  - apply Hs.
  - set_solver.
  - exists s'. split; [|by split_and!]. rewrite (bind_ok _ _ _ _ _ (eq_refl : mget s = Ok s s)).
    rewrite (bind_ok _ _ _ tt (set_socks [] s)) by done. exact E.
Qed.

(** ** The operations *)

(** A listening socket for an address, in the kernel [k]: the object has a
    descriptor of the family of the address, bound to it, and listening. *)
Definition listens (k : K) s (a : nat) (addr : Address) : Prop :=
  ∃ x, sv_heap s !! a = Some x ∧ m_sock x ≠ -1 ∧ m_family x = getFamily addr ∧ sock_state k (m_sock x) = (Some addr, true).

(** While it handled an address the kernel refused a call. *)
Definition refused (k0 : K) (addr : Address) : Prop :=
  ∃ k, keeps (open_fds k0) k0 k ∧
    ((open_socket k).1 = -1 ∨ ∃ fd, (bind_f k fd addr).1 ≠ 0 ∨ (listen_f k fd SOMAXCONN).1 ≠ 0).

Lemma keeps_trans (X : gset Z) (k1 k2 k3 : K) : keeps X k1 k2 → keeps (open_fds k2) k2 k3 → keeps X k1 k3.
Proof. intros H1 H2 fd Hfd. destruct (H1 fd Hfd) as [H3 <-]. by apply H2. Qed.
Lemma keeps_refl (k : K) : keeps (open_fds k) k k.
Proof. done. Qed.

(** It still listens when its object and the open descriptors are as before. *)
Lemma listens_keep s s' a addr :
  mem_ok (sv_sys s) (sv_heap s) → keeps (open_fds (kern (sv_sys s))) (kern (sv_sys s)) (kern (sv_sys s')) → sv_heap s' !! a = sv_heap s !! a →
  listens (kern (sv_sys s)) s a addr → listens (kern (sv_sys s')) s' a addr.
Proof.
  intros Hm Hk Ha (x & Hx & Hne & Hf & Hst). exists x. rewrite Ha. split; [done|]. split; [done|]. split; [done|].
  rewrite <- Hst. apply Hk, (mo_fds _ _ Hm). right. exists a, x. split; [done|]. unfold own. rewrite (proj2 (Z.eqb_neq _ _) Hne). set_solver.
Qed.

(** A socket that bind gives up is destroyed. *)
Lemma bind_gives_up s s1 a x fs addrs :
  srv_ok [a] s1 → framed s s1 → a ∉ refs s → sv_heap s1 !! a = Some x → (∀ b, b ∈ refs s → sv_heap s1 !! b = sv_heap s !! b) →
  others (mkObj x (sv_sys s1)) = open_fds (kern (sv_sys s)) → keeps (open_fds (kern (sv_sys s))) (kern (sv_sys s)) (kern (sv_sys s1)) →
  ∃ s2, (drop_ref a;; bind_loop addrs fs) s1 = bind_loop addrs fs s2 ∧ srv_ok [] s2 ∧ framed s s2 ∧
    (∀ b, b ∈ refs s → sv_heap s2 !! b = sv_heap s !! b) ∧ keeps (open_fds (kern (sv_sys s))) (kern (sv_sys s)) (kern (sv_sys s2)).
Proof.
  intros Hs1 F1 Ha Hx Hh1 Ho Hk. destruct (drop_ref_ok [] s1 a Hs1) as (s2 & E2 & Hs2 & F & Hh & _ & Hk2); [set_solver|]. exists s2.
  rewrite (bind_ok _ _ _ _ _ E2). split; [done|]. split; [done|]. split.
  { destruct F as (A1 & A2 & A3 & A4), F1 as (B1 & B2 & B3 & B4). split_and!; congruence. }
  split; [intros b Hb; rewrite Hh; [by apply Hh1|set_solver]|]. intros fd Hfd. specialize (Hk2 x Hx). rewrite Ho in Hk2.
  destruct (Hk fd Hfd) as [_ <-]. by apply Hk2.
Qed.

(** bind for one address: a refused call, and the socket is gone, or a new one. *)
Lemma bind_one addr addrs fails s :
  srv_ok [] s →
  (∃ s1, bind_loop (addr :: addrs) fails s = bind_loop addrs (fails ++ [addr]) s1 ∧ srv_ok [] s1 ∧ framed s s1 ∧
     (∀ b, b ∈ refs s → sv_heap s1 !! b = sv_heap s !! b) ∧
     keeps (open_fds (kern (sv_sys s))) (kern (sv_sys s)) (kern (sv_sys s1)) ∧ refused (kern (sv_sys s)) addr) ∨
  (∃ a s1, bind_loop (addr :: addrs) fails s = bind_loop addrs fails s1 ∧ srv_ok [] s1 ∧
     framed (set_socks (m_socks s ++ [a]) s) s1 ∧ (a ∉ refs s) ∧ listens (kern (sv_sys s1)) s1 a addr ∧
     (∀ b, b ∈ refs s → sv_heap s1 !! b = sv_heap s !! b) ∧
     keeps (open_fds (kern (sv_sys s))) (kern (sv_sys s)) (kern (sv_sys s1))).
Proof.
  intros Hs. cbn [bind_loop].
  destruct (new_object_ok [] s (CreateTCP addr) Hs eq_refl) as (a & E0 & Ha & Hs0). rewrite (bind_ok _ _ _ _ _ E0).
  set (s0 := set_mem _ _ s) in *. cbn in Ha.
  destruct (at_object_ok [a] s0 a (Socket.bind addr) Hs0 (tidy_bind_op addr)) as (x & ok & o & Hx & Eb & K1 & E1 & Hs1); [set_solver|].
  cbn in Hx. rewrite lookup_insert_eq in Hx. injection Hx as <-.
  rewrite (bind_ok _ _ _ _ _ E1). set (s1 := set_mem _ _ s0) in *. set (o0 := mkObj (CreateTCP addr) (sv_sys s0)) in *.
  assert (others o0 = open_fds (kern (sv_sys s))) as Eo by (unfold others; cbn; apply difference_empty_L).
  assert (obj_ok o0) as Ho0 by (eapply mem_obj; [apply Hs0|cbn; by rewrite lookup_insert_eq]).
  pose proof (bind_outcome addr o0 ok o Ho0 Eb) as Hout. pose proof K1 as [O1 Q1]. rewrite Eo in O1, Q1. cbn [world o0 s0 set_mem] in Q1.
  assert (∀ b, b ∈ refs s → b ≠ a) as Hba by set_solver.
  destruct ok; cbn [negb].
  2: { left. destruct (bind_gives_up s s1 a (this o) (fails ++ [addr]) addrs Hs1) as (s2 & ? & ? & ? & ? & ?).
       { by split_and!. } { set_solver. } { cbn. by rewrite lookup_insert_eq. }
       { intros b Hb. cbn. by rewrite !lookup_insert_ne by (symmetry; by apply Hba). } { by destruct o. } { exact Q1. }
       exists s2. split_and!; try done. destruct (Hout eq_refl) as (k & Hk & Href). rewrite Eo in Hk. exists k.
       split; [exact Hk|]. destruct Href as [|[fd ?]]; [by left|right; exists fd; by left]. }
  destruct Hout as (Hsock & Hfam & Hbound).
  destruct (at_object_from [a] s1 a (this o) (listen SOMAXCONN) Hs1) as (ok2 & o2 & El & K2 & E2 & Hs2);
    [cbn; by rewrite lookup_insert_eq|apply tidy_listen; eapply mem_obj; [apply Hs1|cbn; by rewrite lookup_insert_eq]|].
  rewrite (bind_ok _ _ _ _ _ E2). set (s2 := set_mem _ _ s1) in *.
  assert (mkObj (this o) (sv_sys s1) = o) as Eo1 by (by destruct o). rewrite Eo1 in El, K2.
  destruct (listen_outcome _ _ _ _ Hsock El) as [Ht Hlis]. pose proof (kept_trans _ _ _ K1 K2) as [O2 Q2]. rewrite Eo in O2, Q2.
  cbn [world o0 s0 set_mem] in Q2. destruct ok2; cbn [negb].
  - right. exists a, (set_socks (m_socks s ++ [a]) s2). split; [by rewrite (bind_ok _ _ _ tt (set_socks (m_socks s ++ [a]) s2))|].
    split; [|split; [by split_and!|split; [set_solver|split; [|split; [|exact Q2]]]]].
    + split; [apply Hs2| |cbn; apply NoDup_app; split_and!; [apply Hs|unfold refs in Ha; set_solver|by apply NoDup_singleton]].
      intros b. change (sv_heap (set_socks _ s2)) with (sv_heap s2). rewrite (sr_refs _ _ Hs2). unfold refs. cbn. set_solver.
    + exists (this o2). cbn. rewrite lookup_insert_eq, Ht, Hlis, Hbound. done.
    + intros b Hb. cbn. by rewrite !lookup_insert_ne by (symmetry; by apply Hba).
  - left. destruct (bind_gives_up s s2 a (this o2) (fails ++ [addr]) addrs Hs2) as (s3 & ? & ? & ? & ? & ?).
    { by split_and!. } { set_solver. } { cbn. by rewrite lookup_insert_eq. }
    { intros b Hb. cbn. by rewrite !lookup_insert_ne by (symmetry; by apply Hba). } { by destruct o2. } { exact Q2. }
    exists s3. split_and!; try done. exists (kern (world o)). split; [exact Q1|]. right. eexists. by right.
Qed.

(** What becomes of an address: its socket, or none. *)
Definition outcome k0 s (r : option nat) (addr : Address) : Prop :=
  match r with Some a => listens (kern (sv_sys s)) s a addr | None => refused k0 addr end.
Definition failing (rs : list (option nat)) (addrs : list Address) : list Address :=
  (filter (λ p, p.1 = None) (zip rs addrs)).*2.

Lemma bind_loop_ok addrs fails s :
  srv_ok [] s →
  ∃ rs s', ⟨ bind_loop addrs fails, s ⟩ ⇓ ⟨ fails ++ failing rs addrs, s' ⟩ ∧ srv_ok [] s' ∧
    framed (set_socks (m_socks s ++ omap id rs) s) s' ∧ Forall2 (outcome (kern (sv_sys s)) s') rs addrs ∧
    (∀ a, a ∈ omap id rs → a ∉ refs s) ∧ (∀ b, b ∈ refs s → sv_heap s' !! b = sv_heap s !! b) ∧
    keeps (open_fds (kern (sv_sys s))) (kern (sv_sys s)) (kern (sv_sys s')).
Proof.
  revert fails s. induction addrs as [|addr addrs IH]; intros fails s Hs.
  { exists [], s. cbn. rewrite !app_nil_r. destruct s. split_and!; try done. set_solver. }
  assert (∀ k1 k2 s' r x, keeps (open_fds k1) k1 k2 → outcome k2 s' r x → outcome k1 s' r x) as Hmono.
  { intros k1 k2 s' [b|] x Hk; [done|]. intros (k & H1 & H2). exists k. split; [by eapply keeps_trans|done]. }
  destruct (bind_one addr addrs fails s Hs) as [(s1 & E & Hs1 & F & Hh & Hk & Hr)|(a & s1 & E & Hs1 & F & Ha & Hlis & Hh & Hk)]; rewrite E.
  - destruct (IH (fails ++ [addr]) s1 Hs1) as (rs & s' & E' & Hs' & F' & Hf & Hn & Hh' & Hk').
    exists (None :: rs), s'. unfold failing in *. cbn. split; [rewrite <- (assoc_L (++)) in E'; exact E'|]. split; [done|].
    destruct F as (F1 & F2 & F3 & F4), F' as (G1 & G2 & G3 & G4). cbn in *. assert (refs s1 = refs s) as Er by (unfold refs; by rewrite F1, F2).
    split; [split_and!; cbn; congruence|]. split; [constructor; [done|]; eapply Forall2_impl; [exact Hf|]; intros; by eapply Hmono|].
    split; [by rewrite <- Er|]. split; [intros b Hb; rewrite Hh', Hh; [done..|by rewrite Er]|by eapply keeps_trans].
  - destruct (IH fails s1 Hs1) as (rs & s' & E' & Hs' & F' & Hf & Hn & Hh' & Hk').
    exists (Some a :: rs), s'. unfold failing in *. cbn. split; [done|]. split; [done|]. destruct F as (F1 & F2 & F3 & F4), F' as (G1 & G2 & G3 & G4).
    cbn in *. assert (∀ b, b ∈ refs s ∨ b = a → b ∈ refs s1) as Hr by (intros b; unfold refs; rewrite F1, F2; set_solver).
    split; [split_and!; cbn; [rewrite G1, F1, <- (assoc_L (++)); done|congruence..]|]. split.
    { constructor; [|eapply Forall2_impl; [exact Hf|]; intros; by eapply Hmono]. cbn.
      eapply (listens_keep s1); [apply Hs1|done|apply Hh', Hr; by right|done]. }
    split; [intros b [->|Hb]%elem_of_cons; [done|]; intros Hin; apply (Hn b Hb), Hr; by left|].
    split; [intros b Hb; rewrite Hh', Hh; [done..|by apply Hr; left]|by eapply keeps_trans].
Qed.

(** Without a failure each address has its socket. *)
Lemma failing_nil rs addrs : length rs = length addrs → failing rs addrs = [] → rs = Some <$> omap id rs.
Proof.
  revert addrs. induction rs as [|[a|] rs IH]; intros [|addr addrs]; try done. unfold failing. cbn. intros [= Hl] H. f_equal.
  rewrite decide_False in H by done. by eapply IH.
Qed.
Lemma outcomes_listen k0 s rs addrs :
  Forall2 (outcome k0 s) rs addrs → failing rs addrs = [] → Forall2 (listens (kern (sv_sys s)) s) (omap id rs) addrs.
Proof.
  intros H Hf. pose proof (failing_nil rs addrs (Forall2_length _ _ _ H) Hf) as E. rewrite E, (Forall2_fmap_l Some) in H. exact H.
Qed.

(** Between steps: the sockets of m_socks are open, and none is a client's. *)
Record srv_inv s : Prop := {
  si_ok : srv_ok [] s;
  si_open a x : a ∈ m_socks s → sv_heap s !! a = Some x → m_sock x ≠ -1;
  si_client a : TClient a ∈ sv_tasks s → a ∉ m_socks s
}.

(** Sockets and clients are among those of before. *)
Lemma srv_inv_less s s' :
  srv_inv s → srv_ok [] s' → m_socks s' ⊆ m_socks s → (∀ a, TClient a ∈ sv_tasks s' → TClient a ∈ sv_tasks s) →
  (∀ a x, a ∈ m_socks s' → sv_heap s' !! a = Some x → sv_heap s !! a = Some x) → srv_inv s'.
Proof.
  intros Hs Hs' Hm Ht Hh. split; [done|..].
  - intros a x Ha Hx. eapply (si_open _ Hs a x); [by apply Hm|by apply Hh].
  - intros a Ha Hin. eapply (si_client _ Hs a); [by apply Ht|by apply Hm].
Qed.

Lemma client_in_refs s a : TClient a ∈ sv_tasks s → a ∈ refs s.
Proof. intros H. unfold refs. apply elem_of_app. right. apply list_elem_of_omap. by eexists. Qed.

Lemma bind_all_ok addrs fails s :
  srv_inv s → ∃ r s', ⟨ bind_all addrs fails, s ⟩ ⇓ ⟨ r, s' ⟩ ∧ srv_inv s'.
Proof.
  intros Hs. destruct (bind_loop_ok addrs fails s (si_ok _ Hs)) as (rs & s1 & E & Hs1 & (F1 & F2 & _) & Hout & Hn & Hh & _). unfold bind_all.
  rewrite (bind_ok _ _ _ _ _ E). cbn in F1, F2. destruct (fails ++ failing rs addrs).
  - eexists _, s1. split; [done|]. split; [done|..].
    + intros a x Ha Hx. rewrite F1 in Ha. apply elem_of_app in Ha as [Ha|Ha].
      { apply (si_open _ Hs a x Ha). by rewrite <- Hh by (unfold refs; set_solver). }
      apply list_elem_of_omap in Ha as (r & Hr & Hr'). destruct r as [a'|]; [injection Hr' as ->|done].
      apply list_elem_of_lookup in Hr as [i Hi]. destruct (Forall2_lookup_l _ _ _ _ _ Hout Hi) as (addr & _ & y & Hy & H & _). congruence.
    + intros a Ha. rewrite F2 in Ha. rewrite F1, elem_of_app. intros [H|H]; [by apply (si_client _ Hs a)|]. by apply (Hn a H), client_in_refs.
  - destruct (clear_socks_ok s1 Hs1) as (s2 & E2 & Hs2 & (G1 & G2 & _) & _). rewrite (bind_ok _ _ _ _ _ E2). eexists _, s2. split; [done|].
    cbn in G1, G2. split; [done|..]; rewrite G1; set_solver.
Qed.

(** Changing only tasks, m_socks or flags. *)
Lemma srv_ok_refs s s' :
  srv_ok [] s → sv_sys s' = sv_sys s → sv_heap s' = sv_heap s → m_socks s' = m_socks s →
  (∀ a, a ∈ refs s' ↔ a ∈ refs s) → srv_ok [] s'.
Proof.
  intros Hs E1 E2 E3 Hr. split; [rewrite E1, E2; apply Hs| |rewrite E3; apply Hs]. intros a. rewrite E2. cbn. rewrite Hr. apply Hs.
Qed.

Lemma start_ok s : srv_inv s → ∃ s', ⟨ start, s ⟩ ⇓ ⟨ true, s' ⟩ ∧ srv_inv s'.
Proof.
  intros Hs. unfold start. mred. destruct (m_isStop s); cbn [negb]; [|by exists s]. eexists. split; [reflexivity|].
  apply (srv_inv_less s); [done| |done| |done].
  - apply (srv_ok_refs s); [apply Hs|done..|]. intros a. unfold refs. cbn. rewrite omap_app.
    assert (∀ l, omap task_ref ((λ a, TAccept a None) <$> l) = l) as -> by (induction l; cbn; by f_equal). set_solver.
  - cbn. intros a. rewrite elem_of_app. intros [?|H]; [done|]. by apply list_elem_of_fmap in H as (? & ? & _).
Qed.

Lemma stop_ok s : srv_inv s → ∃ s', ⟨ stop, s ⟩ ⇓ ⟨ tt, s' ⟩ ∧ srv_inv s'.
Proof.
  intros Hs. eexists. split; [reflexivity|]. apply (srv_inv_less s); [done| |done| |done].
  - apply (srv_ok_refs s); [apply Hs|done..|]. intros a. unfold refs. cbn. rewrite omap_app. cbn. by rewrite app_nil_r.
  - cbn. intros a. set_solver.
Qed.

(** Closing the sockets of a list, which are open. *)
Lemma close_socks_ok l local s :
  srv_ok local s → NoDup l → (∀ a, a ∈ l → ∃ x, sv_heap s !! a = Some x ∧ m_sock x ≠ -1) →
  ∃ s', ⟨ close_socks l, s ⟩ ⇓ ⟨ tt, s' ⟩ ∧ srv_ok local s' ∧ framed s s' ∧
    ∀ a x, sv_heap s' !! a = Some x → (a ∈ l → m_sock x = -1) ∧ (a ∉ l → sv_heap s !! a = Some x).
Proof.
  revert s. induction l as [|a l IH]; intros s Hs Hnd Hl; cbn [close_socks].
  { exists s. split_and!; try done. intros a x Ha. split; [set_solver|done]. }
  apply NoDup_cons in Hnd as [Hal Hnd]. destruct (Hl a) as (x & Hx & Hne); [set_solver|].
  assert (obj_ok (mkObj x (sv_sys s))) as Ho by (by eapply mem_obj; [apply Hs|]).
  destruct (at_object_from local s a x (cancelAll true) Hs Hx) as (r & o & _ & _ & E1 & Hs1).
  { pose proof (cancel_from _ true iom_cancelAll Ho (λ k fd, nl_cancel_all k fd)) as H. cbn [this] in H.
    by rewrite (proj2 (Z.eqb_neq _ _) Hne) in H. }
  rewrite (bind_ok _ _ _ _ _ E1). set (s1 := set_mem _ _ s) in *.
  destruct (at_object_from local s1 a (this o) Socket.close Hs1) as (r2 & o2 & Ec & _ & E2 & Hs2);
    [cbn; by rewrite lookup_insert_eq|apply tidy_close; eapply mem_obj; [apply Hs1|cbn; by rewrite lookup_insert_eq]|].
  rewrite (bind_ok _ _ _ _ _ E2). set (s2 := set_mem _ _ s1) in *. apply close_this in Ec.
  destruct (IH s2 Hs2 Hnd) as (s' & E & Hs' & F & Hh).
  { intros b Hb. assert (b ≠ a) by set_solver. cbn. rewrite !lookup_insert_ne by done. apply Hl. set_solver. }
  exists s'. split; [done|]. split; [done|]. split; [exact F|]. intros b y Hb. destruct (Hh b y Hb) as [H1 H2].
  destruct (decide (b ∈ l)) as [Hin|Hn]; [split; [by intros _; apply H1|set_solver]|]. specialize (H2 Hn).
  destruct (decide (b = a)) as [->|Hne'].
  - split; [|set_solver]. intros _. cbn in H2. rewrite lookup_insert_eq in H2. injection H2 as <-. by rewrite Ec.
  - split; [set_solver|]. intros _. cbn in H2. by rewrite !lookup_insert_ne in H2.
Qed.

Lemma stop_task_ok s :
  srv_inv s →
  ∃ s', ⟨ stop_task, s ⟩ ⇓ ⟨ tt, s' ⟩ ∧ srv_ok [] s' ∧ framed (set_socks [] s) s' ∧
    (∀ a x, sv_heap s' !! a = Some x → (a ∈ m_socks s → m_sock x = -1) ∧ (a ∉ m_socks s → sv_heap s !! a = Some x)).
Proof.
  intros Hs. unfold stop_task. destruct (close_socks_ok (m_socks s) [] s) as (s1 & E1 & Hs1 & F1 & Hh1); [apply Hs|apply Hs| |].
  { intros a Ha. assert (a ∈ [] ++ refs s) as Hr by (unfold refs; set_solver). apply (sr_refs _ _ (si_ok _ Hs)) in Hr as [x Hx].
    exists x. split; [done|]. by eapply (si_open _ Hs). }
  destruct (clear_socks_ok s1 Hs1) as (s2 & E2 & Hs2 & F2 & Hh2). exists s2.
  rewrite (bind_ok _ _ _ _ _ (eq_refl : mget s = Ok s s)), (bind_ok _ _ _ _ _ E1). split; [done|]. split; [done|].
  destruct F1 as (A1 & A2 & A3 & A4), F2 as (B1 & B2 & B3 & B4). cbn in *. split; [split_and!; cbn; congruence|].
  intros a x Hx. apply Hh2 in Hx. by apply (Hh1 a x).
Qed.

Lemma end_task_drop i a t s :
  srv_ok [] s → sv_tasks s !! i = Some t → task_ref t = Some a →
  ∃ s', ⟨ (end_task i;; drop_ref a), s ⟩ ⇓ ⟨ tt, s' ⟩ ∧ srv_ok [] s' ∧ framed (set_tasks (delete i (sv_tasks s)) s) s' ∧
    (∀ b x, sv_heap s' !! b = Some x → sv_heap s !! b = Some x).
Proof.
  intros Hs Hi Ht. pose (s1 := set_tasks (delete i (sv_tasks s)) s).
  destruct (drop_ref_ok [] s1 a) as (s' & E & Hs' & F & _ & Hh & _); [|set_solver|].
  - split; [apply Hs| |apply Hs]. intros b. change (sv_heap s1) with (sv_heap s). rewrite (sr_refs _ _ Hs). unfold refs. cbn.
    rewrite delete_take_drop, omap_app. rewrite <- (take_drop_middle _ _ _ Hi) at 1. rewrite omap_app. cbn. rewrite Ht. set_solver.
  - exists s'. split; [|by split_and!]. by rewrite (bind_ok _ _ _ tt s1).
Qed.

Lemma set_task_ok i a f1 f2 s :
  srv_ok [] s → sv_tasks s !! i = Some (TAccept a f1) → srv_ok [] (set_tasks (<[i := TAccept a f2]> (sv_tasks s)) s).
Proof.
  intros Hs Hi. apply (srv_ok_refs s); [done..|]. intros b. unfold refs. cbn. rewrite !elem_of_app.
  assert (omap task_ref (<[i := TAccept a f2]> (sv_tasks s)) = omap task_ref (sv_tasks s)) as ->; [|done].
  rewrite insert_take_drop by (by eapply lookup_lt_Some). rewrite <- (take_drop_middle _ _ _ Hi) at 3. by rewrite !omap_app.
Qed.

(** The object of a client that accept returned. *)
Lemma fresh_client s x w :
  srv_ok [] s → obj_ok (mkObj x w) → m_sock x ≠ -1 → m_sock x ∉ open_fds (kern (sv_sys s)) →
  open_fds (kern w) = {[m_sock x]} ∪ open_fds (kern (sv_sys s)) →
  ∃ a, ⟨ new_object x, set_mem w (sv_heap s) s ⟩ ⇓ ⟨ a, set_mem w (<[a := x]> (sv_heap s)) s ⟩ ∧ (a ∉ refs s) ∧
    srv_ok [a] (set_mem w (<[a := x]> (sv_heap s)) s).
Proof.
  intros Hs Hx H1 H2 H3. exists (fresh (dom (sv_heap s))). split; [done|].
  assert (sv_heap s !! fresh (dom (sv_heap s)) = None) as Hn by (apply not_elem_of_dom, is_fresh).
  split; [change (refs s) with ([] ++ refs s); rewrite <- (sr_refs _ _ Hs), Hn; by intros [? [=]]|].
  split; cbn; [by eapply mem_accept; [apply Hs|..]|intros b|apply Hs].
  change (refs (set_mem _ _ s)) with (refs s). rewrite elem_of_cons. change (b ∈ refs s) with (b ∈ [] ++ refs s). rewrite <- (sr_refs _ _ Hs b).
  destruct (decide (b = fresh (dom (sv_heap s)))) as [->|Hne]; [rewrite lookup_insert_eq; split; [by left|by eexists]|].
  rewrite lookup_insert_ne by done. split; [by right|by intros [|]].
Qed.

(** Its time-out. *)
Lemma client_timeout x w c v :
  obj_ok (mkObj x w) → 0 ≤ m_sock x → ctx_of (m_sock x) w = Some c →
  ∃ o, setRecvTimeout v (mkObj x w) = Ok tt o ∧ this o = x ∧ (fits v → getRecvTimeout o = Ok v o).
Proof.
  intros Hx H0 Hc. destruct (set_timeout_spec (mkObj x w) c SO_RCVTIMEO v) as (b & o & E & Ho & Ht & _ & Hctx); [done..|by left|].
  exists o. split; [unfold setRecvTimeout; by rewrite (bind_ok _ _ _ _ _ E)|]. split; [done|]. intros Hv. unfold getRecvTimeout.
  cbn [this] in Ht, Hctx. rewrite <- Ht in Hctx, H0. rewrite (ctx_timeout_spec _ _ _ Ho H0 Hctx). cbn. by rewrite timeval_keeps.
Qed.

(** A new client: the object is in memory, with the time-out set. *)
Lemma accept_return_ok i a fd s :
  srv_ok [] s → sv_tasks s !! i = Some (TAccept a (Some fd)) →
  ∃ new s', ⟨ accept_return i a fd, s ⟩ ⇓ ⟨ tt, s' ⟩ ∧ srv_ok [] s' ∧ m_socks s' = m_socks s ∧ m_isStop s' = m_isStop s ∧
    (sv_recvTimeout s' = sv_recvTimeout s ∧ sv_name s' = sv_name s) ∧
    sv_tasks s' = <[i := TAccept a None]> (sv_tasks s) ++ match new with Some c => [TClient c] | None => [] end ∧
    (fd ∉ open_fds (kern (sv_sys s)) → new = None) ∧ (∀ b, b ∈ refs s → sv_heap s' !! b = sv_heap s !! b) ∧
    (new = None → (accept_done (kern (sv_sys s)) fd).1 = -1) ∧
    (∀ c, new = Some c → ∃ x, sv_heap s' !! c = Some x ∧ m_isConnected x = true ∧ (c ∉ refs s) ∧
       (m_sock x = (accept_done (kern (sv_sys s)) fd).1 ∧ m_sock x ≠ -1) ∧ (m_sock x ∉ open_fds (kern (sv_sys s))) ∧
       (fits (i64 (sv_recvTimeout s)) → getRecvTimeout (mkObj x (sv_sys s')) = Ok (i64 (sv_recvTimeout s)) (mkObj x (sv_sys s')))).
Proof.
  intros Hs Hi. assert (a ∈ refs s) as Ha.
  { unfold refs. apply elem_of_app. right. apply list_elem_of_omap. eexists. split; [by eapply list_elem_of_lookup_2|done]. }
  pose proof Ha as Hx. apply (sr_refs _ _ Hs) in Hx as [x Hx]. unfold accept_return.
  pose proof (mem_obj _ _ _ _ (sr_mem _ _ Hs) Hx) as Ho.
  destruct (accept_on_spec fd _ Ho) as [(Hfail & o' & E & Ho' & Ht & Hf)|(y & c & w' & Hsk & E & Hin & Hy & Hc & H0 & Hn & Hf & Hctx)].
  - exists None. pose (s1 := set_mem (world o') (<[a := this o']> (sv_heap s)) s).
    assert (srv_ok [] s1) as Hs1.
    { split; [|intros b|apply Hs]; cbn.
      - eapply mem_update; [apply Hs|exact Hx|done|]. unfold others. cbn. by rewrite Ht, Hf.
      - change (refs s1) with (refs s). rewrite Ht, insert_id by done. apply Hs. }
    exists (set_tasks (<[i := TAccept a None]> (sv_tasks s1)) s1). split.
    { rewrite (bind_ok _ _ s None s1); [done|]. unfold at_object. by rewrite Hx, E. }
    split; [by eapply set_task_ok|]. rewrite app_nil_r. split_and!; try done. intros b _. cbn. by rewrite Ht, insert_id.
  - pose (s1 := set_mem w' (sv_heap s) s). destruct (fresh_client s y w' Hs Hy) as (cl & E1 & Hcl & Hs2); [lia|done|done|].
    set (s2 := set_mem w' (<[cl := y]> (sv_heap s)) s) in *.
    destruct (at_object_ok [cl] s2 cl (setRecvTimeout (i64 (sv_recvTimeout s))) Hs2) as (y' & [] & o & Hy' & Eo & _ & E2 & Hs3);
      [intros o Ho2; apply (op_from 0 true (OpSetRecvTimeout _) o Ho2)|set_solver|]. cbn in Hy'. rewrite lookup_insert_eq in Hy'. injection Hy' as <-.
    set (s3 := set_mem (world o) _ s2) in *.
    destruct (client_timeout y w' c (i64 (sv_recvTimeout s)) Hy H0 Hctx) as (o2 & Eo2 & Hthis & Hrt). cbn in Eo.
    rewrite Eo in Eo2. injection Eo2 as <-.
    exists (Some cl), (set_tasks (<[i := TAccept a None]> (sv_tasks s ++ [TClient cl])) s3). split.
    { rewrite (bind_ok _ _ s (Some y) s1). 2: { unfold at_object. by rewrite Hx, E, insert_id. }
      rewrite (bind_ok _ _ s1 tt (set_tasks (sv_tasks s ++ [TClient cl]) s3)); [done|].
      rewrite (bind_ok _ _ _ _ _ E1). rewrite (bind_ok _ _ _ _ _ (eq_refl : mget s2 = Ok s2 s2)).
      rewrite (bind_ok _ _ _ _ _ E2). done. }
    split.
    { apply (set_task_ok i a (Some fd) None (set_tasks (sv_tasks s ++ [TClient cl]) s3)); [|cbn; by apply lookup_app_l_Some].
      split; [apply Hs3|intros b|apply Hs]. change (sv_heap (set_tasks _ s3)) with (sv_heap s3). rewrite (sr_refs _ _ Hs3 b).
      unfold refs. cbn. rewrite omap_app. cbn. set_solver. }
    cbn. split_and!; try done; [by rewrite insert_app_l by (by eapply lookup_lt_Some)|..].
    { intros b Hb. assert (b ≠ cl) by (by intros ->). by rewrite !lookup_insert_ne. }
    intros c' [= <-]. exists y. rewrite Hthis, lookup_insert_eq. split_and!; try done; [lia|]. intros Hfit. rewrite <- Hthis. destruct o. by apply Hrt.
Qed.

Lemma delete_elem {A} (l : list A) i x : x ∈ delete i l → x ∈ l.
Proof.
  rewrite delete_take_drop, elem_of_app. intros [H|H]; [by eapply subseteq_take|by eapply subseteq_drop].
Qed.

Lemma accept_enter_ok i a s :
  srv_ok [] s → sv_tasks s !! i = Some (TAccept a None) →
  ∃ s', ⟨ accept_enter i a, s ⟩ ⇓ ⟨ tt, s' ⟩ ∧ srv_ok [] s' ∧ m_socks s' = m_socks s ∧
    (∀ c, TClient c ∈ sv_tasks s' → TClient c ∈ sv_tasks s) ∧ (∀ b x, sv_heap s' !! b = Some x → sv_heap s !! b = Some x).
Proof.
  intros Hs Hi. unfold accept_enter. rewrite (bind_ok _ _ _ _ _ (eq_refl : mget s = Ok s s)). destruct (m_isStop s); cbn [negb].
  - destruct (end_task_drop i a _ s Hs Hi eq_refl) as (s' & E & Hs' & (F1 & F2 & _) & Hh). exists s'. cbn in F1, F2. split_and!; try done.
    intros c. rewrite F2. apply delete_elem.
  - assert (a ∈ refs s) as Ha.
    { unfold refs. apply elem_of_app. right. apply list_elem_of_omap. eexists. split; [by eapply list_elem_of_lookup_2|done]. }
    apply (sr_refs _ _ Hs) in Ha as [x Hx]. rewrite (bind_ok _ _ s (m_sock x) s).
    2: { unfold at_object. rewrite Hx. unfold me. mred. cbn [this world]. rewrite insert_id by done. by destruct s. }
    eexists. split; [reflexivity|]. split; [by eapply set_task_ok|]. split_and!; try done. cbn. intros c Hc.
    apply list_elem_of_lookup in Hc as [j Hj]. apply list_lookup_insert_Some in Hj as [(_ & [=] & _)|[_ Hj]]. by eapply list_elem_of_lookup_2.
Qed.

Lemma run_task_ok i s : srv_inv s → ∃ s', ⟨ run_task i, s ⟩ ⇓ ⟨ tt, s' ⟩ ∧ srv_inv s'.
Proof.
  intros Hs. unfold run_task. rewrite (bind_ok _ _ _ _ _ (eq_refl : mget s = Ok s s)). pose proof (si_ok _ Hs) as Hok.
  destruct (sv_tasks s !! i) as [[a [fd|]|a|]|] eqn:Hi; [..|by exists s].
  - destruct (accept_return_ok i a fd s Hok Hi) as (new & s' & E & Hs' & H1 & _ & _ & H2 & _ & Hh & _ & Hnew). exists s'. split; [done|].
    assert (∀ b, b ∈ m_socks s → b ∈ refs s) as Hr by (unfold refs; set_solver). split; [done|..].
    + intros b x Hb Hx. rewrite H1 in Hb. apply (si_open _ Hs b x Hb). by rewrite <- Hh by by apply Hr.
    + intros b. rewrite H1, H2, elem_of_app. intros [Hb|Hb].
      * apply (si_client _ Hs). apply list_elem_of_lookup in Hb as [j Hj]. apply list_lookup_insert_Some in Hj as [(_ & [=] & _)|[_ Hj]].
        by eapply list_elem_of_lookup_2.
      * destruct new as [c|]; [|set_solver]. apply list_elem_of_singleton in Hb as [= ->].
        destruct (Hnew c eq_refl) as (_ & _ & _ & Hc & _). by intros ?%Hr.
  - destruct (accept_enter_ok i a s Hok Hi) as (s' & E & Hs' & H1 & H2 & H3). exists s'. split; [done|].
    apply (srv_inv_less s); [done|done|by rewrite H1|done|intros; by apply H3].
  - destruct (end_task_drop i a _ s Hok Hi eq_refl) as (s' & E & Hs' & (F1 & F2 & _) & Hh). exists s'. split; [done|]. cbn in F1, F2.
    apply (srv_inv_less s); [done|done|by rewrite F1| |intros; by apply Hh]. intros c. rewrite F2. apply delete_elem.
  - destruct (stop_task_ok s Hs) as (s1 & E & Hs1 & (F1 & F2 & F3 & F4) & _). rewrite (bind_ok _ _ _ _ _ E).
    eexists. split; [reflexivity|]. cbn in F1, F2. split; [|cbn; rewrite F1; set_solver..].
    apply (srv_ok_refs s1); [done..|]. intros a. unfold refs. cbn. rewrite F2.
    rewrite delete_take_drop. rewrite <- (take_drop_middle _ _ _ Hi) at 3. by rewrite !omap_app.
Qed.

(** Calls of the user, and steps of the workers. *)
Inductive sop : Type := SBind (addrs fails : list Address) | SStart | SStop | SRun (i : nat) | STimeout (v : Z) | SName (v : str).
Definition sexec (x : sop) : M (Server K) unit :=
  match x with
  | SBind addrs fails => bind_all addrs fails;; mret tt
  | SStart => start;; mret tt
  | SStop => stop
  | SRun i => run_task i
  | STimeout v => TcpServer_setRecvTimeout v
  | SName v => TcpServer_setName v
  end.
Fixpoint srun (l : list sop) : M (Server K) unit :=
  match l with [] => mret tt | x :: l' => sexec x;; srun l' end.

Lemma srun_ok l s : srv_inv s → ∃ s', ⟨ srun l, s ⟩ ⇓ ⟨ tt, s' ⟩ ∧ srv_inv s'.
Proof.
  revert s. induction l as [|x l IH]; intros s Hs; [by exists s|]. cbn [srun].
  assert (∃ s1, ⟨ sexec x, s ⟩ ⇓ ⟨ tt, s1 ⟩ ∧ srv_inv s1) as (s1 & E & Hs1); [|by rewrite (bind_ok _ _ _ _ _ E); apply IH].
  destruct x as [addrs fails| | |i|v|v]; cbn [sexec].
  - destruct (bind_all_ok addrs fails s Hs) as (r & s1 & E & Hs1). exists s1. by rewrite (bind_ok _ _ _ _ _ E).
  - destruct (start_ok s Hs) as (s1 & E & Hs1). exists s1. by rewrite (bind_ok _ _ _ _ _ E).
  - by apply stop_ok.
  - by apply run_task_ok.
  - eexists. split; [reflexivity|]. apply (srv_inv_less s); [done|split; apply Hs|done..].
  - eexists. split; [reflexivity|]. apply (srv_inv_less s); [done|split; apply Hs|done..].
Qed.

Lemma TcpServer_new_ok t w : sys_ok w → base = open_fds (kern w) → srv_inv (TcpServer_new t w).
Proof.
  intros Hw Hb. split; [|cbn; set_solver..]. split; cbn; [|intros a; rewrite lookup_empty; split; [by intros [? [=]]|set_solver]|constructor].
  split; [done|done| |done|done]. intros fd. rewrite Hb. split; [by left|]. intros [|(? & ? & ? & _)]; done.
Qed.

(** C10: A TCP server accounts for its sockets. In every order of bind, start, stop
    and of the steps of accept loops, clients and stop functions, with every
    answer of the kernel, each step returns; a socket object exists exactly as
    long as m_socks or a task refers to it; and the open descriptors are those
    that were open before the server, and one for each object that holds one. *)
Theorem server_accounts t w l :
  sys_ok w → base = open_fds (kern w) →
  ∃ s, ⟨ srun l, TcpServer_new t w ⟩ ⇓ ⟨ tt, s ⟩ ∧
    (∀ a, is_Some (sv_heap s !! a) ↔ a ∈ m_socks s ∨ ∃ x, x ∈ sv_tasks s ∧ task_ref x = Some a) ∧
    (∀ fd, fd ∈ open_fds (kern (sv_sys s)) ↔ fd ∈ base ∨ ∃ a x, sv_heap s !! a = Some x ∧ fd ∈ own x) ∧
    (∀ a b x y fd, sv_heap s !! a = Some x → sv_heap s !! b = Some y → fd ∈ own x → fd ∈ own y → a = b).
Proof.
  intros Hw Hb. destruct (srun_ok l _ (TcpServer_new_ok t w Hw Hb)) as (s & E & Hs). apply si_ok in Hs. exists s. split; [done|]. split_and!.
  - intros a. rewrite (sr_refs _ _ Hs). unfold refs. cbn. by rewrite elem_of_app, list_elem_of_omap.
  - apply Hs.
  - apply (sr_mem _ _ Hs).
Qed.


(** The loop of an accept task ends when the server is stopped. *)
Lemma accept_ends s j a :
  srv_ok [] s → m_isStop s = true → sv_tasks s !! j = Some (TAccept a None) →
  ∃ s', ⟨ run_task j, s ⟩ ⇓ ⟨ tt, s' ⟩ ∧ sv_tasks s' = delete j (sv_tasks s).
Proof.
  intros Hs Hst Hj. destruct (end_task_drop j a _ s Hs Hj eq_refl) as (s' & E & _ & (_ & F & _) & _). exists s'. split; [|exact F].
  unfold run_task. rewrite (bind_ok _ _ _ _ _ (eq_refl : mget s = Ok s s)), Hj. unfold accept_enter.
  rewrite (bind_ok _ _ _ _ _ (eq_refl : mget s = Ok s s)), Hst. exact E.
Qed.

Lemma accept_fails_and_ends s j a fd :
  srv_ok [] s → m_isStop s = true → sv_tasks s !! j = Some (TAccept a (Some fd)) → fd ∉ open_fds (kern (sv_sys s)) →
  ∃ s', ⟨ srun [SRun j; SRun j], s ⟩ ⇓ ⟨ tt, s' ⟩ ∧ sv_tasks s' = delete j (sv_tasks s).
Proof.
  intros Hs Hst Hj Hfd. destruct (accept_return_ok j a fd s Hs Hj) as (new & s1 & E & Hs1 & _ & H1 & _ & H2 & H3 & _ & _ & _).
  rewrite (H3 Hfd), app_nil_r in H2. pose proof (lookup_lt_Some _ _ _ Hj) as Hlt.
  destruct (accept_ends s1 j a Hs1) as (s2 & E2 & H4); [congruence|rewrite H2; by apply list_lookup_insert_eq|].
  exists s2. cbn [srun sexec]. rewrite (bind_ok _ _ s tt s1).
  2: { unfold run_task. rewrite (bind_ok _ _ _ _ _ (eq_refl : mget s = Ok s s)), Hj. exact E. }
  split; [by rewrite (bind_ok _ _ _ _ _ E2)|]. rewrite H4, H2. by rewrite !delete_take_drop, take_insert_ge, drop_insert_lt by lia.
Qed.

(** C26: stop ends the accept loops of the sockets that m_socks holds. Let stop be
    called in any state the server can be in, and let the function it schedules
    run: then m_socks is empty, every socket it held is closed, every loop that
    is at its head ends with its next step, and a loop that waits in accept on a
    socket of m_socks ends with the step after the next: accept fails and no
    client is taken. (A loop that waits on a socket which a failed bind has
    dropped from m_socks is not ended, [stop_misses_socket].) *)
Theorem stop_ends_accepting t w l s :
  sys_ok w → base = open_fds (kern w) → srun l (TcpServer_new t w) = Ok tt s →
  ∃ s', ⟨ srun [SStop; SRun (length (sv_tasks s))], s ⟩ ⇓ ⟨ tt, s' ⟩ ∧ m_socks s' = [] ∧ sv_tasks s' = sv_tasks s ∧
    (∀ a x, a ∈ m_socks s → sv_heap s' !! a = Some x → m_sock x = -1) ∧
    (∀ j a, sv_tasks s !! j = Some (TAccept a None) →
       ∃ s2, ⟨ run_task j, s' ⟩ ⇓ ⟨ tt, s2 ⟩ ∧ sv_tasks s2 = delete j (sv_tasks s)) ∧
    (∀ j a x, a ∈ m_socks s → sv_heap s !! a = Some x → sv_tasks s !! j = Some (TAccept a (Some (m_sock x))) →
       ∃ s2, ⟨ srun [SRun j; SRun j], s' ⟩ ⇓ ⟨ tt, s2 ⟩ ∧ sv_tasks s2 = delete j (sv_tasks s)).
Proof.
  intros Hw Hb E. destruct (srun_ok l _ (TcpServer_new_ok t w Hw Hb)) as (s0 & E0 & Hs). rewrite E in E0. injection E0 as <-.
  pose (s1 := set_tasks (sv_tasks s ++ [TStop]) (set_stop true s)).
  destruct (stop_ok s Hs) as (s1' & E1 & Hs1). apply si_ok in Hs. assert (s1' = s1) as -> by (by injection E1).
  destruct (stop_task_ok s1 Hs1) as (s2 & E2 & Hs2 & (F1 & F2 & F3 & F4) & Hh). cbn in F1, F2, F3.
  pose (s3 := set_tasks (sv_tasks s) s2).
  assert (srv_ok [] s3) as Hs3.
  { apply (srv_ok_refs s2); [done..|]. intros a. unfold refs. cbn. rewrite F2, omap_app. cbn. by rewrite app_nil_r. }
  exists s3. split.
  { cbn [srun sexec]. rewrite (bind_ok _ _ _ _ _ E1). rewrite (bind_ok _ _ s1 tt s3); [done|].
    unfold run_task. rewrite (bind_ok _ _ _ _ _ (eq_refl : mget s1 = Ok s1 s1)). cbn [sv_tasks set_tasks s1].
    rewrite list_lookup_middle by done. rewrite (bind_ok _ _ _ _ _ E2). unfold end_task. mred. f_equal. unfold s3. f_equal.
    rewrite F2, delete_take_drop, take_app_length. rewrite drop_ge by (rewrite length_app; cbn; lia). by rewrite app_nil_r. }
  split; [done|]. split; [done|]. split; [intros a x Ha Hx; by apply (Hh a x)|]. split.
  - intros j a Hj. by apply (accept_ends s3 j a).
  - intros j a x Ha Hx Hj. apply (accept_fails_and_ends s3 j a (m_sock x)); [done|done|done|]. cbn. intros Hin.
    assert (m_sock x ∈ own x) as Hown.
    { unfold own. destruct (Z.eqb_spec (m_sock x) (-1)) as [He|]; [|set_solver]. rewrite He in Hin. apply nl_nonneg in Hin. lia. }
    apply (mo_fds _ _ (sr_mem _ _ Hs2)) in Hin as [Hin|(b & y & Hy & Hin)].
    + by eapply (mo_base _ _ (sr_mem _ _ Hs)).
    + destruct (Hh b y Hy) as [H1 H2]. destruct (decide (b ∈ m_socks s)) as [Hbin|Hbn].
      * unfold own in Hin. rewrite (H1 Hbin) in Hin. cbn in Hin. set_solver.
      * assert (a = b) as ->; [|done]. eapply (mo_one _ _ (sr_mem _ _ Hs)); [done|by apply H2|done..].
Qed.

(** What the accept loop does with a connection. In any state the server can
    be in, when accept returns to the loop, either there is no new connection
    and only the loop goes on, or one new task handles a new connected socket
    on a descriptor that was not open before, with the receive time-out of the
    server. *)
Theorem accepted_client t w l s i a fd :
  sys_ok w → base = open_fds (kern w) → srun l (TcpServer_new t w) = Ok tt s → sv_tasks s !! i = Some (TAccept a (Some fd)) →
  ∃ new s', ⟨ run_task i, s ⟩ ⇓ ⟨ tt, s' ⟩ ∧ m_socks s' = m_socks s ∧
    sv_tasks s' = <[i := TAccept a None]> (sv_tasks s) ++ match new with Some c => [TClient c] | None => [] end ∧
    (∀ c, new = Some c → ∃ x, sv_heap s' !! c = Some x ∧ m_isConnected x = true ∧ (m_sock x ∉ open_fds (kern (sv_sys s))) ∧
       (fits (i64 (sv_recvTimeout s)) → getRecvTimeout (mkObj x (sv_sys s')) = Ok (i64 (sv_recvTimeout s)) (mkObj x (sv_sys s')))).
Proof.
  intros Hw Hb E Hi. destruct (srun_ok l _ (TcpServer_new_ok t w Hw Hb)) as (s0 & E0 & Hs). rewrite E in E0. injection E0 as <-.
  destruct (accept_return_ok i a fd s (si_ok _ Hs) Hi) as (new & s' & E1 & _ & H1 & _ & _ & H2 & _ & _ & _ & H3). exists new, s'. split.
  { unfold run_task. rewrite (bind_ok _ _ _ _ _ (eq_refl : mget s = Ok s s)), Hi. exact E1. }
  split; [done|]. split; [done|]. intros c Hc. destruct (H3 c Hc) as (x & ? & ? & _ & _ & ? & ?). by exists x.
Qed.

End Server.

(** ** Concrete servers *)

Definition demo_server : Server demo_net := TcpServer_new 120000 demo_world.
Definition demo_base : gset Z := open_fds (kern demo_world).
(** Bound and started; the accept loop waits in accept. *)
Definition demo_started : list sop := [SBind [demo_addr] []; SStart; SRun 0].

Lemma server_accounts_witness :
  ∃ s, srun (demo_started ++ [SRun 0; SStop; SRun 2; SRun 0; SRun 0]) demo_server = Ok tt s ∧
    ∀ a, is_Some (sv_heap s !! a) ↔ a ∈ m_socks s ∨ ∃ x, x ∈ sv_tasks s ∧ task_ref x = Some a.
Proof.
  destruct (server_accounts demo_base 120000 demo_world (demo_started ++ [SRun 0; SStop; SRun 2; SRun 0; SRun 0]) demo_world_ok eq_refl)
    as (s & E & H & _). exists s. split; [exact E|exact H].
Defined.


Lemma stop_ends_accepting_witness :
  ∃ s s', srun demo_started demo_server = Ok tt s ∧ srun [SStop; SRun (length (sv_tasks s))] s = Ok tt s' ∧ m_socks s' = [].
Proof.
  destruct (srun_ok demo_base demo_started demo_server (TcpServer_new_ok demo_base 120000 demo_world demo_world_ok eq_refl)) as (s & E & _).
  destruct (stop_ends_accepting demo_base 120000 demo_world demo_started s demo_world_ok eq_refl E) as (s' & E' & H & _).
  exists s, s'. split; [exact E|]. split; [exact E'|exact H].
Defined.

Lemma demo_waiting : ∃ s, srun demo_started demo_server = Ok tt s ∧ sv_tasks s !! 0%nat = Some (TAccept 0 (Some 3)).
Proof. eexists. split; [vm_compute; reflexivity|reflexivity]. Qed.

Lemma accepted_client_witness :
  ∃ s s' new, srun demo_started demo_server = Ok tt s ∧ run_task 0 s = Ok tt s' ∧
    sv_tasks s' = <[0%nat := TAccept 0 None]> (sv_tasks s) ++ match new with Some c => [TClient c] | None => [] end.
Proof.
  destruct demo_waiting as (s & E & Hi).
  destruct (accepted_client demo_base 120000 demo_world demo_started s 0 0 3 demo_world_ok eq_refl E Hi) as (new & s' & E' & _ & H & _).
  exists s, s', new. split; [exact E|]. split; [exact E'|exact H].
Defined.

(** start after stop, before the function of stop has run: the sockets are
    closed while m_isStop is false, and the accept loop spins on the
    descriptor -1. *)
Lemma restart_spins :
  ∃ s, srun (demo_started ++ [SStop; SStart; SRun 1; SRun 0; SRun 0]) demo_server = Ok tt s ∧
    sv_tasks s !! 0%nat = Some (TAccept 0 (Some (-1))) ∧ srun [SRun 0; SRun 0] s = Ok tt s.
Proof. eexists. split; [vm_compute; reflexivity|]. split; [reflexivity|]. vm_compute. reflexivity. Qed.

(** A bind that fails after start clears m_socks, and stop does not close the
    sockets of the loops that run. *)
Lemma stop_misses_socket :
  ∃ s x, srun (demo_started ++ [SBind [] [demo_addr]; SStop; SRun 1]) demo_server = Ok tt s ∧
    sv_heap s !! 0%nat = Some x ∧ m_sock x = 3 ∧ sv_tasks s !! 0%nat = Some (TAccept 0 (Some 3)).
Proof. eexists _, _. split; [vm_compute; reflexivity|]. split; [reflexivity|]. by split. Qed.
