(* ===== verification/StreamBuffer.v ===== *)
(** Streams into and out of a ByteArray: the overloads of read, write,
    readFixSize and writeFixSize that take one (skt/streams/socket_stream.cpp,
    skt/stream/stream.cpp).

    The state is the buffer and the connection. [junk] is what the kernel copies
    of a memory cell that was never written. *)

From stdpp Require Import base list strings.
From Stdlib Require Import Ascii Lia.
From S2P Require Import Prelude Endian CString ByteArray ByteArraySpec ByteArrayIov Stream.

Section Overloads.
Context (junk : ascii).
Abbreviation sba := (M (ByteArray * Conn)).

Definition on_ba {A} (c : BA A) : sba A := λ '(b, k),
  match c b with
  | Ok a b' => Ok a (b', k)
  | Exc e b' => Exc e (b', k)
  | Stop u => Stop u
  | NoFuel => NoFuel
  end.
Definition on_conn {A} (c : M Conn A) : sba A := λ '(b, k),
  match c k with
  | Ok a k' => Ok a (b, k')
  | Exc e k' => Exc e (b, k')
  | Stop u => Stop u
  | NoFuel => NoFuel
  end.

Definition cell_char (c : cell) : ascii := match c with Some v => ascii_of_N (Z.to_N v) | None => junk end.

(** The memory an array of iovecs describes. *)
Fixpoint gather (nodes : list Node) (iovs : list iovec) : option (list cell) :=
  match iovs with
  | [] => Some []
  | v :: iovs' =>
    nd ← nodes !! iov_node v;
    bytes ← mem_read (iov_off v) (iov_len v) (ptr nd);
    rest ← gather nodes iovs';
    Some (bytes ++ rest)
  end.

(** m_socket->send(&iovs[0], iovs.size()): the vector has no first element when
    it is empty. *)
Definition send_iovs (iovs : list iovec) : sba Z :=
  match iovs with
  | [] => mstop OutOfBounds
  | _ =>
    s ← mget;
    bytes ← mderef OutOfBounds (gather (m_nodes s.1) iovs);
    on_conn (stream_write (cell_char <$> bytes))
  end.

(** ba->setPosition(ba->getPosition() + rt) when rt is positive *)
Definition advance_by (rt : Z) : sba Z :=
  (if 0 <? rt then s ← mget; on_ba (setPosition (u64 (m_position s.1 + rt))) else mret tt);;
  mret rt.

(** SocketStream::read(ba, length) *)
Definition stream_read_ba (length : Z) : sba Z :=
  s ← mget;
  if negb (c_open s.2) then mret (-1)
  else
    '(_, iovs) ← on_ba (getWriteBuffers length);
    rt ← send_iovs iovs;
    advance_by rt.

(** SocketStream::write(ba, length): getReadBuffers is asked for iovs.size()
    bytes of an empty vector. *)
Definition stream_write_ba (length : Z) : sba Z :=
  s ← mget;
  if negb (c_open s.2) then mret (-1)
  else
    '(_, iovs) ← on_ba (getReadBuffers 0);
    rt ← send_iovs iovs;
    advance_by rt.

(** Stream::readFixSize(ba, length), Stream::writeFixSize(ba, length): left and
    len are int64_t. *)
Fixpoint fix_loop (op : Z → sba Z) (fuel : nat) (length left : Z) : sba Z :=
  match fuel with
  | O => mnofuel
  | S fuel' =>
    if left <=? 0 then mret (i32 length)
    else
      len ← op left;
      if len <=? 0 then mret (i32 len) else fix_loop op fuel' length (i64 (left - len))
  end.
Definition readFixSize_ba (fuel : nat) (length : Z) : sba Z := fix_loop stream_read_ba fuel length (i64 length).
Definition writeFixSize_ba (fuel : nat) (length : Z) : sba Z := fix_loop stream_write_ba fuel length (i64 length).

(** ** What the overloads do *)

Lemma stream_write_in d c r c' : stream_write d c = Ok r c' → c_in c' = c_in c ∧ c_open c' = c_open c.
Proof.
  unfold stream_write. destruct (c_open c) eqn:Ho; cbn [negb]; [|by intros [= <- <-]].
  destruct (c_caps c) as [|k ks]; [by intros [= <- <-]|]. by destruct (k <? 0); intros [= <- <-].
Qed.

(** Reading into a ByteArray receives nothing: what has arrived stays where it
    is, and the free space of the buffer is sent to the peer. *)
Lemma read_ba_never_receives n b c r b' c' :
  stream_read_ba n (b, c) = Ok r (b', c') → c_in c' = c_in c.
Proof.
  unfold stream_read_ba, send_iovs, advance_by, on_ba, on_conn. mred. cbn.
  destruct (c_open c); cbn [negb]; [|by intros [= _ _ <-]]. destruct (getWriteBuffers n b) as [[? iovs] b1| | |]; [|done..].
  destruct iovs as [|v iovs]; [done|]. cbn [fst]. destruct (gather (m_nodes b1) (v :: iovs)) as [bytes|]; [|done].
  cbn. destruct (stream_write _ c) as [rt c1| | |] eqn:E; [|done..]. apply stream_write_in in E as [<- _].
  destruct (0 <? rt); cbn; [|by intros [= _ _ <-]]. by destruct (setPosition _ b1) as [? b2| | |]; intros [= _ _ <-].
Qed.

(** Writing from a ByteArray is never defined on an open connection. *)
Lemma write_ba_undefined n b c : c_open c = true → stream_write_ba n (b, c) = Stop OutOfBounds.
Proof.
  intros Ho. unfold stream_write_ba, on_ba. mred. cbn. rewrite Ho. cbn. unfold getReadBuffers. mred.
  destruct (getReadSize b <? 0) eqn:E; [|done]. apply Z.ltb_lt in E. pose proof (wrapu_range 64 (m_size b - m_position b)).
  unfold getReadSize in E. unfold in_u in *. lia.
Qed.

(** Five bytes that wait are not read: "junk" goes out instead. *)
Lemma read_ba_sends_free_space :
  stream_read_ba 3 (newByteArray 8, mkConn [Data (L "hello")] [] [] true)
  = Ok 3 (mkByteArray 8 8 3 3 SKT_BIG_ENDIAN [newNode 8] (Some 0%nat), mkConn [Data (L "hello")] [] [junk; junk; junk] true).
Proof. vm_compute. reflexivity. Qed.

End Overloads.
