(* ===== verification/LogFormat.v ===== *)
(** LogFormatter: the pattern language of the logger (skt/log/log.h,
    skt/log/log.cpp).

    The constructor runs over the pattern with indices and substr, as the code
    does; [parse] is the grammar it implements. localtime_r and strftime are an
    argument: the text for a format and a time, or None when it does not fit
    into the buffer. *)

From stdpp Require Import base list strings.
From Stdlib Require Import Ascii Lia.
From S2P Require Import Prelude CString Ragel Uri.

(** ** Levels *)

Inductive Level : Type := UNKNOW | DEBUG | INFO | WARN | ERROR | FATAL | OtherLevel (n : Z).

Definition level_value (l : Level) : Z :=
  match l with UNKNOW => 0 | DEBUG => 1 | INFO => 2 | WARN => 3 | ERROR => 4 | FATAL => 5 | OtherLevel n => n end.

(** LogLevel::ToString *)
Definition ToString (l : Level) : str :=
  match l with
  | DEBUG => L "DEBUG" | INFO => L "INFO" | WARN => L "WARN" | ERROR => L "ERROR" | FATAL => L "FATAL"
  | _ => L "UNKONW"
  end.

(** LogLevel::FromString: the first of the tests that holds. *)
Definition level_names : list (string * Level) :=
  [("debug", DEBUG); ("info", INFO); ("warn", WARN); ("error", ERROR); ("fatal", FATAL);
   ("DEBUG", DEBUG); ("INFO", INFO); ("WARN", WARN); ("ERROR", ERROR); ("FATAL", FATAL)].
Fixpoint level_lookup (s : str) (l : list (string * Level)) : Level :=
  match l with
  | [] => UNKNOW
  | (n, v) :: l' => if streq s (L n) then v else level_lookup s l'
  end.
Definition FromString (s : str) : Level := level_lookup s level_names.

(** ** The constructor *)

Definition PC : ascii := "%"%char.
Definition LB : ascii := "{"%char.
Definition RB : ascii := "}"%char.

Definition ceq (a b : ascii) : bool := bool_decide (a = b).

(** isalpha in the C locale *)
Definition isalpha (c : ascii) : bool := between 65 90 c || between 97 122 c.

(** An entry of vec: the text or name, the format, and whether it is an item. *)
Record entry : Type := mkEntry { e_str : str; e_fmt : str; e_type : Z }.

Record Init : Type := mkInit { in_vec : list entry; in_nstr : str; in_error : bool }.
Definition pattern_error : str := L "<<pattern_error>>".

Section Scan.
Context (pattern : str).
Abbreviation init_m := (M Init).
Abbreviation size := (length pattern).

Definition char_at (n : nat) : init_m ascii := mderef OutOfBounds (pattern !! n).
(** m_pattern.substr(pos, len) *)
Definition substr (pos len : nat) : init_m str :=
  if (size <? pos)%nat then mthrow (out_of_range "basic_string::substr") else mret (take len (drop pos pattern)).

(** The loop over n: str, fmt, fmt_status and n at its end. *)
Fixpoint scan (fuel i n : nat) (fmt_status : bool) (fmt_begin : nat) (s fmt : str) : init_m (str * str * bool * nat) :=
  match fuel with
  | O => mnofuel
  | S fuel' =>
    if negb (n <? size)%nat then mret (s, fmt, fmt_status, n)
    else
      c ← char_at n;
      if negb fmt_status && (negb (isalpha c) && negb (ceq c LB) && negb (ceq c RB))
      then s' ← substr (i + 1) (n - i - 1); mret (s', fmt, fmt_status, n)
      else if negb fmt_status && ceq c LB
      then s' ← substr (i + 1) (n - i - 1); scan fuel' i (n + 1) true n s' fmt
      else if fmt_status && ceq c RB
      then fmt' ← substr (fmt_begin + 1) (n - fmt_begin - 1); mret (s, fmt', false, (n + 1)%nat)
      else
        s' ← (if (n + 1 =? size)%nat && bool_decide (s = []) then substr (i + 1) size else mret s);
        scan fuel' i (n + 1) fmt_status fmt_begin s' fmt
  end.

Definition push (e : entry) : init_m unit := mmodify (λ x, mkInit (in_vec x ++ [e]) (in_nstr x) (in_error x)).
Definition add_char (c : ascii) : init_m unit := mmodify (λ x, mkInit (in_vec x) (in_nstr x ++ [c]) (in_error x)).
Definition set_error : init_m unit := mmodify (λ x, mkInit (in_vec x) (in_nstr x) true).
(** if(!nstr.empty()) push it and clear it *)
Definition flush : init_m unit :=
  mmodify (λ x, match in_nstr x with [] => x | s => mkInit (in_vec x ++ [mkEntry s [] 0]) [] (in_error x) end).

(** The loop over i. *)
Fixpoint init_loop (fuel i : nat) : init_m unit :=
  match fuel with
  | O => mnofuel
  | S fuel' =>
    if negb (i <? size)%nat then mret tt
    else
      c ← char_at i;
      if negb (ceq c PC) then add_char c;; init_loop fuel' (i + 1)
      else
        twice ← (if (i + 1 <? size)%nat then c' ← char_at (i + 1); mret (ceq c' PC) else mret false);
        if (twice : bool) then add_char PC;; init_loop fuel' (i + 2)
        else
          '(s, fmt, fmt_status, n) ← scan (S size) i (i + 1) false 0 [] [];
          if (fmt_status : bool)
          then set_error;; push (mkEntry pattern_error fmt 0);; init_loop fuel' (i + 1)
          else flush;; push (mkEntry s fmt 1);; init_loop fuel' n
  end.

(** The part of init that fills vec. *)
Definition init_vec : result Init (list entry * bool) :=
  (init_loop (S size) 0;; flush;; x ← mget; mret (in_vec x, in_error x)) (mkInit [] [] false).
End Scan.

(** ** Items *)

Inductive FormatItem : Type :=
| MessageFormatItem | LevelFormatItem | ElapseFormatItem | NameFormatItem | ThreadIdFormatItem | NewLineFormatItem
| DateTimeFormatItem (format : str) | FileNameFormatItem | LineFormatItem | TabFormatItem | FiberIdFormatItem
| FiberNameFormatItem | StringFormatItem (s : str).

(** The constructor of DateTimeFormatItem. *)
Definition default_time : str := L "%Y-%m-%d %H:%M:%S".
Definition date_item (fmt : str) : FormatItem := DateTimeFormatItem (match fmt with [] => default_time | _ => fmt end).

(** s_format_itmes *)
Definition format_items (name fmt : str) : option FormatItem :=
  match name with
  | [c] =>
    if ceq c "m"%char then Some MessageFormatItem else if ceq c "p"%char then Some LevelFormatItem
    else if ceq c "r"%char then Some ElapseFormatItem else if ceq c "c"%char then Some NameFormatItem
    else if ceq c "t"%char then Some ThreadIdFormatItem else if ceq c "n"%char then Some NewLineFormatItem
    else if ceq c "d"%char then Some (date_item fmt) else if ceq c "f"%char then Some FileNameFormatItem
    else if ceq c "l"%char then Some LineFormatItem else if ceq c "T"%char then Some TabFormatItem
    else if ceq c "F"%char then Some FiberIdFormatItem else if ceq c "N"%char then Some FiberNameFormatItem
    else None
  | _ => None
  end.

(** The loop over vec: m_items and m_error. *)
Definition item_of (e : entry) : FormatItem * bool :=
  if e_type e =? 0 then (StringFormatItem (e_str e), false)
  else match format_items (e_str e) (e_fmt e) with
       | Some it => (it, false)
       | None => (StringFormatItem (L "<<error_format %" ++ e_str e ++ L ">>"), true)
       end.

Record LogFormatter : Type := mkFormatter { m_pattern : str; m_items : list FormatItem; m_error : bool }.

(** LogFormatter::LogFormatter with init *)
Definition LogFormatter_new (pattern : str) : result Init LogFormatter :=
  match init_vec pattern with
  | Ok (vec, err) x =>
    let items := item_of <$> vec in Ok (mkFormatter pattern (items.*1) (err || existsb snd items)) x
  | Exc e x => Exc e x
  | Stop u => Stop u
  | NoFuel => NoFuel
  end.

(** ** Formatting *)

Record LogEvent : Type := mkEvent {
  ev_file : str; ev_line : Z; ev_elapse : Z; ev_threadId : Z; ev_fiberId : Z; ev_time : Z;
  ev_content : str; ev_threadName : str; ev_loggerName : str; ev_level : Level
}.

Section Format.
Context (strftime : str → Z → option str).

(** What an item writes; [None]: the buffer of DateTimeFormatItem is printed
    without having been written. *)
Definition item_format (level : Level) (ev : LogEvent) (it : FormatItem) : option str :=
  match it with
  | MessageFormatItem => Some (ev_content ev)
  | LevelFormatItem => Some (ToString level)
  | ElapseFormatItem => Some (to_string (ev_elapse ev))
  | NameFormatItem => Some (ev_loggerName ev)
  | ThreadIdFormatItem => Some (to_string (u32 (ev_threadId ev)))
  | NewLineFormatItem => Some [LF]
  | DateTimeFormatItem f => strftime f (i64 (ev_time ev))
  | FileNameFormatItem => Some (ev_file ev)
  | LineFormatItem => Some (to_string (ev_line ev))
  | TabFormatItem => Some [ascii_of_nat 9]
  | FiberIdFormatItem => Some (to_string (ev_fiberId ev))
  | FiberNameFormatItem => Some (ev_threadName ev)
  | StringFormatItem s => Some s
  end.

(** LogFormatter::format *)
Fixpoint format_loop (level : Level) (ev : LogEvent) (l : list FormatItem) (ss : str) : option str :=
  match l with
  | [] => Some ss
  | it :: l' => t ← item_format level ev it; format_loop level ev l' (ss ++ t)
  end.
Definition format (f : LogFormatter) (level : Level) (ev : LogEvent) : option str := format_loop level ev (m_items f) [].
End Format.

(** The default pattern of a Logger. *)
Definition default_pattern : str := L "%d{%Y-%m-%d %H:%M:%S}%T%t%T%N%T%F%T[%p]%T[%c]%T%f:%l%T%m%n".

Example default_items :
  ∃ x, LogFormatter_new default_pattern = Ok (mkFormatter default_pattern
    [date_item default_time; TabFormatItem; ThreadIdFormatItem; TabFormatItem; FiberNameFormatItem; TabFormatItem; FiberIdFormatItem;
     TabFormatItem; StringFormatItem (L "["); LevelFormatItem; StringFormatItem (L "]"); TabFormatItem; StringFormatItem (L "[");
     NameFormatItem; StringFormatItem (L "]"); TabFormatItem; FileNameFormatItem; StringFormatItem (L ":"); LineFormatItem;
     TabFormatItem; MessageFormatItem; NewLineFormatItem] false) x.
Proof. eexists. vm_compute. reflexivity. Qed.

(** Without a closing brace the error is reported before the text that precedes
    it in the pattern. *)
Lemma error_out_of_order :
  ∃ x, init_vec (L "ab%d{x") = Ok ([mkEntry pattern_error [] 0; mkEntry (L "abd{x") [] 0], true) x.
Proof. eexists. vm_compute. reflexivity. Qed.

(** A closing brace counts as part of a name. *)
Lemma brace_in_name : ∃ x, init_vec (L "{%m}") = Ok ([mkEntry (L "{") [] 0; mkEntry (L "m}") [] 1], false) x.
Proof. eexists. vm_compute. reflexivity. Qed.
