(* ===== verification/LogFormatProps.v ===== *)
(** Properties of LogFormatter: the constructor computes the grammar of patterns
    for every text, and reads back printed patterns. *)

From stdpp Require Import base list strings.
From Stdlib Require Import Ascii Lia.
From S2P Require Import Prelude CString Ragel Uri LogFormat.

(** ** The grammar *)

Definition name_char (c : ascii) : bool := isalpha c || ceq c RB.

Fixpoint span (p : ascii → bool) (l : str) : str * str :=
  match l with
  | [] => ([], [])
  | c :: l' => if p c then let '(a, b) := span p l' in (c :: a, b) else ([], l)
  end.

(** The text before the first closing brace, and what follows it. *)
Fixpoint split_brace (l : str) : option (str * str) :=
  match l with
  | [] => None
  | c :: l' => if ceq c RB then Some ([], l') else '(a, b) ← split_brace l'; Some (c :: a, b)
  end.

Definition text (s : str) : list entry := match s with [] => [] | _ => [mkEntry s [] 0] end.

(** The item behind a percent sign: the entries for it, and the rest; None
    when its format is not closed. *)
Definition item (l : str) : option (entry * str) :=
  let '(name, rest) := span name_char l in
  match rest with
  | c :: r =>
    if ceq c LB then '(fmt, r') ← split_brace r; Some (mkEntry name fmt 1, r') else Some (mkEntry name [] 1, rest)
  | [] => Some (mkEntry name [] 1, [])
  end.

Fixpoint parse (fuel : nat) (l nstr : str) : list entry * bool :=
  match fuel with
  | O => ([], false)
  | S fuel' =>
    match l with
    | [] => (text nstr, false)
    | c :: l' =>
      if negb (ceq c PC) then parse fuel' l' (nstr ++ [c])
      else if match l' with c2 :: _ => ceq c2 PC | [] => false end then parse fuel' (tail l') (nstr ++ [PC])
      else match item l' with
           | Some (e, rest) => let '(es, err) := parse fuel' rest [] in (text nstr ++ e :: es, err)
           | None => let '(es, _) := parse fuel' l' nstr in (mkEntry pattern_error [] 0 :: es, true)
           end
    end
  end.
Definition grammar (pattern : str) : list entry * bool := parse (S (length pattern)) pattern [].

(** ** The loops *)

Lemma ceq_refl c : ceq c c = true.
Proof. unfold ceq. by rewrite bool_decide_eq_true. Qed.

Lemma ceq_eq a b : ceq a b = true ↔ a = b.
Proof. apply bool_decide_eq_true. Qed.

Section Loops.
Context (pattern : str).
Implicit Types x : Init.

Lemma char_at_app pre c post x : pattern = pre ++ c :: post → char_at pattern (length pre) x = Ok c x.
Proof. intros ->. unfold char_at. by rewrite list_lookup_middle. Qed.

Lemma substr_app pre mid post pos len x :
  pattern = pre ++ mid ++ post → pos = length pre → len = length mid → substr pattern pos len x = Ok mid x.
Proof.
  intros -> -> ->. unfold substr. rewrite (proj2 (Nat.ltb_ge _ _)) by (rewrite length_app; lia).
  by rewrite drop_app_length, take_app_length.
Qed.

Lemma substr_rest pre post pos len x :
  pattern = pre ++ post → pos = length pre → (length post ≤ len)%nat → substr pattern pos len x = Ok post x.
Proof.
  intros -> -> H. unfold substr. rewrite (proj2 (Nat.ltb_ge _ _)) by (rewrite length_app; lia).
  by rewrite drop_app_length, take_ge.
Qed.

(** Inside a format. *)
Lemma scan_fmt rest f a fuel i s x :
  pattern = a ++ LB :: f ++ rest → (i < length a)%nat → (length rest < fuel)%nat →
  match split_brace rest with
  | Some (g, r) => scan pattern fuel i (length a + 1 + length f) true (length a) s [] x
                   = Ok (s, f ++ g, false, (length pattern - length r)%nat) x
  | None => ∃ s' n, scan pattern fuel i (length a + 1 + length f) true (length a) s [] x = Ok (s', [], true, n) x
  end.
Proof.
  revert f fuel s. induction rest as [|c rest IH]; intros f fuel s Hp Hi Hf; (destruct fuel as [|fuel]; [cbn in Hf; lia|]); cbn [split_brace scan].
  - rewrite (proj2 (Nat.ltb_ge _ _)) by (rewrite Hp, length_app; cbn; rewrite length_app; cbn; lia). by eexists _, _.
  - rewrite (proj2 (Nat.ltb_lt _ _)) by (rewrite Hp, length_app; cbn; rewrite length_app; cbn; lia). cbn [negb andb].
    assert (pattern = (a ++ LB :: f) ++ c :: rest) as Hp' by (by rewrite Hp, <- (assoc_L (++))).
    replace (length a + 1 + length f)%nat with (length (a ++ LB :: f)) by (rewrite length_app; cbn; lia).
    rewrite (bind_ok _ _ _ _ _ (char_at_app _ _ _ x Hp')). destruct (ceq c RB) eqn:Ec.
    + assert (substr pattern (length a + 1) (length (a ++ LB :: f) - length a - 1) x = Ok f x) as E.
      { apply (substr_app (a ++ [LB]) f (c :: rest)); [by rewrite Hp, <- !(assoc_L (++))|by rewrite length_app|rewrite length_app; cbn; lia]. }
      rewrite (bind_ok _ _ _ _ _ E). rewrite app_nil_r. mred. do 3 f_equal. rewrite Hp', !length_app. cbn. lia.
    + assert (∃ s', (if (length (a ++ LB :: f) + 1 =? length pattern)%nat && bool_decide (s = []) then substr pattern (i + 1) (length pattern) else mret s) x
                    = Ok s' x ∧ (rest ≠ [] → s' = s)) as (s' & E & Hs').
      { destruct (_ && _) eqn:Eb; [|by exists s]. apply andb_true_iff in Eb as [Eb _]. apply Nat.eqb_eq in Eb.
        unfold substr. rewrite (proj2 (Nat.ltb_ge _ _)) by (rewrite Hp, length_app; cbn; lia). eexists. split; [done|].
        intros Hr. exfalso. rewrite Hp', !length_app in Eb. destruct rest; [done|]. cbn in Eb. lia. }
      rewrite (bind_ok _ _ _ _ _ E). specialize (IH (f ++ [c]) fuel s').
      replace (length a + 1 + length (f ++ [c]))%nat with (length (a ++ LB :: f) + 1)%nat in IH by (rewrite !length_app; cbn; lia).
      destruct (split_brace rest) as [[g r]|] eqn:Es.
      * cbn. rewrite IH; [|by rewrite Hp, <- !(assoc_L (++))|done|cbn in Hf; lia]. rewrite <- (assoc_L (++)). f_equal. f_equal. f_equal. f_equal.
        apply Hs'. by intros ->.
      * apply IH; [by rewrite Hp, <- !(assoc_L (++))|done|cbn in Hf; lia].
Qed.

Lemma span_app p acc rest : forallb p acc = true → span p (acc ++ rest) = (acc ++ (span p rest).1, (span p rest).2).
Proof.
  induction acc as [|c acc IH]; cbn; [by destruct (span p rest)|]. intros [-> H]%andb_true_iff. by rewrite IH.
Qed.

(** The item as a whole, from behind [acc] on. *)
Lemma scan_name rest acc pre fuel x :
  pattern = pre ++ PC :: acc ++ rest → forallb name_char acc = true → (length rest < fuel)%nat →
  match item (acc ++ rest) with
  | Some (e, r) => scan pattern fuel (length pre) (length pre + 1 + length acc) false 0 (match rest with [] => acc | _ => [] end) [] x
                   = Ok (e_str e, e_fmt e, false, (length pattern - length r)%nat) x ∧ e_type e = 1
  | None => ∃ s' n, scan pattern fuel (length pre) (length pre + 1 + length acc) false 0 (match rest with [] => acc | _ => [] end) [] x
                    = Ok (s', [], true, n) x
  end.
Proof.
  revert acc fuel. induction rest as [|c rest IH]; intros acc fuel Hp Ha Hf; (destruct fuel as [|fuel]; [cbn in Hf; lia|]); cbn [scan].
  - rewrite app_nil_r in Hp. rewrite (proj2 (Nat.ltb_ge _ _)) by (rewrite Hp, length_app; cbn; lia).
    unfold item. rewrite span_app by done. cbn. rewrite app_nil_r. split; [|done]. mred. do 2 f_equal. rewrite Hp, length_app. cbn. lia.
  - assert (pattern = (pre ++ PC :: acc) ++ c :: rest) as Hp' by (by rewrite Hp, <- (assoc_L (++))).
    assert (length pre + 1 + length acc = length (pre ++ PC :: acc))%nat as -> by (rewrite length_app; cbn; lia).
    rewrite (proj2 (Nat.ltb_lt _ _)) by (rewrite Hp', !length_app; cbn; lia). cbn [negb andb].
    rewrite (bind_ok _ _ _ _ _ (char_at_app _ _ _ x Hp')).
    assert (substr pattern (length pre + 1) (length (pre ++ PC :: acc) - length pre - 1) x = Ok acc x) as Esub.
    { apply (substr_app (pre ++ [PC]) acc (c :: rest)); [by rewrite Hp, <- !(assoc_L (++))|by rewrite length_app|rewrite length_app; cbn; lia]. }
    destruct (name_char c) eqn:En.
    + unfold name_char in En. assert (negb (isalpha c) && negb (ceq c LB) && negb (ceq c RB) = false) as ->.
      { destruct (isalpha c), (ceq c RB), (ceq c LB); done. }
      assert (ceq c LB = false) as ->.
      { destruct (ceq c LB) eqn:E; [|done]. apply ceq_eq in E as ->. by vm_compute in En. }
      assert ((if (length (pre ++ PC :: acc) + 1 =? length pattern)%nat && bool_decide (@nil ascii = []) then substr pattern (length pre + 1) (length pattern) else mret []) x
              = Ok (match rest with [] => acc ++ [c] | _ => [] end) x) as E.
      { rewrite bool_decide_true, andb_true_r by done. destruct rest as [|c' rest].
        - rewrite (proj2 (Nat.eqb_eq _ _)) by (rewrite Hp', (length_app (pre ++ _)); cbn; lia).
          apply (substr_rest (pre ++ [PC]) (acc ++ [c])); [by rewrite Hp, <- !(assoc_L (++))|by rewrite length_app|rewrite Hp', !length_app; cbn; lia].
        - rewrite (proj2 (Nat.eqb_neq _ _)) by (rewrite Hp', (length_app (pre ++ _)); cbn; lia). done. }
      rewrite (bind_ok _ _ _ _ _ E). specialize (IH (acc ++ [c]) fuel).
      rewrite <- (assoc_L (++)) in IH. cbn [app] in IH. replace (length pre + 1 + length (acc ++ [c]))%nat with (length (pre ++ PC :: acc) + 1)%nat in IH
        by (rewrite !length_app; cbn; lia).
      apply IH; [done|rewrite forallb_app, Ha; cbn; unfold name_char; by rewrite En|cbn in Hf; lia].
    + unfold item. rewrite span_app by done. cbn [span]. rewrite En. cbn [fst snd]. rewrite app_nil_r.
      unfold name_char in En. apply orb_false_iff in En as [En1 En2]. rewrite En1, En2. cbn [negb]. rewrite !andb_true_r.
      destruct (ceq c LB) eqn:El; cbn [negb andb].
      * rewrite (bind_ok _ _ _ _ _ Esub). apply ceq_eq in El as ->.
        pose proof (scan_fmt rest [] (pre ++ PC :: acc) fuel (length pre) acc x) as Hs. rewrite Nat.add_0_r in Hs.
        destruct (split_brace rest) as [[g r]|]; cbn -[scan]; [rewrite Hs|apply Hs]; try done; try (cbn in Hf; lia); by rewrite length_app; cbn; lia.
      * rewrite (bind_ok _ _ _ _ _ Esub). split; [|done]. mred. do 2 f_equal. rewrite Hp', (length_app (pre ++ _)). cbn. lia.
Qed.

Lemma span_split p l : l = (span p l).1 ++ (span p l).2.
Proof. induction l as [|c l IH]; cbn; [done|]. destruct (p c); [|done]. destruct (span p l). cbn in *. by f_equal. Qed.

Lemma split_brace_split l g r : split_brace l = Some (g, r) → l = g ++ RB :: r.
Proof.
  revert g. induction l as [|c l IH]; cbn; [done|]. intros g. destruct (ceq c RB) eqn:E.
  - intros [= <- <-]. by apply ceq_eq in E as ->.
  - destruct (split_brace l) as [[g' r']|]; cbn; [|done]. intros [= <- <-]. cbn. f_equal. by apply IH.
Qed.

Lemma item_split l e r : item l = Some (e, r) → ∃ m, l = m ++ r.
Proof.
  unfold item. pose proof (span_split name_char l) as Hl. destruct (span name_char l) as [name rest]. cbn in Hl.
  destruct rest as [|c rest]; [intros [= _ <-]; by exists l; rewrite app_nil_r|]. destruct (ceq c LB).
  - destruct (split_brace rest) as [[g r']|] eqn:Es; cbn; [|done]. intros [= _ <-]. apply split_brace_split in Es as ->.
    exists (name ++ c :: g ++ [RB]). rewrite Hl, <- (assoc_L (++)). cbn. by rewrite <- (assoc_L (++)).
  - intros [= _ <-]. by exists name.
Qed.

Lemma flush_spec x : flush x = Ok tt (mkInit (in_vec x ++ text (in_nstr x)) [] (in_error x)).
Proof. unfold flush. mred. destruct x as [v [|c n] e]; cbn; [by rewrite app_nil_r|done]. Qed.

Lemma init_loop_spec fuel l pre x :
  pattern = pre ++ l → (length l < fuel)%nat →
  ∃ n, (init_loop pattern fuel (length pre);; flush) x
    = Ok tt (mkInit (in_vec x ++ (parse fuel l (in_nstr x)).1) n (in_error x || (parse fuel l (in_nstr x)).2)).
Proof.
  revert l pre x. induction fuel as [|fuel IH]; intros l pre x Hp Hf; [lia|]. cbn [init_loop parse].
  destruct l as [|c l].
  { rewrite (proj2 (Nat.ltb_ge _ _)) by (rewrite Hp, app_nil_r; lia). cbn [negb]. eexists.
    rewrite (bind_ok _ _ x tt x), flush_spec by done. cbn. by rewrite orb_false_r. }
  rewrite (proj2 (Nat.ltb_lt _ _)) by (rewrite Hp, length_app; cbn; lia). cbn [negb].
  rewrite bind_assoc, (bind_ok _ _ _ _ _ (char_at_app _ _ _ x Hp)). assert (∀ d, length pre + 1 = length (pre ++ [d]))%nat as Hlen by (intros; by rewrite length_app).
  destruct (ceq c PC) eqn:Epc; cbn [negb].
  2: { rewrite bind_assoc, (bind_ok _ _ x tt (mkInit (in_vec x) (in_nstr x ++ [c]) (in_error x))) by done.
    rewrite (Hlen c). apply (IH l (pre ++ [c])); [by rewrite Hp, <- (assoc_L (++))|cbn in Hf; lia]. }
  apply ceq_eq in Epc as ->. set (twice := match l with c2 :: _ => ceq c2 PC | [] => false end).
  assert ((if (length pre + 1 <? length pattern)%nat then c' ← char_at pattern (length pre + 1); mret (ceq c' PC) else mret false) x = Ok twice x) as Et.
  { destruct l as [|c2 l].
    - rewrite (proj2 (Nat.ltb_ge _ _)) by (rewrite Hp, length_app; cbn; lia). done.
    - rewrite (proj2 (Nat.ltb_lt _ _)) by (rewrite Hp, length_app; cbn; lia).
      rewrite (Hlen PC), (bind_ok _ _ x c2 x); [done|]. apply (char_at_app (pre ++ [PC]) c2 l). by rewrite Hp, <- (assoc_L (++)). }
  rewrite bind_assoc, (bind_ok _ _ _ _ _ Et). destruct twice eqn:Etw.
  { destruct l as [|c2 l]; [done|]. unfold twice in Etw. apply ceq_eq in Etw as ->. cbn [tail].
    rewrite bind_assoc, (bind_ok _ _ x tt (mkInit (in_vec x) (in_nstr x ++ [PC]) (in_error x))) by done.
    assert (length pre + 2 = length (pre ++ [PC; PC]))%nat as -> by (by rewrite length_app).
    apply (IH l (pre ++ [PC; PC])); [by rewrite Hp, <- (assoc_L (++))|cbn in Hf; lia]. }
  pose proof (scan_name l [] pre (S (length pattern)) x Hp eq_refl) as Hs. rewrite Nat.add_0_r in Hs. cbn [app] in Hs.
  assert ((match l with [] => [] | _ :: _ => [] end : str) = []) as El by (by destruct l). rewrite El in Hs. rewrite bind_assoc.
  destruct (item l) as [[e r]|] eqn:Ei.
  - destruct Hs as [Es Hty]; [rewrite Hp, length_app; cbn; lia|]. rewrite (bind_ok _ _ _ _ _ Es). cbv beta iota.
    destruct (item_split _ _ _ Ei) as [m Hm].
    assert (length pattern - length r = length (pre ++ PC :: m))%nat as ->.
    { rewrite Hp, Hm, !length_app. cbn. rewrite length_app. lia. }
    rewrite bind_assoc, (bind_ok _ _ _ _ _ (flush_spec x)). rewrite bind_assoc.
    rewrite (bind_ok _ _ _ tt (mkInit ((in_vec x ++ text (in_nstr x)) ++ [e]) [] (in_error x))) by (by destruct e; cbn in Hty; subst).
    destruct (IH r (pre ++ PC :: m) (mkInit ((in_vec x ++ text (in_nstr x)) ++ [e]) [] (in_error x))) as [n En].
    { by rewrite Hp, Hm, <- (assoc_L (++)). }
    { cbn in Hf. rewrite Hm, length_app in Hf. lia. }
    exists n. rewrite En. cbn. destruct (parse fuel r []) as [es err]. cbn. by rewrite <- !(assoc_L (++)).
  - destruct Hs as (s' & n & Es); [rewrite Hp, length_app; cbn; lia|]. rewrite (bind_ok _ _ _ _ _ Es). cbv beta iota.
    rewrite bind_assoc, (bind_ok _ _ x tt (mkInit (in_vec x) (in_nstr x) true)) by done. rewrite bind_assoc.
    rewrite (bind_ok _ _ _ tt (mkInit (in_vec x ++ [mkEntry pattern_error [] 0]) (in_nstr x) true)) by done.
    destruct (IH l (pre ++ [PC]) (mkInit (in_vec x ++ [mkEntry pattern_error [] 0]) (in_nstr x) true)) as [n' En].
    { by rewrite Hp, <- (assoc_L (++)). }
    { cbn in Hf. lia. }
    exists n'. rewrite (Hlen PC), En. cbn. destruct (parse fuel l (in_nstr x)) as [es err]. cbn. by rewrite orb_true_r, <- (assoc_L (++)).
Qed.
End Loops.

Lemma init_vec_grammar pattern : ∃ x, init_vec pattern = Ok (grammar pattern) x.
Proof.
  destruct (init_loop_spec pattern (S (length pattern)) pattern [] (mkInit [] [] false)) as [n E]; [done|lia|].
  exists (mkInit (grammar pattern).1 n (grammar pattern).2). unfold init_vec. rewrite <- bind_assoc.
  change (length []) with 0%nat in E. rewrite (bind_ok _ _ _ _ _ E). unfold grammar. mred.
  cbn -[parse]. by rewrite <- surjective_pairing.
Qed.

(** C23: The constructor of LogFormatter implements the grammar of patterns: for
    every pattern its index loops end, no substr is out of range, and the entries
    and the error flag are those that the grammar gives for the text. *)
Theorem init_is_grammar pattern : ∃ x, init_vec pattern = Ok (grammar pattern) x.
Proof. apply init_vec_grammar. Qed.

(** ** Printing *)

(** A text in a pattern: percent signs are doubled. *)
Definition print_text (s : str) : str := s ≫= λ c, if ceq c PC then [PC; PC] else [c].

(** The letter of an item and its format. *)
Definition letter (it : FormatItem) : ascii * str :=
  match it with
  | MessageFormatItem => ("m", []) | LevelFormatItem => ("p", []) | ElapseFormatItem => ("r", []) | NameFormatItem => ("c", [])
  | ThreadIdFormatItem => ("t", []) | NewLineFormatItem => ("n", []) | DateTimeFormatItem f => ("d", f)
  | FileNameFormatItem => ("f", []) | LineFormatItem => ("l", []) | TabFormatItem => ("T", []) | FiberIdFormatItem => ("F", [])
  | FiberNameFormatItem => ("N", []) | StringFormatItem _ => ("?", [])
  end%char.

(** Braces are needed for a format, and where the name would run on. *)
Definition print_fmt (fmt rest : str) : str :=
  match fmt, rest with
  | [], c :: _ => if name_char c || ceq c LB then [LB; RB] else []
  | [], [] => []
  | _, _ => LB :: fmt ++ [RB]
  end.

Fixpoint print (l : list FormatItem) : str :=
  match l with
  | [] => []
  | StringFormatItem s :: l' => print_text s ++ print l'
  | it :: l' => PC :: (letter it).1 :: print_fmt (letter it).2 (print l') ++ print l'
  end.

(** Texts are not empty and not adjacent; time formats are given and have no
    closing brace. *)
Definition is_text (it : FormatItem) : bool := match it with StringFormatItem _ => true | _ => false end.
Definition item_ok (it : FormatItem) : bool :=
  match it with
  | StringFormatItem s => negb (bool_decide (s = []))
  | DateTimeFormatItem f => negb (bool_decide (f = [])) && forallb (λ c, negb (ceq c RB)) f
  | _ => true
  end.
Fixpoint printable (l : list FormatItem) : bool :=
  match l with
  | [] => true
  | it :: l' => item_ok it && negb (is_text it && match l' with it' :: _ => is_text it' | [] => false end) && printable l'
  end.

Definition entry_of (it : FormatItem) : entry :=
  match it with StringFormatItem s => mkEntry s [] 0 | _ => mkEntry [(letter it).1] (letter it).2 1 end.

Lemma split_brace_app f r : forallb (λ c, negb (ceq c RB)) f = true → split_brace (f ++ RB :: r) = Some (f, r).
Proof.
  induction f as [|c f IH]; cbn; [by rewrite ceq_refl|]. intros [Hc Hf]%andb_true_iff.
  destruct (ceq c RB); [done|]. by rewrite IH.
Qed.

Lemma item_print it rest : is_text it = false → item_ok it = true →
  item ((letter it).1 :: print_fmt (letter it).2 rest ++ rest) = Some (entry_of it, rest).
Proof.
  intros Ht Ho. assert (name_char (letter it).1 = true) as Hn by (by destruct it).
  assert (forallb (λ c, negb (ceq c RB)) (letter it).2 = true) as Hf.
  { destruct it; try done. cbn in *. by apply andb_true_iff in Ho as [_ ?]. }
  assert (entry_of it = mkEntry [(letter it).1] (letter it).2 1) as -> by (by destruct it).
  destruct (letter it) as [c fmt]. cbn in *. unfold item. cbn [span]. rewrite Hn.
  destruct fmt as [|c' fmt].
  - destruct rest as [|c2 rest]; [done|]. cbn [print_fmt]. destruct (name_char c2) eqn:E2; [done|]. cbn [orb].
    destruct (ceq c2 LB) eqn:E3; [done|]. cbn [app span]. rewrite E2. by rewrite E3.
  - cbn [print_fmt app span]. change (name_char LB) with false. cbv iota. change (ceq LB LB) with true. cbv iota.
    rewrite <- (assoc_L (++)). cbn [app].
    change (c' :: fmt ++ RB :: rest) with ((c' :: fmt) ++ RB :: rest). by rewrite split_brace_app.
Qed.

Lemma parse_text s rest fuel nstr : (length (print_text s) + length rest < fuel)%nat →
  ∃ fuel', (length rest < fuel')%nat ∧ parse fuel (print_text s ++ rest) nstr = parse fuel' rest (nstr ++ s).
Proof.
  revert fuel nstr. induction s as [|c s IH]; intros fuel nstr Hf; [exists fuel; cbn in *; rewrite app_nil_r; split; [lia|done]|].
  change (print_text (c :: s)) with ((if ceq c PC then [PC; PC] else [c]) ++ print_text s) in *.
  destruct fuel as [|fuel]; [lia|]. rewrite length_app in Hf.
  destruct (IH fuel (nstr ++ [c])) as (fuel' & H1 & H2); [destruct (ceq c PC); cbn in Hf; lia|].
  exists fuel'. split; [done|]. rewrite <- (assoc_L (++)) in H2. cbn in H2. rewrite <- H2.
  destruct (ceq c PC) eqn:E; cbn; [apply ceq_eq in E as ->; rewrite ceq_refl|rewrite E]; done.
Qed.

Lemma parse_nil fuel nstr : (0 < fuel)%nat → parse fuel [] nstr = (text nstr, false).
Proof. by destruct fuel; [lia|]. Qed.

Lemma parse_print l fuel nstr :
  printable l = true → (length (print l) < fuel)%nat →
  nstr = [] ∨ match l with it :: _ => is_text it | [] => false end = false →
  parse fuel (print l) nstr = (text nstr ++ (entry_of <$> l), false).
Proof.
  revert fuel nstr. induction l as [|it l IH]; intros fuel nstr Hp Hf Hn.
  { cbn in *. rewrite parse_nil, app_nil_r by lia. done. }
  cbn [printable] in Hp. apply andb_true_iff in Hp as [[Ho Ha]%andb_true_iff Hp]. destruct (is_text it) eqn:Ht.
  - destruct Hn as [->|]; [|done]. destruct it; try done. cbn [print] in *. rewrite length_app in Hf.
    destruct (parse_text s (print l) fuel [] Hf) as (fuel' & Hf' & ->). cbn [app].
    rewrite (IH fuel' s Hp Hf') by (right; destruct l as [|it' l]; [done|by cbn in Ha; destruct (is_text it')]).
    cbn in Ho. cbn [app text fmap list_fmap entry_of]. by destruct s.
  - assert (print (it :: l) = PC :: (letter it).1 :: print_fmt (letter it).2 (print l) ++ print l) as Epr by (by destruct it).
    rewrite Epr in *. destruct fuel as [|fuel]; [lia|]. cbn [parse]. rewrite ceq_refl. cbn [negb].
    assert (ceq (letter it).1 PC = false) as -> by (by destruct it). rewrite item_print by done.
    cbn [length] in Hf. rewrite length_app in Hf. rewrite (IH fuel [] Hp) by (lia || by left). done.
Qed.

Lemma item_of_entry l : printable l = true → item_of <$> (entry_of <$> l) = (λ it, (it, false)) <$> l.
Proof.
  induction l as [|it l IH]; [done|]. cbn [printable]. intros [[Ho _]%andb_true_iff Hp]%andb_true_iff. cbn. f_equal; [|by apply IH].
  destruct it; try done. unfold item_of. cbn in *. unfold date_item. by destruct format.
Qed.

(** A pattern that is printed from a list of items is read back: the
    constructor finds exactly these items, in order, and no error, whatever
    percent signs and braces the texts contain. *)
Theorem pattern_roundtrip l :
  printable l = true → ∃ x, LogFormatter_new (print l) = Ok (mkFormatter (print l) l false) x.
Proof.
  intros Hp. destruct (init_vec_grammar (print l)) as [x E]. exists x. unfold LogFormatter_new. rewrite E. unfold grammar.
  rewrite (parse_print _ _ _ Hp) by (lia || by left). cbn [text app]. rewrite item_of_entry by done.
  assert (((λ it : FormatItem, (it, false)) <$> l).*1 = l) as -> by (clear; induction l; cbn; congruence).
  assert (existsb snd ((λ it : FormatItem, (it, false)) <$> l) = false) as -> by (clear; by induction l). done.
Qed.

Lemma pattern_roundtrip_witness :
  let l := [StringFormatItem (L "100%"); date_item default_time; MessageFormatItem; StringFormatItem (L "{a}")] in
  print l = L "100%%%d{%Y-%m-%d %H:%M:%S}%m{}{a}" ∧ ∃ x, LogFormatter_new (print l) = Ok (mkFormatter (print l) l false) x.
Proof. split; [by vm_compute|]. apply pattern_roundtrip. by vm_compute. Defined.

Example default_prints :
  print [date_item default_time; TabFormatItem; ThreadIdFormatItem; TabFormatItem; FiberNameFormatItem; TabFormatItem; FiberIdFormatItem;
     TabFormatItem; StringFormatItem (L "["); LevelFormatItem; StringFormatItem (L "]"); TabFormatItem; StringFormatItem (L "[");
     NameFormatItem; StringFormatItem (L "]"); TabFormatItem; FileNameFormatItem; StringFormatItem (L ":"); LineFormatItem;
     TabFormatItem; MessageFormatItem; NewLineFormatItem] = default_pattern.
Proof. by vm_compute. Qed.
