(* ===== verification/Logger.v ===== *)
(** Loggers, appenders, the logger manager and the listener that configures them
    (skt/log/log.h, skt/log/log.cpp).

    Loggers and appenders are shared objects and live in heaps; formatters do
    not change after their construction and are values. An ofstream is its two
    flags, what is written through it goes to the file. time(0) is an argument.
    Of the console only the log output is kept, not the diagnostics. *)

From stdpp Require Import base list strings gmap.
From Stdlib Require Import Ascii Lia.
From S2P Require Import Prelude StdOrdered CString LogFormat.

(** ** Objects *)

(** A std::ofstream: is_open, and the fail flag. *)
Record ofstream : Type := mkStream { fs_open : bool; fs_fail : bool }.

Inductive sink : Type :=
| StdoutLogAppender
| FileLogAppender (m_filename : str) (m_filestream : ofstream) (m_lastTime : Z).

Record LogAppender : Type := mkAppender {
  ap_sink : sink;
  ap_level : Level;
  ap_hasFormatter : bool;
  ap_formatter : option LogFormatter
}.

Record Logger : Type := mkLogger {
  lg_name : str;
  lg_level : Level;
  lg_appenders : list nat;
  lg_formatter : option LogFormatter;
  lg_root : option nat
}.

(** All loggers and appenders, the LoggerManager, and the output. *)
Record Logs : Type := mkLogs {
  loggers : gmap nat Logger;
  appenders : gmap nat LogAppender;
  m_loggers : list (str * nat);
  m_root : nat;
  console : str;
  files : gmap str str
}.

Definition set_loggers h s : Logs := mkLogs h (appenders s) (m_loggers s) (m_root s) (console s) (files s).
Definition set_appenders h s : Logs := mkLogs (loggers s) h (m_loggers s) (m_root s) (console s) (files s).
Definition set_names m s : Logs := mkLogs (loggers s) (appenders s) m (m_root s) (console s) (files s).
Definition set_console c s : Logs := mkLogs (loggers s) (appenders s) (m_loggers s) (m_root s) c (files s).
Definition set_files f s : Logs := mkLogs (loggers s) (appenders s) (m_loggers s) (m_root s) (console s) f.

Definition with_level v g : Logger := mkLogger (lg_name g) v (lg_appenders g) (lg_formatter g) (lg_root g).
Definition with_appenders l g : Logger := mkLogger (lg_name g) (lg_level g) l (lg_formatter g) (lg_root g).
Definition with_formatter f g : Logger := mkLogger (lg_name g) (lg_level g) (lg_appenders g) f (lg_root g).

(** LogLevel::Level's operator<= *)
Definition level_le (a b : Level) : bool := level_value a <=? level_value b.

Section Logging.
Abbreviation logs := (M Logs).
(** The text of strftime, and whether opening a file and writing to it succeeds
    at a time. *)
Context (strftime : str → Z → option str).
Context (can_open can_write : str → Z → bool).

Definition logger_at (l : nat) : logs Logger := s ← mget; mderef NullDeref (loggers s !! l).
Definition appender_at (a : nat) : logs LogAppender := s ← mget; mderef NullDeref (appenders s !! a).
Definition put_logger (l : nat) (g : Logger) : logs unit := mmodify (λ s, set_loggers (<[l := g]> (loggers s)) s).
Definition put_appender (a : nat) (x : LogAppender) : logs unit := mmodify (λ s, set_appenders (<[a := x]> (appenders s)) s).
Definition new_logger (g : Logger) : logs nat :=
  s ← mget; let l := fresh (dom (loggers s)) in put_logger l g;; mret l.
Definition new_appender (x : LogAppender) : logs nat :=
  s ← mget; let a := fresh (dom (appenders s)) in put_appender a x;; mret a.

(** ** LogAppender *)

(** LogAppender::setFormatter and setLevel *)
Definition appender_setFormatter (a : nat) (val : option LogFormatter) : logs unit :=
  x ← appender_at a;
  put_appender a (mkAppender (ap_sink x) (ap_level x) (match val with Some _ => true | None => false end) val).
Definition appender_setLevel (a : nat) (v : Level) : logs unit :=
  x ← appender_at a; put_appender a (mkAppender (ap_sink x) v (ap_hasFormatter x) (ap_formatter x)).

(** ofstream::close and open: closing a stream that is not open is an error, and
    so is opening one that is open; a successful open clears the flag. *)
Definition stream_close (f : ofstream) : ofstream := if fs_open f then mkStream false (fs_fail f) else mkStream false true.
Definition stream_open (name : str) (now : Z) (f : ofstream) : ofstream :=
  if fs_open f then mkStream true true
  else if can_open name now then mkStream true false else mkStream false true.
(** FileLogAppender::reopen *)
Definition reopen (name : str) (now : Z) (f : ofstream) : ofstream :=
  stream_open name now (if negb (fs_fail f) then stream_close f else f).

(** The constructors; m_lastTime is not initialised, [junk] is what it holds. *)
Definition Stdout_new : LogAppender := mkAppender StdoutLogAppender DEBUG false None.
Definition File_new (junk : Z) (filename : str) (now : Z) : LogAppender :=
  mkAppender (FileLogAppender filename (reopen filename now (mkStream false false)) junk) DEBUG false None.

(** m_formatter->format(logger, level, event) *)
Definition formatted (x : LogAppender) (level : Level) (ev : LogEvent) : logs str :=
  f ← mderef NullDeref (ap_formatter x);
  mderef Indeterminate (format strftime f level ev).

(** StdoutLogAppender::log, FileLogAppender::log *)
Definition appender_log (now : Z) (level : Level) (ev : LogEvent) (a : nat) : logs unit :=
  x ← appender_at a;
  if negb (level_le (ap_level x) level) then mret tt
  else
    match ap_sink x with
    | StdoutLogAppender => t ← formatted x level ev; mmodify (λ s, set_console (console s ++ t) s)
    | FileLogAppender name st last =>
      let '(st, last) := if negb (now =? last) then (reopen name now st, now) else (st, last) in
      t ← formatted x level ev;
      let ok := negb (fs_fail st) && can_write name now in
      let st' := if ok then st else mkStream (fs_open st) true in
      put_appender a (mkAppender (FileLogAppender name st' last) (ap_level x) (ap_hasFormatter x) (ap_formatter x));;
      if ok then mmodify (λ s, set_files (<[name := default [] (files s !! name) ++ t]> (files s)) s) else mret tt
    end.

Fixpoint each_appender (f : nat → logs unit) (l : list nat) : logs unit :=
  match l with [] => mret tt | a :: l' => f a;; each_appender f l' end.

(** ** Logger *)

(** new LogFormatter(pattern) *)
Definition new_formatter (pattern : str) : logs LogFormatter := λ s,
  match LogFormatter_new pattern with
  | Ok f _ => Ok f s
  | Exc e _ => Exc e s
  | Stop u => Stop u
  | NoFuel => NoFuel
  end.

(** Logger::Logger *)
Definition Logger_new (name : str) : logs nat :=
  f ← new_formatter default_pattern; new_logger (mkLogger name DEBUG [] (Some f) None).

Definition addAppender (l a : nat) : logs unit :=
  g ← logger_at l;
  x ← appender_at a;
  (match ap_formatter x with
   | None => put_appender a (mkAppender (ap_sink x) (ap_level x) (ap_hasFormatter x) (lg_formatter g))
   | Some _ => mret tt
   end);;
  put_logger l (with_appenders (lg_appenders g ++ [a]) g).

Fixpoint remove_first (a : nat) (l : list nat) : list nat :=
  match l with [] => [] | b :: l' => if Nat.eqb b a then l' else b :: remove_first a l' end.
Definition delAppender (l a : nat) : logs unit :=
  g ← logger_at l; put_logger l (with_appenders (remove_first a (lg_appenders g)) g).
Definition clearAppenders (l : nat) : logs unit := g ← logger_at l; put_logger l (with_appenders [] g).
Definition setLevel (l : nat) (v : Level) : logs unit := g ← logger_at l; put_logger l (with_level v g).

(** Logger::setFormatter(val): the appenders without a formatter of their own
    follow. *)
Definition follow_formatter (val : option LogFormatter) (a : nat) : logs unit :=
  x ← appender_at a;
  if negb (ap_hasFormatter x) then put_appender a (mkAppender (ap_sink x) (ap_level x) (ap_hasFormatter x) val) else mret tt.
Definition setFormatter (l : nat) (val : option LogFormatter) : logs unit :=
  g ← logger_at l;
  put_logger l (with_formatter val g);;
  each_appender (follow_formatter val) (lg_appenders g).
(** Logger::setFormatter(string) *)
Definition setFormatter_str (l : nat) (val : str) : logs unit :=
  new_val ← new_formatter val;
  if m_error new_val then mret tt else setFormatter l (Some new_val).

(** Logger::log; [fuel] bounds the chain of m_root. *)
Fixpoint log (fuel : nat) (now : Z) (l : nat) (level : Level) (ev : LogEvent) : logs unit :=
  match fuel with
  | O => mnofuel
  | S fuel' =>
    g ← logger_at l;
    if negb (level_le (lg_level g) level) then mret tt
    else match lg_appenders g with
         | [] => match lg_root g with Some r => log fuel' now r level ev | None => mret tt end
         | aps => each_appender (appender_log now level ev) aps
         end
  end.

(** SKT_LOG_LEVEL: the event is made when the level is enough, and logged by the
    destructor of LogEventWrap. [make_event] fills in file, line, thread, fiber
    and time. *)
Definition log_macro (make_event : str → Level → str → LogEvent) (now : Z) (l : nat) (level : Level) (content : str) : logs unit :=
  g ← logger_at l;
  if level_le (lg_level g) level
  then let ev := make_event (lg_name g) level content in log 2 now l (ev_level ev) ev
  else mret tt.

(** ** LoggerManager *)

(** LoggerManager::LoggerManager *)
Definition LoggerManager_init : logs unit :=
  r ← Logger_new (L "root");
  a ← new_appender Stdout_new;
  addAppender r a;;
  mmodify (λ s, mkLogs (loggers s) (appenders s) (map_assign string_lt (L "root") r (m_loggers s)) r (console s) (files s)).
Definition LoggerManager_new : result Logs unit := LoggerManager_init (mkLogs ∅ ∅ [] 0 [] ∅).

Definition getLogger (name : str) : logs nat :=
  s ← mget;
  match map_find string_lt name (m_loggers s) with
  | Some l => mret l
  | None =>
    l ← Logger_new name;
    g ← logger_at l;
    put_logger l (mkLogger (lg_name g) (lg_level g) (lg_appenders g) (lg_formatter g) (Some (m_root s)));;
    mmodify (λ s, set_names (map_assign string_lt name l (m_loggers s)) s);;
    mret l
  end.

(** ** Configuration *)

Record LogAppenderDefine : Type := mkAppenderDefine { ad_type : Z; ad_level : Level; ad_formatter : str; ad_file : str }.
Record LogDefine : Type := mkDefine { ld_name : str; ld_level : Level; ld_formatter : str; ld_appenders : list LogAppenderDefine }.

#[global] Instance Level_eq_dec : EqDecision Level.
Proof. solve_decision. Defined.
#[global] Instance LogAppenderDefine_eq_dec : EqDecision LogAppenderDefine.
Proof. solve_decision. Defined.

(** LogDefine::operator== compares the appenders of the left side with
    themselves. *)
Definition define_eqb (a b : LogDefine) : bool :=
  bool_decide (ld_name a = ld_name b) && bool_decide (ld_level a = ld_level b) && bool_decide (ld_formatter a = ld_formatter b)
  && bool_decide (ld_appenders a = ld_appenders a).
Definition define_lt (a b : LogDefine) : bool := string_lt (ld_name a) (ld_name b).

(** std::set<LogDefine>::find *)
Definition define_find (d : LogDefine) (l : list LogDefine) : option LogDefine :=
  match (lower_split define_lt id d l).2 with x :: _ => if define_lt d x then None else Some x | [] => None end.

Section Listener.
Context (make_event : str → Level → str → LogEvent) (junk now : Z).

(** The body of the loop over the appenders of a definition. *)
Definition add_defined (l : nat) (d : LogAppenderDefine) : logs unit :=
  match (if ad_type d =? 1 then Some (File_new junk (ad_file d) now) else if ad_type d =? 2 then Some Stdout_new else None) with
  | None => mret tt
  | Some x =>
    a ← new_appender x;
    appender_setLevel a (ad_level d);;
    (match ad_formatter d with
     | [] => mret tt
     | p => fmt ← new_formatter p; if negb (m_error fmt) then appender_setFormatter a (Some fmt) else mret tt
     end);;
    addAppender l a
  end.
Fixpoint add_all_defined (l : nat) (ds : list LogAppenderDefine) : logs unit :=
  match ds with [] => mret tt | d :: ds' => add_defined l d;; add_all_defined l ds' end.

(** A definition that is new or has changed. *)
Definition apply_define (d : LogDefine) : logs unit :=
  l ← getLogger (ld_name d);
  setLevel l (ld_level d);;
  (match ld_formatter d with [] => mret tt | p => setFormatter_str l p end);;
  clearAppenders l;;
  add_all_defined l (ld_appenders d).

Fixpoint apply_new (old new : list LogDefine) : logs unit :=
  match new with
  | [] => mret tt
  | d :: new' =>
    (match define_find d old with
     | None => apply_define d
     | Some d' => if negb (define_eqb d d') then apply_define d else mret tt
     end);;
    apply_new old new'
  end.

(** A definition that is gone. *)
Definition remove_define (d : LogDefine) : logs unit :=
  l ← getLogger (ld_name d); setLevel l (OtherLevel 100);; clearAppenders l.
Fixpoint remove_old (new old : list LogDefine) : logs unit :=
  match old with
  | [] => mret tt
  | d :: old' => (match define_find d new with None => remove_define d | Some _ => mret tt end);; remove_old new old'
  end.

(** The listener of LogIniter. *)
Definition on_logger_conf_changed (old new : list LogDefine) : logs unit :=
  s ← mget;
  log_macro make_event now (m_root s) INFO (L "on_logger_conf_changed");;
  apply_new old new;;
  remove_old new old.
End Listener.
End Logging.

(** A definition whose appenders have changed counts as unchanged. *)
Lemma changed_appenders_unnoticed :
  let d := mkDefine (L "root") INFO [] [] in
  let d' := mkDefine (L "root") INFO [] [mkAppenderDefine 1 INFO [] (L "log.txt")] in
  ∀ can_open junk now s, apply_new can_open junk now [d] [d'] s = Ok tt s ∧ d' ≠ d.
Proof. by intros. Qed.

(** After a write error the stream stays open and failed: reopen neither closes
    it nor can open it again. *)
Lemma failed_stream_stays can_open name now : reopen can_open name now (mkStream true true) = mkStream true true.
Proof. done. Qed.
