(* ===== verification/LoggerProps.v ===== *)
(** Properties of loggers: no sequence of calls fails, an event reaches exactly
    the appenders it should, and the listener gives every logger the
    configuration of its definition. *)

From stdpp Require Import base list strings gmap.
From Stdlib Require Import Ascii Lia.
From S2P Require Import Prelude StdOrdered CString LogFormat LogFormatProps Logger.

Section Props.
Context (strftime : str → Z → option str) (can_open can_write : str → Z → bool).
Implicit Types s : Logs.

(** ** The invariant *)

(** Every time format of [f] fits into the buffer. *)
Definition good (f : LogFormatter) : Prop := ∀ level ev, is_Some (format strftime f level ev).
Definition fmt_ok (o : option LogFormatter) : Prop := ∃ f, o = Some f ∧ good f.
Definition all_io : Prop := ∀ name t, can_open name t = true ∧ can_write name t = true.

Record logs_ok s : Prop := {
  lo_order : ordered string_lt fst (m_loggers s);
  lo_names n l : map_find string_lt n (m_loggers s) = Some l ↔ ∃ g, loggers s !! l = Some g ∧ lg_name g = n;
  lo_root : ∃ g, loggers s !! m_root s = Some g;
  lo_chain l g : loggers s !! l = Some g → lg_root g = if decide (l = m_root s) then None else Some (m_root s);
  lo_fmt l g : loggers s !! l = Some g → fmt_ok (lg_formatter g);
  lo_aps l g a : loggers s !! l = Some g → a ∈ lg_appenders g → ∃ x, appenders s !! a = Some x ∧ fmt_ok (ap_formatter x);
  lo_ap a x f : appenders s !! a = Some x → ap_formatter x = Some f → good f;
  lo_stream a x n st t : appenders s !! a = Some x → ap_sink x = FileLogAppender n st t → all_io → st = mkStream true false
}.

(** Single accesses. *)
Lemma logger_at_ok s l g : loggers s !! l = Some g → logger_at l s = Ok g s.
Proof. intros H. unfold logger_at. mred. by rewrite H. Qed.

Lemma appender_at_ok s a x : appenders s !! a = Some x → appender_at a s = Ok x s.
Proof. intros H. unfold appender_at. mred. by rewrite H. Qed.

Definition logger_put l g s : Logs := set_loggers (<[l := g]> (loggers s)) s.
Definition appender_put a x s : Logs := set_appenders (<[a := x]> (appenders s)) s.

Lemma put_logger_eq l g s : put_logger l g s = Ok tt (logger_put l g s).
Proof. done. Qed.

Lemma put_appender_eq a x s : put_appender a x s = Ok tt (appender_put a x s).
Proof. done. Qed.

Lemma logger_put_ok s l g g' :
  logs_ok s → loggers s !! l = Some g → lg_name g' = lg_name g → lg_root g' = lg_root g → fmt_ok (lg_formatter g') →
  (∀ a, a ∈ lg_appenders g' → ∃ x, appenders s !! a = Some x ∧ fmt_ok (ap_formatter x)) → logs_ok (logger_put l g' s).
Proof.
  intros Hs Hl Hn Hr Hf Ha. split; cbn.
  - apply Hs.
  - intros n k. rewrite (lo_names s Hs). split; intros (h & Hh & <-).
    + destruct (decide (k = l)) as [->|Hne]; [exists g'; rewrite lookup_insert_eq; split; [done|]; congruence|].
      exists h. by rewrite lookup_insert_ne.
    + apply lookup_insert_Some in Hh as [[<- <-]|[_ Hh]]; [by exists g|by exists h].
  - destruct (lo_root s Hs) as [h Hh]. destruct (decide (m_root s = l)) as [->|Hne]; [by exists g'; rewrite lookup_insert_eq|].
    exists h. by rewrite lookup_insert_ne.
  - intros k h [[<- <-]|[_ Hh]]%lookup_insert_Some; [rewrite Hr; by apply (lo_chain s Hs)|by apply (lo_chain s Hs)].
  - intros k h [[<- <-]|[_ Hh]]%lookup_insert_Some; [done|by eapply (lo_fmt s Hs)].
  - intros k h a [[<- <-]|[_ Hh]]%lookup_insert_Some; [apply Ha|by apply (lo_aps s Hs k h)].
  - apply Hs.
  - apply Hs.
Qed.

Definition ap_ok (x : LogAppender) : Prop :=
  (∀ f, ap_formatter x = Some f → good f) ∧
  ∀ n st t, ap_sink x = FileLogAppender n st t → all_io → st = mkStream true false.

Lemma appender_put_ok s a x :
  logs_ok s → ap_ok x → (∀ l g, loggers s !! l = Some g → a ∈ lg_appenders g → fmt_ok (ap_formatter x)) → logs_ok (appender_put a x s).
Proof.
  intros Hs [Hx Hst] Hu. split; cbn; try apply Hs.
  - intros l g b Hl Hb. destruct (decide (b = a)) as [->|Hne].
    + rewrite lookup_insert_eq. exists x. split; [done|]. by eapply Hu.
    + rewrite lookup_insert_ne by done. by eapply (lo_aps s Hs).
  - intros b y f [[<- <-]|[_ Hb]]%lookup_insert_Some Hf; [by apply Hx|by eapply (lo_ap s Hs)].
  - intros b y n st t [[<- <-]|[_ Hb]]%lookup_insert_Some; [apply Hst|by apply (lo_stream s Hs b)].
Qed.

Lemma ap_ok_at s a x : logs_ok s → appenders s !! a = Some x → ap_ok x.
Proof. intros Hs Ha. split; [intros f; by apply (lo_ap s Hs a)|intros n st t; by apply (lo_stream s Hs a)]. Qed.

(** An appender stays as good as it was. *)
Lemma appender_put_same s a x x' :
  logs_ok s → appenders s !! a = Some x → (fmt_ok (ap_formatter x) → fmt_ok (ap_formatter x')) → ap_ok x' →
  logs_ok (appender_put a x' s).
Proof.
  intros Hs Ha Hf Hx. apply appender_put_ok; [done..|]. intros l g Hl Hin. apply Hf.
  destruct (lo_aps s Hs l g a Hl Hin) as (y & Hy & Hok). congruence.
Qed.

Lemma fmt_ok_Some f : good f → fmt_ok (Some f).
Proof. intros H. by exists f. Qed.

Create HintDb logs.
Hint Resolve logger_at_ok appender_at_ok fmt_ok_Some ap_ok_at : logs.

(** [at_step H]: the access whose lookup is [H]. *)
Ltac at_step H := first [rewrite (bind_ok _ _ _ _ _ (logger_at_ok _ _ _ H)) | rewrite (bind_ok _ _ _ _ _ (appender_at_ok _ _ _ H))].
Ltac put_step := first [rewrite (bind_ok _ _ _ _ _ (put_logger_eq _ _ _)) | rewrite (bind_ok _ _ _ _ _ (put_appender_eq _ _ _))].

(** The operations that only look at one object. *)
Lemma appender_setFormatter_ok s a x f :
  logs_ok s → appenders s !! a = Some x → good f →
  ∃ s', ⟨ appender_setFormatter a (Some f), s ⟩ ⇓ ⟨ tt, s' ⟩ ∧ logs_ok s'.
Proof.
  intros Hs Ha Hf. unfold appender_setFormatter. at_step Ha. eexists. split; [apply put_appender_eq|].
  eapply appender_put_same; [done|done|intros _; by apply fmt_ok_Some|]. split; cbn; [by intros ? [= <-]|by eapply ap_ok_at].
Qed.

(** Without a formatter, as long as no logger has the appender. *)
Lemma appender_setFormatter_null s a x :
  logs_ok s → appenders s !! a = Some x → (∀ l g, loggers s !! l = Some g → a ∉ lg_appenders g) →
  ∃ s', ⟨ appender_setFormatter a None, s ⟩ ⇓ ⟨ tt, s' ⟩ ∧ logs_ok s'.
Proof.
  intros Hs Ha Hn. unfold appender_setFormatter. at_step Ha. eexists. split; [apply put_appender_eq|].
  apply appender_put_ok; [done| |intros l g Hl Hin; by destruct (Hn l g Hl)]. split; cbn; [done|by eapply ap_ok_at].
Qed.

Lemma appender_setLevel_ok s a x v :
  logs_ok s → appenders s !! a = Some x → ∃ s', ⟨ appender_setLevel a v, s ⟩ ⇓ ⟨ tt, s' ⟩ ∧ logs_ok s'.
Proof.
  intros Hs Ha. unfold appender_setLevel. at_step Ha. eexists. split; [apply put_appender_eq|].
  eapply appender_put_same; [done|done|done|]. exact (ap_ok_at s a x Hs Ha).
Qed.

Lemma setLevel_ok s l g v : logs_ok s → loggers s !! l = Some g → ∃ s', ⟨ setLevel l v, s ⟩ ⇓ ⟨ tt, s' ⟩ ∧ logs_ok s'.
Proof.
  intros Hs Hl. unfold setLevel. at_step Hl. eexists. split; [apply put_logger_eq|].
  eapply logger_put_ok; [done..|exact (lo_fmt s Hs l g Hl)|]. intros a. exact (lo_aps s Hs l g a Hl).
Qed.

Lemma remove_first_in a b l : b ∈ remove_first a l → b ∈ l.
Proof. induction l as [|c l IH]; cbn; [done|]. destruct (Nat.eqb c a); set_solver. Qed.

Lemma delAppender_ok s l g a : logs_ok s → loggers s !! l = Some g → ∃ s', ⟨ delAppender l a, s ⟩ ⇓ ⟨ tt, s' ⟩ ∧ logs_ok s'.
Proof.
  intros Hs Hl. unfold delAppender. at_step Hl. eexists. split; [apply put_logger_eq|].
  eapply logger_put_ok; [done..|exact (lo_fmt s Hs l g Hl)|]. intros b Hb%remove_first_in. by apply (lo_aps s Hs l g).
Qed.

Lemma clearAppenders_ok s l g : logs_ok s → loggers s !! l = Some g → ∃ s', ⟨ clearAppenders l, s ⟩ ⇓ ⟨ tt, s' ⟩ ∧ logs_ok s'.
Proof.
  intros Hs Hl. unfold clearAppenders. at_step Hl. eexists. split; [apply put_logger_eq|].
  eapply logger_put_ok; [done..|exact (lo_fmt s Hs l g Hl)|]. set_solver.
Qed.

Lemma addAppender_ok s l g a x :
  logs_ok s → loggers s !! l = Some g → appenders s !! a = Some x → ∃ s', ⟨ addAppender l a, s ⟩ ⇓ ⟨ tt, s' ⟩ ∧ logs_ok s'.
Proof.
  intros Hs Hl Ha. unfold addAppender. at_step Hl. at_step Ha. pose proof (lo_fmt s Hs l g Hl) as Hf.
  assert (∀ s1, logs_ok s1 → loggers s1 !! l = Some g → (∃ y, appenders s1 !! a = Some y ∧ fmt_ok (ap_formatter y)) →
    logs_ok (logger_put l (with_appenders (lg_appenders g ++ [a]) g) s1)) as Hadd.
  { intros s1 H1 H2 H3. eapply logger_put_ok; [done..|]. cbn. intros b [Hb| ->%list_elem_of_singleton]%elem_of_app; [|done].
    by apply (lo_aps s1 H1 l g). }
  destruct (ap_formatter x) as [f|] eqn:Ef; eexists.
  - split; [reflexivity|]. apply Hadd; [done..|]. exists x. split; [done|]. rewrite Ef. exists f. split; [done|]. by eapply (lo_ap s Hs).
  - split; [put_step; reflexivity|]. apply Hadd; [|done|eexists; cbn; by rewrite lookup_insert_eq].
    eapply appender_put_same; [done|done|done|]. split; cbn; [|by eapply ap_ok_at].
    destruct Hf as (f' & -> & Hg). by intros f [= <-].
Qed.

(** The formatter of a pattern. *)
Definition formatter_of (pattern : str) : LogFormatter :=
  let items := item_of <$> (grammar pattern).1 in
  mkFormatter pattern (items.*1) ((grammar pattern).2 || existsb snd items).

Lemma new_formatter_eq p s : new_formatter p s = Ok (formatter_of p) s.
Proof.
  unfold new_formatter, LogFormatter_new, formatter_of. destruct (init_vec_grammar p) as [x ->].
  by destruct (grammar p) as [vec err].
Qed.

Lemma each_ok (P : Logs → Prop) f l s :
  P s → (∀ a s1, a ∈ l → P s1 → ∃ s', ⟨ f a, s1 ⟩ ⇓ ⟨ tt, s' ⟩ ∧ P s') → ∃ s', ⟨ each_appender f l, s ⟩ ⇓ ⟨ tt, s' ⟩ ∧ P s'.
Proof.
  revert s. induction l as [|a l IH]; intros s Hs H; [by exists s|]. cbn [each_appender].
  destruct (H a s) as (s1 & E & H1); [set_solver|done|]. rewrite (bind_ok _ _ _ _ _ E). apply IH; [done|]. intros b s2 Hb. apply H. set_solver.
Qed.

(** The loggers and the output stay, and only the appenders of [l] change. *)
Definition within (l : list nat) s s' : Prop :=
  loggers s' = loggers s ∧ m_loggers s' = m_loggers s ∧ m_root s' = m_root s ∧ console s' = console s ∧ files s' = files s ∧
  ∀ a, appenders s' !! a = appenders s !! a ∨ a ∈ l ∧ is_Some (appenders s !! a) ∧ is_Some (appenders s' !! a).

Lemma within_trans l s1 s2 s3 : within l s1 s2 → within l s2 s3 → within l s1 s3.
Proof.
  intros (A1 & A2 & A3 & A4 & A5 & A6) (B1 & B2 & B3 & B4 & B5 & B6). split_and!; [congruence..|]. intros a.
  destruct (A6 a) as [<-|(Hin & H1 & H2)]; [done|]. right. split; [done|]. split; [done|].
  destruct (B6 a) as [->|(_ & _ & H3)]; done.
Qed.

Lemma setFormatter_ok s l g f :
  logs_ok s → loggers s !! l = Some g → good f →
  ∃ s', ⟨ setFormatter l (Some f), s ⟩ ⇓ ⟨ tt, s' ⟩ ∧ logs_ok s' ∧ within (lg_appenders g) (logger_put l (with_formatter (Some f) g) s) s'.
Proof.
  intros Hs Hl Hf. unfold setFormatter. at_step Hl. put_step. set (s1 := logger_put l _ s).
  assert (logs_ok s1) as Hs1.
  { eapply logger_put_ok; [done..|by apply fmt_ok_Some|]. intros a. exact (lo_aps s Hs l g a Hl). }
  apply (each_ok (λ s', logs_ok s' ∧ within (lg_appenders g) s1 s')); [split; [done|]; split_and!; [done..|by left]|].
  intros a s2 Ha [Hs2 Hw]. unfold follow_formatter.
  destruct (lo_aps s2 Hs2 l (with_formatter (Some f) g) a) as (x & Hx & Hfx); [|done|].
  { destruct Hw as (-> & _). cbn. by rewrite lookup_insert_eq. }
  at_step Hx. destruct (ap_hasFormatter x); cbn [negb]; [by exists s2|]. eexists. split; [apply put_appender_eq|]. split.
  - eapply appender_put_same; [done|done|intros _; by apply fmt_ok_Some|]. split; cbn; [by intros ? [= <-]|by eapply ap_ok_at].
  - eapply within_trans; [exact Hw|]. split_and!; [done..|]. intros b. cbn. destruct (decide (b = a)) as [->|Hne].
    + right. rewrite lookup_insert_eq. by split_and!.
    + left. by rewrite lookup_insert_ne.
Qed.

Lemma setFormatter_str_ok s l g p :
  logs_ok s → loggers s !! l = Some g → (m_error (formatter_of p) = false → good (formatter_of p)) →
  ∃ s', ⟨ setFormatter_str l p, s ⟩ ⇓ ⟨ tt, s' ⟩ ∧ logs_ok s' ∧
    within (lg_appenders g) (if m_error (formatter_of p) then s else logger_put l (with_formatter (Some (formatter_of p)) g) s) s'.
Proof.
  intros Hs Hl Hf. unfold setFormatter_str. rewrite (bind_ok _ _ _ _ _ (new_formatter_eq p s)).
  destruct (m_error (formatter_of p)); [exists s; split; [done|]; split; [done|]; split_and!; [done..|by left]|]. by apply setFormatter_ok; auto.
Qed.

(** ** New objects *)

Context (time_fits : ∀ t, is_Some (strftime default_time t)).

Definition dates (l : list FormatItem) : list str := omap (λ it, match it with DateTimeFormatItem f => Some f | _ => None end) l.

Lemma good_items f : (∀ d, d ∈ dates (m_items f) → ∀ t, is_Some (strftime d t)) → good f.
Proof.
  clear can_open can_write time_fits. intros H level ev. unfold format. revert H. generalize (@nil ascii). induction (m_items f) as [|it l IH]; intros ss H; [by eexists|].
  cbn [format_loop]. assert (is_Some (item_format strftime level ev it)) as [t Ht].
  { destruct it; try by eexists. cbn. apply H. cbn. set_solver. }
  rewrite Ht. cbn. apply IH. intros d Hd. apply H. unfold dates in *. cbn. case_match; set_solver.
Qed.

Lemma default_good : good (formatter_of default_pattern).
Proof.
  apply good_items. assert (dates (m_items (formatter_of default_pattern)) = [default_time]) as -> by (by vm_compute).
  intros d ->%list_elem_of_singleton. apply time_fits.
Qed.

Definition fresh_logger (name : str) (root : option nat) : Logger := mkLogger name DEBUG [] (Some (formatter_of default_pattern)) root.

Lemma Logger_new_eq name s :
  Logger_new name s = Ok (fresh (dom (loggers s))) (logger_put (fresh (dom (loggers s))) (fresh_logger name None) s).
Proof. unfold Logger_new. by rewrite (bind_ok _ _ _ _ _ (new_formatter_eq _ s)). Qed.

(** A logger with a new name. *)
Lemma named_logger_ok s l name :
  logs_ok s → loggers s !! l = None → (∀ k h, loggers s !! k = Some h → lg_name h ≠ name) →
  logs_ok (set_names (map_assign string_lt name l (m_loggers s)) (logger_put l (fresh_logger name (Some (m_root s))) s)).
Proof.
  intros Hs Hl Hnew. destruct (lo_root s Hs) as [r Hr]. assert (l ≠ m_root s) as Hne by congruence. split; cbn; try apply Hs.
  - by apply (map_assign_ordered string_lt), Hs.
  - intros n k. rewrite (string_find_assign _ _ _ _ (lo_order s Hs)). case_decide as Hn.
    + subst n. split.
      * intros [= <-]. eexists. by rewrite lookup_insert_eq.
      * intros (h & [[<- _]|[_ Hh]]%lookup_insert_Some & Hn); [done|]. by destruct (Hnew k h Hh).
    + rewrite (lo_names s Hs). split; intros (h & Hh & Hn').
      * exists h. rewrite lookup_insert_ne; [done|]. congruence.
      * apply lookup_insert_Some in Hh as [[<- <-]|[_ Hh]]; [done|by exists h].
  - exists r. by rewrite lookup_insert_ne.
  - intros k h [[<- <-]|[_ Hh]]%lookup_insert_Some; [by rewrite decide_False|by apply (lo_chain s Hs)].
  - intros k h [[<- <-]|[_ Hh]]%lookup_insert_Some; [by apply fmt_ok_Some, default_good|by eapply (lo_fmt s Hs)].
  - intros k h a [[<- <-]|[_ Hh]]%lookup_insert_Some; [cbn; set_solver|by apply (lo_aps s Hs k h)].
Qed.

(** What getLogger finds or makes: nothing else changes. *)
Lemma getLogger_ok s name :
  logs_ok s →
  ∃ l g s', ⟨ getLogger name, s ⟩ ⇓ ⟨ l, s' ⟩ ∧ logs_ok s' ∧ loggers s' !! l = Some g ∧ lg_name g = name ∧
    (loggers s !! l = Some g ∧ s' = s ∨
     loggers s !! l = None ∧ (∀ k h, loggers s !! k = Some h → lg_name h ≠ name) ∧ g = fresh_logger name (Some (m_root s)) ∧
     s' = set_names (map_assign string_lt name l (m_loggers s)) (logger_put l g s)).
Proof.
  intros Hs. unfold getLogger. rewrite (bind_ok _ _ _ _ _ (eq_refl : mget s = Ok s s)).
  destruct (map_find string_lt name (m_loggers s)) as [l|] eqn:E.
  { pose proof (proj1 (lo_names s Hs name l) E) as (g & Hg & Hn). exists l, g, s. split; [done|]. split; [done|]. split; [done|]. split; [done|]. by left. }
  assert (∀ k h, loggers s !! k = Some h → lg_name h ≠ name) as Hnew.
  { intros k h Hk Hn. assert (map_find string_lt name (m_loggers s) = Some k) as H by (apply (lo_names s Hs); by exists h). congruence. }
  rewrite (bind_ok _ _ _ _ _ (Logger_new_eq name s)). set (l := fresh (dom (loggers s))).
  assert (loggers s !! l = None) as Hl by (apply not_elem_of_dom, is_fresh). set (s1 := logger_put l _ s).
  assert (loggers s1 !! l = Some (fresh_logger name None)) as Hl1 by (cbn; by rewrite lookup_insert_eq). at_step Hl1. put_step.
  rewrite bind_modify. exists l, (fresh_logger name (Some (m_root s))).
  exists (set_names (map_assign string_lt name l (m_loggers s)) (logger_put l (fresh_logger name (Some (m_root s))) s)). split.
  { mred. unfold logger_put, set_names, set_loggers. cbn. by rewrite insert_insert_eq. }
  split; [by apply named_logger_ok|]. split; [cbn; by rewrite lookup_insert_eq|]. split; [done|]. right. by split_and!.
Qed.

Lemma new_appender_ok s x :
  logs_ok s → ap_ok x →
  ∃ a, ⟨ new_appender x, s ⟩ ⇓ ⟨ a, appender_put a x s ⟩ ∧ appenders s !! a = None ∧ logs_ok (appender_put a x s).
Proof.
  intros Hs Hx. exists (fresh (dom (appenders s))). split; [done|].
  assert (appenders s !! fresh (dom (appenders s)) = None) as Hn by (apply not_elem_of_dom, is_fresh). split; [done|].
  apply appender_put_ok; [done..|]. intros l g Hl Hin. destruct (lo_aps s Hs l g _ Hl Hin) as (y & Hy & _). congruence.
Qed.

Lemma Stdout_new_ok : ap_ok Stdout_new.
Proof. by split. Qed.

Lemma File_new_ok junk name now : ap_ok (File_new can_open junk name now).
Proof.
  split; [done|]. intros n st t [= <- <- <-] Hio. unfold reopen, stream_open. cbn. by rewrite (proj1 (Hio name now)).
Qed.

(** ** Delivery *)

(** Where an appender writes: the console or a file. *)
Definition target (x : LogAppender) : option str :=
  match ap_sink x with StdoutLogAppender => None | FileLogAppender n _ _ => Some n end.

(** What an appender is to write for an event. *)
Definition outputs s (level : Level) (ev : LogEvent) (a : nat) : list (option str * str) :=
  match appenders s !! a with
  | Some x =>
    if level_le (ap_level x) level
    then match ap_formatter x ≫= λ f, format strftime f level ev with Some t => [(target x, t)] | None => [] end
    else []
  | None => []
  end.
(** The text for one place. *)
Definition text_for (k : option str) (out : list (option str * str)) : str := out ≫= λ '(k', t), if decide (k' = k) then t else [].
Definition content s (name : str) : str := default [] (files s !! name).

(** What writing does not change. *)
Definition shape (x : LogAppender) : option str * Level * bool * option LogFormatter :=
  (target x, ap_level x, ap_hasFormatter x, ap_formatter x).

Record delivered s s' (out : list (option str * str)) : Prop := {
  de_loggers : loggers s' = loggers s;
  de_names : m_loggers s' = m_loggers s;
  de_root : m_root s' = m_root s;
  de_shape a : shape <$> appenders s' !! a = shape <$> appenders s !! a;
  de_console : console s' = console s ++ text_for None out;
  de_files : all_io → ∀ n, content s' n = content s n ++ text_for (Some n) out
}.

Lemma text_for_app k o1 o2 : text_for k (o1 ++ o2) = text_for k o1 ++ text_for k o2.
Proof. apply bind_app. Qed.

Lemma delivered_nil s : delivered s s [].
Proof. split; [done..| |]; cbn; intros; by rewrite app_nil_r. Qed.

Lemma delivered_app s1 s2 s3 o1 o2 : delivered s1 s2 o1 → delivered s2 s3 o2 → delivered s1 s3 (o1 ++ o2).
Proof.
  intros [A1 A2 A3 A4 A5 A6] [B1 B2 B3 B4 B5 B6]. split; [congruence..| |].
  - by rewrite B5, A5, text_for_app, (assoc_L (++)).
  - intros Hio n. by rewrite B6, A6, text_for_app, (assoc_L (++)).
Qed.

Lemma outputs_shape s s' level ev a :
  (shape <$> appenders s' !! a) = (shape <$> appenders s !! a) → outputs s' level ev a = outputs s level ev a.
Proof.
  unfold outputs. destruct (appenders s' !! a) as [x|], (appenders s !! a) as [y|]; try done. cbn. intros [= H1 H2 H3 H4].
  by rewrite H1, H2, H4.
Qed.

Lemma file_log_ok s a x now level ev n st last t :
  logs_ok s → appenders s !! a = Some x → level_le (ap_level x) level = true → ap_sink x = FileLogAppender n st last →
  formatted strftime x level ev s = Ok t s →
  ∃ s', ⟨ appender_log strftime can_open can_write now level ev a, s ⟩ ⇓ ⟨ tt, s' ⟩ ∧ logs_ok s' ∧ delivered s s' [(Some n, t)].
Proof.
  intros Hs Ha Hlev Hsink Ht. unfold appender_log. at_step Ha. rewrite Hlev, Hsink. cbn [negb].
  set (p := if negb (now =? last) then (reopen can_open n now st, now) else (st, last)).
  assert (all_io → p.1 = mkStream true false) as Hst.
  { intros Hio. pose proof (lo_stream s Hs a x n st last Ha Hsink Hio) as ->. unfold p. destruct (negb _); [|done].
    unfold reopen, stream_open. cbn. by rewrite (proj1 (Hio n now)). }
  destruct p as [st1 last1]. cbn in Hst. rewrite (bind_ok _ _ _ _ _ Ht). put_step.
  set (ok := negb (fs_fail st1) && can_write n now). set (s1 := appender_put a _ s).
  assert (all_io → ok = true) as Hok by (intros Hio; unfold ok; rewrite (Hst Hio); cbn; apply Hio).
  assert (logs_ok s1) as Hs1.
  { eapply appender_put_same; [done|done|done|]. split; cbn; [by eapply ap_ok_at|]. intros n' st' t' [= <- <- <-] Hio.
    rewrite (Hok Hio). by apply Hst. }
  assert (∀ b, shape <$> appenders s1 !! b = shape <$> appenders s !! b) as Hsh.
  { intros b. cbn. destruct (decide (b = a)) as [->|Hne]; [|by rewrite lookup_insert_ne]. rewrite lookup_insert_eq, Ha. cbn. unfold shape, target.
    by rewrite Hsink. }
  destruct ok; eexists; (split; [reflexivity|]).
  - split; [by split; apply Hs1|]. split; [done..|exact Hsh|by cbn; rewrite app_nil_r|]. intros Hio m. unfold content. cbn. rewrite app_nil_r.
    destruct (decide (n = m)) as [->|Hne]; [rewrite decide_True by done; by rewrite lookup_insert_eq|].
    rewrite decide_False by congruence. by rewrite lookup_insert_ne, app_nil_r.
  - split; [done|]. split; [done..|exact Hsh|by cbn; rewrite app_nil_r|]. intros Hio. by specialize (Hok Hio).
Qed.

Lemma appender_log_ok s a x now level ev :
  logs_ok s → appenders s !! a = Some x → fmt_ok (ap_formatter x) →
  ∃ s', ⟨ appender_log strftime can_open can_write now level ev a, s ⟩ ⇓ ⟨ tt, s' ⟩ ∧ logs_ok s' ∧ delivered s s' (outputs s level ev a).
Proof.
  intros Hs Ha (f & Hf & Hg). destruct (Hg level ev) as [t Ht].
  assert (formatted strftime x level ev s = Ok t s) as Et by (unfold formatted; rewrite Hf; mred; by rewrite Ht).
  unfold outputs. rewrite Ha, Hf. cbn [mbind option_bind]. rewrite Ht. destruct (level_le (ap_level x) level) eqn:Hlev.
  2: { exists s. unfold appender_log. at_step Ha. rewrite Hlev. split; [done|]. split; [done|]. apply delivered_nil. }
  unfold target. destruct (ap_sink x) as [|n st last] eqn:Hsink; [|by eapply file_log_ok]. unfold appender_log. at_step Ha.
  rewrite Hlev, Hsink. cbn [negb]. rewrite (bind_ok _ _ _ _ _ Et). eexists. split; [reflexivity|].
  split; [by split; apply Hs|]. split; [done..|by cbn; rewrite app_nil_r|]. intros _ n. cbn. by rewrite app_nil_r.
Qed.

Lemma each_log_ok now level ev l s :
  logs_ok s → (∀ a, a ∈ l → ∃ x, appenders s !! a = Some x ∧ fmt_ok (ap_formatter x)) →
  ∃ s', ⟨ each_appender (appender_log strftime can_open can_write now level ev) l, s ⟩ ⇓ ⟨ tt, s' ⟩ ∧ logs_ok s' ∧
    delivered s s' (l ≫= outputs s level ev).
Proof.
  revert s. induction l as [|a l IH]; intros s Hs Hl; [exists s; split; [done|]; split; [done|]; apply delivered_nil|].
  destruct (Hl a) as (x & Hx & Hf); [set_solver|]. destruct (appender_log_ok s a x now level ev Hs Hx Hf) as (s1 & E1 & Hs1 & D1).
  destruct (IH s1 Hs1) as (s2 & E2 & Hs2 & D2).
  { intros b Hb. destruct (Hl b) as (y & Hy & Hfy); [set_solver|]. pose proof (de_shape _ _ _ D1 b) as Hsh. rewrite Hy in Hsh. cbn in Hsh.
    destruct (appenders s1 !! b) as [z|]; [|done]. exists z. split; [done|]. injection Hsh as _ _ _ ->. done. }
  exists s2. cbn [each_appender]. rewrite (bind_ok _ _ _ _ _ E1). split; [done|]. split; [done|]. cbn. eapply delivered_app; [done|].
  assert (l ≫= outputs s1 level ev = l ≫= outputs s level ev) as <-; [|done].
  clear -D1. induction l as [|b l IH]; [done|]. cbn. rewrite IH. f_equal. apply outputs_shape, D1.
Qed.

(** Where an event that is logged by [l] goes. *)
Definition routed s (l : nat) (level : Level) : list nat :=
  match loggers s !! l, loggers s !! m_root s with
  | Some g, Some r =>
    if negb (level_le (lg_level g) level) then []
    else match lg_appenders g with
         | [] => if level_le (lg_level r) level then lg_appenders r else []
         | aps => aps
         end
  | _, _ => []
  end.

Lemma log_ok s l g now level ev :
  logs_ok s → loggers s !! l = Some g →
  ∃ s', ⟨ log strftime can_open can_write 2 now l level ev, s ⟩ ⇓ ⟨ tt, s' ⟩ ∧ logs_ok s' ∧
    delivered s s' (routed s l level ≫= outputs s level ev).
Proof.
  intros Hs Hl. destruct (lo_root s Hs) as [r Hr]. unfold routed. rewrite Hl, Hr. cbn [log]. at_step Hl.
  destruct (level_le (lg_level g) level) eqn:Hlev; cbn [negb]; [|exists s; split; [done|]; split; [done|]; apply delivered_nil].
  destruct (lg_appenders g) as [|a aps] eqn:Ea; [|apply each_log_ok; [done|]; intros b Hb; apply (lo_aps s Hs l g); [done|by rewrite Ea]].
  rewrite (lo_chain s Hs l g Hl). destruct (decide (l = m_root s)) as [->|Hne].
  - assert (r = g) as -> by congruence. rewrite Hlev, Ea. exists s. split; [done|]. split; [done|]. apply delivered_nil.
  - at_step Hr. destruct (level_le (lg_level r) level); cbn [negb]; [|exists s; split; [done|]; split; [done|]; apply delivered_nil].
    destruct (lg_appenders r) as [|a aps] eqn:Er.
    + rewrite (lo_chain s Hs _ r Hr), decide_True by done. exists s. split; [done|]. split; [done|]. apply delivered_nil.
    + apply each_log_ok; [done|]. intros b Hb. apply (lo_aps s Hs (m_root s) r); [done|by rewrite Er].
Qed.

(** ** Configuration *)

(** The formatter an appender's definition gives it: none when it is empty or
    wrong. *)
Definition own_formatter (d : LogAppenderDefine) : option LogFormatter :=
  match ad_formatter d with [] => None | p => if m_error (formatter_of p) then None else Some (formatter_of p) end.
(** The appender a definition describes, for a logger with formatter [f]. *)
Definition described (f : option LogFormatter) (d : LogAppenderDefine) : option (option str * Level * bool * option LogFormatter) :=
  if (ad_type d =? 1) || (ad_type d =? 2)
  then Some (if ad_type d =? 1 then Some (ad_file d) else None, ad_level d, match own_formatter d with Some _ => true | None => false end,
             match own_formatter d with Some g => Some g | None => f end)
  else None.

(** The logger of a definition is as the definition says, and its appenders are
    its own. *)
Definition configured s (d : LogDefine) : Prop :=
  ∃ l g, loggers s !! l = Some g ∧ lg_name g = ld_name d ∧ lg_level g = ld_level d ∧
    Forall2 (λ a e, shape <$> appenders s !! a = Some e) (lg_appenders g) (omap (described (lg_formatter g)) (ld_appenders d)) ∧
    (ld_formatter d ≠ [] → m_error (formatter_of (ld_formatter d)) = false → lg_formatter g = Some (formatter_of (ld_formatter d))) ∧
    ∀ k h a, loggers s !! k = Some h → k ≠ l → a ∈ lg_appenders g → a ∉ lg_appenders h.

(** The formatters a definition names fit into the buffer. *)
Definition define_good (d : LogDefine) : Prop :=
  (m_error (formatter_of (ld_formatter d)) = false → good (formatter_of (ld_formatter d))) ∧
  ∀ a, a ∈ ld_appenders d → m_error (formatter_of (ad_formatter a)) = false → good (formatter_of (ad_formatter a)).

Lemma appender_put_put a x y s : appender_put a x (appender_put a y s) = appender_put a x s.
Proof. unfold appender_put, set_appenders. cbn. by rewrite insert_insert_eq. Qed.

Lemma own_good d : (m_error (formatter_of (ad_formatter d)) = false → good (formatter_of (ad_formatter d))) →
  ∀ f, own_formatter d = Some f → good f.
Proof.
  intros H f. unfold own_formatter. destruct (ad_formatter d) as [|c p]; [done|]. destruct (m_error _) eqn:E; [done|].
  intros [= <-]. by apply H.
Qed.

Lemma add_defined_ok s l g junk now d :
  logs_ok s → loggers s !! l = Some g → (m_error (formatter_of (ad_formatter d)) = false → good (formatter_of (ad_formatter d))) →
  match described (lg_formatter g) d with
  | None => add_defined can_open junk now l d s = Ok tt s
  | Some e => ∃ a x, appenders s !! a = None ∧ shape x = e ∧
      ⟨ add_defined can_open junk now l d, s ⟩ ⇓ ⟨ tt, logger_put l (with_appenders (lg_appenders g ++ [a]) g) (appender_put a x s) ⟩ ∧
      logs_ok (logger_put l (with_appenders (lg_appenders g ++ [a]) g) (appender_put a x s))
  end.
Proof.
  intros Hs Hl Hgood. unfold add_defined, described. destruct ((ad_type d =? 1) || (ad_type d =? 2)) eqn:Et.
  2: { apply orb_false_iff in Et as [-> ->]. done. }
  assert (∃ x0, (if ad_type d =? 1 then Some (File_new can_open junk (ad_file d) now) else if ad_type d =? 2 then Some Stdout_new else None) = Some x0
    ∧ ap_ok x0 ∧ ap_formatter x0 = None ∧ ap_hasFormatter x0 = false ∧ target x0 = if ad_type d =? 1 then Some (ad_file d) else None)
    as (x0 & -> & Hx0 & Hf0 & Hh0 & Ht0).
  { destruct (ad_type d =? 1); [eexists; split; [done|]; split; [apply File_new_ok|done]|].
    destruct (ad_type d =? 2); [|done]. eexists; split; [done|]; split; [apply Stdout_new_ok|done]. }
  destruct (new_appender_ok s x0 Hs Hx0) as (a & E0 & Ha & Hs0). rewrite (bind_ok _ _ _ _ _ E0). exists a.
  assert (∀ y, appenders (appender_put a y s) !! a = Some y) as Hat by (intros y; cbn; by rewrite lookup_insert_eq).
  set (has := match own_formatter d with Some _ => true | None => false end).
  set (x1 := mkAppender (ap_sink x0) (ad_level d) false None). set (x2 := mkAppender (ap_sink x0) (ad_level d) has (own_formatter d)).
  rewrite (bind_ok _ _ _ tt (appender_put a x1 s)).
  2: { unfold appender_setLevel. at_step (Hat x0). rewrite put_appender_eq, appender_put_put, Hh0, Hf0. done. }
  rewrite (bind_ok _ _ _ tt (appender_put a x2 s)).
  2: { unfold x2, has, own_formatter. destruct (ad_formatter d) as [|c p]; [done|]. rewrite (bind_ok _ _ _ _ _ (new_formatter_eq _ _)).
    destruct (m_error _); cbn [negb]; [done|]. unfold appender_setFormatter. at_step (Hat x1). by rewrite put_appender_eq, appender_put_put. }
  set (f := match own_formatter d with Some f => Some f | None => lg_formatter g end).
  exists (mkAppender (ap_sink x0) (ad_level d) has f). set (x3 := mkAppender _ _ has f).
  assert (fmt_ok f) as Hf.
  { unfold f. destruct (own_formatter d) eqn:Eo; [by apply fmt_ok_Some, (own_good d Hgood)|by apply (lo_fmt s Hs l)]. }
  assert (logs_ok (appender_put a x3 s)) as Hs3.
  { apply appender_put_ok; [done| |done]. split; cbn; [|apply Hx0]. destruct Hf as (f' & -> & ?). by intros ? [= <-]. }
  split; [done|]. split; [unfold shape, target; cbn; unfold target in Ht0; by rewrite Ht0|]. split.
  - unfold addAppender. assert (loggers (appender_put a x2 s) !! l = Some g) as Hl2 by done. at_step Hl2. at_step (Hat x2).
    unfold x3, f, x2. cbn [ap_formatter]. destruct (own_formatter d); [done|]. put_step. by rewrite appender_put_put.
  - apply (logger_put_ok _ l g); [done..|exact (lo_fmt s Hs l g Hl)|]. intros b [Hb| ->%list_elem_of_singleton]%elem_of_app; [|by exists x3; rewrite Hat].
    by apply (lo_aps _ Hs3 l g).
Qed.

(** The loggers but [l] stay; [mk] describes [l] afterwards. *)
Definition only_logger l (g : Logger) s s' : Prop :=
  loggers s' = <[l := g]> (loggers s) ∧ m_loggers s' = m_loggers s ∧ m_root s' = m_root s.

Lemma add_all_defined_ok junk now l ds s g :
  logs_ok s → loggers s !! l = Some g →
  (∀ d, d ∈ ds → m_error (formatter_of (ad_formatter d)) = false → good (formatter_of (ad_formatter d))) →
  ∃ new s', ⟨ add_all_defined can_open junk now l ds, s ⟩ ⇓ ⟨ tt, s' ⟩ ∧ logs_ok s' ∧
    only_logger l (with_appenders (lg_appenders g ++ new) g) s s' ∧
    (∀ a x, appenders s !! a = Some x → appenders s' !! a = Some x) ∧ (∀ a, a ∈ new → appenders s !! a = None) ∧
    Forall2 (λ a e, shape <$> appenders s' !! a = Some e) new (omap (described (lg_formatter g)) ds).
Proof.
  revert s g. induction ds as [|d ds IH]; intros s g Hs Hl Hgood.
  { exists [], s. split; [done|]. split; [done|]. split; [|split; [done|split; [set_solver|constructor]]].
    split; [|done]. rewrite app_nil_r. destruct g. cbn. by rewrite insert_id. }
  cbn [add_all_defined omap list_omap]. pose proof (add_defined_ok s l g junk now d Hs Hl (Hgood d ltac:(set_solver))) as Hd.
  destruct (described (lg_formatter g) d) as [e|].
  2: { rewrite (bind_ok _ _ _ _ _ Hd). apply IH; [done..|]. intros d' Hd'. apply Hgood. set_solver. }
  destruct Hd as (a & x & Ha & Hx & E & Hs1). rewrite (bind_ok _ _ _ _ _ E). set (s1 := logger_put l _ _) in *.
  destruct (IH s1 (with_appenders (lg_appenders g ++ [a]) g) Hs1) as (new & s2 & E2 & Hs2 & (O1 & O2 & O3) & K & F & H2).
  { cbn. by rewrite lookup_insert_eq. }
  { intros d' Hd'. apply Hgood. set_solver. }
  exists (a :: new), s2. split; [exact E2|]. split; [done|]. assert (appenders s1 !! a = Some x) as Hat by (cbn; by rewrite lookup_insert_eq).
  split; [|split; [|split]].
  - split; [|done]. rewrite O1. cbn. rewrite insert_insert_eq. by rewrite <- (assoc_L (++)).
  - intros b y Hb. apply K. cbn. rewrite lookup_insert_ne; [done|]. congruence.
  - intros b [->|Hb]%elem_of_cons; [done|]. specialize (F b Hb). cbn in F. by apply lookup_insert_None in F as [? _].
  - constructor; [|exact H2]. rewrite (K _ _ Hat). cbn. by rewrite Hx.
Qed.

Lemma Forall2_impl_in {A B} (P Q : A → B → Prop) l k :
  Forall2 P l k → (∀ a b, a ∈ l → P a b → Q a b) → Forall2 Q l k.
Proof. induction 1; intros H1; constructor; [apply H1; [set_solver|done]|apply IHForall2; set_solver]. Qed.

(** The names of loggers that may change. *)
Definition keeps_others (N : list str) s s' : Prop := ∀ l g, loggers s !! l = Some g → lg_name g ∉ N → loggers s' !! l = Some g.

(** The formatter of a logger after its definition has been applied. *)
Definition next_formatter (d : LogDefine) (g : Logger) : option LogFormatter :=
  match ld_formatter d with [] => lg_formatter g | p => if m_error (formatter_of p) then lg_formatter g else Some (formatter_of p) end.

(** setFormatter as the listener calls it. *)
Lemma define_formatter_ok d s l g :
  logs_ok s → loggers s !! l = Some g → define_good d →
  ∃ s', ⟨ (match ld_formatter d with [] => mret tt | p => setFormatter_str l p end), s ⟩ ⇓ ⟨ tt, s' ⟩ ∧ logs_ok s' ∧
    within (lg_appenders g) (logger_put l (with_formatter (next_formatter d g) g) s) s'.
Proof.
  intros Hs Hl [Hg _]. assert (logger_put l (with_formatter (lg_formatter g) g) s = s) as Hid.
  { unfold logger_put, set_loggers. destruct g. cbn in *. rewrite insert_id by done. by destruct s. }
  unfold next_formatter. destruct (ld_formatter d) as [|c p] eqn:Ef.
  { exists s. split; [done|]. split; [done|]. rewrite Hid. split_and!; [done..|by left]. }
  destruct (setFormatter_str_ok s l g (c :: p) Hs Hl) as (s' & E & Hs' & Hw); [by apply Hg|]. exists s'. split; [exact E|]. split; [done|].
  destruct (m_error (formatter_of (c :: p))); [by rewrite Hid|done].
Qed.

(** The logger [l] is given the configuration of [d]. *)
Lemma redefine_ok junk now d s l g :
  logs_ok s → loggers s !! l = Some g → define_good d →
  ∃ new s', ⟨ (setLevel l (ld_level d);; (match ld_formatter d with [] => mret tt | p => setFormatter_str l p end);;
               clearAppenders l;; add_all_defined can_open junk now l (ld_appenders d)), s ⟩ ⇓ ⟨ tt, s' ⟩ ∧ logs_ok s' ∧
    loggers s' = <[l := mkLogger (lg_name g) (ld_level d) new (next_formatter d g) (lg_root g)]> (loggers s) ∧
    (∀ a x, appenders s !! a = Some x → a ∉ lg_appenders g → appenders s' !! a = Some x) ∧ (∀ a, a ∈ new → appenders s !! a = None) ∧
    Forall2 (λ a e, shape <$> appenders s' !! a = Some e) new (omap (described (next_formatter d g)) (ld_appenders d)).
Proof.
  intros Hs Hl Hd. set (g1 := with_level (ld_level d) g). set (s1 := logger_put l g1 s).
  rewrite (bind_ok _ _ _ tt s1) by (unfold setLevel; by at_step Hl).
  assert (loggers s1 !! l = Some g1) as Hl1 by (cbn; by rewrite lookup_insert_eq).
  assert (logs_ok s1) as Hs1.
  { eapply logger_put_ok; [done..|exact (lo_fmt s Hs l g Hl)|]. intros a. exact (lo_aps s Hs l g a Hl). }
  destruct (define_formatter_ok d s1 l g1 Hs1 Hl1 Hd) as (s2 & E2 & Hs2 & (W1 & W2 & W3 & _ & _ & W4)). rewrite (bind_ok _ _ _ _ _ E2).
  set (g2 := with_formatter (next_formatter d g1) g1) in *.
  assert (loggers s2 !! l = Some g2) as Hl2 by (rewrite W1; cbn; by rewrite lookup_insert_eq).
  set (s3 := logger_put l (with_appenders [] g2) s2). rewrite (bind_ok _ _ _ tt s3) by (unfold clearAppenders; by at_step Hl2).
  assert (logs_ok s3) as Hs3 by (eapply logger_put_ok; [done..|exact (lo_fmt s2 Hs2 l g2 Hl2)|set_solver]).
  destruct (add_all_defined_ok junk now l (ld_appenders d) s3 (with_appenders [] g2) Hs3) as (new & s4 & E4 & Hs4 & (O1 & _) & K & F & H2).
  { cbn. by rewrite lookup_insert_eq. }
  { apply Hd. }
  assert (∀ a, appenders s3 !! a = None → appenders s !! a = None) as Hnone.
  { intros a Ha. destruct (W4 a) as [H|(_ & _ & [y Hy])]; cbn in *; congruence. }
  exists new, s4. split; [exact E4|]. split; [done|]. split; [|split; [|split]].
  - rewrite O1. cbn. rewrite W1. cbn. by rewrite !insert_insert_eq.
  - intros a x Ha Hna. apply K. cbn. destruct (W4 a) as [H|(Hin & _)]; [by rewrite H|done].
  - intros a Ha. by apply Hnone, F.
  - exact H2.
Qed.

Lemma apply_define_ok junk now d s :
  logs_ok s → define_good d →
  ∃ s', ⟨ apply_define can_open junk now d, s ⟩ ⇓ ⟨ tt, s' ⟩ ∧ logs_ok s' ∧ configured s' d ∧ keeps_others [ld_name d] s s' ∧
    ∀ d', configured s d' → ld_name d' ≠ ld_name d → configured s' d'.
Proof.
  intros Hs Hd. unfold apply_define.
  destruct (getLogger_ok s (ld_name d) Hs) as (l & g & s0 & E0 & Hs0 & Hl0 & Hn & Hold). rewrite (bind_ok _ _ _ _ _ E0).
  destruct (redefine_ok junk now d s0 l g Hs0 Hl0 Hd) as (new & s' & E & Hs' & L & K & F & H2).
  assert (appenders s0 = appenders s) as Ha0 by (by destruct Hold as [[_ ->]|(_ & _ & _ & ->)]).
  assert (∀ k h, loggers s !! k = Some h → lg_name h ≠ ld_name d → k ≠ l ∧ loggers s' !! k = Some h) as Hk.
  { intros k h Hk Hne. assert (k ≠ l) as Hkl by (intros ->; destruct Hold as [[H _]|(H & _)]; congruence). split; [done|].
    rewrite L, lookup_insert_ne by done. destruct Hold as [[_ ->]|(_ & _ & _ & ->)]; [done|]. cbn. by rewrite lookup_insert_ne. }
  assert (∀ k h, loggers s' !! k = Some h → k ≠ l → loggers s !! k = Some h) as Hk'.
  { intros k h. rewrite L. intros Hh Hne. rewrite lookup_insert_ne in Hh by done. destruct Hold as [[_ ->]|(_ & _ & _ & ->)]; [done|].
    cbn in Hh. by rewrite lookup_insert_ne in Hh. }
  exists s'. split; [exact E|]. split; [done|]. split; [|split].
  - exists l. eexists. rewrite L, lookup_insert_eq. split; [done|]. split; [exact Hn|]. split; [done|]. split; [exact H2|]. split.
    + cbn [lg_formatter]. unfold next_formatter. intros Hne He. destruct (ld_formatter d); [done|]. by rewrite He.
    + cbn. intros k h a Hh Hne Ha Hin. rewrite <- L in Hh. apply Hk' in Hh; [|done]. apply F in Ha. rewrite Ha0 in Ha.
      destruct (lo_aps s Hs k h a Hh Hin) as (y & Hy & _). congruence.
  - intros k h Hh Hne. apply Hk; [done|]. set_solver.
  - intros d' (k & h & Hh & Hn' & Hlev & Hall & Hfmt & Hown) Hne. destruct (Hk k h Hh) as [Hkl Hh']; [congruence|].
    exists k, h. split; [done|]. split; [done|]. split; [done|]. split; [|split; [done|]].
    + apply (Forall2_impl_in _ _ _ _ Hall). intros a e Ha He. rewrite <- He. f_equal. destruct (appenders s !! a) as [x|] eqn:Hx; [|done].
      apply K; [by rewrite Ha0|]. destruct Hold as [[Hg _]|(_ & _ & -> & _)]; [by apply (Hown l g a)|set_solver].
    + intros k2 h2 a Hh2 Hk2 Ha Hin. destruct (decide (k2 = l)) as [->|Hne2]; [|by apply (Hown k2 h2 a); [apply Hk'|..]].
      rewrite L, lookup_insert_eq in Hh2. injection Hh2 as <-. cbn in Hin. apply F in Hin. rewrite Ha0 in Hin.
      destruct (lo_aps s Hs k h a Hh Ha) as (y & Hy & _). congruence.
Qed.

Fixpoint apply_list (junk now : Z) (ds : list LogDefine) : M Logs unit :=
  match ds with [] => mret tt | d :: ds' => apply_define can_open junk now d;; apply_list junk now ds' end.

Lemma apply_list_ok junk now ds s :
  logs_ok s → NoDup (ld_name <$> ds) → (∀ d, d ∈ ds → define_good d) →
  ∃ s', ⟨ apply_list junk now ds, s ⟩ ⇓ ⟨ tt, s' ⟩ ∧ logs_ok s' ∧ (∀ d, d ∈ ds → configured s' d) ∧ keeps_others (ld_name <$> ds) s s' ∧
    ∀ d', configured s d' → ld_name d' ∉ ld_name <$> ds → configured s' d'.
Proof.
  revert s. induction ds as [|d ds IH]; intros s Hs Hnd Hgood; [exists s; split_and!; [done|done|set_solver|by intros ?|done]|].
  apply NoDup_cons in Hnd as [Hd Hnd]. destruct (apply_define_ok junk now d s Hs (Hgood d ltac:(set_solver))) as (s1 & E1 & Hs1 & C1 & O1 & K1).
  destruct (IH s1 Hs1 Hnd) as (s2 & E2 & Hs2 & C2 & O2 & K2); [intros d' Hd'; apply Hgood; set_solver|].
  exists s2. cbn [apply_list]. rewrite (bind_ok _ _ _ _ _ E1). split; [done|]. split; [done|]. split; [|split].
  - intros d' [->|Hd']%elem_of_cons; [by apply K2|by apply C2].
  - intros l g Hl Hn. cbn in Hn. apply not_elem_of_cons in Hn as [Hn1 Hn2]. apply O2; [|done]. apply O1; [done|]. set_solver.
  - intros d' Hc Hn. cbn in Hn. apply not_elem_of_cons in Hn as [Hn1 Hn2]. apply K2; [|done]. by apply K1.
Qed.

(** ** Sets of definitions *)

#[local] Instance define_strict : StrictWeak define_lt.
Proof.
  split; unfold define_lt.
  - intros x. apply sw_irrefl.
  - intros x y z. apply sw_trans.
  - intros x y z. apply sw_incomp.
Qed.

Lemma define_names l : ordered define_lt id l → NoDup (ld_name <$> l).
Proof.
  induction 1 as [|d l Hl IH Hd]; [constructor|]. cbn. constructor; [|done]. intros (d' & Hn & Hin)%list_elem_of_fmap.
  rewrite Forall_forall in Hd. specialize (Hd d' Hin). unfold define_lt in Hd. cbn in Hd. rewrite Hn in Hd.
  by rewrite (sw_irrefl (lt := string_lt)) in Hd.
Qed.

Lemma same_name l d1 d2 : NoDup (ld_name <$> l) → d1 ∈ l → d2 ∈ l → ld_name d1 = ld_name d2 → d1 = d2.
Proof.
  intros Hnd [i Hi]%list_elem_of_lookup [j Hj]%list_elem_of_lookup Hn.
  assert (i = j) as ->; [|congruence]. eapply (NoDup_lookup _ i j (ld_name d1) Hnd); rewrite list_lookup_fmap; [by rewrite Hi|by rewrite Hj, Hn].
Qed.

Lemma define_find_Some d d' l : ordered define_lt id l → define_find d l = Some d' → d' ∈ l ∧ ld_name d' = ld_name d.
Proof.
  intros Hl. unfold define_find. destruct (lower_split define_lt id d l) as [p r] eqn:E. cbn.
  destruct (lower_split_spec define_lt id d l p r Hl E) as (-> & _ & Hr). destruct r as [|x r]; [done|].
  destruct (define_lt d x) eqn:Hlt; [done|]. intros [= <-]. split; [set_solver|]. apply Forall_cons_1 in Hr as [Hx _]. by apply string_lt_total.
Qed.

Lemma define_find_None d d' l : ordered define_lt id l → define_find d l = None → d' ∈ l → ld_name d' ≠ ld_name d.
Proof.
  intros Hl. unfold define_find. destruct (lower_split define_lt id d l) as [p r] eqn:E. cbn.
  destruct (lower_split_spec define_lt id d l p r Hl E) as (-> & Hp & Hr). rewrite Forall_forall in Hp.
  apply ordered_app in Hl as (_ & Hor & _). intros Hn [Hin|Hin]%elem_of_app Heq.
  - apply Hp in Hin. unfold define_lt, id in Hin. rewrite Heq in Hin. by rewrite (sw_irrefl (lt := string_lt)) in Hin.
  - destruct r as [|x r]; [set_solver|]. destruct (define_lt d x) eqn:Hlt; [|done].
    assert (define_lt d d' = true) as H.
    { pose proof (rest_gt define_lt id d x r Hor Hlt) as Hg. rewrite Forall_forall in Hg. by apply Hg. }
    unfold define_lt in H. rewrite Heq in H. by rewrite (sw_irrefl (lt := string_lt)) in H.
Qed.

(** The definitions the listener applies: those that are new or not equal to
    the old one; and those that are gone. *)
Definition touched (old : list LogDefine) (d : LogDefine) : bool :=
  match define_find d old with None => true | Some d' => negb (define_eqb d d') end.
Definition missing (new : list LogDefine) (d : LogDefine) : bool := match define_find d new with None => true | Some _ => false end.
(** What becomes of the logger of a definition that is gone. *)
Definition gone (d : LogDefine) : LogDefine := mkDefine (ld_name d) (OtherLevel 100) [] [].

Lemma apply_new_eq junk now old new s :
  apply_new can_open junk now old new s = apply_list junk now (filter (λ d, touched old d = true) new) s.
Proof.
  revert s. induction new as [|d new IH]; intros s; [done|]. cbn [apply_new]. rewrite filter_cons. unfold touched.
  destruct (define_find d old) as [d'|]; [destruct (define_eqb d d')|]; cbn [negb]; rewrite ?decide_True, ?decide_False by done.
  - apply IH.
  - cbn [apply_list]. by apply bind_proper'.
  - cbn [apply_list]. by apply bind_proper'.
Qed.

Lemma remove_define_eq junk now d s : remove_define d s = apply_define can_open junk now (gone d) s.
Proof.
  unfold remove_define, apply_define. cbn -[getLogger]. apply bind_proper'. intros l s1. apply bind_proper'. intros [] s2.
  mred. destruct (clearAppenders l s2) as [[] s3| | |]; done.
Qed.

Lemma remove_old_eq junk now new old s :
  remove_old new old s = apply_list junk now (gone <$> filter (λ d, missing new d = true) old) s.
Proof.
  revert s. induction old as [|d old IH]; intros s; [done|]. cbn [remove_old]. rewrite filter_cons. unfold missing.
  destruct (define_find d new); rewrite ?decide_True, ?decide_False by done; [apply IH|]. cbn [fmap list_fmap apply_list].
  transitivity ((apply_define can_open junk now (gone d);; remove_old new old) s); [|by apply bind_proper'].
  unfold mbind, M_bind. by rewrite (remove_define_eq junk now).
Qed.

Lemma apply_list_app junk now l1 l2 s :
  (apply_list junk now l1;; apply_list junk now l2) s = apply_list junk now (l1 ++ l2) s.
Proof.
  revert s. induction l1 as [|d l1 IH]; intros s; [done|]. cbn [apply_list app]. rewrite bind_assoc. by apply bind_proper'.
Qed.

Lemma log_macro_ok make_event now l g level t s :
  logs_ok s → loggers s !! l = Some g →
  ∃ s', ⟨ log_macro strftime can_open can_write make_event now l level t, s ⟩ ⇓ ⟨ tt, s' ⟩ ∧ logs_ok s' ∧ loggers s' = loggers s.
Proof.
  intros Hs Hl. unfold log_macro. at_step Hl. destruct (level_le (lg_level g) level); [|by exists s].
  set (ev := make_event _ _ _). destruct (log_ok s l g now (ev_level ev) ev Hs Hl) as (s' & E & Hs' & D). exists s'.
  split; [done|]. split; [done|]. apply D.
Qed.

(** The definitions to apply have different names. *)
Lemma applied_names old new :
  ordered define_lt id old → ordered define_lt id new →
  NoDup (ld_name <$> filter (λ d, touched old d = true) new ++ (gone <$> filter (λ d, missing new d = true) old)).
Proof.
  intros Ho Hn. rewrite fmap_app. apply NoDup_app. split; [|split].
  - eapply sublist_NoDup; [by apply (define_names new)|by apply fmap_sublist, sublist_filter].
  - intros n (d & -> & [_ Hd]%list_elem_of_filter)%list_elem_of_fmap (d2 & Hname & (d3 & -> & [Hm _]%list_elem_of_filter)%list_elem_of_fmap)%list_elem_of_fmap.
    unfold missing in Hm. destruct (define_find d3 new) eqn:E; [done|]. by apply (define_find_None d3 d new Hn E Hd).
  - rewrite <- list_fmap_compose. eapply sublist_NoDup; [by apply (define_names old)|by apply (fmap_sublist ld_name), sublist_filter].
Qed.

Lemma listener_ok make_event junk now old new s :
  logs_ok s → ordered define_lt id old → ordered define_lt id new → (∀ d, d ∈ new → define_good d) →
  ∃ s', ⟨ on_logger_conf_changed strftime can_open can_write make_event junk now old new, s ⟩ ⇓ ⟨ tt, s' ⟩ ∧ logs_ok s' ∧
    (∀ d, d ∈ new → touched old d = true → configured s' d) ∧ (∀ d, d ∈ old → missing new d = true → configured s' (gone d)) ∧
    keeps_others (ld_name <$> filter (λ d, touched old d = true) new ++ (gone <$> filter (λ d, missing new d = true) old)) s s'.
Proof.
  intros Hs Ho Hn Hgood. unfold on_logger_conf_changed. rewrite (bind_ok _ _ _ _ _ (eq_refl : mget s = Ok s s)).
  destruct (lo_root s Hs) as [r Hr]. destruct (log_macro_ok make_event now (m_root s) r INFO (L "on_logger_conf_changed") s Hs Hr) as (s1 & E1 & Hs1 & L1).
  rewrite (bind_ok _ _ _ _ _ E1). set (ds := filter (λ d, touched old d = true) new ++ (gone <$> filter (λ d, missing new d = true) old)).
  destruct (apply_list_ok junk now ds s1 Hs1 (applied_names old new Ho Hn)) as (s2 & E2 & Hs2 & C2 & O2 & _).
  { intros d [[_ Hd]%list_elem_of_filter|(d' & -> & _)%list_elem_of_fmap]%elem_of_app; [by apply Hgood|].
    split; [|cbn; set_solver]. intros _. apply good_items. cbn. set_solver. }
  exists s2. split; [|split; [done|split; [|split]]].
  - rewrite <- E2. unfold ds. rewrite <- apply_list_app.
    transitivity ((apply_list junk now (filter (λ d, touched old d = true) new);; remove_old new old) s1).
    + unfold mbind, M_bind. by rewrite apply_new_eq.
    + apply bind_proper'. intros _ s3. apply remove_old_eq.
  - intros d Hd Ht. apply C2, elem_of_app. left. by apply list_elem_of_filter.
  - intros d Hd Hm. apply C2, elem_of_app. right. apply list_elem_of_fmap_2. by apply list_elem_of_filter.
  - intros l g Hl Hne. apply O2; [by rewrite L1|done].
Qed.

(** ** Sequences of calls *)

(** The calls; a formatter may be a null pointer. *)
Inductive lop : Type :=
| OGet (name : str) | ONewStdout | ONewFile (junk : Z) (filename : str) (now : Z) | OAdd (l a : nat) | ODel (l a : nat) | OClear (l : nat)
| OLevel (l : nat) (v : Level) | OFormatter (l : nat) (f : option LogFormatter) | OPattern (l : nat) (p : str)
| OApFormatter (a : nat) (f : option LogFormatter) | OApLevel (a : nat) (v : Level) | OLog (now : Z) (l : nat) (level : Level) (ev : LogEvent)
| OConf (make_event : str → Level → str → LogEvent) (junk now : Z) (old new : list LogDefine).

Definition lexec (o : lop) : M Logs unit :=
  match o with
  | OGet name => getLogger name;; mret tt
  | ONewStdout => new_appender Stdout_new;; mret tt
  | ONewFile junk name now => new_appender (File_new can_open junk name now);; mret tt
  | OAdd l a => addAppender l a
  | ODel l a => delAppender l a
  | OClear l => clearAppenders l
  | OLevel l v => setLevel l v
  | OFormatter l f => setFormatter l f
  | OPattern l p => setFormatter_str l p
  | OApFormatter a f => appender_setFormatter a f
  | OApLevel a v => appender_setLevel a v
  | OLog now l level ev => log strftime can_open can_write 2 now l level ev
  | OConf make_event junk now old new => on_logger_conf_changed strftime can_open can_write make_event junk now old new
  end.

(** The conditions on calls: the objects exist; a formatter prints every event,
    that is, the time texts of its pattern fit into the buffer of strftime; a
    logger is not given a null formatter, and neither is an appender that a logger
    has. ([null_formatter_fails] shows what happens with a null formatter
    otherwise.) *)
Definition lop_ok s (o : lop) : Prop :=
  match o with
  | OGet _ | ONewStdout | ONewFile _ _ _ => True
  | OAdd l a => is_Some (loggers s !! l) ∧ is_Some (appenders s !! a)
  | ODel l _ | OClear l | OLevel l _ | OLog _ l _ _ => is_Some (loggers s !! l)
  | OFormatter l f => is_Some (loggers s !! l) ∧ fmt_ok f
  | OPattern l p => is_Some (loggers s !! l) ∧ good (formatter_of p)
  | OApFormatter a (Some f) => is_Some (appenders s !! a) ∧ good f
  | OApFormatter a None => is_Some (appenders s !! a) ∧ ∀ l g, loggers s !! l = Some g → a ∉ lg_appenders g
  | OApLevel a _ => is_Some (appenders s !! a)
  | OConf _ _ _ old new => ordered define_lt id old ∧ ordered define_lt id new ∧ ∀ d, d ∈ new → define_good d
  end.

Inductive reachable : Logs → Prop :=
| reach_start s : LoggerManager_new = Ok tt s → reachable s
| reach_step s o s' : reachable s → lop_ok s o → lexec o s = Ok tt s' → reachable s'.

Lemma lexec_ok s o : logs_ok s → lop_ok s o → ∃ s', ⟨ lexec o, s ⟩ ⇓ ⟨ tt, s' ⟩ ∧ logs_ok s'.
Proof.
  intros Hs Ho. destruct o; cbn [lexec lop_ok] in *; repeat match goal with H : _ ∧ _ |- _ => destruct H | H : is_Some _ |- _ => destruct H end.
  - destruct (getLogger_ok s name Hs) as (l & g & s' & E & Hs' & _). exists s'. by rewrite (bind_ok _ _ _ _ _ E).
  - destruct (new_appender_ok s _ Hs Stdout_new_ok) as (a & E & _ & Hs'). eexists. rewrite (bind_ok _ _ _ _ _ E). by split.
  - destruct (new_appender_ok s _ Hs (File_new_ok junk filename now)) as (a & E & _ & Hs'). eexists. rewrite (bind_ok _ _ _ _ _ E). by split.
  - by eapply addAppender_ok.
  - by eapply delAppender_ok.
  - by eapply clearAppenders_ok.
  - by eapply setLevel_ok.
  - destruct H0 as (f' & -> & Hf). destruct (setFormatter_ok s l x f') as (s' & E & Hs' & _); [done..|]. by exists s'.
  - destruct (setFormatter_str_ok s l x p) as (s' & E & Hs' & _); [done..|]. by exists s'.
  - destruct f as [f|]; destruct Ho as [[x Hx] Ho]; [by eapply appender_setFormatter_ok|by eapply appender_setFormatter_null].
  - by eapply appender_setLevel_ok.
  - destruct (log_ok s l x now level ev) as (s' & E & Hs' & _); [done..|]. by exists s'.
  - destruct (listener_ok make_event junk now old new s) as (s' & E & Hs' & _); [done..|]. by exists s'.
Qed.

(** The root logger with its appender for the console. *)
Definition start_logs : Logs :=
  let f := Some (formatter_of default_pattern) in
  mkLogs {[0%nat := mkLogger (L "root") DEBUG [0%nat] f None]} {[0%nat := mkAppender StdoutLogAppender DEBUG false f]} [(L "root", 0%nat)] 0 [] ∅.

Lemma LoggerManager_eq : LoggerManager_new = Ok tt start_logs.
Proof. by vm_compute. Qed.

Lemma start_logs_ok : logs_ok start_logs.
Proof.
  assert (∀ l g, loggers start_logs !! l = Some g → l = 0%nat ∧ g = mkLogger (L "root") DEBUG [0%nat] (Some (formatter_of default_pattern)) None) as Hone.
  { intros l g. unfold start_logs. cbn [loggers]. rewrite lookup_singleton_Some. by intros [<- <-]. }
  pose proof default_good as Hg. split.
  - by repeat constructor.
  - intros n l. rewrite string_find_in by (by repeat constructor). split.
    + intros [= -> ->]%list_elem_of_singleton. by eexists.
    + intros (g & [-> ->]%Hone & <-). set_solver.
  - by eexists.
  - by intros l g [-> ->]%Hone.
  - intros l g [_ ->]%Hone. by apply fmt_ok_Some.
  - intros l g a [_ ->]%Hone. cbn [lg_appenders]. intros ->%list_elem_of_singleton. eexists. split; [done|]. by apply fmt_ok_Some.
  - intros a x f. unfold start_logs. cbn [appenders]. rewrite lookup_singleton_Some. intros [_ <-] [= <-]. done.
  - intros a x n st t. unfold start_logs. cbn [appenders]. rewrite lookup_singleton_Some. by intros [_ <-].
Qed.

Lemma reachable_ok s : reachable s → logs_ok s.
Proof.
  induction 1 as [s E|s o s' _ Hs Ho E]; [rewrite LoggerManager_eq in E; injection E as <-; apply start_logs_ok|].
  destruct (lexec_ok s o Hs Ho) as (s1 & E1 & Hs1). congruence.
Qed.

(** C35: No call of the logging library fails, when each formatter it is given can
    print (the time texts of its pattern fit into the buffer of strftime) and none
    is null, except for an appender that no logger has. In every state that such
    calls on existing loggers and appenders can produce, whether files can be
    opened and written or not, each further call returns: an appender without a
    formatter of its own always has one when it is logged to, and logging ends
    within two loggers. *)
Theorem logging_safe s o : reachable s → lop_ok s o → ∃ s', ⟨ lexec o, s ⟩ ⇓ ⟨ tt, s' ⟩ ∧ reachable s'.
Proof.
  intros Hs Ho. destruct (lexec_ok s o (reachable_ok s Hs) Ho) as (s' & E & _). exists s'. split; [done|]. by eapply reach_step.
Qed.

(** C21: An event goes where it should. Logging it writes, in the order of the
    appenders, the formatted text once for each appender of the logger, or of
    the root logger when it has none, whose level and whose logger's level the
    event reaches, and nothing else: to the console, and, as long as files can
    be opened and written, to each file. Loggers are not changed. *)
Theorem log_delivers s l g now level ev :
  reachable s → loggers s !! l = Some g →
  ∃ s', ⟨ log strftime can_open can_write 2 now l level ev, s ⟩ ⇓ ⟨ tt, s' ⟩ ∧ loggers s' = loggers s ∧
    console s' = console s ++ text_for None (routed s l level ≫= outputs s level ev) ∧
    (all_io → ∀ n, content s' n = content s n ++ text_for (Some n) (routed s l level ≫= outputs s level ev)).
Proof.
  intros Hs Hl. destruct (log_ok s l g now level ev (reachable_ok s Hs) Hl) as (s' & E & _ & [H1 _ _ _ H2 H3]). exists s'. by split_and!.
Qed.

(** C11: A changed configuration is applied. When the listener is called with the
    old and the new set of definitions, every logger whose definition is new or
    counts as changed gets the level, the formatter and exactly the appenders
    of its definition; every logger whose definition is gone gets level 100 and
    no appenders; all other loggers stay as they are. *)
Theorem configuration_applied make_event junk now old new s :
  reachable s → ordered define_lt id old → ordered define_lt id new → (∀ d, d ∈ new → define_good d) →
  ∃ s', ⟨ on_logger_conf_changed strftime can_open can_write make_event junk now old new, s ⟩ ⇓ ⟨ tt, s' ⟩ ∧
    (∀ d, d ∈ new → (∀ d', d' ∈ old → ld_name d' = ld_name d → define_eqb d d' = false) → configured s' d) ∧
    (∀ d, d ∈ old → (∀ d', d' ∈ new → ld_name d' ≠ ld_name d) → configured s' (gone d)) ∧
    (∀ l g, loggers s !! l = Some g →
       (∀ d, d ∈ new → ld_name d = lg_name g → ∃ d', d' ∈ old ∧ ld_name d' = ld_name d ∧ define_eqb d d' = true) →
       (∀ d, d ∈ old → ld_name d = lg_name g → ∃ d', d' ∈ new ∧ ld_name d' = ld_name d) → loggers s' !! l = Some g).
Proof.
  intros Hs Ho Hn Hgood. destruct (listener_ok make_event junk now old new s (reachable_ok s Hs) Ho Hn Hgood) as (s' & E & _ & C1 & C2 & K).
  exists s'. split; [done|]. split; [|split].
  - intros d Hd Hch. apply C1; [done|]. unfold touched. destruct (define_find d old) as [d'|] eqn:Ef; [|done].
    destruct (define_find_Some d d' old Ho Ef) as [H1 H2]. by rewrite (Hch d' H1 H2).
  - intros d Hd Hm. apply C2; [done|]. unfold missing. destruct (define_find d new) as [d'|] eqn:Ef; [|done].
    destruct (define_find_Some d d' new Hn Ef) as [H1 H2]. by destruct (Hm d' H1).
  - intros l g Hl H1 H2. apply K; [done|]. rewrite fmap_app. intros [Hin|Hin]%elem_of_app.
    + apply list_elem_of_fmap in Hin as (d & Hnm & [Ht Hd]%list_elem_of_filter). destruct (H1 d Hd) as (d' & Hd' & Hn' & Heq); [done|].
      unfold touched in Ht. destruct (define_find d old) as [d2|] eqn:Ef; [|by apply (define_find_None d d' old Ho Ef Hd')].
      destruct (define_find_Some d d2 old Ho Ef) as [H3 H4]. pose proof (define_names old Ho) as Hnd.
      assert (d2 = d') as ->; [|by rewrite Heq in Ht]. apply (same_name old); [done..|congruence].
    + apply list_elem_of_fmap in Hin as (d & Hnm & (d0 & -> & [Hm Hd]%list_elem_of_filter)%list_elem_of_fmap). cbn in Hnm.
      destruct (H2 d0 Hd) as (d' & Hd' & Hn'); [done|]. unfold missing in Hm. destruct (define_find d0 new) eqn:Ef; [done|].
      by apply (define_find_None d0 d' new Hn Ef Hd').
Qed.
End Props.

(** ** Concrete loggers *)

Definition demo_time (f : str) (t : Z) : option str := Some (L "2023-06-10 12:00:00").
Definition demo_io (n : str) (t : Z) : bool := true.
Definition demo_event (name : str) (level : Level) (t : str) : LogEvent := mkEvent (L "main.cpp") 7 0 1 0 0 t (L "main") name level.
Definition demo_define : LogDefine := mkDefine (L "web") WARN (L "%p %m%n") [mkAppenderDefine 1 WARN [] (L "web.log"); mkAppenderDefine 2 ERROR (L "%m") []].

Lemma demo_reachable : reachable demo_time demo_io demo_io start_logs.
Proof. apply reach_start. apply LoggerManager_eq. Qed.

Lemma demo_good f : good demo_time f.
Proof. apply good_items. intros d _ t. by eexists. Qed.

Lemma logging_safe_witness :
  ∃ s', lexec demo_time demo_io demo_io (OLog 0 0 INFO (demo_event (L "root") INFO (L "hello"))) start_logs = Ok tt s'.
Proof.
  destruct (logging_safe demo_time demo_io demo_io (λ t, ex_intro _ _ eq_refl) start_logs (OLog 0 0 INFO (demo_event (L "root") INFO (L "hello")))
    demo_reachable) as (s' & E & _); [by eexists|]. exists s'. exact E.
Defined.

(** A null formatter, which LogAppender::setFormatter has a branch for: the next
    event that the appender gets is formatted through a null pointer. *)
Lemma null_formatter_fails :
  ∃ s1, appender_setFormatter 0 None start_logs = Ok tt s1 ∧
    log demo_time demo_io demo_io 2 0 0 INFO (demo_event (L "root") INFO (L "hello")) s1 = Stop NullDeref.
Proof. eexists. split; [vm_compute; reflexivity|]. vm_compute. reflexivity. Qed.

Lemma log_delivers_witness :
  ∃ s', log demo_time demo_io demo_io 2 0 0 INFO (demo_event (L "root") INFO (L "hello")) start_logs = Ok tt s' ∧
    console s' = text_for None (routed start_logs 0 INFO ≫= outputs demo_time start_logs INFO (demo_event (L "root") INFO (L "hello"))).
Proof.
  destruct (log_delivers demo_time demo_io demo_io (λ t, ex_intro _ _ eq_refl) start_logs 0 _ 0 INFO (demo_event (L "root") INFO (L "hello"))
    demo_reachable eq_refl) as (s' & E & _ & H & _). exists s'. split; [exact E|exact H].
Defined.

Lemma configuration_applied_witness :
  ∃ s', on_logger_conf_changed demo_time demo_io demo_io demo_event 0 0 [] [demo_define] start_logs = Ok tt s' ∧ configured s' demo_define.
Proof.
  destruct (configuration_applied demo_time demo_io demo_io (λ t, ex_intro _ _ eq_refl) demo_event 0 0 [] [demo_define] start_logs demo_reachable)
    as (s' & E & H & _).
  - constructor.
  - repeat constructor.
  - intros d _. split; intros; apply demo_good.
  - exists s'. split; [exact E|]. apply H; [by apply list_elem_of_singleton|].
    intros d' Hd'. destruct (not_elem_of_nil _ Hd').
Defined.
