(* ===== verification/Env.v ===== *)
(** Env: the command line, the help texts and paths (skt/env/env.h,
    skt/env/env.cpp). The target of /proc/PID/exe and the environment variables
    are arguments. *)

From stdpp Require Import base list strings sets.
From Stdlib Require Import Ascii Lia.
From S2P Require Import Prelude StdOrdered CString.

Record Env : Type := mkEnv {
  m_args : list (str * str);      (* std::map *)
  m_helps : list (str * str);     (* std::vector *)
  m_program : str;
  m_exe : str;
  m_cwd : str
}.
Definition Env_new : Env := mkEnv [] [] [] [] [].

Definition set_args a (e : Env) : Env := mkEnv a (m_helps e) (m_program e) (m_exe e) (m_cwd e).
Definition set_helps h (e : Env) : Env := mkEnv (m_args e) h (m_program e) (m_exe e) (m_cwd e).
Definition set_program p (e : Env) : Env := mkEnv (m_args e) (m_helps e) p (m_exe e) (m_cwd e).
Definition set_paths exe cwd (e : Env) : Env := mkEnv (m_args e) (m_helps e) (m_program e) exe cwd.

Abbreviation env := (M Env).

(** Env::add, has, get, del *)
Definition add (key val : str) : env unit := mmodify (λ e, set_args (map_assign string_lt key val (m_args e)) e).
Definition has (key : str) : env bool :=
  e ← mget; mret (match map_find string_lt key (m_args e) with Some _ => true | None => false end).
Definition get (key default_value : str) : env str :=
  e ← mget; mret (match map_find string_lt key (m_args e) with Some v => v | None => default_value end).
Definition del (key : str) : env unit := mmodify (λ e, set_args (map_erase string_lt key (m_args e)) e).

(** Env::removeHelp, addHelp *)
Fixpoint erase_helps (key : str) (l : list (str * str)) : list (str * str) :=
  match l with [] => [] | (k, d) :: l' => if streq k key then erase_helps key l' else (k, d) :: erase_helps key l' end.
Definition removeHelp (key : str) : env unit := mmodify (λ e, set_helps (erase_helps key (m_helps e)) e).
Definition addHelp (key desc : str) : env unit := removeHelp key;; mmodify (λ e, set_helps (m_helps e ++ [(key, desc)]) e).

(** Env::printHelp; setw(5) pads the dash. *)
Definition printHelp (e : Env) : str :=
  L "Usage: " ++ m_program e ++ L " [options]" ++ [LF]
  ++ (m_helps e ≫= λ '(k, d), L "    -" ++ k ++ L " : " ++ d ++ [LF]).

(** ** Paths *)

Definition SLASH : ascii := "/"%char.

(** m_exe.substr(0, m_exe.find_last_of('/')): all of it when there is none. *)
Fixpoint before_last (c : ascii) (s : str) : option str :=
  match s with
  | [] => None
  | x :: s' =>
    match before_last c s' with
    | Some p => Some (x :: p)
    | None => if bool_decide (x = c) then Some [] else None
    end
  end.
Definition dir_of (exe : str) : str := match before_last SLASH exe with Some p => p | None => exe end.

(** readlink into path[1024], which is zero before, and m_exe = path: None when
    no byte of the buffer is left for the terminator. *)
Definition read_exe (target : str) : option str := if zlen target <? 1024 then Some (c_str target) else None.

(** Env::getAbsolutePath *)
Definition getAbsolutePath (e : Env) (path : str) : str :=
  match path with
  | [] => L "/"
  | c :: _ => if bool_decide (c = SLASH) then path else m_cwd e ++ path
  end.

(** ** The command line *)

Definition DASH : ascii := "-"%char.

(** The loop over argv[1], ...: now_key, and whether all was valid. *)
Fixpoint args_loop (now_key : option str) (argv : list str) : env bool :=
  match argv with
  | [] => (match now_key with Some k => add k [] | None => mret tt end);; mret true
  | arg :: argv' =>
    match arg with
    | c :: key =>
      if bool_decide (c = DASH)
      then match key with
           | [] => mret false
           | _ => (match now_key with Some k => add k [] | None => mret tt end);; args_loop (Some key) argv'
           end
      else match now_key with Some k => add k arg;; args_loop None argv' | None => mret false end
    | [] => match now_key with Some k => add k arg;; args_loop None argv' | None => mret false end
    end
  end.

(** Env::init; [target] is what /proc/PID/exe refers to. *)
Definition init (target : str) (argv : list str) : env bool :=
  exe ← mderef OutOfBounds (read_exe target);
  mmodify (set_paths exe (dir_of exe ++ L "/"));;
  match argv with
  | [] => mstop NullDeref
  | program :: args => mmodify (set_program program);; args_loop None args
  end.

(** Env::setEnv, getEnv over the environment of the process. *)
Definition setEnv (key val : str) (environ : list (str * str)) : bool * list (str * str) :=
  if bool_decide (key = []) || existsb (λ c, bool_decide (c = "="%char)) key then (false, environ)
  else (true, map_assign string_lt key val environ).
Definition getEnv (key default_value : str) (environ : list (str * str)) : str :=
  match map_find string_lt key environ with Some v => v | None => default_value end.

(** ** Properties *)

(** An option and its value, as they are written on a command line. *)
Definition option_words (o : str * option str) : list str :=
  (DASH :: o.1) :: match o.2 with Some v => [v] | None => [] end.
Definition option_ok (o : str * option str) : bool :=
  negb (bool_decide (o.1 = [])) && match o.2 with Some (c :: _) => negb (bool_decide (c = DASH)) | _ => true end.
Definition assign_all (os : list (str * option str)) (m : list (str * str)) : list (str * str) :=
  foldl (λ m o, map_assign string_lt o.1 (default [] o.2) m) m os.

Lemma args_loop_spec os e k :
  forallb option_ok os = true →
  args_loop k (os ≫= option_words) e
  = Ok true (set_args (assign_all os (match k with Some k => map_assign string_lt k [] (m_args e) | None => m_args e end)) e).
Proof.
  revert e k. induction os as [|[key val] os IH]; intros e k; cbn [forallb].
  { intros _. destruct k; cbn; [done|]. by destruct e. }
  intros [[Hk Hv]%andb_true_iff Hos]%andb_true_iff. cbn [fst snd] in *. apply negb_true_iff, bool_decide_eq_false in Hk.
  cbn -[args_loop]. cbn [args_loop option_words app]. rewrite bool_decide_true by done. destruct key as [|c key]; [done|].
  assert (∀ e', (match k with Some k => add k [] | None => mret tt end) e = Ok tt e' →
    e' = set_args (match k with Some k => map_assign string_lt k [] (m_args e) | None => m_args e end) e) as He.
  { intros e'. destruct k; intros [= <-]; [done|by destruct e]. }
  assert (∃ e', (match k with Some k => add k [] | None => mret tt end) e = Ok tt e') as [e' E] by (destruct k; by eexists).
  rewrite (bind_ok _ _ _ _ _ E). rewrite (He e' E). clear He E e'. destruct val as [v|].
  - cbn [app args_loop].
    destruct v as [|c0 v]; [|apply negb_true_iff in Hv; rewrite Hv];
      unfold add; rewrite bind_modify, IH by done; cbn; by destruct e.
  - cbn [app]. rewrite IH by done. cbn. by destruct e.
Qed.

(** The value of the last option with a key. *)
Fixpoint last_value (key : str) (os : list (str * option str)) (v : option str) : option str :=
  match os with [] => v | (k, w) :: os' => last_value key os' (if streq k key then Some (default [] w) else v) end.

Lemma find_assign_all key os m :
  ordered string_lt fst m → map_find string_lt key (assign_all os m) = last_value key os (map_find string_lt key m).
Proof.
  unfold assign_all. revert m. induction os as [|[k w] os IH]; intros m Hm; [done|]. cbn [foldl last_value].
  rewrite IH by (by apply (map_assign_ordered string_lt)). cbn [fst snd]. rewrite string_find_assign by done. unfold streq.
  case_decide as E; [by rewrite bool_decide_true|]. by rewrite bool_decide_false.
Qed.

(** What a command line means: its options up to the first word that is out of
    place, and whether there is none. A word is out of place when it is a single
    dash, which also takes away a key that still waits for its value, or neither
    a key nor the value of one. *)
Definition is_value (w : str) : bool := match w with c :: _ => negb (bool_decide (c = DASH)) | [] => true end.
Definition option_key (w : str) : option str := match w with c :: (_ :: _) as key => if bool_decide (c = DASH) then Some key else None | _ => None end.
Fixpoint read_args (args : list str) : list (str * option str) * bool :=
  match args with
  | [] => ([], true)
  | w :: args' =>
    match option_key w with
    | None => ([], false)
    | Some key =>
      match args' with
      | [] => ([(key, None)], true)
      | v :: args'' =>
        if is_value v then let '(os, b) := read_args args'' in ((key, Some v) :: os, b)
        else match option_key v with
             | None => ([], false)
             | Some _ => let '(os, b) := read_args args' in ((key, None) :: os, b)
             end
      end
    end
  end.

Lemma read_args_option_words os : forallb option_ok os = true → read_args (os ≫= option_words) = (os, true).
Proof.
  induction os as [|[key val] os IH]; [done|]. cbn [forallb]. intros [[Hk Hv]%andb_true_iff Hos]%andb_true_iff. specialize (IH Hos).
  cbn [fst snd] in *. apply negb_true_iff, bool_decide_eq_false in Hk. destruct key as [|c key]; [done|].
  change (((c :: key, val) :: os) ≫= option_words) with (option_words (c :: key, val) ++ (os ≫= option_words)).
  set (rest := os ≫= option_words) in *. unfold option_words. cbn [fst snd app].
  destruct val as [v|]; cbn [read_args app option_key]; rewrite bool_decide_true by done.
  - assert (is_value v = true) as -> by (by destruct v). by rewrite IH.
  - destruct os as [|[key2 val2] os]; [done|].
    assert (rest = (DASH :: key2) :: (match val2 with Some v => [v] | None => [] end ++ (os ≫= option_words))) as Er by done.
    destruct key2 as [|c2 key2]; [done|]. rewrite Er in *. cbn [is_value option_key]. rewrite bool_decide_true by done. cbn [negb]. by rewrite IH.
Qed.

(** The loop of init does this. *)
Lemma args_loop_reads args e :
  args_loop None args e = Ok (read_args args).2 (set_args (assign_all (read_args args).1 (m_args e)) e).
Proof.
  assert (∀ n args e, (length args ≤ n)%nat →
    args_loop None args e = Ok (read_args args).2 (set_args (assign_all (read_args args).1 (m_args e)) e)) as H; [|by eapply H].
  clear. assert (∀ e : Env, set_args (m_args e) e = e) as Hid by (by intros []).
  induction n as [|n IH]; intros [|w args] e Hn; cbn in Hn; try lia; cbn [read_args args_loop fst snd]; unfold assign_all; cbn [foldl]; [by rewrite Hid..|].
  destruct w as [|c [|c' key]]; cbn [option_key fst snd foldl]; [by rewrite Hid|by case_bool_decide; cbn; rewrite Hid|].
  case_bool_decide as Hc; [|by cbn; rewrite Hid]. rewrite (bind_ok _ _ e tt e) by done. destruct args as [|v args]; [done|]. cbn [length] in Hn.
  destruct v as [|d v]; cbn [is_value args_loop].
  { unfold add. rewrite bind_modify, IH by lia. by destruct (read_args args), e. }
  case_bool_decide as Hd; cbn [negb].
  - destruct v as [|d' v]; [by cbn; rewrite Hid|]. pose proof (IH ((d :: d' :: v) :: args) (set_args (map_assign string_lt (c' :: key) [] (m_args e)) e)) as H.
    cbn [args_loop length] in H. rewrite bool_decide_true in H by done. unfold add at 1. rewrite bind_modify.
    rewrite (bind_ok _ _ _ tt (set_args (map_assign string_lt (c' :: key) [] (m_args e)) e)) in H by done. rewrite H by lia.
    cbn [option_key]. rewrite bool_decide_true by done. destruct (read_args ((d :: d' :: v) :: args)) as [os b]. cbn. by destruct e.
  - unfold add. rewrite bind_modify, IH by lia. by destruct (read_args args), e.
Qed.

(** A command line is understood. Options that are written as -key or
    -key value, with keys that are not empty and values that do not begin with a
    dash, are accepted; has and get then answer for every key according to the
    last option with that key, an option without a value having the empty one. *)
Theorem command_line target program os key default_value :
  zlen target < 1024 → forallb option_ok os = true →
  ∃ e, ⟨ init target (program :: (os ≫= option_words)), Env_new ⟩ ⇓ ⟨ true, e ⟩ ∧ m_program e = program ∧
    ⟨ has key, e ⟩ ⇓ ⟨ (match last_value key os None with Some _ => true | None => false end), e ⟩ ∧
    ⟨ get key default_value, e ⟩ ⇓ ⟨ default default_value (last_value key os None), e ⟩.
Proof.
  intros Ht Hos. unfold init, read_exe. rewrite (proj2 (Z.ltb_lt _ _)) by done.
  rewrite (bind_ok _ _ _ (c_str target) Env_new), !bind_modify by done.
  rewrite args_loop_spec by done. eexists. split; [reflexivity|]. split; [done|]. unfold has, get.
  assert (map_find string_lt key (assign_all os []) = last_value key os None) as E by (by rewrite find_assign_all by constructor).
  split; mred; cbn [m_args set_args set_program set_paths Env_new]; by rewrite E.
Qed.

Lemma command_line_witness :
  let os := [(L "d", None); (L "c", Some (L "conf")); (L "c", Some (L "/etc/skt"))] in
  (L "skt" :: (os ≫= option_words)) = [L "skt"; L "-d"; L "-c"; L "conf"; L "-c"; L "/etc/skt"] ∧
  ∃ e, init (L "/bin/skt") (L "skt" :: (os ≫= option_words)) Env_new = Ok true e ∧ get (L "c") [] e = Ok (L "/etc/skt") e.
Proof.
  split; [by vm_compute|].
  destruct (command_line (L "/bin/skt") (L "skt") [(L "d", None); (L "c", Some (L "conf")); (L "c", Some (L "/etc/skt"))] (L "c") [])
    as (e & E & _ & _ & H); [by vm_compute|by vm_compute|]. exists e. split; [exact E|exact H].
Defined.

(** A word that is neither an option nor the value of one ends init, and so does
    a single dash. *)
Lemma stray_value v argv e : hd NUL v ≠ DASH → args_loop None (v :: argv) e = Ok false e.
Proof. destruct v as [|c v]; cbn; [done|]. intros H. by rewrite bool_decide_false. Qed.

Lemma single_dash k argv e : args_loop k ([DASH] :: argv) e = Ok false e.
Proof. done. Qed.

Lemma args_loop_cwd k argv e b e' : args_loop k argv e = Ok b e' → m_cwd e' = m_cwd e.
Proof.
  revert k e. induction argv as [|arg argv IH]; intros k e; cbn [args_loop].
  { destruct k; by intros [= _ <-]. }
  destruct arg as [|c key]; [|case_bool_decide as Hc].
  - destruct k; [|by intros [= _ <-]]. intros E%IH. by rewrite E.
  - destruct key as [|c' key]; [by intros [= _ <-]|]. destruct k; intros E%IH; by rewrite E.
  - destruct k; [|by intros [= _ <-]]. intros E%IH. by rewrite E.
Qed.

(** After init every path that getAbsolutePath gives is absolute, as the target
    of the link is. *)
Lemma absolute_path t argv b e path :
  init (SLASH :: t) argv Env_new = Ok b e → hd NUL (getAbsolutePath e path) = SLASH.
Proof.
  intros E. unfold getAbsolutePath. destruct path as [|c path]; [done|]. case_bool_decide as Hc; [by subst|].
  revert E. unfold init. destruct (read_exe (SLASH :: t)) as [exe|] eqn:Er; [|done]. unfold read_exe in Er. destruct (_ <? 1024); [|done].
  injection Er as <-. rewrite (bind_ok _ _ _ (c_str (SLASH :: t)) Env_new), bind_modify by done. destruct argv as [|p argv]; [done|].
  rewrite bind_modify. intros E%args_loop_cwd. rewrite E. cbn [m_cwd set_program set_paths].
  assert (c_str (SLASH :: t) = SLASH :: c_str t) as -> by done. unfold dir_of. cbn [before_last].
  destruct (before_last SLASH (c_str t)); done.
Qed.

(** A path of 1024 bytes leaves the buffer without a terminator. *)
Lemma long_exe_path argv e : init (replicate 1024 SLASH) argv e = Stop OutOfBounds.
Proof. by vm_compute. Qed.
