(* ===== verification/FsUtil.v ===== *)
(** FSUtil and the time functions (skt/util/util.h, skt/util/util.cpp).

    The file system is the class [FileSystem]; a directory is the list of the
    entries that readdir returns. *)

From stdpp Require Import base list strings sets.
From Stdlib Require Import Ascii Lia.
From S2P Require Import Prelude CString Env.

Inductive dtype : Type := DT_DIR | DT_REG | DT_OTHER.

Class FileSystem (K : Type) : Type := {
  access_ok : K → str → bool;                          (* access(path, F_OK) == 0 *)
  lstat_ok : K → str → bool;                           (* lstat(path, ...) == 0 *)
  opendir : K → str → option (list (dtype * str));
  mkdir_f : K → str → bool * K;
  read_line : K → str → option str;                    (* ifstream and getline *)
  kill_ok : K → Z → bool                               (* kill(pid, 0) == 0 *)
}.

(** mkdir makes the directory, and takes no path away. *)
Class FileSystemLaws (K : Type) `{FS : FileSystem K} : Prop := {
  fl_mkdir k p k' : mkdir_f k p = (true, k') → access_ok k' p = true;
  fl_keep k p k' b q : mkdir_f k p = (b, k') → access_ok k q = true → access_ok k' q = true;
  fl_lstat k p : access_ok k p = true → lstat_ok k p = true
}.

(** GetCurrentMs, GetCurrentUs for the answer of gettimeofday. *)
Definition GetCurrentMs (tv_sec tv_usec : Z) : Z := u64 (tv_sec * 1000 + Z.quot tv_usec 1000).
Definition GetCurrentUs (tv_sec tv_usec : Z) : Z := u64 (i64 (tv_sec * 1000) * 1000 + tv_usec).

Section Files.
Context {K : Type} `{FS : FileSystem K}.
Implicit Types k : K.

(** The test of a file name against the suffix. *)
Definition has_subfix (subfix filename : str) : bool :=
  match subfix with
  | [] => true
  | _ => if (length filename <? length subfix)%nat then false
         else streq (drop (length filename - length subfix) filename) subfix
  end.

(** The loop of ListAllFile over the entries of a directory; [rec] lists a
    subdirectory. *)
Fixpoint list_entries (rec : list str → str → option (list str)) (path subfix : str) (es : list (dtype * str)) (files : list str)
    : option (list str) :=
  match es with
  | [] => Some files
  | (t, d_name) :: es' =>
    match t with
    | DT_DIR =>
      if streq d_name (L ".") || streq d_name (L "..") then list_entries rec path subfix es' files
      else files' ← rec files (path ++ L "/" ++ d_name); list_entries rec path subfix es' files'
    | DT_REG => list_entries rec path subfix es' (if has_subfix subfix d_name then files ++ [path ++ L "/" ++ d_name] else files)
    | DT_OTHER => list_entries rec path subfix es' files
    end
  end.
(** FSUtil::ListAllFile; [fuel] bounds the depth of the directories. *)
Fixpoint ListAllFile (fuel : nat) k (files : list str) (path subfix : str) : option (list str) :=
  match fuel with
  | O => None
  | S fuel' =>
    if negb (access_ok k path) then Some files
    else match opendir k path with
         | None => Some files
         | Some es => list_entries (λ files' path', ListAllFile fuel' k files' path' subfix) path subfix es files
         end
  end.

(** __mkdir *)
Definition mkdir1 k (dirname : str) : bool * K := if access_ok k dirname then (true, k) else mkdir_f k dirname.

(** The loop over the slashes: [pre] is the path before them. *)
Fixpoint mkdir_loop k (pre rest : str) : bool * K :=
  match rest with
  | [] => mkdir1 k pre
  | c :: rest' =>
    if bool_decide (c = SLASH)
    then let '(ok, k') := mkdir1 k pre in if ok : bool then mkdir_loop k' (pre ++ [c]) rest' else (false, k')
    else mkdir_loop k (pre ++ [c]) rest'
  end.

(** FSUtil::Mkdir; the search for the first slash begins behind the first
    character. *)
Definition Mkdir (dirname : str) : M K bool := λ k,
  if lstat_ok k (c_str dirname) then Ok true k
  else match c_str dirname with
       | [] => Stop OutOfBounds
       | c :: rest => let '(ok, k') := mkdir_loop k [c] rest in Ok ok k'
       end.

(** FSUtil::IsRunningPidfile *)
Definition IsRunningPidfile k (pidfile : str) : bool :=
  if negb (lstat_ok k pidfile) then false
  else match read_line k pidfile with
       | None | Some [] => false
       | Some line => let pid := atoi (c_str line) in if pid <=? 1 then false else kill_ok k pid
       end.

(** ** Properties *)

(** A regular file with the suffix somewhere below a directory. *)
Inductive below k (subfix : str) : str → str → Prop :=
| below_here path es n :
    access_ok k path = true → opendir k path = Some es → (DT_REG, n) ∈ es → has_subfix subfix n = true → below k subfix path (path ++ L "/" ++ n)
| below_sub path es n f :
    access_ok k path = true → opendir k path = Some es → (DT_DIR, n) ∈ es → n ≠ L "." → n ≠ L ".." →
    below k subfix (path ++ L "/" ++ n) f → below k subfix path f.

(** The directories below a path are at most [n] deep. *)
Inductive depth k : nat → str → Prop :=
| depth_no n path : access_ok k path = false ∨ opendir k path = None → depth k n path
| depth_dir n path es :
    opendir k path = Some es →
    (∀ d, (DT_DIR, d) ∈ es → d ≠ L "." → d ≠ L ".." → depth k n (path ++ L "/" ++ d)) → depth k (S n) path.

(** The files a list of entries of [path] leads to. *)
Definition entry_leads k subfix path (es : list (dtype * str)) (f : str) : Prop :=
  (∃ n, (DT_REG, n) ∈ es ∧ has_subfix subfix n = true ∧ f = path ++ L "/" ++ n) ∨
  (∃ n, (DT_DIR, n) ∈ es ∧ n ≠ L "." ∧ n ≠ L ".." ∧ below k subfix (path ++ L "/" ++ n) f).

Definition head_leads k subfix path (t : dtype) (d f : str) : Prop :=
  match t with
  | DT_REG => has_subfix subfix d = true ∧ f = path ++ L "/" ++ d
  | DT_DIR => d ≠ L "." ∧ d ≠ L ".." ∧ below k subfix (path ++ L "/" ++ d) f
  | DT_OTHER => False
  end.

Lemma entry_leads_cons k subfix path t d es f :
  entry_leads k subfix path ((t, d) :: es) f ↔ head_leads k subfix path t d f ∨ entry_leads k subfix path es f.
Proof.
  unfold entry_leads. split.
  - intros [(n & [[= <- <-]|Hin]%elem_of_cons & H)|(n & [[= <- <-]|Hin]%elem_of_cons & H)];
      [by left|right; left; by exists n|by left|right; right; by exists n].
  - intros [H|[(n & Hin & H)|(n & Hin & H)]].
    + destruct t; [right; exists d|left; exists d|done]; (split; [by left|done]).
    + left. exists n. split; [by right|done].
    + right. exists n. split; [by right|done].
Qed.

Lemma list_entries_ok rec k subfix path es files :
  (∀ d files', (DT_DIR, d) ∈ es → d ≠ L "." → d ≠ L ".." →
     ∃ l, rec files' (path ++ L "/" ++ d) = Some (files' ++ l) ∧ ∀ f, f ∈ l ↔ below k subfix (path ++ L "/" ++ d) f) →
  ∃ l, list_entries rec path subfix es files = Some (files ++ l) ∧ ∀ f, f ∈ l ↔ entry_leads k subfix path es f.
Proof.
  revert files. induction es as [|[t d] es IH]; intros files Hrec; cbn [list_entries].
  { exists []. rewrite app_nil_r. split; [done|]. intros f. split; [intros H; by apply not_elem_of_nil in H|].
    by intros [(? & H%not_elem_of_nil & _)|(? & H%not_elem_of_nil & _)]. }
  assert (∀ files', ∃ l, list_entries rec path subfix es files' = Some (files' ++ l) ∧ ∀ f, f ∈ l ↔ entry_leads k subfix path es f) as IH'.
  { intros files'. apply IH. intros d' files2 Hd'. apply Hrec. by right. }
  assert ((∀ f, ¬ head_leads k subfix path t d f) →
    ∃ l, list_entries rec path subfix es files = Some (files ++ l) ∧ ∀ f, f ∈ l ↔ entry_leads k subfix path ((t, d) :: es) f) as Hskip.
  { intros Hn. destruct (IH' files) as (l & E & Hl). exists l. split; [done|]. intros f. rewrite entry_leads_cons, Hl. specialize (Hn f). tauto. }
  destruct t; [| |apply Hskip; by intros f []].
  - destruct (streq d (L ".") || streq d (L "..")) eqn:Edot.
    + apply Hskip. intros f (H1 & H2 & _). by apply orb_true_iff in Edot as [H%bool_decide_eq_true|H%bool_decide_eq_true].
    + apply orb_false_iff in Edot as [H1%bool_decide_eq_false H2%bool_decide_eq_false].
      destruct (Hrec d files) as (l1 & E1 & Hl1); [by left|done|done|]. destruct (IH' (files ++ l1)) as (l2 & E2 & Hl2).
      exists (l1 ++ l2). rewrite E1. cbn [mbind option_bind]. rewrite E2, (assoc_L (++)). split; [done|]. intros f.
      rewrite elem_of_app, entry_leads_cons, Hl1, Hl2. unfold head_leads. tauto.
  - destruct (has_subfix subfix d) eqn:Es; [|apply Hskip; intros f [H _]; congruence].
    destruct (IH' (files ++ [path ++ L "/" ++ d])) as (l & E & Hl). exists ((path ++ L "/" ++ d) :: l). rewrite E, <- (assoc_L (++)).
    split; [done|]. intros f. rewrite elem_of_cons, entry_leads_cons, Hl. unfold head_leads. rewrite Es. tauto.
Qed.

Lemma below_inv k subfix path f :
  below k subfix path f ↔ access_ok k path = true ∧ ∃ es, opendir k path = Some es ∧ entry_leads k subfix path es f.
Proof.
  split.
  - destruct 1; (split; [done|]; exists es; split; [done|]); [left|right]; by eexists.
  - intros (Ha & es & Ho & [(n & Hin & Hs & ->)|(n & Hin & H1 & H2 & Hb)]); [by eapply below_here|by eapply below_sub].
Qed.

Lemma ListAllFile_ok n k files path subfix :
  depth k n path → ∃ l, ListAllFile (S n) k files path subfix = Some (files ++ l) ∧ ∀ f, f ∈ l ↔ below k subfix path f.
Proof.
  intros Hd. revert files. induction Hd as [n path Hno|n path es Hes _ IH]; intros files.
  { exists []. cbn. rewrite app_nil_r. split; [destruct Hno as [-> | ->]; [done|by destruct (negb _)]|].
    intros f. rewrite below_inv. split; [intros H; by apply not_elem_of_nil in H|]. intros (Ha & es & Ho & _). destruct Hno; congruence. }
  cbn [ListAllFile]. setoid_rewrite below_inv. destruct (access_ok k path) eqn:Ha; cbn [negb].
  2: { exists []. rewrite app_nil_r. split; [done|]. intros f. split; [intros H; by apply not_elem_of_nil in H|]. by intros [? _]. }
  rewrite Hes. destruct (list_entries_ok (λ files' path', ListAllFile (S n) k files' path' subfix) k subfix path es files) as (l & E & Hl).
  { intros d files' Hin H1 H2. by apply IH. }
  exists l. split; [exact E|]. intros f. rewrite Hl. split; [intros H; split; [done|]; by exists es|]. intros (_ & es' & [= ->] & H). done.
Qed.

(** ListAllFile finds exactly the regular files below a directory whose
    names end in the suffix, through all subdirectories, and appends them to
    the files it was given; it ends when the directories are not deeper than
    the bound. *)
Theorem ListAllFile_finds n k files path subfix :
  depth k n path → ∃ l, ListAllFile (S n) k files path subfix = Some (files ++ l) ∧ ∀ f, f ∈ l ↔ below k subfix path f.
Proof. apply ListAllFile_ok. Qed.

Lemma mkdir1_ok `{!FileSystemLaws K} k p k' :
  mkdir1 k p = (true, k') → access_ok k' p = true ∧ ∀ q, access_ok k q = true → access_ok k' q = true.
Proof.
  unfold mkdir1. destruct (access_ok k p) eqn:E; [by intros [= <-]|]. intros H. split; [by eapply fl_mkdir|]. intros q. by eapply fl_keep.
Qed.

Lemma mkdir_loop_ok `{!FileSystemLaws K} k pre rest k' :
  mkdir_loop k pre rest = (true, k') →
  access_ok k' (pre ++ rest) = true ∧ (∀ q, access_ok k q = true → access_ok k' q = true) ∧
  ∀ a b, rest = a ++ SLASH :: b → access_ok k' (pre ++ a) = true.
Proof.
  revert k pre. induction rest as [|c rest IH]; intros k pre; cbn [mkdir_loop].
  { intros H%mkdir1_ok. rewrite app_nil_r. destruct H. split_and!; [done..|]. intros a b Hab. by destruct a. }
  assert (∀ t, pre ++ c :: t = (pre ++ [c]) ++ t) as Hc by (intros; by rewrite <- (assoc_L (++))).
  case_bool_decide as Es.
  - destruct (mkdir1 k pre) as [ok k1] eqn:E1. destruct ok; [|done]. apply mkdir1_ok in E1 as [H1 H2]. intros (H3 & H4 & H5)%IH.
    rewrite Hc. split; [done|]. split; [auto|]. intros [|c' a] b; [rewrite app_nil_r; intros _; by apply H4|]. intros [= <- Hab]. rewrite Hc. by eapply H5.
  - intros (H3 & H4 & H5)%IH. rewrite Hc. split; [done|]. split; [done|]. intros [|c' a] b; intros [= -> Hab]; [done|]. rewrite Hc. by eapply H5.
Qed.

(** Mkdir makes the directory and the directories on the way. *)
Lemma Mkdir_makes `{!FileSystemLaws K} dirname k k' :
  lstat_ok k (c_str dirname) = false → Mkdir dirname k = Ok true k' →
  access_ok k' (c_str dirname) = true ∧ ∀ a b, a ≠ [] → c_str dirname = a ++ SLASH :: b → access_ok k' a = true.
Proof.
  unfold Mkdir. intros ->. destruct (c_str dirname) as [|c rest]; [done|]. destruct (mkdir_loop k [c] rest) as [ok k1] eqn:E.
  intros [= -> ->]. apply mkdir_loop_ok in E as (H1 & _ & H2). split; [done|]. intros [|c' a] b; [done|]. intros _ [= <- Hab]. by apply (H2 a b).
Qed.

(** The empty name has no character behind the first. *)
Lemma Mkdir_empty k : lstat_ok k [] = false → Mkdir [] k = Stop OutOfBounds.
Proof. intros H. unfold Mkdir. cbn. by rewrite H. Qed.
End Files.

(** A file system with one directory and a subdirectory. *)
#[global] Instance demo_fs : FileSystem unit := {|
  access_ok _ p := true;
  lstat_ok _ p := true;
  opendir _ p :=
    if streq p (L "/c") then Some [(DT_DIR, L "."); (DT_DIR, L ".."); (DT_DIR, L "d"); (DT_REG, L "a.yml"); (DT_REG, L "b.txt")]
    else if streq p (L "/c/d") then Some [(DT_DIR, L "."); (DT_DIR, L ".."); (DT_REG, L "e.yml")] else None;
  mkdir_f _ _ := (true, ());
  read_line _ _ := None;
  kill_ok _ _ := false
|}.

Lemma ListAllFile_finds_witness :
  ∃ l, ListAllFile 3 () [] (L "/c") (L ".yml") = Some ([] ++ l) ∧ L "/c/d/e.yml" ∈ l.
Proof.
  destruct (ListAllFile_finds 2 () [] (L "/c") (L ".yml")) as (l & E & Hl).
  - eapply depth_dir; [reflexivity|]. intros d Hd H1 H2.
    assert (d = L "d") as -> by (repeat (apply elem_of_cons in Hd as [[= ->]|Hd]; try done); by apply not_elem_of_nil in Hd).
    eapply depth_dir; [reflexivity|]. intros d2 Hd2 H3 H4. exfalso.
    repeat (apply elem_of_cons in Hd2 as [[= ->]|Hd2]; try done). by apply not_elem_of_nil in Hd2.
  - exists l. split; [exact E|]. vm_compute in E. injection E as <-. by left.
Defined.
