(* ===== verification/Yaml.v ===== *)
(** LexicalCast: configuration values and their texts (skt/config/config.h).

    yaml-cpp is the class [Yaml]; None stands for an exception. The casts of
    elements are arguments of the casts of containers, as the templates are
    instantiated. *)

From stdpp Require Import base list strings sets gmap.
From Stdlib Require Import Ascii Lia.
From S2P Require Import Prelude StdOrdered CString.

Class Yaml (N : Type) : Type := {
  Load : str → option N;
  Emit : N → str;                     (* operator<< *)
  IsScalar : N → bool;
  IsMap : N → bool;
  IsDefined : N → bool;
  Scalar : N → str;
  as_string : N → option str;         (* as<std::string>() *)
  node_size : N → nat;
  at_index : N → nat → N;             (* node[i] *)
  at_key : N → str → N;               (* node["key"] *)
  members : N → list (N * N);         (* begin() to end() of a map *)
  empty_node : N;                     (* YAML::Node node; *)
  push_back : N → N → N;
  set_key : N → str → N → N;          (* node["key"] = value *)
  of_string : str → N                 (* a node assigned from a string *)
}.

Section Casts.
Context {N : Type} `{Y : Yaml N}.

(** The loop over node[0], ..., node[size - 1]. *)
Definition elements_of (node : N) : list N := at_index node <$> seq 0 (node_size node).

(** LexicalCast<std::string, std::vector<T>> and std::list<T> *)
Definition cast_all {T} (cast : str → option T) (l : list N) : option (list T) := mapM (λ n, cast (Emit n)) l.
Definition string_to_vector {T} (cast : str → option T) (v : str) : option (list T) :=
  node ← Load v; cast_all cast (elements_of node).

(** LexicalCast<std::vector<T>, std::string> and std::list<T> *)
Fixpoint push_all {T} (cast : T → option str) (l : list T) (node : N) : option N :=
  match l with
  | [] => Some node
  | x :: l' => t ← cast x; n ← Load t; push_all cast l' (push_back node n)
  end.
Definition vector_to_string {T} (cast : T → option str) (v : list T) : option str :=
  node ← push_all cast v empty_node; Some (Emit node).

(** LexicalCast<std::string, std::set<T>>: insert keeps what is there. *)
Definition string_to_set {T} (lt : T → T → bool) (cast : str → option T) (v : str) : option (list T) :=
  node ← Load v; xs ← cast_all cast (elements_of node); Some (foldl (λ s x, (set_insert lt x s).1) [] xs).
Definition set_to_string {T} (cast : T → option str) (v : list T) : option str := vector_to_string cast v.

(** std::unordered_set; [iter] is the order of its elements. *)
Definition string_to_unordered_set {T} `{Countable T} (cast : str → option T) (v : str) : option (gset T) :=
  node ← Load v; xs ← cast_all cast (elements_of node); Some (list_to_set xs).
Definition unordered_set_to_string {T} `{Countable T} (iter : gset T → list T) (cast : T → option str) (v : gset T) : option str :=
  vector_to_string cast (iter v).

(** LexicalCast<std::string, std::map<std::string, T>>: insert keeps the first
    of two equal keys. *)
Definition cast_members {T} (cast : str → option T) (l : list (N * N)) : option (list (str * T)) :=
  mapM (λ '(k, n), x ← cast (Emit n); Some (Scalar k, x)) l.
Definition map_insert {T} (m : list (str * T)) (e : str * T) : list (str * T) :=
  match map_find string_lt e.1 m with Some _ => m | None => map_assign string_lt e.1 e.2 m end.
Definition string_to_map {T} (cast : str → option T) (v : str) : option (list (str * T)) :=
  node ← Load v; es ← cast_members cast (members node); Some (foldl map_insert [] es).

(** LexicalCast<std::map<std::string, T>, std::string> *)
Fixpoint set_all {T} (cast : T → option str) (l : list (str * T)) (node : N) : option N :=
  match l with
  | [] => Some node
  | (k, x) :: l' => t ← cast x; n ← Load t; set_all cast l' (set_key node k n)
  end.
Definition map_to_string {T} (cast : T → option str) (v : list (str * T)) : option str :=
  node ← set_all cast v empty_node; Some (Emit node).

(** std::unordered_map; [iter] is the order of its entries. *)
Definition string_to_unordered_map {T} (cast : str → option T) (v : str) : option (gmap str T) :=
  node ← Load v; es ← cast_members cast (members node);
  Some (foldl (λ m e, match m !! e.1 with Some _ => m | None => <[e.1 := e.2]> m end) ∅ es).
Definition unordered_map_to_string {T} (iter : gmap str T → list (str * T)) (cast : T → option str) (v : gmap str T) : option str :=
  map_to_string cast (iter v).
End Casts.

(** ** The laws of documents *)

(** A sequence that is built with push_back has the elements in order, a map
    that is built by assigning different keys has these members in order, and
    both are read back from their texts. *)
Definition seq_node {N} `{Yaml N} (l : list N) : N := foldl push_back empty_node l.
Definition map_node {N} `{Yaml N} (l : list (str * N)) : N := foldl (λ n e, set_key n e.1 e.2) empty_node l.

Class YamlLaws (N : Type) `{Y : Yaml N} : Prop := {
  yl_size l : node_size (seq_node l) = length l;
  yl_index l i n : l !! i = Some n → at_index (seq_node l) i = n;
  yl_load_seq l : Load (Emit (seq_node l)) = Some (seq_node l);
  yl_members l : NoDup (l.*1) → (λ e, (Scalar e.1, e.2)) <$> members (map_node l) = l;
  yl_load_map l : NoDup (l.*1) → Load (Emit (map_node l)) = Some (map_node l);
  (** A key has the value that was assigned last, and is not defined before. *)
  yl_at l k n : NoDup (l.*1) → (k, n) ∈ l → at_key (map_node l) k = n;
  yl_undefined l k : NoDup (l.*1) → k ∉ l.*1 → IsDefined (at_key (map_node l) k) = false;
  yl_assign l k n n' : NoDup (l.*1) → k ∉ l.*1 → set_key (map_node (l ++ [(k, n)])) k n' = map_node (l ++ [(k, n')]);
  yl_defined_seq l : l ≠ [] → IsDefined (seq_node l) = true;
  yl_defined_string x : IsDefined (of_string x) = true;
  yl_as_string x : as_string (of_string x) = Some x
}.

Section Roundtrips.
Context {N : Type} `{Y : Yaml N} `{YL : !YamlLaws N}.

(** The text of a value is a document, and the value is read back from the text
    of this document. *)
Definition reads_back {T} (to : T → option str) (from : str → option T) : Prop :=
  ∀ x t, to x = Some t → ∃ n, Load t = Some n ∧ from (Emit n) = Some x.

Lemma elements_of_seq (l : list N) : elements_of (seq_node l) = l.
Proof.
  unfold elements_of. rewrite yl_size. apply list_eq. intros i. rewrite list_lookup_fmap.
  destruct (decide (i < length l)%nat) as [Hi|Hi].
  - rewrite lookup_seq_lt by done. cbn. destruct (lookup_lt_is_Some_2 l i Hi) as [n Hn]. by rewrite Hn, (yl_index _ _ _ Hn).
  - rewrite lookup_seq_ge, lookup_ge_None_2 by lia. done.
Qed.

Lemma push_all_spec {T} (to : T → option str) from l l0 node :
  reads_back to from → push_all to l (seq_node l0) = Some node → ∃ ns, node = seq_node (l0 ++ ns) ∧ cast_all from ns = Some l.
Proof.
  intros Hrt. revert l0. induction l as [|x l IH]; intros l0; cbn [push_all].
  { intros [= <-]. exists []. by rewrite app_nil_r. }
  destruct (to x) as [t|] eqn:Et; cbn; [|done]. destruct (Hrt x t Et) as (n & Hn & Hfrom). rewrite Hn. cbn.
  assert (push_back (seq_node l0) n = seq_node (l0 ++ [n])) as -> by (unfold seq_node; by rewrite foldl_app).
  intros (ns & -> & Hns)%IH. exists (n :: ns). rewrite <- (assoc_L (++)). split; [done|]. unfold cast_all in *. cbn. by rewrite Hfrom, Hns.
Qed.

Lemma vector_reads_back {T} (to : T → option str) from : reads_back to from → reads_back (vector_to_string to) (string_to_vector from).
Proof.
  intros Hrt v t. unfold vector_to_string. destruct (push_all to v empty_node) as [node|] eqn:E; cbn; [|done]. intros [= <-].
  destruct (push_all_spec to from v [] node Hrt E) as (ns & -> & Hns). exists (seq_node ns). cbn [app]. rewrite yl_load_seq. split; [done|].
  unfold string_to_vector. rewrite yl_load_seq. cbn [mbind option_bind]. by rewrite elements_of_seq.
Qed.

Lemma insert_ordered {T} (lt : T → T → bool) `{!StrictWeak lt} l0 l :
  ordered lt id (l0 ++ l) → foldl (λ s x, (set_insert lt x s).1) l0 l = l0 ++ l.
Proof.
  revert l0. induction l as [|x l IH]; intros l0 Ho; [by rewrite app_nil_r|]. cbn [foldl].
  assert ((set_insert lt x l0).1 = l0 ++ [x]) as ->; [|rewrite IH by (by rewrite <- (assoc_L (++))); by rewrite <- (assoc_L (++))].
  apply ordered_app in Ho as (_ & _ & H). unfold set_insert.
  assert (lower_split lt id x l0 = (l0, [])) as ->; [|done].
  assert (∀ y, y ∈ l0 → lt y x = true) as Hx by (intros y Hy; apply (H y x); [done|by left]). clear -Hx.
  induction l0 as [|y l0 IH]; [done|]. cbn. rewrite (Hx y) by (by left). rewrite IH; [done|]. intros z Hz. apply Hx. by right.
Qed.

Lemma set_reads_back {T} (lt : T → T → bool) `{!StrictWeak lt} (to : T → option str) from v t :
  reads_back to from → ordered lt id v → set_to_string to v = Some t → ∃ n, Load t = Some n ∧ string_to_set lt from (Emit n) = Some v.
Proof.
  intros Hrt Ho Ht. destruct (vector_reads_back to from Hrt v t Ht) as (n & Hn & Hv). exists n. split; [done|].
  unfold string_to_vector, string_to_set in *. destruct (Load (Emit n)) as [n'|]; cbn in *; [|done]. rewrite Hv. cbn.
  by rewrite (insert_ordered lt []).
Qed.

Lemma unordered_set_reads_back {T} `{Countable T} iter (to : T → option str) from :
  (∀ X, iter X ≡ₚ elements X) → reads_back to from → reads_back (unordered_set_to_string iter to) (string_to_unordered_set from).
Proof.
  intros Hi Hrt X t Ht. destruct (vector_reads_back to from Hrt _ t Ht) as (n & Hn & Hv). exists n. split; [done|].
  unfold string_to_vector, string_to_unordered_set in *. destruct (Load (Emit n)) as [n'|]; cbn in *; [|done]. rewrite Hv. cbn. f_equal.
  apply set_eq. intros x. by rewrite elem_of_list_to_set, Hi, elem_of_elements.
Qed.

Lemma set_all_spec {T} (to : T → option str) from l l0 node :
  reads_back to from → set_all to l (map_node l0) = Some node →
  ∃ ns, node = map_node (l0 ++ ns) ∧ ns.*1 = l.*1 ∧ mapM (λ e, x ← from (Emit e.2); Some (e.1, x)) ns = Some l.
Proof.
  intros Hrt. revert l0. induction l as [|[k x] l IH]; intros l0; cbn [set_all].
  { intros [= <-]. exists []. by rewrite app_nil_r. }
  destruct (to x) as [t|] eqn:Et; cbn [mbind option_bind]; [|done]. destruct (Hrt x t Et) as (n & Hn & Hfrom). rewrite Hn. cbn [mbind option_bind].
  assert (set_key (map_node l0) k n = map_node (l0 ++ [(k, n)])) as -> by (unfold map_node; by rewrite foldl_app).
  intros (ns & -> & Hk & Hns)%IH. exists ((k, n) :: ns). rewrite <- (assoc_L (++)). split; [done|]. split; [cbn; by rewrite Hk|].
  cbn. by rewrite Hfrom, Hns.
Qed.

(** The document of a map, and its members as the casts see them. *)
Lemma members_read_back {T} (to : T → option str) from v t :
  reads_back to from → NoDup (v.*1) → map_to_string to v = Some t →
  ∃ n, Load t = Some n ∧ Load (Emit n) = Some n ∧ cast_members from (members n) = Some v.
Proof.
  intros Hrt Hnd. unfold map_to_string. destruct (set_all to v empty_node) as [node|] eqn:E; cbn [mbind option_bind]; [|done]. intros [= <-].
  destruct (set_all_spec to from v [] node Hrt E) as (ns & -> & Hk & Hns). cbn [app] in *.
  assert (NoDup (ns.*1)) as Hnd' by (by rewrite Hk). exists (map_node ns). rewrite yl_load_map by done. split; [done|]. split; [done|].
  rewrite <- Hns. rewrite <- (yl_members ns Hnd') at 2. unfold cast_members. clear. induction (members (map_node ns)) as [|[k n] l IH]; [done|].
  cbn. destruct (from (Emit n)); cbn; [|done]. by rewrite IH.
Qed.

Lemma map_insert_ordered {T} (l0 l : list (str * T)) :
  ordered string_lt fst (l0 ++ l) → foldl map_insert l0 l = l0 ++ l.
Proof.
  revert l0. induction l as [|[k x] l IH]; intros l0 Ho; [by rewrite app_nil_r|]. cbn [foldl].
  assert (map_insert l0 (k, x) = l0 ++ [(k, x)]) as ->; [|rewrite IH by (by rewrite <- (assoc_L (++))); by rewrite <- (assoc_L (++))].
  apply ordered_app in Ho as (_ & _ & H).
  assert (∀ y, y ∈ l0 → string_lt y.1 k = true) as Hx by (intros y Hy; apply (H y (k, x)); [done|by left]).
  assert (lower_split string_lt fst k l0 = (l0, [])) as E.
  { clear -Hx. induction l0 as [|y l0 IH]; [done|]. cbn. rewrite (Hx y) by (by left). rewrite IH; [done|]. intros z Hz. apply Hx. by right. }
  unfold map_insert, map_find, map_assign. cbn [fst snd]. by rewrite E.
Qed.

Lemma ordered_keys {T} (m : list (str * T)) : ordered string_lt fst m → NoDup (m.*1).
Proof.
  induction 1 as [|[k x] m Hm IH Hx]; [constructor|]. cbn. constructor; [|done]. intros ([k' x'] & Hk & Hin)%list_elem_of_fmap. cbn in Hk. subst.
  rewrite Forall_forall in Hx. specialize (Hx _ Hin). cbn [fst] in Hx. by rewrite (sw_irrefl (lt := string_lt)) in Hx.
Qed.

Lemma map_reads_back {T} (to : T → option str) from v t :
  reads_back to from → ordered string_lt fst v → map_to_string to v = Some t → ∃ n, Load t = Some n ∧ string_to_map from (Emit n) = Some v.
Proof.
  intros Hrt Ho Ht. destruct (members_read_back to from v t Hrt (ordered_keys v Ho) Ht) as (n & Hn & Hl & Hm). exists n. split; [done|].
  unfold string_to_map. rewrite Hl. cbn [mbind option_bind]. rewrite Hm. cbn [mbind option_bind]. by rewrite (map_insert_ordered []).
Qed.

Lemma unordered_insert {T} (l : list (str * T)) m :
  NoDup (l.*1) → (∀ k, k ∈ l.*1 → m !! k = None) →
  foldl (λ (m : gmap str T) e, match m !! e.1 with Some _ => m | None => <[e.1 := e.2]> m end) m l = list_to_map l ∪ m.
Proof.
  revert m. induction l as [|[k x] l IH]; intros m Hnd Hm; [cbn; by rewrite (left_id_L ∅ (∪))|]. cbn [foldl fst snd].
  apply NoDup_cons in Hnd as [Hk Hnd]. rewrite Hm by (by left). rewrite IH; [|done|].
  - cbn. rewrite <- insert_union_r, insert_union_l; [done|]. by apply not_elem_of_list_to_map_1.
  - intros k' Hk'. rewrite lookup_insert_ne by (intros ->; done). apply Hm. by right.
Qed.

Lemma unordered_map_reads_back {T} iter (to : T → option str) from :
  (∀ m : gmap str T, iter m ≡ₚ map_to_list m) → reads_back to from → reads_back (unordered_map_to_string iter to) (string_to_unordered_map from).
Proof.
  intros Hi Hrt m t Ht. assert (NoDup ((iter m).*1)) as Hnd by (rewrite Hi; apply NoDup_fst_map_to_list).
  destruct (members_read_back to from (iter m) t Hrt Hnd Ht) as (n & Hn & Hl & Hm). exists n. split; [done|].
  unfold string_to_unordered_map. rewrite Hl. cbn [mbind option_bind]. rewrite Hm. cbn [mbind option_bind]. f_equal.
  rewrite unordered_insert by (done || intros; apply lookup_empty). rewrite (right_id_L ∅ (∪)).
  rewrite (list_to_map_proper (iter m) (map_to_list m)) by done. apply list_to_map_to_list.
Qed.

(** Configured containers survive their text. When the elements of a
    container are read back from their texts, so are vectors and lists, sets,
    maps, and their unordered forms in whatever order they are iterated; this
    nests to any depth, as a container that is read back can be an element. *)
Theorem containers_read_back {T} `{Countable T} (lt : T → T → bool) `{!StrictWeak lt} (to : T → option str) from iter_set iter_map :
  reads_back to from → (∀ X : gset T, iter_set X ≡ₚ elements X) → (∀ m : gmap str T, iter_map m ≡ₚ map_to_list m) →
  reads_back (vector_to_string to) (string_to_vector from) ∧
  (∀ v t, ordered lt id v → set_to_string to v = Some t → ∃ n, Load t = Some n ∧ string_to_set lt from (Emit n) = Some v) ∧
  (∀ v t, ordered string_lt fst v → map_to_string to v = Some t → ∃ n, Load t = Some n ∧ string_to_map from (Emit n) = Some v) ∧
  reads_back (unordered_set_to_string iter_set to) (string_to_unordered_set from) ∧
  reads_back (unordered_map_to_string iter_map to) (string_to_unordered_map from).
Proof.
  intros Hrt H1 H2. split_and!.
  - by apply vector_reads_back.
  - intros v t. by apply set_reads_back.
  - intros v t. by apply map_reads_back.
  - by apply unordered_set_reads_back.
  - by apply unordered_map_reads_back.
Qed.
End Roundtrips.

(** ** A concrete notation of documents *)

(** Leaves are scalars; nodes with label 1 are sequences, with label 2 maps. *)
Abbreviation doc := (gen_tree str).

Fixpoint bits (p : positive) : str :=
  match p with xH => [] | xO p => "0"%char :: bits p | xI p => "1"%char :: bits p end.
Fixpoint of_bits (s : str) : positive :=
  match s with [] => xH | c :: s' => if bool_decide (c = "1"%char) then xI (of_bits s') else xO (of_bits s') end.

Lemma of_bits_bits p : of_bits (bits p) = p.
Proof. induction p as [p IH|p IH|]; cbn; [|rewrite bool_decide_false by done|done]; by rewrite IH. Qed.

Definition doc_push (n m : doc) : doc :=
  match n with GenNode 1 l => GenNode 1 (l ++ [m]) | GenNode 0 [] => GenNode 1 [m] | _ => n end.
Definition doc_entry (e : str * doc) : doc := GenNode 0 [GenLeaf e.1; e.2].
Fixpoint doc_assign (k : str) (m : doc) (l : list doc) : list doc :=
  match l with
  | GenNode 0 [GenLeaf k'; m'] :: l' => if streq k' k then doc_entry (k, m) :: l' else doc_entry (k', m') :: doc_assign k m l'
  | x :: l' => x :: doc_assign k m l'
  | [] => [doc_entry (k, m)]
  end.
Definition doc_set (n : doc) (k : str) (m : doc) : doc :=
  match n with GenNode 2 l => GenNode 2 (doc_assign k m l) | GenNode 0 [] => GenNode 2 [doc_entry (k, m)] | _ => n end.
Definition doc_members (n : doc) : list (doc * doc) :=
  match n with GenNode 2 l => omap (λ e, match e with GenNode 0 [k; m] => Some (k, m) | _ => None end) l | _ => [] end.
Definition doc_scalar (n : doc) : str := match n with GenLeaf s => s | _ => [] end.

#[global] Instance doc_yaml : Yaml doc := {|
  Load s := decode (of_bits s);
  Emit n := bits (encode n);
  IsScalar n := match n with GenLeaf _ => true | _ => false end;
  IsMap n := match n with GenNode 2 _ => true | _ => false end;
  IsDefined n := match n with GenNode 3 _ => false | _ => true end;
  Scalar := doc_scalar;
  as_string n := match n with GenLeaf s => Some s | _ => None end;
  node_size n := match n with GenNode 1 l => length l | _ => 0%nat end;
  at_index n i := match n with GenNode 1 l => default (GenNode 3 []) (l !! i) | _ => GenNode 3 [] end;
  at_key n k := match filter (λ e, doc_scalar e.1 = k) (doc_members n) with e :: _ => e.2 | [] => GenNode 3 [] end;
  members := doc_members;
  empty_node := GenNode 0 [];
  push_back := doc_push;
  set_key := doc_set;
  of_string := GenLeaf
|}.

Lemma doc_seq (l l0 : list doc) : l0 ≠ [] → foldl doc_push (GenNode 1 l0) l = GenNode 1 (l0 ++ l).
Proof.
  revert l0. induction l as [|n l IH]; intros l0 Hl; [by rewrite app_nil_r|]. cbn [foldl doc_push].
  rewrite IH by (by destruct l0). by rewrite <- (assoc_L (++)).
Qed.

Lemma doc_seq_node (l : list doc) : seq_node l = match l with [] => GenNode 0 [] | _ => GenNode 1 l end.
Proof. destruct l as [|n l]; [done|]. exact (doc_seq l [n] ltac:(done)). Qed.

Lemma doc_assign_new k m (l : list (str * doc)) : k ∉ l.*1 → doc_assign k m (doc_entry <$> l) = doc_entry <$> (l ++ [(k, m)]).
Proof.
  induction l as [|[k' m'] l IH]; [done|]. cbn [fmap list_fmap fst]. intros [H1 H2]%not_elem_of_cons. cbn. unfold streq.
  rewrite bool_decide_false by done. by rewrite IH.
Qed.

Lemma doc_assign_old k m m' (l : list (str * doc)) :
  k ∉ l.*1 → doc_assign k m' (doc_entry <$> (l ++ [(k, m)])) = doc_entry <$> (l ++ [(k, m')]).
Proof.
  induction l as [|[k' m2] l IH]; [cbn; unfold streq; by rewrite bool_decide_true|].
  cbn [fmap list_fmap fst]. intros [H1 H2]%not_elem_of_cons. cbn. unfold streq. rewrite bool_decide_false by done. by rewrite IH.
Qed.

Lemma doc_map (l l0 : list (str * doc)) :
  l0 ≠ [] → NoDup ((l0 ++ l).*1) → foldl (λ n e, doc_set n e.1 e.2) (GenNode 2 (doc_entry <$> l0)) l = GenNode 2 (doc_entry <$> (l0 ++ l)).
Proof.
  revert l0. induction l as [|[k m] l IH]; intros l0 Hl Hnd; [by rewrite app_nil_r|]. cbn [foldl doc_set fst snd].
  rewrite doc_assign_new.
  - assert (l0 ++ (k, m) :: l = (l0 ++ [(k, m)]) ++ l) as E by (by rewrite <- (assoc_L (++))). rewrite E in Hnd |- *. apply IH; [by destruct l0|done].
  - rewrite fmap_app in Hnd. apply NoDup_app in Hnd as (_ & H & _). intros Hk. apply (H k Hk). by left.
Qed.

Lemma doc_map_node (l : list (str * doc)) :
  NoDup (l.*1) → map_node l = match l with [] => GenNode 0 [] | _ => GenNode 2 (doc_entry <$> l) end.
Proof. destruct l as [|e l]; [done|]. intros H. assert ([e] ≠ []) by done. destruct e. by apply (doc_map l [(_, _)]). Qed.

Lemma doc_members_entries (es : list (str * doc)) : doc_members (GenNode 2 (doc_entry <$> es)) = (λ e, (GenLeaf e.1, e.2)) <$> es.
Proof. induction es as [|[k n] es IH]; [done|]. cbn in *. by rewrite IH. Qed.

Lemma doc_members_node (l : list (str * doc)) : NoDup (l.*1) → doc_members (map_node l) = (λ e, (GenLeaf e.1, e.2)) <$> l.
Proof. intros H. rewrite doc_map_node by done. destruct l; [done|]. apply doc_members_entries. Qed.

Lemma doc_load (n : doc) : Load (Emit n) = Some n.
Proof. cbn. by rewrite of_bits_bits, decode_encode. Qed.

#[global] Instance doc_laws : YamlLaws doc.
Proof.
  split.
  - intros l. rewrite doc_seq_node. by destruct l.
  - intros l i n Hi. rewrite doc_seq_node. destruct l; [done|]. cbn [at_index doc_yaml]. by rewrite Hi.
  - intros l. apply doc_load.
  - intros l Hl. cbn [members doc_yaml]. rewrite doc_members_node by done. rewrite <- list_fmap_compose.
    rewrite <- (list_fmap_id l) at 2. apply list_fmap_ext. by intros _ [k n] _.
  - intros l _. apply doc_load.
  - intros l k n Hl Hin. cbn [at_key doc_yaml]. rewrite doc_members_node by done. revert Hl Hin. clear. induction l as [|[k' n'] l IH].
    { intros _ Hin. by apply not_elem_of_nil in Hin. }
    cbn [fmap list_fmap fst snd]. intros [Hk Hnd]%NoDup_cons Hin. rewrite filter_cons. cbn [doc_scalar fst]. case_decide as E.
    + subst k'. apply elem_of_cons in Hin as [[= ->]|Hin]; [done|]. destruct Hk. apply list_elem_of_fmap. by exists (k, n).
    + apply elem_of_cons in Hin as [[= -> ->]|Hin]; [done|]. by apply IH.
  - intros l k Hl Hk. cbn [at_key IsDefined doc_yaml]. rewrite doc_members_node by done.
    assert (filter (λ e : doc * doc, doc_scalar e.1 = k) ((λ e : str * doc, (GenLeaf e.1, e.2)) <$> l) = []) as ->; [|done].
    revert Hk. clear. induction l as [|[k' n'] l IH]; [done|]. cbn [fmap list_fmap fst snd]. intros [H1 H2]%not_elem_of_cons.
    rewrite filter_cons_False; [by apply IH|]. cbn. congruence.
  - intros l k n n' Hl Hk. assert (∀ m, NoDup ((l ++ [(k, m)]).*1)) as Hnd.
    { intros m. rewrite fmap_app. apply NoDup_app. split_and!; [done| |by apply NoDup_singleton]. intros x Hx ->%list_elem_of_singleton. done. }
    rewrite !doc_map_node by done. destruct l as [|e l]; [cbn; unfold streq; by rewrite bool_decide_true|].
    cbn [app set_key doc_yaml doc_set]. f_equal. exact (doc_assign_old k n n' (e :: l) Hk).
  - intros l Hl. rewrite doc_seq_node. by destruct l.
  - done.
  - done.
Qed.

Definition text_to (s : str) : option str := Some (Emit (GenLeaf s : doc)).
Definition text_from (t : str) : option str := n ← (Load t : option doc); as_string n.

Lemma text_reads_back : reads_back (N := doc) text_to text_from.
Proof. intros s t [= <-]. exists (GenLeaf s). split; [apply doc_load|]. unfold text_from. by rewrite doc_load. Qed.

Lemma containers_read_back_witness :
  ∃ t n, vector_to_string (N := doc) text_to [L "a"; L "b"] = Some t ∧ Load t = Some n ∧
    string_to_vector (N := doc) text_from (Emit n) = Some [L "a"; L "b"].
Proof.
  destruct (containers_read_back (N := doc) string_lt text_to text_from (λ X, elements X) (λ m, map_to_list m) text_reads_back) as (H & _);
    [done|done|].
  destruct (vector_to_string (N := doc) text_to [L "a"; L "b"]) as [t|] eqn:E; [|by vm_compute in E].
  destruct (H _ t E) as (n & Hn & Hv). exists t, n. split; [reflexivity|]. split; [exact Hn|exact Hv].
Defined.
