(* ===== verification/Config.v ===== *)
(** Configuration variables and their registry (skt/config/config.h,
    skt/config/config.cpp).

    A variable is a shared object of some type [t]; the registry holds pointers
    to the base class, and a pointer to ConfigVar<T> is obtained by a dynamic
    cast. Types, their values and casts are the class [Types]. A listener acts
    on a world outside the registry: one that set the variable it listens to
    would wait for itself. *)

From stdpp Require Import base list strings sets gmap.
From Stdlib Require Import Ascii Lia.
From S2P Require Import Prelude StdOrdered CString Env FsUtil Yaml.

Class Types : Type := {
  ty : Type;
  ty_dec :: EqDecision ty;
  val : ty → Type;
  val_eqb {t} : val t → val t → bool;            (* operator== *)
  from_str {t} : str → option (val t);           (* FromStr; None: an exception *)
  to_str {t} : val t → option str                (* ToStr *)
}.

Class Listeners `{Types} (W : Type) : Type := {
  cb : ty → Type;
  run_cb {t} : cb t → val t → val t → M W unit   (* cb(old_value, new_value) *)
}.

(** The characters of names. *)
Definition name_chars : str := L "abcdefghijklmnopqrstuvwxyz._012345678".
Definition valid_name (name : str) : bool := forallb (λ c, bool_decide (c ∈ name_chars)) name.
(** std::transform with ::tolower *)
Definition lower (s : str) : str := (λ c, ascii_of_N (tolower c)) <$> s.

Section Config.
Context `{TY : Types} {W : Type} `{LS : !Listeners W}.

Record ConfigVar (t : ty) : Type := mkVar {
  cv_name : str;
  cv_description : str;
  cv_val : val t;
  cv_cbs : list (Z * cb t)
}.
Arguments mkVar {t} _ _ _ _.
Arguments cv_name {t} _.
Arguments cv_description {t} _.
Arguments cv_val {t} _.
Arguments cv_cbs {t} _.

(** ConfigVarBase::ptr: the object and its dynamic type. *)
Record AnyVar : Type := anyvar { var_type : ty; the_var : ConfigVar var_type }.
(** dynamic_pointer_cast<ConfigVar<T>> *)
Definition as_type (t : ty) (x : AnyVar) : option (ConfigVar t) :=
  match decide (var_type x = t) with left E => Some (eq_rect _ ConfigVar (the_var x) _ E) | right _ => None end.

(** Variables, the map GetDatas, the counters s_fun_id of addListener, the map
    s_file2modifytime, and what listeners act on. *)
Record Conf : Type := mkConf {
  vars : gmap nat AnyVar;
  datas : list (str * nat);
  fun_id : ty → Z;
  mtimes : list (str * Z);
  outside : W
}.
Definition set_vars v (s : Conf) : Conf := mkConf v (datas s) (fun_id s) (mtimes s) (outside s).
Definition set_datas d (s : Conf) : Conf := mkConf (vars s) d (fun_id s) (mtimes s) (outside s).
Definition set_fun_id f (s : Conf) : Conf := mkConf (vars s) (datas s) f (mtimes s) (outside s).
Definition set_mtimes m (s : Conf) : Conf := mkConf (vars s) (datas s) (fun_id s) m (outside s).
Definition set_outside w (s : Conf) : Conf := mkConf (vars s) (datas s) (fun_id s) (mtimes s) w.

Abbreviation conf := (M Conf).

Definition outside_call {A} (c : M W A) : conf A := λ s,
  match c (outside s) with
  | Ok a w => Ok a (set_outside w s)
  | Exc e w => Exc e (set_outside w s)
  | Stop u => Stop u
  | NoFuel => NoFuel
  end.
(** try { c; return true; } catch (std::exception&) { } return false; *)
Definition mtry (c : conf unit) : conf bool := λ s,
  match c s with
  | Ok _ s' => Ok true s'
  | Exc _ s' => Ok false s'
  | Stop u => Stop u
  | NoFuel => NoFuel
  end.

(** ** ConfigVar *)

(** The object behind a ConfigVar<T>*. *)
Definition var_at (t : ty) (a : nat) : conf (ConfigVar t) :=
  s ← mget; mderef NullDeref (vars s !! a ≫= as_type t).
Definition put_var {t} (a : nat) (x : ConfigVar t) : conf unit := mmodify (λ s, set_vars (<[a := anyvar t x]> (vars s)) s).

Definition getValue (t : ty) (a : nat) : conf (val t) := x ← var_at t a; mret (cv_val x).

Fixpoint run_cbs {t} (l : list (Z * cb t)) (old new : val t) : conf unit :=
  match l with [] => mret tt | (_, c) :: l' => outside_call (run_cb c old new);; run_cbs l' old new end.
Definition setValue (t : ty) (a : nat) (v : val t) : conf unit :=
  x ← var_at t a;
  if val_eqb v (cv_val x) then mret tt
  else
    run_cbs (cv_cbs x) (cv_val x) v;;
    put_var a (mkVar (cv_name x) (cv_description x) v (cv_cbs x)).

Definition toString (t : ty) (a : nat) : conf str := x ← var_at t a; mret (default [] (to_str (cv_val x))).
Definition fromString (t : ty) (a : nat) (text : str) : conf bool :=
  match from_str (t := t) text with
  | Some v => mtry (setValue t a v)
  | None => mret false
  end.

Definition addListener (t : ty) (a : nat) (c : cb t) : conf Z :=
  s ← mget;
  let id := u64 (fun_id s t + 1) in
  mput (set_fun_id (λ t', if decide (t' = t) then id else fun_id s t') s);;
  x ← var_at t a;
  put_var a (mkVar (cv_name x) (cv_description x) (cv_val x) (map_assign Z.ltb id c (cv_cbs x)));;
  mret id.
Definition delListener (t : ty) (a : nat) (key : Z) : conf unit :=
  x ← var_at t a; put_var a (mkVar (cv_name x) (cv_description x) (cv_val x) (map_erase Z.ltb key (cv_cbs x))).
Definition getListener (t : ty) (a : nat) (key : Z) : conf (option (cb t)) :=
  x ← var_at t a; mret (map_find Z.ltb key (cv_cbs x)).
Definition clearListener (t : ty) (a : nat) : conf unit :=
  x ← var_at t a; put_var a (mkVar (cv_name x) (cv_description x) (cv_val x) []).

(** ** Config *)

(** Config::Lookup(name, default_value, description); None is nullptr. *)
Definition Lookup (t : ty) (name : str) (default_value : val t) (description : str) : conf (option nat) :=
  s ← mget;
  match map_find string_lt name (datas s) with
  | Some a =>
    x ← mderef NullDeref (vars s !! a);
    mret (match as_type t x with Some _ => Some a | None => None end)
  | None =>
    if negb (valid_name name) then mthrow (invalid_argument (String.string_of_list_ascii name))
    else
      let a := fresh (dom (vars s)) in
      put_var a (mkVar (lower name) description default_value []);;
      mmodify (λ s, set_datas (map_assign string_lt name a (datas s)) s);;
      mret (Some a)
  end.

(** Config::Lookup(name) *)
Definition Lookup_only (t : ty) (name : str) : conf (option nat) :=
  s ← mget;
  match map_find string_lt name (datas s) with
  | None => mret None
  | Some a => x ← mderef NullDeref (vars s !! a); mret (match as_type t x with Some _ => Some a | None => None end)
  end.

Definition LookupBase (name : str) : conf (option nat) := s ← mget; mret (map_find string_lt name (datas s)).

(** Config::Visit: the variables in the order of their names. *)
Definition Visit : conf (list nat) := s ← mget; mret ((datas s).*2).

(** ** Loading *)

Section Load.
Context {N : Type} `{YM : Yaml N}.

(** ListAllMember; [fuel] bounds the depth of the document. *)
Definition member_name (prefix : str) (key : N) : str :=
  match prefix with [] => Scalar key | _ => prefix ++ L "." ++ Scalar key end.
Fixpoint ListAllMember (fuel : nat) (prefix : str) (node : N) : option (list (str * N)) :=
  match fuel with
  | O => None
  | S fuel' =>
    if negb (valid_name prefix) then Some []
    else
      rest ← (if IsMap node then mapM (λ '(k, n), ListAllMember fuel' (member_name prefix k) n) (members node) else Some []);
      Some ((prefix, node) :: concat rest)
  end.

(** The text that is given to fromString. *)
Definition node_text (n : N) : str := if IsScalar n then Scalar n else Emit n.

(** The body of the loop of LoadFromYaml. *)
Definition load_one (e : str * N) : conf unit :=
  match e.1 with
  | [] => mret tt
  | key =>
    var ← LookupBase (lower key);
    match var with
    | None => mret tt
    | Some a =>
      s ← mget;
      x ← mderef NullDeref (vars s !! a);
      fromString (var_type x) a (node_text e.2);; mret tt
    end
  end.
Fixpoint load_all (l : list (str * N)) : conf unit :=
  match l with [] => mret tt | e :: l' => load_one e;; load_all l' end.

(** Config::LoadFromYaml *)
Definition LoadFromYaml (fuel : nat) (root : N) : conf unit :=
  match ListAllMember fuel [] root with None => mnofuel | Some l => load_all l end.

(** Config::LoadFromConfDir; [mtime] is what lstat says, or zero, and [LoadFile]
    reads a document. An exception of any kind is caught. *)
Context {K : Type} `{FS : FileSystem K} (mtime : K → str → Z) (LoadFile : K → str → option N).
Definition load_file (fuel : nat) (k : K) (file : str) : conf unit :=
  s ← mget;
  let t := u64 (mtime k file) in
  if default 0 (map_find string_lt file (mtimes s)) =? t
  then mmodify (λ s, set_mtimes (map_assign string_lt file t (mtimes s)) s)
  else
    mmodify (λ s, set_mtimes (map_assign string_lt file t (mtimes s)) s);;
    match LoadFile k file with None => mret tt | Some root => mtry (LoadFromYaml fuel root);; mret tt end.
Fixpoint load_files (fuel : nat) (k : K) (l : list str) : conf unit :=
  match l with [] => mret tt | f :: l' => load_file fuel k f;; load_files fuel k l' end.
Definition LoadFromConfDir (fuel : nat) (k : K) (e : Env) (path : str) : conf unit :=
  match ListAllFile fuel k [] (getAbsolutePath e path) (L ".yml") with
  | None => mnofuel
  | Some files => load_files fuel k files
  end.
End Load.
End Config.

Arguments ConfigVar {TY W LS} t.
Arguments mkVar {TY W LS t} _ _ _ _.
Arguments cv_name {TY W LS t} _.
Arguments cv_description {TY W LS t} _.
Arguments cv_val {TY W LS t} _.
Arguments cv_cbs {TY W LS t} _.
Arguments Conf {TY} W {LS}.
Arguments anyvar {TY W LS} _ _.
Arguments var_type {TY W LS} _.
Arguments the_var {TY W LS} _.

(** The digit nine is missing from the characters of names. *)
Lemma nine_is_invalid : valid_name (L "http.port9") = false.
Proof. by vm_compute. Qed.
