(* ===== verification/ConfigProps.v ===== *)
(** Properties of the configuration: a name belongs to one variable of one type
    for ever, and loading a document gives each variable the values found under
    its name. *)

From stdpp Require Import base list strings sets gmap.
From Stdlib Require Import Ascii Lia Eqdep_dec.
From S2P Require Import Prelude StdOrdered CString Env FsUtil Yaml Config.

Section Props.
Context `{TY : Types} {W : Type} `{LS : !Listeners W}.
Implicit Types s : Conf W.

Lemma as_type_eq t (x : ConfigVar t) : as_type t (anyvar t x) = Some x.
Proof.
  unfold as_type. cbn. destruct (decide (t = t)) as [E|]; [|done]. by rewrite (UIP_dec ty_dec E eq_refl).
Qed.

Lemma as_type_ne t t' (x : ConfigVar t') : t' ≠ t → as_type t (anyvar t' x) = None.
Proof. intros H. unfold as_type. cbn. by destruct (decide (t' = t)). Qed.

Lemma as_type_Some t x y : as_type t x = Some y → x = anyvar t y.
Proof.
  destruct x as [t' x]. destruct (decide (t' = t)) as [->|Hne]; [rewrite as_type_eq; by intros [= ->]|by rewrite as_type_ne].
Qed.

Lemma anyvar_inj t (x x' : ConfigVar t) : anyvar t x = anyvar t x' → x = x'.
Proof. intros H%(f_equal (as_type t)). rewrite !as_type_eq in H. congruence. Qed.

(** ** The registry *)

Definition any_name (x : AnyVar (W := W)) : str := cv_name (the_var x).

(** Names are bound to variables of that name. *)
Record conf_ok s : Prop := {
  co_order : ordered string_lt fst (datas s);
  co_var n a : map_find string_lt n (datas s) = Some a → ∃ x, vars s !! a = Some x ∧ any_name x = n
}.

(** What stays: bindings, and the types and names of variables. *)
Record extends s s' : Prop := {
  ex_names n a : map_find string_lt n (datas s) = Some a → map_find string_lt n (datas s') = Some a;
  ex_vars a x : vars s !! a = Some x → ∃ x', vars s' !! a = Some x' ∧ var_type x' = var_type x ∧ any_name x' = any_name x
}.

#[local] Instance extends_preorder : PreOrder extends.
Proof.
  split.
  - intros s. split; [done|]. intros a x H. by exists x.
  - intros s1 s2 s3 [A1 A2] [B1 B2]. split; [auto|]. intros a x (x' & H1 & H2 & H3)%A2. destruct (B2 a x' H1) as (x2 & ? & ? & ?).
    exists x2. split_and!; [done|congruence..].
Qed.

Lemma lower_valid name : valid_name name = true → lower name = name.
Proof.
  assert (forallb (λ c, bool_decide (ascii_of_N (tolower c) = c)) name_chars = true) as Hall by (by vm_compute).
  rewrite forallb_forall in Hall. unfold valid_name, lower. induction name as [|c name IH]; [done|]. cbn [forallb fmap list_fmap].
  intros [Hc%bool_decide_eq_true Hn]%andb_true_iff. rewrite IH by done. f_equal.
  apply list_elem_of_In, Hall, bool_decide_eq_true in Hc. exact Hc.
Qed.

(** A call that only concerns the outside. *)
Definition same_registry s s' : Prop := vars s' = vars s ∧ datas s' = datas s.

Lemma same_ok s s' : same_registry s s' → conf_ok s → conf_ok s' ∧ extends s s'.
Proof.
  intros [Hv Hd] Hs. split; split; rewrite ?Hv, ?Hd; [apply Hs|apply Hs|done|]. intros a x H. by exists x.
Qed.

Definition var_put {t} a (x : ConfigVar t) s : Conf W := set_vars (<[a := anyvar t x]> (vars s)) s.

Lemma var_put_ok s t a (x x' : ConfigVar t) :
  conf_ok s → vars s !! a = Some (anyvar t x) → cv_name x' = cv_name x → conf_ok (var_put a x' s) ∧ extends s (var_put a x' s).
Proof.
  intros Hs Ha Hn. split.
  - split; [apply Hs|]. intros n b H. destruct (co_var s Hs n b H) as (y & Hy & <-). cbn. destruct (decide (b = a)) as [->|Hne].
    + exists (anyvar t x'). rewrite lookup_insert_eq. split; [done|]. rewrite Ha in Hy. injection Hy as <-. exact Hn.
    + exists y. by rewrite lookup_insert_ne.
  - split; [done|]. intros b y Hy. cbn. destruct (decide (b = a)) as [->|Hne].
    + exists (anyvar t x'). rewrite lookup_insert_eq. rewrite Ha in Hy. injection Hy as <-. by split_and!.
    + exists y. by rewrite lookup_insert_ne.
Qed.

Lemma var_at_ok s t a x : vars s !! a = Some (anyvar t x) → var_at t a s = Ok x s.
Proof. intros H. unfold var_at. mred. rewrite H. cbn. by rewrite as_type_eq. Qed.

(** ** The operations *)

Lemma run_cbs_same t (l : list (Z * cb t)) old new s r :
  run_cbs l old new s = r → match r with Ok _ s' | Exc _ s' => same_registry s s' | _ => True end.
Proof.
  intros <-. revert s. induction l as [|[i c] l IH]; intros s; [done|]. cbn [run_cbs]. unfold mbind, M_bind, outside_call.
  destruct (run_cb c old new (outside s)) as [[] w|e w|u|]; try done. specialize (IH (set_outside w s)). by destruct (run_cbs l old new _).
Qed.

(** Outcomes that leave a state. *)
Definition leaves {A} (r : result (Conf W) A) s' : Prop := (∃ b, r = Ok b s') ∨ (∃ e, r = Exc e s').

Lemma setValue_ok s t a (x : ConfigVar t) v s' :
  conf_ok s → vars s !! a = Some (anyvar t x) → leaves (setValue t a v s) s' → conf_ok s' ∧ extends s s'.
Proof.
  intros Hs Ha. unfold setValue. rewrite (bind_ok _ _ _ _ _ (var_at_ok s t a x Ha)). destruct (val_eqb v (cv_val x)).
  { intros [[b [= _ <-]]|[e [=]]]. split; [done|reflexivity]. }
  pose proof (run_cbs_same t (cv_cbs x) (cv_val x) v s _ eq_refl) as Hsame. unfold mbind, M_bind.
  destruct (run_cbs (cv_cbs x) (cv_val x) v s) as [[] s1|e s1|u|]; try (by intros [[? [=]]|[? [=]]]).
  - destruct (same_ok s s1 Hsame Hs) as [Hs1 Hx1]. intros [[b [= _ <-]]|[e [=]]].
    destruct (var_put_ok s1 t a x (mkVar (cv_name x) (cv_description x) v (cv_cbs x)) Hs1) as [H1 H2]; [by rewrite (proj1 Hsame)|done|].
    split; [exact H1|]. by etransitivity.
  - intros [[b [=]]|[e' [= _ <-]]]. by apply same_ok.
Qed.

Lemma fromString_ok s t a (x : ConfigVar t) text s' :
  conf_ok s → vars s !! a = Some (anyvar t x) → leaves (fromString t a text s) s' → conf_ok s' ∧ extends s s'.
Proof.
  intros Hs Ha. unfold fromString. destruct (from_str text) as [v|].
  - unfold mtry. destruct (setValue t a v s) as [[] s1|e s1|u|] eqn:E; try (by intros [[? [=]]|[? [=]]]); intros [[b [= _ <-]]|[e' [=]]];
      (eapply setValue_ok; [done..|rewrite E]); [left|right]; by eexists.
  - intros [[b [= _ <-]]|[e [=]]]. split; [done|reflexivity].
Qed.

Lemma Lookup_new_ok s t name d desc :
  conf_ok s → map_find string_lt name (datas s) = None → valid_name name = true →
  ∃ a s', ⟨ Lookup t name d desc, s ⟩ ⇓ ⟨ Some a, s' ⟩ ∧ conf_ok s' ∧ extends s s' ∧
    map_find string_lt name (datas s') = Some a ∧ vars s' !! a = Some (anyvar t (mkVar name desc d [])).
Proof.
  intros Hs Hn Hv. set (a := fresh (dom (vars s))). assert (vars s !! a = None) as Ha by (apply not_elem_of_dom, is_fresh).
  set (x := mkVar name desc d [] : ConfigVar t). exists a, (set_datas (map_assign string_lt name a (datas s)) (var_put a x s)).
  assert (∀ b y, vars s !! b = Some y → b ≠ a) as Hne by congruence. split; [|split; [|split; [|split]]].
  - unfold Lookup. rewrite (bind_ok _ _ _ _ _ (eq_refl : mget s = Ok s s)), Hn, Hv. cbn [negb]. by rewrite (lower_valid name Hv).
  - split; cbn; [by apply (map_assign_ordered string_lt), Hs|]. intros n b. rewrite string_find_assign by apply Hs. case_decide as E.
    + subst n. intros [= <-]. exists (anyvar t x). by rewrite lookup_insert_eq.
    + intros (y & Hy & Hyn)%(co_var s Hs). exists y. by rewrite lookup_insert_ne by (symmetry; by eapply Hne).
  - split; cbn; [intros n b H; rewrite string_find_assign by apply Hs; rewrite decide_False; [done|congruence]|].
    intros b y Hy. exists y. by rewrite lookup_insert_ne by (symmetry; by eapply Hne).
  - cbn. rewrite string_find_assign by apply Hs. by rewrite decide_True.
  - cbn. by rewrite lookup_insert_eq.
Qed.

Lemma Lookup_found s t name d desc a t' (x : ConfigVar t') :
  map_find string_lt name (datas s) = Some a → vars s !! a = Some (anyvar t' x) →
  Lookup t name d desc s = Ok (if decide (t = t') then Some a else None) s.
Proof.
  intros Hn Ha. unfold Lookup. rewrite (bind_ok _ _ _ _ _ (eq_refl : mget s = Ok s s)), Hn. mred. rewrite Ha.
  destruct (decide (t = t')) as [->|Hne]; [by rewrite as_type_eq|]. by rewrite as_type_ne.
Qed.

Lemma Lookup_ok s t name d desc s' : conf_ok s → leaves (Lookup t name d desc s) s' → conf_ok s' ∧ extends s s'.
Proof.
  intros Hs. destruct (map_find string_lt name (datas s)) as [a|] eqn:Hn.
  - destruct (co_var s Hs name a Hn) as ([t' x] & Hx & _). rewrite (Lookup_found s t name d desc a t' x Hn Hx).
    intros [[b [= _ <-]]|[e [=]]]. split; [done|reflexivity].
  - destruct (valid_name name) eqn:Hv.
    + destruct (Lookup_new_ok s t name d desc Hs Hn Hv) as (a & s1 & -> & H1 & H2 & _). intros [[b [= _ <-]]|[e [=]]]. done.
    + unfold Lookup. rewrite (bind_ok _ _ _ _ _ (eq_refl : mget s = Ok s s)), Hn, Hv. intros [[b [=]]|[e [= _ <-]]]. split; [done|reflexivity].
Qed.

(** The operations that only change the listeners of a variable. *)
Lemma put_listeners_ok s t a (x : ConfigVar t) l :
  conf_ok s → vars s !! a = Some (anyvar t x) →
  let s' := var_put a (mkVar (cv_name x) (cv_description x) (cv_val x) l) s in conf_ok s' ∧ extends s s'.
Proof. intros Hs Ha. by eapply var_put_ok. Qed.

Lemma leaves_bind {A B} (c : M (Conf W) A) (k : A → M (Conf W) B) s s' :
  leaves ((c ≫= k) s) s' → (∃ a s1, c s = Ok a s1 ∧ leaves (k a s1) s') ∨ (∃ e, c s = Exc e s').
Proof.
  unfold mbind, M_bind. destruct (c s) as [a s1|e s1|u|]; [by left; eexists _, _|..].
  - intros [[? [=]]|[e' [= <- <-]]]. right. by eexists.
  - by intros [[? [=]]|[? [=]]].
  - by intros [[? [=]]|[? [=]]].
Qed.

(** A call that keeps the registry in order, whatever its outcome. *)
Definition orderly {A} (c : M (Conf W) A) : Prop := ∀ s s', conf_ok s → leaves (c s) s' → conf_ok s' ∧ extends s s'.

Lemma orderly_ret {A} (a : A) : orderly (mret a).
Proof. intros s s' Hs [[b [= _ <-]]|[e [=]]]. split; [done|reflexivity]. Qed.

Lemma orderly_bind {A B} (c : M (Conf W) A) (k : A → M (Conf W) B) : orderly c → (∀ a, orderly (k a)) → orderly (c ≫= k).
Proof.
  intros Hc Hk s s' Hs [(a & s1 & E & H)|[e E]]%leaves_bind.
  - destruct (Hc s s1 Hs) as [H1 H2]; [left; by eexists|]. destruct (Hk a s1 s' H1 H) as [H3 H4]. split; [done|]. by etransitivity.
  - apply (Hc s s' Hs). right. by eexists.
Qed.

Lemma orderly_same {A} (c : M (Conf W) A) : (∀ s s', leaves (c s) s' → same_registry s s') → orderly c.
Proof. intros H s s' Hs Hl. apply same_ok; [by apply H|done]. Qed.

Lemma mtry_leaves (c : M (Conf W) unit) s s' : leaves (mtry c s) s' → leaves (c s) s'.
Proof.
  unfold mtry. destruct (c s) as [[] s1|e s1|u|]; intros [[b [= _ <-]]|[e' [=]]]; [left|right]; by eexists.
Qed.

Section Load.
Context {N : Type} `{YM : Yaml N} {K : Type} `{FS : FileSystem K} (mtime : K → str → Z) (LoadFile : K → str → option N).

Lemma load_one_orderly (e : str * N) : orderly (load_one e).
Proof.
  intros s s' Hs. unfold load_one. destruct e.1 as [|c key]; [by apply orderly_ret|].
  rewrite (bind_ok _ _ _ _ _ (eq_refl : LookupBase (lower (c :: key)) s = Ok _ s)).
  destruct (map_find string_lt (lower (c :: key)) (datas s)) as [a|] eqn:Hn; [|by apply orderly_ret].
  destruct (co_var s Hs _ _ Hn) as ([t x] & Hx & _). rewrite (bind_ok _ _ _ _ _ (eq_refl : mget s = Ok s s)).
  rewrite Hx. rewrite (bind_ok _ _ s (anyvar t x) s) by done. cbn [var_type].
  intros [(b & s1 & E & [[u [= _ <-]]|[e' [=]]])|[e' E]]%leaves_bind; (eapply fromString_ok; [done..|rewrite E]); [left|right]; by eexists.
Qed.

Lemma load_all_orderly (l : list (str * N)) : orderly (load_all l).
Proof. induction l as [|e l IH]; [apply orderly_ret|]. apply orderly_bind; [apply load_one_orderly|done]. Qed.

Lemma LoadFromYaml_orderly fuel (root : N) : orderly (LoadFromYaml fuel root).
Proof. unfold LoadFromYaml. destruct (ListAllMember fuel [] root); [apply load_all_orderly|]. by intros s s' _ [[? [=]]|[? [=]]]. Qed.

Lemma load_file_orderly fuel k f : orderly (load_file mtime LoadFile fuel k f).
Proof.
  intros s s' Hs. unfold load_file. rewrite (bind_ok _ _ _ _ _ (eq_refl : mget s = Ok s s)).
  set (t := u64 (mtime k f)). set (mark := mmodify (λ s, set_mtimes (map_assign string_lt f t (mtimes s)) s) : M (Conf W) unit).
  assert (orderly mark) as Hm by (apply orderly_same; intros s1 s2 [[? [= _ <-]]|[? [=]]]; done).
  destruct (default 0 (map_find string_lt f (mtimes s)) =? t); [by apply Hm|]. revert s s' Hs.
  apply orderly_bind; [done|]. intros _. destruct (LoadFile k f) as [root|]; [|apply orderly_ret].
  apply orderly_bind; [|intros; apply orderly_ret]. intros s1 s2 Hs1 Hl%mtry_leaves. by eapply LoadFromYaml_orderly.
Qed.

Lemma LoadFromConfDir_orderly fuel k e path : orderly (LoadFromConfDir mtime LoadFile fuel k e path).
Proof.
  unfold LoadFromConfDir. destruct (ListAllFile _ _ _ _ _) as [files|]; [|by intros s s' _ [[? [=]]|[? [=]]]].
  induction files as [|f files IH]; [apply orderly_ret|]. apply orderly_bind; [apply load_file_orderly|done].
Qed.

(** ** Sequences of calls *)

Inductive cop : Type :=
| CLookup (t : ty) (name : str) (d : val t) (desc : str)
| CSet (t : ty) (a : nat) (v : val t) | CFrom (t : ty) (a : nat) (text : str)
| CAdd (t : ty) (a : nat) (c : cb t) | CDel (t : ty) (a : nat) (key : Z) | CClear (t : ty) (a : nat)
| CYaml (fuel : nat) (root : N) | CDir (fuel : nat) (k : K) (e : Env) (path : str).

Definition cexec (o : cop) : M (Conf W) unit :=
  match o with
  | CLookup t name d desc => Lookup t name d desc;; mret tt
  | CSet t a v => setValue t a v
  | CFrom t a text => fromString t a text;; mret tt
  | CAdd t a c => addListener t a c;; mret tt
  | CDel t a key => delListener t a key
  | CClear t a => clearListener t a
  | CYaml fuel root => LoadFromYaml fuel root
  | CDir fuel k e path => LoadFromConfDir mtime LoadFile fuel k e path
  end.

(** A pointer to ConfigVar<T> points to a variable of type T. *)
Definition has_type s (t : ty) (a : nat) : Prop := ∃ x, vars s !! a = Some (anyvar t x).
Definition cop_ok s (o : cop) : Prop :=
  match o with
  | CSet t a _ | CFrom t a _ | CAdd t a _ | CDel t a _ | CClear t a => has_type s t a
  | _ => True
  end.

(** A call is made and leaves a state, by returning or by an exception. *)
Definition cstep s s' : Prop := ∃ o, cop_ok s o ∧ leaves (cexec o s) s'.

Lemma drop_result {A} (c : M (Conf W) A) s s' : leaves ((c;; mret tt) s) s' → leaves (c s) s'.
Proof. intros [(a & s1 & E & [[b [= _ <-]]|[e [=]]])|[e E]]%leaves_bind; rewrite E; [left|right]; by eexists. Qed.

Lemma cstep_ok s s' : conf_ok s → cstep s s' → conf_ok s' ∧ extends s s'.
Proof.
  intros Hs ([t name d desc|t a v|t a text|t a c|t a key|t a|fuel root|fuel k e path] & Ho & Hl); cbn [cexec cop_ok] in *.
  - apply drop_result in Hl. by eapply Lookup_ok.
  - destruct Ho as [x Hx]. by eapply setValue_ok.
  - destruct Ho as [x Hx]. apply drop_result in Hl. by eapply fromString_ok.
  - destruct Ho as [x Hx]. apply drop_result in Hl. revert Hl. unfold addListener. rewrite (bind_ok _ _ _ _ _ (eq_refl : mget s = Ok s s)).
    set (s1 := set_fun_id _ s). rewrite (bind_ok _ _ _ tt s1) by done. assert (vars s1 !! a = Some (anyvar t x)) as Hx1 by done.
    rewrite (bind_ok _ _ _ _ _ (var_at_ok s1 t a x Hx1)). destruct (same_ok s s1) as [H1 H2]; [done|done|].
    intros [[b [= _ <-]]|[e [=]]]. destruct (put_listeners_ok s1 t a x (map_assign Z.ltb (u64 (fun_id s t + 1)) c (cv_cbs x)) H1 Hx1) as [H3 H4].
    split; [exact H3|]. etransitivity; [exact H2|exact H4].
  - destruct Ho as [x Hx]. revert Hl. unfold delListener. rewrite (bind_ok _ _ _ _ _ (var_at_ok s t a x Hx)).
    intros [[b [= _ <-]]|[e [=]]]. by apply put_listeners_ok.
  - destruct Ho as [x Hx]. revert Hl. unfold clearListener. rewrite (bind_ok _ _ _ _ _ (var_at_ok s t a x Hx)).
    intros [[b [= _ <-]]|[e [=]]]. by apply put_listeners_ok.
  - by eapply LoadFromYaml_orderly.
  - by eapply LoadFromConfDir_orderly.
Qed.

Lemma csteps_ok s s' : conf_ok s → rtc cstep s s' → conf_ok s' ∧ extends s s'.
Proof.
  intros Hs Hst. revert Hs. induction Hst as [s|s1 s2 s3 H1 _ IH]; intros Hs; [split; [done|reflexivity]|].
  destruct (cstep_ok s1 s2 Hs H1) as [Hs2 Hx]. destruct (IH Hs2) as [Hs3 Hx3]. split; [done|]. by etransitivity.
Qed.

Definition Conf_new (w : W) : Conf W := mkConf ∅ [] (λ _, 0) [] w.

Lemma Conf_new_ok w : conf_ok (Conf_new w).
Proof. split; [constructor|done]. Qed.

(** C25: A name stands for one variable of one type. When Lookup has returned a
    variable for a name, every later Lookup of this name, after any calls and
    whether they returned or threw, gives the same variable if it asks for the
    same type and nullptr if it asks for another one, and makes no new one. *)
Theorem lookup_typed w s t name d desc a s1 s2 t' d' desc' :
  rtc cstep (Conf_new w) s → Lookup t name d desc s = Ok (Some a) s1 → rtc cstep s1 s2 →
  Lookup t' name d' desc' s2 = Ok (if decide (t' = t) then Some a else None) s2.
Proof.
  intros Hs E Hs2. destruct (csteps_ok _ _ (Conf_new_ok w) Hs) as [Hok _].
  assert (conf_ok s1 ∧ map_find string_lt name (datas s1) = Some a ∧ ∃ x, vars s1 !! a = Some (anyvar t x)) as (Hok1 & Hn & x & Hx).
  { destruct (map_find string_lt name (datas s)) as [b|] eqn:Hn.
    - destruct (co_var s Hok name b Hn) as ([t0 x] & Hx & _). rewrite (Lookup_found s t name d desc b t0 x Hn Hx) in E.
      destruct (decide (t = t0)) as [->|]; [|done]. injection E as <- <-. split_and!; [done..|by exists x].
    - destruct (valid_name name) eqn:Hv.
      + destruct (Lookup_new_ok s t name d desc Hok Hn Hv) as (b & s0 & E0 & H1 & _ & H2 & H3). rewrite E in E0. injection E0 as <- <-.
        split_and!; [done..|by eexists].
      + unfold Lookup in E. rewrite (bind_ok _ _ _ _ _ (eq_refl : mget s = Ok s s)), Hn, Hv in E. done. }
  destruct (csteps_ok _ _ Hok1 Hs2) as [Hok2 [Hx1 Hx2]]. apply Hx1 in Hn. destruct (Hx2 a _ Hx) as ([t2 x2] & H1 & H2 & _). cbn in H2. subst.
  by rewrite (Lookup_found s2 t' name d' desc' a t x2 Hn H1).
Qed.

(** ** What loading does *)

(** The nodes of a document under their dotted names: all parts of a name up to
    a node are valid. *)
Inductive reaches : str → N → str → N → Prop :=
| reach_here prefix node : valid_name prefix = true → reaches prefix node prefix node
| reach_member prefix node k n p m :
    valid_name prefix = true → IsMap node = true → (k, n) ∈ members node → reaches (member_name prefix k) n p m → reaches prefix node p m.

(** Maps are nested at most [d] deep. *)
Inductive ydepth : nat → N → Prop :=
| ydepth_leaf d node : IsMap node = false → ydepth d node
| ydepth_map d node : (∀ k n, (k, n) ∈ members node → ydepth d n) → ydepth (S d) node.

Lemma mapM_collect {A B} (f : A → option (list B)) l (P : A → B → Prop) :
  (∀ a, a ∈ l → ∃ r, f a = Some r ∧ ∀ b, b ∈ r ↔ P a b) → ∃ rs, mapM f l = Some rs ∧ ∀ b, b ∈ concat rs ↔ ∃ a, a ∈ l ∧ P a b.
Proof.
  induction l as [|a l IH]; intros H.
  { exists []. split; [done|]. intros b. split; [intros Hb; by apply not_elem_of_nil in Hb|]. intros (a & Ha & _). by apply not_elem_of_nil in Ha. }
  destruct (H a) as (r & Hr & HP); [by left|]. destruct IH as (rs & Hrs & HQ); [intros a' Ha'; apply H; by right|].
  exists (r :: rs). cbn. rewrite Hr. cbn. rewrite Hrs. split; [done|]. intros b. rewrite elem_of_app, HP, HQ. split.
  - intros [Hb|(a' & Ha' & Hb)]; [exists a; split; [by left|done]|exists a'; split; [by right|done]].
  - intros (a' & [->|Ha']%elem_of_cons & Hb); [by left|right; by exists a'].
Qed.

Lemma ListAllMember_S fuel prefix node :
  ListAllMember (S fuel) prefix node =
    if negb (valid_name prefix) then Some []
    else rest ← (if IsMap node then mapM (λ '(k, n), ListAllMember fuel (member_name prefix k) n) (members node) else Some []);
         Some ((prefix, node) :: concat rest).
Proof. done. Qed.

Lemma ListAllMember_ok d prefix node :
  ydepth d node → ∃ l, ListAllMember (S d) prefix node = Some l ∧ ∀ p m, (p, m) ∈ l ↔ reaches prefix node p m.
Proof.
  intros Hd. revert prefix. induction Hd as [d node Hm|d node _ IH]; intros prefix; rewrite ListAllMember_S;
    (destruct (valid_name prefix) eqn:Hv; cbn [negb];
     [|exists []; split; [done|]; intros p m; split; [intros H; by apply not_elem_of_nil in H|]; destruct 1; congruence]).
  - rewrite Hm. cbn. eexists. split; [reflexivity|]. intros p m. rewrite list_elem_of_singleton. split.
    + intros [= -> ->]. by apply reach_here.
    + destruct 1; [done|congruence].
  - assert (∃ rs, (if IsMap node then mapM (λ '(k, n), ListAllMember (S d) (member_name prefix k) n) (members node) else Some []) = Some rs ∧
      ∀ b, b ∈ concat rs ↔ IsMap node = true ∧ ∃ e, e ∈ members node ∧ reaches (member_name prefix e.1) e.2 b.1 b.2) as (rs & -> & Hrs).
    { destruct (IsMap node).
      - destruct (mapM_collect (λ '(k, n), ListAllMember (S d) (member_name prefix k) n) (members node)
          (λ e b, reaches (member_name prefix e.1) e.2 b.1 b.2)) as (rs & E & Hb).
        + intros [k n] Hin. destruct (IH k n Hin (member_name prefix k)) as (l & El & Hl). exists l. split; [done|]. intros [p m]. apply Hl.
        + exists rs. split; [done|]. intros b. rewrite Hb. tauto.
      - exists []. split; [done|]. intros b. split; [intros H; by apply not_elem_of_nil in H|by intros [? _]]. }
    cbn [mbind option_bind]. eexists. split; [reflexivity|]. intros p m. rewrite elem_of_cons, Hrs. split.
    + intros [[= -> ->]|(Hm & [k n] & Hin & Hr)]; [by apply reach_here|by eapply reach_member].
    + destruct 1 as [|prefix node k n p m _ Hm Hin Hr]; [by left|]. right. split; [done|]. by exists (k, n).
Qed.

(** The value of a variable after one of its texts has been read: a text that is
    no value is ignored. *)
Definition apply_text {t} (cur : val t) (text : str) : val t :=
  match from_str text with Some v => if val_eqb v cur then cur else v | None => cur end.
(** The texts found under a name, in the order of the document. *)
Definition texts (n : str) (l : list (str * N)) : list str := (λ e, node_text e.2) <$> filter (λ e, e.1 ≠ [] ∧ lower e.1 = n) l.
Definition with_val {t} (x : ConfigVar t) (v : val t) : ConfigVar t := mkVar (cv_name x) (cv_description x) v (cv_cbs x).

Context (cb_returns : ∀ t (c : cb t) old new w, ∃ w', run_cb c old new w = Ok tt w').

Lemma run_cbs_ok t (l : list (Z * cb t)) old new s : ∃ w, run_cbs l old new s = Ok tt (set_outside w s).
Proof.
  revert s. induction l as [|[i c] l IH]; intros s; [exists (outside s); by destruct s|]. cbn [run_cbs]. unfold mbind, M_bind, outside_call.
  destruct (cb_returns t c old new (outside s)) as [w ->]. destruct (IH (set_outside w s)) as [w' ->]. by exists w'.
Qed.

Lemma fromString_value s t a (x : ConfigVar t) text :
  vars s !! a = Some (anyvar t x) →
  ∃ b s', ⟨ fromString t a text, s ⟩ ⇓ ⟨ b, s' ⟩ ∧ datas s' = datas s ∧
    vars s' = <[a := anyvar t (with_val x (apply_text (cv_val x) text))]> (vars s).
Proof.
  intros Hx. assert (∀ w, vars (set_outside w s) = <[a := anyvar t (with_val x (cv_val x))]> (vars s)) as Hid.
  { intros w. cbn. rewrite insert_id; [done|]. rewrite Hx. by destruct x. }
  unfold fromString, apply_text. destruct (from_str text) as [v|].
  2: { eexists _, _. split; [reflexivity|]. split; [done|]. exact (Hid (outside s)). }
  unfold mtry, setValue. rewrite (bind_ok _ _ _ _ _ (var_at_ok s t a x Hx)). destruct (val_eqb v (cv_val x)).
  { eexists _, _. split; [reflexivity|]. split; [done|]. exact (Hid (outside s)). }
  destruct (run_cbs_ok t (cv_cbs x) (cv_val x) v s) as [w E]. rewrite (bind_ok _ _ _ _ _ E). eexists _, _. by split.
Qed.

Definition loaded (l : list (str * N)) s s' : Prop :=
  datas s' = datas s ∧
  ∀ n a t (x : ConfigVar t), map_find string_lt n (datas s) = Some a → vars s !! a = Some (anyvar t x) →
    vars s' !! a = Some (anyvar t (with_val x (foldl apply_text (cv_val x) (texts n l)))).

Lemma loaded_nil l s : (∀ n a, map_find string_lt n (datas s) = Some a → texts n l = []) → loaded l s s.
Proof. intros H. split; [done|]. intros n a t x Hn Hx. rewrite (H n a Hn). cbn. rewrite Hx. by destruct x. Qed.

Lemma loaded_cons e l s1 s2 s3 : loaded [e] s1 s2 → loaded l s2 s3 → loaded (e :: l) s1 s3.
Proof.
  intros [A1 A2] [B1 B2]. split; [congruence|]. intros n a t x Hn Hx. rewrite (B2 n a t _ ltac:(by rewrite A1) (A2 n a t x Hn Hx)). 
  assert (texts n (e :: l) = texts n [e] ++ texts n l) as ->; [|by rewrite foldl_app].
  unfold texts. rewrite !filter_cons. by case_decide.
Qed.

Lemma load_one_loads e s : conf_ok s → ∃ s', ⟨ load_one e, s ⟩ ⇓ ⟨ tt, s' ⟩ ∧ loaded [e] s s'.
Proof.
  intros Hs. destruct e as [key m]. assert (∀ n, key = [] ∨ lower key ≠ n → texts n [(key, m)] = []) as Hskip.
  { intros n H. unfold texts. rewrite filter_cons_False; [done|]. cbn. tauto. }
  unfold load_one. cbn [fst snd]. destruct key as [|c key]; [exists s; split; [done|]; apply loaded_nil; intros; apply Hskip; by left|].
  set (key' := c :: key) in *. rewrite (bind_ok _ _ _ _ _ (eq_refl : LookupBase (lower key') s = Ok _ s)).
  destruct (map_find string_lt (lower key') (datas s)) as [a|] eqn:Hn.
  2: { exists s. split; [done|]. apply loaded_nil. intros n a Ha. apply Hskip. right. congruence. }
  destruct (co_var s Hs _ _ Hn) as ([t x] & Hx & Hxn). rewrite (bind_ok _ _ _ _ _ (eq_refl : mget s = Ok s s)), Hx.
  rewrite (bind_ok _ _ s (anyvar t x) s) by done. cbn [var_type].
  destruct (fromString_value s t a x (node_text m) Hx) as (b & s' & E & Hd & Hv). rewrite (bind_ok _ _ _ _ _ E). exists s'.
  split; [done|]. split; [done|]. intros n a' t' x' Hn' Hx'. rewrite Hv. destruct (decide (a' = a)) as [->|Hne].
  - assert (n = lower key') as -> by (destruct (co_var s Hs _ _ Hn') as (y & Hy & <-); congruence).
    assert (texts (lower key') [(key', m)] = [node_text m]) as -> by (unfold texts; by rewrite filter_cons_True by done).
    rewrite lookup_insert_eq. assert (anyvar t x = anyvar t' x') as H by congruence. pose proof (f_equal var_type H) as Ht. cbn in Ht.
    subst t'. by apply anyvar_inj in H as ->.
  - rewrite lookup_insert_ne by done. rewrite (Hskip n) by (right; congruence). rewrite Hx'. by destruct x'.
Qed.

Lemma load_all_loads l s : conf_ok s → ∃ s', ⟨ load_all l, s ⟩ ⇓ ⟨ tt, s' ⟩ ∧ loaded l s s'.
Proof.
  revert s. induction l as [|e l IH]; intros s Hs; [exists s; split; [done|]; by apply loaded_nil|].
  destruct (load_one_loads e s Hs) as (s1 & E1 & L1). destruct (load_one_orderly e s s1 Hs) as [Hs1 _]; [left; by eexists|].
  destruct (IH s1 Hs1) as (s2 & E2 & L2). exists s2. cbn [load_all]. rewrite (bind_ok _ _ _ _ _ E1). split; [done|]. by eapply loaded_cons.
Qed.

(** C12: Loading a document sets the variables it names. The document is read to
    the depth of its maps; every node is listed under its dotted name unless a
    part of the name has an invalid character; each variable then reads the
    texts listed under its name in the order of the document, ignoring those
    that are no value of its type, and every other variable keeps its value. *)
Theorem load_document w s d root :
  rtc cstep (Conf_new w) s → ydepth d root →
  ∃ l s', ListAllMember (S d) [] root = Some l ∧ (∀ p m, (p, m) ∈ l ↔ reaches [] root p m) ∧
    ⟨ LoadFromYaml (S d) root, s ⟩ ⇓ ⟨ tt, s' ⟩ ∧ datas s' = datas s ∧
    ∀ n a t (x : ConfigVar t), map_find string_lt n (datas s) = Some a → vars s !! a = Some (anyvar t x) →
      vars s' !! a = Some (anyvar t (with_val x (foldl apply_text (cv_val x) (texts n l)))).
Proof.
  intros Hs Hd. destruct (csteps_ok _ _ (Conf_new_ok w) Hs) as [Hok _]. destruct (ListAllMember_ok d [] root Hd) as (l & El & Hl).
  destruct (load_all_loads l s Hok) as (s' & E & L1 & L2). exists l, s'. unfold LoadFromYaml. rewrite El. by split_and!.
Qed.
End Load.
End Props.

(** ** A concrete configuration *)

(** Numbers and texts; a listener counts its calls. *)
Definition demo_val (t : bool) : Type := if t then Z else str.
Definition demo_eqb (t : bool) : demo_val t → demo_val t → bool :=
  match t return demo_val t → demo_val t → bool with true => Z.eqb | false => streq end.
Definition demo_from (t : bool) (text : str) : option (demo_val t) :=
  match t return option (demo_val t) with
  | true => match text with [] => None | _ => Some (atoi text) end
  | false => Some text
  end.
Definition demo_to (t : bool) : demo_val t → option str :=
  match t return demo_val t → option str with true => λ z, Some (to_string z) | false => Some end.
#[global] Instance demo_types : Types := {| ty := bool; val := demo_val; val_eqb := demo_eqb; from_str := demo_from; to_str := demo_to |}.
Abbreviation num := (true : @ty demo_types).
Abbreviation txt := (false : @ty demo_types).
#[global] Instance demo_listeners : Listeners nat := {| cb _ := unit; run_cb _ _ _ _ := mmodify S |}.

Definition demo_conf : Conf nat := Conf_new 0%nat.
Definition demo_looked_up : Conf nat :=
  match Lookup num (L "port") 80 [] demo_conf with Ok _ s => s | _ => demo_conf end.
Definition demo_doc : doc := GenNode 2 [GenNode 0 [GenLeaf (L "port"); GenLeaf (L "8080")]; GenNode 0 [GenLeaf (L "Port"); GenLeaf (L "1")]].

Definition demo_mtime (k : unit) (f : str) : Z := 1.
Definition demo_load (k : unit) (f : str) : option doc := Some demo_doc.

Lemma demo_lookup : Lookup num (L "port") 80 [] demo_conf = Ok (Some 0%nat) demo_looked_up.
Proof. reflexivity. Qed.

Lemma demo_step : rtc (cstep demo_mtime demo_load) demo_conf demo_looked_up.
Proof.
  apply rtc_once. exists (CLookup num (L "port") 80 []). split; [done|]. left. exists tt. cbn [cexec].
  by rewrite (bind_ok _ _ _ _ _ demo_lookup).
Qed.

Lemma lookup_typed_witness :
  ∃ s, Lookup num (L "port") 80 [] demo_conf = Ok (Some 0%nat) s ∧ Lookup txt (L "port") (L "80") [] s = Ok None s.
Proof.
  exists demo_looked_up. split; [exact demo_lookup|].
  exact (lookup_typed demo_mtime demo_load 0%nat demo_conf num (L "port") 80 [] 0 demo_looked_up demo_looked_up txt (L "80") []
    (rtc_refl _ _) demo_lookup (rtc_refl _ _)).
Defined.

Lemma demo_cb_returns (t : @ty demo_types) (c : cb t) (old new : val t) (w : nat) : ∃ w', run_cb c old new w = Ok tt w'.
Proof. by eexists. Qed.

Lemma load_document_witness :
  ∃ s', LoadFromYaml 2 demo_doc demo_looked_up = Ok tt s' ∧
    vars s' !! 0%nat = Some (anyvar num (mkVar (t := num) (L "port") [] 8080 [])).
Proof.
  destruct (load_document demo_mtime demo_load demo_cb_returns 0%nat demo_looked_up 1 demo_doc demo_step)
    as (l & s' & El & _ & E & _ & H).
  - apply ydepth_map. intros k n Hin. apply ydepth_leaf. repeat (apply elem_of_cons in Hin as [[= -> ->]|Hin]; [done|]).
    by apply not_elem_of_nil in Hin.
  - exists s'. split; [exact E|]. assert (Some l = Some [([], demo_doc); (L "port", GenLeaf (L "8080") : doc)]) as [= ->] by (by rewrite <- El).
    exact (H (L "port") 0%nat num (mkVar (t := num) (L "port") [] 80 []) eq_refl eq_refl).
Defined.

(** A key with a capital letter is not found, although names are turned to lower
    case when they are looked up. *)
Lemma capital_key_ignored : ListAllMember 3 [] (GenNode 2 [GenNode 0 [GenLeaf (L "Port"); GenLeaf (L "1")]] : doc)
  = Some [([], GenNode 2 [GenNode 0 [GenLeaf (L "Port"); GenLeaf (L "1")]])].
Proof. by vm_compute. Qed.
