(* ===== verification/LogConf.v ===== *)
(** The configuration of loggers as text: LexicalCast for std::set<LogDefine>
    (skt/log/log.cpp), and the variable "logs" with its listener. *)

From stdpp Require Import base list strings sets gmap.
From Stdlib Require Import Ascii Lia.
From S2P Require Import Prelude StdOrdered CString LogFormat Logger LoggerProps Yaml Config ConfigProps.

Section Casts.
Context {N : Type} `{Y : Yaml N}.

(** n["key"].as<std::string>() where the key is defined. *)
Definition field (n : N) (key : string) : option str := as_string (at_key n (L key)).
Definition has_field (n : N) (key : string) : bool := IsDefined (at_key n (L key)).
Definition field_or_empty (n : N) (key : string) : option str := if has_field n key then field n key else Some [].

(** One of the appenders: Some None where the code continues with the next, None
    for an exception. *)
Definition read_appender (a : N) : option (option LogAppenderDefine) :=
  if negb (has_field a "type") then Some None
  else
    type ← field a "type";
    if streq type (L "FileLogAppender")
    then
      if negb (has_field a "file") then Some None
      else file ← field a "file"; fmt ← field_or_empty a "formatter"; Some (Some (mkAppenderDefine 1 UNKNOW fmt file))
    else if streq type (L "StdoutLogAppender") then Some (Some (mkAppenderDefine 2 UNKNOW [] []))
    else Some None.

Definition read_define (n : N) : option (option LogDefine) :=
  if negb (has_field n "name") then Some None
  else
    name ← field n "name";
    level ← field_or_empty n "level";
    fmt ← field_or_empty n "formatter";
    aps ← (if has_field n "appenders" then mapM read_appender (elements_of (at_key n (L "appenders"))) else Some []);
    Some (Some (mkDefine name (FromString level) fmt (omap id aps))).

(** LexicalCast<std::string, std::set<LogDefine>> *)
Definition string_to_defines (v : str) : option (list LogDefine) :=
  node ← Load v;
  ds ← mapM read_define (elements_of node);
  Some (foldl (λ s d, (set_insert define_lt d s).1) [] (omap id ds)).

(** n["key"] = value, and n["appenders"].push_back(na) *)
Definition put_field (key : string) (v : str) (n : N) : N := set_key n (L key) (of_string v).
Definition push_field (key : string) (v n : N) : N :=
  set_key n (L key) (push_back (if has_field n key then at_key n (L key) else empty_node) v).

Definition is_unknow (l : Level) : bool := match l with UNKNOW => true | _ => false end.
Definition optional (b : bool) (f : N → N) (n : N) : N := if b then f n else n.

Definition write_appender (a : LogAppenderDefine) : N :=
  let na := if ad_type a =? 1 then put_field "file" (ad_file a) (put_field "type" (L "FileLogAppender") empty_node)
            else if ad_type a =? 2 then put_field "type" (L "StdoutLogAppender") empty_node else empty_node in
  let na := optional (negb (is_unknow (ad_level a))) (put_field "level" (ToString (ad_level a))) na in
  optional (negb (bool_decide (ad_formatter a = []))) (put_field "formatter" (ad_formatter a)) na.

Definition write_define (d : LogDefine) : N :=
  let n := put_field "name" (ld_name d) empty_node in
  let n := optional (negb (is_unknow (ld_level d))) (put_field "level" (ToString (ld_level d))) n in
  let n := optional (negb (bool_decide (ld_formatter d = []))) (put_field "formatter" (ld_formatter d)) n in
  foldl (λ n a, push_field "appenders" (write_appender a) n) n (ld_appenders d).

(** LexicalCast<std::set<LogDefine>, std::string> *)
Definition defines_to_string (v : list LogDefine) : str := Emit (foldl (λ node d, push_back node (write_define d)) empty_node v).

(** StdoutLogAppender::toYamlString, FileLogAppender::toYamlString *)
Definition appender_toYamlString (x : LogAppender) : str :=
  let n := match ap_sink x with
           | StdoutLogAppender => put_field "type" (L "StdoutLogAppender") empty_node
           | FileLogAppender name _ _ => put_field "file" name (put_field "type" (L "FileLogAppender") empty_node)
           end in
  let n := optional (negb (is_unknow (ap_level x))) (put_field "level" (ToString (ap_level x))) n in
  Emit (match ap_formatter x with Some f => optional (ap_hasFormatter x) (put_field "formatter" (m_pattern f)) n | None => n end).

(** Logger::toYamlString; None for an exception of YAML::Load. *)
Fixpoint push_appender_texts (s : Logs) (l : list nat) (n : N) : option N :=
  match l with
  | [] => Some n
  | a :: l' => x ← appenders s !! a; na ← Load (appender_toYamlString x); push_appender_texts s l' (push_field "appenders" na n)
  end.
Definition Logger_toYamlString (s : Logs) (g : Logger) : option str :=
  let n := put_field "name" (lg_name g) empty_node in
  let n := optional (negb (is_unknow (lg_level g))) (put_field "level" (ToString (lg_level g))) n in
  let n := match lg_formatter g with Some f => put_field "formatter" (m_pattern f) n | None => n end in
  n ← push_appender_texts s (lg_appenders g) n; Some (Emit n).

(** LoggerManager::toYamlString: the loggers in the order of their names. *)
Fixpoint push_logger_texts (s : Logs) (l : list (str * nat)) (node : N) : option N :=
  match l with
  | [] => Some node
  | (_, i) :: l' => g ← loggers s !! i; t ← Logger_toYamlString s g; n ← Load t; push_logger_texts s l' (push_back node n)
  end.
Definition LoggerManager_toYamlString (s : Logs) : option str := node ← push_logger_texts s (m_loggers s) empty_node; Some (Emit node).
End Casts.

(** The initial loggers as a document. *)
Example start_yaml : ∃ t n, LoggerManager_toYamlString (N := doc) start_logs = Some t ∧ Load t = Some n ∧
  node_size n = 1%nat ∧ field (at_index n 0) "name" = Some (L "root") ∧ field (at_index n 0) "level" = Some (L "DEBUG").
Proof. eexists _, _. split; [vm_compute; reflexivity|]. split; [vm_compute; reflexivity|]. vm_compute. done. Qed.

(** ** Reading back *)

(** What the text can express: known levels, and of appenders the types, the
    files and the formatters of files. *)
Definition known_level (l : Level) : bool := match l with OtherLevel _ => false | _ => true end.
Definition plain_appender (a : LogAppenderDefine) : bool :=
  is_unknow (ad_level a) && ((ad_type a =? 1) || ((ad_type a =? 2) && bool_decide (ad_formatter a = []) && bool_decide (ad_file a = []))).
Definition plain_define (d : LogDefine) : bool := known_level (ld_level d) && forallb plain_appender (ld_appenders d).

Lemma level_roundtrip l : known_level l = true → is_unknow l = false → FromString (ToString l) = l.
Proof. by destruct l. Qed.

Section Roundtrip.
Context {N : Type} `{Y : Yaml N} `{YL : !YamlLaws N}.

(** A map of texts and nodes. *)
Definition opt_field (b : bool) (k : string) (v : str) : list (str * N) := if b then [(L k, of_string v)] else [].

Lemma put_field_node k v (l : list (str * N)) : put_field k v (map_node l) = map_node (l ++ [(L k, of_string v)]).
Proof. unfold map_node. by rewrite foldl_app. Qed.

Lemma optional_node b k v (l : list (str * N)) : optional b (put_field k v) (map_node l) = map_node (l ++ opt_field b k v).
Proof. destruct b; cbn; [apply put_field_node|by rewrite app_nil_r]. Qed.

Lemma field_in (l : list (str * N)) k v :
  NoDup (l.*1) → (L k, of_string v) ∈ l → has_field (map_node l) k = true ∧ field (map_node l) k = Some v.
Proof. intros Hl Hin. unfold has_field, field. rewrite (yl_at l (L k) (of_string v)) by done. by rewrite yl_defined_string, yl_as_string. Qed.

Lemma field_out (l : list (str * N)) k : NoDup (l.*1) → L k ∉ l.*1 → has_field (map_node l) k = false.
Proof. intros Hl Hn. by apply yl_undefined. Qed.

Lemma field_opt (l1 l2 : list (str * N)) b k v :
  NoDup ((l1 ++ opt_field b k v ++ l2).*1) → L k ∉ (l1 ++ l2).*1 →
  field_or_empty (map_node (l1 ++ opt_field b k v ++ l2)) k = Some (if b then v else []).
Proof.
  intros Hnd Hn. unfold field_or_empty. destruct b; cbn [opt_field] in *.
  - destruct (field_in (l1 ++ [(L k, of_string v)] ++ l2) k v Hnd) as [-> ->]; [set_solver|done].
  - cbn [app] in *. by rewrite field_out.
Qed.

Lemma read_appender_back a : plain_appender a = true → read_appender (write_appender a : N) = Some (Some a).
Proof.
  intros [Hl Ha]%andb_true_iff. destruct a as [type level fmt file]. cbn [ad_level ad_type ad_formatter ad_file] in *.
  destruct level; try done. unfold write_appender. cbn [ad_level ad_type ad_formatter ad_file is_unknow negb optional].
  apply orb_true_iff in Ha as [->%Z.eqb_eq|[[->%Z.eqb_eq Hf%bool_decide_eq_true]%andb_true_iff Hfile%bool_decide_eq_true]%andb_true_iff].
  - rewrite !Z.eqb_refl. change empty_node with (map_node (N := N) []). rewrite !put_field_node, optional_node. cbn [app].
    set (b := negb (bool_decide (fmt = []))). set (l := [(L "type", of_string (L "FileLogAppender")); (L "file", of_string file)] : list (str * N)).
    assert (NoDup ((l ++ opt_field b "formatter" fmt ++ []).*1)) as Hnd by (destruct b; cbn; repeat (constructor; [set_solver|]); constructor).
    assert (field_or_empty (map_node (l ++ opt_field b "formatter" fmt ++ [])) "formatter" = Some (if b then fmt else [])) as E.
    { apply field_opt; [done|]. cbn. set_solver. }
    rewrite app_nil_r in *. match goal with |- context [map_node ?m] => change m with (l ++ opt_field b "formatter" fmt) end. unfold read_appender.
    destruct (field_in (l ++ opt_field b "formatter" fmt) "type" (L "FileLogAppender") Hnd) as [-> ->]; [set_solver|]. cbn [negb mbind option_bind].
    change (streq (L "FileLogAppender") (L "FileLogAppender")) with true. cbv iota.
    destruct (field_in (l ++ opt_field b "formatter" fmt) "file" file Hnd) as [-> ->]; [set_solver|]. cbn [negb mbind option_bind]. rewrite E.
    cbn [mbind option_bind]. unfold b. do 3 f_equal. by destruct fmt.
  - subst fmt file. change (2 =? 1) with false. change (2 =? 2) with true. cbv iota. rewrite bool_decide_true by done. cbn [negb optional].
    change empty_node with (map_node (N := N) []). rewrite put_field_node. cbn [app].
    unfold read_appender. destruct (field_in [(L "type", of_string (L "StdoutLogAppender") : N)] "type" (L "StdoutLogAppender")) as [-> ->];
      [apply NoDup_singleton|set_solver|]. done.
Qed.

(** What is pushed to one key forms one sequence. *)
Lemma push_fields k (l : list (str * N)) (vs ws : list N) :
  NoDup (l.*1) → L k ∉ l.*1 → vs ≠ [] →
  foldl (λ n v, push_field k v n) (map_node (l ++ [(L k, seq_node vs)])) ws
  = map_node (l ++ [(L k, seq_node (vs ++ ws))]).
Proof.
  intros Hl Hn. revert vs. induction ws as [|w ws IH]; intros vs Hvs; [by rewrite app_nil_r|]. cbn [foldl].
  assert (NoDup ((l ++ [(L k, seq_node vs)]).*1)) as Hnd.
  { rewrite fmap_app. apply NoDup_app. split_and!; [done| |by apply NoDup_singleton]. intros x Hx ->%list_elem_of_singleton. done. }
  unfold push_field, has_field. rewrite (yl_at _ (L k) (seq_node vs)) by (done || set_solver). rewrite yl_defined_seq by done.
  rewrite yl_assign by done. assert (push_back (seq_node vs) w = seq_node (vs ++ [w])) as -> by (unfold seq_node; by rewrite foldl_app).
  rewrite IH by (by destruct vs). by rewrite <- (assoc_L (++)).
Qed.

Definition opt_appenders (ds : list LogAppenderDefine) : list (str * N) :=
  match ds with [] => [] | _ => [(L "appenders", seq_node (write_appender <$> ds))] end.

Lemma write_appenders_node (l : list (str * N)) ds :
  NoDup (l.*1) → L "appenders" ∉ l.*1 →
  foldl (λ n a, push_field "appenders" (write_appender a) n) (map_node l) ds = map_node (l ++ opt_appenders ds).
Proof.
  intros Hl Hn. destruct ds as [|d ds]; [cbn; by rewrite app_nil_r|]. cbn [foldl].
  assert (push_field "appenders" (write_appender d) (map_node l) = map_node (l ++ [(L "appenders", seq_node [write_appender d])])) as ->.
  { unfold push_field, has_field. rewrite yl_undefined by done. unfold map_node. by rewrite foldl_app. }
  pose proof (push_fields "appenders" l [write_appender d] (write_appender <$> ds) Hl Hn ltac:(done)) as H. cbn [opt_appenders fmap list_fmap app] in *.
  rewrite <- H. clear. generalize (map_node (l ++ [(L "appenders", seq_node [write_appender d])])). induction ds as [|e ds IH]; intros n; [done|]. apply IH.
Qed.

Lemma read_appenders_back ds : forallb plain_appender ds = true → mapM read_appender (write_appender (N := N) <$> ds) = Some (Some <$> ds).
Proof.
  induction ds as [|d ds IH]; [done|]. cbn [forallb fmap list_fmap mapM]. intros [Hd Hds]%andb_true_iff.
  rewrite read_appender_back by done. cbn [mbind option_bind]. by rewrite (IH Hds).
Qed.

Lemma read_define_back d : plain_define d = true → read_define (write_define d : N) = Some (Some d).
Proof.
  intros [Hlev Haps]%andb_true_iff. destruct d as [name level fmt aps]. cbn [ld_level ld_appenders] in *. unfold write_define. cbn [ld_name ld_level ld_formatter ld_appenders].
  change empty_node with (map_node (N := N) []). rewrite put_field_node. set (bl := negb (is_unknow level)). set (bf := negb (bool_decide (fmt = []))).
  rewrite !optional_node. set (l0 := [(L "name", of_string name)] : list (str * N)).
  set (ll := opt_field bl "level" (ToString level)). set (lf := opt_field bf "formatter" fmt). set (la := opt_appenders aps).
  change (([] ++ l0) ++ ll) with (l0 ++ ll).
  assert (NoDup ((l0 ++ ll ++ lf ++ la).*1)) as Hnd by (unfold ll, lf, la; destruct bl, bf, aps; cbn; repeat (constructor; [set_solver|]); constructor).
  rewrite write_appenders_node by (unfold ll, lf; destruct bl, bf; cbn; (repeat (constructor; [set_solver|]); constructor) || set_solver).
  fold la. rewrite <- !(assoc_L (++)). unfold read_define.
  destruct (field_in (l0 ++ ll ++ lf ++ la) "name" name Hnd) as [-> ->]; [set_solver|]. cbn [negb mbind option_bind].
  assert (field_or_empty (map_node (l0 ++ ll ++ lf ++ la)) "level" = Some (if bl then ToString level else [])) as ->.
  { apply field_opt; [done|]. unfold lf, la. destruct bf, aps; cbn; set_solver. }
  assert (field_or_empty (map_node (l0 ++ ll ++ lf ++ la)) "formatter" = Some (if bf then fmt else [])) as ->.
  { rewrite (assoc_L (++)) in Hnd |- *. apply field_opt; [done|]. unfold ll, la. destruct bl, aps; cbn; set_solver. }
  cbn [mbind option_bind].
  assert ((if has_field (map_node (l0 ++ ll ++ lf ++ la)) "appenders"
           then mapM read_appender (elements_of (at_key (map_node (l0 ++ ll ++ lf ++ la)) (L "appenders"))) else Some []) = Some (Some <$> aps)) as ->.
  { unfold has_field. destruct aps as [|a aps].
    - rewrite yl_undefined; [done|done|]. unfold ll, lf, la. destruct bl, bf; cbn; set_solver.
    - rewrite (yl_at _ (L "appenders") (seq_node (write_appender <$> a :: aps)) Hnd) by (unfold la; cbn [opt_appenders]; set_solver).
      rewrite yl_defined_seq, elements_of_seq by done. by apply read_appenders_back. }
  cbn [mbind option_bind]. do 3 f_equal.
  - unfold bl. destruct (is_unknow level) eqn:E; cbn [negb]; [by destruct level|by apply level_roundtrip].
  - unfold bf. by destruct fmt.
  - clear. induction aps as [|a aps IH]; [done|]. cbn in *. by rewrite IH.
Qed.

#[local] Existing Instance define_strict.

(** The configuration of loggers survives its text. Definitions whose levels
    are known, and whose appenders are files with any formatter or the console
    without one and have no level of their own, are read back from the text
    they are written to. *)
Theorem defines_read_back v :
  ordered define_lt id v → forallb plain_define v = true → string_to_defines (defines_to_string (N := N) v) = Some v.
Proof.
  intros Ho Hp. unfold string_to_defines, defines_to_string.
  assert (foldl (λ node d, push_back node (write_define d)) empty_node v = seq_node (write_define <$> v) :> N) as ->.
  { unfold seq_node. generalize (empty_node : N). clear. induction v as [|d v IH]; intros n; [done|]. apply IH. }
  rewrite yl_load_seq. cbn [mbind option_bind]. rewrite elements_of_seq.
  assert (mapM read_define (write_define (N := N) <$> v) = Some (Some <$> v)) as ->.
  { revert Hp. clear Ho. induction v as [|d v IH]; [done|]. cbn [forallb fmap list_fmap mapM]. intros [Hd Hv]%andb_true_iff.
    rewrite read_define_back by done. cbn [mbind option_bind]. by rewrite (IH Hv). }
  cbn [mbind option_bind]. assert (omap id (Some <$> v) = v) as -> by (clear; induction v as [|d v IH]; [done|]; cbn in *; by rewrite IH).
  by rewrite (insert_ordered define_lt []).
Qed.
End Roundtrip.

Lemma defines_read_back_witness :
  let v := [mkDefine (L "root") INFO [] [mkAppenderDefine 2 UNKNOW [] []];
            mkDefine (L "web") UNKNOW (L "%m%n") [mkAppenderDefine 1 UNKNOW (L "%d %m%n") (L "web.log")]] in
  string_to_defines (N := doc) (defines_to_string (N := doc) v) = Some v.
Proof. apply defines_read_back; [by repeat constructor|by vm_compute]. Defined.

(** The level of an appender is written and not read, and so is the formatter of
    one for the console. *)
Lemma appender_level_lost :
  string_to_defines (N := doc) (defines_to_string (N := doc) [mkDefine (L "web") INFO [] [mkAppenderDefine 2 ERROR (L "%m") []]])
  = Some [mkDefine (L "web") INFO [] [mkAppenderDefine 2 UNKNOW [] []]].
Proof. vm_compute. reflexivity. Qed.

(** ** The variable "logs" *)

Section Reload.
Context {N : Type} `{Y : Yaml N}.
Context (strftime : str → Z → option str) (can_open can_write : str → Z → bool).
Context (make_event : str → Level → str → LogEvent) (junk now : Z).

(** std::set's operator==: the same size, and equal elements in order. *)
Fixpoint defines_eqb (a b : list LogDefine) : bool :=
  match a, b with
  | [], [] => true
  | x :: a', y :: b' => define_eqb x y && defines_eqb a' b'
  | _, _ => false
  end.

#[local] Instance logs_types : Types := {|
  ty := unit; val _ := list LogDefine; val_eqb _ := defines_eqb; from_str _ := string_to_defines; to_str _ v := Some (defines_to_string v)
|}.
(** The listener of LogIniter. *)
#[local] Instance logs_listeners : Listeners Logs := {|
  cb _ := unit; run_cb _ _ old new := on_logger_conf_changed strftime can_open can_write make_event junk now old new
|}.

(** C22: Reloading the configuration of loggers. When the variable "logs", with
    the listener of LogIniter as its only one, reads a text that stands for a set
    of definitions which operator== tells from the value it has, with formatters
    that can print their times (the operator compares names, levels and formatters, and not
    appenders), it takes this set as its value, and every logger whose definition
    is new or counts as changed is configured as it says, while those whose
    definitions are gone are switched off. A set that differs in appenders only is
    ignored ([appender_change_ignored]). *)
Theorem reload_loggers (s : Conf Logs) a x id text new :
  (∀ t, is_Some (strftime default_time t)) → reachable strftime can_open can_write (outside s) →
  vars s !! a = Some (anyvar () x) → cv_cbs x = [(id, ())] → ordered define_lt (λ d, d) (cv_val x) → ordered define_lt (λ d, d) new →
  (∀ d, d ∈ new → define_good strftime d) → string_to_defines text = Some new → defines_eqb new (cv_val x) = false →
  ∃ s', ⟨ fromString () a text, s ⟩ ⇓ ⟨ true, s' ⟩ ∧ vars s' !! a = Some (anyvar () (with_val x new)) ∧
    (∀ d, d ∈ new → touched (cv_val x) d = true → configured (outside s') d) ∧
    (∀ d, d ∈ cv_val x → missing new d = true → configured (outside s') (gone d)).
Proof.
  intros Ht Hr Hx Hcb Ho Hn Hg Ef Hne. unfold fromString. cbn [from_str logs_types]. rewrite Ef. unfold mtry, setValue.
  rewrite (bind_ok _ _ _ _ _ (var_at_ok s () a x Hx)). cbn [val_eqb logs_types]. rewrite Hne.
  destruct (listener_ok strftime can_open can_write Ht make_event junk now (cv_val x) new (outside s) (reachable_ok _ _ _ Ht _ Hr) Ho Hn Hg)
    as (w & E & _ & C1 & C2 & _).
  rewrite (bind_ok _ _ _ tt (set_outside w s)).
  2: { rewrite Hcb. cbn [run_cbs]. unfold mbind, M_bind, outside_call. cbn [run_cb logs_listeners]. by rewrite E. }
  eexists. split; [reflexivity|]. split; [cbn; by rewrite lookup_insert_eq|]. by split.
Qed.
End Reload.

Definition demo_listener := logs_listeners (N := doc) demo_time demo_io demo_io demo_event 0 0.
(** The variable with its listener, before anything is configured. *)
Definition demo_var : @ConfigVar (logs_types (N := doc)) Logs demo_listener () :=
  mkVar (TY := logs_types (N := doc)) (LS := demo_listener) (t := ()) (L "logs") (L "logs config") [] [(1, ())].
Definition demo_logs : @Conf (logs_types (N := doc)) Logs demo_listener :=
  @mkConf (logs_types (N := doc)) Logs demo_listener {[0%nat := anyvar (TY := logs_types (N := doc)) (LS := demo_listener) () demo_var]}
    [(L "logs", 0%nat)] (λ _, 1) [] start_logs.
Definition demo_new : list LogDefine := [mkDefine (L "web") WARN (L "%p %m%n") [mkAppenderDefine 1 UNKNOW [] (L "web.log")]].

Lemma reload_loggers_witness :
  ∃ s', @fromString (logs_types (N := doc)) Logs demo_listener () 0 (defines_to_string (N := doc) demo_new) demo_logs = Ok true s' ∧
    ∀ d, d ∈ demo_new → configured (outside s') d.
Proof.
  destruct (reload_loggers (N := doc) demo_time demo_io demo_io demo_event 0 0 demo_logs 0 demo_var 1 (defines_to_string (N := doc) demo_new) demo_new)
    as (s' & E & _ & H & _).
  - intros t. by eexists.
  - exact demo_reachable.
  - reflexivity.
  - reflexivity.
  - constructor.
  - repeat constructor.
  - intros d _. split; intros; apply demo_good.
  - vm_compute. reflexivity.
  - reflexivity.
  - exists s'. split; [exact E|]. intros d Hd. apply H; [exact Hd|reflexivity].
Defined.

(** A text that only changes the appenders of a logger is taken for the value
    the variable has, and nothing happens. *)
Lemma appender_change_ignored : defines_eqb demo_new [mkDefine (L "web") WARN (L "%p %m%n") []] = true.
Proof. by vm_compute. Qed.
