(* ===== verification/Locks.v ===== *)
(** The scoped locks and CASLock (skt/mutex/mutex.h).

    pthread's mutexes are not modelled; what the scoped locks call on one is
    recorded. CASLock is a system of threads that take atomic steps in any
    order. *)

From stdpp Require Import base list strings sets relations.
From Stdlib Require Import Ascii Lia.
From S2P Require Import Prelude CString.

(** ** Scoped locks *)

(** What is called on the mutex: lock, rdlock or wrlock, and unlock. *)
Inductive mutex_call : Type := CLock | CRdlock | CWrlock | CUnlock.
#[global] Instance mutex_call_eq_dec : EqDecision mutex_call.
Proof. solve_decision. Defined.

(** ScopedLockImpl, ReadScopedLockImpl and WriteScopedLockImpl differ in the
    call [acq] that takes the lock. *)
Record ScopedLock : Type := mkScoped { m_locked : bool; calls : list mutex_call }.

Section Scoped.
Context (acq : mutex_call).
Abbreviation scoped := (M ScopedLock).

Definition mutex_do (c : mutex_call) : scoped unit := mmodify (λ l, mkScoped (m_locked l) (calls l ++ [c])).
Definition set_locked (b : bool) : scoped unit := mmodify (λ l, mkScoped b (calls l)).

Definition scoped_lock : scoped unit := l ← mget; if negb (m_locked l) then mutex_do acq;; set_locked true else mret tt.
Definition scoped_unlock : scoped unit := l ← mget; if m_locked l then mutex_do CUnlock;; set_locked false else mret tt.
(** The constructor and the destructor. *)
Definition scoped_new : scoped unit := mutex_do acq;; set_locked true.
Definition scoped_delete : scoped unit := scoped_unlock.

(** The calls lock() (true) and unlock() (false) that are made in between. *)
Fixpoint scoped_calls (l : list bool) : scoped unit :=
  match l with [] => mret tt | b :: l' => (if b : bool then scoped_lock else scoped_unlock);; scoped_calls l' end.

(** The lock is taken and given back in turn. *)
Fixpoint in_turn (n : nat) : list mutex_call := match n with O => [] | S n' => acq :: CUnlock :: in_turn n' end.

Lemma in_turn_snoc n : in_turn (S n) = in_turn n ++ [acq; CUnlock].
Proof. induction n as [|n IH]; [done|]. cbn [in_turn app] in *. by rewrite IH. Qed.

Definition turn_state (l : ScopedLock) : Prop := ∃ n, calls l = in_turn n ++ if m_locked l then [acq] else [].

Lemma scoped_calls_turn bs l : turn_state l → ∃ l', ⟨ scoped_calls bs, l ⟩ ⇓ ⟨ tt, l' ⟩ ∧ turn_state l'.
Proof.
  revert l. induction bs as [|b bs IH]; intros l Hl; [by exists l|]. cbn [scoped_calls].
  assert (∃ l1, (if b then scoped_lock else scoped_unlock) l = Ok tt l1 ∧ turn_state l1) as (l1 & E & H1);
    [|rewrite (bind_ok _ _ _ _ _ E); by apply IH].
  destruct Hl as [n Hn], l as [locked cs]. cbn in Hn. subst cs.
  destruct b, locked; (eexists; split; [reflexivity|]); cbn; unfold turn_state; cbn.
  - by exists n.
  - exists n. by rewrite app_nil_r.
  - exists (S n). by rewrite in_turn_snoc, app_nil_r, <- (assoc_L (++)).
  - by exists n.
Qed.

(** From the constructor to the destructor of a scoped lock, whatever calls of
    lock and unlock are made, the mutex is locked and unlocked in turn, first
    locked and last unlocked. *)
Theorem scoped_lock_balanced bs :
  ∃ l n, ⟨ (scoped_new;; scoped_calls bs;; scoped_delete), mkScoped false [] ⟩ ⇓ ⟨ tt, l ⟩ ∧ m_locked l = false ∧ calls l = in_turn (S n).
Proof.
  assert (turn_state (mkScoped true [acq])) as H0 by (by exists O). destruct (scoped_calls_turn bs _ H0) as (l & E & n & Hn).
  rewrite (bind_ok _ _ _ tt (mkScoped true [acq])) by done. rewrite (bind_ok _ _ _ _ _ E). unfold scoped_delete, scoped_unlock.
  assert (∃ m, in_turn n ++ (if m_locked l then [acq; CUnlock] else []) = in_turn (S m)) as [m Hm].
  { destruct (m_locked l) eqn:Hl; [exists n; by rewrite in_turn_snoc|]. destruct n as [|n]; [|exists n; by rewrite app_nil_r].
    exfalso. revert E Hn. clear -Hl. cbn. intros E Hn.
    assert (∀ bs l0, calls l0 ≠ [] → ∀ l', scoped_calls bs l0 = Ok tt l' → calls l' ≠ []) as Hne.
    { clear. induction bs as [|b bs IH]; intros l0 H0 l'; [by intros [= <-]|]. cbn [scoped_calls].
      destruct l0 as [locked cs]. cbn in H0. destruct b, locked; cbn; intros E; (eapply IH; [|exact E]); cbn; try done; by destruct cs. }
    by eapply (Hne bs _ _ l E). }
  destruct l as [locked cs]. cbn in *. subst cs. destruct locked; (eexists _, m; split; [reflexivity|]; split; [done|]); cbn.
  - by rewrite <- Hm, <- (assoc_L (++)).
  - done.
  Unshelve. done.
Qed.
End Scoped.

(** ReadScopedLockImpl and WriteScopedLockImpl *)
Definition ReadScopedLock_new : M ScopedLock unit := scoped_new CRdlock.
Definition ReadScopedLock_lock : M ScopedLock unit := scoped_lock CRdlock.
Definition ReadScopedLock_unlock : M ScopedLock unit := scoped_unlock.
Definition ReadScopedLock_delete : M ScopedLock unit := scoped_delete.
Definition WriteScopedLock_new : M ScopedLock unit := scoped_new CWrlock.
Definition WriteScopedLock_lock : M ScopedLock unit := scoped_lock CWrlock.
Definition WriteScopedLock_unlock : M ScopedLock unit := scoped_unlock.
Definition WriteScopedLock_delete : M ScopedLock unit := scoped_delete.

(** ** CASLock *)

(** Where a thread is: outside, in the loop of lock(), or with the lock. *)
Inductive cas_pc : Type := Outside | Spinning | Holding.
#[global] Instance cas_pc_eq_dec : EqDecision cas_pc.
Proof. solve_decision. Defined.
Record CAS : Type := mkCAS { m_flag : bool; pcs : list cas_pc }.

(** The next step of thread [i]: lock() is called; one round of the loop, an
    atomic test and set; unlock(), which clears the flag. *)
Definition cas_step (i : nat) (s : CAS) : CAS :=
  match pcs s !! i with
  | Some Outside => mkCAS (m_flag s) (<[i := Spinning]> (pcs s))
  | Some Spinning => mkCAS true (if m_flag s then pcs s else <[i := Holding]> (pcs s))
  | Some Holding => mkCAS false (<[i := Outside]> (pcs s))
  | None => s
  end.
Definition cas_run (schedule : list nat) (s : CAS) : CAS := foldl (λ s i, cas_step i s) s schedule.
(** [b]: the flag after the construction, [n] threads. *)
Definition cas_start (b : bool) (n : nat) : CAS := mkCAS b (replicate n Outside).

(** The flag is set exactly while one thread holds the lock. *)
Record cas_ok (s : CAS) : Prop := {
  ca_flag : m_flag s = true ↔ ∃ i, pcs s !! i = Some Holding;
  ca_one i j : pcs s !! i = Some Holding → pcs s !! j = Some Holding → i = j
}.

Lemma cas_step_ok i s : cas_ok s → cas_ok (cas_step i s).
Proof.
  intros [H1 H2]. unfold cas_step. destruct (pcs s !! i) as [[]|] eqn:Hi; [| | |done]; pose proof (lookup_lt_Some _ _ _ Hi) as Hlt.
  - assert (∀ j, <[i := Spinning]> (pcs s) !! j = Some Holding ↔ pcs s !! j = Some Holding) as H.
    { intros j. destruct (decide (j = i)) as [->|]; [rewrite list_lookup_insert_eq by done; split; congruence|by rewrite list_lookup_insert_ne]. }
    split; cbn; [rewrite H1; by setoid_rewrite H|]. intros j k. rewrite !H. apply H2.
  - destruct (m_flag s) eqn:Hf; [split; cbn; [split; [intros _; by apply H1|done]|apply H2]|].
    assert (∀ j, pcs s !! j ≠ Some Holding) as Hno by (intros j Hj; assert (false = true) by (apply H1; by exists j); done).
    assert (∀ j, <[i := Holding]> (pcs s) !! j = Some Holding ↔ j = i) as H.
    { intros j. destruct (decide (j = i)) as [->|]; [by rewrite list_lookup_insert_eq|]. rewrite list_lookup_insert_ne by done.
      split; [intros Hj; by destruct (Hno j)|done]. }
    split; cbn; [split; [intros _; exists i; by apply H|done]|]. intros j k. rewrite !H. congruence.
  - assert (∀ j, <[i := Outside]> (pcs s) !! j ≠ Some Holding) as H.
    { intros j. destruct (decide (j = i)) as [->|]; [by rewrite list_lookup_insert_eq|]. rewrite list_lookup_insert_ne by done.
      intros Hj. by apply (H2 i j Hi) in Hj. }
    split; cbn; [split; [done|intros [j Hj]; by destruct (H j)]|]. intros j k Hj. by destruct (H j).
Qed.

Lemma cas_run_ok l s : cas_ok s → cas_ok (cas_run l s).
Proof. revert s. induction l as [|i l IH]; intros s Hs; [done|]. apply IH. by apply cas_step_ok. Qed.

(** CASLock excludes: whatever the order of the steps of any number of threads,
    once the flag has been clear, at most one of them holds the lock, and a
    thread in the loop gets it with its next step when none does. *)
Theorem cas_excludes n schedule :
  let s := cas_run schedule (cas_start false n) in
  (∀ i j, pcs s !! i = Some Holding → pcs s !! j = Some Holding → i = j) ∧
  (∀ i, pcs s !! i = Some Spinning → (∀ j, pcs s !! j ≠ Some Holding) → pcs (cas_step i s) !! i = Some Holding).
Proof.
  cbv zeta. assert (cas_ok (cas_run schedule (cas_start false n))) as [H1 H2].
  { apply cas_run_ok. split; cbn; [split; [done|]; intros [i Hi]|intros i j Hi]; apply lookup_replicate in Hi as [? _]; done. }
  split; [done|]. intros i Hi Hno. unfold cas_step. rewrite Hi. cbn. destruct (m_flag _); [|apply list_lookup_insert_eq; by eapply lookup_lt_Some].
  destruct (proj1 H1 eq_refl) as [j Hj]. by destruct (Hno j).
Qed.

(** The constructor leaves the flag as it finds it: when it is set, no thread
    ever gets the lock. *)
Lemma cas_uninitialised n schedule i : pcs (cas_run schedule (cas_start true n)) !! i ≠ Some Holding.
Proof.
  assert (∀ s, m_flag s = true → (∀ j, pcs s !! j ≠ Some Holding) →
    m_flag (cas_run schedule s) = true ∧ ∀ j, pcs (cas_run schedule s) !! j ≠ Some Holding) as H.
  { induction schedule as [|k l IH]; intros s Hf Hno; [done|]. cbn. apply IH; unfold cas_step; destruct (pcs s !! k) as [[]|] eqn:Hk; cbn; try done.
    - by destruct (Hno k).
    - intros j. pose proof (lookup_lt_Some _ _ _ Hk). destruct (decide (j = k)) as [->|]; [by rewrite list_lookup_insert_eq|by rewrite list_lookup_insert_ne].
    - by rewrite Hf.
    - by destruct (Hno k). }
  apply H; [done|]. intros j Hj. cbn in Hj. by apply lookup_replicate in Hj as [? _].
Qed.
