(* ===== verification/Threads.v ===== *)
(** Semaphore (skt/mutex/mutex.cpp) and Thread (skt/thread/thread.h,
    skt/thread/thread.cpp): how a thread is started, joined and detached.

    The constructor of Thread and Thread::run, on the new thread, take their
    steps in any order; a statement of run is one step. sem_wait and sem_post
    follow POSIX: sem_wait on a count of zero blocks, or fails with EINTR when a
    signal arrives. *)

From stdpp Require Import base list strings sets.
From Stdlib Require Import Ascii Lia.
From S2P Require Import Prelude CString.

(** ** Semaphore *)

Inductive sem_result : Type := Blocked | Taken (count : Z) | WaitThrew (e : exn).

Definition SEM_VALUE_MAX : Z := 2147483647.

(** Semaphore::Semaphore: sem_init refuses a count over the maximum. *)
Definition Semaphore_new (count : Z) : exn + Z :=
  if SEM_VALUE_MAX <? count then inl (logic_error "sem_init error") else inr count.
(** Semaphore::wait; [signal]: a signal handler runs while it sleeps. *)
Definition Semaphore_wait (signal : bool) (count : Z) : sem_result :=
  if 0 <? count then Taken (count - 1)
  else if signal then WaitThrew (logic_error "sem_wait error") else Blocked.
(** Semaphore::notify *)
Definition Semaphore_notify (count : Z) : exn + Z :=
  if count =? SEM_VALUE_MAX then inl (logic_error "sem_post error") else inr (count + 1).

(** ** The start of a thread *)

Section Start.
(** [C]: the functions a thread can run; [tid], [handle]: the id of the new
    thread, and the pthread_t that pthread_create gives it. *)
Context {C : Type} (tid handle : Z).

Record Thread : Type := mkThread {
  m_id : Z;
  m_thread : Z;
  m_cb : option C;
  m_name : str;
  m_semaphore : Z
}.

(** What the constructor does: wait; it has returned; the object has been
    destroyed since; it threw. *)
Inductive creator : Type := Waiting | Constructed | Destroyed | Threw (e : exn).
(** The statements of Thread::run, and its end. *)
Inductive runner : Type := RThis | RName | RId | RSetname | RSwap | RNotify | RCall | RDone.

Record Start : Type := mkStart {
  object : option Thread;       (* None: its lifetime is over *)
  c_pc : creator;
  r_pc : runner;
  t_thread : bool;              (* t_thread of the new thread points to the object *)
  t_thread_name : str;
  os_name : str;                (* the name of the thread for the system *)
  local_cb : option C;          (* the variable cb of run *)
  ran : list C                  (* the functions that have been called *)
}.
Abbreviation start := (M Start).

Definition set_object o s : Start := mkStart o (c_pc s) (r_pc s) (t_thread s) (t_thread_name s) (os_name s) (local_cb s) (ran s).
Definition set_cpc c s : Start := mkStart (object s) c (r_pc s) (t_thread s) (t_thread_name s) (os_name s) (local_cb s) (ran s).
Definition set_rpc r s : Start := mkStart (object s) (c_pc s) r (t_thread s) (t_thread_name s) (os_name s) (local_cb s) (ran s).
Definition set_this b s : Start := mkStart (object s) (c_pc s) (r_pc s) b (t_thread_name s) (os_name s) (local_cb s) (ran s).
Definition set_tname n s : Start := mkStart (object s) (c_pc s) (r_pc s) (t_thread s) n (os_name s) (local_cb s) (ran s).
Definition set_osname n s : Start := mkStart (object s) (c_pc s) (r_pc s) (t_thread s) (t_thread_name s) n (local_cb s) (ran s).
Definition set_local c s : Start := mkStart (object s) (c_pc s) (r_pc s) (t_thread s) (t_thread_name s) (os_name s) c (ran s).
Definition add_ran c s : Start := mkStart (object s) (c_pc s) (r_pc s) (t_thread s) (t_thread_name s) (os_name s) (local_cb s) (ran s ++ [c]).

(** The object, through [this] or [thread]: nothing is defined after its end. *)
Definition this : start Thread := s ← mget; mderef NullDeref (object s).
Definition put_this (o : Thread) : start unit := mmodify (set_object (Some o)).

Definition UNKNOW_name : str := L "UNKNOW".

(** The constructor up to the wait; [rt]: what pthread_create returns. *)
Definition Thread_new (rt : Z) (cb : option C) (name : str) : exn + Start :=
  if rt =? 0
  then inr (mkStart (Some (mkThread (-1) handle cb (match name with [] => UNKNOW_name | _ => name end) 0))
              Waiting RThis false UNKNOW_name [] None [])
  else inl (logic_error "pthread_create error").

(** m_semaphore.wait() of the constructor: when it throws, the members are
    destroyed. *)
Definition Thread_wait (signal : bool) : start unit :=
  o ← this;
  match Semaphore_wait signal (m_semaphore o) with
  | Blocked => mret tt
  | Taken n => put_this (mkThread (m_id o) (m_thread o) (m_cb o) (m_name o) n);; mmodify (set_cpc Constructed)
  | WaitThrew e => mmodify (set_object None);; mmodify (set_cpc (Threw e))
  end.

(** Thread::run, the next statement. *)
Definition Thread_run : start unit :=
  s ← mget;
  match r_pc s with
  | RThis => mmodify (set_this true);; mmodify (set_rpc RName)
  | RName => o ← this; mmodify (set_tname (m_name o));; mmodify (set_rpc RId)
  | RId => o ← this; put_this (mkThread tid (m_thread o) (m_cb o) (m_name o) (m_semaphore o));; mmodify (set_rpc RSetname)
  | RSetname => o ← this; mmodify (set_osname (take 15 (m_name o)));; mmodify (set_rpc RSwap)
  | RSwap =>
    o ← this; s' ← mget;
    put_this (mkThread (m_id o) (m_thread o) (local_cb s') (m_name o) (m_semaphore o));;
    mmodify (set_local (m_cb o));; mmodify (set_rpc RNotify)
  | RNotify =>
    o ← this;
    match Semaphore_notify (m_semaphore o) with
    | inl e => mthrow e
    | inr n => put_this (mkThread (m_id o) (m_thread o) (m_cb o) (m_name o) n);; mmodify (set_rpc RCall)
    end
  | RCall => c ← mderef NullDeref (local_cb s); mmodify (add_ran c);; mmodify (set_rpc RDone)
  | RDone => mret tt
  end.

(** Thread::SetName, on the new thread. *)
Definition SetName (name : str) : start unit :=
  s ← mget;
  (if t_thread s then o ← this; put_this (mkThread (m_id o) (m_thread o) (m_cb o) name (m_semaphore o)) else mret tt);;
  mmodify (set_tname name).

(** What happens next: the constructor tries the semaphore, the owner destroys
    the object it has got, the new thread takes a step. *)
Inductive event : Type := EWait (signal : bool) | EDelete | ERun.
Definition start_step (e : event) : start unit :=
  s ← mget;
  match e, c_pc s with
  | EWait signal, Waiting => Thread_wait signal
  | EDelete, Constructed => mmodify (set_object None);; mmodify (set_cpc Destroyed)
  | ERun, _ => Thread_run
  | _, _ => mret tt
  end.
Fixpoint start_run (l : list event) : start unit :=
  match l with [] => mret tt | e :: l' => start_step e;; start_run l' end.

(** ** Its correctness *)

Section Safe.
Context (c : C) (name : str).
Let full_name : str := match name with [] => UNKNOW_name | _ => name end.

(** The statements that come before the notify. *)
Definition starting (r : runner) : bool := match r with RCall | RDone => false | _ => true end.
(** The object when the new thread is at [r]. *)
Definition object_at (r : runner) (count : Z) : Thread :=
  mkThread (match r with RThis | RName | RId => -1 | _ => tid end) handle
    (match r with RThis | RName | RId | RSetname | RSwap => Some c | _ => None end) full_name count.

(** The thread's own variables at [r]. *)
Record runs_at (s : Start) : Prop := {
  ra_this : t_thread s = match r_pc s with RThis => false | _ => true end;
  ra_tname : t_thread_name s = match r_pc s with RThis | RName => UNKNOW_name | _ => full_name end;
  ra_osname : os_name s = match r_pc s with RThis | RName | RId | RSetname => [] | _ => take 15 full_name end;
  ra_local : local_cb s = match r_pc s with RNotify | RCall | RDone => Some c | _ => None end;
  ra_ran : ran s = match r_pc s with RDone => [c] | _ => [] end
}.
Definition creates_at (s : Start) : Prop :=
  match c_pc s with
  | Waiting => object s = Some (object_at (r_pc s) (if starting (r_pc s) then 0 else 1))
  | Constructed => object s = Some (object_at (r_pc s) 0) ∧ starting (r_pc s) = false
  | Destroyed => object s = None ∧ starting (r_pc s) = false
  | Threw _ => False
  end.
Definition start_ok (s : Start) : Prop := runs_at s ∧ creates_at s.

Definition start_state : Start :=
  mkStart (Some (object_at RThis 0)) Waiting RThis false UNKNOW_name [] None [].
Lemma Thread_new_ok : Thread_new 0 (Some c) name = inr start_state.
Proof. done. Qed.
Lemma start_state_ok : start_ok start_state.
Proof. by split. Qed.

Definition no_signal (e : event) : bool := match e with EWait true => false | _ => true end.

Definition next_stmt (r : runner) : runner :=
  match r with RThis => RName | RName => RId | RId => RSetname | RSetname => RSwap | RSwap => RNotify | RNotify => RCall | _ => RDone end.

Lemma Thread_run_ok s : start_ok s → ∃ s', ⟨ Thread_run, s ⟩ ⇓ ⟨ tt, s' ⟩ ∧ start_ok s' ∧ r_pc s' = next_stmt (r_pc s) ∧ c_pc s' = c_pc s.
Proof.
  intros [[H1 H2 H3 H4 H5] H6]. destruct s as [o cp rp tt' tn on lc rn]. cbn in *. subst. unfold creates_at in H6. cbn in H6.
  destruct cp; [| | |done].
  - destruct rp; cbn in H6; subst o; (eexists; split; [reflexivity|]); done.
  - destruct H6 as [-> H6]. destruct rp; try done; (eexists; split; [reflexivity|]); done.
  - destruct H6 as [-> H6]. destruct rp; try done; (eexists; split; [reflexivity|]); done.
Qed.

Lemma start_step_ok e s : no_signal e = true → start_ok s → ∃ s', ⟨ start_step e, s ⟩ ⇓ ⟨ tt, s' ⟩ ∧ start_ok s'.
Proof.
  intros He Hs. destruct e as [[]| |]; [done| | |].
  - unfold start_step. mred. destruct (c_pc s) eqn:Ec; [|by eauto..].
    destruct Hs as [Hr Hc]. unfold creates_at in Hc. rewrite Ec in Hc.
    unfold Thread_wait, this. mred. rewrite Hc. destruct (starting (r_pc s)) eqn:Es; cbn; (eexists; split; [reflexivity|]).
    + split; [done|]. unfold creates_at. by rewrite Ec, Es.
    + split; [by destruct Hr|]. split; [|done]. cbn. done.
  - unfold start_step. mred. destruct Hs as [Hr Hc]. destruct (c_pc s) eqn:Ec; try (eexists; split; [reflexivity|by split]).
    unfold creates_at in Hc. rewrite Ec in Hc. eexists. split; [reflexivity|]. split; [by destruct Hr|]. by destruct Hc.
  - destruct (Thread_run_ok s Hs) as (s' & E & H & _). exists s'. split; [|done]. unfold start_step. mred. by destruct (c_pc s).
Qed.

Lemma start_run_ok l s : forallb no_signal l = true → start_ok s → ∃ s', ⟨ start_run l, s ⟩ ⇓ ⟨ tt, s' ⟩ ∧ start_ok s'.
Proof.
  revert s. induction l as [|e l IH]; intros s Hl Hs; [by exists s|]. apply andb_true_iff in Hl as [He Hl].
  destruct (start_step_ok e s He Hs) as (s1 & E & H1). cbn [start_run]. rewrite (bind_ok _ _ _ _ _ E). by apply IH.
Qed.

Lemma runs_n n s : start_ok s → ∃ s', ⟨ start_run (replicate n ERun), s ⟩ ⇓ ⟨ tt, s' ⟩ ∧ start_ok s' ∧
  r_pc s' = Nat.iter n next_stmt (r_pc s) ∧ c_pc s' = c_pc s.
Proof.
  revert s. induction n as [|n IH]; intros s Hs; [by exists s|].
  destruct (Thread_run_ok s Hs) as (s1 & E & H1 & Hr & Hc). destruct (IH s1 H1) as (s2 & E2 & H2 & Hr2 & Hc2).
  exists s2. cbn [replicate start_run]. rewrite (bind_ok _ _ _ tt s1) by (unfold start_step; mred; by destruct (c_pc s)).
  split; [done|]. split; [done|]. rewrite Nat.iter_succ_r, <- Hr. by rewrite Hc2, Hc.
Qed.

Lemma start_run_app l1 l2 s s1 : ⟨ start_run l1, s ⟩ ⇓ ⟨ tt, s1 ⟩ → start_run (l1 ++ l2) s = start_run l2 s1.
Proof.
  revert s. induction l1 as [|e l1 IH]; intros s; [by intros [= ->]|]. cbn [app start_run]. intros E.
  apply bind_inv_ok in E as ([] & s0 & E0 & E1). rewrite (bind_ok _ _ _ _ _ E0). by apply IH.
Qed.
End Safe.

(** C29: A thread starts as it should. In whatever order the constructor and the new
    thread take their steps and the owner destroys the object it has got, and
    while no signal interrupts the wait: nothing is accessed after its end and
    nothing is thrown; when the constructor has returned, the object has the id
    of the thread and the function has left it, and the thread knows the object
    and its name; and the function is called at most once. *)
Theorem thread_start_safe c name l :
  forallb no_signal l = true →
  ∃ s0 s, Thread_new 0 (Some c) name = inr s0 ∧ ⟨ start_run l, s0 ⟩ ⇓ ⟨ tt, s ⟩ ∧
    (c_pc s = Constructed →
     t_thread s = true ∧ ∃ o, object s = Some o ∧ m_id o = tid ∧ m_cb o = None ∧ m_name o = t_thread_name s) ∧
    (ran s = [] ∨ ran s = [c]) ∧ (ran s = [c] → c_pc s = Waiting → ∃ o, object s = Some o ∧ m_semaphore o = 1).
Proof.
  intros Hl. destruct (start_run_ok c name l _ Hl (start_state_ok c name)) as (s & E & [H1 H2 H3 H4 H5] & H6).
  eexists _, s. split; [apply Thread_new_ok|]. split; [done|]. unfold creates_at in H6. split; [|split].
  - intros Ec. rewrite Ec in H6. destruct H6 as [Ho Hr]. rewrite H1, H2. split; [by destruct (r_pc s)|].
    exists (object_at c name (r_pc s) 0). by destruct (r_pc s).
  - rewrite H5. destruct (r_pc s); eauto.
  - intros Hran Ec. rewrite Ec in H6. rewrite H5 in Hran. rewrite H6. eexists. split; [done|]. by destruct (r_pc s).
Qed.

(** A thread gets started. After any beginning without a signal in the
    wait, eight steps of the new thread complete the call of the function, and
    the next try of the constructor returns. *)
Theorem thread_starts c name l :
  forallb no_signal l = true →
  ∃ s0 s, Thread_new 0 (Some c) name = inr s0 ∧ ⟨ start_run (l ++ replicate 8 ERun ++ [EWait false]), s0 ⟩ ⇓ ⟨ tt, s ⟩ ∧
    ran s = [c] ∧ (c_pc s = Constructed ∨ c_pc s = Destroyed).
Proof.
  intros Hl. destruct (start_run_ok c name l _ Hl (start_state_ok c name)) as (s1 & E1 & H1).
  destruct (runs_n c name 8 s1 H1) as (s2 & E2 & H2 & Hr & Hc).
  destruct (start_step_ok c name (EWait false) s2 eq_refl H2) as (s3 & E3 & H3).
  assert (r_pc s2 = RDone) as Hd by (rewrite Hr; by destruct (r_pc s1)).
  exists (start_state c name), s3. split; [apply Thread_new_ok|].
  rewrite (start_run_app _ _ _ _ E1), (start_run_app _ _ _ _ E2). cbn [start_run]. rewrite (bind_ok _ _ _ _ _ E3). split; [done|].
  destruct H2 as [Hru Hcr]. unfold creates_at in Hcr. pose proof (ra_ran _ _ _ Hru) as Hran. rewrite Hd in Hran, Hcr.
  revert E3. unfold start_step. mred. destruct (c_pc s2) eqn:Ec; [|intros [= <-]; rewrite Ec; eauto..|done].
  unfold Thread_wait, this. mred. rewrite Hcr. cbn. intros [= <-]. cbn. eauto.
Qed.

(** A signal that interrupts the wait makes the constructor throw while the new
    thread runs on and uses the object that is gone. *)
Lemma thread_start_interrupted c name :
  ∃ s0, Thread_new 0 (Some c) name = inr s0 ∧ start_run [ERun; EWait true; ERun] s0 = Stop NullDeref.
Proof. eexists. split; [apply Thread_new_ok|]. reflexivity. Qed.

(** SetName on a thread that outlives its Thread object uses it after its end. *)
Lemma set_name_after_end c name n :
  ∃ s0, Thread_new 0 (Some c) name = inr s0 ∧
    (start_run (replicate 6 ERun ++ [EWait false; EDelete]);; SetName n) s0 = Stop NullDeref.
Proof. eexists. split; [apply Thread_new_ok|]. reflexivity. Qed.
End Start.

(** ** The end of a thread *)

(** The calls on the pthread_t, and whether they succeed. *)
Inductive pthread_call : Type := CJoin (h rt : Z) | CDetach (h : Z).
Record Handle : Type := mkHandle { h_thread : Z; h_calls : list pthread_call }.
Abbreviation handled := (M Handle).

(** Thread::join; [rt]: what pthread_join returns. *)
Definition join (rt : Z) : handled unit :=
  h ← mget;
  if h_thread h =? 0 then mret tt
  else
    mput (mkHandle (h_thread h) (h_calls h ++ [CJoin (h_thread h) rt]));;
    if rt =? 0 then mmodify (λ h, mkHandle 0 (h_calls h)) else mthrow (logic_error "pthread_join error").
(** Thread::~Thread *)
Definition Thread_delete : handled unit :=
  h ← mget; if h_thread h =? 0 then mret tt else mput (mkHandle (h_thread h) (h_calls h ++ [CDetach (h_thread h)])).

(** Calls of join, each of whose exceptions is caught. *)
Fixpoint joins (rts : list Z) : handled unit :=
  match rts with
  | [] => mret tt
  | rt :: rts' => λ h, match join rt h with Ok _ h' | Exc _ h' => joins rts' h' | Stop u => Stop u | NoFuel => NoFuel end
  end.

Definition releases (c : pthread_call) : bool := match c with CJoin _ rt => rt =? 0 | CDetach _ => true end.
Definition releases_of (l : list pthread_call) : list pthread_call := filter (λ c, releases c = true) l.

Lemma joins_spec rts h0 : 0 < h0 → ∀ l, releases_of l = [] →
  ∃ h, ⟨ joins rts, mkHandle h0 l ⟩ ⇓ ⟨ tt, h ⟩ ∧
    ((h_thread h = h0 ∧ releases_of (h_calls h) = []) ∨
     (h_thread h = 0 ∧ ∃ l', h_calls h = l' ++ [CJoin h0 0] ∧ releases_of l' = [])).
Proof.
  intros Hh. assert ((h0 =? 0) = false) as E0 by lia. induction rts as [|rt rts IH]; intros l Hl; [eexists; eauto|].
  cbn [joins]. unfold join. mred. cbn. rewrite E0. destruct (rt =? 0) eqn:Er; cbn.
  - apply Z.eqb_eq in Er as ->. exists (mkHandle 0 (l ++ [CJoin h0 0])). split; [|right; split; [done|by exists l]].
    generalize (l ++ [CJoin h0 0]). clear. induction rts as [|rt rts IH]; intros l; [done|]. cbn [joins]. unfold join. mred. apply IH.
  - apply IH. unfold releases_of in *. rewrite filter_app, Hl. cbn. by rewrite Er.
Qed.

(** A thread is given back once: of the calls that join and the destructor make
    on its handle, exactly one, the last, succeeds in joining or detaches, however
    often join is called and fails. *)
Theorem thread_released_once rts h0 :
  0 < h0 →
  ∃ h l c, ⟨ (joins rts;; Thread_delete), mkHandle h0 [] ⟩ ⇓ ⟨ tt, h ⟩ ∧
    h_calls h = l ++ [c] ∧ releases_of l = [] ∧ (c = CJoin h0 0 ∨ c = CDetach h0).
Proof.
  intros Hh. destruct (joins_spec rts h0 Hh [] eq_refl) as (h & E & H). rewrite (bind_ok _ _ _ _ _ E). unfold Thread_delete. mred.
  destruct H as [[-> Hr]|[-> (l & Hl & Hr)]]; cbn.
  - rewrite (proj2 (Z.eqb_neq h0 0)) by lia. eexists _, (h_calls h), _. split; [reflexivity|]. eauto.
  - eexists _, l, _. split; [reflexivity|]. eauto.
Qed.

(** A schedule in which the constructor waits twice, returns before the function
    is called, and the object goes before the thread ends. *)
Definition demo_schedule : list event := [ERun; EWait false; ERun; ERun; ERun; EWait false; ERun; ERun; EWait false; EDelete].

Lemma thread_start_safe_witness :
  ∃ s0 s, Thread_new 7 0 (Some tt) [] = inr s0 ∧ start_run 42 demo_schedule s0 = Ok tt s ∧ ran s = [].
Proof.
  destruct (thread_start_safe 42 7 tt [] demo_schedule eq_refl) as (s0 & s & H0 & E & _ & H & _). exists s0, s.
  split; [exact H0|]. split; [exact E|]. injection H0 as <-. vm_compute in E. injection E as <-. reflexivity.
Defined.

Lemma thread_starts_witness :
  ∃ s0 s, Thread_new 7 0 (Some tt) (L "worker") = inr s0 ∧
    start_run 42 ([EWait false; ERun] ++ replicate 8 ERun ++ [EWait false]) s0 = Ok tt s ∧ ran s = [tt].
Proof.
  destruct (thread_starts 42 7 tt (L "worker") [EWait false; ERun] eq_refl) as (s0 & s & H0 & E & H & _).
  exists s0, s. split; [exact H0|]. split; [exact E|exact H].
Defined.
