(* ===== verification/Daemon.v ===== *)
(** The daemon (skt/daemon/daemon.h, skt/daemon/daemon.cpp): a parent process
    that starts the program again when it crashes.

    What the system answers, to fork, waitpid, getpid and time, is an argument;
    [W] is what the program itself works on. *)

From stdpp Require Import base list strings sets.
From Stdlib Require Import Ascii Lia.
From S2P Require Import Prelude CString.

Record ProcessInfo : Type := mkInfo {
  parent_id : Z;
  main_id : Z;
  parent_start_time : Z;
  main_start_time : Z;
  restart_count : Z
}.

(** ProcessInfo::toString; [Time2Str] formats a time. *)
Definition ProcessInfo_toString (Time2Str : Z → str) (p : ProcessInfo) : str :=
  L "[ProcessInfo parent_id=" ++ to_string (parent_id p)
  ++ L " main_id=" ++ to_string (main_id p)
  ++ L " parent_start_time=" ++ Time2Str (parent_start_time p)
  ++ L " main_start_time=" ++ Time2Str (main_start_time p)
  ++ L " restart_count=" ++ to_string (restart_count p) ++ L "]".

(** One round of the loop, as the system answers it: fork fails; it returns in
    the child, which has an id and reads the clock twice; it returns in the
    parent, where waitpid gives the status of the child or, as None, fails. *)
Inductive fork_answer : Type :=
| ForkFail
| ForkChild (pid start_time real_time : Z)
| ForkParent (pid : Z) (waited : option Z).

Section Daemon.
(** [main_cb]: the program, for a process with a given id. *)
Context {W : Type} (main_cb : Z → M W Z).

Record Process : Type := mkProcess { info : ProcessInfo; program : W }.
Abbreviation process := (M Process).

Definition on_info (f : ProcessInfo → ProcessInfo) : process unit := mmodify (λ p, mkProcess (f (info p)) (program p)).
Definition call_main (pid : Z) : process Z := λ p,
  match main_cb pid (program p) with
  | Ok r w => Ok r (mkProcess (info p) w)
  | Exc e w => Exc e (mkProcess (info p) w)
  | Stop u => Stop u
  | NoFuel => NoFuel
  end.

Definition set_parent (pid now : Z) (i : ProcessInfo) : ProcessInfo :=
  mkInfo pid (main_id i) now (main_start_time i) (restart_count i).
Definition set_main (pid now : Z) (i : ProcessInfo) : ProcessInfo :=
  mkInfo (parent_id i) pid (parent_start_time i) now (restart_count i).
Definition count_restart (i : ProcessInfo) : ProcessInfo :=
  mkInfo (parent_id i) (main_id i) (parent_start_time i) (main_start_time i) (u32 (restart_count i + 1)).

(** real_start *)
Definition real_start (pid now : Z) : process Z := on_info (set_parent pid (u64 now));; call_main pid.

(** The loop of real_daemon. The answers end before it does: it goes on. *)
Fixpoint daemon_loop (answers : list fork_answer) : process Z :=
  match answers with
  | [] => mnofuel
  | ForkChild pid t1 t2 :: _ => on_info (set_main pid (u64 t1));; real_start pid t2
  | ForkFail :: _ => mret (-1)
  | ForkParent _ waited :: answers' =>
    let status := default 0 waited in
    if status =? 0 then mret 0
    else if status =? 9 then mret 0
    else on_info count_restart;; daemon_loop answers'
  end.

(** real_daemon; [pid], [now]: after daemon(1, 0). *)
Definition real_daemon (pid now : Z) (answers : list fork_answer) : process Z :=
  on_info (set_parent pid (u64 now));; daemon_loop answers.

(** start_daemon; [now']: the second reading of the clock. *)
Definition start_daemon (is_daemon : bool) (pid now now' : Z) (answers : list fork_answer) : process Z :=
  if negb is_daemon then on_info (set_parent pid (u64 now));; real_start pid now'
  else real_daemon pid now answers.

(** ** Properties *)

(** A child that crashed: a status other than zero and the one of SIGKILL. *)
Definition crashed (a : fork_answer) : bool :=
  match a with ForkParent _ (Some st) => negb (st =? 0) && negb (st =? 9) | _ => false end.

Definition counted (n : nat) (i : ProcessInfo) : ProcessInfo :=
  mkInfo (parent_id i) (main_id i) (parent_start_time i) (main_start_time i) (u32 (restart_count i + Z.of_nat n)).

Lemma counted_0 i : 0 ≤ restart_count i < 2 ^ 32 → counted 0 i = i.
Proof. intros H. destruct i as [a b c d n]. unfold counted, wrapu. cbn in *. by rewrite Z.add_0_r, Z.mod_small. Qed.

Lemma daemon_loop_crashes cs answers p :
  forallb crashed cs = true → 0 ≤ restart_count (info p) < 2 ^ 32 →
  daemon_loop (cs ++ answers) p = daemon_loop answers (mkProcess (counted (length cs) (info p)) (program p)).
Proof.
  revert p. induction cs as [|c cs IH]; intros p; [intros _ H; cbn [length app]; rewrite counted_0 by done; by destruct p|].
  intros [Hc Hcs]%andb_true_iff Hp. destruct c as [| |pid [st|]]; try done. cbn in Hc. apply andb_true_iff in Hc as [Hc1 Hc2].
  cbn [app daemon_loop default]. cbn. rewrite (proj1 (negb_true_iff _) Hc1), (proj1 (negb_true_iff _) Hc2). unfold on_info. rewrite bind_modify.
  rewrite IH by (done || (cbn; apply Z.mod_pos_bound; lia)). unfold counted, count_restart.
  cbn [info program restart_count parent_id main_id parent_start_time main_start_time]. do 3 f_equal.
  unfold wrapu. rewrite Zplus_mod_idemp_l. f_equal. lia.
Qed.

(** The daemon restarts the program after each crash and only then. After [cs]
    children that crashed: when fork fails it ends with -1, when the child
    finished, was killed, or waitpid fails it ends with 0, and in neither case
    has it run the program itself; in the next child the program runs, once,
    with the number of restarts, and what it returns is the result. *)
Theorem daemon_restarts cs a w w' r i0 pid now :
  forallb crashed cs = true → restart_count i0 = 0 → (∀ child, main_cb child w = Ok r w') →
  let i := counted (length cs) (set_parent pid (u64 now) i0) in
  match a with
  | ForkFail => ⟨ real_daemon pid now (cs ++ [a]), mkProcess i0 w ⟩ ⇓ ⟨ -1, mkProcess i w ⟩
  | ForkParent _ waited => crashed a = false → ⟨ real_daemon pid now (cs ++ [a]), mkProcess i0 w ⟩ ⇓ ⟨ 0, mkProcess i w ⟩
  | ForkChild child t1 t2 =>
    ⟨ real_daemon pid now (cs ++ [a]), mkProcess i0 w ⟩ ⇓ ⟨ r, mkProcess (mkInfo child child (u64 t2) (u64 t1) (u32 (Z.of_nat (length cs)))) w' ⟩
  end.
Proof.
  intros Hcs H0 Hm. cbv zeta. unfold real_daemon, on_info.
  assert (0 ≤ restart_count (info (mkProcess (set_parent pid (u64 now) i0) w)) < 2 ^ 32) as Hp by (cbn; lia).
  destruct a as [|child t1 t2|child waited].
  - rewrite bind_modify, daemon_loop_crashes by done. done.
  - rewrite bind_modify, daemon_loop_crashes by done. cbn [daemon_loop]. unfold real_start, on_info. rewrite !bind_modify.
    unfold call_main. cbn [program]. rewrite Hm. cbn [info]. unfold counted, set_main, set_parent.
    cbn [restart_count main_id main_start_time parent_id parent_start_time]. by rewrite H0.
  - intros Hc. rewrite bind_modify, daemon_loop_crashes by done. cbn [daemon_loop]. destruct waited as [st|]; [|done]. cbn in *.
    apply andb_false_iff in Hc as [Hc|Hc]; apply negb_false_iff in Hc; rewrite Hc; [done|by destruct (st =? 0)].
Qed.

(** For a program that returns zero, the result is another number only when
    fork fails. *)
Lemma daemon_loop_zero answers p :
  (∀ child, ∃ w', main_cb child (program p) = Ok 0 w') →
  (daemon_loop answers p = NoFuel ∧ forallb crashed answers = true) ∨
  ∃ r p', ⟨ daemon_loop answers, p ⟩ ⇓ ⟨ r, p' ⟩ ∧ (r ≠ 0 ↔ ∃ cs rest, forallb crashed cs = true ∧ answers = cs ++ ForkFail :: rest).
Proof.
  intros Hm. revert p Hm. induction answers as [|a answers IH]; intros p Hm; [by left|]. destruct (crashed a) eqn:Ha.
  - destruct a as [| |child [st|]]; try done. cbn in Ha. apply andb_true_iff in Ha as [H1%negb_true_iff H2%negb_true_iff].
    cbn [daemon_loop default]. cbn. rewrite H1, H2. unfold on_info. rewrite bind_modify. cbn.
    destruct (IH (mkProcess (count_restart (info p)) (program p)) Hm) as [[E Hc]|(r & p' & E & Hr)]; [left|right; exists r, p'].
    + by rewrite E, Hc.
    + split; [done|]. rewrite Hr. split; intros (cs & rest & Hcs & Eq).
      * exists (ForkParent child (Some st) :: cs), rest. cbn. by rewrite H1, H2, Eq.
      * destruct cs as [|c cs]; [done|]. injection Eq as <- ->. exists cs, rest. by apply andb_true_iff in Hcs as [_ ?].
  - right. assert (∀ cs rest, forallb crashed cs = true → a :: answers = cs ++ ForkFail :: rest → a = ForkFail) as Hno.
    { intros [|c cs] rest Hcs Eq; [by injection Eq|]. injection Eq as <- _. apply andb_true_iff in Hcs as [Hcs _]. congruence. }
    destruct a as [|child t1 t2|child w].
    + exists (-1), p. split; [done|]. split; [|done]. intros _. by exists [], answers.
    + destruct (Hm child) as [w' Hw]. eexists 0, _. split; [|split; [done|intros (cs & rest & Hcs & Eq); by apply Hno in Eq]].
      cbn [daemon_loop]. unfold real_start, on_info. rewrite !bind_modify. unfold call_main. cbn [program]. by rewrite Hw.
    + exists 0, p. split; [|split; [done|intros (cs & rest & Hcs & Eq); by apply Hno in Eq]]. cbn [daemon_loop].
      destruct w as [st|]; [|done]. cbn in *. apply andb_false_iff in Ha as [H|H]; apply negb_false_iff in H; rewrite H; [done|by destruct (st =? 0)].
Qed.

(** In the child, real_start puts the id of the child where the id of the
    daemon was. *)
Lemma child_is_its_parent w w' r i0 pid now child t1 t2 :
  main_cb child w = Ok r w' →
  ∃ p, ⟨ real_daemon pid now [ForkChild child t1 t2], mkProcess i0 w ⟩ ⇓ ⟨ r, p ⟩ ∧
    parent_id (info p) = child ∧ main_id (info p) = child.
Proof.
  intros Hm. unfold real_daemon, on_info. rewrite bind_modify. cbn [daemon_loop]. unfold real_start, on_info. rewrite !bind_modify.
  unfold call_main. cbn. rewrite Hm. by eexists.
Qed.
End Daemon.

(** A child that ends by SIGSEGV twice and then returns zero. *)
Lemma daemon_restarts_witness :
  ∃ p, ⟨ real_daemon (λ _, mret 0) 10 1000 [ForkParent 11 (Some 139); ForkParent 12 (Some 139); ForkParent 13 (Some 0)],
         mkProcess (mkInfo 0 0 0 0 0) tt ⟩ ⇓ ⟨ 0, p ⟩ ∧ restart_count (info p) = 2.
Proof.
  eexists. split; [|shelve].
  apply (daemon_restarts (λ _, mret 0) [ForkParent 11 (Some 139); ForkParent 12 (Some 139)] (ForkParent 13 (Some 0)) tt tt 0 (mkInfo 0 0 0 0 0) 10 1000);
    reflexivity.
  Unshelve. reflexivity.
Defined.
