(* ===== verification/ServerConf.v ===== *)
(** HttpServerConf and its casts (skt/application/application.cpp), the elements
    of the configuration variable "http_servers". *)

From stdpp Require Import base list strings sets gmap countable.
From Stdlib Require Import Ascii Lia.
From S2P Require Import Prelude StdOrdered CString Yaml LogConf.

Record HttpServerConf : Type := mkServerConf {
  sc_address : list str;
  sc_keepalive : Z;
  sc_timeout : Z;
  sc_name : str
}.
Definition HttpServerConf_new : HttpServerConf := mkServerConf [] 0 (i32 (1000 * 2 * 60)) [].

(** isValie, operator== *)
Definition isValie (c : HttpServerConf) : bool := negb (bool_decide (sc_address c = [])).
Definition conf_eqb (c d : HttpServerConf) : bool :=
  bool_decide (sc_address c = sc_address d) && (sc_keepalive c =? sc_keepalive d)
  && (sc_timeout c =? sc_timeout d) && streq (sc_name c) (sc_name d).

Lemma conf_eqb_spec c d : conf_eqb c d = true ↔ c = d.
Proof.
  unfold conf_eqb, streq. rewrite !andb_true_iff, !bool_decide_eq_true, !Z.eqb_eq. destruct c, d. cbn. split; [|by intros [= -> -> -> ->]].
  intros [[[-> ->] ->] ->]. done.
Qed.

(** What yaml-cpp does with integers. *)
Class YamlInt (N : Type) : Type := {
  as_int : N → option Z;              (* as<int>() *)
  of_int : Z → N                      (* a node assigned from an int *)
}.
Class YamlIntLaws (N : Type) `{Y : Yaml N} `{YI : YamlInt N} : Prop := {
  yi_as_int n : in_s 32 n → as_int (of_int n) = Some n;
  yi_defined n : IsDefined (of_int n) = true
}.

Section Casts.
Context {N : Type} `{Y : Yaml N} `{YI : YamlInt N}.

(** as<T>(fallback): the fallback for a node that is not there or does not
    convert. *)
Definition as_or {T} (as_T : N → option T) (n : N) (fallback : T) : T :=
  if IsDefined n then default fallback (as_T n) else fallback.

(** LexicalCast<std::string, HttpServerConf>; None: an exception. *)
Definition string_to_conf (v : str) : option HttpServerConf :=
  node ← Load v;
  let conf := HttpServerConf_new in
  let keepalive := as_or as_int (at_key node (L "keepalive")) (sc_keepalive conf) in
  let timeout := as_or as_int (at_key node (L "timeout")) (sc_timeout conf) in
  let name := as_or as_string (at_key node (L "name")) (sc_name conf) in
  address ← (if has_field node "address" then mapM as_string (elements_of (at_key node (L "address"))) else Some []);
  Some (mkServerConf address keepalive timeout name).

(** LexicalCast<HttpServerConf, std::string> *)
Definition conf_node (conf : HttpServerConf) : N :=
  let node := set_key empty_node (L "name") (of_string (sc_name conf)) in
  let node := set_key node (L "keepalive") (of_int (sc_keepalive conf)) in
  let node := set_key node (L "timeout") (of_int (sc_timeout conf)) in
  foldl (λ n i, push_field "address" (of_string i) n) node (sc_address conf).
Definition conf_to_string (conf : HttpServerConf) : option str := Some (Emit (conf_node conf)).

(** LexicalCast for std::vector<HttpServerConf> *)
Definition string_to_confs (v : str) : option (list HttpServerConf) := string_to_vector string_to_conf v.
Definition confs_to_string (v : list HttpServerConf) : option str := vector_to_string conf_to_string v.
End Casts.

Section Roundtrip.
Context {N : Type} `{Y : Yaml N} `{YL : !YamlLaws N} `{YI : YamlInt N} `{YIL : !YamlIntLaws N}.

Definition conf_fields (c : HttpServerConf) : list (str * N) :=
  [(L "name", of_string (sc_name c)); (L "keepalive", of_int (sc_keepalive c)); (L "timeout", of_int (sc_timeout c))].
Definition address_field (c : HttpServerConf) : list (str * N) :=
  match sc_address c with [] => [] | a => [(L "address", seq_node (of_string <$> a))] end.

Lemma conf_node_fields c : conf_node c = map_node (conf_fields c ++ address_field c).
Proof.
  unfold conf_node, address_field. change (set_key _ (L "timeout") _) with (map_node (conf_fields c)).
  destruct (sc_address c) as [|a l]; [by rewrite app_nil_r|]. cbn [foldl].
  assert (NoDup ((conf_fields c).*1)) as Hnd by (cbn; repeat (constructor; [set_solver|]); constructor).
  assert (L "address" ∉ (conf_fields c).*1) as Hn by (cbn; set_solver).
  assert (push_field "address" (of_string a) (map_node (conf_fields c)) = map_node (conf_fields c ++ [(L "address", seq_node [of_string a])])) as ->.
  { unfold push_field, has_field. rewrite yl_undefined by done. unfold map_node. by rewrite foldl_app. }
  change (of_string <$> a :: l) with ([of_string a] ++ (of_string (N := N) <$> l)). rewrite <- (push_fields "address" (conf_fields c) [of_string a] (of_string <$> l)) by done.
  clear. generalize (map_node (conf_fields c ++ [(L "address", seq_node [of_string a])])). induction l as [|b l IH]; intros n; [done|]. apply IH.
Qed.

Lemma read_addresses (l : list str) : mapM as_string (of_string (N := N) <$> l) = Some l.
Proof. induction l as [|a l IH]; [done|]. cbn [fmap list_fmap mapM]. rewrite yl_as_string. cbn [mbind option_bind]. by rewrite IH. Qed.

Definition conf_fits (c : HttpServerConf) : Prop := in_s 32 (sc_keepalive c) ∧ in_s 32 (sc_timeout c).

Lemma conf_back c : conf_fits c → string_to_conf (Emit (conf_node c : N)) = Some c.
Proof.
  intros [Hk Ht]. unfold string_to_conf. rewrite conf_node_fields.
  assert (NoDup ((conf_fields c ++ address_field c).*1)) as Hnd.
  { unfold address_field. destruct (sc_address c); cbn; repeat (constructor; [set_solver|]); constructor. }
  rewrite yl_load_map by done. cbn [mbind option_bind]. unfold as_or, has_field.
  rewrite (yl_at _ (L "keepalive") (of_int (sc_keepalive c)) Hnd), (yl_at _ (L "timeout") (of_int (sc_timeout c)) Hnd),
    (yl_at _ (L "name") (of_string (sc_name c)) Hnd) by set_solver.
  rewrite !yi_defined, !yi_as_int, yl_defined_string, yl_as_string by done. cbn [default].
  assert ((if IsDefined (at_key (map_node (conf_fields c ++ address_field c)) (L "address"))
           then mapM as_string (elements_of (at_key (map_node (conf_fields c ++ address_field c)) (L "address"))) else Some []) = Some (sc_address c)) as ->.
  { unfold address_field in *. destruct (sc_address c) as [|a l] eqn:E.
    - rewrite yl_undefined; [done|done|]. cbn. set_solver.
    - rewrite (yl_at _ (L "address") (seq_node (of_string <$> a :: l)) Hnd) by set_solver.
      rewrite yl_defined_seq, elements_of_seq by done. apply read_addresses. }
  cbn [mbind option_bind]. by destruct c.
Qed.

#[local] Instance conf_fits_dec c : Decision (conf_fits c).
Proof. unfold conf_fits, in_s. apply _. Defined.
(** The cast of a conf whose integers are ints. *)
Definition fitting_to_string (c : HttpServerConf) : option str := if decide (conf_fits c) then conf_to_string c else None.

Lemma fitting_eq c : conf_fits c → fitting_to_string c = conf_to_string c.
Proof. intros H. unfold fitting_to_string. by rewrite decide_True. Qed.

Lemma load_conf c : Load (Emit (conf_node c)) = Some (conf_node c : N).
Proof.
  rewrite conf_node_fields. apply yl_load_map. unfold address_field. destruct (sc_address c); cbn; repeat (constructor; [set_solver|]); constructor.
Qed.

Lemma fitting_reads_back : reads_back fitting_to_string string_to_conf.
Proof.
  intros c t. unfold fitting_to_string. case_decide as Hc; [|done]. intros [= <-]. exists (conf_node c). split; [apply load_conf|by apply conf_back].
Qed.

Lemma push_fitting v (node : N) :
  Forall conf_fits v → push_all fitting_to_string v node = push_all conf_to_string v node ∧ is_Some (push_all conf_to_string v node).
Proof.
  intros Hv. revert node. induction Hv as [|c v Hc Hv IH]; intros node; [done|]. cbn [push_all]. rewrite fitting_eq by done.
  assert (conf_to_string c = Some (Emit (conf_node c : N))) as -> by done. cbn [mbind option_bind]. rewrite load_conf. apply IH.
Qed.

(** The configuration of servers survives its text: every list of servers is
    written, and read back with its addresses in order, its integers and its
    names. *)
Theorem servers_read_back v :
  Forall conf_fits v → ∃ t n, confs_to_string v = Some t ∧ Load t = Some n ∧ string_to_confs (Emit n) = Some v.
Proof.
  intros Hv. unfold confs_to_string, vector_to_string. destruct (push_fitting v empty_node Hv) as [E [node Hnode]].
  assert (vector_to_string fitting_to_string v = Some (Emit node)) as Ht by (unfold vector_to_string; by rewrite E, Hnode).
  destruct (vector_reads_back _ _ fitting_reads_back v _ Ht) as (n & Hn & Hback). exists (Emit node), n. by rewrite Hnode.
Qed.
End Roundtrip.

(** ** The concrete notation, with integers *)

Fixpoint pos_text (p : positive) : str := match p with xH => [] | xO p' => "0"%char :: pos_text p' | xI p' => "1"%char :: pos_text p' end.
Fixpoint text_pos (s : str) : positive :=
  match s with [] => xH | c :: s' => if bool_decide (c = "0"%char) then xO (text_pos s') else xI (text_pos s') end.

#[global] Instance doc_int : YamlInt doc := {|
  as_int n := s ← as_string n; decode (text_pos s);
  of_int z := of_string (pos_text (encode z))
|}.
#[global] Instance doc_int_laws : YamlIntLaws doc.
Proof.
  assert (∀ p, text_pos (pos_text p) = p) as H by (induction p as [p IH|p IH|]; cbn; by rewrite ?IH).
  split; [|done]. intros n _. cbn [as_int of_int doc_int]. rewrite yl_as_string. cbn [mbind option_bind]. by rewrite H, decode_encode.
Qed.

Lemma servers_read_back_witness :
  let v := [mkServerConf [L "0.0.0.0:8090"; L "*:8091"] 1 120000 (L "skt/1.1"); mkServerConf [] 0 (-1) []] in
  ∃ t n, confs_to_string (N := doc) v = Some t ∧ Load t = Some n ∧ string_to_confs (N := doc) (Emit n) = Some v.
Proof. apply servers_read_back. repeat constructor; unfold in_s; cbn; lia. Defined.
