(* ===== verification/Application.v ===== *)
(** Application (skt/application/application.h, skt/application/application.cpp):
    from the command line and the configuration to servers that listen.

    The kernel's files are a [FileSystem], its sockets a [Net]; the main program
    of the process runs under [Daemon]. IOManager runs run_fiber to its end
    before anything that run_fiber schedules, as it has one thread and run_fiber
    does not wait. *)

From stdpp Require Import base list gmap sets strings.
From Stdlib Require Import Ascii Lia.
From S2P Require Import Prelude StdOrdered CString Hook Address Socket TcpServer Env FsUtil Yaml Config Daemon ServerConf.

(** ** The addresses of a server *)

Definition COLON : ascii := ":"%char.

(** GetInterfaceAddresses(result, iface): [ifs] is the answer of getifaddrs, None
    when it fails; the call returns None for false. *)
Definition interface_addresses (ifs : option (list ifaddr)) (iface : str) : result unit (option (list Address)) :=
  match ifs with
  | Some l =>
    match GetInterfaceAddresses_iface l iface AF_INET with
    | Ok r _ => Ok (Some (fst <$> r)) tt
    | Exc e s => Exc e s
    | Stop u => Stop u
    | NoFuel => NoFuel
    end
  | None =>
    if bool_decide (iface = []) || bool_decide (iface = L "*")
    then match GetInterfaceAddresses_iface [] iface AF_INET with Ok r _ => Ok (Some (fst <$> r)) tt | _ => NoFuel end
    else Ok None tt
  end.

(** dynamic_pointer_cast<IPAddress> *)
Definition as_ip (a : Address) : option Address := if is_ip a then Some a else None.

Section Addresses.
Context (getaddrinfo : str → option str → option (list raw_addr)) (ifs : option (list ifaddr)).

(** The body of the loop over the addresses of a conf: what is pushed, with
    None for a null pointer. *)
Definition resolve_address (a : str) : result unit (list (option Address)) :=
  match memchr COLON a with
  | None => Ok [] tt
  | Some (iface, rest) =>
    match LookupAny getaddrinfo a with
    | Some addr => Ok [Some addr] tt
    | None =>
      match interface_addresses ifs iface with
      | Ok None _ => Ok [] tt
      | Ok (Some l) _ => Ok ((λ x, setPort (u16 (atoi (c_str (tail rest)))) <$> as_ip x) <$> l) tt
      | Exc e s => Exc e s
      | Stop u => Stop u
      | NoFuel => NoFuel
      end
    end
  end.
Fixpoint resolve_all (l : list str) : result unit (list (option Address)) :=
  match l with
  | [] => Ok [] tt
  | a :: l' =>
    match resolve_address a, resolve_all l' with
    | Ok x _, Ok y _ => Ok (x ++ y) tt
    | Ok _ _, e => e
    | e, _ => e
    end
  end.
End Addresses.

(** ** The application *)

(** A started HttpServer; its sv_sys is the world as it left it. *)
Record HttpServer (K : Type) : Type := mkHttpServer { hs_server : Server K; m_isKeepalive : bool }.
Arguments mkHttpServer {K} _ _.
Arguments hs_server {K} _.
Arguments m_isKeepalive {K} _.

(** std::ofstream: opening makes the file empty, and what is written reaches it
    when the buffer is written at the end. *)
Class FileOut (F : Type) : Type := {
  open_out : F → str → option F;
  flush_out : F → str → str → F
}.
Class FileOutLaws (F : Type) `{FS : FileSystem F} `{FO : FileOut F} : Prop := {
  fo_empty f p f' : open_out f p = Some f' → default [] (read_line f' p) = []
}.

Section Application.
Context {TY : Types} {W : Type} {LS : Listeners W} {N : Type} `{YM : Yaml N}.
Context {F : Type} `{FS : FileSystem F} {K : Type} `{KN : Kernel K} `{NT : Net K} `{RC : Reactor K}.
(** Files: the time and the document of one. *)
Context (mtime : F → str → Z) (LoadFile : F → str → option N) `{FO : !FileOut F}.
(** The variables server.work_path, server.pid_file and http_servers. *)
Context (t_string t_servers : ty) (get_string : val t_string → str) (get_servers : val t_servers → list HttpServerConf).
Context (g_server_work_path g_server_pid_file g_http_servers_conf : nat).
Context (getaddrinfo : str → option str → option (list raw_addr)) (ifs : option (list ifaddr)).
(** The configured timeout of servers. *)
Context (recv_timeout : Z).

Record Application : Type := mkApplication {
  a_env : Env;
  a_conf : Conf W;
  a_files : F;
  a_net : Sys K;
  a_out : list str;                     (* the help texts that were printed *)
  m_argv : list str;
  m_httpservers : list (HttpServer K);
  m_servers : list (str * list nat);    (* std::map *)
  a_exited : bool                       (* _exit(0) was called *)
}.
Abbreviation application := (M Application).

Definition set_env e a : Application := mkApplication e (a_conf a) (a_files a) (a_net a) (a_out a) (m_argv a) (m_httpservers a) (m_servers a) (a_exited a).
Definition set_conf c a : Application := mkApplication (a_env a) c (a_files a) (a_net a) (a_out a) (m_argv a) (m_httpservers a) (m_servers a) (a_exited a).
Definition put_files f a : Application := mkApplication (a_env a) (a_conf a) f (a_net a) (a_out a) (m_argv a) (m_httpservers a) (m_servers a) (a_exited a).
Definition set_net n a : Application := mkApplication (a_env a) (a_conf a) (a_files a) n (a_out a) (m_argv a) (m_httpservers a) (m_servers a) (a_exited a).
Definition set_out o a : Application := mkApplication (a_env a) (a_conf a) (a_files a) (a_net a) o (m_argv a) (m_httpservers a) (m_servers a) (a_exited a).
Definition set_argv v a : Application := mkApplication (a_env a) (a_conf a) (a_files a) (a_net a) (a_out a) v (m_httpservers a) (m_servers a) (a_exited a).
Definition set_httpservers l a : Application := mkApplication (a_env a) (a_conf a) (a_files a) (a_net a) (a_out a) (m_argv a) l (m_servers a) (a_exited a).
Definition set_exited a : Application := mkApplication (a_env a) (a_conf a) (a_files a) (a_net a) (a_out a) (m_argv a) (m_httpservers a) (m_servers a) true.

(** A call on a part of the state. *)
Definition on {S A} (get : Application → S) (put : S → Application → Application) (c : M S A) : application A := λ a,
  match c (get a) with
  | Ok r s => Ok r (put s a)
  | Exc e s => Exc e (put s a)
  | Stop u => Stop u
  | NoFuel => NoFuel
  end.
Definition on_env {A} (c : M Env A) : application A := on a_env set_env c.
Definition on_conf {A} (c : M (Conf W) A) : application A := on a_conf set_conf c.
Definition on_files {A} (c : M F A) : application A := on a_files put_files c.

Definition print_help : application unit := mmodify (λ a, set_out (a_out a ++ [printHelp (a_env a)]) a).

(** work_path + "/" + pid_file *)
Definition work_path : application str := v ← on_conf (getValue t_string g_server_work_path); mret (get_string v).
Definition pid_path : application str :=
  w ← work_path; v ← on_conf (getValue t_string g_server_pid_file); mret (w ++ L "/" ++ get_string v).

(** Application::init, after the configuration is loaded. *)
Definition init_checks (is_print_help : bool) : application bool :=
  if is_print_help then print_help;; mret false
  else
    s ← on_env (has (L "s"));
    d ← on_env (has (L "d"));
    let run_type := if d : bool then 2 else if s : bool then 1 else 0 in
    if run_type =? 0 then print_help;; mret false
    else
      pid_file ← pid_path;
      a ← mget;
      if IsRunningPidfile (a_files a) pid_file then mret false
      else w ← work_path; on_files (Mkdir w).

(** The help texts that init adds. *)
Definition add_helps : application unit :=
  on_env (addHelp (L "s") (L "start with the terminal"));;
  on_env (addHelp (L "d") (L "run as daemon"));;
  on_env (addHelp (L "c") (L "conf path default: ./conf"));;
  on_env (addHelp (L "p") (L "print help")).

(** Application::init; [fuel] bounds the depth of directories and documents. *)
Definition init (fuel : nat) (target : str) (argv : list str) : application bool :=
  mmodify (set_argv argv);;
  add_helps;;
  ok ← on_env (Env.init target argv);
  p ← on_env (has (L "p"));
  c ← on_env (get (L "c") (L "conf"));
  a ← mget;
  let conf_path := getAbsolutePath (a_env a) c in
  on_conf (LoadFromConfDir mtime LoadFile fuel (a_files a) (a_env a) conf_path);;
  init_checks (negb ok || p).

(** One server of run_fiber: false when the process has ended. *)
Definition start_server (conf : HttpServerConf) : application bool :=
  a ← mget;
  match resolve_all getaddrinfo ifs (sc_address conf) with
  | Ok ptrs _ =>
    address ← mderef NullDeref (mapM id ptrs);
    match bind_all address [] (TcpServer_new recv_timeout (a_net a)) with
    | Ok (true, _) s =>
      let c := (if bool_decide (sc_name conf = []) then mret tt else TcpServer_setName (sc_name conf));; TcpServer.start in
      match c s with
      | Ok _ s' =>
        mmodify (set_net (sv_sys s'));;
        mmodify (λ a, set_httpservers (m_httpservers a ++ [mkHttpServer s' (negb (sc_keepalive conf =? 0))]) a);; mret true
      | Exc e _ => mthrow e
      | Stop u => mstop u
      | NoFuel => mnofuel
      end
    | Ok (false, _) _ => mmodify set_exited;; mret false
    | Exc e _ => mthrow e
    | Stop u => mstop u
    | NoFuel => mnofuel
    end
  | Exc e _ => mthrow e
  | Stop u => mstop u
  | NoFuel => mnofuel
  end.
Fixpoint start_servers (confs : list HttpServerConf) : application bool :=
  match confs with
  | [] => mret true
  | conf :: confs' => ok ← start_server conf; if ok : bool then start_servers confs' else mret false
  end.

(** Application::run_fiber *)
Definition run_fiber : application unit :=
  v ← on_conf (getValue t_servers g_http_servers_conf);
  start_servers (get_servers v);; mret tt.

(** Application::main up to iom.stop(), in which the servers work: the path of
    ofs, or None when it does not open. What is written to ofs stays in its
    buffer. *)
Definition main_serving : application (option str) :=
  pid_file ← pid_path;
  a ← mget;
  match open_out (a_files a) pid_file with
  | None => mret None
  | Some f => mmodify (put_files f);; run_fiber;; mret (Some pid_file)
  end.
(** Application::main; the end of ofs writes the buffer, unless the process has
    ended. *)
Definition main (pid : Z) : application Z :=
  ofs ← main_serving;
  a ← mget;
  (match ofs with
   | Some pid_file => if a_exited a then mret tt else mmodify (put_files (flush_out (a_files a) pid_file (to_string pid)))
   | None => mret tt
   end);;
  mret 0.

(** Application::run: int becomes bool. It returns unless a_exited. *)
Definition run (pid now now' : Z) (answers : list fork_answer) : M (Process (W := Application)) bool :=
  p ← mget;
  match has (L "d") (a_env (program p)) with
  | Ok is_daemon _ => r ← start_daemon main is_daemon pid now now' answers; mret (negb (r =? 0))
  | _ => mnofuel
  end.

(** Application::getServer, listAllServer *)
Definition getServer (type : str) (a : Application) : option (list nat) := map_find string_lt type (m_servers a).
Definition listAllServer (a : Application) : list (str * list nat) := m_servers a.
End Application.
