(* ===== verification/ApplicationProps.v ===== *)
(** Properties of the application: which addresses a server gets, when init
    succeeds, what run_fiber leaves behind, and what run returns. *)

From stdpp Require Import base list gmap sets strings.
From Stdlib Require Import Ascii Lia.
From S2P Require Import Prelude StdOrdered CString Hook Address Socket SocketProps TcpServer TcpServerProps Env FsUtil Yaml Config ConfigProps Daemon ServerConf Application.

(** ** Addresses *)

(** getifaddrs gives an entry without an address, as it does for an interface that
    has none; the code reads the family of every entry's address. *)
Definition no_address (ifs : option (list ifaddr)) : Prop := ∃ l i, ifs = Some l ∧ i ∈ l ∧ ifa_addr i = None.
(** Every entry of getifaddrs has an address. *)
Definition ifs_ok (ifs : option (list ifaddr)) : Prop := ∀ l i, ifs = Some l → i ∈ l → is_Some (ifa_addr i).

Lemma ifs_ok_no_address ifs : ifs_ok ifs → ¬ no_address ifs.
Proof. intros H (l & i & Hl & Hi & Hn). destruct (H l i Hl Hi) as [r Hr]. congruence. Qed.

Lemma interfaces_ip l family :
  (∃ r, GetInterfaceAddresses l family = Ok r tt ∧ Forall (λ e, is_ip e.2.1 = true) r) ∨
  (∃ i, i ∈ l ∧ ifa_addr i = None) ∧ GetInterfaceAddresses l family = Stop NullDeref.
Proof.
  induction l as [|i l IH]; [left; by exists []|]. cbn [GetInterfaceAddresses].
  destruct (ifa_addr i) as [r|] eqn:Hr; [|right; split; [exists i; split; [by left|done]|done]].
  destruct IH as [(rest & E & Hrest)|[(j & Hj & Hn) E]]; rewrite E; [left|right; split; [exists j; split; [by right|done]|done]].
  destruct (_ && _); [by exists rest|]. eexists. split; [done|]. destruct (ifa_entry i r) as [e|] eqn:Ee; [|done].
  constructor; [|done]. unfold ifa_entry in Ee.
  destruct r, (ifa_netmask i); try done; [destruct (CountBytes 32 _)|destruct (sum_bytes _)]; by simplify_eq/=.
Qed.

Lemma iface_ip l iface :
  (∃ r, GetInterfaceAddresses_iface l iface AF_INET = Ok r tt ∧ Forall (λ e, is_ip e.1 = true) r) ∨
  (∃ i, i ∈ l ∧ ifa_addr i = None) ∧ GetInterfaceAddresses_iface l iface AF_INET = Stop NullDeref.
Proof.
  unfold GetInterfaceAddresses_iface. destruct (_ || _); [left; eexists; split; [done|]; cbn; by repeat constructor|].
  destruct (interfaces_ip l AF_INET) as [(r & -> & Hr)|[H ->]]; [left|by right]. eexists. split; [done|]. apply Forall_fmap, Forall_forall. intros e He.
  apply list_elem_of_filter in He as [_ He]. rewrite Forall_forall in Hr. by apply Hr.
Qed.

Lemma interface_addresses_ip ifs iface :
  (∃ r, interface_addresses ifs iface = Ok r tt ∧ ∀ l, r = Some l → Forall (λ a, is_ip a = true) l) ∨
  no_address ifs ∧ interface_addresses ifs iface = Stop NullDeref.
Proof.
  unfold interface_addresses. destruct ifs as [l|].
  - destruct (iface_ip l iface) as [(r & -> & Hr)|[(i & H1 & H2) ->]]; [left|right; split; [by exists l, i|done]].
    eexists. split; [done|]. intros l' [= <-]. by apply Forall_fmap.
  - left. destruct (_ || _) eqn:E; [|by eexists]. destruct (iface_ip [] iface) as [(r & -> & Hr)|[(i & H & _) _]]; [|set_solver].
    eexists. split; [done|]. intros l' [= <-]. by apply Forall_fmap.
Qed.

Section Addresses.
Context (getaddrinfo : str → option str → option (list raw_addr)) (ifs : option (list ifaddr)).

(** What one text stands for: nothing without a colon; the first address that
    the resolver finds; otherwise the addresses of the interface it names, with
    the port. *)
Definition meaning (a : str) : list Address :=
  match memchr COLON a with
  | None => []
  | Some (iface, rest) =>
    match LookupAny getaddrinfo a with
    | Some addr => [addr]
    | None =>
      match interface_addresses ifs iface with
      | Ok (Some l) _ => setPort (u16 (atoi (c_str (tail rest)))) <$> l
      | _ => []
      end
    end
  end.

Lemma resolve_meaning a :
  resolve_address getaddrinfo ifs a = Ok (Some <$> meaning a) tt ∨ no_address ifs ∧ resolve_address getaddrinfo ifs a = Stop NullDeref.
Proof.
  unfold resolve_address, meaning. destruct (memchr COLON a) as [[iface rest]|]; [|by left].
  destruct (LookupAny getaddrinfo a); [by left|]. destruct (interface_addresses_ip ifs iface) as [(r & -> & Hr)|[H ->]]; [left|by right].
  destruct r as [l|]; [|done]. f_equal. specialize (Hr l eq_refl). rewrite <- list_fmap_compose.
  induction Hr as [|x l Hx Hl IH]; [done|]. cbn. unfold as_ip at 1. rewrite Hx. cbn. by rewrite IH.
Qed.

(** No null pointer is pushed. *)
Lemma resolve_all_meaning l :
  resolve_all getaddrinfo ifs l = Ok (Some <$> (l ≫= meaning)) tt ∨ no_address ifs ∧ resolve_all getaddrinfo ifs l = Stop NullDeref.
Proof.
  induction l as [|a l IH]; [by left|]. cbn [resolve_all]. destruct (resolve_meaning a) as [->|[H ->]]; [|by right].
  destruct IH as [->|[H ->]]; [|by right]. left. cbn. by rewrite fmap_app.
Qed.
End Addresses.

Lemma mapM_Some {A} (l : list A) : mapM id (Some <$> l) = Some l.
Proof. induction l as [|x l IH]; [done|]. cbn in *. by rewrite IH. Qed.

(** ** Servers *)

Section Servers.
Context {TY : Types} {W : Type} {LS : Listeners W} {F : Type} `{FS : FileSystem F}.
Context {K : Type} `{KN : Kernel K} `{KL : !KernelLaws K} `{NT : Net K} `{RC : Reactor K} `{DS : Descriptors K} `{NL : !NetLaws K}.
Context (getaddrinfo : str → option str → option (list raw_addr)) (ifs : option (list ifaddr)) (recv_timeout : Z).
Abbreviation App := (Application (W := W) (F := F) (K := K)).
Abbreviation starts := (start_servers (W := W) (F := F) (K := K) getaddrinfo ifs recv_timeout).

(** A server that does what its conf says, in the kernel [k]: it is started, has
    for each address, in order, a socket that is bound to it and listens, an
    accept task for each socket, and its name. *)
Record serves (k : K) (h : HttpServer K) (conf : HttpServerConf) : Prop := {
  se_listens : Forall2 (listens k (hs_server h)) (m_socks (hs_server h)) (sc_address conf ≫= meaning getaddrinfo ifs);
  se_tasks : sv_tasks (hs_server h) = (λ a, TAccept a None) <$> m_socks (hs_server h);
  se_started : m_isStop (hs_server h) = false;
  se_name : sc_name conf ≠ [] → sv_name (hs_server h) = sc_name conf;
  se_timeout : sv_recvTimeout (hs_server h) = recv_timeout;
  se_keepalive : m_isKeepalive h = negb (sc_keepalive conf =? 0)
}.

(** A descriptor of one of a server's sockets. *)
Definition holds (h : HttpServer K) (fd : Z) : Prop := ∃ b x, sv_heap (hs_server h) !! b = Some x ∧ fd ∈ own x.

(** A server that is bound is named and started. *)
Lemma name_start conf (s : Server K) :
  m_isStop s = true → sv_tasks s = [] →
  ∃ s', ((if bool_decide (sc_name conf = []) then mret tt else TcpServer_setName (sc_name conf));; TcpServer.start) s = Ok true s' ∧
    sv_sys s' = sv_sys s ∧ sv_heap s' = sv_heap s ∧ m_socks s' = m_socks s ∧ sv_recvTimeout s' = sv_recvTimeout s ∧
    m_isStop s' = false ∧ sv_tasks s' = (λ a, TAccept a None) <$> m_socks s ∧ (sc_name conf ≠ [] → sv_name s' = sc_name conf).
Proof.
  intros Hst Ht. destruct s as [w h socks rt nm st ts]. cbn in Hst, Ht. subst.
  case_bool_decide; (eexists; split; [reflexivity|]); done.
Qed.

(** It still does when the open descriptors are left alone. *)
Lemma serves_keep (k k' : K) h conf :
  (∀ fd, holds h fd → fd ∈ open_fds k) → keeps (open_fds k) k k' → serves k h conf → serves k' h conf.
Proof.
  intros Hh Hk [H1 H2 H3 H4 H5 H6]. split; [|done..]. eapply Forall2_impl; [exact H1|].
  intros b addr (x & Hx & Hne & Hf & Hst). exists x. split_and!; try done. rewrite <- Hst. apply Hk, Hh. exists b, x.
  split; [done|]. unfold own. rewrite (proj2 (Z.eqb_neq _ _) Hne). set_solver.
Qed.

Lemma start_server_ok conf (a : App) :
  sys_ok (a_net a) →
  no_address ifs ∧ start_server getaddrinfo ifs recv_timeout conf a = Stop NullDeref ∨
  ∃ ok a', ⟨ start_server getaddrinfo ifs recv_timeout conf, a ⟩ ⇓ ⟨ ok, a' ⟩ ∧ a_files a' = a_files a ∧
    if ok : bool
    then a_exited a' = a_exited a ∧ sys_ok (a_net a') ∧ keeps (open_fds (kern (a_net a))) (kern (a_net a)) (kern (a_net a')) ∧
      ∃ h, m_httpservers a' = m_httpservers a ++ [h] ∧ serves (kern (a_net a')) h conf ∧
        ∀ fd, fd ∈ open_fds (kern (a_net a')) ↔ fd ∈ open_fds (kern (a_net a)) ∨ holds h fd
    else a_exited a' = true.
Proof.
  intros Hs. unfold start_server. rewrite (bind_ok _ _ _ _ _ (eq_refl : mget a = Ok a a)).
  destruct (resolve_all_meaning getaddrinfo ifs (sc_address conf)) as [->|[Hn ->]]; [right|by left].
  rewrite mapM_Some. set (addrs := sc_address conf ≫= meaning getaddrinfo ifs).
  rewrite (bind_ok _ _ _ addrs a) by done. set (base := open_fds (kern (a_net a))).
  pose proof (si_ok _ _ (TcpServer_new_ok base recv_timeout (a_net a) Hs eq_refl)) as H0.
  destruct (bind_loop_ok base addrs [] _ H0) as (rs & s1 & E1 & Hs1 & (F1 & F2 & F3 & F4) & Hout & _ & _ & Hk).
  unfold bind_all. rewrite (bind_ok _ _ _ _ _ E1). cbn [app]. destruct (failing rs addrs) as [|f failed] eqn:Ef.
  - cbn [mret M_ret]. destruct (name_start conf s1 F3 F2) as (s2 & E2 & G1 & G2 & G3 & G4 & G5 & G6 & G7). cbv zeta. rewrite E2.
    rewrite !bind_modify. eexists true, _. split; [reflexivity|]. split; [done|]. cbn. split; [done|]. rewrite G1.
    split; [apply (sr_mem _ _ _ Hs1)|]. split; [exact Hk|].
    eexists. split; [done|]. split; [|unfold holds; cbn; rewrite G2; apply (mo_fds _ _ _ (sr_mem _ _ _ Hs1))].
    split; cbn; [|by rewrite G3|done|done|by rewrite G4, F4|done]. rewrite G3, F1. cbn. fold addrs.
    eapply Forall2_impl; [by eapply outcomes_listen|]. intros b addr (x & Hx & ?). exists x. cbn. by rewrite G2.
  - destruct (clear_socks_ok base s1 Hs1) as (s2 & E2 & _). rewrite (bind_ok _ _ _ _ _ E2). cbn [mret M_ret]. rewrite bind_modify.
    eexists false, _. done.
Qed.

Lemma start_servers_ok confs (a : App) :
  sys_ok (a_net a) →
  no_address ifs ∧ starts confs a = Stop NullDeref ∨
  ∃ ok a', ⟨ starts confs, a ⟩ ⇓ ⟨ ok, a' ⟩ ∧ a_files a' = a_files a ∧
    if ok : bool
    then a_exited a' = a_exited a ∧ keeps (open_fds (kern (a_net a))) (kern (a_net a)) (kern (a_net a')) ∧
      ∃ hs, m_httpservers a' = m_httpservers a ++ hs ∧ Forall2 (serves (kern (a_net a'))) hs confs ∧
        ∀ fd, fd ∈ open_fds (kern (a_net a')) ↔ fd ∈ open_fds (kern (a_net a)) ∨ ∃ h, h ∈ hs ∧ holds h fd
    else a_exited a' = true.
Proof.
  intros Hs. revert a Hs. induction confs as [|conf confs IH]; intros a Hs.
  { right. exists true, a. split; [done|]. split; [done|]. split; [done|]. split; [by intros fd Hfd|]. exists []. rewrite app_nil_r. split; [done|]. split; [constructor|]. set_solver. }
  cbn [start_servers]. destruct (start_server_ok conf a Hs) as [[Hn E1]|([] & a1 & E1 & Hf1 & H1)];
    [left; split; [done|]; by rewrite (bind_stop _ _ _ _ E1)|rewrite (bind_ok _ _ _ _ _ E1)|rewrite (bind_ok _ _ _ _ _ E1); right; by exists false, a1].
  destruct H1 as (X1 & Hs1 & K1 & h & Hh & Hserves & Hfds). destruct (IH a1 Hs1) as [[Hn E2]|(ok & a2 & E2 & Hf2 & H2)]; [by left|right]. exists ok, a2.
  split; [done|]. split; [congruence|]. destruct ok; [|done]. destruct H2 as (X2 & K2 & hs & Hhs & H2 & Hfds2). split; [congruence|].
  split; [intros fd Hfd; destruct (K1 fd Hfd) as [? <-]; by apply K2|].
  exists (h :: hs). rewrite Hhs, Hh, <- (assoc_L (++)). split; [done|]. split; [|intros fd; rewrite Hfds2, Hfds; setoid_rewrite elem_of_cons; naive_solver].
  constructor; [|done]. eapply serves_keep; [|exact K2|exact Hserves]. intros fd Hfd. apply Hfds. by right.
Qed.

End Servers.

(** ** From init to run *)

Section Whole.
Context {TY : Types} {W : Type} {LS : Listeners W} {N : Type} `{YM : Yaml N}.
Context {F : Type} `{FS : FileSystem F} `{FO : !FileOut F} `{FL : !FileOutLaws F}.
Context {K : Type} `{KN : Kernel K} `{KL : !KernelLaws K} `{NT : Net K} `{RC : Reactor K} `{DS : Descriptors K} `{NL : !NetLaws K}.
Context (mtime : F → str → Z) (LoadFile : F → str → option N).
Context (t_string t_servers : ty) (get_string : val t_string → str) (get_servers : val t_servers → list HttpServerConf).
Context (g_server_work_path g_server_pid_file g_http_servers_conf : nat).
Context (getaddrinfo : str → option str → option (list raw_addr)) (ifs : option (list ifaddr)) (recv_timeout : Z).
Abbreviation App := (Application (W := W) (F := F) (K := K)).

(** The variables of the application exist, and have these values. *)
Record configures (c : Conf W) (work pid : str) (servers : list HttpServerConf) : Prop := {
  cf_work : ∃ x, vars c !! g_server_work_path = Some (anyvar t_string x) ∧ get_string (cv_val x) = work;
  cf_pid : ∃ x, vars c !! g_server_pid_file = Some (anyvar t_string x) ∧ get_string (cv_val x) = pid;
  cf_servers : ∃ x, vars c !! g_http_servers_conf = Some (anyvar t_servers x) ∧ get_servers (cv_val x) = servers
}.

Lemma on_conf_get t v (a : App) x :
  vars (a_conf a) !! v = Some (anyvar t x) → on_conf (getValue t v) a = Ok (cv_val x) a.
Proof.
  intros H. unfold on_conf, on, getValue. rewrite (bind_ok _ _ _ _ _ (var_at_ok _ _ _ _ H)). by destruct a.
Qed.

Abbreviation pid_path' := (pid_path (W := W) (F := F) (K := K) t_string get_string g_server_work_path g_server_pid_file).
Lemma work_path_ok (a : App) work pid servers :
  configures (a_conf a) work pid servers → work_path t_string get_string g_server_work_path a = Ok work a.
Proof. intros [(x & Hx & <-) _ _]. unfold work_path. by rewrite (bind_ok _ _ _ _ _ (on_conf_get t_string _ a x Hx)). Qed.
Lemma pid_path_ok (a : App) work pid servers :
  configures (a_conf a) work pid servers → pid_path' a = Ok (work ++ L "/" ++ pid) a.
Proof.
  intros H. unfold pid_path. rewrite (bind_ok _ _ _ _ _ (work_path_ok a _ _ _ H)). destruct H as [_ (x & Hx & <-) _].
  by rewrite (bind_ok _ _ _ _ _ (on_conf_get t_string _ a x Hx)).
Qed.

Abbreviation main_serving' := (main_serving t_string t_servers get_string get_servers g_server_work_path g_server_pid_file
  g_http_servers_conf getaddrinfo ifs recv_timeout).
Abbreviation main' := (main t_string t_servers get_string get_servers g_server_work_path g_server_pid_file
  g_http_servers_conf getaddrinfo ifs recv_timeout).

Lemma main_serving_ok (a : App) work pid servers :
  sys_ok (a_net a) → ifs_ok ifs → configures (a_conf a) work pid servers →
  ∃ r a', ⟨ main_serving', a ⟩ ⇓ ⟨ r, a' ⟩ ∧
    match open_out (a_files a) (work ++ L "/" ++ pid) with None => r = None | Some f => r = Some (work ++ L "/" ++ pid) ∧ a_files a' = f end.
Proof.
  intros Hs Hi Hc. unfold main_serving. rewrite (bind_ok _ _ _ _ _ (pid_path_ok a _ _ _ Hc)), (bind_ok _ _ _ _ _ (eq_refl : mget a = Ok a a)).
  destruct (open_out _ _) as [f|]; [|by eexists _, _]. rewrite bind_modify. destruct Hc as [_ _ (x & Hx & <-)].
  set (a1 := put_files f a). unfold run_fiber. rewrite bind_assoc, (bind_ok _ _ _ _ _ (on_conf_get t_servers _ a1 x Hx)), bind_assoc.
  destruct (start_servers_ok getaddrinfo ifs recv_timeout (get_servers (cv_val x)) a1 Hs) as [[Hn _]|(ok & a2 & E & Hf & _)];
    [by apply ifs_ok_no_address in Hi|].
  rewrite (bind_ok _ _ _ _ _ E). eexists _, a2. split; [reflexivity|]. done.
Qed.

Lemma main_ok (a : App) work pid servers p :
  sys_ok (a_net a) → ifs_ok ifs → configures (a_conf a) work pid servers → ∃ a', ⟨ main' p, a ⟩ ⇓ ⟨ 0, a' ⟩.
Proof.
  intros Hs Hi Hc. destruct (main_serving_ok a work pid servers Hs Hi Hc) as (r & a1 & E & _). unfold main.
  rewrite (bind_ok _ _ _ _ _ E), (bind_ok _ _ _ _ _ (eq_refl : mget a1 = Ok a1 a1)).
  destruct r; [destruct (a_exited a1)|]; by eexists.
Qed.

(** While its servers work, an application cannot be seen from its pid file:
    the file is empty until main returns, and IsRunningPidfile, with which
    another instance looks for it, says no. *)
Theorem running_not_seen (a : App) work pid servers :
  sys_ok (a_net a) → ifs_ok ifs → configures (a_conf a) work pid servers → is_Some (open_out (a_files a) (work ++ L "/" ++ pid)) →
  ∃ a', ⟨ main_serving', a ⟩ ⇓ ⟨ Some (work ++ L "/" ++ pid), a' ⟩ ∧ IsRunningPidfile (a_files a') (work ++ L "/" ++ pid) = false.
Proof.
  intros Hs Hi Hc [f Hf]. destruct (main_serving_ok a work pid servers Hs Hi Hc) as (r & a' & E & H). rewrite Hf in H. destruct H as [-> <-].
  exists a'. split; [done|]. unfold IsRunningPidfile. apply fo_empty in Hf. destruct (lstat_ok _ _); [|done]. cbn [negb].
  by destruct (read_line _ _) as [[]|].
Qed.

(** run returns true in one case only: as a daemon that could not fork. That
    the servers ran, that they could not be started and that the pid file did
    not open are all false. *)
Theorem run_true_only_without_fork (a : App) work pidf servers i0 pid now now' answers :
  sys_ok (a_net a) → ifs_ok ifs → configures (a_conf a) work pidf servers →
  let is_daemon := match map_find string_lt (L "d") (m_args (a_env a)) with Some _ => true | None => false end in
  let r := run t_string t_servers get_string get_servers g_server_work_path g_server_pid_file
             g_http_servers_conf getaddrinfo ifs recv_timeout pid now now' answers (mkProcess i0 a) in
  (r = NoFuel ∧ is_daemon = true ∧ forallb crashed answers = true) ∨
  ∃ b p, r = Ok b p ∧ (b = true ↔ is_daemon = true ∧ ∃ cs rest, forallb crashed cs = true ∧ answers = cs ++ ForkFail :: rest).
Proof.
  intros Hs Hi Hc. cbv zeta. unfold run. set (p0 := mkProcess i0 a). rewrite (bind_ok _ _ _ _ _ (eq_refl : mget p0 = Ok p0 p0)).
  unfold has. mred. subst p0. cbn [program]. destruct (map_find _ _ _) as [v|]; unfold start_daemon; cbn [negb].
  - unfold real_daemon, on_info. mred.
    destruct (daemon_loop_zero main' answers (mkProcess (set_parent pid (u64 now) i0) a)) as [[E H]|(r & p & E & H)].
    { intros child. by eapply main_ok. }
    + left. cbn [info program]. by rewrite E.
    + right. cbn [info program]. rewrite E. eexists _, p. split; [done|].
      rewrite negb_true_iff, Z.eqb_neq, H. naive_solver.
  - destruct (main_ok a work pidf servers pid Hs Hi Hc) as [a' E]. right. unfold real_start, on_info, call_main. mred. cbn [program]. rewrite E.
    eexists _, _. split; [done|]. split; [done|]. by intros [? _].
Qed.

(** ** init *)

Definition app_helps : list (str * str) :=
  [(L "s", L "start with the terminal"); (L "d", L "run as daemon"); (L "c", L "conf path default: ./conf"); (L "p", L "print help")].
(** Env after a command line with these options. *)
Definition env_of (target program : str) (os : list (str * option str)) : Env :=
  mkEnv (assign_all os []) app_helps program (c_str target) (dir_of (c_str target) ++ L "/").

Lemma on_env_ok {A} (c : M Env A) (a : App) r e : c (a_env a) = Ok r e → on_env c a = Ok r (set_env e a).
Proof. intros H. unfold on_env, on. by rewrite H. Qed.

Lemma env_init_ok target program args :
  zlen target < 1024 →
  Env.init target (program :: args) (set_helps app_helps Env_new) = Ok (read_args args).2 (env_of target program (read_args args).1).
Proof.
  intros Ht. unfold Env.init, read_exe. rewrite (proj2 (Z.ltb_lt _ _)) by done.
  rewrite (bind_ok _ _ _ (c_str target) (set_helps app_helps Env_new)), !bind_modify by done. by rewrite args_loop_reads.
Qed.

Definition given (os : list (str * option str)) (key : string) : bool :=
  match last_value (L key) os None with Some _ => true | None => false end.

Lemma env_has target program os key (a : App) :
  a_env a = env_of target program os → on_env (has (L key)) a = Ok (given os key) a.
Proof.
  intros Ha. rewrite (on_env_ok _ a (given os key) (a_env a)); [by destruct a|]. unfold has. mred. rewrite Ha. cbn [m_args env_of].
  by rewrite find_assign_all by constructor.
Qed.

(** What is decided once the configuration is loaded. *)
Definition may_start (well : bool) (os : list (str * option str)) (f : F) (work pid : str) : bool :=
  well && negb (given os "p") && (given os "s" || given os "d") && negb (IsRunningPidfile f (work ++ L "/" ++ pid))
  && match Mkdir work f with Ok b _ => b | _ => false end.
(** Whether the help is printed. *)
Definition shows_help (well : bool) (os : list (str * option str)) : bool := negb well || given os "p" || negb (given os "s" || given os "d").

Lemma Mkdir_ok work (f : F) : c_str work ≠ [] → ∃ b f', Mkdir work f = Ok b f'.
Proof.
  intros H. unfold Mkdir. destruct (lstat_ok _ _); [by eexists _, _|]. destruct (c_str work) as [|c r]; [done|].
  destruct (mkdir_loop f [c] r). by eexists _, _.
Qed.

Lemma init_checks_ok target program well os (a : App) work pid servers :
  a_env a = env_of target program os → configures (a_conf a) work pid servers → c_str work ≠ [] →
  ∃ a', ⟨ init_checks t_string get_string g_server_work_path g_server_pid_file (negb well || given os "p"), a ⟩ ⇓ ⟨ may_start well os (a_files a) work pid, a' ⟩ ∧
    a_conf a' = a_conf a ∧ a_env a' = a_env a ∧ a_out a' = a_out a ++ (if shows_help well os then [printHelp (a_env a')] else []).
Proof.
  intros He Hc Hw. unfold init_checks, may_start, shows_help. destruct well; cbn [negb orb andb]; [|by eexists]. destruct (given os "p"); [by eexists|]. cbn [negb orb andb].
  rewrite (bind_ok _ _ _ _ _ (env_has _ _ _ "s" a He)), (bind_ok _ _ _ _ _ (env_has _ _ _ "d" a He)).
  destruct (given os "s" || given os "d") eqn:Esd.
  - assert (((if given os "d" then 2 else if given os "s" then 1 else 0) =? 0) = false) as -> by (by destruct (given os "d"), (given os "s")).
    rewrite (bind_ok _ _ _ _ _ (pid_path_ok a _ _ _ Hc)), (bind_ok _ _ _ _ _ (eq_refl : mget a = Ok a a)). cbn [negb andb].
    destruct (IsRunningPidfile _ _); [exists a; by rewrite app_nil_r|].
    rewrite (bind_ok _ _ _ _ _ (work_path_ok a _ _ _ Hc)). destruct (Mkdir_ok work (a_files a) Hw) as (b & f & E).
    unfold on_files, on. rewrite E. eexists. cbn. by rewrite app_nil_r.
  - apply orb_false_iff in Esd as [-> ->]. by eexists.
Qed.

Lemma add_helps_ok (a : App) : a_env a = Env_new → add_helps a = Ok tt (set_env (set_helps app_helps Env_new) a).
Proof. intros He. destruct a as [e0]. cbn in He. by subst. Qed.

(** C30: init, for every command line, when the path of the executable is shorter
    than 1024 bytes, the configuration directory loads without an exception and
    the work path is not empty: it loads the configuration directory first,
    whatever the options are; it succeeds exactly when no word of the command
    line is out of place, -p is not given, -s or -d is, the pid file does not name
    a running process, and the work directory is there or can be made; and it
    prints the help exactly when a word is out of place, -p is given, or neither
    -s nor -d. *)
Theorem init_decides fuel target program args (a : App) c work pid servers :
  a_env a = Env_new → zlen target < 1024 →
  (let os := (read_args args).1 in
   let e := env_of target program os in
   LoadFromConfDir mtime LoadFile fuel (a_files a) e (getAbsolutePath e (default (L "conf") (last_value (L "c") os None))) (a_conf a) = Ok tt c) →
  configures c work pid servers → c_str work ≠ [] →
  let '(os, well) := read_args args in
  ∃ a', ⟨ init mtime LoadFile t_string get_string g_server_work_path g_server_pid_file fuel target (program :: args), a ⟩
        ⇓ ⟨ may_start well os (a_files a) work pid, a' ⟩ ∧
    a_conf a' = c ∧ a_env a' = env_of target program os ∧
    a_out a' = a_out a ++ (if shows_help well os then [printHelp (a_env a')] else []).
Proof.
  cbv zeta. intros He Ht Hload Hc Hw. pose proof (env_init_ok target program args Ht) as Hinit.
  destruct (read_args args) as [os well]. cbn [fst snd] in *. unfold init. rewrite bind_modify. set (argv := program :: args).
  rewrite (bind_ok _ _ _ _ _ (add_helps_ok (set_argv argv a) He)).
  rewrite (bind_ok _ _ _ _ _ (on_env_ok _ (set_env _ _) _ _ Hinit)).
  set (a1 := set_env (env_of target program os) _). rewrite (bind_ok _ _ _ _ _ (env_has target program os "p" a1 eq_refl)).
  rewrite (bind_ok _ _ a1 (default (L "conf") (last_value (L "c") os None)) a1).
  2: { rewrite (on_env_ok _ a1 (default (L "conf") (last_value (L "c") os None)) (a_env a1)); [done|]. unfold get. mred. cbn [a_env a1 set_env m_args env_of].
       by rewrite find_assign_all by constructor. }
  rewrite (bind_ok _ _ _ _ _ (eq_refl : mget a1 = Ok a1 a1)). cbv zeta.
  rewrite (bind_ok _ _ a1 tt (set_conf c a1)) by (unfold on_conf, on, a1; cbn [a_files a_env a_conf set_env set_argv]; by rewrite Hload).
  destruct (init_checks_ok target program well os (set_conf c a1) work pid servers eq_refl Hc Hw) as (a' & E & H1 & H2 & H3).
  exists a'. split; [exact E|]. split; [exact H1|]. split; [by rewrite H2|exact H3].
Qed.
End Whole.

(** ** A concrete application *)

Definition app_val (t : bool) : Type := if t then str else list HttpServerConf.
#[local] Instance app_types : Types := {|
  ty := bool;
  val := app_val;
  val_eqb t := match t return app_val t → app_val t → bool with true => streq | false => λ a b, bool_decide (length a = length b) && forallb (λ '(c, d), conf_eqb c d) (zip a b) end;
  from_str t text := match t return option (app_val t) with true => Some text | false => string_to_confs (N := doc) text end;
  to_str t := match t return app_val t → option str with true => Some | false => confs_to_string (N := doc) end
|}.
#[local] Instance app_listeners : Listeners unit := {| cb _ := unit; run_cb _ _ _ _ := mret tt |}.
#[local] Instance demo_out : FileOut unit := {| open_out _ _ := Some tt; flush_out _ _ _ := tt |}.
#[local] Instance demo_out_laws : FileOutLaws unit.
Proof. by split. Qed.

Definition app_string : @ty app_types := true.
Definition app_servers : @ty app_types := false.
Definition app_var (t : @ty app_types) (name : string) (v : val t) : AnyVar (W := unit) := anyvar t (mkVar (L name) [] v []).
Definition app_confs : list HttpServerConf :=
  [mkServerConf [L "*:8090"; L "nowhere"] 1 120000 (L "skt/1.1"); mkServerConf [L "*:8091"; L "eth0:8092"] 0 0 []].
Definition app_conf : Conf unit :=
  mkConf {[0%nat := app_var app_string "server.work_path" (L "/srv"); 1%nat := app_var app_string "server.pid_file" (L "skt.pid");
           2%nat := app_var app_servers "http_servers" app_confs]} [] (λ _, 0) [] tt.
(** No name resolves; getifaddrs fails. *)
Definition no_names (node : str) (service : option str) : option (list raw_addr) := None.
Definition demo_application : Application (W := unit) (F := unit) (K := demo_net) :=
  mkApplication Env_new app_conf tt demo_world [] [] [] [] false.

Lemma no_interfaces : ifs_ok None.
Proof. by intros l i [=]. Qed.

Lemma app_configures : configures app_string app_servers (λ x, x) (λ x, x) 0 1 2 app_conf (L "/srv") (L "skt.pid") app_confs.
Proof. split; eexists; (split; [reflexivity|reflexivity]). Qed.

Definition app_confs2 : list HttpServerConf := [mkServerConf [L "*:8090"; L "nowhere"] 1 120000 (L "skt/1.1"); mkServerConf [L "*:8091"] 0 0 []].

Lemma demo_servers_run :
  ∃ a1, start_servers no_names None 120000 app_confs2 demo_application = Ok true a1 ∧
    m_socks <$> (hs_server <$> m_httpservers a1) = [[0%nat]; [0%nat]].
Proof.
  assert (match start_servers no_names None 120000 app_confs2 demo_application with
    | Ok ok a1 => ok && bool_decide (m_socks <$> (hs_server <$> m_httpservers a1) = [[0%nat]; [0%nat]])
    | _ => false end = true) as H by (vm_compute; reflexivity).
  destruct (start_servers _ _ _ _ _) as [[] a1| | |]; try discriminate H. exists a1. split; [reflexivity|]. by apply bool_decide_eq_true in H.
Qed.

Lemma demo_meanings :
  (sc_address (mkServerConf [L "*:8090"; L "nowhere"] 1 120000 (L "skt/1.1")) ≫= meaning no_names None) = [setPort 8090 (IPv4Address_new 0 0)] ∧
  (sc_address (mkServerConf [L "*:8091"] 0 0 []) ≫= meaning no_names None) = [setPort 8091 (IPv4Address_new 0 0)].
Proof. split; vm_compute; reflexivity. Qed.


Lemma running_not_seen_witness :
  ∃ a', main_serving app_string app_servers (λ x, x) (λ x, x) 0 1 2 no_names None 120000 demo_application = Ok (Some (L "/srv/skt.pid")) a' ∧
    IsRunningPidfile (a_files a') (L "/srv/skt.pid") = false.
Proof.
  apply (running_not_seen app_string app_servers (λ x, x) (λ x, x) 0 1 2 no_names None 120000 demo_application (L "/srv") (L "skt.pid") app_confs
    demo_world_ok no_interfaces app_configures). by eexists.
Defined.

Lemma run_true_only_without_fork_witness :
  ∃ b p, run app_string app_servers (λ x, x) (λ x, x) 0 1 2 no_names None 120000 10 0 0 []
    (mkProcess (mkInfo 0 0 0 0 0) demo_application) = Ok b p ∧ b = false.
Proof.
  destruct (run_true_only_without_fork app_string app_servers (λ x, x) (λ x, x) 0 1 2 no_names None 120000 demo_application (L "/srv") (L "skt.pid")
    app_confs (mkInfo 0 0 0 0 0) 10 0 0 [] demo_world_ok no_interfaces app_configures) as [(_ & [=] & _)|(b & p & E & H)].
  exists b, p. split; [exact E|]. destruct b; [|reflexivity]. destruct (proj1 H eq_refl) as [[=] _].
Defined.

(** With -s, and with a stray word behind it. *)
Lemma init_decides_witness :
  (∃ a', init (N := doc) (λ _ _, 0) (λ _ _, None) app_string (λ x, x) 0 1 1 (L "/bin/skt") [L "skt"; L "-s"] demo_application = Ok true a' ∧
     a_out a' = []) ∧
  (∃ a', init (N := doc) (λ _ _, 0) (λ _ _, None) app_string (λ x, x) 0 1 1 (L "/bin/skt") [L "skt"; L "-s"; L "now"; L "x"] demo_application
     = Ok false a' ∧ length (a_out a') = 1%nat).
Proof.
  split.
  - destruct (init_decides (N := doc) (λ _ _, 0) (λ _ _, None) app_string app_servers (λ x, x) (λ x, x) 0 1 2 1 (L "/bin/skt") (L "skt") [L "-s"]
      demo_application app_conf (L "/srv") (L "skt.pid") app_confs) as (a' & E & _ & _ & H);
      [reflexivity|reflexivity|reflexivity|exact app_configures|discriminate|].
    exists a'. split; [exact E|exact H].
  - destruct (init_decides (N := doc) (λ _ _, 0) (λ _ _, None) app_string app_servers (λ x, x) (λ x, x) 0 1 2 1 (L "/bin/skt") (L "skt")
      [L "-s"; L "now"; L "x"] demo_application app_conf (L "/srv") (L "skt.pid") app_confs) as (a' & E & _ & _ & H);
      [reflexivity|reflexivity|reflexivity|exact app_configures|discriminate|].
    exists a'. split; [exact E|]. rewrite H. reflexivity.
Defined.
