(* ===== verification/Statics.v ===== *)
(** Static copies of configuration variables: s_connect_timeout
    (skt/hook/hook.cpp) and the sizes of HTTP messages
    (skt/http/http_parser.cpp).

    Code that runs often does not ask ConfigVar, which takes a lock, but reads a
    static that a listener of the variable keeps up to date. *)

From stdpp Require Import base list strings sets gmap relations.
From Stdlib Require Import Ascii Lia.
From S2P Require Import Prelude StdOrdered CString Env FsUtil Yaml Config ConfigProps.

(** The statics. *)
Inductive static : Type :=
| s_connect_timeout
| s_http_request_buffer_size | s_http_request_max_body_size
| s_http_response_buffer_size | s_http_response_max_body_size.
#[global] Instance static_eq_dec : EqDecision static.
Proof. solve_decision. Defined.

(** The statics before the initers run, and whatever other listeners act on. *)
Record Statics (O : Type) : Type := mkStatics { value_of : static → Z; others : O }.
Arguments mkStatics {O} _ _.
Arguments value_of {O} _ _.
Arguments others {O} _.
Definition statics_new {O} (o : O) : Statics O := mkStatics (λ k, if decide (k = s_connect_timeout) then u64 (-1) else 0) o.
Definition assign_static {O} (k : static) (v : Z) (w : Statics O) : Statics O :=
  mkStatics (λ k', if decide (k' = k) then v else value_of w k') (others w).

Section Statics.
Context {TY : Types} {O : Type}.

(** A listener: one that assigns the new value, converted to uint64_t, to a
    static, or any other. *)
Inductive listener (t : ty) : Type :=
| Assign (k : static) (convert : val t → Z)
| Other (f : val t → val t → M O unit).
#[global] Arguments Assign {t} _ _.
#[global] Arguments Other {t} _.

Definition on_others (c : M O unit) : M (Statics O) unit := λ w,
  match c (others w) with
  | Ok _ o => Ok tt (mkStatics (value_of w) o)
  | Exc e o => Exc e (mkStatics (value_of w) o)
  | Stop u => Stop u
  | NoFuel => NoFuel
  end.
#[global] Instance static_listeners : Listeners (Statics O) := {|
  cb := listener;
  run_cb t c old new := match c with Assign k convert => mmodify (assign_static k (convert new)) | Other f => on_others (f old new) end
|}.
Abbreviation conf := (M (Conf (Statics O))).

Definition set_static (k : static) (v : Z) : conf unit := mmodify (λ s, set_outside (assign_static k v (outside s)) s).

(** A static, the variable it is a copy of, and the conversion of its values to
    uint64_t. *)
Record binding : Type := mkBinding { b_static : static; b_type : ty; b_convert : val b_type → Z; b_var : nat }.

(** s_x = g_x->getValue(); and g_x->addListener(...), for one after the other. *)
Definition copy_value (b : binding) : conf unit := v ← getValue (b_type b) (b_var b); set_static (b_static b) (b_convert b v).
Definition add_copier (b : binding) : conf unit := addListener (b_type b) (b_var b) (Assign (b_static b) (b_convert b));; mret tt.
Fixpoint copy_values (l : list binding) : conf unit := match l with [] => mret tt | b :: l' => copy_value b;; copy_values l' end.
Fixpoint add_copiers (l : list binding) : conf unit := match l with [] => mret tt | b :: l' => add_copier b;; add_copiers l' end.

Definition initer (l : list binding) : conf unit := copy_values l;; add_copiers l.

(** _HookIniter, after hook_init. *)
Definition timeouts (t_int : ty) (int_to_u64 : val t_int → Z) (g_tcp_connect_timeout : nat) : list binding :=
  [mkBinding s_connect_timeout t_int int_to_u64 g_tcp_connect_timeout].
Definition HookIniter (t_int : ty) (int_to_u64 : val t_int → Z) (g_tcp_connect_timeout : nat) : conf unit :=
  initer (timeouts t_int int_to_u64 g_tcp_connect_timeout).

(** _RequestSizeIniter *)
Definition sizes (t_u64 : ty) (u64_value : val t_u64 → Z) (g_request_buffer g_request_body g_response_buffer g_response_body : nat) : list binding :=
  [mkBinding s_http_request_buffer_size t_u64 u64_value g_request_buffer;
   mkBinding s_http_request_max_body_size t_u64 u64_value g_request_body;
   mkBinding s_http_response_buffer_size t_u64 u64_value g_response_buffer;
   mkBinding s_http_response_max_body_size t_u64 u64_value g_response_body].
Definition RequestSizeIniter (t_u64 : ty) (u64_value : val t_u64 → Z) (g1 g2 g3 g4 : nat) : conf unit :=
  initer (sizes t_u64 u64_value g1 g2 g3 g4).

(** GetHttpRequestBufferSize and the others. *)
Definition GetHttpRequestBufferSize (s : Conf (Statics O)) : Z := value_of (outside s) s_http_request_buffer_size.
Definition GetHttpRequestMaxBodySize (s : Conf (Statics O)) : Z := value_of (outside s) s_http_request_max_body_size.
Definition GetHttpResponseBufferSize (s : Conf (Statics O)) : Z := value_of (outside s) s_http_response_buffer_size.
Definition GetHttpResponseMaxBodySize (s : Conf (Statics O)) : Z := value_of (outside s) s_http_response_max_body_size.

(** ** What the initers establish *)

Implicit Types s : Conf (Statics O).

Definition assigns {t} (k : static) (c : listener t) : bool := match c with Assign k' _ => bool_decide (k' = k) | Other _ => false end.
Definition returns {t} (c : listener t) : Prop := match c with Assign _ _ => True | Other f => ∀ old new o, ∃ o', f old new o = Ok tt o' end.

(** Static [k] is a copy of the variable at [a]: it has the value, a listener
    keeps it so, none of the variable's listeners throws, and no other variable
    has a listener for it. *)
Record copies (k : static) (t : ty) (a : nat) (convert : val t → Z) s : Prop := {
  cp_ok : conf_ok s;
  cp_var : ∃ x, vars s !! a = Some (anyvar t x) ∧ value_of (outside s) k = convert (cv_val x) ∧
    (∃ id, (id, Assign k convert) ∈ cv_cbs x) ∧
    (∀ id c, (id, c) ∈ cv_cbs x → returns c ∧ (assigns k c = true → c = Assign k convert));
  cp_ids : 0 ≤ fun_id s t ∧ ∀ x id c, vars s !! a = Some (anyvar t x) → (id, c) ∈ cv_cbs x → id ≤ fun_id s t;
  cp_only b t' (y : ConfigVar t') id c : vars s !! b = Some (anyvar t' y) → (id, c) ∈ cv_cbs y → assigns k c = true → b = a
}.

(** The listeners of one variable. *)
Lemma run_cbs_static k t (l : list (Z * listener t)) old new s convert :
  (∀ id c, (id, c) ∈ l → returns c ∧ (assigns k c = true → c = Assign k convert)) →
  ∃ w, run_cbs l old new s = Ok tt (set_outside w s) ∧
    value_of w k = if existsb (λ e, assigns k e.2) l then convert new else value_of (outside s) k.
Proof.
  revert s. induction l as [|[id c] l IH]; intros s Hl; [exists (outside s); by destruct s|]. cbn [run_cbs existsb snd].
  destruct (Hl id c) as [Hr Ha]; [by left|]. unfold mbind, M_bind, outside_call.
  assert (∃ w1, run_cb c old new (outside s) = Ok tt w1 ∧ value_of w1 k = if assigns k c then convert new else value_of (outside s) k)
    as (w1 & E1 & H1).
  { destruct c as [k' f|f]; cbn in *.
    - eexists. split; [reflexivity|]. cbn. case_bool_decide as Hk; [|by rewrite decide_False by congruence].
      subst k'. rewrite decide_True by done. by injection (Ha eq_refl) as ->.
    - destruct (Hr old new (others (outside s))) as [o' E]. unfold on_others. rewrite E. by eexists. }
  rewrite E1. destruct (IH (set_outside w1 s)) as (w2 & E2 & H2); [intros; by eapply Hl; right|]. exists w2. split; [by rewrite E2|].
  rewrite H2. cbn [outside set_outside]. rewrite H1. destruct (assigns k c), (existsb _ l); done.
Qed.

(** Listeners that leave [k] alone do, however they end. *)
Lemma run_cbs_other k t (l : list (Z * listener t)) old new s s' :
  (∀ id c, (id, c) ∈ l → assigns k c = false) → leaves (run_cbs l old new s) s' →
  same_registry s s' ∧ value_of (outside s') k = value_of (outside s) k ∧ fun_id s' = fun_id s.
Proof.
  intros Hl Hs. split; [destruct Hs as [[b E]|[e E]]; by apply run_cbs_same in E|]. revert s Hs.
  induction l as [|[id c] l IH]; intros s; [by intros [[b [= _ <-]]|[e [=]]]|]. cbn [run_cbs].
  assert (∀ w, (∃ b, run_cb c old new (outside s) = Ok b w) ∨ (∃ e, run_cb c old new (outside s) = Exc e w) → value_of w k = value_of (outside s) k) as Hc.
  { intros w. specialize (Hl id c ltac:(by left)). destruct c as [k' f|f]; cbn in *.
    - apply bool_decide_eq_false in Hl. intros [[b [= _ <-]]|[e [=]]]. cbn. by rewrite decide_False by congruence.
    - unfold on_others. destruct (f old new (others (outside s))); intros [[b [= <-]]|[e' [=]]]; by subst. }
  intros [([] & s1 & E & H)|[e E]]%leaves_bind.
  - unfold outside_call in E. destruct (@run_cb TY (Statics O) static_listeners t c old new (outside s)) as [b w| | |] eqn:Er; try done. injection E as _ <-.
    destruct (IH ltac:(intros; eapply Hl; by right) _ H) as [-> ->]. split; [|done]. cbn. apply Hc. left. by eexists.
  - unfold outside_call in E. destruct (@run_cb TY (Statics O) static_listeners t c old new (outside s)) as [|e' w| |] eqn:Er; try done. injection E as _ <-. cbn.
    split; [|done]. apply Hc. right. by eexists.
Qed.

(** Assigning to a key of a std::map<uint64_t, V>. *)
Lemma assign_split {V} (i : Z) (v : V) m :
  ∃ p r, map_assign Z.ltb i v m = p ++ (i, v) :: r ∧ (m = p ++ r ∨ ∃ w, m = p ++ (i, w) :: r).
Proof.
  unfold map_assign. destruct (lower_split Z.ltb fst i m) as [p r] eqn:E.
  pose proof (lower_split_app Z.ltb fst i m) as Ea. rewrite E in Ea. cbn in Ea.
  assert (∀ x r', r = x :: r' → (x.1 <? i) = false) as Hh.
  { clear Ea. revert p r E. induction m as [|x m IH]; intros p r; cbn; [by intros [= <- <-]|].
    destruct (x.1 <? i) eqn:Hx; [|intros [= <- <-] y r' [= -> _]; done]. destruct (lower_split Z.ltb fst i m) as [p' r''] eqn:E'.
    intros [= <- <-]. by eapply IH. }
  destruct r as [|[j w] r]; [exists p, []; eauto|]. specialize (Hh _ _ eq_refl). cbn in Hh. destruct (i <? j) eqn:Hj.
  - exists p, ((j, w) :: r). eauto.
  - assert (j = i) as -> by lia. exists p, r. eauto.
Qed.

Lemma assign_in {V} (i : Z) (v : V) m j w : (j, w) ∈ map_assign Z.ltb i v m → (j = i ∧ w = v) ∨ (j, w) ∈ m.
Proof. destruct (assign_split i v m) as (p & r & -> & [->|[w' ->]]); set_solver. Qed.

Lemma assign_keeps {V} (i : Z) (v : V) m j w : j ≠ i → (j, w) ∈ m → (j, w) ∈ map_assign Z.ltb i v m.
Proof. intros Hj. destruct (assign_split i v m) as (p & r & -> & [->|[w' ->]]); set_solver. Qed.

(** addListener, on a variable of its type. *)
Lemma addListener_eq s t a (x : ConfigVar t) (c : listener t) :
  vars s !! a = Some (anyvar t x) →
  let id := u64 (fun_id s t + 1) in
  addListener t a c s = Ok id (var_put a (mkVar (cv_name x) (cv_description x) (cv_val x) (map_assign Z.ltb id c (cv_cbs x)))
                                 (set_fun_id (λ t', if decide (t' = t) then id else fun_id s t') s)).
Proof.
  intros Hx. cbv zeta. unfold addListener. rewrite (bind_ok _ _ _ _ _ (eq_refl : mget s = Ok s s)). set (s1 := set_fun_id _ s).
  rewrite (bind_ok _ _ _ tt s1) by done. assert (vars s1 !! a = Some (anyvar t x)) as Hx1 by done.
  by rewrite (bind_ok _ _ _ _ _ (var_at_ok s1 t a x Hx1)).
Qed.

(** ** It stays a copy *)

Section Keeps.
Context (k : static) (t : ty) (a : nat) (convert : val t → Z).
Abbreviation copy := (copies k t a convert).

(** The state changes outside, not for [k]. *)
Lemma copies_outside s s' : copy s → same_registry s s' → value_of (outside s') k = value_of (outside s) k → fun_id s' = fun_id s → copy s'.
Proof.
  intros [H1 H2 H4 H3] Hsame Hk Hf. destruct (same_ok s s' Hsame H1) as [H1' _]. destruct Hsame as [Hv Hd].
  split; [done|rewrite Hv, Hk; done|by rewrite Hv, Hf|]. intros b t' y id c. rewrite Hv. apply H3.
Qed.

(** Another variable is replaced. *)
Lemma copies_put_other s b t' (y y' : ConfigVar t') :
  copy s → vars s !! b = Some (anyvar t' y) → b ≠ a → cv_name y' = cv_name y → (∀ id c, (id, c) ∈ cv_cbs y' → assigns k c = false) →
  copy (var_put b y' s).
Proof.
  intros [H1 (x & Hx & H2) H4 H3] Hb Hne Hn Hc. destruct (var_put_ok s t' b y y' H1 Hb Hn) as [H1' _].
  split; [done|exists x; cbn; by rewrite lookup_insert_ne|cbn; by rewrite lookup_insert_ne|]. intros b' t2 y2 id c. cbn. destruct (decide (b' = b)) as [->|Hne'].
  - rewrite lookup_insert_eq. intros E%Some_inj Hin Ha. exfalso. pose proof (f_equal var_type E) as Ht. cbn in Ht. subst t2.
    apply anyvar_inj in E. subst y2. by rewrite (Hc id c Hin) in Ha.
  - rewrite lookup_insert_ne by done. apply H3.
Qed.

(** The variable itself is replaced, with the value that the static has. *)
Lemma copies_put_same s (x x' : ConfigVar t) :
  copy s → vars s !! a = Some (anyvar t x) → cv_name x' = cv_name x → value_of (outside s) k = convert (cv_val x') →
  (∃ id, (id, Assign k convert) ∈ cv_cbs x') →
  (∀ id c, (id, c) ∈ cv_cbs x' → returns c ∧ (assigns k c = true → c = Assign k convert) ∧ id ≤ fun_id s t) → copy (var_put a x' s).
Proof.
  intros [H1 _ [H4 _] H3] Hx Hn Hv Hl Hc. destruct (var_put_ok s t a x x' H1 Hx Hn) as [H1' _].
  split; [done|exists x'; cbn; rewrite lookup_insert_eq; split_and!; [done..|]; intros id c Hin; by destruct (Hc id c Hin) as (? & ? & _)| |].
  { split; [done|]. intros x2 id c. cbn. rewrite lookup_insert_eq. intros E%Some_inj%anyvar_inj Hin. subst x2. by destruct (Hc id c Hin) as (_ & _ & ?). } intros b t2 y2 id c. cbn. destruct (decide (b = a)) as [->|Hne]; [done|].
  rewrite lookup_insert_ne by done. apply H3.
Qed.

Lemma copy_var s x : copy s → vars s !! a = Some (anyvar t x) →
  value_of (outside s) k = convert (cv_val x) ∧ (∃ id, (id, Assign k convert) ∈ cv_cbs x) ∧
  (∀ id c, (id, c) ∈ cv_cbs x → returns c ∧ (assigns k c = true → c = Assign k convert)).
Proof. intros [_ (x' & Hx' & H) _ _] Hx. assert (anyvar t x = anyvar t x') as E%anyvar_inj by congruence. by subst. Qed.

Lemma copy_other s b t' (y : ConfigVar t') : copy s → vars s !! b = Some (anyvar t' y) → b ≠ a → ∀ id c, (id, c) ∈ cv_cbs y → assigns k c = false.
Proof. intros Hs Hb Hne id c Hin. destruct (assigns k c) eqn:E; [|done]. by destruct (Hne (cp_only _ _ _ _ _ Hs b t' y id c Hb Hin E)). Qed.

Lemma setValue_copies s s' b t' (y : ConfigVar t') v :
  copy s → vars s !! b = Some (anyvar t' y) → leaves (setValue t' b v s) s' → copy s'.
Proof.
  intros Hs Hb. unfold setValue. rewrite (bind_ok _ _ _ _ _ (var_at_ok s t' b y Hb)). destruct (val_eqb v (cv_val y)).
  { by intros [[? [= _ <-]]|[? [=]]]. }
  destruct (decide (b = a)) as [->|Hne].
  - assert (t' = t) as -> by (destruct (cp_var _ _ _ _ _ Hs) as (x & Hx & _); rewrite Hb in Hx; apply Some_inj in Hx; exact (f_equal var_type Hx)).
    destruct (copy_var s y Hs Hb) as (H1 & (id & Hid) & H3).
    destruct (run_cbs_static k t (cv_cbs y) (cv_val y) v s convert H3) as (w & E & Hw). rewrite (bind_ok _ _ _ _ _ E).
    intros [[? [= _ <-]]|[? [=]]]. assert (existsb (λ e, assigns k e.2) (cv_cbs y) = true) as Hex.
    { apply existsb_exists. exists (id, Assign k convert). split; [by apply list_elem_of_In|]. by apply bool_decide_true. }
    rewrite Hex in Hw.
    split; [|exists (mkVar (cv_name y) (cv_description y) v (cv_cbs y)); cbn; rewrite lookup_insert_eq; eauto| |].
    + destruct (same_ok s (set_outside w s) ltac:(done) (cp_ok _ _ _ _ _ Hs)) as [Ho _]. by eapply (var_put_ok (set_outside w s)).
    + destruct (cp_ids _ _ _ _ _ Hs) as [H4 H5]. split; [done|]. intros x2 id2 c. cbn. rewrite lookup_insert_eq. intros E2%Some_inj%anyvar_inj.
      subst x2. cbn. by apply H5.
    + intros b t2 y2 id2 c. cbn. destruct (decide (b = a)) as [->|Hne]; [done|]. rewrite lookup_insert_ne by done. apply (cp_only _ _ _ _ _ Hs).
  - pose proof (copy_other s b t' y Hs Hb Hne) as Hno. intros [([] & s1 & E & H)|[e E]]%leaves_bind.
    + destruct (run_cbs_other k t' (cv_cbs y) (cv_val y) v s s1 Hno) as (H1 & H2 & H3); [left; by eexists|].
      pose proof (copies_outside s s1 Hs H1 H2 H3) as Hs1. destruct H as [[? [= _ <-]]|[? [=]]].
      apply (copies_put_other s1 b t' y); [done|by rewrite (proj1 H1)|done..].
    + destruct (run_cbs_other k t' (cv_cbs y) (cv_val y) v s s' Hno) as (H1 & H2 & H3); [right; by eexists|]. by eapply copies_outside.
Qed.

Lemma fromString_copies s s' b t' (y : ConfigVar t') text :
  copy s → vars s !! b = Some (anyvar t' y) → leaves (fromString t' b text s) s' → copy s'.
Proof.
  intros Hs Hb. unfold fromString. destruct (from_str text) as [v|]; [|by intros [[? [= _ <-]]|[? [=]]]].
  unfold mtry. destruct (setValue t' b v s) as [[] s1|e s1|u|] eqn:E; intros [[? [= _ <-]]|[? [=]]]; (eapply setValue_copies; [done..|rewrite E]);
    [left|right]; by eexists.
Qed.

(** Calls after which the static still is a copy, however they end. *)
Definition kept {A} (c : conf A) : Prop := ∀ s s', copy s → leaves (c s) s' → copy s'.

Lemma kept_ret {A} (r : A) : kept (mret r).
Proof. by intros s s' Hs [[? [= _ <-]]|[? [=]]]. Qed.
Lemma kept_bind {A B} (c : conf A) (f : A → conf B) : kept c → (∀ r, kept (f r)) → kept (c ≫= f).
Proof.
  intros Hc Hf s s' Hs [(r & s1 & E & H)|[e E]]%leaves_bind; [eapply (Hf r s1 s'); [|done]|]; eapply Hc; try done; [left|right]; by eexists.
Qed.
Lemma kept_stop {A} (c : conf A) : (∀ s s', ¬ leaves (c s) s') → kept c.
Proof. intros H s s' _ Hl. by destruct (H s s'). Qed.

Section Load.
Context {N : Type} `{YM : Yaml N} {K : Type} `{FS : FileSystem K} (mtime : K → str → Z) (LoadFile : K → str → option N).

Lemma load_one_kept (e : str * N) : kept (load_one e).
Proof.
  intros s s' Hs. unfold load_one. destruct e.1 as [|c key]; [by apply kept_ret|].
  rewrite (bind_ok _ _ _ _ _ (eq_refl : LookupBase (lower (c :: key)) s = Ok _ s)).
  destruct (map_find string_lt (lower (c :: key)) (datas s)) as [b|] eqn:Hn; [|by apply kept_ret].
  destruct (co_var s (cp_ok _ _ _ _ _ Hs) _ _ Hn) as ([t' y] & Hy & _). rewrite (bind_ok _ _ _ _ _ (eq_refl : mget s = Ok s s)), Hy.
  rewrite (bind_ok _ _ s (anyvar t' y) s) by done. cbn [var_type]. intros Hl%drop_result. by eapply fromString_copies.
Qed.

Lemma LoadFromYaml_kept fuel (root : N) : kept (LoadFromYaml fuel root).
Proof.
  unfold LoadFromYaml. destruct (ListAllMember fuel [] root) as [l|]; [|apply kept_stop; by intros s s' [[? [=]]|[? [=]]]].
  induction l as [|e l IH]; [apply kept_ret|]. apply kept_bind; [apply load_one_kept|done].
Qed.

Lemma load_file_kept fuel f file : kept (load_file mtime LoadFile fuel f file).
Proof.
  intros s s' Hs. unfold load_file. rewrite (bind_ok _ _ _ _ _ (eq_refl : mget s = Ok s s)).
  set (mt := u64 (mtime f file)). set (mark := mmodify (λ s, set_mtimes (map_assign string_lt file mt (mtimes s)) s) : conf unit).
  assert (kept mark) as Hm by (intros s1 s2 Hs1 [[? [= _ <-]]|[? [=]]]; by eapply copies_outside).
  destruct (default 0 (map_find string_lt file (mtimes s)) =? mt); [by apply Hm|]. revert s s' Hs.
  apply kept_bind; [done|]. intros _. destruct (LoadFile f file) as [root|]; [|apply kept_ret].
  apply kept_bind; [|intros; apply kept_ret]. intros s1 s2 Hs1 Hl%mtry_leaves. by eapply LoadFromYaml_kept.
Qed.

Lemma LoadFromConfDir_kept fuel f e path : kept (LoadFromConfDir mtime LoadFile fuel f e path).
Proof.
  unfold LoadFromConfDir. destruct (ListAllFile _ _ _ _ _) as [files|]; [|apply kept_stop; by intros s s' [[? [=]]|[? [=]]]].
  induction files as [|g files IH]; [apply kept_ret|]. apply kept_bind; [apply load_file_kept|done].
Qed.

(** The calls that leave the copying alone: nobody else assigns to the static,
    listeners that are added to its variable do not throw, and those of its
    variable are not taken away. The numbers of listeners do not wrap around. *)
Definition leaves_copy s (o : cop (N := N) (K := K)) : Prop :=
  match o with
  | CAdd t' b c => assigns k c = false ∧ (b = a → returns c) ∧ 0 ≤ fun_id s t' < 2 ^ 64 - 1
  | CDel _ b _ | CClear _ b => b ≠ a
  | _ => True
  end.

Lemma Lookup_copies s s' t' name d desc : copy s → leaves (Lookup t' name d desc s) s' → copy s'.
Proof.
  intros Hs. destruct (map_find string_lt name (datas s)) as [b|] eqn:Hn.
  - destruct (co_var s (cp_ok _ _ _ _ _ Hs) _ _ Hn) as ([t2 y] & Hy & _). rewrite (Lookup_found s t' name d desc b t2 y Hn Hy).
    by intros [[? [= _ <-]]|[? [=]]].
  - intros Hl. pose proof (proj1 (Lookup_ok s t' name d desc s' (cp_ok _ _ _ _ _ Hs) Hl)) as Hok. revert Hl.
    unfold Lookup. rewrite (bind_ok _ _ _ _ _ (eq_refl : mget s = Ok s s)), Hn. destruct (valid_name name); [|by intros [[? [=]]|[? [= _ <-]]]].
    cbn [negb]. set (b := fresh (dom (vars s))). assert (vars s !! b = None) as Hb by (apply not_elem_of_dom, is_fresh).
    intros [[r0 [= _ <-]]|[e0 [=]]]. destruct Hs as [H1 (x & Hx & H2) H4 H3].
    split; [done|exists x; cbn; rewrite lookup_insert_ne by congruence; done|cbn; by rewrite lookup_insert_ne by congruence|].
    intros b' t2 y2 id c. cbn. destruct (decide (b' = b)) as [->|Hne]; [|rewrite lookup_insert_ne by done; apply H3].
    rewrite lookup_insert_eq. intros E%Some_inj Hin _. pose proof (f_equal var_type E) as Ht. cbn in Ht. subst t2.
    apply anyvar_inj in E. subst y2. by apply not_elem_of_nil in Hin.
Qed.

Lemma add_copies s b t' (c : listener t') :
  copy s → has_type s t' b → leaves_copy s (CAdd t' b c) → ∀ s', leaves (addListener t' b c s) s' → copy s'.
Proof.
  intros Hs [y Hy] (Ha & Hr & Hf) s'. rewrite (addListener_eq s t' b y c Hy). cbv zeta. rewrite (wrapu_small 64) by (unfold in_u; lia).
  set (id := fun_id s t' + 1). set (s1 := set_fun_id _ s). intros [[r0 [= _ <-]]|[e0 [=]]].
  assert (copy s1) as Hs1.
  { destruct Hs as [H1 H2 [H4 H5] H3]. split; [by eapply (same_ok s)|done| |done]. cbn. case_decide as E; [|done].
    subst t'. split; [lia|]. intros x i c' Hx Hin. specialize (H5 x i c' Hx Hin). lia. }
  destruct (decide (b = a)) as [->|Hne].
  - assert (t' = t) as ->.
    { destruct (cp_var _ _ _ _ _ Hs) as (x & Hx & _). rewrite Hy in Hx. apply Some_inj in Hx. exact (f_equal var_type Hx). }
    destruct (copy_var s y Hs Hy) as (H1 & (i & Hi) & H3). destruct (cp_ids _ _ _ _ _ Hs) as [_ Hids].
    assert (fun_id s1 t = id) as Hid by (cbn; by rewrite decide_True). eapply (copies_put_same s1 y); [done..| |].
    + exists i. apply assign_keeps; [|done]. specialize (Hids y i _ Hy Hi). lia.
    + intros j c' [[-> ->]|Hin]%assign_in; rewrite Hid.
      * split; [by apply Hr|]. split; [congruence|lia].
      * destruct (H3 j c' Hin). specialize (Hids y j c' Hy Hin). split_and!; [done..|lia].
  - apply (copies_put_other s1 b t' y); [done..|]. intros j c' [[_ ->]|Hin]%assign_in; [done|]. by eapply (copy_other s b t' y).
Qed.

Definition cstep_quiet s s' : Prop := ∃ o, cop_ok s o ∧ leaves_copy s o ∧ leaves (cexec mtime LoadFile o s) s'.

Lemma quiet_copies s s' : copy s → cstep_quiet s s' → copy s'.
Proof.
  intros Hs ([t' name d desc|t' b v|t' b text|t' b c|t' b key|t' b|fuel root|fuel f e path] & Ho & Hq & Hl); cbn [cexec cop_ok] in *.
  - apply drop_result in Hl. by eapply Lookup_copies.
  - destruct Ho as [y Hy]. by eapply setValue_copies.
  - destruct Ho as [y Hy]. apply drop_result in Hl. by eapply fromString_copies.
  - apply drop_result in Hl. by eapply add_copies.
  - destruct Ho as [y Hy]. revert Hl. unfold delListener. rewrite (bind_ok _ _ _ _ _ (var_at_ok s t' b y Hy)).
    intros [[r0 [= _ <-]]|[e0 [=]]]. apply (copies_put_other s b t' y); [done..|]. cbn.
    intros i c Hin. eapply (copy_other s b t' y); [done..|]. revert Hin. unfold map_erase.
    pose proof (lower_split_app Z.ltb fst key (cv_cbs y)) as Ea. destruct (lower_split _ _ _ _) as [p [|[j w] r]]; cbn in Ea; [done|].
    destruct (key <? j); [done|]. rewrite <- Ea. set_solver.
  - destruct Ho as [y Hy]. revert Hl. unfold clearListener. rewrite (bind_ok _ _ _ _ _ (var_at_ok s t' b y Hy)).
    intros [[r0 [= _ <-]]|[e0 [=]]]. apply (copies_put_other s b t' y); [done..|]. cbn. set_solver.
  - by eapply LoadFromYaml_kept.
  - by eapply LoadFromConfDir_kept.
Qed.
End Load.
End Keeps.

(** ** The initers *)

(** Nobody assigns to the static yet; the variable is there. *)
Record ready (b : binding) s : Prop := {
  rd_ok : conf_ok s;
  rd_var : ∃ x, vars s !! b_var b = Some (anyvar (b_type b) x) ∧ ∀ id c, (id, c) ∈ cv_cbs x → returns c ∧ id ≤ fun_id s (b_type b);
  rd_none a t' (y : ConfigVar t') id c : vars s !! a = Some (anyvar t' y) → (id, c) ∈ cv_cbs y → assigns (b_static b) c = false
}.
Definition valued (b : binding) s : Prop :=
  ∃ x, vars s !! b_var b = Some (anyvar (b_type b) x) ∧ value_of (outside s) (b_static b) = b_convert b (cv_val x).
Definition follows (b : binding) s : Prop := copies (b_static b) (b_type b) (b_var b) (b_convert b) s.
(** The numbers of listeners are far from wrapping around. *)
Definition few s (n : nat) : Prop := ∀ t, 0 ≤ fun_id s t ∧ fun_id s t + Z.of_nat n < 2 ^ 64.

Lemma copy_value_ok b s : ready b s →
  ∃ s', ⟨ copy_value b, s ⟩ ⇓ ⟨ tt, s' ⟩ ∧ valued b s' ∧ same_registry s s' ∧ fun_id s' = fun_id s ∧
    ∀ k, k ≠ b_static b → value_of (outside s') k = value_of (outside s) k.
Proof.
  intros [_ (x & Hx & _) _]. unfold copy_value, getValue. rewrite bind_assoc, (bind_ok _ _ _ _ _ (var_at_ok s _ _ x Hx)).
  eexists. split; [reflexivity|]. split_and!; [exists x; cbn; by rewrite decide_True|done|done|]. intros k Hk. cbn. by rewrite decide_False.
Qed.

Lemma ready_same b s s' : same_registry s s' → fun_id s' = fun_id s → ready b s → ready b s'.
Proof.
  intros [Hv Hd] Hf [H1 H2 H3]. split; [by eapply (same_ok s)|by rewrite Hv, Hf|]. intros a t' y id c. rewrite Hv. apply H3.
Qed.

Lemma valued_same b s s' : same_registry s s' → value_of (outside s') (b_static b) = value_of (outside s) (b_static b) → valued b s → valued b s'.
Proof. intros [Hv _] Hk (x & Hx & H). exists x. by rewrite Hv, Hk. Qed.

Lemma copy_values_ok l s :
  NoDup (b_static <$> l) → Forall (λ b, ready b s) l →
  ∃ s', ⟨ copy_values l, s ⟩ ⇓ ⟨ tt, s' ⟩ ∧ Forall (λ b, ready b s' ∧ valued b s') l ∧ same_registry s s' ∧ fun_id s' = fun_id s ∧
    ∀ k, k ∉ b_static <$> l → value_of (outside s') k = value_of (outside s) k.
Proof.
  revert s. induction l as [|b l IH]; intros s Hnd Hr; [exists s; by split_and!|]. apply NoDup_cons in Hnd as [Hb Hnd].
  apply Forall_cons in Hr as [Hrb Hr]. destruct (copy_value_ok b s Hrb) as (s1 & E1 & V1 & R1 & F1 & K1). cbn [copy_values].
  rewrite (bind_ok _ _ _ _ _ E1). destruct (IH s1 Hnd) as (s2 & E2 & L2 & R2 & F2 & K2).
  { eapply Forall_impl; [exact Hr|]. intros b' Hb'. by eapply ready_same. }
  assert (same_registry s s2) as R by (destruct R1, R2; split; congruence). exists s2. split; [done|]. split_and!; [|done|congruence|].
  - constructor; [|done]. split; [eapply ready_same; [done|congruence|done]|]. eapply valued_same; [exact R2|by apply K2|done].
  - intros k Hk. cbn in Hk. rewrite K2, K1 by set_solver. done.
Qed.

(** The listener is added: from now on the static follows. *)
Lemma add_copier_ok b s n : ready b s → valued b s → few s (1 + n) →
  ∃ s', ⟨ add_copier b, s ⟩ ⇓ ⟨ tt, s' ⟩ ∧ follows b s' ∧ few s' n ∧ outside s' = outside s.
Proof.
  intros [H1 (x & Hx & H2) H3] (x' & Hx' & Hv) Hf. assert (anyvar _ x = anyvar _ x') as E%anyvar_inj by congruence. subst x'.
  unfold add_copier. rewrite (bind_ok _ _ _ _ _ (addListener_eq s _ _ x _ Hx)). pose proof (Hf (b_type b)) as Hfb.
  rewrite (wrapu_small 64) by (unfold in_u; lia). set (id := fun_id s (b_type b) + 1). eexists. split; [reflexivity|].
  split_and!; [|intros t; cbn; pose proof (Hf t); case_decide; [subst t|]; lia|done].
  set (s1 := set_fun_id _ s).
  assert (fun_id s1 (b_type b) = id) as Hid by (cbn; by rewrite decide_True).
  split; [exact (proj1 (put_listeners_ok s1 _ _ x _ (proj1 (same_ok s s1 ltac:(done) H1)) Hx))| | |].
  - eexists. cbn. rewrite lookup_insert_eq. split_and!; [done|done| |].
    + exists id. destruct (assign_split id (Assign (b_static b) (b_convert b)) (cv_cbs x)) as (p & r & -> & _). cbn. set_solver.
    + intros i c [[-> ->]|Hin]%assign_in; [done|]. split; [by apply (H2 i c)|]. intros Ha. by rewrite (H3 _ _ x i c Hx Hin) in Ha.
  - change (fun_id (var_put _ _ s1) (b_type b)) with (fun_id s1 (b_type b)). rewrite Hid. split; [lia|].
    intros x2 i c. cbn. rewrite lookup_insert_eq. intros E%Some_inj%anyvar_inj. subst x2. cbn.
    intros [[-> _]|Hin]%assign_in; [lia|]. destruct (H2 i c Hin). lia.
  - intros a t' y i c. cbn. destruct (decide (a = b_var b)) as [->|Hne]; [done|]. rewrite lookup_insert_ne by done.
    intros Hy Hin Ha. by rewrite (H3 a t' y i c Hy Hin) in Ha.
Qed.

(** Another static is left as it is. *)
Lemma add_copier_other b b' s :
  b_static b' ≠ b_static b → b_var b' ≠ b_var b → has_type s (b_type b) (b_var b) → few s 1 →
  ∀ s', ⟨ add_copier b, s ⟩ ⇓ ⟨ tt, s' ⟩ → (ready b' s → ready b' s') ∧ (valued b' s → valued b' s') ∧ (follows b' s → follows b' s').
Proof.
  intros Hk Ha [x Hx] Hf s'. unfold add_copier. rewrite (bind_ok _ _ _ _ _ (addListener_eq s _ _ x _ Hx)). intros [= <-].
  pose proof (Hf (b_type b)) as Hfb. set (id := u64 _). set (s1 := set_fun_id _ s).
  assert (id = fun_id s (b_type b) + 1) as Hid by (apply wrapu_small; unfold in_u; lia). split_and!.
  - intros [H1 (y & Hy & H2) H3]. split.
    + exact (proj1 (put_listeners_ok s1 _ _ x _ (proj1 (same_ok s s1 ltac:(done) H1)) Hx)).
    + exists y. cbn. rewrite lookup_insert_ne by done. split; [done|]. intros i c Hin. destruct (H2 i c Hin). case_decide as E; [|done].
      split; [done|]. rewrite E in *. lia.
    + intros a t' z i c. cbn. destruct (decide (a = b_var b)) as [->|Hne]; [|rewrite lookup_insert_ne by done; apply H3].
      rewrite lookup_insert_eq. intros E%Some_inj. pose proof (f_equal var_type E) as Ht. cbn in Ht. subst t'. apply anyvar_inj in E. subst z.
      intros [[_ ->]|Hin]%assign_in; [cbn; by apply bool_decide_false|by eapply H3].
  - intros (y & Hy & H). exists y. cbn. by rewrite lookup_insert_ne.
  - intros H. eapply (add_copies (N := unit) (K := unit) _ _ _ _ s (b_var b) (b_type b) (Assign (b_static b) (b_convert b)) H).
    + by exists x.
    + split; [cbn; by apply bool_decide_false|]. split; [done|lia].
    + left. eexists. by rewrite (addListener_eq s _ _ x _ Hx).
Qed.

Lemma add_copiers_ok l n s :
  NoDup (b_static <$> l) → NoDup (b_var <$> l) → Forall (λ b, ready b s ∧ valued b s) l → few s (length l + n) →
  ∃ s', ⟨ add_copiers l, s ⟩ ⇓ ⟨ tt, s' ⟩ ∧ Forall (λ b, follows b s') l ∧ few s' n ∧
    ∀ b', b_static b' ∉ b_static <$> l → b_var b' ∉ b_var <$> l → (ready b' s → ready b' s') ∧ (follows b' s → follows b' s').
Proof.
  revert s. induction l as [|b l IH]; intros s Hk Ha Hr Hf; [by exists s|].
  apply NoDup_cons in Hk as [Hkb Hk]. apply NoDup_cons in Ha as [Hab Ha]. apply Forall_cons in Hr as [[Hrb Hvb] Hr].
  destruct (add_copier_ok b s (length l + n) Hrb Hvb Hf) as (s1 & E1 & F1 & N1 & O1). cbn [add_copiers]. rewrite (bind_ok _ _ _ _ _ E1).
  assert (few s 1) as Hf1 by (intros t; specialize (Hf t); cbn [length] in Hf; lia).
  assert (has_type s (b_type b) (b_var b)) as Ht by (destruct (rd_var _ _ Hrb) as (x & Hx & _); by exists x).
  destruct (IH s1 Hk Ha) as (s2 & E2 & F2 & N2 & K2); [|done|].
  { apply Forall_forall. intros b' Hb'. rewrite Forall_forall in Hr. destruct (Hr b' Hb').
    destruct (add_copier_other b b' s) with (s' := s1) as (A1 & A2 & _); [..|by split; auto]; try done;
      intros E; [apply Hkb|apply Hab]; rewrite <- E; by apply list_elem_of_fmap_2. }
  exists s2. split; [done|]. split_and!; [|done|].
  - constructor; [|done]. by apply K2.
  - intros b' H1 H2. cbn in H1, H2. destruct (K2 b') as [A1 A2]; [set_solver|set_solver|].
    destruct (add_copier_other b b' s) with (s' := s1) as (B1 & _ & B2); [set_solver|set_solver|done|done|done|]. auto.
Qed.

(** An initer, and what it does to other bindings. *)
Lemma initer_ok l n s :
  NoDup (b_static <$> l) → NoDup (b_var <$> l) → Forall (λ b, ready b s) l → few s (length l + n) →
  ∃ s', ⟨ initer l, s ⟩ ⇓ ⟨ tt, s' ⟩ ∧ Forall (λ b, follows b s') l ∧ few s' n ∧
    ∀ b', b_static b' ∉ b_static <$> l → b_var b' ∉ b_var <$> l → (ready b' s → ready b' s') ∧ (follows b' s → follows b' s').
Proof.
  intros Hk Ha Hr Hf. destruct (copy_values_ok l s Hk Hr) as (s1 & E1 & L1 & R1 & F1 & K1). unfold initer. rewrite (bind_ok _ _ _ _ _ E1).
  destruct (add_copiers_ok l n s1 Hk Ha L1) as (s2 & E2 & L2 & N2 & K2); [by intros t; rewrite F1|].
  exists s2. split; [done|]. split_and!; [done..|]. intros b' H1 H2. destruct (K2 b' H1 H2) as [A1 A2]. split; intros H.
  - apply A1. by eapply ready_same.
  - apply A2. eapply copies_outside; [exact H|done|by apply K1|done].
Qed.

(** After the initers a static follows its variable through all quiet calls. *)
Lemma initers_follow {N K} `{YM : Yaml N} `{FS : FileSystem K} (mtime : K → str → Z) (LoadFile : K → str → option N)
  t_int int_to_u64 g t_u64 u64_value g1 g2 g3 g4 s0 :
  let all := timeouts t_int int_to_u64 g ++ sizes t_u64 u64_value g1 g2 g3 g4 in
  NoDup [g; g1; g2; g3; g4] → Forall (λ b, ready b s0) all → few s0 5 →
  ∃ s1, ⟨ (HookIniter t_int int_to_u64 g;; RequestSizeIniter t_u64 u64_value g1 g2 g3 g4), s0 ⟩ ⇓ ⟨ tt, s1 ⟩ ∧
    ∀ b s2, b ∈ all → rtc (cstep_quiet (b_static b) (b_var b) mtime LoadFile) s1 s2 →
      ∃ x, vars s2 !! b_var b = Some (anyvar (b_type b) x) ∧ value_of (outside s2) (b_static b) = b_convert b (cv_val x).
Proof.
  intros all Hnd Hr Hf. apply Forall_app in Hr as [Hr1 Hr2]. apply NoDup_cons in Hnd as [Hg Hnd].
  destruct (initer_ok (timeouts t_int int_to_u64 g) 4 s0) as (sa & Ea & La & Na & Ka); [by apply NoDup_singleton..|done|done|].
  destruct (initer_ok (sizes t_u64 u64_value g1 g2 g3 g4) 0 sa) as (sb & Eb & Lb & _ & Kb); [|exact Hnd| |done|].
  { cbn. repeat (constructor; [set_solver|]). constructor. }
  { rewrite Forall_forall in Hr2 |- *. intros b Hb. apply Ka; [| |by apply Hr2].
    - cbn in Hb |- *. set_solver.
    - cbn in Hb |- *. set_solver. }
  exists sb. split; [unfold HookIniter; by rewrite (bind_ok _ _ _ _ _ Ea)|]. intros b s2 Hb Hst.
  assert (follows b sb) as Hfb.
  { apply elem_of_app in Hb as [Hb|Hb]; [|rewrite Forall_forall in Lb; by apply Lb].
    rewrite Forall_forall in La. pose proof (La b Hb). cbn in Hb. apply list_elem_of_singleton in Hb. subst b.
    apply Kb; [cbn; set_solver|exact Hg|done]. }
  assert (follows b s2) as Hf2.
  { clear -Hst Hfb. induction Hst as [s|sx sy sz H1 _ IH]; [done|]. apply IH. by eapply quiet_copies. }
  destruct (cp_var _ _ _ _ _ Hf2) as (x & Hx & Hv & _). by exists x.
Qed.

(** [v] is the value of the variable at [a]. *)
Definition value_at s (a : nat) (t : ty) (convert : val t → Z) (v : Z) : Prop :=
  ∃ x, vars s !! a = Some (anyvar t x) ∧ v = convert (cv_val x).

(** C24: The statics follow their variables. Let the initers run on variables that
    are there, that have no listener which throws, and that nobody copies yet.
    Then s_connect_timeout is the value of tcp.connect.timeout, as uint64_t, and
    the four sizes that HttpRequestParser and HttpResponseParser give are those of
    their variables, in every state that calls of Config and ConfigVar reach, when
    for the variable in question these calls remove no listener, add none that
    throws, and add none elsewhere that assigns to the static. (A listener that
    throws parts the two, [throwing_listener_parts].) *)
Theorem statics_follow {N K} `{YM : Yaml N} `{FS : FileSystem K} (mtime : K → str → Z) (LoadFile : K → str → option N)
  t_int int_to_u64 g_tcp_connect_timeout t_u64 u64_value g_request_buffer g_request_body g_response_buffer g_response_body s0 :
  NoDup [g_tcp_connect_timeout; g_request_buffer; g_request_body; g_response_buffer; g_response_body] → few s0 5 →
  ready (mkBinding s_connect_timeout t_int int_to_u64 g_tcp_connect_timeout) s0 →
  ready (mkBinding s_http_request_buffer_size t_u64 u64_value g_request_buffer) s0 →
  ready (mkBinding s_http_request_max_body_size t_u64 u64_value g_request_body) s0 →
  ready (mkBinding s_http_response_buffer_size t_u64 u64_value g_response_buffer) s0 →
  ready (mkBinding s_http_response_max_body_size t_u64 u64_value g_response_body) s0 →
  ∃ s1, ⟨ (HookIniter t_int int_to_u64 g_tcp_connect_timeout;;
           RequestSizeIniter t_u64 u64_value g_request_buffer g_request_body g_response_buffer g_response_body), s0 ⟩ ⇓ ⟨ tt, s1 ⟩ ∧
    ∀ s2,
      (rtc (cstep_quiet s_connect_timeout g_tcp_connect_timeout mtime LoadFile) s1 s2 →
       value_at s2 g_tcp_connect_timeout t_int int_to_u64 (value_of (outside s2) s_connect_timeout)) ∧
      (rtc (cstep_quiet s_http_request_buffer_size g_request_buffer mtime LoadFile) s1 s2 →
       value_at s2 g_request_buffer t_u64 u64_value (GetHttpRequestBufferSize s2)) ∧
      (rtc (cstep_quiet s_http_request_max_body_size g_request_body mtime LoadFile) s1 s2 →
       value_at s2 g_request_body t_u64 u64_value (GetHttpRequestMaxBodySize s2)) ∧
      (rtc (cstep_quiet s_http_response_buffer_size g_response_buffer mtime LoadFile) s1 s2 →
       value_at s2 g_response_buffer t_u64 u64_value (GetHttpResponseBufferSize s2)) ∧
      (rtc (cstep_quiet s_http_response_max_body_size g_response_body mtime LoadFile) s1 s2 →
       value_at s2 g_response_body t_u64 u64_value (GetHttpResponseMaxBodySize s2)).
Proof.
  intros Hnd Hf R0 R1 R2 R3 R4.
  destruct (initers_follow mtime LoadFile t_int int_to_u64 g_tcp_connect_timeout t_u64 u64_value g_request_buffer g_request_body
    g_response_buffer g_response_body s0 Hnd) as (s1 & E & H); [repeat (apply Forall_cons; split; [assumption|]); by apply Forall_nil|done|].
  exists s1. split; [done|]. intros s2.
  split; [exact (H (mkBinding s_connect_timeout t_int int_to_u64 g_tcp_connect_timeout) s2 ltac:(cbn; set_solver))|].
  split; [exact (H (mkBinding s_http_request_buffer_size t_u64 u64_value g_request_buffer) s2 ltac:(cbn; set_solver))|].
  split; [exact (H (mkBinding s_http_request_max_body_size t_u64 u64_value g_request_body) s2 ltac:(cbn; set_solver))|].
  split; [exact (H (mkBinding s_http_response_buffer_size t_u64 u64_value g_response_buffer) s2 ltac:(cbn; set_solver))|].
  exact (H (mkBinding s_http_response_max_body_size t_u64 u64_value g_response_body) s2 ltac:(cbn; set_solver)).
Qed.
End Statics.

(** ** The variables of the two files *)

Definition start_conf : Conf (Statics unit) := Conf_new (statics_new tt).
Definition static_names : list (str * Z) :=
  [(L "tcp.connect.timeout", 5000); (L "http.request.buffer.size", 4 * 1024); (L "http.request.max_body_size", 64 * 1024 * 1024);
   (L "http.response.buffer_size", 4 * 1024); (L "http.response.max_body_size", 64 * 1024 * 1024)].
Fixpoint look_up_all (l : list (str * Z)) : M (Conf (Statics unit)) (list nat) :=
  match l with
  | [] => mret []
  | (n, v) :: l' => a ← Lookup num n v []; rest ← look_up_all l'; mret (match a with Some a => a :: rest | None => rest end)
  end.
Definition static_conf : Conf (Statics unit) := match look_up_all static_names start_conf with Ok _ s => s | _ => start_conf end.
Definition static_addresses : list nat := match look_up_all static_names start_conf with Ok l _ => l | _ => [] end.
Definition static_at (i : nat) : nat := nth i static_addresses 0%nat.

Lemma static_lookups : look_up_all static_names start_conf = Ok static_addresses static_conf.
Proof.
  assert (match look_up_all static_names start_conf with Ok _ _ => true | _ => false end = true) as H by (vm_compute; reflexivity).
  unfold static_addresses, static_conf. by destruct (look_up_all static_names start_conf).
Qed.

Lemma static_conf_step : rtc (cstep demo_mtime demo_load) start_conf static_conf.
Proof.
  assert (∀ l s r s', look_up_all l s = Ok r s' → rtc (cstep demo_mtime demo_load) s s') as H.
  { induction l as [|[n v] l IH]; intros s r s'; cbn [look_up_all]; [by intros [= _ <-]|].
    intros (a & s1 & E1 & (r' & s2 & E2 & [= _ <-])%bind_inv_ok)%bind_inv_ok. eapply rtc_l; [|by eapply IH].
    exists (CLookup num n v []). split; [done|]. left. exists tt. cbn [cexec]. by rewrite (bind_ok _ _ _ _ _ E1). }
  exact (H static_names _ static_addresses _ static_lookups).
Qed.

(** After the lookups there are five variables without listeners. *)
Lemma static_vars a x : vars static_conf !! a = Some x → ∃ n v, x = anyvar num (mkVar n [] v []).
Proof.
  assert (∀ l s r s', look_up_all l s = Ok r s' → (∀ b y, vars s !! b = Some y → ∃ n v, y = anyvar num (mkVar n [] v [])) →
    ∀ b y, vars s' !! b = Some y → ∃ n v, y = anyvar num (mkVar n [] v [])) as H.
  { induction l as [|[n v] l IH]; intros s r s'; cbn [look_up_all]; [by intros [= _ <-]|].
    intros (b & s1 & E1 & (r' & s2 & E2 & [= _ <-])%bind_inv_ok)%bind_inv_ok Hs. eapply (IH _ _ _ E2).
    revert E1. unfold Lookup. rewrite (bind_ok _ _ _ _ _ (eq_refl : mget s = Ok s s)). destruct (map_find _ _ _) as [b'|].
    - mred. destruct (vars s !! b'); [by intros [= _ <-]|done].
    - destruct (valid_name n); [|done]. intros [= _ <-] b'' y. cbn. intros [[<- <-]|[_ Hy]]%lookup_insert_Some; [by eexists _, _|by eapply Hs]. }
  apply (H static_names _ _ _ static_lookups). intros b y Hy. unfold start_conf, Conf_new in Hy. cbn [vars] in Hy. by rewrite lookup_empty in Hy.
Qed.

Lemma static_ready b : b_type b = num → is_Some (vars static_conf !! b_var b) → ready b static_conf.
Proof.
  intros Ht [y Hy]. destruct (csteps_ok _ _ _ _ (Conf_new_ok _) static_conf_step) as [Hok _].
  destruct b as [k t f a]. cbn in *. subst t. destruct (static_vars a y Hy) as (n & v & ->). split; cbn.
  - exact Hok.
  - exists (mkVar n [] v []). split; [done|]. intros id c Hin. by apply not_elem_of_nil in Hin.
  - intros a' t' y' id c Hy' Hin. destruct (static_vars a' _ Hy') as (n' & v' & E). pose proof (f_equal var_type E) as Ht. cbn in Ht. subst t'.
    apply anyvar_inj in E. subst y'. by apply not_elem_of_nil in Hin.
Qed.

Lemma statics_follow_witness :
  ∃ s1, (HookIniter num u64 (static_at 0);; RequestSizeIniter num (λ v, v) (static_at 1) (static_at 2) (static_at 3) (static_at 4)) static_conf = Ok tt s1 ∧
    value_at s1 (static_at 1) num (λ v, v) (GetHttpRequestBufferSize s1) ∧ value_at s1 (static_at 2) num (λ v, v) (GetHttpRequestMaxBodySize s1).
Proof.
  destruct (statics_follow demo_mtime demo_load num u64 (static_at 0) num (λ v, v) (static_at 1) (static_at 2) (static_at 3) (static_at 4) static_conf)
    as (s1 & E & H).
  - apply (bool_decide_unpack _). vm_compute. exact I.
  - intros t. assert (fun_id static_conf t = 0) as -> by (destruct t; vm_compute; reflexivity). lia.
  - apply static_ready; [reflexivity|]. apply (bool_decide_unpack _). vm_compute. exact I.
  - apply static_ready; [reflexivity|]. apply (bool_decide_unpack _). vm_compute. exact I.
  - apply static_ready; [reflexivity|]. apply (bool_decide_unpack _). vm_compute. exact I.
  - apply static_ready; [reflexivity|]. apply (bool_decide_unpack _). vm_compute. exact I.
  - apply static_ready; [reflexivity|]. apply (bool_decide_unpack _). vm_compute. exact I.
  - exists s1. split; [exact E|]. destruct (H s1) as (_ & H1 & H2 & _). split; [exact (H1 (rtc_refl _ _))|exact (H2 (rtc_refl _ _))].
Defined.

(** A listener that throws ends setValue before the value is assigned; a static
    that was assigned before is then no copy any more. *)
Definition thrower : listener (O := unit) num := Other (λ _ _, mthrow (logic_error "")).
Definition thrown_at : ConfigVar (W := Statics unit) num := mkVar (t := num) (L "x") [] (1 : val num) [(1, Assign (t := num) s_connect_timeout u64); (2, thrower)].
Lemma throwing_listener_parts :
  let s := mkConf {[0%nat := anyvar num thrown_at]} [] (λ _, 2) [] (assign_static s_connect_timeout 1 (statics_new tt)) in
  ∃ s', fromString num 0 (to_string 7) s = Ok false s' ∧ value_of (outside s') s_connect_timeout = 7 ∧ vars s' !! 0%nat = Some (anyvar num thrown_at).
Proof. eexists. split; [reflexivity|]. split; reflexivity. Qed.
