(* ===== verification/HttpSystem.v ===== *)
(** HttpServer as a whole (skt/http/http_server.cpp over skt/tcp_server and
    skt/http/http_session.cpp): the tasks of [TcpServer], with
    HttpServer::handleClient of [Session] as the function of clients.

    Behind every connected descriptor is a peer, the script of [Stream] that comes
    with the connection. A client's task is one step: it uses its own socket and
    peer only, and no other task uses these. *)

From stdpp Require Import base list gmap sets strings.
From Stdlib Require Import Lia.
From S2P Require Import Prelude Hook CString Address Socket SocketProps TcpServer TcpServerProps.
From S2P Require Import Http Servlet Ragel HttpTable HttpParser HttpParserSafe HttpRoundtrip Stream Session SessionProps.

Record Serving (K : Type) : Type := mkServing { sg_server : Server K; sg_peers : gmap Z Conn }.
Arguments mkServing {K} _ _.
Arguments sg_server {K} _.
Arguments sg_peers {K} _.

Section System.
Context {K : Type} `{KN : Kernel K} `{NT : Net K} `{RC : Reactor K}.
(** The configuration of sessions, the server's members and its dispatcher; the
    bounds of handleClient. *)
Context (buff_size : Z) (mem : http_parser) (lexical_cast : str → option Z).
Context {H : Type} `{HH : Handler H} (m_isKeepalive : bool) (handler : H) (fuel io : nat).
Abbreviation serving := (M (Serving K)).

Definition on_server {A} (c : M (Server K) A) : serving A := λ s,
  match c (sg_server s) with
  | Ok r v => Ok r (mkServing v (sg_peers s))
  | Exc e v => Exc e (mkServing v (sg_peers s))
  | Stop u => Stop u
  | NoFuel => NoFuel
  end.
Definition set_peer (fd : Z) (c : Conn) : serving unit := mmodify (λ s, mkServing (sg_server s) (<[fd := c]> (sg_peers s))).

(** The peer of a socket; isConnected() is m_isConnected. *)
Definition conn_of (s : Serving K) (x : Socket) : Conn :=
  match sg_peers s !! m_sock x with
  | Some c => mkConn (c_in c) (c_caps c) (c_out c) (m_isConnected x)
  | None => mkConn [] [] [] (m_isConnected x)
  end.

(** HttpServer::handleClient(client) with its session, whose close is that of the
    socket, and whose destructor closes it again. An exception ends the fiber;
    the session is destroyed. *)
Definition handle_client (client : nat) : serving unit :=
  s ← mget;
  x ← mderef NullDeref (sv_heap (sg_server s) !! client);
  match handleClient buff_size mem lexical_cast fuel io m_isKeepalive (sv_name (sg_server s)) handler (conn_of s x) with
  | Ok _ c =>
    set_peer (m_sock x) c;;
    (if c_open c then mret tt else on_server (at_object client Socket.close);; mret tt);;
    on_server (at_object client Socket.close);; mret tt
  | Exc _ c => set_peer (m_sock x) c;; on_server (at_object client Socket.close);; mret tt
  | Stop u => mstop u
  | NoFuel => mnofuel
  end.

(** The next step of a task; [peer]: who connects, when accept returns a client. *)
Definition run_http (i : nat) (peer : Conn) : serving unit :=
  s ← mget;
  match sv_tasks (sg_server s) !! i with
  | Some (TClient client) => handle_client client;; on_server (end_task i;; drop_ref client)
  | _ =>
    on_server (run_task i);;
    s' ← mget;
    match drop (length (sv_tasks (sg_server s))) (sv_tasks (sg_server s')) with
    | [TClient c] =>
      match sv_heap (sg_server s') !! c with Some x => set_peer (m_sock x) peer | None => mret tt end
    | _ => mret tt
    end
  end.

(** Calls of the user, and steps of the workers. *)
Inductive hop : Type := HCall (o : sop) | HRun (i : nat) (peer : Conn).
Definition hexec (o : hop) : serving unit :=
  match o with HCall (SRun _) => mret tt | HCall o => on_server (sexec o) | HRun i peer => run_http i peer end.
Fixpoint hrun (l : list hop) : serving unit := match l with [] => mret tt | o :: l' => hexec o;; hrun l' end.
End System.

Section Serves.
Context {K : Type} `{KN : Kernel K} `{KL : !KernelLaws K} `{NT : Net K} `{RC : Reactor K} `{DS : Descriptors K} `{NL : !NetLaws K}.
Context (base : gset Z).
Context (buff_size : Z) (mem : http_parser) (lexical_cast : str → option Z).
Context {H : Type} `{HH : Handler H} (m_isKeepalive : bool) (handler : H) (fuel io : nat).
Abbreviation handles := (handle_client (K := K) buff_size mem lexical_cast m_isKeepalive handler fuel io).
Abbreviation steps := (run_http (K := K) buff_size mem lexical_cast m_isKeepalive handler fuel io).
Abbreviation runs := (hrun (K := K) buff_size mem lexical_cast m_isKeepalive handler fuel io).
Abbreviation ok := (srv_ok base []).
Abbreviation inv := (srv_inv base).

(** Closing a socket: its descriptor is closed, all else is as before. *)
Lemma close_client s a :
  ok (sg_server s) → a ∈ refs (sg_server s) →
  ∃ x b s', sv_heap (sg_server s) !! a = Some x ∧ ⟨ on_server (at_object a Socket.close), s ⟩ ⇓ ⟨ b, s' ⟩ ∧ ok (sg_server s') ∧
    framed (sg_server s) (sg_server s') ∧ sv_name (sg_server s') = sv_name (sg_server s) ∧ sg_peers s' = sg_peers s ∧
    sv_heap (sg_server s') !! a = Some (set_sock (-1) (set_connected false x)) ∧
    (∀ b, b ≠ a → sv_heap (sg_server s') !! b = sv_heap (sg_server s) !! b).
Proof.
  intros Hs Ha. destruct (at_object_ok base [] (sg_server s) a Socket.close Hs tidy_close) as (x & r & o & Hx & E & _ & E1 & Hs1); [done|].
  exists x, r. eexists. split; [done|]. unfold on_server. rewrite E1. split; [reflexivity|]. cbn. split; [done|]. split; [by split_and!|].
  split; [done|]. split; [done|]. rewrite (close_this _ _ _ E). cbn. rewrite lookup_insert_eq. split; [done|].
  intros b Hb. by rewrite lookup_insert_ne.
Qed.

Lemma client_ref s i a : sv_tasks s !! i = Some (TClient a) → a ∈ refs (K := K) s.
Proof.
  intros Hi. unfold refs. apply elem_of_app. right. apply list_elem_of_omap. eexists. split; [by eapply list_elem_of_lookup_2|done].
Qed.

(** However handleClient ends, when it does the socket is closed. *)
Lemma handle_client_ok s i a :
  ok (sg_server s) → sv_tasks (sg_server s) !! i = Some (TClient a) →
  ∃ x, sv_heap (sg_server s) !! a = Some x ∧
  let r := handleClient buff_size mem lexical_cast fuel io m_isKeepalive (sv_name (sg_server s)) handler (conn_of s x) in
  match r with
  | Ok _ c | Exc _ c =>
    ∃ s', ⟨ handles a, s ⟩ ⇓ ⟨ tt, s' ⟩ ∧ ok (sg_server s') ∧ framed (sg_server s) (sg_server s') ∧
      (∀ b, b ≠ a → sv_heap (sg_server s') !! b = sv_heap (sg_server s) !! b) ∧
      sg_peers s' = <[m_sock x := c]> (sg_peers s) ∧ m_sock x ∉ open_fds (kern (sv_sys (sg_server s')))
  | Stop u => handles a s = Stop u
  | NoFuel => handles a s = NoFuel
  end.
Proof.
  intros Hs Hi. pose proof (client_ref _ _ _ Hi) as Ha. pose proof Ha as Hx. apply (sr_refs _ _ _ Hs) in Hx as [x Hx]. exists x. split; [done|].
  cbv zeta. unfold handle_client. rewrite (bind_ok _ _ _ _ _ (eq_refl : mget s = Ok s s)), Hx. rewrite (bind_ok _ _ s x s) by done.
  assert (∀ c, ∃ b s', ⟨ on_server (at_object a Socket.close), mkServing (sg_server s) (<[m_sock x := c]> (sg_peers s)) ⟩ ⇓ ⟨ b, s' ⟩ ∧
    ok (sg_server s') ∧ framed (sg_server s) (sg_server s') ∧ (∀ b, b ≠ a → sv_heap (sg_server s') !! b = sv_heap (sg_server s) !! b) ∧
    sg_peers s' = <[m_sock x := c]> (sg_peers s) ∧ m_sock x ∉ open_fds (kern (sv_sys (sg_server s')))) as Hclose.
  { intros c. destruct (close_client (mkServing (sg_server s) (<[m_sock x := c]> (sg_peers s))) a Hs Ha) as (x' & b & s' & Hx' & E & Hs' & F & _ & Hp & Hc & Ho).
    assert (x' = x) as -> by (cbn in Hx'; congruence). exists b, s'. split_and!; try done. intros Hin.
    apply (mo_fds _ _ _ (sr_mem _ _ _ Hs')) in Hin. destruct (decide (m_sock x = -1)) as [E1|Hne].
    { pose proof (nl_nonneg (kern (sv_sys (sg_server s'))) (m_sock x)) as Hn. rewrite E1 in *.
      assert (0 ≤ -1) by (apply Hn, (mo_fds _ _ _ (sr_mem _ _ _ Hs')); exact Hin). lia. }
    assert (m_sock x ∈ own x) as Hown by (unfold own; rewrite (proj2 (Z.eqb_neq _ _) Hne); set_solver).
    destruct Hin as [Hb|(b2 & y & Hb2 & Hy)]; [by eapply (mo_base _ _ _ (sr_mem _ _ _ Hs) a x)|].
    destruct (decide (b2 = a)) as [->|Hne2]; [rewrite Hc in Hb2; injection Hb2 as <-; unfold own in Hy; cbn in Hy; set_solver|].
    rewrite Ho in Hb2 by done. apply Hne2. by eapply (mo_one _ _ _ (sr_mem _ _ _ Hs)). }
  destruct (handleClient _ _ _ _ _ _ _ _ _) as [[] c|e c|u|]; [| |done|done].
  - unfold set_peer. rewrite bind_modify. set (s0 := mkServing (sg_server s) (<[m_sock x := c]> (sg_peers s))).
    destruct (Hclose c) as (b & s1 & E & Hs1 & F1 & H1 & P1 & O1). destruct (c_open c).
    + rewrite (bind_ok _ _ s0 tt s0) by done. exists s1. rewrite (bind_ok _ _ _ _ _ E). by split_and!.
    + rewrite bind_assoc, (bind_ok _ _ _ _ _ E). rewrite (bind_ok _ _ s1 tt s1) by done.
      destruct (close_client s1 a Hs1) as (x' & b' & s2 & Hx' & E2 & Hs2 & F2 & _ & P2 & C2 & Ho2); [by rewrite (framed_refs _ _ F1)|].
      exists s2. rewrite (bind_ok _ _ _ _ _ E2). split; [done|]. split; [done|]. split; [|split; [intros b2 Hb2; by rewrite Ho2, H1|split; [congruence|]]].
      * destruct F1 as (A1 & A2 & A3 & A4), F2 as (B1 & B2 & B3 & B4). split_and!; congruence.
      * intros Hin. apply O1. apply (mo_fds _ _ _ (sr_mem _ _ _ Hs2)) in Hin. apply (mo_fds _ _ _ (sr_mem _ _ _ Hs1)).
        destruct Hin as [Hin|(b2 & y & Hb2 & Hy)]; [by left|right]. exists b2, y. split; [|done].
        destruct (decide (b2 = a)) as [->|Hne]; [|by rewrite Ho2 in Hb2]. rewrite C2 in Hb2. injection Hb2 as <-. unfold own in Hy. cbn in Hy. set_solver.
  - unfold set_peer. rewrite bind_modify. destruct (Hclose c) as (b & s1 & E & Hs1 & F1 & H1 & P1 & O1).
    exists s1. rewrite (bind_ok _ _ _ _ _ E). by split_and!.
Qed.

(** The step of a client's task, when handleClient comes to an end. *)
Lemma client_task s i a s1 :
  inv (sg_server s) → sv_tasks (sg_server s) !! i = Some (TClient a) → ok (sg_server s1) → framed (sg_server s) (sg_server s1) →
  (∀ b, b ≠ a → sv_heap (sg_server s1) !! b = sv_heap (sg_server s) !! b) →
  ∃ v, ⟨ on_server (end_task i;; drop_ref a), s1 ⟩ ⇓ ⟨ tt, mkServing v (sg_peers s1) ⟩ ∧ inv v ∧
    framed (set_tasks (delete i (sv_tasks (sg_server s))) (sg_server s)) v ∧
    (∀ b x, sv_heap v !! b = Some x → sv_heap (sg_server s1) !! b = Some x).
Proof.
  intros Hs Hi Hs1 (F1 & F2 & F3 & F4) Hh.
  destruct (end_task_drop base i a (TClient a) (sg_server s1) Hs1) as (v & E & Hv & (G1 & G2 & G3 & G4) & Gh); [by rewrite F2|done|].
  cbn in G1, G2, G3, G4. exists v. unfold on_server. rewrite E. split; [done|]. split; [|split; [by split_and!; cbn; congruence|done]].
  apply (srv_inv_less base (sg_server s)); [done|done|by rewrite G1, F1|..].
  - intros c. rewrite G2, F2. apply delete_elem.
  - intros b x Hb Hx. rewrite <- Hh; [by apply Gh|]. intros ->. rewrite G1, F1 in Hb.
    by apply (si_client _ _ Hs a); [eapply list_elem_of_lookup_2|].
Qed.

(** Steps keep the server in order. *)
Lemma run_http_ok s i peer s' : inv (sg_server s) → ⟨ steps i peer, s ⟩ ⇓ ⟨ tt, s' ⟩ → inv (sg_server s').
Proof.
  intros Hs. unfold run_http. rewrite (bind_ok _ _ _ _ _ (eq_refl : mget s = Ok s s)).
  assert (∀ k : M (Serving K) unit, (∀ t t', k t = Ok tt t' → sg_server t' = sg_server t) →
    (on_server (run_task i);; k) s = Ok tt s' → inv (sg_server s')) as Hplain.
  { intros k Hk. destruct (run_task_ok base i (sg_server s) Hs) as (v & E & Hv).
    rewrite (bind_ok _ _ s tt (mkServing v (sg_peers s))) by (unfold on_server; by rewrite E). intros Ek%Hk. by rewrite Ek. }
  assert (∀ t t' : Serving K, (s'' ← mget; match drop (length (sv_tasks (sg_server s))) (sv_tasks (sg_server s'')) with
    | [TClient c] => match sv_heap (sg_server s'') !! c with Some x => set_peer (m_sock x) peer | None => mret tt end
    | _ => mret tt end) t = Ok tt t' → sg_server t' = sg_server t) as Hk.
  { intros t t'. rewrite (bind_ok _ _ _ _ _ (eq_refl : mget t = Ok t t)).
    destruct (drop _ _) as [|[|c|] [|]]; try by intros [= <-]. destruct (sv_heap _ !! c); by intros [= <-]. }
  destruct (sv_tasks (sg_server s) !! i) as [[a f|a|]|] eqn:Hi; try (by apply Hplain).
  destruct (handle_client_ok s i a (si_ok _ _ Hs) Hi) as (x & Hx & Hh).
  intros ([] & s1 & E1 & E2)%bind_inv_ok. destruct (handleClient _ _ _ _ _ _ _ _ _) as [[] c|e c|u|]; [| |congruence|congruence];
    (destruct Hh as (s1' & E1' & Hs1 & F1 & H1 & _); assert (s1' = s1) as -> by congruence;
     destruct (client_task s i a s1 Hs Hi Hs1 F1 H1) as (v & E & Hv & _); rewrite E in E2; by injection E2 as <-).
Qed.

Lemma hrun_ok l s s' : inv (sg_server s) → ⟨ runs l, s ⟩ ⇓ ⟨ tt, s' ⟩ → inv (sg_server s').
Proof.
  revert s. induction l as [|o l IH]; intros s Hs; [by intros [= <-]|]. cbn [hrun]. intros ([] & s1 & E1 & E2)%bind_inv_ok.
  apply (IH s1); [|done]. destruct o as [o|i peer]; [|by eapply run_http_ok]. cbn [hexec] in E1.
  destruct (srun_ok base [o] (sg_server s) Hs) as (v & Ev & Hv). cbn [srun] in Ev. apply bind_inv_ok in Ev as ([] & v1 & Ev & [= ->]).
  assert (s1 = s ∨ on_server (sexec o) s = Ok tt s1) as [->|E] by (destruct o; first [by right|left; by injection E1 as <-]); [done|].
  unfold on_server in E. rewrite Ev in E. by injection E as <-.
Qed.

Context (Hbuff : 0 < buff_size < 2 ^ 31) (Hcast : ∀ n, 0 ≤ n < 2 ^ 64 → lexical_cast (dec n) = Some n).

(** A client whose request arrives. *)
Definition served_by (name : str) (q : HttpRequest) (extra : str) (peer : Conn) : Prop :=
  request_arrives buff_size q extra peer ∧ caps_ok peer ∧ zlen (p_dump (answer name handler q)) < 2 ^ 63 ∧
  (length (c_in peer) + 2 ≤ io)%nat ∧ (send_rounds peer (zlen (p_dump (answer name handler q))) ≤ io)%nat ∧ (0 < fuel)%nat.

(** The step of a client's task, in any state in order, when its socket is
    connected. *)
Lemma client_step s i a x q extra peer p :
  inv (sg_server s) → sv_tasks (sg_server s) !! i = Some (TClient a) → sv_heap (sg_server s) !! a = Some x →
  m_isConnected x = true → sg_peers s !! m_sock x = Some peer → served_by (sv_name (sg_server s)) q extra peer →
  ∃ s' out, ⟨ steps i p, s ⟩ ⇓ ⟨ tt, s' ⟩ ∧ inv (sg_server s') ∧
    sv_tasks (sg_server s') = delete i (sv_tasks (sg_server s)) ∧ m_socks (sg_server s') = m_socks (sg_server s) ∧
    sg_peers s' = <[m_sock x := out]> (sg_peers s) ∧ (m_sock x ∉ open_fds (kern (sv_sys (sg_server s')))) ∧
    c_open out = false ∧ c_out out = c_out peer ++ p_dump (answer (sv_name (sg_server s)) handler q).
Proof.
  intros Hs Hi Hx Hc Hp (Hr & Hcaps & Hlen & Hin & Hout & Hf). destruct (handle_client_ok s i a (si_ok _ _ Hs) Hi) as (x' & Hx' & Hh).
  assert (x' = x) as -> by congruence. unfold conn_of in Hh. rewrite Hp, Hc in Hh.
  replace (mkConn (c_in peer) (c_caps peer) (c_out peer) true) with peer in Hh by (destruct peer as [? ? ? o]; destruct Hr as [Ho _]; cbn in *; by subst).
  destruct fuel as [|fuel']; [lia|].
  destruct (handleClient_serves buff_size Hbuff mem lexical_cast Hcast fuel' io m_isKeepalive (sv_name (sg_server s)) handler q extra peer)
    as (out & E & Hopen & Hsent); [done..|]. rewrite E in Hh. destruct Hh as (s1 & E1 & Hs1 & F1 & H1 & P1 & Hfd).
  destruct (client_task s i a s1 Hs Hi Hs1 F1 H1) as (v & E2 & Hv & (G1 & G2 & G3 & G4) & Gh).
  exists (mkServing v (sg_peers s1)), out. split.
  { unfold run_http. by rewrite (bind_ok _ _ _ _ _ (eq_refl : mget s = Ok s s)), Hi, (bind_ok _ _ _ _ _ E1). }
  cbn [sg_server sg_peers]. cbn in G1, G2. split_and!; try congruence. intros Hin1. apply Hfd.
  apply (mo_fds _ _ _ (sr_mem _ _ _ (si_ok _ _ Hv))) in Hin1. apply (mo_fds _ _ _ (sr_mem _ _ _ Hs1)).
  destruct Hin1 as [?|(b & y & Hb & Hy)]; [by left|right]. exists b, y. split; [by apply Gh|done].
Qed.

(** The accept step of the server, which attaches the peer to a new client. *)
Lemma accept_http s i a fd peer :
  inv (sg_server s) → sv_tasks (sg_server s) !! i = Some (TAccept a (Some fd)) →
  ∃ s', ⟨ steps i peer, s ⟩ ⇓ ⟨ tt, s' ⟩ ∧ inv (sg_server s') ∧ m_socks (sg_server s') = m_socks (sg_server s) ∧
    sv_name (sg_server s') = sv_name (sg_server s) ∧
    let sock := (accept_done (kern (sv_sys (sg_server s))) fd).1 in
    if sock =? -1
    then sv_tasks (sg_server s') = <[i := TAccept a None]> (sv_tasks (sg_server s)) ∧ sg_peers s' = sg_peers s
    else ∃ c x, sv_tasks (sg_server s') = <[i := TAccept a None]> (sv_tasks (sg_server s)) ++ [TClient c] ∧
      sv_heap (sg_server s') !! c = Some x ∧ m_sock x = sock ∧ m_isConnected x = true ∧
      (sock ∉ open_fds (kern (sv_sys (sg_server s)))) ∧ sg_peers s' = <[sock := peer]> (sg_peers s) ∧
      (fits (i64 (sv_recvTimeout (sg_server s))) →
       getRecvTimeout (mkObj x (sv_sys (sg_server s'))) = Ok (i64 (sv_recvTimeout (sg_server s))) (mkObj x (sv_sys (sg_server s')))).
Proof.
  intros Hs Hi. destruct (run_task_ok base i (sg_server s) Hs) as (v' & Ev & Hv').
  destruct (accept_return_ok base i a fd (sg_server s) (si_ok _ _ Hs) Hi) as (new & v & E & Hv & H1 & _ & [_ H2] & H3 & _ & _ & Hnone & H4).
  assert (run_task i (sg_server s) = Ok tt v) as Er.
  { unfold run_task. by rewrite (bind_ok _ _ _ _ _ (eq_refl : mget (sg_server s) = Ok (sg_server s) (sg_server s))), Hi. }
  assert (v' = v) as -> by congruence. unfold run_http. rewrite (bind_ok _ _ _ _ _ (eq_refl : mget s = Ok s s)), Hi.
  rewrite (bind_ok _ _ s tt (mkServing v (sg_peers s))) by (unfold on_server; by rewrite Er).
  rewrite (bind_ok _ _ _ _ _ (eq_refl : mget (mkServing v (sg_peers s)) = Ok (mkServing v (sg_peers s)) (mkServing v (sg_peers s)))).
  cbn [sg_server]. rewrite H3, drop_app_length' by by rewrite length_insert. destruct new as [c|].
  - destruct (H4 c eq_refl) as (x & Hx & Hc & _ & [Hsk Hne] & Hn & Hrt). rewrite Hx. eexists. split; [reflexivity|]. cbn [sg_server sg_peers].
    split_and!; try done. cbv zeta. rewrite <- Hsk, (proj2 (Z.eqb_neq _ _) Hne). by exists c, x.
  - eexists. split; [reflexivity|]. cbn [sg_server sg_peers]. cbv zeta. rewrite (Hnone eq_refl), app_nil_r in *. by split_and!.
Qed.

End Serves.

(** ** A server with a client *)

#[local] Instance demo_dispatch : Handler (ServletDispatch Z) := ServletDispatch_handle (λ p s, bool_decide (p = s)).
Definition demo_silent : Conn := mkConn [] [] [] true.
(** Bound and started; the accept loop waits in accept. *)
Definition demo_hops : list hop := [HCall (SBind [demo_addr] []); HCall SStart; HRun 0 demo_silent].
Abbreviation demo_run := (hrun (K := demo_net) 4096 blank read_dec true SessionProps.demo_server 1 5).
Abbreviation demo_step := (run_http (K := demo_net) 4096 blank read_dec true SessionProps.demo_server 1 5).
Definition demo_serving : Serving demo_net := mkServing (TcpServer_new 120000 demo_world) ∅.

Lemma demo_listens :
  ∃ s, demo_run demo_hops demo_serving = Ok tt s ∧ sv_tasks (sg_server s) = [TAccept 0 (Some 3)] ∧
    sv_name (sg_server s) = sv_name (sg_server demo_serving) ∧ (accept_done (kern (sv_sys (sg_server s))) 3).1 = 4.
Proof. eexists. split; [vm_compute; reflexivity|]. split; [reflexivity|]. split; [reflexivity|]. vm_compute. reflexivity. Qed.

Lemma demo_client_served : served_by 4096 SessionProps.demo_server 1 5 (sv_name (sg_server demo_serving)) demo_post (L "GET /x") demo_client.
Proof. split; [exact demo_arrives|]. split; [repeat constructor|]. split; [by vm_compute|]. vm_compute. lia. Qed.

