(* ===== verification/HookCalls.v ===== *)
(** The hooked calls with the arguments their callers give (skt/hook/hook.cpp):
    fcntl and ioctl with their variable arguments, getsockopt, connect, the sleeps
    and hook_init, over the calls of [Hook].

    The main theorem is that a program which opens and closes sockets and sets and
    reads status flags cannot tell the hooked calls from the original ones,
    although its sockets do not block in the kernel. *)

From stdpp Require Import base list gmap strings.
From Stdlib Require Import Lia.
From S2P Require Import Prelude IOManager Hook HookProps.

(** ** Variable arguments *)

(** An argument after the last named one: an int, or a pointer. *)
Inductive va : Type := VInt (z : Z) | VPtr (p : Z).

Section Calls.
Context {S : Type}.
(** va_arg of a type: undefined when the next argument is not of the type. *)
Definition va_int (l : list va) : M S Z := match l with VInt z :: _ => mret z | _ => mstop Indeterminate end.
Definition va_ptr (l : list va) : M S Z := match l with VPtr p :: _ => mret p | _ => mstop Indeterminate end.
End Calls.

Definition F_DUPFD := 0.
Definition F_GETFD := 1.
Definition F_SETFD := 2.
Definition F_GETFL := 3.
Definition F_SETFL := 4.
Definition F_GETLK := 5.
Definition F_SETLK := 6.
Definition F_SETLKW := 7.
Definition F_SETOWN := 8.
Definition F_GETOWN := 9.
Definition F_SETSIG := 10.
Definition F_GETSIG := 11.
Definition F_SETOWN_EX := 15.
Definition F_GETOWN_EX := 16.
Definition F_OFD_SETLK := 37.
Definition F_SETLEASE := 1024.
Definition F_GETLEASE := 1025.
Definition F_NOTIFY := 1026.
Definition F_DUPFD_CLOEXEC := 1030.
Definition F_SETPIPE_SZ := 1031.
Definition F_GETPIPE_SZ := 1032.
Definition F_ADD_SEALS := 1033.
Definition FIONBIO := 21537.

(** The original calls beyond those of [Kernel]: fcntl_f of the other commands,
    ioctl_f of the other requests, getsockopt_f. *)
Class Originals (K : Type) : Type := {
  fcntl_f : K → Z → Z → list va → Z * K;
  ioctl_f : K → Z → Z → Z → Z * K;
  getsockopt_f : K → Z → Z → Z → Z → Z → Z * K
}.

Section Hooked.
Context {K : Type} `{KN : Kernel K} `{OR : Originals K}.
(** The int at an address, when there is one. *)
Context (int_at : Z → option Z).
Abbreviation sys := (M (Sys K)).

Definition original {A} (f : K → A * K) : sys A := s ← mget; let '(r, k) := f (kern s) in mput (set_kern k s);; mret r.

(** The commands of fcntl by the type of va_arg. *)
Definition int_cmds : list Z :=
  [F_DUPFD; F_DUPFD_CLOEXEC; F_SETFD; F_SETOWN; F_SETSIG; F_SETLEASE; F_NOTIFY; F_SETPIPE_SZ].
Definition plain_cmds : list Z := [F_GETFD; F_GETOWN; F_GETSIG; F_GETLEASE; F_GETPIPE_SZ].
Definition ptr_cmds : list Z := [F_SETLK; F_SETLKW; F_GETLK; F_GETOWN_EX; F_SETOWN_EX].

Definition fcntl (fd cmd : Z) (args : list va) : sys Z :=
  if cmd =? F_SETFL then arg ← va_int args; fcntl_F_SETFL fd arg
  else if cmd =? F_GETFL then fcntl_F_GETFL fd
  else if decide (cmd ∈ int_cmds) then arg ← va_int args; original (λ k, fcntl_f k fd cmd [VInt arg])
  else if decide (cmd ∈ plain_cmds) then original (λ k, fcntl_f k fd cmd [])
  else if decide (cmd ∈ ptr_cmds) then arg ← va_ptr args; original (λ k, fcntl_f k fd cmd [VPtr arg])
  else original (λ k, fcntl_f k fd cmd []).

Definition ioctl (fd request : Z) (args : list va) : sys Z :=
  arg ← va_ptr args;
  if FIONBIO =? request
  then v ← mderef NullDeref (int_at arg); ioctl_FIONBIO fd (negb (v =? 0))
  else original (λ k, ioctl_f k fd request arg).

Definition getsockopt (sockfd level optname optval optlen : Z) : sys Z :=
  original (λ k, getsockopt_f k sockfd level optname optval optlen).

(** What a program does with the original calls. *)
Definition plain_fcntl (fd cmd : Z) (args : list va) (k : K) : Z * K :=
  if cmd =? F_SETFL then match args with VInt f :: _ => setfl k fd f | _ => (-1, k) end
  else if cmd =? F_GETFL then (getfl k fd, k)
  else fcntl_f k fd cmd args.
End Hooked.

(** connect: the time-out is s_connect_timeout. *)
Definition connect (s_connect_timeout : Z) (hook : bool) (ctx : option FdCtx) : io_result → wait_result → Z + Z → io_out :=
  connect_with_timeout hook ctx s_connect_timeout.

(** The sleeps: the return value, and what is done. The timer of addTimer
    schedules the fiber; [orig] is what the original call returns. *)
Definition sleep (hook : bool) (seconds orig : Z) : Z * list io_act :=
  if negb hook then (orig, [ACall]) else (0, [ATimer (sleep_ms seconds); AYield]).
Definition usleep (hook : bool) (usec orig : Z) : Z * list io_act :=
  if negb hook then (orig, [ACall]) else (0, [ATimer (usleep_ms usec); AYield]).
Definition nanosleep (hook : bool) (tv_sec tv_nsec orig : Z) : Z * list io_act :=
  if negb hook then (orig, [ACall]) else (0, [ATimer (nanosleep_ms tv_sec tv_nsec); AYield]).

(** ** hook_init *)

Definition HOOK_FUN : list string :=
  ["sleep"; "usleep"; "nanosleep"; "socket"; "connect"; "accept"; "read"; "readv"; "recv"; "recvfrom"; "recvmsg";
   "write"; "writev"; "send"; "sendto"; "sendmsg"; "close"; "fcntl"; "ioctl"; "getsockopt"; "setsockopt"].

(** The pointers to the original functions, null before; is_inited is never set. *)
Record Loaded : Type := mkLoaded { is_inited : bool; originals : gmap string Z }.
Definition load (dlsym : string → Z) (t : gmap string Z) (name : string) : gmap string Z := <[name := dlsym name]> t.
Definition hook_init (dlsym : string → Z) (l : Loaded) : Loaded :=
  if is_inited l then l else mkLoaded (is_inited l) (fold_left (load dlsym) HOOK_FUN (originals l)).

Lemma load_all dlsym names t n :
  n ∈ names ∨ t !! n = Some (dlsym n) → fold_left (load dlsym) names t !! n = Some (dlsym n).
Proof.
  revert t. induction names as [|m names IH]; intros t; cbn; [set_solver|]. intros H. apply IH. unfold load.
  destruct (decide (n = m)) as [->|Hne]; [right; by rewrite lookup_insert_eq|]. rewrite lookup_insert_ne by done. set_solver.
Qed.

(** Every hooked function has its original, however often hook_init is called. *)
Lemma hook_init_loads dlsym n k :
  n ∈ HOOK_FUN → originals (Nat.iter (S k) (hook_init dlsym) (mkLoaded false ∅)) !! n = Some (dlsym n).
Proof.
  intros Hn. cbn [Nat.iter]. assert (∀ l, is_inited l = false → originals (hook_init dlsym l) !! n = Some (dlsym n)) as H.
  { intros l Hl. unfold hook_init. rewrite Hl. apply load_all. by left. }
  apply H. induction k as [|k IH]; [done|]. cbn. unfold hook_init at 1. rewrite IH. done.
Qed.

(** ** The flags that a program sees *)

(** Kernels that differ in O_NONBLOCK of descriptors only: no other flag and
    no result of the calls depends on it (fcntl(2), ioctl(2), close(2)). A socket
    is opened without SOCK_NONBLOCK: it blocks. *)
Class FlagLaws (K : Type) `{Kernel K} : Type := {
  alike : K → K → Prop;
  alike_refl k : alike k k;
  alike_open k k0 : alike k k0 →
    (open_socket k).1 = (open_socket k0).1 ∧ alike (open_socket k).2 (open_socket k0).2;
  alike_close k k0 fd : alike k k0 →
    (close_fd k fd).1 = (close_fd k0 fd).1 ∧ alike (close_fd k fd).2 (close_fd k0 fd).2 ∧
    Z.testbit (getfl (close_fd k fd).2 fd) NB = Z.testbit (getfl (close_fd k0 fd).2 fd) NB;
  open_new k : (open_socket k).1 = -1 ∧ (open_socket k).2 = k ∨
    0 ≤ (open_socket k).1 < 2 ^ 30 ∧ fstat_socket k (open_socket k).1 = None ∧
    fstat_socket (open_socket k).2 (open_socket k).1 = Some true ∧
    Z.testbit (getfl (open_socket k).2 (open_socket k).1) NB = false ∧
    ∀ fd, fd ≠ (open_socket k).1 → fstat_socket (open_socket k).2 fd = fstat_socket k fd;
  fstat_close k fd fd' : fd' ≠ fd → fstat_socket (close_fd k fd).2 fd' = fstat_socket k fd';
  alike_bits k k0 fd n : alike k k0 → n ≠ NB → Z.testbit (getfl k fd) n = Z.testbit (getfl k0 fd) n;
  alike_setfl k k0 fd f f0 : alike k k0 → (∀ n, n ≠ NB → Z.testbit f n = Z.testbit f0 n) →
    (setfl k fd f).1 = (setfl k0 fd f0).1 ∧ alike (setfl k fd f).2 (setfl k0 fd f0).2;
  alike_set_nb k k0 fd f : alike k k0 → (∀ n, n ≠ NB → Z.testbit f n = Z.testbit (getfl k fd) n) → alike (setfl k fd f).2 k0;
  alike_nbio k k0 fd on : alike k k0 →
    (fionbio k fd on).1 = (fionbio k0 fd on).1 ∧ alike (fionbio k fd on).2 (fionbio k0 fd on).2;
  nbio_sets k fd on k' : fionbio k fd on = (0, k') → Z.testbit (getfl k' fd) NB = on;
  nbio_fails k fd on rt k' : fionbio k fd on = (rt, k') → rt ≠ 0 → getfl k' fd = getfl k fd;
  nbio_other k fd on rt k' fd' : fionbio k fd on = (rt, k') → fd' ≠ fd → getfl k' fd' = getfl k fd';
  nbio_socket k fd on : fstat_socket k fd = Some true → (fionbio k fd on).1 = 0;
  fstat_setfl k fd f fd' : fstat_socket (setfl k fd f).2 fd' = fstat_socket k fd';
  fstat_nbio k fd on fd' : fstat_socket (fionbio k fd on).2 fd' = fstat_socket k fd'
}.

Section View.
Context {K : Type} `{KN : Kernel K} `{KL : !KernelLaws K} `{OR : Originals K} `{FL : !FlagLaws K}.
Context (int_at : Z → option Z).
Implicit Types s : Sys K.

(** The calls: fcntl(fd, F_GETFL), fcntl(fd, F_SETFL, f), ioctl(fd, FIONBIO, p),
    socket() and close(fd). *)
Inductive flag_call : Type := GetFl (fd : Z) | SetFl (fd f : Z) | NbIo (fd p : Z) | OpenSock | CloseFd (fd : Z).
Definition call_ok (o : flag_call) : Prop :=
  match o with GetFl fd | SetFl fd _ | CloseFd fd => 0 ≤ fd | NbIo fd p => 0 ≤ fd ∧ is_Some (int_at p) | OpenSock => True end.

Definition hooked_call (o : flag_call) : M (Sys K) Z :=
  match o with
  | GetFl fd => fcntl fd F_GETFL []
  | SetFl fd f => fcntl fd F_SETFL [VInt f]
  | NbIo fd p => ioctl int_at fd FIONBIO [VPtr p]
  | OpenSock => socket
  | CloseFd fd => close fd
  end.
Definition plain_call (o : flag_call) (k : K) : Z * K :=
  match o with
  | GetFl fd => plain_fcntl fd F_GETFL [] k
  | SetFl fd f => plain_fcntl fd F_SETFL [VInt f] k
  | NbIo fd p => fionbio k fd (negb (default 0 (int_at p) =? 0))
  | OpenSock => open_socket k
  | CloseFd fd => close_fd k fd
  end.
Fixpoint hooked_calls (l : list flag_call) : M (Sys K) (list Z) :=
  match l with [] => mret [] | o :: l' => r ← hooked_call o; rs ← hooked_calls l'; mret (r :: rs) end.
Fixpoint plain_calls (l : list flag_call) (k : K) : list Z * K :=
  match l with
  | [] => ([], k)
  | o :: l' => let '(r, k1) := plain_call o k in let '(rs, k2) := plain_calls l' k1 in (r :: rs, k2)
  end.

(** The descriptors for which ioctl(FIONBIO) with 0 was the last setting. *)
Definition turn_off (off : gset Z) (o : flag_call) : gset Z :=
  match o with
  | NbIo fd p => if default 0 (int_at p) =? 0 then {[fd]} ∪ off else off ∖ {[fd]}
  | SetFl fd _ | CloseFd fd => off ∖ {[fd]}
  | _ => off
  end.
Definition turned_off (l : list flag_call) : gset Z := foldl turn_off ∅ l.

(** The sockets that the program has opened and not closed. *)
Definition opens (o : flag_call) (r : Z) (opn : gset Z) : gset Z :=
  match o with
  | OpenSock => if r =? -1 then opn else {[r]} ∪ opn
  | CloseFd fd => opn ∖ {[fd]}
  | _ => opn
  end.
Fixpoint opened (l : list flag_call) (k : K) (opn : gset Z) : gset Z :=
  match l with
  | [] => opn
  | o :: l' => let '(r, k') := plain_call o k in opened l' k' (opens o r opn)
  end.

(** O_NONBLOCK of a descriptor as the program sees it. *)
Definition view s (fd : Z) : bool :=
  match ctx_of fd s with Some c => m_userNonblock c | None => Z.testbit (getfl (kern s) fd) NB end.

(** A managed socket: in the kernel it does not block, if not turned off. *)
Definition managed (off : gset Z) (k : K) (fd : Z) (c : FdCtx) : Prop :=
  m_isSocket c = true ∧ m_isClosed c = false ∧ m_sysNonblock c = true ∧ fstat_socket k fd = Some true ∧
  (fd ∉ off → Z.testbit (getfl k fd) NB = true).

(** What the program sees is the kernel [k0]; its sockets are managed. *)
Record same_view (off opn : gset Z) s (k0 : K) : Prop := {
  sv_size : 64 ≤ zlen (m_datas s) < 2 ^ 31;
  sv_hook : t_hook_enable s = true;
  sv_ctx fd c : 0 ≤ fd → ctx_of fd s = Some c → managed off (kern s) fd c;
  sv_open fd : fd ∈ opn → 0 ≤ fd ∧ is_Some (ctx_of fd s);
  sv_alike : alike (kern s) k0;
  sv_flag fd : 0 ≤ fd → Z.testbit (getfl k0 fd) NB = view s fd
}.

Lemma set_bit_nb x n (b : bool) :
  Z.testbit (if b then Z.lor x O_NONBLOCK else Z.land x (Z.lnot O_NONBLOCK)) n = if decide (n = NB) then b else Z.testbit x n.
Proof.
  case_decide as Hn; [subst n; destruct b; [apply testbit_nb|apply testbit_not_nb]|]. unfold O_NONBLOCK.
  destruct (Z.ltb_spec n 0) as [H0|H0]; [rewrite !Z.testbit_neg_r by done; done|].
  assert (Z.testbit (2 ^ NB) n = false) as E by (apply Z.pow2_bits_false; congruence).
  destruct b; [rewrite Z.lor_spec, E; apply orb_false_r|]. rewrite Z.land_spec, Z.lnot_spec, E by done. apply andb_true_r.
Qed.

(** A call on [fd], after which its context is [c]. *)
Lemma view_step off opn off' opn' s k0 fd k k0' d (c : option FdCtx) :
  same_view off opn s k0 → alike k k0' → 64 ≤ zlen d < 2 ^ 31 →
  (∀ fd', 0 ≤ fd' → mjoin (d !! Z.to_nat fd') = if decide (fd' = fd) then c else ctx_of fd' s) →
  (∀ fd', fd' ≠ fd → fstat_socket k fd' = fstat_socket (kern s) fd' ∧ getfl k fd' = getfl (kern s) fd' ∧ getfl k0' fd' = getfl k0 fd') →
  (∀ fd', fd' ≠ fd → fd' ∉ off' → fd' ∉ off) →
  (∀ fd', fd' ∈ opn' → if decide (fd' = fd) then 0 ≤ fd ∧ is_Some c else fd' ∈ opn) →
  match c with
  | Some c => managed off' k fd c ∧ Z.testbit (getfl k0' fd) NB = m_userNonblock c
  | None => Z.testbit (getfl k0' fd) NB = Z.testbit (getfl k fd) NB
  end →
  same_view off' opn' (mkSys k d true) k0'.
Proof.
  intros Hv Ha Hz Hd Ho Hoff Hopn Hc. assert (∀ fd', 0 ≤ fd' → ctx_of fd' (mkSys k d true) = if decide (fd' = fd) then c else ctx_of fd' s) as Hctx
    by (intros fd' H'; unfold ctx_of; cbn; rewrite <- Hd by done; by destruct (d !! Z.to_nat fd')).
  split; cbn; [done|done| | |done|].
  - intros fd' c' H'. rewrite Hctx by done. case_decide as E; [subst fd'; intros ->; apply Hc|]. intros H.
    destruct (sv_ctx _ _ _ _ Hv fd' c' H' H) as (H1 & H2 & H3 & H4 & H5). destruct (Ho fd' E) as (E1 & E2 & _).
    split_and!; try done; [by rewrite E1|]. intros Hn. rewrite E2. by apply H5, Hoff.
  - intros fd' H%Hopn. case_decide as E; [subst fd'; destruct H; by rewrite Hctx, decide_True by done|].
    destruct (sv_open _ _ _ _ Hv fd' H). by rewrite Hctx, decide_False by done.
  - intros fd' H'. unfold view. rewrite Hctx by done. case_decide as E; [subst fd'; destruct c; [apply Hc|apply Hc]|].
    destruct (Ho fd' E) as (_ & E2 & E3). cbn. rewrite E2, E3. by apply (sv_flag _ _ _ _ Hv).
Qed.

(** The table after a context is put or deleted, and when it stays. *)
Lemma put_table fd s (c : option FdCtx) fd' :
  0 ≤ fd < zlen (m_datas s) → 0 ≤ fd' →
  mjoin (<[Z.to_nat fd := c]> (m_datas s) !! Z.to_nat fd') = if decide (fd' = fd) then c else ctx_of fd' s.
Proof.
  intros Hfd H'. unfold ctx_of. case_decide as E; [subst fd'; by rewrite list_lookup_insert_eq by (unfold zlen in *; lia)|].
  by rewrite list_lookup_insert_ne by lia.
Qed.
Lemma same_table fd s fd' : mjoin (m_datas s !! Z.to_nat fd') = if decide (fd' = fd) then ctx_of fd s else ctx_of fd' s.
Proof. unfold ctx_of. case_decide; by subst. Qed.
Lemma usable_managed off opn s k0 fd : same_view off opn s k0 → 0 ≤ fd → usable (ctx_of fd s) = ctx_of fd s.
Proof.
  intros Hv Hfd. destruct (ctx_of fd s) as [c|] eqn:E; [|done]. destruct (sv_ctx _ _ _ _ Hv fd c Hfd E) as (H1 & H2 & _). unfold usable. by rewrite H1, H2.
Qed.

(** The sockets stay open through a call that changes no entry of the table, or
    puts a context. *)
Lemma open_kept off opn s k0 fd (c : option FdCtx) fd' :
  same_view off opn s k0 → (is_Some (ctx_of fd s) → is_Some c) → fd' ∈ opn →
  if decide (fd' = fd) then 0 ≤ fd ∧ is_Some c else fd' ∈ opn.
Proof. intros Hv Hc H. case_decide; [subst fd'|done]. destruct (sv_open _ _ _ _ Hv fd H). auto. Qed.

(** A call of setfl or fionbio on both kernels. *)
Lemma setfl_others k fd f fd' : fd' ≠ fd → getfl (setfl k fd f).2 fd' = getfl k fd'.
Proof. destruct (setfl k fd f) as [rt k'] eqn:E. by eapply setfl_other. Qed.
Lemma nbio_others k fd on fd' : fd' ≠ fd → getfl (fionbio k fd on).2 fd' = getfl k fd'.
Proof. destruct (fionbio k fd on) as [rt k'] eqn:E. by eapply nbio_other. Qed.
Lemma setfl_bit k fd f :
  Z.testbit (getfl (setfl k fd f).2 fd) NB = if (setfl k fd f).1 =? 0 then Z.testbit f NB else Z.testbit (getfl k fd) NB.
Proof.
  destruct (setfl k fd f) as [rt k'] eqn:E. cbn [fst snd]. destruct (Z.eqb_spec rt 0) as [->|Hne]; [by apply (setfl_sets _ _ _ _ E)|].
  by rewrite (setfl_fails _ _ _ _ _ E).
Qed.
Lemma nbio_bit k fd on :
  Z.testbit (getfl (fionbio k fd on).2 fd) NB = if (fionbio k fd on).1 =? 0 then on else Z.testbit (getfl k fd) NB.
Proof.
  destruct (fionbio k fd on) as [rt k'] eqn:E. cbn [fst snd]. destruct (Z.eqb_spec rt 0) as [->|Hne]; [by apply (nbio_sets _ _ _ _ E)|].
  by rewrite (nbio_fails _ _ _ _ _ E).
Qed.

Lemma get_flags_same off opn s k0 fd :
  same_view off opn s k0 → 0 ≤ fd → fcntl_F_GETFL fd s = Ok (getfl k0 fd) s.
Proof.
  intros Hv Hfd. unfold fcntl_F_GETFL, fcntl_getfl. rewrite (bind_ok _ _ s (getfl (kern s) fd) s) by done.
  rewrite (bind_ok _ _ _ _ _ (get_in_table fd s (sv_size _ _ _ _ Hv) Hfd)). pose proof (sv_flag _ _ _ _ Hv fd Hfd) as Hb. unfold view in Hb.
  rewrite (usable_managed _ _ _ _ _ Hv Hfd).
  destruct (ctx_of fd s) as [c|]; apply (f_equal (λ r, Ok r s)), Z.bits_inj; intros n; [rewrite set_bit_nb; case_decide as Hn; [by subst n|]|];
    [by apply (alike_bits _ _ _ _ (sv_alike _ _ _ _ Hv))|].
  destruct (decide (n = NB)) as [->|Hn]; [done|by apply (alike_bits _ _ _ _ (sv_alike _ _ _ _ Hv))].
Qed.

(** One kernel, after setfl: the other descriptors. *)
Lemma setfl_frame k k0 fd f f0 fd' : fd' ≠ fd →
  fstat_socket (setfl k fd f).2 fd' = fstat_socket k fd' ∧ getfl (setfl k fd f).2 fd' = getfl k fd' ∧ getfl (setfl k0 fd f0).2 fd' = getfl k0 fd'.
Proof. intros Hne. split_and!; [apply fstat_setfl|by apply setfl_others..]. Qed.
Lemma nbio_frame k k0 fd on fd' : fd' ≠ fd →
  fstat_socket (fionbio k fd on).2 fd' = fstat_socket k fd' ∧ getfl (fionbio k fd on).2 fd' = getfl k fd' ∧ getfl (fionbio k0 fd on).2 fd' = getfl k0 fd'.
Proof. intros Hne. split_and!; [apply fstat_nbio|by apply nbio_others..]. Qed.

Lemma set_flags_same off opn s k0 fd f :
  same_view off opn s k0 → 0 ≤ fd →
  ∃ s', fcntl_F_SETFL fd f s = Ok (setfl k0 fd f).1 s' ∧ same_view (off ∖ {[fd]}) opn s' (setfl k0 fd f).2.
Proof.
  intros Hv Hfd. unfold fcntl_F_SETFL. rewrite (bind_ok _ _ _ _ _ (get_in_table fd s (sv_size _ _ _ _ Hv) Hfd)), (usable_managed _ _ _ _ _ Hv Hfd).
  pose proof (sv_flag _ _ _ _ Hv fd Hfd) as Hb. unfold view in Hb. destruct (ctx_of fd s) as [c|] eqn:Hc.
  - destruct (ctx_of_size _ _ _ Hc Hfd) as [Hsz _]. rewrite (bind_ok _ _ _ _ _ (datas_put_spec fd _ s Hsz)).
    destruct (sv_ctx _ _ _ _ Hv fd c Hfd Hc) as (H1 & H2 & H3 & H4 & _). rewrite H3.
    destruct (alike_setfl (kern s) k0 fd (Z.lor f O_NONBLOCK) f (sv_alike _ _ _ _ Hv)) as [Hr Ha];
      [intros n Hn; rewrite (set_bit_nb f n true); by rewrite decide_False|].
    pose proof (setfl_bit (kern s) fd (Z.lor f O_NONBLOCK)) as Hbit. rewrite setfl_socket, testbit_nb in Hbit by done. cbn in Hbit.
    pose proof (setfl_socket (kern s) fd (Z.lor f O_NONBLOCK) H4) as Hz. pose proof (fstat_setfl (kern s) fd (Z.lor f O_NONBLOCK) fd) as Hst.
    pose proof (setfl_frame (kern s) k0 fd (Z.lor f O_NONBLOCK) f) as Hfr. unfold fcntl_setfl. mred. cbn [kern set_datas].
    destruct (setfl (kern s) fd _) as [rt k] eqn:E. cbn [fst snd] in *. eexists. split; [by rewrite Hr|]. unfold set_kern, set_datas. cbn [m_datas t_hook_enable kern]. rewrite (sv_hook _ _ _ _ Hv).
    apply (view_step off opn _ _ s k0 fd k _ _ (Some (with_user (negb (Z.land f O_NONBLOCK =? 0)) c))); try done;
      [unfold zlen; rewrite length_insert; apply Hv|intros fd' ?; by apply put_table|set_solver|intros fd'; by eapply open_kept|].
    split; [by split_and!; cbn; [..|congruence|]|]. rewrite setfl_bit, <- Hr, Hz. cbn. by rewrite land_nb.
  - destruct (alike_setfl (kern s) k0 fd f f (sv_alike _ _ _ _ Hv)) as [Hr Ha]; [done|]. pose proof (setfl_bit (kern s) fd f) as Hbit.
    pose proof (setfl_frame (kern s) k0 fd f f) as Hfr. unfold fcntl_setfl. mred. destruct (setfl (kern s) fd f) as [rt k] eqn:E. cbn [fst snd] in *.
    eexists. split; [by rewrite Hr|]. unfold set_kern. rewrite (sv_hook _ _ _ _ Hv).
    apply (view_step off opn _ _ s k0 fd k _ _ None); try done; [apply Hv|intros fd' _; rewrite <- Hc; apply same_table|set_solver|intros fd'; eapply open_kept; [done|by rewrite Hc]|].
    rewrite setfl_bit, Hbit, <- Hr. by rewrite Hb.
Qed.

Lemma nbio_same off opn s k0 fd (on : bool) :
  same_view off opn s k0 → 0 ≤ fd →
  ∃ s', ioctl_FIONBIO fd on s = Ok (fionbio k0 fd on).1 s' ∧
    same_view (if on then off ∖ {[fd]} else {[fd]} ∪ off) opn s' (fionbio k0 fd on).2.
Proof.
  intros Hv Hfd. unfold ioctl_FIONBIO. rewrite (bind_ok _ _ _ _ _ (get_in_table fd s (sv_size _ _ _ _ Hv) Hfd)), (usable_managed _ _ _ _ _ Hv Hfd).
  destruct (alike_nbio (kern s) k0 fd on (sv_alike _ _ _ _ Hv)) as [Hr Ha]. pose proof (nbio_bit (kern s) fd on) as Hbit.
  pose proof (nbio_socket (kern s) fd on) as Hsock. pose proof (fstat_nbio (kern s) fd on fd) as Hst. pose proof (nbio_frame (kern s) k0 fd on) as Hfr.
  assert (∀ fd', fd' ≠ fd → fd' ∉ (if on then off ∖ {[fd]} else {[fd]} ∪ off) → fd' ∉ off) as Hoff by (destruct on; set_solver).
  pose proof (sv_flag _ _ _ _ Hv fd Hfd) as Hb. unfold view in Hb.
  destruct (fionbio (kern s) fd on) as [rt k] eqn:E. cbn [fst snd] in *. destruct (ctx_of fd s) as [c|] eqn:Hc.
  - destruct (ctx_of_size _ _ _ Hc Hfd) as [Hsz _]. rewrite (bind_ok _ _ _ _ _ (datas_put_spec fd _ s Hsz)).
    destruct (sv_ctx _ _ _ _ Hv fd c Hfd Hc) as (H1 & H2 & H3 & H4 & _). specialize (Hsock H4). rewrite Hsock in Hbit, Hr, E. cbn in Hbit.
    mred. cbn [kern set_datas]. rewrite E. eexists. split; [by rewrite Hr|]. unfold set_kern, set_datas. cbn [m_datas t_hook_enable kern]. rewrite (sv_hook _ _ _ _ Hv).
    apply (view_step off opn _ _ s k0 fd k _ _ (Some (with_user on c))); try done; [unfold zlen; rewrite length_insert; apply Hv|intros fd' ?; by apply put_table|intros fd'; by eapply open_kept|].
    split; [|by rewrite nbio_bit, <- Hr]. split_and!; cbn; try done; [congruence|]. intros Hn. rewrite Hbit. destruct on; [done|set_solver].
  - mred. rewrite E. eexists. split; [by rewrite Hr|]. unfold set_kern. rewrite (sv_hook _ _ _ _ Hv).
    apply (view_step off opn _ _ s k0 fd k _ _ None); try done; [apply Hv|intros fd' _; rewrite <- Hc; apply same_table|intros fd'; eapply open_kept; [done|by rewrite Hc]|].
    rewrite nbio_bit, Hbit, <- Hr. by rewrite Hb.
Qed.

Lemma close_same off opn s k0 fd :
  same_view off opn s k0 → 0 ≤ fd → ∃ s', close fd s = Ok (close_fd k0 fd).1 s' ∧ same_view (off ∖ {[fd]}) (opn ∖ {[fd]}) s' (close_fd k0 fd).2.
Proof.
  intros Hv Hfd. unfold close. rewrite (bind_ok _ _ _ _ _ (eq_refl : mget s = Ok s s)), (sv_hook _ _ _ _ Hv). cbn [negb].
  assert (∃ d, (ctx ← get fd false; match ctx with Some _ => del fd | None => mret tt end) s = Ok tt (set_datas d s) ∧ zlen d = zlen (m_datas s) ∧
    ∀ fd', 0 ≤ fd' → mjoin (d !! Z.to_nat fd') = if decide (fd' = fd) then None else ctx_of fd' s) as (d & Ed & Hz & Hd).
  { rewrite (bind_ok _ _ _ _ _ (get_in_table fd s (sv_size _ _ _ _ Hv) Hfd)). destruct (ctx_of fd s) as [c|] eqn:Hc.
    - destruct (ctx_of_size _ _ _ Hc Hfd) as [Hsz _]. exists (<[Z.to_nat fd := None]> (m_datas s)). unfold del. mred.
      assert (i32 (zlen (m_datas s)) = zlen (m_datas s)) as -> by (pose proof (sv_size _ _ _ _ Hv); apply wraps_small; [lia|]; unfold in_s; lia).
      rewrite (proj2 (Z.leb_gt _ _)), datas_put_spec by (done || lia). split; [done|]. split; [unfold zlen; by rewrite length_insert|]. intros. by apply put_table.
    - exists (m_datas s). split; [by destruct s|]. split; [done|]. intros fd' _. rewrite <- Hc. apply same_table. }
  rewrite (bind_ok _ _ _ _ _ Ed). destruct (alike_close (kern s) k0 fd (sv_alike _ _ _ _ Hv)) as (Hr & Ha & Hbit).
  pose proof (fstat_close (kern s) fd) as Hst. pose proof (close_other (kern s) fd) as Ho. pose proof (close_other k0 fd) as Ho0.
  mred. cbn [kern set_datas]. destruct (close_fd (kern s) fd) as [rt k], (close_fd k0 fd) as [rt0 k0']. cbn [fst snd] in *. subst rt0.
  eexists. split; [done|]. unfold set_kern, set_datas. cbn [m_datas t_hook_enable kern]. rewrite (sv_hook _ _ _ _ Hv).
  apply (view_step off opn _ _ s k0 fd k _ _ None); try done; [rewrite Hz; apply Hv| |set_solver|intros fd' ?; rewrite decide_False; set_solver].
  intros fd' Hne. split; [by apply Hst|]. split; [by eapply Ho|by eapply Ho0].
Qed.

Lemma open_same off opn s k0 :
  same_view off opn s k0 → ∃ s', socket s = Ok (open_socket k0).1 s' ∧ same_view off (opens OpenSock (open_socket k0).1 opn) s' (open_socket k0).2.
Proof.
  intros Hv. destruct (alike_open (kern s) k0 (sv_alike _ _ _ _ Hv)) as [Hr Ha]. pose proof (open_new (kern s)) as Hn. pose proof (open_new k0) as Hn0.
  pose proof (open_other (kern s)) as Ho. pose proof (open_other k0) as Ho0.
  unfold socket. mred. destruct (open_socket (kern s)) as [fd k] eqn:E, (open_socket k0) as [fd0 k0'] eqn:E0. cbn [fst snd] in *. subst fd0.
  rewrite (sv_hook _ _ _ _ Hv). cbn [negb]. destruct Hn as [[-> ->]|(Hfd & Hnone & Hst & Hbit & Hfst)].
  { exists s. split; [by destruct s|]. cbn [opens]. destruct Hn0 as [[_ ->]|[? _]]; [done|lia]. }
  destruct Hn0 as [[? _]|(_ & _ & _ & Hbit0 & _)]; [lia|]. rewrite (proj2 (Z.eqb_neq _ _)) by lia.
  assert (ctx_of fd s = None) as Hc.
  { destruct (ctx_of fd s) as [c|] eqn:Hc; [|done]. destruct (sv_ctx _ _ _ _ Hv fd c ltac:(lia) Hc) as (_ & _ & _ & H & _). congruence. }
  set (k1 := (setfl k fd (Z.lor (getfl k fd) O_NONBLOCK)).2).
  assert (FdCtx_new fd (set_kern k s) = Ok (mkCtx true true true false false fd minus1 minus1) (set_kern k1 (set_kern k s))) as Ec.
  { pose proof (land_nb (getfl k fd)) as Hl. rewrite Hbit in Hl. apply negb_false_iff in Hl.
    unfold FdCtx_new. rewrite (bind_ok _ _ _ _ _ (eq_refl : mget (set_kern k s) = Ok (set_kern k s) (set_kern k s))).
    cbn [kern set_kern]. rewrite Hst. rewrite (bind_ok _ _ (set_kern k s) tt (set_kern k1 (set_kern k s))); [done|].
    unfold fcntl_getfl. mred. cbn [kern set_kern]. rewrite Hl. unfold fcntl_setfl. mred. unfold k1. cbn [kern set_kern]. by destruct (setfl k fd _). }
  destruct (get_puts fd (set_kern k s) _ k1 (sv_size _ _ _ _ Hv) Hfd Hc Ec) as (d & Eg & Hz & Hlt & Hd). rewrite Eg.
  eexists. split; [done|]. cbn [t_hook_enable set_kern]. rewrite (sv_hook _ _ _ _ Hv).
  assert (alike k1 k0') as Ha1 by (apply alike_set_nb; [done|]; intros n Hn; rewrite (set_bit_nb _ n true); by rewrite decide_False).
  apply (view_step off opn _ _ s k0 fd k1 k0' _ (Some (mkCtx true true true false false fd minus1 minus1))); try done.
  - unfold zlen in *. by rewrite length_insert.
  - intros fd' H'. case_decide as Ed; [subst fd'; by rewrite list_lookup_insert_eq by (unfold zlen in *; lia)|].
    rewrite list_lookup_insert_ne by lia. apply Hd.
  - intros fd' Hne. destruct (setfl_frame k k fd (Z.lor (getfl k fd) O_NONBLOCK) 0 fd' Hne) as (H1 & H2 & _). fold k1 in H1, H2.
    rewrite H1, H2. split; [by apply Hfst|]. split; [by eapply Ho|by eapply Ho0].
  - cbn [opens]. rewrite (proj2 (Z.eqb_neq _ _)) by lia. intros fd' ?. case_decide; [split; [lia|done]|set_solver].
  - split; [|done]. split_and!; try done; [unfold k1; by rewrite fstat_setfl|]. intros _. unfold k1. rewrite setfl_bit, setfl_socket by done. apply testbit_nb.
Qed.

Lemma calls_same l off opn s k0 :
  same_view off opn s k0 → Forall call_ok l →
  ∃ s', ⟨ hooked_calls l, s ⟩ ⇓ ⟨ (plain_calls l k0).1, s' ⟩ ∧
    same_view (foldl turn_off off l) (opened l k0 opn) s' (plain_calls l k0).2.
Proof.
  intros Hv Hl. revert off opn s k0 Hv. induction Hl as [|o l Ho Hl IH]; intros off opn s k0 Hv; [by exists s|]. cbn [hooked_calls plain_calls foldl opened].
  assert (∃ s1, hooked_call o s = Ok (plain_call o k0).1 s1 ∧ same_view (turn_off off o) (opens o (plain_call o k0).1 opn) s1 (plain_call o k0).2) as (s1 & E & Hv1).
  { destruct o as [fd|fd f|fd p| |fd]; cbn [hooked_call plain_call turn_off call_ok] in *.
    - exists s. split; [by eapply get_flags_same|done].
    - by apply set_flags_same.
    - destruct Ho as [Hfd [v Hp]]. unfold ioctl. rewrite (bind_ok _ _ s p s) by done. rewrite Z.eqb_refl, Hp. rewrite (bind_ok _ _ s v s) by done.
      destruct (nbio_same off opn s k0 fd (negb (v =? 0)) Hv Hfd) as (s1 & E & Hv1). exists s1. change (default 0 (Some v)) with v. split; [done|]. by destruct (v =? 0).
    - by apply open_same.
    - by apply close_same. }
  destruct (plain_call o k0) as [r k1]. destruct (IH _ _ s1 k1 Hv1) as (s2 & E2 & Hv2). destruct (plain_calls l k1) as [rs k2].
  exists s2. split; [|done]. by rewrite (bind_ok _ _ _ _ _ E), (bind_ok _ _ _ _ _ E2).
Qed.

End View.

(** ** Commands that are forwarded *)

Section Forward.
Context {K : Type} `{KN : Kernel K} `{OR : Originals K}.
Implicit Types s : Sys K.

(** The arguments that fcntl(2) documents for the commands the hook names. *)
Definition args_match (cmd : Z) (args : list va) : Prop :=
  (cmd ∈ int_cmds ∧ ∃ a, args = [VInt a]) ∨ (cmd ∈ plain_cmds ∧ args = []) ∨ (cmd ∈ ptr_cmds ∧ ∃ p, args = [VPtr p]).

(** These commands reach the kernel with their argument. *)
Lemma fcntl_forwards fd cmd args s :
  args_match cmd args →
  fcntl fd cmd args s = Ok (fcntl_f (kern s) fd cmd args).1 (set_kern (fcntl_f (kern s) fd cmd args).2 s).
Proof.
  intros H. assert (∀ c : Z, c ∈ int_cmds ++ plain_cmds ++ ptr_cmds → c ≠ F_SETFL ∧ c ≠ F_GETFL) as D0
    by (apply Forall_forall; repeat constructor; vm_compute; discriminate).
  assert (cmd ≠ F_SETFL ∧ cmd ≠ F_GETFL) as [H1 H2] by (apply D0; rewrite !elem_of_app; unfold args_match in H; tauto).
  unfold fcntl. rewrite (proj2 (Z.eqb_neq _ _) H1), (proj2 (Z.eqb_neq _ _) H2).
  assert (∀ c : Z, c ∈ plain_cmds → c ∉ int_cmds) as D1 by (apply Forall_forall; repeat constructor; apply (bool_decide_unpack _); vm_compute; exact I).
  assert (∀ c : Z, c ∈ ptr_cmds → c ∉ int_cmds) as D2 by (apply Forall_forall; repeat constructor; apply (bool_decide_unpack _); vm_compute; exact I).
  assert (∀ c : Z, c ∈ ptr_cmds → c ∉ plain_cmds) as D3 by (apply Forall_forall; repeat constructor; apply (bool_decide_unpack _); vm_compute; exact I).
  unfold original. destruct H as [[H (a & ->)]|[[H ->]|[H (p & ->)]]].
  - rewrite decide_True by done. rewrite (bind_ok _ _ s a s) by done. mred. by destruct (fcntl_f _ _ _ _).
  - rewrite decide_False, decide_True by auto. mred. by destruct (fcntl_f _ _ _ _).
  - rewrite decide_False, decide_False, decide_True by auto. rewrite (bind_ok _ _ s p s) by done. mred. by destruct (fcntl_f _ _ _ _).
Qed.

(** A command that the hook does not name loses its argument: locks of open file
    descriptions, seals. *)
Lemma fcntl_drops_argument fd args s :
  fcntl fd F_OFD_SETLK args s = Ok (fcntl_f (kern s) fd F_OFD_SETLK []).1 (set_kern (fcntl_f (kern s) fd F_OFD_SETLK []).2 s).
Proof.
  assert (fcntl fd F_OFD_SETLK args = original (λ k, fcntl_f k fd F_OFD_SETLK [])) as -> by reflexivity.
  unfold original. mred. by destruct (fcntl_f _ _ _ _).
Qed.

(** ioctl without an argument, which many requests allow, reads one. *)
Lemma ioctl_reads_missing int_at fd request s : ioctl (KN := KN) int_at fd request [] s = Stop Indeterminate.
Proof. reflexivity. Qed.
End Forward.

(** ** A program on the kernel of [HookProps] *)

Lemma dset_bits k k0 fd f f0 i n :
  length k = length k0 → Z.testbit (default 0 (k !! i)) n = Z.testbit (default 0 (k0 !! i)) n → Z.testbit f n = Z.testbit f0 n →
  Z.testbit (default 0 ((dset k fd f).2 !! i)) n = Z.testbit (default 0 ((dset k0 fd f0).2 !! i)) n.
Proof.
  intros Hl Hk Hf. unfold dset, zlen. rewrite Hl. destruct (_ && _) eqn:Hb; [|done]. apply andb_true_iff in Hb as [H1%Z.leb_le H2%Z.ltb_lt]. cbn [snd].
  destruct (decide (i = Z.to_nat fd)) as [->|Hne]; [rewrite !list_lookup_insert_eq by lia; done|]. by rewrite !list_lookup_insert_ne by done.
Qed.
Lemma dset_length k fd f : length (dset k fd f).2 = length k.
Proof. unfold dset. destruct (_ && _); [apply length_insert|done]. Qed.
Lemma dset_result k k0 fd f f0 : length k = length k0 → (dset k fd f).1 = (dset k0 fd f0).1.
Proof. intros Hl. unfold dset, zlen. rewrite Hl. by destruct (_ && _). Qed.

Definition dalike (k k0 : dkern) : Prop :=
  length k = length k0 ∧ ∀ i n, n ≠ NB → Z.testbit (default 0 (k !! i)) n = Z.testbit (default 0 (k0 !! i)) n.

#[global] Instance demo_flag_laws : FlagLaws dkern.
Proof.
  refine {| alike := dalike |}; cbn -[dset NB O_NONBLOCK Z.testbit]; unfold dflags.
  - done.
  - intros k k0 [Hl H]. unfold zlen. rewrite Hl. destruct (_ <? _); [|done]. split; [done|]. split; [cbn; by rewrite !length_app, Hl|].
    intros i n Hn. cbn. destruct (decide (i < length k)%nat); [rewrite !lookup_app_l by lia; auto|]. rewrite !lookup_app_r by lia. by rewrite Hl.
  - intros k k0 fd [Hl H]. split; [by apply dset_result|]. split; [split; [by rewrite !dset_length|]; intros i n Hn; apply dset_bits; auto|].
    destruct (fd <? 0) eqn:Hfd; [done|]. apply Z.ltb_ge in Hfd. unfold dset, zlen. rewrite Hl. destruct (_ && _) eqn:Hb; cbn.
    + apply andb_true_iff in Hb as [_ H2%Z.ltb_lt]. by rewrite !list_lookup_insert_eq by lia.
    + apply andb_false_iff in Hb as [H2%Z.leb_gt|H2%Z.ltb_ge]; [lia|]. by rewrite !lookup_ge_None_2 by lia.
  - intros k. destruct (Z.ltb_spec (zlen k) (2 ^ 30)) as [Hlt|]; [right|by left]. cbn [fst snd]. unfold zlen in *.
    split; [lia|]. split; [by rewrite Z.ltb_irrefl, andb_false_r|]. split; [rewrite length_app; cbn; by rewrite (proj2 (Z.leb_le _ _)), (proj2 (Z.ltb_lt _ _)) by lia|].
    split; [rewrite (proj2 (Z.ltb_ge _ _)) by lia; rewrite lookup_app_r by lia; replace (Z.to_nat (Z.of_nat (length k)) - length k)%nat with 0%nat by lia; done|].
    intros fd Hne. rewrite length_app. cbn. destruct (Z.leb_spec 0 fd); [|done]. cbn. destruct (Z.ltb_spec fd (Z.of_nat (length k))), (Z.ltb_spec fd (Z.of_nat (length k + 1))); try done; lia.
  - intros k fd fd' _. unfold zlen. by rewrite dset_length.
  - intros k k0 fd n [_ H] Hn. destruct (fd <? 0); [done|by apply H].
  - intros k k0 fd f f0 [Hl H] Hf. split; [by apply dset_result|]. split; [by rewrite !dset_length|]. intros i n Hn. apply dset_bits; auto.
  - intros k k0 fd f [Hl H] Hf. split; [by rewrite dset_length|]. intros i n Hn. rewrite <- H by done. unfold dset.
    destruct (_ && _) eqn:Hb; [|done]. apply andb_true_iff in Hb as [H1%Z.leb_le H2%Z.ltb_lt]. cbn [snd]. rewrite (proj2 (Z.ltb_ge _ _)) in Hf by lia.
    destruct (decide (i = Z.to_nat fd)) as [->|Hne]; [rewrite list_lookup_insert_eq by (unfold zlen in *; lia); by apply Hf|]. by rewrite list_lookup_insert_ne.
  - intros k k0 fd on [Hl H]. split; [by apply dset_result|]. split; [by rewrite !dset_length|]. intros i n Hn. apply dset_bits; auto.
    rewrite !set_bit_nb. rewrite !decide_False by done. auto.
  - intros k fd on k' E. etrans; [exact (@setfl_sets dkern demo_kernel demo_kernel_laws _ _ _ _ E)|]. rewrite set_bit_nb. by rewrite decide_True.
  - intros k fd on rt k' E. exact (@setfl_fails dkern demo_kernel demo_kernel_laws _ _ _ _ _ E).
  - intros k fd on rt k' fd' E. exact (@setfl_other dkern demo_kernel demo_kernel_laws _ _ _ _ _ _ E).
  - intros k fd on. unfold dset. by destruct (_ && _).
  - intros k fd f fd'. unfold zlen. by rewrite dset_length.
  - intros k fd on fd'. unfold zlen. by rewrite dset_length.
Defined.

(** F_DUPFD gives the next descriptor the flags of the old one. *)
#[global] Instance demo_originals : Originals dkern := {
  fcntl_f k fd cmd args := if (cmd =? F_DUPFD) && (0 <=? fd) && (fd <? zlen k) then (zlen k, k ++ [dflags k fd]) else (-1, k);
  ioctl_f k _ _ _ := (-1, k);
  getsockopt_f k _ _ _ _ _ := (-1, k)
}.

(** A program with two sockets. *)
Definition demo_program : list flag_call :=
  [OpenSock; GetFl 3; SetFl 3 2050; GetFl 3; NbIo 3 0; GetFl 3; OpenSock; SetFl 4 2; GetFl 4; SetFl 9 1].


(** A duplicate of a managed socket has no context: the program, which never
    asked for it, sees and gets a descriptor that does not block. *)
Lemma duplicate_does_not_block :
  ∃ s1, fcntl 3 F_DUPFD [VInt 0] demo_sys = Ok 4 s1 ∧ fcntl 3 F_GETFL [] s1 = Ok 2 s1 ∧ fcntl 4 F_GETFL [] s1 = Ok 2050 s1.
Proof. eexists. split; [vm_compute; reflexivity|]. split; vm_compute; reflexivity. Qed.

(** A socket opened with SOCK_NONBLOCK: the program's wish is not recorded. *)
Lemma nonblocking_socket_forgotten :
  ∃ c s1, FdCtx_new 3 (FdManager_new [0; 0; 0; 2050] true) = Ok c s1 ∧ m_isSocket c = true ∧ m_userNonblock c = false.
Proof. eexists _, _. split; [vm_compute; reflexivity|]. by split. Qed.
