(* ===== verification/HexDump.v ===== *)
(** ByteArray::toHexString (skt/bytearray/bytearray.cpp): the bytes from the
    position on as text, and that the text gives them back. *)

From stdpp Require Import base list strings.
From Stdlib Require Import Ascii Lia.
From S2P Require Import Prelude CString Endian ByteArray ByteArraySpec ByteArrayCodec Address.

(** std::setw(n) with a fill character, for a text printed after it. *)
Definition setw (n : nat) (fill : ascii) (t : str) : str := replicate (n - length t) fill ++ t.
Definition zero : ascii := "0"%char.
Definition blank_char : ascii := " "%char.

(** The text of byte [i]. *)
Definition hex_byte (i : nat) (b : Z) : str :=
  (if Nat.ltb 0 i && Nat.eqb (i mod 32) 0 then [LF] else []) ++ setw 2 zero (hex (b mod 256)) ++ [blank_char].
Fixpoint hex_text (i : nat) (bs : list Z) : str :=
  match bs with [] => [] | b :: bs' => hex_byte i b ++ hex_text (S i) bs' end.
(** The bytes of memory that has been written. *)
Definition defined (cs : list cell) : BA (list Z) := mderef Indeterminate (mapM id cs).

Definition toHexString : BA str := cs ← ByteArray.toString; bs ← defined cs; mret (hex_text 0 bs).

(** ** Reading the text *)

Definition unhex (c : ascii) : option Z :=
  let v := Z.of_nat (nat_of_ascii c) in
  if (48 <=? v) && (v <=? 57) then Some (v - 48) else if (97 <=? v) && (v <=? 102) then Some (v - 87) else None.
Fixpoint read_hex (fuel : nat) (t : str) : option (list Z) :=
  match fuel with
  | O => None
  | S fuel' =>
    match t with
    | [] => Some []
    | c :: t1 =>
      if bool_decide (c = LF) then read_hex fuel' t1
      else match t1 with
           | d :: e :: t2 =>
             hi ← unhex c; lo ← unhex d; guard (e = blank_char);; (λ l, 16 * hi + lo :: l) <$> read_hex fuel' t2
           | _ => None
           end
    end
  end.

(** A byte is two digits. *)
Lemma byte_digits b : 0 ≤ b < 256 → setw 2 zero (hex b) = [hex_digit (b / 16); hex_digit (b mod 16)].
Proof.
  intros Hb. unfold hex. cbn [hex_loop]. destruct (Z.eqb_spec (b / 16) 0) as [E|E].
  - unfold setw. cbn. by rewrite E.
  - assert (b / 16 / 16 = 0) as -> by (rewrite Z.div_div by lia; apply Z.div_small; lia).
    rewrite Z.eqb_refl. unfold setw. cbn. by rewrite (Z.mod_small (b / 16)) by (split; [apply Z.div_pos; lia|apply Z.div_lt_upper_bound; lia]).
Qed.

Lemma unhex_digit n : 0 ≤ n < 16 → unhex (hex_digit n) = Some n ∧ hex_digit n ≠ LF.
Proof.
  intros Hn. assert (∀ k, (k < 16)%nat → unhex (hex_digit (Z.of_nat k)) = Some (Z.of_nat k) ∧ hex_digit (Z.of_nat k) ≠ LF) as H.
  { intros k Hk. do 16 (destruct k as [|k]; [by vm_compute|]). lia. }
  specialize (H (Z.to_nat n)). rewrite Z2Nat.id in H by lia. apply H. lia.
Qed.

Lemma read_hex_text bs : ∀ i fuel,
  Forall (λ b, 0 ≤ b < 256) bs → (2 * length bs < fuel)%nat → read_hex fuel (hex_text i bs) = Some bs.
Proof.
  induction bs as [|b bs IH]; intros i fuel Hb Hf; [by destruct fuel; [cbn in Hf; lia|]|]. apply Forall_cons in Hb as [Hb Hbs].
  cbn [length] in Hf. assert (0 ≤ b / 16 < 16 ∧ 0 ≤ b mod 16 < 16) as [H1 H2].
  { split; [split; [apply Z.div_pos; lia|apply Z.div_lt_upper_bound; lia]|apply Z.mod_pos_bound; lia]. }
  assert (∀ f, (2 * length bs < f)%nat → read_hex (S f) (setw 2 zero (hex (b mod 256)) ++ [blank_char] ++ hex_text (S i) bs) = Some (b :: bs)) as Hrest.
  { intros f Hl. rewrite Z.mod_small by done. rewrite byte_digits by done. destruct (unhex_digit _ H1) as [U1 N1], (unhex_digit _ H2) as [U2 _].
    cbn [app read_hex]. rewrite bool_decide_eq_false_2 by done. rewrite U1, U2. cbn -[Z.add Z.mul Z.div Z.modulo]. rewrite IH by done. cbn -[Z.add Z.mul Z.div Z.modulo].
    case_guard; [|done]. cbn. by rewrite <- Z.div_mod by done. }
  cbn [hex_text]. unfold hex_byte. rewrite <- !app_assoc. destruct (_ && _); [|destruct fuel as [|fuel]; [lia|apply Hrest; lia]].
  destruct fuel as [|[|fuel]]; [lia..|]. cbn [app read_hex]. rewrite bool_decide_eq_true_2 by done. apply Hrest. lia.
Qed.

(** The text of toHexString gives the bytes back: from the position to the
    end of the data, with the lines ignored; nothing of the buffer changes. *)
Theorem hex_string_reads_back s bs :
  ba_inv s → zslice (m_position s) (m_size s - m_position s) (flat s) = Some <$> bs → Forall (λ b, 0 ≤ b < 256) bs →
  ∃ t, ⟨ toHexString, s ⟩ ⇓ ⟨ t, s ⟩ ∧ read_hex (S (2 * length bs)) t = Some bs.
Proof.
  intros Hinv Hd Hb. exists (hex_text 0 bs). split; [|apply read_hex_text; [done|lia]].
  unfold toHexString. run (toString_spec s Hinv). rewrite Hd. unfold defined.
  assert (mapM id (Some <$> bs) = Some bs) as -> by (clear; induction bs as [|b bs IH]; [done|]; cbn; by rewrite IH). done.
Qed.

Definition demo_write : BA unit := write (Some <$> [1; 171; 0]) 3;; setPosition 0.
Definition demo_bytes : ByteArray := match demo_write (newByteArray 2) with Ok _ s => s | _ => newByteArray 2 end.
Lemma demo_bytes_inv : ba_inv demo_bytes.
Proof.
  destruct (write_abs (newByteArray 2) (Some <$> [1; 171; 0]) 3) as (s1 & E1 & H1 & A1 & _); [apply new_inv; lia|by vm_compute|by vm_compute|].
  destruct (setPosition_abs s1 0) as (s2 & E2 & H2 & _); [done|pose proof (bi_size _ H1); pose proof (co_pos _ (bi_chain _ H1)); lia|].
  unfold demo_bytes, demo_write. rewrite (bind_ok _ _ _ _ _ E1), E2. exact H2.
Qed.

Lemma hex_string_reads_back_witness : ∃ t, toHexString demo_bytes = Ok t demo_bytes ∧ read_hex 7 t = Some [1; 171; 0].
Proof.
  destruct (hex_string_reads_back demo_bytes [1; 171; 0] demo_bytes_inv) as (t & E & R).
  - vm_compute. reflexivity.
  - repeat constructor; lia.
  - exists t. split; [exact E|exact R].
Defined.

Lemma demo_hex : toHexString demo_bytes = Ok (L "01 ab 00 ") demo_bytes.
Proof. vm_compute. reflexivity. Qed.
