(* ===== verification/Util.v ===== *)
(** The functions of skt/util/util.cpp on backtraces, times and identities.
    backtrace_symbols, strftime, strptime and mktime are arguments. *)

From stdpp Require Import base list strings.
From Stdlib Require Import Lia.
From S2P Require Import Prelude CString.

(** ** Identities *)

(** GetThreadId and GetFiberId: what LogEvent keeps of the ids. The id of a fiber
    has 64 bits, GetFiberId returns 32. *)
Definition util_GetFiberId (id : Z) : Z := u32 id.

(** ** Backtraces *)

(** Backtrace; [strings] is what backtrace_symbols returns for the frames that
    backtrace found. The index starts at skip, an int turned into a size_t. *)
Definition Backtrace (strings : option (list str)) (skip : Z) (bt : list str) : list str :=
  match strings with
  | None => bt
  | Some l => bt ++ drop (Z.to_nat (u64 skip)) l
  end.

Fixpoint print_frames (prefix : str) (bt : list str) (ss : str) : str :=
  match bt with [] => ss | b :: bt' => print_frames prefix bt' (ss ++ prefix ++ b ++ [LF]) end.
Definition BacktraceToString (strings : option (list str)) (skip : Z) (prefix : str) : str :=
  print_frames prefix (Backtrace strings skip []) [].

Lemma print_frames_app prefix bt ss : print_frames prefix bt ss = ss ++ (bt ≫= λ b, prefix ++ b ++ [LF]).
Proof.
  revert ss. induction bt as [|b bt IH]; intros ss; cbn [print_frames]; [by rewrite app_nil_r|].
  rewrite IH. cbn. by rewrite <- !app_assoc.
Qed.

(** The text has a line for every frame from skip on. *)
Lemma backtrace_lines l skip prefix :
  0 ≤ skip < 2 ^ 31 → BacktraceToString (Some l) skip prefix = drop (Z.to_nat skip) l ≫= λ b, prefix ++ b ++ [LF].
Proof.
  intros H. unfold BacktraceToString, Backtrace. rewrite print_frames_app. cbn. f_equal. unfold u64.
  rewrite Z.mod_small by lia. done.
Qed.

(** With a negative skip there is none. *)
Lemma backtrace_negative_skip l skip prefix :
  - 2 ^ 31 ≤ skip < 0 → Z.of_nat (length l) < 2 ^ 32 → BacktraceToString (Some l) skip prefix = [].
Proof.
  intros H Hl. unfold BacktraceToString, Backtrace. rewrite print_frames_app. cbn. unfold u64.
  assert (skip mod 2 ^ 64 = skip + 2 ^ 64) as -> by (rewrite <- (Z_mod_plus_full skip 1 (2 ^ 64)), Z.mul_1_l; apply Z.mod_small; lia).
  by rewrite drop_ge by lia.
Qed.

(** ** Times *)

(** The content of the buffer of 64 bytes after strftime, up to its terminator;
    None: strftime returned 0 and left it as it was. *)
Definition Time2Str {S} (strftime : Z → str → option str) (ts : Z) (format : str) : M S str :=
  mderef Indeterminate (strftime ts format).

Section Times.
Context {tm : Type} (tm_zero : tm) (strptime : str → str → tm → option tm) (mktime : tm → Z).
Definition Str2Time (s format : str) : Z :=
  match strptime s format tm_zero with None => 0 | Some t => mktime t end.
End Times.

(** ** __lstat *)

(** The result, and *st when a pointer is given: also after a failure, when lst
    has not been written ([None]). *)
Definition __lstat {T} (lstat : str → Z * option T) (file : str) (want : bool) : Z * option (option T) :=
  let '(ret, lst) := lstat file in (ret, if want then Some lst else None).
