(* ===== verification/LogMacros.v ===== *)
(** What a program writes to log (skt/log/log.h, skt/log/log.cpp): the macros
    SKT_LOG_LEVEL and SKT_LOG_FMT_LEVEL with LogEvent and LogEventWrap, and the
    methods of Logger for a level, over [Logger]; SKT_ASSERT (skt/macro/macro.h),
    which logs before it aborts. *)

From stdpp Require Import base list strings gmap.
From Stdlib Require Import Ascii Lia.
From S2P Require Import Prelude StdOrdered CString LogFormat LogFormatProps Logger LoggerProps Util.

Section Macros.
Abbreviation logs := (M Logs).
Context (strftime : str → Z → option str) (can_open can_write : str → Z → bool).
(** vasprintf; None: -1. *)
Context (vasprintf : str → list Z → option str).
Abbreviation log := (Logger.log strftime can_open can_write).

(** Where a macro stands, and what it asks the process: __FILE__, __LINE__,
    GetThreadId(), the id of the fiber, time(0) and Thread::GetName(). *)
Record place : Type := mkPlace { pl_file : str; pl_line : Z; pl_thread : Z; pl_fiber : Z; pl_time : Z; pl_name : str }.

(** LogEvent::LogEvent, with the members at their widths; m_threadId is an int32_t. *)
Definition LogEvent_new (logger_name : str) (level : Level) (p : place) : LogEvent :=
  mkEvent (pl_file p) (i32 (pl_line p)) (u32 0) (i32 (u32 (pl_thread p))) (util_GetFiberId (pl_fiber p)) (u64 (pl_time p)) [] (pl_name p) logger_name level.

(** The stream of the event, and LogEvent::format. *)
Definition write_event (t : str) (ev : LogEvent) : LogEvent :=
  mkEvent (ev_file ev) (ev_line ev) (ev_elapse ev) (ev_threadId ev) (ev_fiberId ev) (ev_time ev) (ev_content ev ++ t)
    (ev_threadName ev) (ev_loggerName ev) (ev_level ev).
Definition event_format (fmt : str) (args : list Z) (ev : LogEvent) : LogEvent :=
  match vasprintf fmt args with Some t => write_event t ev | None => ev end.

(** LogEventWrap::~LogEventWrap: the event goes to its logger; [now] is the time
    of appenders to files. *)
Definition LogEventWrap_delete (fuel : nat) (now : Z) (l : nat) (ev : LogEvent) : logs unit := log fuel now l (ev_level ev) ev.

(** SKT_LOG_LEVEL(logger, level) << texts *)
Definition SKT_LOG_LEVEL (fuel : nat) (now : Z) (l : nat) (level : Level) (p : place) (texts : list str) : logs unit :=
  g ← logger_at l;
  if level_le (lg_level g) level
  then LogEventWrap_delete fuel now l (fold_left (λ ev t, write_event t ev) texts (LogEvent_new (lg_name g) level p))
  else mret tt.
(** SKT_LOG_FMT_LEVEL(logger, level, fmt, args) *)
Definition SKT_LOG_FMT_LEVEL (fuel : nat) (now : Z) (l : nat) (level : Level) (p : place) (fmt : str) (args : list Z) : logs unit :=
  g ← logger_at l;
  if level_le (lg_level g) level
  then LogEventWrap_delete fuel now l (event_format fmt args (LogEvent_new (lg_name g) level p))
  else mret tt.

(** Logger::debug, info, warn, error, fatal: the level of the event is not used. *)
Definition debug (fuel : nat) (now : Z) (l : nat) (ev : LogEvent) : logs unit := log fuel now l DEBUG ev.
Definition info (fuel : nat) (now : Z) (l : nat) (ev : LogEvent) : logs unit := log fuel now l INFO ev.
Definition warn (fuel : nat) (now : Z) (l : nat) (ev : LogEvent) : logs unit := log fuel now l WARN ev.
Definition error (fuel : nat) (now : Z) (l : nat) (ev : LogEvent) : logs unit := log fuel now l ERROR ev.
Definition fatal (fuel : nat) (now : Z) (l : nat) (ev : LogEvent) : logs unit := log fuel now l FATAL ev.

(** SKT_ASSERT(x), SKT_ASSERT2(x, w): [x] is evaluated again by assert. *)
Definition SKT_ASSERT (fuel : nat) (now : Z) (root : nat) (p : place) (x : logs bool) (message : list str) (backtrace : option (list str)) : logs unit :=
  b ← x;
  match b with
  | true => mret tt
  | false =>
    SKT_LOG_LEVEL fuel now root ERROR p (message ++ [[LF] ++ L "backtrace:" ++ [LF]; BacktraceToString backtrace 2 (L "     ")]);;
    b' ← x; massert b'
  end.

(** ** The test of the macro *)

Lemma written_event texts ev :
  fold_left (λ ev t, write_event t ev) texts ev = write_event (concat texts) ev.
Proof.
  revert ev. induction texts as [|t texts IH]; intros ev; cbn [fold_left concat]; [destruct ev; unfold write_event; cbn; by rewrite app_nil_r|].
  rewrite IH. unfold write_event. cbn. by rewrite app_assoc.
Qed.

(** The macro logs exactly what Logger::log would without its test: the event
    with the texts in order. *)
Lemma macro_is_log fuel now l level p texts s g :
  loggers s !! l = Some g →
  SKT_LOG_LEVEL (S fuel) now l level p texts s =
  log (S fuel) now l level (write_event (concat texts) (LogEvent_new (lg_name g) level p)) s.
Proof.
  intros Hl. unfold SKT_LOG_LEVEL, logger_at at 1. rewrite bind_assoc. rewrite (bind_ok _ _ _ _ _ (eq_refl : mget s = Ok s s)), Hl.
  rewrite (bind_ok _ _ s g s) by done. rewrite written_event. unfold LogEventWrap_delete. cbn [ev_level write_event LogEvent_new].
  destruct (level_le (lg_level g) level) eqn:E; [done|]. cbn [Logger.log]. unfold logger_at.
  rewrite bind_assoc, (bind_ok _ _ _ _ _ (eq_refl : mget s = Ok s s)), Hl, (bind_ok _ _ s g s) by done. by rewrite E.
Qed.

(** A failed assertion without side effects is [massert]: the message goes to the
    root logger, then the process ends. *)
Lemma assert_is_massert (time_fits : ∀ t, is_Some (strftime default_time t)) now p b message backtrace s g :
  reachable strftime can_open can_write s → loggers s !! m_root s = Some g →
  SKT_ASSERT 2 now (m_root s) p (mret b) message backtrace s = massert b s.
Proof.
  intros Hs Hg. unfold SKT_ASSERT. rewrite (bind_ok _ _ s b s) by done. destruct b; [done|].
  destruct (log_ok strftime can_open can_write time_fits s (m_root s) g now ERROR
    (write_event (concat (message ++ [[LF] ++ L "backtrace:" ++ [LF]; BacktraceToString backtrace 2 (L "     ")])) (LogEvent_new (lg_name g) ERROR p))
    (reachable_ok strftime can_open can_write time_fits s Hs) Hg) as (s' & E & _).
  rewrite <- (macro_is_log 1 now (m_root s) ERROR p _ s g Hg) in E. by rewrite (bind_ok _ _ _ _ _ E).
Qed.
End Macros.
