(* ===== verification/Lifecycle.v ===== *)
(** The end of schedulers (skt/scheduler/scheduler.cpp, skt/iomanager/iomanager.cpp):
    Scheduler::stop with the join of its threads, and both destructors. *)

From stdpp Require Import base list gmap.
From Stdlib Require Import Lia.
From S2P Require Import Prelude Fiber Scheduler Timer IOManager.

(** The object, t_scheduler of the thread that ends it (the address of a
    scheduler), and the descriptors closed. *)
Record Ending (K : Type) : Type := mkEnding { en_host : IOHost K; t_scheduler : option Z; closed : list Z }.
Arguments mkEnding {K} _ _ _.
Arguments en_host {K} _.
Arguments t_scheduler {K} _.
Arguments closed {K} _.

Section End.
Context {K : Type}.
Abbreviation ending := (M (Ending K)).
(** The object; what its root fiber does to it when stop calls it, and what its
    threads do until they are joined. *)
Context (this : Z) (root_runs threads_run : Sched → Sched).

Definition on_sched {A} (c : M Sched A) : ending A := λ e,
  let put s := mkEnding (set_sched s (en_host e)) (t_scheduler e) (closed e) in
  match c (io_sched (en_host e)) with
  | Ok a s => Ok a (put s)
  | Exc x s => Exc x (put s)
  | Stop u => Stop u
  | NoFuel => NoFuel
  end.

(** thrs.swap(m_threads), and join of each. *)
Definition join_threads : M Sched unit :=
  mmodify threads_run;; mmodify (λ s, set_threads 0 (m_threadIds s) s).

Definition Scheduler_stop (root_state : State) : ending unit :=
  e ← mget;
  on_sched ('(call, join) ← stop_request root_state (bool_decide (t_scheduler e = Some this));
            (if (call : bool) then mmodify root_runs else mret tt);;
            if (join : bool) then join_threads else mret tt).

Definition Scheduler_delete : ending unit :=
  e ← mget;
  massert (m_stopping (io_sched (en_host e)));;
  if decide (t_scheduler e = Some this) then mput (mkEnding (en_host e) None (closed e)) else mret tt.

Definition close_one (fd : Z) : ending unit := mmodify (λ e, mkEnding (en_host e) (t_scheduler e) (closed e ++ [fd])).
(** delete of every context: the table is left with none. *)
Definition delete_contexts : ending unit := mmodify (λ e, mkEnding (set_contexts [] (en_host e)) (t_scheduler e) (closed e)).

(** IOManager::~IOManager, then ~Scheduler. *)
Definition IOManager_delete (root_state : State) (m_epfd tick0 tick1 : Z) : ending unit :=
  Scheduler_stop root_state;;
  close_one m_epfd;; close_one tick0;; close_one tick1;;
  delete_contexts;;
  Scheduler_delete.
End End.

Section Props.
Context {K : Type} (this : Z) (root_runs threads_run : Sched → Sched).
(** run assigns neither m_stopping nor the threads. *)
Context (root_keeps : ∀ s, m_stopping (root_runs s) = m_stopping s) (threads_keep : ∀ s, m_stopping (threads_run s) = m_stopping s).

Lemma iter_tickle n s : m_stopping (Nat.iter n tickle s) = m_stopping s.
Proof. induction n as [|n IH]; [done|]. cbn. exact IH. Qed.

(** What stop leaves when it is called where it may be. *)
Lemma stop_request_ok root_state b s :
  b = negb (m_rootThread s =? -1) →
  ∃ call join s', ⟨ stop_request root_state b, s ⟩ ⇓ ⟨ (call, join), s' ⟩ ∧ m_stopping s' = true ∧
    (join = false → m_threadCount s = 0 ∧ m_threads s' = m_threads s).
Proof.
  intros ->. unfold stop_request. rewrite bind_modify. set (s1 := set_stop _ true s).
  rewrite (bind_ok _ _ _ _ _ (eq_refl : mget s1 = Ok s1 s1)). cbv zeta. set (root := bool_decide (m_rootFiber s1 ≠ None)).
  destruct (root && (m_threadCount s1 =? 0) && (bool_decide (root_state = TERM) || bool_decide (root_state = INIT))) eqn:Hri.
  - set (s2 := set_stop true (m_autoStop s1) s1). rewrite (bind_ok _ _ s1 tt s2) by done.
    rewrite (bind_ok _ _ _ _ _ (eq_refl : mget s2 = Ok s2 s2)). destruct (stopping s2).
    + exists false, false, s2. split; [done|]. split; [done|]. intros _. split; [|done].
      apply andb_true_iff in Hri as [[_ Hc]%andb_true_iff _]. by apply Z.eqb_eq in Hc.
    + cbn [andb]. change (m_rootThread s2) with (m_rootThread s).
      rewrite (bind_ok _ _ s2 tt s2) by by destruct (m_rootThread s =? -1).
      rewrite (bind_ok _ _ s2 tt (set_stop true (m_autoStop s2) s2)) by done. rewrite bind_modify.
      destruct root; eexists _, true, _; (split; [reflexivity|]); (split; [cbn; by rewrite iter_tickle|done]).
  - rewrite (bind_ok _ _ s1 tt s1) by done. rewrite (bind_ok _ _ _ _ _ (eq_refl : mget s1 = Ok s1 s1)). cbn [andb].
    change (m_rootThread s1) with (m_rootThread s). rewrite (bind_ok _ _ s1 tt s1) by by destruct (m_rootThread s =? -1).
    rewrite (bind_ok _ _ s1 tt (set_stop true (m_autoStop s1) s1)) by done. rewrite bind_modify.
    destruct root; eexists _, true, _; (split; [reflexivity|]); (split; [cbn; by rewrite iter_tickle|done]).
Qed.

(** An IOManager ends cleanly where stop may be called: in the thread it was
    made in, when that thread is one of its threads, in one that is not otherwise.
    No assertion of the destructors fails, no thread is left, the three
    descriptors are closed once, every context is deleted, and the thread has no
    pointer to the object. *)
Theorem IOManager_ends (e : Ending K) root_state m_epfd tick0 tick1 :
  bool_decide (t_scheduler e = Some this) = negb (m_rootThread (io_sched (en_host e)) =? -1) →
  Z.of_nat (m_threads (io_sched (en_host e))) ≤ Z.max 0 (m_threadCount (io_sched (en_host e))) →
  (∀ s, m_threads (root_runs s) = m_threads s) →
  ∃ e', ⟨ IOManager_delete this root_runs threads_run root_state m_epfd tick0 tick1, e ⟩ ⇓ ⟨ tt, e' ⟩ ∧
    m_threads (io_sched (en_host e')) = 0%nat ∧ closed e' = closed e ++ [m_epfd; tick0; tick1] ∧
    m_fdContexts (en_host e') = [] ∧ t_scheduler e' ≠ Some this.
Proof.
  intros Hthis Hcount Hroot. destruct (stop_request_ok root_state _ _ Hthis) as (call & join & s' & E & Hst & Hjoin).
  assert (∃ s2, Scheduler_stop this root_runs threads_run root_state e = Ok tt (mkEnding (set_sched s2 (en_host e)) (t_scheduler e) (closed e)) ∧
    m_stopping s2 = true ∧ m_threads s2 = 0%nat) as (s2 & E2 & Hs2 & Ht2).
  { unfold Scheduler_stop. rewrite (bind_ok _ _ _ _ _ (eq_refl : mget e = Ok e e)). unfold on_sched.
    rewrite (bind_ok _ _ _ _ _ E). cbv beta iota. set (s3 := if call then root_runs s' else s').
    assert (m_stopping s3 = true ∧ m_threads s3 = m_threads s') as [H3 H4] by (unfold s3; destruct call; [by rewrite root_keeps, Hroot|done]).
    rewrite (bind_ok _ _ s' tt s3) by (unfold s3; by destruct call).
    destruct join; [|exists s3; split; [done|split; [done|]]; destruct (Hjoin eq_refl) as [H5 H6]; rewrite H5 in Hcount; cbn in Hcount; rewrite H4, H6; lia].
    eexists. split; [reflexivity|]. split; [cbn; by rewrite threads_keep|done]. }
  unfold IOManager_delete. rewrite (bind_ok _ _ _ _ _ E2). unfold close_one, delete_contexts. rewrite !bind_modify. cbn [en_host t_scheduler closed].
  unfold Scheduler_delete. set (e3 := mkEnding _ _ _). rewrite (bind_ok _ _ _ _ _ (eq_refl : mget e3 = Ok e3 e3)).
  rewrite (bind_ok _ _ e3 tt e3) by (cbn; by rewrite Hs2). destruct (decide (t_scheduler e3 = Some this)) as [Hd|Hd].
  - eexists. split; [reflexivity|]. cbn. split_and!; try done. by rewrite <- !app_assoc.
  - exists e3. split; [done|]. cbn. split_and!; try done. by rewrite <- !app_assoc.
Qed.
End Props.

(** ** Schedulers of one caller and two threads *)

Definition demo_owner (sched : option Z) (root : Z) : Ending unit :=
  mkEnding (mkHost (mkSched [] (if root =? -1 then None else Some 7) 2 [root; 11; 12] 2 0 2 false false root 0) tt 0 (new_contexts 0 32) 0) sched [].

Lemma demo_ends :
  ∃ e', IOManager_delete 1 id id EXEC 3 4 5 (demo_owner (Some 1) 10) = Ok tt e' ∧ closed e' = [3; 4; 5] ∧ t_scheduler e' = None.
Proof. eexists. split; [vm_compute; reflexivity|]. by split. Qed.

(** In any other thread the destructor of a scheduler that uses its caller aborts. *)
Lemma ends_in_other_thread : IOManager_delete 1 id id EXEC 3 4 5 (demo_owner None 10) = Stop AssertFail.
Proof. vm_compute. reflexivity. Qed.
